(* ===== verification/_CoqProject ===== *)
-Q . S2P
Prelude.v
Memory.v
El3State.v
PoolAlloc.v
El3Pgt.v
El3Mmu.v
SmmuRealm.v
SmmuSpec.v
El3Common.v
El3Handler.v
El3Spec.v
BMRuntime.v
BMSpec.v
ValPgt.v
ValPgtSpec.v
Pcie.v
PcieSpec.v
PcieEnum.v
PcieEnumSpec.v
PciePal.v
TestRun.v
TestRunSpec.v
Gic.v
GicSpec.v
GicIts.v
GicItsSpec.v
Iovirt.v
IovirtSpec.v
SmmuVal.v
SmmuValSpec.v
Exerciser.v
El3Call.v
TestModules.v
Da.v
DaSpec.v
DoeSpec.v
PcieDa.v
PcieDaSpec.v
Timer.v
Periph.v
PeriphSpec.v
MemMap.v
MemMapSpec.v
PePal.v
PePalSpec.v
El3Smc.v
El3Map.v
TestPas.v
TestPasSpec.v
TestMem.v
TestMemSpec.v
TestDa.v
TestDaSpec.v
Acpi.v
Iort.v
IortSpec.v
UefiMem.v
AcpiTables.v
AcpiSpec.v
UefiPci.v
UefiExerciser.v
UefiSpec.v
