(* ===== verification/Prelude.v ===== *)
(** * RME system architecture compliance suite: verification library

    The suite tests the Realm Management Extension. Its code runs in two
    worlds. At EL3, inside the firmware, the files of val_el3/ serve secure
    monitor calls of the tests: they edit granule protection tables and the EL3
    translation tables, drive the Realm SMMUv3, the root watchdog and SCR_EL3,
    and catch the faults a test provokes. On the non-secure side the files of
    val/ build the page tables of EL2 and walk the PCIe hierarchy, on a
    platform layer of which platform/pal_baremetal/ is the bare-metal one and
    platform/pal_uefi/ the one that runs on UEFI firmware and its ACPI tables. The
    two sides share one structure in memory ([struct_sh_data]).

    ** Files

    - Prelude: 64-bit integers as [Z] with their wrap-around, the monad [M] of
      computations with undefined behaviour and fuel, loops, the [wp] of a
      computation, bit-field lemmas and the automation.
    - Memory: byte memory, little-endian loads and stores, frame lemmas.
    - El3State: the state of the EL3 code (memory, hardware behind the class
      [Hw], system registers, shared structure, driver structures, trace).
    - PoolAlloc: the pool allocator at the head of val_el3/smmuv3_realm.c.
      Specification: a first-fit allocator on a list of blocks ([pool_alloc],
      [pool_release]); [chain] and [pool_ok] relate it to the bytes.
    - El3Pgt: val_el3/pgt_common.c. Specification of the granule protection
      side: [gpt_slot] and [gpt_gpi], the slot the architecture's look-up
      reaches for an address and the protection information it holds.
    - El3Mmu: the theorem on [add_mmu_entry], with the tree of translation
      tables ([tables]) as the view of memory. The recursion by which a table
      page is itself mapped is bounded by the tables that are [missing] on the
      way to a page and to the pool of pages.
    - SmmuRealm, SmmuSpec: the SMMUv3 driver of val_el3/smmuv3_realm.c and its
      theorems. A typed store keyed by pool address holds the C structures the
      driver allocates; tables the SMMU reads are bytes of memory.
    - El3Common, El3Handler, El3Spec: val_el3/ack_common.c,
      val_el3/plat_acs_smc_handler.c with the routines of
      val_el3/aarch64/ack_helper_functions.S they end in, and their theorems.
    - BMRuntime, BMSpec: heap, strings and console output of
      platform/pal_baremetal/src/pal_misc.c.
    - ValPgt, ValPgtSpec: val/src/acs_pgt.c with the register decoding of
      val/src/acs_pe.c and val_setup_mmu of val/src/acs_memory.c. Pages come
      through the class [PalMem], which BMRuntime implements ([bm_pal]).
      Specification: [arch_walk], the architecture's walk, which ends at a
      page or block descriptor or with a translation fault.
    - Pcie, PcieSpec: val/src/acs_pcie.c. The platform's answers about a
      Function are the class [PciPal].
    - PcieEnum, PcieEnumSpec: the enumeration of
      platform/pal_baremetal/src/pal_pcie_enumeration.c (bus numbers, BARs).
      Specification: a tree of Functions and the bus numbers of its
      depth-first traversal.
    - PciePal: platform/pal_baremetal/src/pal_pcie.c with its theorems; one of
      them joins it to Pcie.
    - TestRun, TestRunSpec: val/src/acs_test_infra.c, acs_status.c,
      acs_pe_infra.c and test_entry_rme.c. The other PEs are the class [Pes]:
      what they do to the shared memory between two polls.
    - Gic, GicSpec: val/src/acs_gic.c, val/sys_arch_src/gic/gic.c, v3/, v2/ and
      rme_exception.c, with the bare-metal tables of pal_gic.c.
    - GicIts, GicItsSpec: val/sys_arch_src/gic/its/ and
      val/src/acs_gic_support.c. Specification: an ITS as device, translation
      and collection tables, the copies of the LPI configuration and the
      redistributors with effects that are not visible yet ([vits]); it executes
      the commands decoded from the queue; [route] is the redistributor and
      INTID of an event.
    - Iovirt, IovirtSpec: val/src/acs_iovirt.c, pal_iovirt.c and the FVP's
      description of the IO virtualisation table. Specification: the look-up on
      the list of nodes ([iort_info]).
    - SmmuVal, SmmuValSpec: val/sys_arch_src/smmu_v3/smmu_v3.c and its client
      look-ups. The platform's allocator is the class [SmmuHeap], which
      BMRuntime implements ([bm_heap]); the producer register is the class
      [ProdReg]. Specification: what the SMMU decodes from the stream table and
      the command queue ([stream], [commands]).
    - Exerciser: the PCIe stimulus generator, val/src/acs_exerciser.c and
      platform/pal_baremetal/src/pal_exerciser.c.
    - El3Call: val/src/acs_el3.c. A call into EL3 is a run of the dispatcher of
      El3Handler.
    - TestModules: the entry points of the DA, GIC, SMMU and legacy tests
      (acs_da.c, acs_gic.c, acs_smmu.c, acs_legacy.c), the last on the product
      of the state of the test runner and of EL3, with their theorems.
    - Da, DaSpec: the IDE streams and the interconnect check of
      val/src/acs_da.c, and platform/pal_baremetal/src/pal_tdisp_spdm.c. What a
      Non-secure access does is the class [NsBus]. Specification: the layout
      of the IDE capability in configuration space ([ide_layout]).
    - DoeSpec: the messages of Da against a model of the DOE mailbox of a
      Function ([doe_value], [doe_store]) with an arbitrary responder, which may
      be ready, busy or in error once a request was handed over.
    - PcieDa, PcieDaSpec: the rest of val/src/acs_pcie.c, which calls EL3 or the
      platform; the state is the product of the test runner, EL3 and the PCIe
      tables.
    - Timer: val/src/acs_timer.c, acs_timer_support.c, acs_wd.c and
      pal_timer_wd.c with their theorems; the generic timer is the class
      [ArchTimer].
    - Periph, PeriphSpec: val/src/acs_peripherals.c and pal_peripherals.c.
      Specification: what the reads of the configuration space find ([found]),
      what the queries answer ([told]), and the numbers of the entries of a
      type ([numbers_of]).
    - MemMap, MemMapSpec: platform/pal_baremetal/src/pal_memory.c, the list of
      regions that ValPgt maps, and the registers that turn the MMU on.
      Specification: the regions of the description ([all_regions]).
    - PePal, PePalSpec: val/src/acs_pe.c, acs_wakeup.c, pal_pe.c and the entry
      point of a started PE (AArch64/ModuleEntryPoint.S). Specification: the
      affinity fields as digits of a mixed radix ([place]).
    - El3Smc: what the VAL reaches with an SMC once the tests' handler is
      installed: the call as an exception, the access it makes for the test and
      the fault of that access. Which accesses fault is the class [El3Bus].
    - El3Map: the class [El3Map], what a test may rely on when it asks EL3 to
      map page after page, and its instance from the lemmas of El3Mmu.
    - TestPas, TestPasSpec: the RME tests that access a location from every
      physical address space (test_pool/rme/, 4, 9, 11, 16, 17, 21, 25, 26,
      29). Their theorems are proved against [El3Map] and the results of El3Smc.
    - TestMem, TestMemSpec: the RME tests about encryption and the point of
      physical aliasing (5, 10, 14, 15, 19, 20, 22).
    - TestDa, TestDaSpec: the device assignment tests (test_pool/da/, 1 to 7, 9 to
      12 and 16 to 20), on the state of PcieDa with the exercisers.
    - Acpi: the look-up of ACPI tables, platform/pal_uefi/src/pal_acpi.c. What
      the UEFI headers declare of the layout of the tables is the class [Acpi];
      [acpi_6_1] is the published layout.
    - Iort, IortSpec: platform/pal_uefi/src/pal_iovirt.c, the IORT of the firmware
      made into the table that Iovirt reads. Specification: the IORT as a list of
      nodes ([node], [encoded]), and what it says of a requester.
    - UefiMem: allocation, shared memory, the status kept across a reset, register
      access, memory types, handlers of interrupts and exceptions (pal_misc.c,
      pal_peripherals.c, pal_gic.c and pal_pe.c of platform/pal_uefi/src/). The
      services of the firmware are the classes [BootServices] and [Interrupts].
    - AcpiTables, AcpiSpec: the tables made from the MADT, the GTDT and the MCFG
      (pal_gic.c, pal_pe.c, pal_timer_wd.c, pal_pcie.c). Specification: the
      structures of the table in order ([madt_encoded], [gtdt_encoded]); [gic_view]
      is what Gic reads of the result, and PePal's [place] tells the stacks apart.
    - UefiPci: configuration access and the search for controllers through the
      firmware's handles, the class [PciIo] (pal_pcie.c, pal_pcie_enumeration.c,
      pal_peripherals.c). UefiExerciser: pal_exerciser.c. UefiSpec: their theorems.

    A definition has the name of the C function it translates. A C loop is a
    step function (named [..._step] or [..._from]) under [loop], [for_acc] or
    [for_range]; a pointer argument through which a result is stored becomes a
    component of the result, an [option] where the function may leave it
    unwritten; messages printed for the user are left out.

    ** Theorems

    The properties are numbered in the doc comments, C1 to C40; the other theorems
    named here carry no number.
    - Tables: an update of the granule protection tables is exactly the change
      of one slot ([add_gpt_entry_refines]); EL3 and EL2 mapping calls map what
      they were asked and keep the rest ([add_mmu_entry_maps],
      [val_pgt_create_maps]); the attribute query is the architecture's walk
      ([get_attributes_walks]).
    - Allocators: the pool allocator refines first fit, is safe, frees and
      merges ([my_malloc_refines], [my_malloc_safe], [my_free_refines]); the
      bare-metal heap is disjoint ([mem_alloc_fresh]); the stacks of the PEs do
      not overlap ([secondary_stacks], with UEFI [pe_info_from_madt]); an aligned
      UEFI allocation lies in its memory ([aligned_alloc_inside]).
    - Platform data: the list of regions is the one described, within its bound
      ([mmap_list_regions]); the table of peripherals is made in bounded
      time and answers what the configuration space showed
      ([peripheral_table_ranges]), as are
      the system timers ([platform_timers]); a timer is armed while it is
      masked ([timer_armed]). With UEFI: the interrupt controllers and timers are
      those of the MADT and the GTDT ([gic_info_from_madt], [timers_from_gtdt]);
      the search for a controller ([controller_search_first]); the counters of the
      tests survive a reset ([test_data_roundtrip]).
    - SMMU: stream table isolation ([write_ste_s2_isolated]), the command queue
      as a ring ([smmu_queue_ring]), a command's slot and index
      ([write_cmd_spec]), the poll always ends ([poll_terminates]). On the
      non-secure side a mapped stream translates with the descriptor's table and
      every other stream is as before ([val_smmu_map_s2]); an unmapped one aborts
      ([val_smmu_unmap_aborts]).
    - IO virtualisation table: identifier look-up is the look-up on the list of
      nodes ([device_info_reference]); the table made from a sound description is
      well typed and closed ([created_table_typed]). The table made from an IORT
      answers what the IORT says ([acpi_iort_lookup]); nodes with two mappings make
      its check read out of bounds ([acpi_iort_two_maps]).
    - GIC and ITS: after the five commands of [val_its_create_lpi_map] the ITS
      routes the event to the PE, with the configuration of the table
      ([lpi_map_routes]), [val_its_clear_lpi_map]
      removes it ([lpi_clear_unmaps]); the redistributor search and the tables
      on which it finds nothing ([pe_rdbase_first]), an interrupt runs its handler once and is ended
      ([irq_runs_isr]). Further: [priority_byte], [spi_source],
      [max_lpi_spec].
    - PCIe: enumeration numbers the buses of the whole tree
      ([enumerate_device_numbers]),
      capability search ([find_capability_first]), order of the Functions
      ([increment_bdf_next]), configuration windows ([cfg_access_window]),
      root ports ([root_port_first]).
    - Test runner: a test is reported passed only if every PE passed
      ([test_pass_sound]); the wait returns when all PEs answer in time
      ([wait_completes]).
    - Device assignment: the registers of an established stream
      ([ide_establish_registers]); an exchange over the mailbox is faithful in
      both directions with a Function that has its answer ready, and an error
      with one that has not ([doe_exchange_roundtrip]).
    - EL3 services: one-shot faults ([ack_fault_one_shot]).
    - Tests, from the status word down to the tables and the handler of EL3:
      what they report for every assignment of the regions to the address
      spaces ([rme004_verdict], [location_tests_verdict]); which of them cannot
      fail, or cannot pass ([rme011_never_fails], [compare_ignores_read],
      [da017_never_fails], [da006_never_fails], [da005_32_streams_fail]).
    - Behaviour that departs from the intent (the last two, parts of others,
      and theorems of the files that carry no number): each states what the code does, on all
      inputs where it does so, or on a run for the larger ones.

    ** Bounds and fuel

    A fuel argument bounds the loops of a call that are bounded by data: the
    theorems ask for one turn per block (pool), one per capability (PCIe),
    the time-out plus a turn (SMMU poll, 2^20), the levels of the walk (tables,
    at most 4) or, for [add_mmu_entry], one more than the tables missing on the
    way to the pool of pages; they then prove that the call returns. Integers carry the
    width of their C type; an [int] overflow, a shift by the width or more, an
    index past an array, a NULL or uninitialised operand is [Undef].
    Theorems on page tables are for 4KB granules and 48-bit spaces, those on
    [val_pgt_create] for a region inside one 2MB block: the departures above
    are what happens outside.

    ** Not modelled

    Barriers, caches and TLBs beyond the record of their maintenance; the
    save and restore of general registers on the vector entries;
    val/src/acs_dma.c, whose types are not declared anywhere; the UEFI
    platform's copy of pal_tdisp_spdm.c, which differs from the one of Da in the
    names of types and printing functions only, and its stubs that answer a
    constant; the two applications, which parse options and call the modelled
    functions in order; the scripts of tools/;
    of the tests themselves, those that reset the system, wait for interrupts,
    use DMA or compare registers, the device assignment tests 8, 13, 14 and 15,
    which wait for an interrupt or compare a buffer the device has written, and
    those of the GIC, SMMU and legacy modules.

    The rest of this file is the prelude. *)

From Stdlib Require Import ZArith Lia Bool List.
From stdpp Require Import base tactics numbers list gmap option.

Global Open Scope Z_scope.

(** ** Fixed-width integers

    A [w]-bit unsigned C integer is a [Z] in [[0, 2^w)].  Arithmetic is
    computed in [Z] and wrapped where the C type wraps. *)

Definition wrap (w x : Z) : Z := x mod 2 ^ w.
Definition u8 (x : Z) : Z := wrap 8 x.
Definition u16 (x : Z) : Z := wrap 16 x.
Definition u32 (x : Z) : Z := wrap 32 x.
Definition u64 (x : Z) : Z := wrap 64 x.

(** [~x] on a [w]-bit operand. *)
Definition bnot (w x : Z) : Z := wrap w (Z.lnot x).

(** [x != 0] as a C truth value, and [if (b) 1 else 0]. *)
Definition truthy (x : Z) : bool := negb (x =? 0).
Definition b2z (b : bool) : Z := if b then 1 else 0.

Declare Scope acs_scope.
Delimit Scope acs_scope with acs.
Infix ".&" := Z.land (at level 40, left associativity) : acs_scope.
Infix ".|" := Z.lor (at level 50, left associativity) : acs_scope.
Infix ".^" := Z.lxor (at level 50, left associativity) : acs_scope.
Infix "<<" := Z.shiftl (at level 38, left associativity) : acs_scope.
Infix ">>" := Z.shiftr (at level 38, left associativity) : acs_scope.
Global Open Scope acs_scope.

(** ** Computations

    A C function that reads and writes a state [S] and returns an [A].
    [Undef] is reached undefined behaviour (a shift past the width, a read of
    an indeterminate local, an index past an array, a null dereference);
    [NoFuel] is a loop that did not end within its fuel. *)

Inductive outcome (S A : Type) : Type :=
| Done (a : A) (s : S)
| Undef
| NoFuel.
Arguments Done {S A} a s.
Arguments Undef {S A}.
Arguments NoFuel {S A}.

Definition M (S A : Type) : Type := S -> outcome S A.

Definition ret {S A} (a : A) : M S A := fun s => Done a s.
Definition undef {S A} : M S A := fun _ => Undef.
Definition nofuel {S A} : M S A := fun _ => NoFuel.

Definition bind {S A B} (m : M S A) (f : A -> M S B) : M S B :=
  fun s => match m s with
           | Done a s' => f a s'
           | Undef => Undef
           | NoFuel => NoFuel
           end.

Definition get {S} : M S S := fun s => Done s s.
Definition gets {S A} (f : S -> A) : M S A := fun s => Done (f s) s.
Definition modify {S} (f : S -> S) : M S unit := fun s => Done tt (f s).

(** Using the value of an object that may be indeterminate. *)
Definition use {S A} (o : option A) : M S A :=
  match o with Some a => ret a | None => undef end.

(** A side condition whose failure is undefined behaviour. *)
Definition require {S} (b : bool) : M S unit := if b then ret tt else undef.

Notation "'let!' x ':=' m 'in' k" := (bind m (fun x => k))
  (at level 10, x name, m at level 100, k at level 200,
   format "'[v' 'let!'  x  ':='  m  'in' '//' k ']'") : acs_scope.
Notation "'let!' ' x ':=' m 'in' k" := (bind m (fun x => k))
  (at level 10, x pattern, m at level 100, k at level 200) : acs_scope.
Notation "m1 ;; m2" := (bind m1 (fun _ => m2))
  (at level 100, m2 at level 200, right associativity) : acs_scope.
Notation "'when' b 'then' m" := (if b then m else ret tt)
  (at level 10, b at level 100, m at level 99) : acs_scope.

(** [1 << n] on a [w]-bit type: the shift count must be below the width. *)
Definition shl_chk {S} (w x n : Z) : M S Z :=
  require ((0 <=? n) && (n <? w)) ;; ret (wrap w (x << n)).
Definition shr_chk {S} (w x n : Z) : M S Z :=
  require ((0 <=? n) && (n <? w)) ;; ret (x >> n).

(** ** Loops *)

(** [for (i = a; i < a + n; i++) body]. *)
Fixpoint for_n {S} (n : nat) (i : Z) (body : Z -> M S unit) : M S unit :=
  match n with
  | O => ret tt
  | S n' => body i ;; for_n n' (i + 1) body
  end.

Definition for_range {S} (a b : Z) (body : Z -> M S unit) : M S unit :=
  for_n (Z.to_nat (b - a)) a body.

(** The same with an accumulator and an early [return]: [inl] goes on with the
    next index, [inr] leaves the loop. *)
Fixpoint for_acc {S X R} (n : nat) (i : Z) (x : X)
    (body : Z -> X -> M S (X + R)) : M S (X + R) :=
  match n with
  | O => ret (inl x)
  | S n' => let! r := body i x in
            match r with
            | inl x' => for_acc n' (i + 1) x' body
            | inr v => ret (inr v)
            end
  end.

(** [while (1) body] with fuel: [inl] is the next iteration, [inr] the exit. *)
Fixpoint loop {S X R} (fuel : nat) (body : X -> M S (X + R)) (x : X) : M S R :=
  match fuel with
  | O => nofuel
  | S n => let! r := body x in
           match r with
           | inl x' => loop n body x'
           | inr v => ret v
           end
  end.

(** ** Total-correctness assertions *)

(** [wp m Q s]: from [s], [m] ends without undefined behaviour, within its
    fuel, in a result and a state that satisfy [Q]. *)
Definition wp {S A} (m : M S A) (Q : A -> S -> Prop) (s : S) : Prop :=
  match m s with Done a s' => Q a s' | _ => False end.

Section wp.
Context {S : Type}.

Lemma wp_ret {A} (a : A) (Q : A -> S -> Prop) s : Q a s -> wp (ret a) Q s.
Proof. done. Qed.

Lemma wp_bind {A B} (m : M S A) (f : A -> M S B) Q s :
  wp m (fun a s' => wp (f a) Q s') s -> wp (bind m f) Q s.
Proof. unfold wp, bind. by destruct (m s). Qed.

Lemma wp_mono {A} (m : M S A) (P Q : A -> S -> Prop) s :
  (forall a s', P a s' -> Q a s') -> wp m P s -> wp m Q s.
Proof. unfold wp. destruct (m s); auto. Qed.

Lemma wp_done {A} (m : M S A) (Q : A -> S -> Prop) s :
  wp m Q s -> exists a s', m s = Done a s' /\ Q a s'.
Proof. unfold wp. destruct (m s); naive_solver. Qed.

Lemma wp_intro {A} (m : M S A) (Q : A -> S -> Prop) s a s' :
  m s = Done a s' -> Q a s' -> wp m Q s.
Proof. unfold wp. by intros ->. Qed.

Lemma wp_gets {A} (f : S -> A) (Q : A -> S -> Prop) s :
  Q (f s) s -> wp (gets f) Q s.
Proof. done. Qed.

Lemma wp_modify (f : S -> S) (Q : unit -> S -> Prop) s :
  Q tt (f s) -> wp (modify f) Q s.
Proof. done. Qed.

Lemma wp_require b (Q : unit -> S -> Prop) s :
  b = true -> Q tt s -> wp (require b) Q s.
Proof. by intros ->. Qed.

Lemma wp_shl_chk w x n (Q : Z -> S -> Prop) s :
  0 <= n < w -> Q (wrap w (x << n)) s -> wp (shl_chk w x n) Q s.
Proof.
  intros Hn HQ. unfold shl_chk. apply wp_bind, wp_require; [|done].
  apply andb_true_intro; split; [apply Z.leb_le | apply Z.ltb_lt]; lia.
Qed.

Lemma wp_shr_chk w x n (Q : Z -> S -> Prop) s :
  0 <= n < w -> Q (x >> n) s -> wp (shr_chk w x n) Q s.
Proof.
  intros Hn HQ. unfold shr_chk. apply wp_bind, wp_require; [|done].
  apply andb_true_intro; split; [apply Z.leb_le | apply Z.ltb_lt]; lia.
Qed.

(** Loop rule: an invariant indexed by a natural measure below the fuel. *)
Lemma wp_loop {X R} (I : nat -> X -> S -> Prop) (body : X -> M S (X + R))
    (Q : R -> S -> Prop) :
  (forall n x s, I n x s ->
     wp (body x) (fun r s' => match r with
                              | inl x' => exists n', (n' < n)%nat /\ I n' x' s'
                              | inr v => Q v s'
                              end) s) ->
  forall fuel n x s, (n < fuel)%nat -> I n x s -> wp (loop fuel body x) Q s.
Proof.
  intros Hb fuel. induction fuel as [|k IH]; intros n x s Hn HI; [lia|].
  cbn [loop]. apply wp_bind.
  eapply wp_mono; [|apply (Hb n x s HI)].
  intros [x'|v] s' H; [|by apply wp_ret].
  destruct H as (n' & Hlt & HI'). apply (IH n'); [lia|done].
Qed.

Lemma wp_for_n (I : Z -> S -> Prop) (body : Z -> M S unit) n a s :
  (forall i s, a <= i < a + Z.of_nat n -> I i s -> wp (body i) (fun _ => I (i + 1)) s) ->
  I a s -> wp (for_n n a body) (fun _ => I (a + Z.of_nat n)) s.
Proof.
  revert a s. induction n as [|n IH]; intros a s Hb HI; cbn [for_n].
  - apply wp_ret. by replace (a + Z.of_nat 0) with a by lia.
  - apply wp_bind. eapply wp_mono; [|apply Hb; [lia|done]].
    intros [] s' H'.
    replace (a + Z.of_nat (Datatypes.S n)) with ((a + 1) + Z.of_nat n) by lia.
    apply IH; [|done]. intros i s1 Hi. apply Hb. lia.
Qed.

Lemma wp_for_acc {X R} (I : Z -> X -> S -> Prop) (Q : R -> S -> Prop)
    (body : Z -> X -> M S (X + R)) n a x s :
  (forall i x s, a <= i < a + Z.of_nat n -> I i x s ->
     wp (body i x) (fun r s' => match r with
                                | inl x' => I (i + 1) x' s'
                                | inr v => Q v s'
                                end) s) ->
  I a x s ->
  wp (for_acc n a x body) (fun r s' => match r with
                                       | inl x' => I (a + Z.of_nat n) x' s'
                                       | inr v => Q v s'
                                       end) s.
Proof.
  revert a x s. induction n as [|n IH]; intros a x s Hb HI; cbn [for_acc].
  - apply wp_ret. by replace (a + Z.of_nat 0) with a by lia.
  - apply wp_bind. eapply wp_mono; [|apply Hb; [lia|done]].
    intros [x'|v] s' H'; [|by apply wp_ret].
    replace (a + Z.of_nat (Datatypes.S n)) with ((a + 1) + Z.of_nat n) by lia.
    apply IH; [|done]. intros i y s1 Hi. apply Hb. lia.
Qed.

(** More fuel does not change a finished loop. *)
Lemma loop_mono {X R} (body : X -> M S (X + R)) n m x s r s' :
  (n <= m)%nat -> loop n body x s = Done r s' -> loop m body x s = Done r s'.
Proof.
  revert m x s. induction n as [|n IH]; intros m x s Hm; [done|].
  destruct m as [|m]; [lia|]. cbn [loop]. unfold bind.
  destruct (body x s) as [[x'|v] s1| |]; [|done..]. apply IH. lia.
Qed.
End wp.

Lemma bind_inv {S A B} (m : M S A) (f : A -> M S B) s b s' :
  bind m f s = Done b s' -> exists a s1, m s = Done a s1 /\ f a s1 = Done b s'.
Proof. unfold bind. destruct (m s); naive_solver. Qed.

Lemma bind_done {S A B} (m : M S A) (f : A -> M S B) s a s1 :
  m s = Done a s1 -> bind m f s = f a s1.
Proof. unfold bind. by intros ->. Qed.

Lemma bind_ext {S A B} (x : M S A) (f g : A -> M S B) s :
  (forall a s', f a s' = g a s') -> bind x f s = bind x g s.
Proof. intros H. unfold bind. by destruct (x s). Qed.

Lemma bind_ret {S A B} (a : A) (f : A -> M S B) s : bind (ret a) f s = f a s.
Proof. done. Qed.

Lemma bind_assoc {S A B C} (m : M S A) (f : A -> M S B) (g : B -> M S C) s :
  bind (bind m f) g s = bind m (fun a => bind (f a) g) s.
Proof. unfold bind. by destruct (m s). Qed.

(** ** Components

    [zoom get put m] runs a computation on the part of the state that [get]
    reads and [put] writes back: how a component calls another one that keeps a
    smaller state. *)
Definition zoom {S T A} (get : S -> T) (put : T -> S -> S) (m : M T A) : M S A :=
  fun s => match m (get s) with
           | Done a t => Done a (put t s)
           | Undef => Undef
           | NoFuel => NoFuel
           end.

Lemma wp_zoom {S T A} (get : S -> T) (put : T -> S -> S) (m : M T A) Q s :
  wp m (fun a t => Q a (put t s)) (get s) -> wp (zoom get put m) Q s.
Proof. unfold wp, zoom. by destruct (m (get s)). Qed.

(** Frame: a computation that leaves a projection of the state alone. *)
Definition keeps {S A P} (p : S -> P) (m : M S A) : Prop :=
  forall s a s', m s = Done a s' -> p s' = p s.

Section keeps.
Context {S P : Type} (p : S -> P).

Lemma keeps_ret {A} (a : A) : keeps p (ret a).
Proof. intros s ? ? H. by injection H as ? ?; subst. Qed.
Lemma keeps_undef {A} : keeps p (@undef S A).
Proof. done. Qed.
Lemma keeps_nofuel {A} : keeps p (@nofuel S A).
Proof. done. Qed.
Lemma keeps_bind {A B} (m : M S A) (f : A -> M S B) :
  keeps p m -> (forall a, keeps p (f a)) -> keeps p (bind m f).
Proof.
  intros Hm Hf s b s' (a & s1 & H1 & H2)%bind_inv.
  rewrite (Hf _ _ _ _ H2). eauto.
Qed.
Lemma keeps_gets {A} (f : S -> A) : keeps p (gets f).
Proof. intros s ? ? H. by injection H as ? ?; subst. Qed.
Lemma keeps_get : keeps p (@get S).
Proof. intros s ? ? H. by injection H as ? ?; subst. Qed.
Lemma keeps_modify (f : S -> S) : (forall s, p (f s) = p s) -> keeps p (modify f).
Proof. intros H s [] ? [= <-]. apply H. Qed.
Lemma keeps_use {A} (o : option A) : keeps p (use o).
Proof. destruct o; [apply keeps_ret | apply keeps_undef]. Qed.
Lemma keeps_require b : keeps p (@require S b).
Proof. destruct b; [apply keeps_ret | apply keeps_undef]. Qed.
Lemma keeps_for_n n a (body : Z -> M S unit) :
  (forall i, keeps p (body i)) -> keeps p (for_n n a body).
Proof.
  intros Hb. revert a. induction n as [|n IH]; intros a; cbn [for_n];
    [apply keeps_ret|]. apply keeps_bind; [done|]. intros []. apply IH.
Qed.
Lemma keeps_for_acc {X R} n a (x : X) (body : Z -> X -> M S (X + R)) :
  (forall i x, keeps p (body i x)) -> keeps p (for_acc n a x body).
Proof.
  intros Hb. revert a x. induction n as [|n IH]; intros a x; cbn [for_acc];
    [apply keeps_ret|]. apply keeps_bind; [done|].
  intros [x'|v]; [apply IH | apply keeps_ret].
Qed.
Lemma keeps_loop {X R} n (body : X -> M S (X + R)) (x : X) :
  (forall x, keeps p (body x)) -> keeps p (loop n body x).
Proof.
  intros Hb. revert x. induction n as [|n IH]; intros x; cbn [loop];
    [apply keeps_nofuel|]. apply keeps_bind; [done|].
  intros [x'|v]; [apply IH | apply keeps_ret].
Qed.
End keeps.

Create HintDb keeps discriminated.
#[export] Hint Resolve keeps_ret keeps_undef keeps_nofuel keeps_bind keeps_gets
  keeps_get keeps_use keeps_require keeps_for_n keeps_for_acc keeps_loop : keeps.
#[export] Hint Constants Opaque : keeps.

(** Inverts a finished run of a sequence of binds. *)
Ltac minv :=
  repeat match goal with
  | H : bind _ _ _ = Done _ _ |- _ =>
      let a := fresh "a" in let s := fresh "s" in let H1 := fresh "Hr" in
      apply bind_inv in H; destruct H as (a & s & H1 & H)
  | H : ret _ _ = Done _ _ |- _ => injection H as ? ?; subst
  | H : gets _ _ = Done _ _ |- _ => injection H as ? ?; subst
  | H : modify _ _ = Done _ _ |- _ => injection H as ? ?; subst
  | H : undef _ = Done _ _ |- _ => discriminate H
  | H : nofuel _ = Done _ _ |- _ => discriminate H
  end.

(** Case analysis on the integer comparisons of the goal. *)
Ltac zbool :=
  repeat match goal with
  | |- context [?a <=? ?b] => destruct (Z.leb_spec a b)
  | |- context [?a <? ?b] => destruct (Z.ltb_spec a b)
  | |- context [?a =? ?b] => destruct (Z.eqb_spec a b)
  end; cbn [andb orb negb]; first [done | lia].

(** ** Bit-level reasoning *)

Lemma wrap_land w x : 0 <= w -> wrap w x = Z.land x (Z.ones w).
Proof. intros. unfold wrap. by rewrite Z.land_ones. Qed.

Lemma wrap_range w x : 0 <= w -> 0 <= wrap w x < 2 ^ w.
Proof. intros. apply Z.mod_pos_bound. lia. Qed.

Lemma wrap_small w x : 0 <= x < 2 ^ w -> wrap w x = x.
Proof. apply Z.mod_small. Qed.

Lemma wrap_idemp w x : 0 <= w -> wrap w (wrap w x) = wrap w x.
Proof. intros. apply wrap_small, wrap_range. lia. Qed.

Lemma testbit_wrap w x i : 0 <= w -> 0 <= i ->
  Z.testbit (wrap w x) i = Z.testbit x i && (i <? w).
Proof.
  intros Hw Hi. rewrite wrap_land, Z.land_spec by lia.
  rewrite Z.testbit_ones by lia. f_equal. lia.
Qed.

Lemma testbit_high w x i : 0 <= x < 2 ^ w -> w <= i -> Z.testbit x i = false.
Proof.
  intros Hx Hi. destruct (Z.ltb_spec w 0) as [Hn|Hn].
  { rewrite Z.pow_neg_r in Hx; lia. }
  rewrite <- (wrap_small w x Hx), testbit_wrap by lia.
  replace (i <? w) with false by lia. apply andb_false_r.
Qed.

Lemma bits_lt w x : 0 <= w -> 0 <= x ->
  (forall i, w <= i -> Z.testbit x i = false) -> x < 2 ^ w.
Proof.
  intros Hw Hx H.
  assert (x = wrap w x) as ->; [|apply wrap_range; lia].
  apply Z.bits_inj'. intros i Hi. rewrite testbit_wrap by lia.
  destruct (Z.ltb_spec i w); [by rewrite andb_true_r|].
  rewrite H by lia. done.
Qed.

Lemma lor_range w x y : 0 <= w -> 0 <= x < 2 ^ w -> 0 <= y < 2 ^ w ->
  0 <= Z.lor x y < 2 ^ w.
Proof.
  intros Hw Hx Hy. split; [apply Z.lor_nonneg; lia|].
  apply bits_lt; [lia|apply Z.lor_nonneg; lia|]. intros i Hi.
  rewrite Z.lor_spec, !(testbit_high w) by lia. done.
Qed.

Lemma land_range w x y : 0 <= w -> 0 <= y -> 0 <= x < 2 ^ w -> 0 <= Z.land x y < 2 ^ w.
Proof.
  intros Hw Hy Hx. split; [apply Z.land_nonneg; lia|].
  apply bits_lt; [lia|apply Z.land_nonneg; lia|]. intros i Hi.
  rewrite Z.land_spec, (testbit_high w x) by lia. done.
Qed.

Lemma testbit_shiftr x n i : 0 <= i -> Z.testbit (x >> n) i = Z.testbit x (i + n).
Proof. apply Z.shiftr_spec. Qed.
Lemma testbit_shiftl x n i : 0 <= i -> Z.testbit (x << n) i = Z.testbit x (i - n).
Proof. apply Z.shiftl_spec. Qed.

Create Rewrite HintDb bits.
#[export] Hint Rewrite Z.land_spec Z.lor_spec Z.lxor_spec : bits.
#[export] Hint Rewrite testbit_wrap testbit_shiftr testbit_shiftl Z.testbit_ones
  Z.lnot_spec using lia : bits.

(** [(1 << n) - 1] is the mask of the low [n] bits. *)
Lemma shl1_sub1 n : (1 << n) - 1 = Z.ones n.
Proof. by rewrite Z.ones_equiv, Z.shiftl_1_l. Qed.

(** Extensionality at width [w]. *)
Lemma bits_ext w x y : 0 <= w -> 0 <= x < 2 ^ w -> 0 <= y < 2 ^ w ->
  (forall i, 0 <= i < w -> Z.testbit x i = Z.testbit y i) -> x = y.
Proof.
  intros Hw Hx Hy H. apply Z.bits_inj'. intros i Hi.
  destruct (Z.ltb_spec i w); [apply H; lia|].
  rewrite !(testbit_high w) by lia. done.
Qed.

(** ** Bit fields

    [fld lsb n x] is the [n]-bit field of [x] at [lsb]; [fld_set] replaces it.
    The masks of the C headers are instances, see [fld_mask]. *)
Definition fld (lsb n x : Z) : Z := (x >> lsb) .& Z.ones n.
Definition fld_set (lsb n x v : Z) : Z :=
  (x .& Z.lnot (Z.ones n << lsb)) .| (fld 0 n v << lsb).

Lemma fld_mask lsb n x : 0 <= lsb -> 0 <= n ->
  (x .& (Z.ones n << lsb)) >> lsb = fld lsb n x.
Proof.
  intros. apply Z.bits_inj'. intros i Hi. unfold fld.
  rewrite Z.shiftr_spec, !Z.land_spec, Z.shiftl_spec, Z.shiftr_spec by lia.
  by replace (i + lsb - lsb) with i by lia.
Qed.

Lemma testbit_fld lsb n x i : 0 <= n -> 0 <= i ->
  Z.testbit (fld lsb n x) i = Z.testbit x (i + lsb) && (i <? n).
Proof.
  intros. unfold fld. rewrite Z.land_spec, Z.shiftr_spec, Z.testbit_ones by lia.
  f_equal. lia.
Qed.

Lemma fld_range lsb n x : 0 <= n -> 0 <= fld lsb n x < 2 ^ n.
Proof.
  intros. unfold fld. rewrite Z.land_ones by lia. apply Z.mod_pos_bound. lia.
Qed.

Lemma fld_div_mod lsb n x : 0 <= lsb -> 0 <= n ->
  fld lsb n x = (x / 2 ^ lsb) mod 2 ^ n.
Proof. intros. unfold fld. by rewrite Z.land_ones, Z.shiftr_div_pow2 by lia. Qed.

Lemma fld0_small n v : 0 <= v < 2 ^ n -> fld 0 n v = v.
Proof.
  intros. unfold fld. destruct (Z.ltb_spec n 0).
  { rewrite Z.pow_neg_r in *; lia. }
  rewrite Z.shiftr_0_r, Z.land_ones by lia. by apply Z.mod_small.
Qed.

(** Fields of combined words. *)
Lemma truthy_bit x k : 0 <= k -> truthy (x .& (1 << k)) = Z.testbit x k.
Proof.
  intros Hk. assert (x .& (1 << k) = if Z.testbit x k then 2 ^ k else 0) as ->.
  { rewrite Z.shiftl_1_l. apply Z.bits_inj'. intros i Hi.
    rewrite Z.land_spec, Z.pow2_bits_eqb by lia.
    destruct (Z.eqb_spec k i) as [<-|].
    - rewrite andb_true_r. destruct (Z.testbit x k); [|by rewrite Z.bits_0].
      by rewrite Z.pow2_bits_true by lia.
    - rewrite andb_false_r. destruct (Z.testbit x k); [|by rewrite Z.bits_0].
      by rewrite Z.pow2_bits_false by lia. }
  unfold truthy. pose proof (Z.pow_pos_nonneg 2 k). destruct (Z.testbit x k); [|done].
  apply negb_true_iff, Z.eqb_neq. lia.
Qed.
Lemma fld_lor l n x y : 0 <= l -> 0 <= n -> fld l n (x .| y) = fld l n x .| fld l n y.
Proof.
  intros. apply Z.bits_inj'. intros i Hi. rewrite Z.lor_spec, !testbit_fld, Z.lor_spec by lia.
  by rewrite andb_orb_distrib_l.
Qed.
Lemma fld_wrap w l n x : 0 <= l -> 0 <= n -> l + n <= w -> fld l n (wrap w x) = fld l n x.
Proof.
  intros. apply Z.bits_inj'. intros i Hi. rewrite !testbit_fld, testbit_wrap by lia.
  destruct (Z.ltb_spec i n); [|by rewrite !andb_false_r].
  replace (i + l <? w) with true by lia. by rewrite !andb_true_r.
Qed.
Lemma fld_shl_low l n k x : 0 <= l -> 0 <= n -> l + n <= k -> fld l n (x << k) = 0.
Proof.
  intros. apply Z.bits_inj'. intros i Hi. rewrite testbit_fld, Z.bits_0 by lia.
  destruct (Z.ltb_spec i n); [|by rewrite andb_false_r].
  by rewrite Z.shiftl_spec_low by lia.
Qed.
Lemma fld_shl l n x : 0 <= l -> 0 <= n -> fld l n (x << l) = fld 0 n x.
Proof.
  intros. apply Z.bits_inj'. intros i Hi. rewrite !testbit_fld, Z.shiftl_spec by lia.
  do 2 f_equal. lia.
Qed.
Lemma fld_high l n x : 0 <= l -> 0 <= n -> 0 <= x < 2 ^ l -> fld l n x = 0.
Proof.
  intros. apply Z.bits_inj'. intros i Hi. rewrite testbit_fld, Z.bits_0 by lia.
  by rewrite (testbit_high l) by lia.
Qed.
Lemma fld_0 l n : 0 <= n -> 0 <= l -> fld l n 0 = 0.
Proof. intros. apply fld_high; lia. Qed.
Lemma fld_masked l n x : 0 <= l -> 0 <= n -> fld l n (x .& (Z.ones n << l)) = fld l n x.
Proof.
  intros. apply Z.bits_inj'. intros i Hi.
  rewrite !testbit_fld, Z.land_spec, Z.shiftl_spec, Z.testbit_ones by lia.
  destruct (Z.ltb_spec i n); [|by rewrite !andb_false_r].
  replace (0 <=? i + l - l) with true by lia. replace (i + l - l <? n) with true by lia.
  by rewrite !andb_true_r.
Qed.

(** Evaluates the fields of a double word. *)
Ltac fields := repeat first
  [ rewrite fld_lor by lia | rewrite fld_wrap by lia | rewrite fld_shl_low by lia
  | rewrite fld_shl by lia | rewrite Z.lor_0_r | rewrite Z.lor_0_l | rewrite fld_0 by lia
  | rewrite fld0_small by lia ].

Lemma testbit_fld_set lsb n x v i : 0 <= lsb -> 0 <= n -> 0 <= i ->
  Z.testbit (fld_set lsb n x v) i =
  if (lsb <=? i) && (i <? lsb + n) then Z.testbit v (i - lsb) else Z.testbit x i.
Proof.
  intros. unfold fld_set.
  rewrite Z.lor_spec, Z.land_spec, Z.lnot_spec, !Z.shiftl_spec by lia.
  destruct (Z.leb_spec lsb i); cbn [andb].
  - rewrite Z.testbit_ones, testbit_fld by lia.
    replace (0 <=? i - lsb) with true by lia. cbn [andb].
    replace (i - lsb + 0) with (i - lsb) by lia.
    destruct (Z.ltb_spec i (lsb + n)).
    + replace (i - lsb <? n) with true by lia. by rewrite andb_false_r, andb_true_r.
    + replace (i - lsb <? n) with false by lia.
      by rewrite andb_true_r, andb_false_r, orb_false_r.
  - rewrite !(Z.testbit_neg_r _ (i - lsb)) by lia. by rewrite andb_true_r, orb_false_r.
Qed.

Lemma fld_fld_set lsb n x v : 0 <= lsb -> 0 <= n -> 0 <= v < 2 ^ n ->
  fld lsb n (fld_set lsb n x v) = v.
Proof.
  intros. apply Z.bits_inj'. intros i Hi.
  rewrite testbit_fld, testbit_fld_set by lia.
  replace (lsb <=? i + lsb) with true by lia. cbn [andb].
  replace (i + lsb <? lsb + n) with (i <? n) by lia.
  replace (i + lsb - lsb) with i by lia.
  destruct (Z.ltb_spec i n); [apply andb_true_r|].
  rewrite andb_false_r. symmetry. apply (testbit_high n); lia.
Qed.

Lemma fld_fld_set_ne lsb n lsb' n' x v :
  0 <= lsb -> 0 <= n -> 0 <= lsb' -> 0 <= n' ->
  lsb' + n' <= lsb \/ lsb + n <= lsb' ->
  fld lsb' n' (fld_set lsb n x v) = fld lsb' n' x.
Proof.
  intros Hl Hn Hl' Hn' Hd. apply Z.bits_inj'. intros i Hi.
  rewrite !testbit_fld, testbit_fld_set by lia.
  destruct (Z.ltb_spec i n'); [|by rewrite !andb_false_r].
  replace ((lsb <=? i + lsb') && (i + lsb' <? lsb + n)) with false; [done|].
  symmetry. apply andb_false_iff.
  destruct Hd; [left; apply Z.leb_gt | right; apply Z.ltb_ge]; lia.
Qed.

Lemma fld_set_range w lsb n x v : 0 <= lsb -> 0 <= n -> lsb + n <= w ->
  0 <= x < 2 ^ w -> 0 <= fld_set lsb n x v < 2 ^ w.
Proof.
  intros Hl Hn Hw Hx. assert (0 <= fld_set lsb n x v) as H0.
  { unfold fld_set. apply Z.lor_nonneg. split.
    - apply Z.land_nonneg. lia.
    - apply Z.shiftl_nonneg. pose proof (fld_range 0 n v Hn). lia. }
  split; [done|]. apply bits_lt; [lia|done|]. intros i Hi.
  rewrite testbit_fld_set by lia.
  replace (i <? lsb + n) with false by lia. rewrite andb_false_r.
  apply (testbit_high w); lia.
Qed.

(** Alignment *)

Definition aligned (a n : Z) : Prop := a mod n = 0.

Lemma land_low_aligned k x : 0 <= k -> Z.land x (2 ^ k - 1) = 0 <-> aligned x (2 ^ k).
Proof.
  intros. unfold aligned. replace (2 ^ k - 1) with (Z.ones k) by (rewrite Z.ones_equiv; lia).
  by rewrite Z.land_ones.
Qed.

(** [x & ~(2^k - 1)] rounds down. *)
Lemma round_down w k x : 0 <= k <= w -> 0 <= x < 2 ^ w ->
  Z.land x (bnot w (2 ^ k - 1)) = x - x mod 2 ^ k.
Proof.
  intros Hk Hx. replace (2 ^ k - 1) with (Z.ones k) by (rewrite Z.ones_equiv; lia).
  assert (Z.land x (bnot w (Z.ones k)) = Z.ldiff x (Z.ones k)) as ->.
  { apply Z.bits_inj'. intros i Hi. unfold bnot.
    rewrite Z.land_spec, Z.ldiff_spec, testbit_wrap, Z.lnot_spec by lia.
    destruct (Z.ltb_spec i w); [by rewrite andb_true_r|].
    by rewrite (testbit_high w x) by lia. }
  rewrite Z.ldiff_ones_r, Z.shiftl_mul_pow2, Z.shiftr_div_pow2 by lia.
  pose proof (Z.div_mod x (2 ^ k)). lia.
Qed.
