(* ===== verification/Memory.v ===== *)
(** * Memory

    Byte-addressed, little-endian memory as the C code reads and writes it
    through pointers of 1, 2, 4 and 8 bytes, with the frame lemmas every
    component uses.  A byte that was never written reads as an arbitrary but
    fixed content of the map (0 where the map has no entry). *)

From Stdlib Require Import ZArith Lia Bool List.
From stdpp Require Import base tactics numbers list gmap option.
From S2P Require Import Prelude.

Abbreviation mem := (gmap Z Z).

Definition ld_byte (m : mem) (a : Z) : Z := u8 (default 0 (m !! a)).
Definition st_byte (m : mem) (a v : Z) : mem := <[a := v]> m.

(** [load n m a]: the [n]-byte value at [a]; [store n m a v] writes it. *)
Fixpoint load (n : nat) (m : mem) (a : Z) : Z :=
  match n with
  | O => 0
  | S k => ld_byte m a + 256 * load k m (a + 1)
  end.

Fixpoint store (n : nat) (m : mem) (a v : Z) : mem :=
  match n with
  | O => m
  | S k => st_byte (store k m (a + 1) (v / 256)) a (v mod 256)
  end.

Abbreviation load64 := (load 8).
Abbreviation load32 := (load 4).
Abbreviation store64 := (store 8).
Abbreviation store32 := (store 4).

(** [memset(a, v, n)]. *)
Fixpoint memset (n : nat) (m : mem) (a v : Z) : mem :=
  match n with
  | O => m
  | S k => memset k (st_byte m a (u8 v)) (a + 1) v
  end.

(** Two byte ranges share no address. *)
Definition disjoint_rng (a n b k : Z) : Prop := a + n <= b \/ b + k <= a.

Lemma ld_byte_range m a : 0 <= ld_byte m a < 256.
Proof. unfold ld_byte, u8, wrap. apply Z.mod_pos_bound. lia. Qed.

Lemma ld_st_byte m a v : ld_byte (st_byte m a v) a = u8 v.
Proof. unfold ld_byte, st_byte. by rewrite lookup_insert_eq. Qed.

Lemma ld_st_byte_ne m a b v : a <> b -> ld_byte (st_byte m a v) b = ld_byte m b.
Proof. intros. unfold ld_byte, st_byte. by rewrite lookup_insert_ne. Qed.

Lemma load_range n m a : 0 <= load n m a < 2 ^ (8 * Z.of_nat n).
Proof.
  revert a. induction n as [|k IH]; intros a; cbn [load]; [lia|].
  pose proof (ld_byte_range m a). specialize (IH (a + 1)).
  replace (8 * Z.of_nat (S k)) with (8 + 8 * Z.of_nat k) by lia.
  rewrite Z.pow_add_r by lia. change (2 ^ 8) with 256. lia.
Qed.

Lemma load64_range m a : 0 <= load64 m a < 2 ^ 64.
Proof. apply (load_range 8). Qed.

(** Loads look only at their own bytes. *)
Lemma load_ext n m m' a :
  (forall b, a <= b < a + Z.of_nat n -> ld_byte m b = ld_byte m' b) ->
  load n m a = load n m' a.
Proof.
  revert a. induction n as [|k IH]; intros a H; cbn [load]; [done|].
  rewrite (H a), (IH (a + 1)) by (intros; try apply H; lia). done.
Qed.

Lemma ld_byte_store n m a v b :
  ~ (a <= b < a + Z.of_nat n) -> ld_byte (store n m a v) b = ld_byte m b.
Proof.
  revert a v. induction n as [|k IH]; intros a v H; cbn [store]; [done|].
  rewrite ld_st_byte_ne by lia. apply IH. lia.
Qed.

Lemma load_store_ne n k m a b v :
  disjoint_rng a (Z.of_nat n) b (Z.of_nat k) -> load k (store n m a v) b = load k m b.
Proof.
  intros H. apply load_ext. intros c Hc. apply ld_byte_store.
  unfold disjoint_rng in H. lia.
Qed.

Lemma load_store_eq n m a v : load n (store n m a v) a = v mod 2 ^ (8 * Z.of_nat n).
Proof.
  revert a v. induction n as [|k IH]; intros a v; cbn [load store].
  { by rewrite Z.mod_1_r. }
  rewrite ld_st_byte.
  rewrite (load_ext k _ (store k m (a + 1) (v / 256))).
  2:{ intros b Hb. apply ld_st_byte_ne. lia. }
  rewrite IH. unfold u8, wrap. change (2 ^ 8) with 256. rewrite Z.mod_mod by lia.
  replace (8 * Z.of_nat (S k)) with (8 + 8 * Z.of_nat k) by lia.
  rewrite Z.pow_add_r by lia. change (2 ^ 8) with 256.
  rewrite Z.rem_mul_r by lia. lia.
Qed.

Lemma load_store_eq' n m a v : 0 <= v < 2 ^ (8 * Z.of_nat n) ->
  load n (store n m a v) a = v.
Proof. intros. rewrite load_store_eq. by apply Z.mod_small. Qed.

Lemma load64_store64 m a v : 0 <= v < 2 ^ 64 -> load64 (store64 m a v) a = v.
Proof. apply (load_store_eq' 8). Qed.

(** Aligned dwords either coincide or do not overlap. *)
Lemma aligned_disjoint a b n : 0 < n -> aligned a n -> aligned b n -> a <> b ->
  disjoint_rng a n b n.
Proof.
  unfold aligned, disjoint_rng. intros Hn Ha Hb Hne.
  pose proof (Z.div_mod a n ltac:(lia)). pose proof (Z.div_mod b n ltac:(lia)).
  destruct (Z.lt_trichotomy (a / n) (b / n)) as [?|[?|?]]; nia.
Qed.

Lemma load64_store64_ne m a b v : disjoint_rng a 8 b 8 ->
  load64 (store64 m a v) b = load64 m b.
Proof. intros. by apply (load_store_ne 8 8). Qed.

Lemma ld_byte_memset n m a v b :
  ld_byte (memset n m a v) b =
  if (a <=? b) && (b <? a + Z.of_nat n) then u8 v else ld_byte m b.
Proof.
  revert m a. induction n as [|k IH]; intros m a; cbn [memset].
  { by replace ((a <=? b) && (b <? a + Z.of_nat 0)) with false by zbool. }
  rewrite IH. destruct (Z.eq_dec a b) as [->|Hne].
  - replace (b + 1 <=? b) with false by zbool.
    replace (b <=? b) with true by zbool.
    replace (b <? b + Z.of_nat (S k)) with true by zbool. cbn [andb].
    rewrite ld_st_byte. unfold u8. apply wrap_idemp. lia.
  - rewrite ld_st_byte_ne by done.
    replace ((a + 1 <=? b) && (b <? a + 1 + Z.of_nat k))
      with ((a <=? b) && (b <? a + Z.of_nat (S k))); [done|].
    zbool.
Qed.

Lemma load_memset0 n k m a b :
  a <= b -> b + Z.of_nat k <= a + Z.of_nat n -> load k (memset n m a 0) b = 0.
Proof.
  revert b. induction k as [|k IH]; intros b H1 H2; cbn [load]; [done|].
  rewrite ld_byte_memset.
  replace ((a <=? b) && (b <? a + Z.of_nat n)) with true by zbool.
  rewrite IH by lia. done.
Qed.

Lemma load_memset_ne n k m a b v :
  disjoint_rng a (Z.of_nat n) b (Z.of_nat k) -> load k (memset n m a v) b = load k m b.
Proof.
  intros H. apply load_ext. intros c Hc. rewrite ld_byte_memset.
  unfold disjoint_rng in H.
  by replace ((a <=? c) && (c <? a + Z.of_nat n)) with false by zbool.
Qed.

(** [only_at P m m']: outside the addresses in [P] the memories agree. *)
Definition only_at (P : Z -> Prop) (m m' : mem) : Prop :=
  forall b, ~ P b -> ld_byte m' b = ld_byte m b.

#[export] Instance only_at_refl P : Reflexive (only_at P).
Proof. by intros m b _. Qed.
#[export] Instance only_at_trans P : Transitive (only_at P).
Proof. intros m1 m2 m3 H12 H23 b Hb. rewrite H23, H12 by done. done. Qed.

Lemma only_at_store n m a v (P : Z -> Prop) :
  (forall b, a <= b < a + Z.of_nat n -> P b) -> only_at P m (store n m a v).
Proof. intros H b Hb. apply ld_byte_store. intros Hr. by apply Hb, H. Qed.

Lemma only_at_memset n m a v (P : Z -> Prop) :
  (forall b, a <= b < a + Z.of_nat n -> P b) -> only_at P m (memset n m a v).
Proof.
  intros H b Hb. rewrite ld_byte_memset.
  destruct ((a <=? b) && (b <? a + Z.of_nat n)) eqn:E; [|done].
  destruct Hb. apply H. lia.
Qed.

Lemma only_at_mono (P Q : Z -> Prop) m m' :
  (forall b, P b -> Q b) -> only_at P m m' -> only_at Q m m'.
Proof. intros H Hm b Hb. apply Hm. intros HP. by apply Hb, H. Qed.

Lemma only_at_load P k m m' a :
  only_at P m m' -> (forall b, a <= b < a + Z.of_nat k -> ~ P b) ->
  load k m' a = load k m a.
Proof. intros Hm H. apply load_ext. intros b Hb. by apply Hm, H. Qed.

Lemma ld_byte_store1 m a v : ld_byte (store 1 m a v) a = u8 v.
Proof. cbn [store]. rewrite ld_st_byte. unfold u8, wrap. by apply Z.mod_mod. Qed.

Global Opaque load store memset.
