(* ===== verification/El3State.v ===== *)
(** * El3State

    The state the EL3 code of val_el3/ runs on: normal memory, the hardware
    behind the [Hw] interface (device registers, bus accesses to test-supplied
    addresses, address translation), the system registers, the shared structure
    of val/include/rme_acs_el32.h, the globals of the C files and a trace of
    the architectural side effects (cache and TLB maintenance, exception
    returns, device accesses), newest first. *)

From Stdlib Require Import ZArith Lia Bool List.
From stdpp Require Import base tactics numbers list gmap option.
From S2P Require Import Prelude Memory.

(** ** Hardware interface

    Devices may answer a read with anything and may change with every access;
    [hw_at_s1e3w] is the PAR_EL3 result of AT S1E3W for an address. *)
Class Hw (D : Type) := {
  hw_read : nat -> D -> Z -> Z * D;
  hw_write : nat -> D -> Z -> Z -> D;
  hw_at_s1e3w : D -> mem -> Z -> Z
}.

(** ** System registers read or written by ack_helper_functions.S *)
Record sysregs := mk_sysregs {
  gpccr_el3 : Z; gptbr_el3 : Z; tcr_el3 : Z; ttbr_el3 : Z;
  scr_el3 : Z; sctlr_el3 : Z; sctlr_el2 : Z; mair_el3 : Z;
  elr_el3 : Z; spsr_el3 : Z; esr_el3 : Z; far_el3 : Z; vbar_el3 : Z
}.

(** ** [struct_sh_data] *)
Record shared_data_access := mk_access {
  access_type : Z; acc_addr : Z; acc_data : Z
}.
Record reg_details_msd := mk_reg { reg_name : Z; saved_reg_value : Z }.
Record reg_info_msd := mk_reg_info { num_regs : Z; reg_list : list reg_details_msd }.
Record struct_sh_data := mk_shared {
  access_data : Z; sh_elr_el3 : Z; sh_spsr_el3 : Z;
  exception_expected : Z; exception_generated : Z; sh_access_mut : Z;
  esr_value : Z; sh_arg0 : Z; sh_arg1 : Z; num_access : Z;
  pas_filter_flag : Z; generic_flag : Z;
  reg_info : reg_info_msd;
  sh_access : list shared_data_access
}.

(** ** Translation descriptors of val_el3/ack_include.h.  An [option] field may
    be indeterminate in the C code. *)
Record tcr_el3_info := mk_tcr {
  tcr_ps : Z; tcr_tg : Z; tcr_sh : Z; tcr_orgn : Z; tcr_irgn : option Z; tcr_tsz : Z
}.
Record pgt_descriptor := mk_pgt {
  pgt_base : Z; pgt_ias : Z; pgt_oas : option Z; pgt_mair : Z; pgt_stage : option Z;
  pgt_tcr : tcr_el3_info
}.

(** ** SMMUv3 driver structures of val_el3/smmuv3_el3.h *)
Record smmu_queue := mk_queue { q_prod : Z; q_cons : Z; log2nent : Z }.
Record smmu_queue_type := mk_queue_type {
  queue : smmu_queue; q_base_ptr : Z; q_base : Z; q_base_phys : Z;
  queue_base : Z; entry_size : Z; prod_reg : Z; cons_reg : Z
}.
Record smmu_strtab_l1_desc := mk_l1 {
  l1_span : Z; l1_l2ptr : Z; l1_l2desc64 : Z; l1_l2desc_phys : Z
}.
Record smmu_strtab_config := mk_strtab {
  strtab_ptr : Z; strtab64 : Z; strtab_phys : Z; st_l1_desc : Z;
  st_l1_ent_count : Z; strtab_base : Z; strtab_base_cfg : Z
}.
Record smmu_supported := mk_supp {
  st_level_2lvl : bool; cd2l : bool; hyp : bool; s1p : bool; s2p : bool
}.
Record smmu_dev := mk_smmu {
  smmu_base : Z; smmu_ias : Z; smmu_oas_bits : Z; smmu_ssid_bits : Z;
  smmu_sid_bits : Z; cmd_type : smmu_queue_type; evnt_type : smmu_queue_type;
  strtab_cfg : smmu_strtab_config; supported : smmu_supported
}.
Record cdtab_ctx_desc := mk_cd { cd_asid : Z; cd_ttbr : Z; cd_tcr : Z; cd_mair : Z }.
Record cdtab_l1_desc := mk_cl1 { cl1_l2ptr : Z; cl1_l2desc64 : Z; cl1_l2desc_phys : Z }.
Record cdtab_config := mk_cdcfg {
  cdtab_ptr : Z; cdtab64 : Z; cdtab_phys : Z; cd_l1_desc : Z; cd_l1_ent_count : Z
}.
Record stage1_config := mk_s1 {
  cdcfg : cdtab_config; s1_cd : cdtab_ctx_desc; s1fmt : Z; s1cdmax : Z
}.
Record stage2_config := mk_s2 { vmid : Z; vttbr : Z; vtcr : Z }.
Inductive smmu_stage := SMMU_STAGE_S1 | SMMU_STAGE_S2 | SMMU_STAGE_BYPASS.
#[export] Instance smmu_stage_eq_dec : EqDecision smmu_stage.
Proof. solve_decision. Defined.
(** [m_smmu] is the index of the SMMU in [g_smmu], [None] for a NULL pointer. *)
Record smmu_master := mk_master {
  m_smmu : option nat; stage : smmu_stage; stage1 : stage1_config;
  stage2 : stage2_config; m_sid : Z; m_ssid : Z; m_ssid_bits : Z
}.

(** Objects the driver allocates from the pool, kept in one typed store per C
    type, keyed by the address the pool returned. *)
Record smmu_globals := mk_globals {
  g_smmu : option (list smmu_dev);
  g_smmu_addr : Z;
  g_num_smmus : Z;
  g_sid : Z;
  l1_descs : gmap Z smmu_strtab_l1_desc;
  cl1_descs : gmap Z cdtab_l1_desc;
  (* g_smmu_master_list_head: (node address, master address), head first *)
  master_list : list (Z * Z);
  masters : gmap Z smmu_master
}.

(** ** Side effects *)
Inductive ev :=
| EvRead (n : nat) (a v : Z)
| EvWrite (n : nat) (a v : Z)
| EvCleanInv (a : Z) | EvClean (a : Z) | EvInval (a : Z)
| EvCipapa (pa : Z) | EvTlbiPaallos | EvTlbiVae3 (va : Z)
| EvDaif | EvEret | EvEretSmc | EvBranch (a : Z)
| EvStr (a v : Z) | EvLdrPas (a v : Z)
| EvSaveVbar | EvProgVbar
| EvNsEncryption (on : bool) | EvLegacyTz (v : Z) | EvPasFilter (v : Z).
#[export] Instance ev_eq_dec : EqDecision ev.
Proof. solve_decision. Defined.

Section state.
Context {D : Type}.

Record el3 := mk_el3 {
  e_mem : mem; e_dev : D; e_sys : sysregs; e_shared : struct_sh_data;
  e_trace : list ev; e_free_pa : Z; e_free_list : Z; e_smmu : smmu_globals
}.

Definition set_mem (f : mem -> mem) (s : el3) : el3 :=
  mk_el3 (f (e_mem s)) (e_dev s) (e_sys s) (e_shared s) (e_trace s)
    (e_free_pa s) (e_free_list s) (e_smmu s).
Definition set_dev (d : D) (s : el3) : el3 :=
  mk_el3 (e_mem s) d (e_sys s) (e_shared s) (e_trace s)
    (e_free_pa s) (e_free_list s) (e_smmu s).
Definition set_sys (f : sysregs -> sysregs) (s : el3) : el3 :=
  mk_el3 (e_mem s) (e_dev s) (f (e_sys s)) (e_shared s) (e_trace s)
    (e_free_pa s) (e_free_list s) (e_smmu s).
Definition set_shared (f : struct_sh_data -> struct_sh_data) (s : el3) : el3 :=
  mk_el3 (e_mem s) (e_dev s) (e_sys s) (f (e_shared s)) (e_trace s)
    (e_free_pa s) (e_free_list s) (e_smmu s).
Definition add_ev (e : ev) (s : el3) : el3 :=
  mk_el3 (e_mem s) (e_dev s) (e_sys s) (e_shared s) (e :: e_trace s)
    (e_free_pa s) (e_free_list s) (e_smmu s).
Definition set_free_pa (v : Z) (s : el3) : el3 :=
  mk_el3 (e_mem s) (e_dev s) (e_sys s) (e_shared s) (e_trace s)
    v (e_free_list s) (e_smmu s).
Definition set_free_list (v : Z) (s : el3) : el3 :=
  mk_el3 (e_mem s) (e_dev s) (e_sys s) (e_shared s) (e_trace s)
    (e_free_pa s) v (e_smmu s).
Definition set_smmu (f : smmu_globals -> smmu_globals) (s : el3) : el3 :=
  mk_el3 (e_mem s) (e_dev s) (e_sys s) (e_shared s) (e_trace s)
    (e_free_pa s) (e_free_list s) (f (e_smmu s)).

Abbreviation E := (M el3).

(** Normal memory. *)
Definition rd (n : nat) (a : Z) : E Z := gets (fun s => load n (e_mem s) a).
Definition wr (n : nat) (a v : Z) : E unit := modify (set_mem (fun m => store n m a v)).
Definition wr_set (n : Z) (a v : Z) : E unit :=
  modify (set_mem (fun m => memset (Z.to_nat n) m a v)).

Definition emit (e : ev) : E unit := modify (add_ev e).
Definition sysreg (f : sysregs -> Z) : E Z := gets (fun s => f (e_sys s)).
Definition sh {A} (f : struct_sh_data -> A) : E A := gets (fun s => f (e_shared s)).

(** Device and bus accesses. *)
Context {HW : Hw D}.
Definition io_read (n : nat) (a : Z) : E Z := fun s =>
  let '(v, d) := hw_read n (e_dev s) a in
  Done (wrap (8 * Z.of_nat n) v)
    (add_ev (EvRead n a (wrap (8 * Z.of_nat n) v)) (set_dev d s)).
Definition io_write (n : nat) (a v : Z) : E unit := fun s =>
  Done tt (add_ev (EvWrite n a v) (set_dev (hw_write n (e_dev s) a v) s)).
Definition at_s1e3w (va : Z) : E Z :=
  gets (fun s => hw_at_s1e3w (e_dev s) (e_mem s) va).

Lemma wp_rd n a Q s : Q (load n (e_mem s) a) s -> wp (rd n a) Q s.
Proof. done. Qed.
Lemma wp_wr n a v (Q : unit -> el3 -> Prop) s :
  Q tt (set_mem (fun m => store n m a v) s) -> wp (wr n a v) Q s.
Proof. done. Qed.
End state.
Arguments el3 D : clear implicits.
Abbreviation E D := (M (el3 D)).

(** Setters of the shared structure the code assigns. *)
Section shared.
Definition set_elr v r := mk_shared (access_data r) v (sh_spsr_el3 r)
  (exception_expected r) (exception_generated r) (sh_access_mut r) (esr_value r)
  (sh_arg0 r) (sh_arg1 r) (num_access r) (pas_filter_flag r) (generic_flag r)
  (reg_info r) (sh_access r).
Definition set_spsr v r := mk_shared (access_data r) (sh_elr_el3 r) v
  (exception_expected r) (exception_generated r) (sh_access_mut r) (esr_value r)
  (sh_arg0 r) (sh_arg1 r) (num_access r) (pas_filter_flag r) (generic_flag r)
  (reg_info r) (sh_access r).
Definition set_exc_expected v r := mk_shared (access_data r) (sh_elr_el3 r)
  (sh_spsr_el3 r) v (exception_generated r) (sh_access_mut r) (esr_value r)
  (sh_arg0 r) (sh_arg1 r) (num_access r) (pas_filter_flag r) (generic_flag r)
  (reg_info r) (sh_access r).
Definition set_exc_generated v r := mk_shared (access_data r) (sh_elr_el3 r)
  (sh_spsr_el3 r) (exception_expected r) v (sh_access_mut r) (esr_value r)
  (sh_arg0 r) (sh_arg1 r) (num_access r) (pas_filter_flag r) (generic_flag r)
  (reg_info r) (sh_access r).
Definition set_access_mut v r := mk_shared (access_data r) (sh_elr_el3 r)
  (sh_spsr_el3 r) (exception_expected r) (exception_generated r) v (esr_value r)
  (sh_arg0 r) (sh_arg1 r) (num_access r) (pas_filter_flag r) (generic_flag r)
  (reg_info r) (sh_access r).
Definition set_generic_flag v r := mk_shared (access_data r) (sh_elr_el3 r)
  (sh_spsr_el3 r) (exception_expected r) (exception_generated r) (sh_access_mut r)
  (esr_value r) (sh_arg0 r) (sh_arg1 r) (num_access r) (pas_filter_flag r) v
  (reg_info r) (sh_access r).
Definition set_reg_info v r := mk_shared (access_data r) (sh_elr_el3 r)
  (sh_spsr_el3 r) (exception_expected r) (exception_generated r) (sh_access_mut r)
  (esr_value r) (sh_arg0 r) (sh_arg1 r) (num_access r) (pas_filter_flag r)
  (generic_flag r) v (sh_access r).
Definition set_sh_access v r := mk_shared (access_data r) (sh_elr_el3 r)
  (sh_spsr_el3 r) (exception_expected r) (exception_generated r) (sh_access_mut r)
  (esr_value r) (sh_arg0 r) (sh_arg1 r) (num_access r) (pas_filter_flag r)
  (generic_flag r) (reg_info r) v.
End shared.

(** Constants shared by the EL3 files. *)
Definition SIZE_4KB : Z := 4 * 1024.
Definition SIZE_16KB : Z := 16 * 1024.
Definition SIZE_64KB : Z := 64 * 1024.
Definition SET : Z := 1.
Definition CLEAR : Z := 0.
Definition SECURE_PAS : Z := 0.
Definition NONSECURE_PAS : Z := 1.
Definition ROOT_PAS : Z := 2.
Definition REALM_PAS : Z := 3.
Definition NSE_SET (x : Z) : Z := if (x =? SECURE_PAS) || (x =? NONSECURE_PAS) then 0 else 1.
Definition NS_SET (x : Z) : Z := if (x =? ROOT_PAS) || (x =? SECURE_PAS) then 0 else 1.
Definition FREE_MEM_START : Z := 0x880000000.
Definition FREE_MEM_SMMU : Z := 0x880400000.
Definition SHARED_ADDRESS : Z := 0xE0000000.
Definition ROOT_IOVIRT_SMMUV3_BASE : Z := 0x2b400000.
Definition AARCH64_TTBR_ADDR_MASK : Z := ((1 << 47) - 1) << 1.

(** A hardware that ignores writes and reads zero; every translation fails. *)
Definition quiet_hw : Hw unit :=
  {| hw_read _ d _ := (0, d); hw_write _ d _ _ := d; hw_at_s1e3w _ _ _ := 1 |}.

Definition zero_sysregs : sysregs := mk_sysregs 0 0 0 0 0 0 0 0 0 0 0 0 0.
Definition zero_shared : struct_sh_data :=
  mk_shared 0 0 0 0 0 0 0 0 0 0 0 0 (mk_reg_info 0 []) [].
Definition zero_globals : smmu_globals := mk_globals None 0 0 0 ∅ ∅ [] ∅.
Definition el3_init {D} (d : D) (m : mem) : el3 D :=
  mk_el3 m d zero_sysregs zero_shared [] FREE_MEM_START 0 zero_globals.

(** Runs the straight-line primitives of a goal or hypothesis. *)
Ltac el3_run :=
  unfold rd, wr, wr_set, emit, sysreg, sh, gets, modify, bind, ret, get;
  cbn beta iota delta
    [e_mem e_dev e_sys e_shared e_trace e_free_pa e_free_list e_smmu
     set_mem set_dev set_sys set_shared add_ev set_free_pa set_free_list set_smmu].
