(* ===== verification/PoolAlloc.v ===== *)
(** * PoolAlloc

    The first-fit memory pool of val_el3/smmuv3_realm.c ([my_malloc], [my_free],
    [my_calloc]), with its block headers in memory, and its refinement to a
    list of blocks. *)

From Stdlib Require Import ZArith Lia Bool List.
From stdpp Require Import base tactics numbers list gmap option.
From S2P Require Import Prelude Memory El3State.

Definition MEMORY_POOL_SIZE : Z := 2 * 1024 * 1024.
Definition pool_base : Z := FREE_MEM_SMMU.

(** [BlockHeader]: size at 0, is_free (an int) at 8, next at 16. *)
Definition sizeof_BlockHeader : Z := 24.
Definition hdr_size (b : Z) : Z := b.
Definition hdr_is_free (b : Z) : Z := b + 8.
Definition hdr_next (b : Z) : Z := b + 16.

Definition align_size (size alignment : Z) : Z :=
  u64 (size + (alignment - 1)) .& bnot 64 (alignment - 1).

Section code.
Context {D : Type}.

Definition memory_pool_init : E D unit :=
  modify (set_free_list pool_base) ;;
  wr 8 (hdr_size pool_base) (MEMORY_POOL_SIZE - sizeof_BlockHeader) ;;
  wr 4 (hdr_is_free pool_base) 1 ;;
  wr 8 (hdr_next pool_base) 0.

Definition split_block (block size : Z) : E D unit :=
  let new_block := u64 (block + sizeof_BlockHeader + size) in
  let! bsize := rd 8 (hdr_size block) in
  wr 8 (hdr_size new_block) (u64 (bsize - size - sizeof_BlockHeader)) ;;
  wr 4 (hdr_is_free new_block) 1 ;;
  let! bnext := rd 8 (hdr_next block) in
  wr 8 (hdr_next new_block) bnext ;;
  wr 8 (hdr_size block) size ;;
  wr 8 (hdr_next block) new_block.

(** One turn of the search loop of [my_malloc]. *)
Definition malloc_step (size alignment current : Z) : E D (Z + Z) :=
  if current =? 0 then ret (inr 0) else
  let block_start := u64 (current + sizeof_BlockHeader) in
  let aligned_start := align_size block_start alignment in
  let alignment_padding := u64 (aligned_start - block_start) in
  let! is_free := rd 4 (hdr_is_free current) in
  let! csize := rd 8 (hdr_size current) in
  if truthy is_free && (u64 (size + alignment_padding) <=? csize) then
    (when u64 (size + alignment_padding + sizeof_BlockHeader) <? csize then
       split_block current (u64 (size + alignment_padding))) ;;
    wr 4 (hdr_is_free current) 0 ;;
    ret (inr aligned_start)
  else
    let! next := rd 8 (hdr_next current) in
    ret (inl next).

Definition my_malloc (fuel : nat) (size alignment : Z) : E D Z :=
  let! fl := gets e_free_list in
  (when fl =? 0 then memory_pool_init) ;;
  let size := align_size size alignment in
  let! current := gets e_free_list in
  loop fuel (malloc_step size alignment) current.

(** One turn of the coalescing loop of [my_free]. *)
Definition coalesce_step (current : Z) : E D (Z + unit) :=
  if current =? 0 then ret (inr tt) else
  let! cfree := rd 4 (hdr_is_free current) in
  let! cnext := rd 8 (hdr_next current) in
  let! nfree := (if truthy cfree && truthy cnext then rd 4 (hdr_is_free cnext)
                 else ret 0) in
  (when truthy nfree then
     let! csize := rd 8 (hdr_size current) in
     let! nsize := rd 8 (hdr_size cnext) in
     wr 8 (hdr_size current) (u64 (csize + nsize + sizeof_BlockHeader)) ;;
     let! nnext := rd 8 (hdr_next cnext) in
     wr 8 (hdr_next current) nnext) ;;
  let! next := rd 8 (hdr_next current) in
  ret (inl next).

Definition my_free (fuel : nat) (ptr : Z) : E D unit :=
  if ptr =? 0 then ret tt else
  let block := u64 (ptr - sizeof_BlockHeader) in
  wr 4 (hdr_is_free block) 1 ;;
  let! current := gets e_free_list in
  loop fuel coalesce_step current.

Definition my_calloc (fuel : nat) (num size alignment : Z) : E D Z :=
  let total_size := u64 (num * size) in
  let! ptr := my_malloc fuel total_size alignment in
  (when truthy ptr then wr_set total_size ptr 0) ;;
  ret ptr.
End code.

(** ** Abstract pool: the blocks in address order *)

Record blk := mk_blk { b_addr : Z; b_size : Z; b_free : bool }.
#[export] Instance blk_eq_dec : EqDecision blk.
Proof. solve_decision. Defined.

Definition b_start (b : blk) : Z := b_addr b + sizeof_BlockHeader.
Definition b_end (b : blk) : Z := b_start b + b_size b.

Definition align_up (a al : Z) : Z := (a + (al - 1)) - (a + (al - 1)) mod al.

(** First fit with splitting: the pointer and the new blocks. *)
Fixpoint pool_alloc (l : list blk) (size al : Z) : option (Z * list blk) :=
  match l with
  | [] => None
  | b :: l' =>
      let p := align_up (b_start b) al - b_start b in
      if b_free b && (size + p <=? b_size b) then
        if size + p + sizeof_BlockHeader <? b_size b then
          Some (b_start b + p,
            mk_blk (b_addr b) (size + p) false ::
            mk_blk (b_start b + (size + p)) (b_size b - (size + p) - sizeof_BlockHeader) true
              :: l')
        else Some (b_start b + p, mk_blk (b_addr b) (b_size b) false :: l')
      else match pool_alloc l' size al with
           | Some (q, l'') => Some (q, b :: l'')
           | None => None
           end
  end.

(** One pass that merges each free block with a free right neighbour. *)
Fixpoint pool_coalesce (fuel : nat) (l : list blk) : list blk :=
  match fuel with
  | O => l
  | S k =>
      match l with
      | b :: c :: l' =>
          if b_free b && b_free c then
            mk_blk (b_addr b) (b_size b + b_size c + sizeof_BlockHeader) true
              :: pool_coalesce k l'
          else b :: pool_coalesce k (c :: l')
      | _ => l
      end
  end.

Definition pool_release (l : list blk) (ptr : Z) : list blk :=
  pool_coalesce (length l)
    (map (fun b => if b_start b =? ptr then mk_blk (b_addr b) (b_size b) true else b) l).

(** The headers in memory describe the blocks [l], laid out without gaps from
    [a] to [limit]. *)
Fixpoint chain (m : mem) (a limit : Z) (l : list blk) : Prop :=
  match l with
  | [] => a = limit
  | b :: l' =>
      b_addr b = a /\ 0 <= b_size b /\
      load64 m (hdr_size a) = b_size b /\
      load32 m (hdr_is_free a) = b2z (b_free b) /\
      load64 m (hdr_next a) = (if decide (l' = []) then 0 else b_end b) /\
      chain m (b_end b) limit l'
  end.

Definition pool_ok {D} (l : list blk) (s : el3 D) : Prop :=
  e_free_list s = pool_base /\ l <> [] /\
  chain (e_mem s) pool_base (pool_base + MEMORY_POOL_SIZE) l.

(** ** Arithmetic of the pool *)

Lemma align_size_up k x : 0 <= k < 64 -> 0 <= x -> x + 2 ^ k <= 2 ^ 64 ->
  align_size x (2 ^ k) = align_up x (2 ^ k).
Proof.
  intros Hk Hx Hb. unfold align_size, align_up, u64.
  rewrite wrap_small by lia. apply round_down; lia.
Qed.

Lemma align_up_bounds a al : 0 < al -> a <= align_up a al < a + al.
Proof. intros. unfold align_up. pose proof (Z.mod_pos_bound (a + (al - 1)) al). lia. Qed.

Lemma align_up_aligned a al : 0 < al -> aligned (align_up a al) al.
Proof.
  intros. unfold align_up, aligned. rewrite Zminus_mod_idemp_r, Z.sub_diag.
  apply Z.mod_0_l. lia.
Qed.

(** ** The block chain *)

Lemma chain_le m a limit l : chain m a limit l -> a <= limit.
Proof.
  revert a. induction l as [|b l IH]; cbn [chain]; intros a; [lia|].
  intros (Ha & Hs & _ & _ & _ & Hc). apply IH in Hc.
  unfold b_end, b_start, sizeof_BlockHeader in Hc. lia.
Qed.

(** Only the bytes between [a] and [limit] matter. *)
Lemma chain_frame m m' a limit l :
  (forall c, a <= c < limit -> ld_byte m' c = ld_byte m c) ->
  chain m a limit l -> chain m' a limit l.
Proof.
  revert a. induction l as [|b l IH]; cbn [chain]; intros a Hf; [done|].
  intros (Ha & Hs & H1 & H2 & H3 & Hc). pose proof (chain_le _ _ _ _ Hc) as Hle.
  unfold b_end, b_start, sizeof_BlockHeader, hdr_size, hdr_is_free, hdr_next in *.
  repeat split; [done|done|..].
  - rewrite <- H1. apply load_ext. intros. apply Hf. lia.
  - rewrite <- H2. apply load_ext. intros. apply Hf. lia.
  - rewrite <- H3. apply load_ext. intros. apply Hf. lia.
  - apply IH; [|done]. intros. apply Hf. lia.
Qed.

(** Bytes of the free blocks: what the allocator may write. *)
Definition in_free (l : list blk) (c : Z) : Prop :=
  exists b, In b l /\ b_free b = true /\ b_addr b <= c < b_end b.

Section refine.
Context {D : Type}.
Implicit Types s : el3 D.

(** The facts about one header that a loop turn reads. *)
Definition hdr_at (m : mem) (a sz fr nx : Z) : Prop :=
  load64 m (hdr_size a) = sz /\ load32 m (hdr_is_free a) = fr /\
  load64 m (hdr_next a) = nx.

Ltac hdr_simpl :=
  repeat first
    [ rewrite load_store_eq' by (change (8 * Z.of_nat 4) with 32;
                                 change (8 * Z.of_nat 8) with 64; lia)
    | rewrite load_store_ne by (unfold disjoint_rng, hdr_size, hdr_is_free, hdr_next; lia) ].

Lemma hdr_write m a sz fr nx :
  0 <= sz < 2 ^ 64 -> 0 <= fr < 2 ^ 32 -> 0 <= nx < 2 ^ 64 ->
  hdr_at (store64 (store32 (store64 m (hdr_size a) sz) (hdr_is_free a) fr)
            (hdr_next a) nx) a sz fr nx.
Proof. intros. unfold hdr_at. split_and!; hdr_simpl; done. Qed.

Definition split_mem (m : mem) (a n : Z) : mem :=
  let nb := a + sizeof_BlockHeader + n in
  let m1 := store64 (store32 (store64 m (hdr_size nb)
              (load64 m (hdr_size a) - n - sizeof_BlockHeader)) (hdr_is_free nb) 1)
              (hdr_next nb) (load64 m (hdr_next a)) in
  store64 (store64 m1 (hdr_size a) n) (hdr_next a) nb.

Lemma split_block_run s a n :
  0 <= a -> 0 <= n -> n + sizeof_BlockHeader < load64 (e_mem s) (hdr_size a) ->
  a + sizeof_BlockHeader + load64 (e_mem s) (hdr_size a) < 2 ^ 64 ->
  split_block a n s = Done tt (set_mem (fun m => split_mem m a n) s).
Proof.
  intros Ha Hn Hs Hb. unfold split_block, split_mem, sizeof_BlockHeader, u64 in *.
  rewrite !(wrap_small 64 (a + 24 + n)) by lia. el3_run.
  rewrite (wrap_small 64 (_ - n - 24)) by lia.
  rewrite (load_store_ne 4 8), (load_store_ne 8 8); [done|..];
    unfold disjoint_rng, hdr_size, hdr_is_free, hdr_next; lia.
Qed.

Lemma split_mem_hdr m a n sz nx :
  0 <= a -> 0 <= n -> n + sizeof_BlockHeader < sz ->
  a + sizeof_BlockHeader + sz < 2 ^ 64 -> 0 <= nx < 2 ^ 64 ->
  hdr_at m a sz 1 nx ->
  let m' := store32 (split_mem m a n) (hdr_is_free a) 0 in
  let nb := a + sizeof_BlockHeader + n in
  hdr_at m' a n 0 nb /\ hdr_at m' nb (sz - n - sizeof_BlockHeader) 1 nx /\
  only_at (fun c => a <= c < a + sizeof_BlockHeader + sz) m m'.
Proof.
  intros Ha Hn Hs Hb Hnx (H1 & H2 & H3). unfold split_mem, sizeof_BlockHeader in *.
  rewrite H1, H3. split_and!.
  - unfold hdr_at. split_and!; hdr_simpl; lia.
  - unfold hdr_at. split_and!; hdr_simpl; lia.
  - repeat (etransitivity; [|apply only_at_store;
      unfold hdr_size, hdr_is_free, hdr_next; intros; lia]). done.
Qed.

(** The chain continues at [b_end b] or ends. *)
Lemma chain_cons_inv limit m a b l :
  chain m a limit (b :: l) ->
  b_addr b = a /\ 0 <= b_size b /\ b_end b = a + sizeof_BlockHeader + b_size b /\
  b_end b <= limit /\ chain m (b_end b) limit l /\
  hdr_at m a (b_size b) (b2z (b_free b)) (if decide (l = []) then 0 else b_end b).
Proof.
  cbn [chain]. intros (Ha & Hs & H1 & H2 & H3 & Hc).
  pose proof (chain_le _ _ _ _ Hc). unfold hdr_at, b_end, b_start in *. rewrite Ha in *.
  split_and!; try done.
Qed.

Lemma hdr_chain limit m a b l :
  b_addr b = a -> 0 <= b_size b ->
  hdr_at m a (b_size b) (b2z (b_free b)) (if decide (l = []) then 0 else b_end b) ->
  chain m (b_end b) limit l -> chain m a limit (b :: l).
Proof. intros Ha Hs (H1 & H2 & H3) Hc. cbn [chain]. by split_and!. Qed.

Lemma hdr_frame m m' a sz fr nx (P : Z -> Prop) :
  only_at P m m' -> (forall c, a <= c < a + sizeof_BlockHeader -> ~ P c) ->
  hdr_at m a sz fr nx -> hdr_at m' a sz fr nx.
Proof.
  intros Hf HP (H1 & H2 & H3). unfold hdr_at, hdr_size, hdr_is_free, hdr_next,
    sizeof_BlockHeader in *.
  split_and!; erewrite only_at_load; try done; intros; apply HP; lia.
Qed.

Lemma pool_alloc_nil l size al q l' : pool_alloc l size al = Some (q, l') -> l' <> [].
Proof. destruct l; cbn [pool_alloc]; [done|]. repeat case_match; naive_solver. Qed.

Context (k size limit : Z) (Hk : 0 <= k < 32) (Hsize : 0 <= size < 2 ^ 62)
  (Hlimit : limit < 2 ^ 62).
Let al := 2 ^ k.
Let pad (a : Z) := align_up (a + sizeof_BlockHeader) al - (a + sizeof_BlockHeader).

Lemma al_bounds : 0 < al < 2 ^ 32.
Proof. unfold al. split; [lia|]. apply Z.pow_lt_mono_r; lia. Qed.

Lemma pad_bounds a : 0 <= pad a < al.
Proof.
  unfold pad. pose proof al_bounds.
  pose proof (align_up_bounds (a + sizeof_BlockHeader) al). lia.
Qed.

(** The padding the loop computes, free of wrap-around. *)
Lemma malloc_step_eq s a sz fr nx :
  0 < a -> a + sizeof_BlockHeader + sz <= limit -> 0 <= sz ->
  hdr_at (e_mem s) a sz fr nx ->
  malloc_step size al a s =
  if truthy fr && (size + pad a <=? sz) then
    ((when size + pad a + sizeof_BlockHeader <? sz then split_block a (size + pad a)) ;;
     wr 4 (hdr_is_free a) 0 ;; ret (inr (a + sizeof_BlockHeader + pad a))) s
  else Done (inl nx) s.
Proof.
  intros Ha Hl Hs (H1 & H2 & H3). unfold malloc_step.
  pose proof al_bounds as Hal. pose proof (pad_bounds a) as Hp.
  assert (Ep : align_size (u64 (a + sizeof_BlockHeader)) al = a + sizeof_BlockHeader + pad a).
  { unfold u64, sizeof_BlockHeader in *. rewrite wrap_small by lia.
    unfold al in *. rewrite align_size_up by lia. unfold pad, sizeof_BlockHeader, al. lia. }
  rewrite (proj2 (Z.eqb_neq a 0)) by lia. rewrite Ep.
  unfold u64, sizeof_BlockHeader in *.
  rewrite (wrap_small 64 (a + 24)) by lia.
  replace (a + 24 + pad a - (a + 24)) with (pad a) by lia.
  rewrite (wrap_small 64 (pad a)), (wrap_small 64 (size + pad a)),
    (wrap_small 64 (size + pad a + 24)) by lia.
  unfold bind at 1. unfold rd at 1, gets at 1. rewrite H2.
  unfold bind at 1. unfold rd at 1, gets at 1. rewrite H1.
  destruct (truthy fr && (size + pad a <=? sz)); [done|].
  unfold bind, rd, gets, ret. by rewrite H3.
Qed.

(** Taking the block at [a]. *)
Lemma malloc_take s a sz nx :
  0 < a -> a + sizeof_BlockHeader + sz <= limit -> 0 <= nx < 2 ^ 64 ->
  hdr_at (e_mem s) a sz 1 nx -> size + pad a <= sz ->
  exists m',
    malloc_step size al a s =
      Done (inr (a + sizeof_BlockHeader + pad a)) (set_mem (fun _ => m') s) /\
    only_at (fun c => a <= c < a + sizeof_BlockHeader + sz) (e_mem s) m' /\
    if size + pad a + sizeof_BlockHeader <? sz then
      let nb := a + sizeof_BlockHeader + (size + pad a) in
      hdr_at m' a (size + pad a) 0 nb /\
      hdr_at m' nb (sz - (size + pad a) - sizeof_BlockHeader) 1 nx
    else hdr_at m' a sz 0 nx.
Proof.
  intros Ha Hl Hnx Hh Hfit. pose proof (pad_bounds a) as Hp. pose proof al_bounds.
  rewrite (malloc_step_eq s a sz 1 nx) by (try done; lia).
  replace (truthy 1 && (size + pad a <=? sz)) with true by (unfold truthy; zbool).
  destruct (Z.ltb_spec (size + pad a + sizeof_BlockHeader) sz) as [Hlt|Hge].
  - destruct Hh as (H1 & H2 & H3).
    unfold bind at 1. rewrite split_block_run by (unfold sizeof_BlockHeader in *; lia).
    eexists. split; [reflexivity|].
    destruct (split_mem_hdr (e_mem s) a (size + pad a) sz nx) as (Ha' & Hn' & Hf);
      [unfold sizeof_BlockHeader in *; lia..|done|].
    by split.
  - eexists. split; [reflexivity|]. split.
    + apply only_at_store. unfold hdr_is_free, sizeof_BlockHeader in *. intros; lia.
    + destruct Hh as (H1 & H2 & H3). unfold hdr_at. split_and!; hdr_simpl; done.
Qed.

Lemma malloc_skip s a sz fr nx :
  0 < a -> a + sizeof_BlockHeader + sz <= limit -> 0 <= sz ->
  hdr_at (e_mem s) a sz fr nx -> truthy fr && (size + pad a <=? sz) = false ->
  malloc_step size al a s = Done (inl nx) s.
Proof. intros ?? ? Hh E. by rewrite (malloc_step_eq s a sz fr nx), E by done. Qed.

Theorem malloc_loop_refines l : forall s a fuel,
  chain (e_mem s) a limit l -> 0 < a -> (length l < fuel)%nat ->
  let start := if decide (l = []) then 0 else a in
  match pool_alloc l size al with
  | Some (q, l') => exists m',
      loop fuel (malloc_step size al) start s = Done q (set_mem (fun _ => m') s) /\
      chain m' a limit l' /\ only_at (in_free l) (e_mem s) m'
  | None => loop fuel (malloc_step size al) start s = Done 0 s
  end.
Proof.
  induction l as [|b l IH]; intros s a fuel Hc Ha Hf; (destruct fuel as [|fuel]; [cbn in Hf; lia|]).
  { done. }
  cbn [pool_alloc length] in *. rewrite decide_False by done.
  apply chain_cons_inv in Hc as (Hba & Hbs & Hbe & Hbl & Hc & Hh).
  assert (Hbst : b_start b = a + sizeof_BlockHeader) by (unfold b_start; lia).
  rewrite Hbst. fold (pad a). cbv zeta.
  cbn [loop]. destruct (b_free b && (size + pad a <=? b_size b)) eqn:E.
  - apply andb_true_iff in E as [Efree Efit%Z.leb_le]. rewrite Efree in Hh.
    destruct (malloc_take s a (b_size b) (if decide (l = []) then 0 else b_end b))
      as (m' & Hrun & Honly & Hm'); try done; [lia| | ].
    { pose proof (chain_le _ _ _ _ Hc). unfold sizeof_BlockHeader in *. case_decide; lia. }
    assert (Hin : forall c, a <= c < a + sizeof_BlockHeader + b_size b -> in_free (b :: l) c).
    { intros c Hcc. exists b. rewrite Hba, Hbe. split_and!; [by left|done|lia..]. }
    assert (Hc' : chain m' (b_end b) limit l).
    { eapply chain_frame; [|done]. intros c Hcc. apply Honly. lia. }
    pose proof (pad_bounds a). destruct (Z.ltb_spec (size + pad a + sizeof_BlockHeader) (b_size b)).
    + exists m'. split_and!.
      * unfold bind. by rewrite Hrun.
      * destruct Hm' as [Hh1 Hh2].
        assert (Hne : b_end (mk_blk (b_start b + (size + pad a))
                   (b_size b - (size + pad a) - sizeof_BlockHeader) true) = b_end b).
        { unfold b_end, b_start. cbn [b_addr b_size]. unfold sizeof_BlockHeader. lia. }
        assert (Hna : b_end (mk_blk (b_addr b) (size + pad a) false)
                      = a + sizeof_BlockHeader + (size + pad a)).
        { unfold b_end, b_start. cbn [b_addr b_size]. by rewrite Hba. }
        apply hdr_chain; cbn [b_addr b_size b_free]; [done|lia| |].
        { rewrite decide_False by done. by rewrite Hna. }
        rewrite Hna. apply hdr_chain; cbn [b_addr b_size b_free]; [lia|lia| |].
        { rewrite Hbst in Hne. by rewrite Hne. }
        rewrite Hbst in Hne. by rewrite Hne.
      * eapply only_at_mono, Honly. done.
    + exists m'. split_and!.
      * unfold bind. by rewrite Hrun.
      * by apply hdr_chain; cbn [b_addr b_size b_free].
      * eapply only_at_mono, Honly. done.
  - assert (Hskip : malloc_step size al a s =
      Done (inl (if decide (l = []) then 0 else b_end b)) s).
    { eapply malloc_skip; [done| |done|done|]; [lia|]. by destruct (b_free b). }
    assert (0 < b_end b) as Hpos by (unfold sizeof_BlockHeader in *; lia).
    specialize (IH s (b_end b) fuel Hc Hpos ltac:(lia)). cbv zeta in IH.
    destruct (pool_alloc l size al) as [[q l']|] eqn:Ea.
    + destruct IH as (m' & Hrun & Hc' & Honly).
      exists m'. rewrite (bind_done _ _ _ _ _ Hskip). split_and!; [done| |].
      * pose proof (pool_alloc_nil _ _ _ _ _ Ea). apply hdr_chain; [done|done| |done].
        rewrite decide_False by done.
        assert (l <> []) by (intros ->; done). rewrite decide_False in Hh by done.
        eapply hdr_frame; [done| |done].
        intros c Hcc (b' & Hin' & _ & Hr).
        assert (b_end b <= b_addr b'); [|unfold sizeof_BlockHeader in *; lia].
        clear - Hc Hin'. revert Hc. generalize (b_end b).
        induction l as [|b1 l IH]; [done|]. cbn [chain]. intros z (Hz & Hs & _ & _ & _ & Hc).
        destruct Hin' as [->|Hin']; [lia|].
        specialize (IH Hin' _ Hc). unfold b_end, b_start, sizeof_BlockHeader in *. lia.
      * eapply only_at_mono, Honly. intros c (b' & ? & ? & [? ?]). exists b'. split_and!; [by right|done..].
    + rewrite (bind_done _ _ _ _ _ Hskip). exact IH.
Qed.
End refine.

(** ** Soundness of the abstract allocator *)

Lemma pool_alloc_sound l size al q l' :
  0 < al -> 0 <= size -> Forall (fun b => 0 <= b_size b) l ->
  pool_alloc l size al = Some (q, l') ->
  aligned q al /\
  (exists b, In b l /\ b_free b = true /\ b_start b <= q /\ q + size <= b_end b) /\
  (exists b, In b l' /\ b_free b = false /\ b_start b <= q /\ q + size <= b_end b) /\
  (forall b, In b l -> b_free b = false -> In b l').
Proof.
  intros Hal Hsz. revert l'. induction l as [|b l IH]; intros l' HF E; [done|].
  cbn [pool_alloc] in E. apply Forall_cons_iff in HF as [Hb HF].
  pose proof (align_up_bounds (b_start b) al Hal) as Hp.
  pose proof (align_up_aligned (b_start b) al Hal) as Hq.
  destruct (b_free b && _) eqn:Ef.
  - apply andb_true_iff in Ef as [Ef Efit%Z.leb_le].
    destruct (Z.ltb_spec (size + (align_up (b_start b) al - b_start b) + sizeof_BlockHeader)
                (b_size b)) as [Hlt|Hge]; injection E as <- <-;
      replace (b_start b + (align_up (b_start b) al - b_start b))
        with (align_up (b_start b) al) by lia.
    + split_and!; [done|exists b|eexists (mk_blk (b_addr b) _ false)|].
      * unfold b_end. split_and!; [by left|done|lia..].
      * split; [left; reflexivity|]. unfold b_end, b_start in *. cbn [b_addr b_size b_free].
        split_and!; [done|lia..].
      * intros b' [<-|Hin] Hfr; [congruence|]. right. by right.
    + split_and!; [done|exists b|eexists (mk_blk (b_addr b) _ false)|].
      * unfold b_end. split_and!; [by left|done|lia..].
      * split; [left; reflexivity|]. unfold b_end, b_start in *. cbn [b_addr b_size b_free].
        split_and!; [done|lia..].
      * intros b' [<-|Hin] Hfr; [congruence|]. by right.
  - destruct (pool_alloc l size al) as [[q1 l1]|] eqn:Ea; [|done].
    injection E as <- <-.
    destruct (IH l1 HF eq_refl) as (H1 & (b1 & ? & ? & ? & ?) & (b2 & ? & ? & ? & ?) & H4).
    split_and!; [done|exists b1|exists b2|].
    + split_and!; try done. by right.
    + split_and!; try done. by right.
    + intros b' [<-|Hin] Hfr; [by left|]. right. by apply H4.
Qed.

Lemma chain_sizes m a limit l : chain m a limit l -> Forall (fun b => 0 <= b_size b) l.
Proof.
  revert a. induction l as [|b l IH]; cbn [chain]; intros a; [done|].
  intros (_ & ? & _ & _ & _ & ?). constructor; eauto.
Qed.

(** Every block lies inside the chain's extent. *)
Lemma chain_in m a limit l b :
  chain m a limit l -> In b l -> a <= b_addr b /\ b_end b <= limit.
Proof.
  revert a. induction l as [|b1 l IH]; [done|]. intros a (Hba & Hs & _ & _ & _ & Hc) [->|Hin].
  - pose proof (chain_le _ _ _ _ Hc). lia.
  - destruct (IH _ Hc Hin). unfold b_end, b_start, sizeof_BlockHeader in *. lia.
Qed.

(** Distinct blocks of a chain occupy disjoint byte ranges. *)
Lemma chain_disjoint m a limit l b c :
  chain m a limit l -> In b l -> In c l -> b_addr b <> b_addr c ->
  b_end b <= b_addr c \/ b_end c <= b_addr b.
Proof.
  revert a. induction l as [|b1 l IH]; [done|].
  intros a (Hba & Hs & _ & _ & _ & Hc) [->|Hb] [->|Hcn] Hne; [done|..].
  - left. by destruct (chain_in _ _ _ _ _ Hc Hcn).
  - right. by destruct (chain_in _ _ _ _ _ Hc Hb).
  - by apply (IH (b_end b1)).
Qed.

(** A block of a chain is determined by its address. *)
Lemma chain_addr_inj m a limit l b c :
  chain m a limit l -> In b l -> In c l -> b_addr b = b_addr c -> b = c.
Proof.
  revert a. induction l as [|b1 l IH]; [done|].
  intros a (Hba & Hs & _ & _ & _ & Hc) [->|Hb] [->|Hcn] He; [done|..].
  - destruct (chain_in _ _ _ _ _ Hc Hcn). unfold b_end, b_start, sizeof_BlockHeader in *. lia.
  - destruct (chain_in _ _ _ _ _ Hc Hb). unfold b_end, b_start, sizeof_BlockHeader in *. lia.
  - by apply (IH (b_end b1)).
Qed.

(** Writing the payload of a block keeps the chain. *)
Lemma chain_payload m m' a limit l b :
  chain m a limit l -> In b l ->
  (forall c, ~ (b_start b <= c < b_end b) -> ld_byte m' c = ld_byte m c) ->
  chain m' a limit l.
Proof.
  intros Hc Hin Hf. assert (Hon : only_at (fun c => b_start b <= c < b_end b) m m') by exact Hf.
  revert a Hc. induction l as [|b1 l IH]; intros a Hc; [done|].
  pose proof Hc as Hc0. apply chain_cons_inv in Hc as (Hba & Hbs & Hbe & Hbl & Hc & Hh).
  assert (Hno : forall c, a <= c < a + sizeof_BlockHeader -> ~ (b_start b <= c < b_end b)).
  { destruct (chain_in _ _ _ _ _ Hc0 Hin) as [Hlo _]. destruct Hin as [->|Hin].
    - unfold b_start. lia.
    - destruct (chain_in _ _ _ _ _ Hc Hin) as [Hlo' _].
      unfold b_start, sizeof_BlockHeader in *. lia. }
  apply hdr_chain; [done|done|by eapply hdr_frame|].
  destruct Hin as [->|Hin]; [|by apply IH].
  eapply chain_frame; [|done]. intros c Hcc. apply Hf. lia.
Qed.

(** ** Freeing *)

Section free.
Context {D : Type}.
Implicit Types s : el3 D.

Definition mark_free (ptr : Z) (b : blk) : blk :=
  if b_start b =? ptr then mk_blk (b_addr b) (b_size b) true else b.

Lemma mark_free_end ptr b : b_end (mark_free ptr b) = b_end b.
Proof. unfold mark_free. by destruct (b_start b =? ptr). Qed.

(** Setting [is_free] in the header of a block marks exactly that block. *)
Lemma chain_mark m a limit l ptr :
  (exists b, In b l /\ b_start b = ptr) -> chain m a limit l ->
  chain (store32 m (hdr_is_free (ptr - sizeof_BlockHeader)) 1) a limit
    (map (mark_free ptr) l).
Proof.
  revert a. induction l as [|b l IH]; intros a (b' & Hin & Hst); [done|].
  cbn [chain map]. intros (Hba & Hs & H1 & H2 & H3 & Hc).
  rewrite mark_free_end.
  assert (En : (if decide (map (mark_free ptr) l = []) then 0 else b_end b) =
               (if decide (l = []) then 0 else b_end b)) by (by destruct l).
  rewrite En. clear En.
  pose proof (chain_le _ _ _ _ Hc) as Hle.
  destruct (Z.eq_dec (b_start b) ptr) as [E|Hne].
  - assert (Hm : mark_free ptr b = mk_blk (b_addr b) (b_size b) true).
    { unfold mark_free. by rewrite (proj2 (Z.eqb_eq _ _) E). }
    assert (Hl : map (mark_free ptr) l = l).
    { clear - Hc E Hs. rewrite <- (map_id l) at 2. apply map_ext_in. intros c Hin.
      destruct (chain_in _ _ _ _ _ Hc Hin) as [Hlo _]. unfold mark_free.
      rewrite (proj2 (Z.eqb_neq _ _)); [done|].
      unfold b_end, b_start, sizeof_BlockHeader in *. lia. }
    rewrite Hm, Hl. cbn [b_addr b_size b_free].
    replace (ptr - sizeof_BlockHeader) with a by (unfold b_start in E; lia).
    unfold b_end, b_start, sizeof_BlockHeader, hdr_size, hdr_is_free, hdr_next in *.
    split_and!; [done|done|..].
    + rewrite load_store_ne by (unfold disjoint_rng; lia). done.
    + by rewrite load_store_eq'.
    + rewrite load_store_ne by (unfold disjoint_rng; lia). done.
    + eapply chain_frame; [|done]. intros c Hcc. apply ld_byte_store. lia.
  - assert (Hm : mark_free ptr b = b).
    { unfold mark_free. by rewrite (proj2 (Z.eqb_neq _ _) Hne). }
    destruct Hin as [->|Hin]; [done|]. rewrite Hm.
    destruct (chain_in _ _ _ _ _ Hc Hin) as [Hlo Hhi].
    specialize (IH _ (ex_intro _ b' (conj Hin Hst)) Hc).
    unfold b_end, b_start, sizeof_BlockHeader, hdr_size, hdr_is_free, hdr_next in *.
    split_and!; try done; rewrite load_store_ne by (unfold disjoint_rng; lia); done.
Qed.

Context (limit : Z) (Hlimit : limit < 2 ^ 62).

Lemma coalesce_stop s : coalesce_step 0 s = Done (inr tt) s.
Proof. done. Qed.

(** One turn when the block at [a] cannot be merged. *)
Lemma coalesce_skip s a sz fr nx :
  0 < a -> hdr_at (e_mem s) a sz fr nx ->
  (nx = 0 \/ truthy fr = false \/ truthy (load32 (e_mem s) (hdr_is_free nx)) = false) ->
  coalesce_step a s = Done (inl nx) s.
Proof.
  intros Ha (H1 & H2 & H3) Hor. unfold coalesce_step.
  rewrite (proj2 (Z.eqb_neq a 0)) by lia. el3_run. rewrite H2, H3.
  destruct (truthy fr && truthy nx) eqn:E; el3_run.
  - apply andb_true_iff in E as [E1 E2].
    destruct Hor as [->|[Hf|Hf]]; [discriminate E2|congruence|]. rewrite Hf. by rewrite H3.
  - cbn [truthy negb Z.eqb]. by rewrite H3.
Qed.

(** One turn that merges the block at [a] with its free right neighbour. *)
Lemma coalesce_merge s a sz nx sz' nx' :
  0 < a -> 0 <= sz -> 0 <= sz' -> nx = a + sizeof_BlockHeader + sz ->
  nx + sizeof_BlockHeader + sz' <= limit -> 0 <= nx' < 2 ^ 64 ->
  hdr_at (e_mem s) a sz 1 nx -> hdr_at (e_mem s) nx sz' 1 nx' ->
  exists m', coalesce_step a s = Done (inl nx') (set_mem (fun _ => m') s) /\
    hdr_at m' a (sz + sz' + sizeof_BlockHeader) 1 nx' /\
    only_at (fun c => a <= c < a + sizeof_BlockHeader) (e_mem s) m'.
Proof.
  intros Ha Hsz Hsz' Hnx Hl Hnx' (H1 & H2 & H3) (H4 & H5 & H6). unfold coalesce_step.
  rewrite (proj2 (Z.eqb_neq a 0)) by lia. el3_run. rewrite H2, H3.
  assert (truthy nx = true) as -> by (unfold truthy, sizeof_BlockHeader in *; zbool).
  change (truthy 1) with true. cbn [andb]. rewrite H5. change (truthy 1) with true.
  el3_run. rewrite H1, H4.
  unfold u64, sizeof_BlockHeader, hdr_size, hdr_is_free, hdr_next in *.
  rewrite (wrap_small 64 (sz + sz' + 24)) by lia.
  rewrite (load_store_ne 8 8 _ a (nx + 16)) by (unfold disjoint_rng; lia). rewrite H6.
  rewrite load64_store64 by lia.
  exists (store64 (store64 (e_mem s) a (sz + sz' + 24)) (a + 16) nx').
  split; [reflexivity|]. split.
  - unfold hdr_at, hdr_size, hdr_is_free, hdr_next. split_and!.
    + rewrite load_store_ne by (unfold disjoint_rng; lia). apply load64_store64. lia.
    + rewrite !load_store_ne by (unfold disjoint_rng; lia). done.
    + apply load64_store64. lia.
  - etransitivity; apply only_at_store; intros; lia.
Qed.
End free.

Section free_refine.
Context {D : Type} (limit : Z) (Hlimit : limit < 2 ^ 62).
Implicit Types s : el3 D.

(** The coalescing loop computes [pool_coalesce]. *)
Lemma coalesce_loop n : forall l s a fuel,
  (length l <= n)%nat -> chain (e_mem s) a limit l -> 0 < a -> (length l < fuel)%nat ->
  exists m', loop fuel coalesce_step (if decide (l = []) then 0 else a) s
               = Done tt (set_mem (fun _ => m') s) /\
    chain m' a limit (pool_coalesce n l) /\
    only_at (fun c => a <= c < limit) (e_mem s) m'.
Proof.
  induction n as [|n IH]; intros l s a fuel Hn Hc Ha Hf;
    (destruct fuel as [|fuel]; [lia|]).
  { destruct l; cbn in Hn; [|lia]. exists (e_mem s). split_and!; [by destruct s|done|done]. }
  destruct l as [|b l]. { exists (e_mem s). split_and!; [by destruct s|done|done]. }
  rewrite decide_False by done. cbn [length] in *.
  apply (chain_cons_inv limit) in Hc as (Hba & Hbs & Hbe & Hbl & Hc & Hh).
  assert (0 < b_end b) as Hpos by (unfold sizeof_BlockHeader in *; lia).
  destruct (match l with c :: _ => b_free b && b_free c | [] => false end) eqn:E.
  - destruct l as [|c l]; [done|]. apply andb_true_iff in E as [Eb Ec].
    rewrite decide_False in Hh by done. rewrite Eb in Hh.
    apply (chain_cons_inv limit) in Hc as (Hca & Hcs & Hce & Hcl & Hc & Hhc).
    rewrite Ec in Hhc. cbn [pool_coalesce]. rewrite Eb, Ec. cbn [andb].
    assert (0 < b_end c) as Hpos' by (unfold sizeof_BlockHeader in *; lia).
    destruct (coalesce_merge limit Hlimit s a (b_size b) (b_end b) (b_size c)
      (if decide (l = []) then 0 else b_end c)) as (m1 & Hrun & Hh1 & Hf1);
      try done; [unfold sizeof_BlockHeader in *; lia| |].
    { case_decide; lia. }
    assert (Hc1 : chain m1 (b_end c) limit l).
    { eapply chain_frame; [|done]. intros x Hx. apply Hf1.
      unfold sizeof_BlockHeader in *. lia. }
    destruct (IH l (set_mem (fun _ => m1) s) (b_end c) fuel)
      as (m2 & Hrun2 & Hc2 & Hf2); [cbn [length] in *; lia|done|done|cbn [length] in *; lia|].
    exists m2. split_and!.
    + cbn [loop]. by rewrite (bind_done _ _ _ _ _ Hrun).
    + set (b' := mk_blk _ _ _).
      assert (Hbe' : b_end b' = b_end c).
      { unfold b', b_end, b_start, sizeof_BlockHeader in *. cbn [b_addr b_size]. lia. }
      apply hdr_chain; [done|unfold b'; cbn [b_size]; unfold sizeof_BlockHeader; lia| |by rewrite Hbe'].
      rewrite Hbe'. unfold b'. cbn [b_size b_free].
      replace (if decide (pool_coalesce n l = []) then 0 else b_end c)
        with (if decide (l = []) then 0 else b_end c).
      2:{ destruct l as [|d [|d' l]]; [by destruct n|by destruct n|].
          destruct n; [done|]. cbn [pool_coalesce]. by destruct (b_free d && b_free d'). }
      eapply hdr_frame; [exact Hf2| |done]. unfold sizeof_BlockHeader in *. intros; lia.
    + etransitivity.
      * eapply only_at_mono, Hf1. unfold sizeof_BlockHeader in *. intros; lia.
      * eapply only_at_mono, Hf2. unfold sizeof_BlockHeader in *. intros; lia.
  - assert (Hpc : pool_coalesce (S n) (b :: l) = b :: pool_coalesce n l).
    { destruct l as [|c l]; [by destruct n|]. cbn [pool_coalesce]. by rewrite E. }
    rewrite Hpc. clear Hpc.
    assert (Hrun : coalesce_step a s = Done (inl (if decide (l = []) then 0 else b_end b)) s).
    { eapply coalesce_skip; [done|done|]. destruct l as [|c l]; [by left|].
      rewrite decide_False by done. right.
      apply andb_false_iff in E as [E|E]; [left; by rewrite E|right].
      destruct Hc as (_ & _ & _ & Hcf & _). by rewrite Hcf, E. }
    destruct (IH l s (b_end b) fuel) as (m2 & Hrun2 & Hc2 & Hf2); [lia|done|lia|lia|].
    exists m2. split_and!.
    + cbn [loop]. by rewrite (bind_done _ _ _ _ _ Hrun).
    + apply hdr_chain; [done|done| |done].
      replace (if decide (pool_coalesce n l = []) then 0 else b_end b)
        with (if decide (l = []) then 0 else b_end b).
      2:{ destruct l as [|d [|d' l]]; [by destruct n|by destruct n|].
          destruct n; [done|]. cbn [pool_coalesce]. by destruct (b_free d && b_free d'). }
      eapply hdr_frame; [exact Hf2| |done]. unfold sizeof_BlockHeader in *. intros; lia.
    + eapply only_at_mono, Hf2. unfold sizeof_BlockHeader in *. intros; lia.
Qed.
End free_refine.

(** ** Theorems *)

Section theorems.
Context {D : Type}.
Implicit Types s : el3 D.

Lemma pool_limit : pool_base + MEMORY_POOL_SIZE < 2 ^ 62.
Proof. done. Qed.

(** The pool before its first allocation is one free block. *)
Definition pool_start : list blk :=
  [mk_blk pool_base (MEMORY_POOL_SIZE - sizeof_BlockHeader) true].

Lemma memory_pool_init_ok s :
  exists s', memory_pool_init s = Done tt s' /\ pool_ok pool_start s'.
Proof.
  eexists. split; [reflexivity|]. split; [done|]. split; [done|].
  apply hdr_chain; [done|done| |done]. by apply hdr_write.
Qed.

Lemma my_malloc_unfold s fuel size alignment :
  e_free_list s = pool_base ->
  my_malloc fuel size alignment s =
  loop fuel (malloc_step (align_size size alignment) alignment) pool_base s.
Proof.
  intros Hl. unfold my_malloc. el3_run. rewrite Hl.
  replace (pool_base =? 0) with false by done. el3_run. by rewrite Hl.
Qed.

(** C4. [my_malloc] refines first-fit allocation on the block list: with fuel
    for one turn per block it always returns, with the pointer and the new
    block list of [pool_alloc] for the size rounded up to the alignment, or
    NULL and an unchanged state when no free block is large enough; it
    writes no byte outside the blocks that were free. *)
Theorem my_malloc_refines l s fuel size k :
  pool_ok l s -> 0 <= k < 32 -> 0 <= size < 2 ^ 32 -> (length l < fuel)%nat ->
  match pool_alloc l (align_up size (2 ^ k)) (2 ^ k) with
  | Some (q, l') => exists m',
      my_malloc fuel size (2 ^ k) s = Done q (set_mem (fun _ => m') s) /\
      pool_ok l' (set_mem (fun _ => m') s) /\ only_at (in_free l) (e_mem s) m'
  | None => my_malloc fuel size (2 ^ k) s = Done 0 s
  end.
Proof.
  intros (Hl & Hne & Hc) Hk Hs Hf. rewrite my_malloc_unfold by done.
  assert (2 ^ k < 2 ^ 32) by (apply Z.pow_lt_mono_r; lia).
  rewrite align_size_up by lia.
  pose proof (align_up_bounds size (2 ^ k) ltac:(lia)).
  pose proof (malloc_loop_refines k (align_up size (2 ^ k)) _ Hk ltac:(lia) pool_limit
                l s pool_base fuel Hc ltac:(done) Hf) as H1.
  cbv zeta in H1. rewrite decide_False in H1 by done.
  destruct (pool_alloc l _ _) as [[q l']|] eqn:E; [|done].
  destruct H1 as (m' & ? & ? & ?). exists m'. split; [done|]. split; [|done].
  split; [done|]. split; [by eapply pool_alloc_nil|done].
Qed.


(** C35. Freeing a pointer that is the start of a block marks that block free
    and merges right neighbours in one pass, for every pool state; the loop
    always ends. *)
Theorem my_free_refines l s fuel ptr :
  pool_ok l s -> (length l < fuel)%nat -> (exists b, In b l /\ b_start b = ptr) ->
  exists s', my_free fuel ptr s = Done tt s' /\ pool_ok (pool_release l ptr) s'.
Proof.
  intros (Hl & Hne & Hc) Hf Hb. pose proof Hb as (b & Hin & Hst).
  destruct (chain_in _ _ _ _ _ Hc Hin) as [Hlo Hhi].
  pose proof (chain_sizes _ _ _ _ Hc) as Hsz. rewrite Forall_forall in Hsz.
  specialize (Hsz b Hin). cbn beta in Hsz.
  unfold b_end, b_start, sizeof_BlockHeader in *.
  assert (0 < pool_base /\ pool_base + MEMORY_POOL_SIZE < 2 ^ 62) as [Hb0 Hb1] by done.
  unfold my_free. rewrite (proj2 (Z.eqb_neq ptr 0)) by lia.
  unfold u64, sizeof_BlockHeader. rewrite (wrap_small 64) by lia.
  set (s1 := set_mem (fun m => store32 m (hdr_is_free (ptr - 24)) 1) s).
  assert (Hc1 : chain (e_mem s1) pool_base (pool_base + MEMORY_POOL_SIZE)
                  (map (mark_free ptr) l)).
  { apply chain_mark; [|done]. exists b. by split. }
  destruct (coalesce_loop _ Hb1 (length l) (map (mark_free ptr) l) s1 pool_base fuel)
    as (m' & Hrun & Hc' & _); [by rewrite length_map|done|done|by rewrite length_map|].
  rewrite decide_False in Hrun by (by destruct l).
  exists (set_mem (fun _ => m') s1). split.
  - rewrite <- Hrun. unfold bind at 1, wr, modify, gets. unfold bind. fold s1.
    by replace (e_free_list s1) with pool_base.
  - split; [done|]. split; [|done]. unfold pool_release. fold (mark_free ptr).
    destruct l as [|b0 [|b1 l]]; [done|done|]. cbn [map length pool_coalesce].
    by destruct (b_free _ && b_free _).
Qed.

(** [my_calloc] returns NULL or a block whose requested bytes are all
    zero, and leaves a well-formed pool. *)
Theorem my_calloc_zeroed l s fuel num size k :
  pool_ok l s -> 0 <= k < 32 -> 0 <= num -> 0 <= size -> num * size < 2 ^ 32 ->
  (length l < fuel)%nat ->
  exists p s' l', my_calloc fuel num size (2 ^ k) s = Done p s' /\ pool_ok l' s' /\
    (p = 0 \/ aligned p (2 ^ k) /\ forall c, p <= c < p + num * size -> ld_byte (e_mem s') c = 0).
Proof.
  intros Hok Hk Hn Hs Ht Hf. unfold my_calloc, u64.
  rewrite (wrap_small 64) by nia.
  pose proof (my_malloc_refines l s fuel (num * size) k Hok Hk ltac:(nia) Hf) as H.
  destruct (pool_alloc l _ _) as [[q l']|] eqn:E.
  2:{ exists 0, s, l. rewrite (bind_done _ _ _ _ _ H). split_and!; [done|done|by left]. }
  destruct H as (m' & Hr & Hok' & _). rewrite (bind_done _ _ _ _ _ Hr).
  pose proof Hok as (_ & _ & Hc). pose proof (align_up_bounds (num * size) (2 ^ k) ltac:(lia)).
  destruct (pool_alloc_sound l (align_up (num * size) (2 ^ k)) (2 ^ k) q l' ltac:(lia) ltac:(nia)
    (chain_sizes _ _ _ _ Hc) E) as (Hal & (b1 & Hb1 & _ & Hs1 & _) & (b2 & Hb2 & Hf2 & Hs2 & He2) & _).
  destruct (chain_in _ _ _ _ _ Hc Hb1) as [Hlo _].
  assert (0 < pool_base) by done. unfold b_start, sizeof_BlockHeader in Hs1.
  unfold truthy. rewrite (proj2 (Z.eqb_neq q 0)) by lia. cbn [negb].
  eexists q, _, l'. split; [reflexivity|]. destruct Hok' as (Hl' & Hne' & Hc'). split.
  - split; [done|]. split; [done|]. cbn [e_mem set_mem] in *.
    eapply chain_payload; [exact Hc'|exact Hb2|]. intros c Hcc. rewrite ld_byte_memset.
    rewrite Z2Nat.id by nia. replace ((q <=? c) && (c <? q + num * size)) with false; [done|].
    zbool.
  - right. split; [done|]. intros c Hcc. cbn [e_mem set_mem]. rewrite ld_byte_memset.
    rewrite Z2Nat.id by nia. replace ((q <=? c) && (c <? q + num * size)) with true by zbool.
    done.
Qed.
End theorems.

(** ** A pointer behind alignment padding cannot be freed

    [my_free] looks for the header just below the pointer, [my_malloc] puts it
    below the padding.  With 8 bytes of padding the store of [is_free] lands on
    the [next] field of the block's own header. *)
Definition free_demo : E unit unit :=
  let! a := my_malloc 4 4040 8 in
  let! p := my_malloc 4 32 4096 in
  my_free 8 p.

Definition free_demo_hdr : Z := pool_base + sizeof_BlockHeader + 4040.

Lemma no_chain (s : el3 unit) l :
  load64 (e_mem s) (hdr_size pool_base) = 4040 ->
  load64 (e_mem s) (hdr_size free_demo_hdr) = 4104 ->
  load64 (e_mem s) (hdr_next free_demo_hdr) = 0x800000001 -> ~ pool_ok l s.
Proof.
  intros Hs1 Hs2 Hn2 (_ & Hne & Hc). destruct l as [|b1 l]; [done|].
  apply chain_cons_inv in Hc as (Ha & _ & He & _ & Hc & (Hsz & _)).
  rewrite Hs1 in Hsz. rewrite <- Hsz in He. rewrite He in Hc.
  destruct l as [|b2 l]; [vm_compute in Hc; discriminate Hc|].
  change (pool_base + sizeof_BlockHeader + 4040) with free_demo_hdr in Hc.
  apply chain_cons_inv in Hc as (Ha2 & _ & He2 & _ & _ & (Hsz2 & _ & Hnx)).
  rewrite Hs2 in Hsz2. rewrite Hn2, He2, <- Hsz2 in Hnx.
  case_decide; vm_compute in Hnx; discriminate Hnx.
Qed.

(** Allocating 4040 bytes and then 32 bytes at 4 KiB alignment and freeing
    the second pointer leaves its block marked in use, overwrites that block's
    [next] pointer, and the pool is no longer well formed for any block list. *)
Theorem my_free_padded_breaks_pool :
  exists s', free_demo (el3_init tt ∅) = Done tt s' /\
    load32 (e_mem s') (hdr_is_free free_demo_hdr) = 0 /\
    load64 (e_mem s') (hdr_next free_demo_hdr) = 0x800000001 /\
    forall l, ~ pool_ok l s'.
Proof.
  eexists. split; [vm_compute; reflexivity|].
  split; [vm_compute; reflexivity|]. split; [vm_compute; reflexivity|].
  intros l. apply no_chain; vm_compute; reflexivity.
Qed.

(** ** Witnesses *)

Definition pool_one : el3 unit :=
  match memory_pool_init (el3_init tt ∅) with Done _ s => s | _ => el3_init tt ∅ end.

Lemma pool_one_ok : pool_ok pool_start pool_one.
Proof.
  destruct (memory_pool_init_ok (el3_init tt ∅)) as (s' & Hr & Hok).
  unfold pool_one. by rewrite Hr.
Qed.

Lemma my_malloc_refines_witness :
  match pool_alloc pool_start (align_up 100 (2 ^ 12)) (2 ^ 12) with
  | Some (q, l') => exists m',
      my_malloc 2 100 (2 ^ 12) pool_one = Done q (set_mem (fun _ => m') pool_one) /\
      pool_ok l' (set_mem (fun _ => m') pool_one) /\
      only_at (in_free pool_start) (e_mem pool_one) m'
  | None => my_malloc 2 100 (2 ^ 12) pool_one = Done 0 pool_one
  end.
Proof.
  apply (my_malloc_refines pool_start pool_one 2 100 12);
    [apply pool_one_ok|lia|lia|cbn; lia].
Defined.

Definition pool_two : el3 unit :=
  match my_malloc 2 100 (2 ^ 12) pool_one with Done _ s => s | _ => pool_one end.


Lemma my_free_refines_witness :
  exists s', my_free 2 (pool_base + sizeof_BlockHeader) pool_one = Done tt s' /\
    pool_ok (pool_release pool_start (pool_base + sizeof_BlockHeader)) s'.
Proof.
  apply (my_free_refines pool_start pool_one 2);
    [apply pool_one_ok|cbn; lia|eexists; split; [left; reflexivity|reflexivity]].
Defined.

Lemma my_calloc_zeroed_witness :
  exists p s' l', my_calloc 2 2 64 (2 ^ 12) pool_one = Done p s' /\ pool_ok l' s' /\
    (p = 0 \/ aligned p (2 ^ 12) /\
      forall c, p <= c < p + 2 * 64 -> ld_byte (e_mem s') c = 0).
Proof.
  apply (my_calloc_zeroed pool_start pool_one 2 2 64 12);
    [apply pool_one_ok|lia..|cbn; lia].
Defined.
