(* ===== verification/El3Pgt.v ===== *)
(** * El3Pgt

    val_el3/pgt_common.c: granule protection table updates ([add_gpt_entry]) and
    EL3 stage 1 mappings ([add_mmu_entry]), with the descriptor helpers. *)

From Stdlib Require Import ZArith Lia Bool List.
From stdpp Require Import base tactics numbers list gmap option.
From S2P Require Import Prelude Memory El3State.

(** ** Field layout of val_el3/ack_include.h *)

Definition RME_ACS_GPCCR_PPS_SHIFT : Z := 0.
Definition RME_ACS_GPCCR_L0GPTSZ_SHIFT : Z := 20.
Definition RME_ACS_GPCCR_PGS_SHIFT : Z := 14.
Definition RME_ACS_GPCCR_ORGN_SHIFT : Z := 10.
Definition RME_ACS_GPCCR_IRGN_SHIFT : Z := 8.
Definition RME_ACS_GPCCR_SH_SHIFT : Z := 12.
Definition RME_ACS_GPCCR_PPS_MASK : Z := 0x7 << RME_ACS_GPCCR_PPS_SHIFT.
Definition RME_ACS_GPCCR_L0GPTSZ_MASK : Z := 0xf << RME_ACS_GPCCR_L0GPTSZ_SHIFT.
Definition RME_ACS_GPCCR_PGS_MASK : Z := 0x2 << RME_ACS_GPCCR_PGS_SHIFT.
Definition RME_ACS_GPCCR_ORGN_MASK : Z := 0x2 << RME_ACS_GPCCR_ORGN_SHIFT.
Definition RME_ACS_GPCCR_IRGN_MASK : Z := 0x2 << RME_ACS_GPCCR_IRGN_SHIFT.
Definition RME_ACS_GPCCR_SH_MASK : Z := 0x2 << RME_ACS_GPCCR_SH_SHIFT.

Definition IS_GPT_ENTRY_TABLE (v : Z) : bool := (v .& 0xF) =? 0x3.
Definition IS_GPT_ENTRY_CONTIG (v : Z) : bool := (v .& 0xF) =? 0x1.

Definition GPT_NOACCESS : Z := 0x0.
Definition GPT_SECURE : Z := 0x8.
Definition GPT_NONSECURE : Z := 0x9.
Definition GPT_ROOT : Z := 0xA.
Definition GPT_REALM : Z := 0xB.
Definition GPT_ANY : Z := 0xF.

Definition TCR_EL3_TG0_SHIFT : Z := 14.
Definition TCR_EL3_SH0_SHIFT : Z := 12.
Definition TCR_EL3_IRGN0_SHIFT : Z := 8.
Definition TCR_EL3_T0SZ_SHIFT : Z := 0.
Definition TCR_EL3_PS_SHIFT : Z := 16.
Definition TCR_EL3_TG0_MASK : Z := 0x3 << TCR_EL3_TG0_SHIFT.
Definition TCR_EL3_SH0_MASK : Z := 0x3 << TCR_EL3_SH0_SHIFT.
Definition TCR_EL3_IRGN0_MASK : Z := 0x3 << TCR_EL3_IRGN0_SHIFT.
Definition TCR_EL3_T0SZ_MASK : Z := 0x3F << TCR_EL3_T0SZ_SHIFT.
Definition TCR_EL3_PS_MASK : Z := 0x7 << TCR_EL3_PS_SHIFT.

Definition IS_PGT_ENTRY_BLOCK (v : Z) : bool := negb (truthy (v .& 0x2)).
Definition PGT_ENTRY_TABLE_MASK : Z := 0x1 << 1.
Definition PGT_ENTRY_VALID_MASK : Z := 0x1.
Definition PGT_ENTRY_PAGE_MASK : Z := 0x1 << 1.

(** ** Pure helpers *)

(** [is_gpi_valid]. *)
Definition is_gpi_valid (gpi : Z) : bool :=
  (gpi =? GPT_NOACCESS) || (gpi =? GPT_ANY) ||
  ((GPT_SECURE <=? gpi) && (gpi <=? GPT_REALM)).

(** Replaces the 4-bit GPI at bit [sh] when it differs, as each branch of
    [modify_gpt_gpi] does. *)
Definition replace_gpi (entry sh GPI : Z) : Z :=
  let gpi := (entry >> sh) .& 0xf in
  if gpi =? GPI then entry
  else (entry .& bnot 64 (u64 (0xf << sh))) .| u64 (GPI << sh).

(** [modify_gpt_gpi]: an invalid old GPI only prints an error. *)
Definition modify_gpt_gpi (entry pa level p GPI : Z) : Z :=
  if level =? 0 then replace_gpi entry 4 GPI
  else if level =? 1 then
    if IS_GPT_ENTRY_CONTIG entry then replace_gpi entry 4 GPI
    else
      let gpi_index := u8 ((pa >> p) .& 0xf) in
      replace_gpi entry (4 * gpi_index) GPI
  else entry.

(** The [while] of [log2_page_size]: at most 64 turns for a 64-bit size. *)
Fixpoint log2_loop (n : nat) (size bit : Z) : Z :=
  match n with
  | O => 0
  | S k => if size =? 0 then 0
           else if truthy (size .& 1) then bit
           else log2_loop k (size >> 1) (bit + 1)
  end.
Definition log2_page_size (size : Z) : Z := log2_loop 64 size 0.

(** Decoded GPCCR_EL3 ([PE_GPCCR_BF]). *)
Record gpccr_bf := mk_gpccr {
  g_pps : Z; g_pgs : Z; g_l0gptsz : Z; g_orgn : Z; g_irgn : Z; g_sh : Z
}.
Definition decode_gpccr (val : Z) : gpccr_bf :=
  mk_gpccr
    (wrap 3 ((val .& RME_ACS_GPCCR_PPS_MASK) >> RME_ACS_GPCCR_PPS_SHIFT))
    (wrap 2 ((val .& RME_ACS_GPCCR_PGS_MASK) >> RME_ACS_GPCCR_PGS_SHIFT))
    (wrap 4 ((val .& RME_ACS_GPCCR_L0GPTSZ_MASK) >> RME_ACS_GPCCR_L0GPTSZ_SHIFT))
    (wrap 2 ((val .& RME_ACS_GPCCR_ORGN_MASK) >> RME_ACS_GPCCR_ORGN_SHIFT))
    (wrap 2 ((val .& RME_ACS_GPCCR_IRGN_MASK) >> RME_ACS_GPCCR_IRGN_SHIFT))
    (wrap 2 ((val .& RME_ACS_GPCCR_SH_MASK) >> RME_ACS_GPCCR_SH_SHIFT)).

Definition pgs_table : list Z := [12; 16; 14].
Definition pps_table : list Z := [32; 36; 40; 42; 44; 48; 52].
Definition oas_bit_arr : list Z := [32; 36; 40; 42; 44; 48; 52; 56].
Definition tg_arr : list Z := [SIZE_4KB; SIZE_16KB; SIZE_64KB].

(** Array access; an index past the end is undefined behaviour. *)
Definition nth_chk {S A} (l : list A) (i : Z) : M S A :=
  use (if i <? 0 then None else nth_error l (Z.to_nat i)).

Section code.
Context {D : Type} {HW : Hw D}.

(** [get_gpt_index]. *)
Definition get_gpt_index (pa level l0gptsz pps p : Z) : E D Z :=
  if level =? 0 then
    let! one := shl_chk 32 1 (pps - l0gptsz) in
    let! hi := shr_chk 64 pa l0gptsz in
    ret (hi .& u32 (one - 1))
  else if level =? 1 then
    let! hi := shr_chk 64 pa (p + 4) in
    let! one := shl_chk 64 1 (l0gptsz - (p + 4)) in
    ret (hi .& u64 (one - 1))
  else ret 0.

Definition cln_and_invldt_cache (a : Z) : E D unit := emit (EvCleanInv a).

(** [add_gpt_entry]. *)
Definition add_gpt_entry (arg0 arg1 : Z) : E D unit :=
  let PA := arg0 in
  let gpi := arg1 in
  let! val := sysreg gpccr_el3 in
  let gpccr := decode_gpccr val in
  let! base := sysreg gptbr_el3 in
  let! p := nth_chk pgs_table (g_pgs gpccr) in
  let! pps := nth_chk pps_table (g_pps gpccr) in
  let l0gptsz := u8 (g_l0gptsz gpccr + 30) in
  let l0_idx_width := if l0gptsz <? pps then u8 (pps - l0gptsz) else 0 in
  let x := u8 (Z.max (l0_idx_width + 3) 12) in
  let gpt_base := u64 (base << 12) .& bnot 64 ((1 << x) - 1) in
  let! index_0 := get_gpt_index PA 0 l0gptsz pps p in
  let l0_entry := gpt_base + 8 * index_0 in
  let! e0 := rd 8 l0_entry in
  if IS_GPT_ENTRY_TABLE e0 then
    wr 8 l0_entry
      (e0 .& bnot 64 ((((1 << 12) - 1) << 52) .| (((1 << 8) - 1) << 4))) ;;
    let! e0' := rd 8 l0_entry in
    let gpt_base := e0' .& (((1 << 40) - 1) << 12) in
    let! index_1 := get_gpt_index PA 1 l0gptsz pps p in
    let l1_entry := gpt_base + 8 * index_1 in
    let! e1 := rd 8 l1_entry in
    (* contiguous and granule descriptors take the same steps; what differs
       is inside [modify_gpt_gpi] and in the unused local description *)
    wr 8 l1_entry (modify_gpt_gpi e1 PA 1 p gpi) ;;
    cln_and_invldt_cache l1_entry
  else
    wr 8 l0_entry (modify_gpt_gpi e0 PA 0 p gpi) ;;
    cln_and_invldt_cache l0_entry.

(** [val_get_tcr_info]: [orgn] is read with the IRGN0 mask and [irgn] is left
    unset. *)
Definition val_get_tcr_info : E D tcr_el3_info :=
  let! tcr_val := sysreg tcr_el3 in
  ret (mk_tcr
    (wrap 3 ((tcr_val .& TCR_EL3_PS_MASK) >> TCR_EL3_PS_SHIFT))
    (wrap 2 ((tcr_val .& TCR_EL3_TG0_MASK) >> TCR_EL3_TG0_SHIFT))
    (wrap 2 ((tcr_val .& TCR_EL3_SH0_MASK) >> TCR_EL3_SH0_SHIFT))
    (wrap 2 ((tcr_val .& TCR_EL3_IRGN0_MASK) >> TCR_EL3_IRGN0_SHIFT))
    None
    (wrap 6 ((tcr_val .& TCR_EL3_T0SZ_MASK) >> TCR_EL3_T0SZ_SHIFT))).

(** Walk state of [add_mmu_entry]:
    (tt_base, this_level, bits_remaining, bits_at_this_level). *)
Definition mmu_walk : Type := Z * Z * Z * Z.

(** One turn of the walk of [add_mmu_entry]; [rec] is the recursive call that
    maps a fresh table page onto itself. The loop yields the address of the
    last descriptor written. *)
Definition mmu_step (rec : Z -> Z -> Z -> E D unit)
    (input_address output_address attr page_size page_size_log2 bits_per_level
     num_pgt_levels : Z) (w : mmu_walk) : E D (mmu_walk + Z) :=
  let '(tt_base, this_level, bits_remaining, bits_at_this_level) := w in
  let! hi := shr_chk 64 input_address bits_remaining in
  let! one := shl_chk 64 1 bits_at_this_level in
  let index := u32 (hi .& u64 (one - 1)) in
  let table_desc := tt_base + 8 * index in
  let next t := inl (t, this_level + 1, u32 (bits_remaining - bits_per_level),
                     bits_per_level) in
  if this_level =? u32 (num_pgt_levels - 1) then
    wr 8 table_desc (PGT_ENTRY_PAGE_MASK .| PGT_ENTRY_VALID_MASK) ;;
    let! v := rd 8 table_desc in
    wr 8 table_desc (v .| (output_address .& bnot 64 (page_size - 1))) ;;
    let! v := rd 8 table_desc in
    wr 8 table_desc (v .| attr) ;;
    ret (inr table_desc)
  else
    let! v := rd 8 table_desc in
    if (v =? 0) || IS_PGT_ENTRY_BLOCK v || ((v .& 0xf) =? 0xf) then
      let! fp := gets e_free_pa in
      modify (set_free_pa (u64 (fp + SIZE_4KB))) ;;
      wr 8 table_desc (PGT_ENTRY_TABLE_MASK .| PGT_ENTRY_VALID_MASK) ;;
      let! v := rd 8 table_desc in
      wr 8 table_desc (v .| (fp .& bnot 64 (page_size - 1))) ;;
      let! par := at_s1e3w fp in
      (when (par .& 0x1) =? 0x1 then rec fp fp NONSECURE_PAS) ;;
      ret (next fp)
    else if IS_PGT_ENTRY_BLOCK v then
      wr 8 table_desc (PGT_ENTRY_PAGE_MASK .| PGT_ENTRY_VALID_MASK) ;;
      let! v := rd 8 table_desc in
      wr 8 table_desc (v .| (output_address .& bnot 32 (u32 (bits_remaining - 1)))) ;;
      let! v := rd 8 table_desc in
      wr 8 table_desc (v .| attr) ;;
      ret (inr table_desc)
    else
      let! m := shl_chk 64 1 (48 - page_size_log2) in
      ret (next (v .& u64 ((m - 1) << page_size_log2))).

(** The geometry [add_mmu_entry] derives from TCR_EL3: (page_size,
    page_size_log2, bits_per_level, num_pgt_levels, ias). *)
Definition mmu_geometry (tcr : tcr_el3_info) : E D (Z * Z * Z * Z * Z) :=
  let ias := 64 - tcr_tsz tcr in
  let! _oas := nth_chk oas_bit_arr (tcr_ps tcr) in
  let! page_size := nth_chk tg_arr (tcr_tg tcr) in
  let page_size_log2 := log2_page_size page_size in
  let bits_per_level := u32 (page_size_log2 - 3) in
  let num := u32 (ias - page_size_log2 + bits_per_level - 1) / bits_per_level in
  let num_pgt_levels := if 4 <? num then 4 else num in
  ret (page_size, page_size_log2, bits_per_level, num_pgt_levels, ias).

(** [add_mmu_entry]; [fuel] bounds the recursion depth, a walk takes at most
    four turns. *)
Fixpoint add_mmu_entry (fuel : nat) (arg0 arg1 arg2 : Z) : E D unit :=
  match fuel with
  | O => nofuel
  | S n =>
    let! tcr := val_get_tcr_info in
    let! ttbr := sysreg ttbr_el3 in
    let tt_base := ttbr .& AARCH64_TTBR_ADDR_MASK in
    let! '(page_size, page_size_log2, bits_per_level, num_pgt_levels, ias) :=
      mmu_geometry tcr in
    let bits_remaining :=
      u32 (u32 (num_pgt_levels - 1) * bits_per_level + page_size_log2) in
    let bits_at_this_level := u32 (ias - bits_remaining) in
    let! table_desc :=
      loop 5 (mmu_step (add_mmu_entry n) arg0 arg1 arg2 page_size page_size_log2
                bits_per_level num_pgt_levels)
        (tt_base, 0, bits_remaining, bits_at_this_level) in
    cln_and_invldt_cache table_desc
  end.

(** [modify_desc] of pgt_common.c. *)
Definition modify_desc (table_desc start_bit value_to_set num_bits : Z) : E D Z :=
  let bit_mask := u64 (Nat.iter (Z.to_nat num_bits) (fun m => u64 (m * 2)) 1 - 1) in
  let! m := shl_chk 64 bit_mask start_bit in
  let! v := shl_chk 64 value_to_set start_bit in
  ret ((table_desc .& bnot 64 m) .| v).
End code.

(** ** Specification

    The granule protection table as the architecture reads it: the slot of a
    physical address is the descriptor that holds its GPI and the position of
    the 4-bit field in it. *)
Record gpt_cfg := mk_cfg { c_base : Z; c_l0 : Z; c_pps : Z; c_p : Z }.

Definition gpt_config (gpccr gptbr : Z) : option gpt_cfg :=
  match nth_error pps_table (Z.to_nat (fld 0 3 gpccr)),
        nth_error pgs_table (Z.to_nat (fld 14 2 gpccr)) with
  | Some pps, Some p =>
      let l0 := fld 20 4 gpccr + 30 in
      if l0 <=? pps then
        Some (mk_cfg ((u64 (gptbr << 12)) .& bnot 64 (2 ^ Z.max (pps - l0 + 3) 12 - 1)) l0 pps p)
      else None
  | _, _ => None
  end.

Definition l0_desc (c : gpt_cfg) (pa : Z) : Z :=
  c_base c + 8 * fld (c_l0 c) (c_pps c - c_l0 c) pa.
Definition next_table (e : Z) : Z := e .& (((1 << 40) - 1) << 12).
Definition l1_desc (c : gpt_cfg) (m : mem) (pa : Z) : Z :=
  next_table (load64 m (l0_desc c pa)) + 8 * fld (c_p c + 4) (c_l0 c - (c_p c + 4)) pa.
Definition is_table (c : gpt_cfg) (m : mem) (pa : Z) : bool :=
  IS_GPT_ENTRY_TABLE (load64 m (l0_desc c pa)).
Definition gpt_slot (c : gpt_cfg) (m : mem) (pa : Z) : Z * Z :=
  if is_table c m pa then
    if IS_GPT_ENTRY_CONTIG (load64 m (l1_desc c m pa)) then (l1_desc c m pa, 4)
    else (l1_desc c m pa, 4 * fld (c_p c) 4 pa)
  else (l0_desc c pa, 4).
Definition gpt_gpi (c : gpt_cfg) (m : mem) (pa : Z) : Z :=
  fld (snd (gpt_slot c m pa)) 4 (load64 m (fst (gpt_slot c m pa))).

(** One descriptor field speaks for an aligned range of [2 ^ scope_bits] bytes:
    the block of the level 0 entry, the sixteen granules of the level 1 entry for
    a contiguous descriptor, else one granule. *)
Definition scope_bits (c : gpt_cfg) (m : mem) (pa : Z) : Z :=
  if is_table c m pa then
    if IS_GPT_ENTRY_CONTIG (load64 m (l1_desc c m pa)) then c_p c + 4 else c_p c
  else c_l0 c.

(** Level 1 tables do not overlap the level 0 table. *)
Definition tables_apart (c : gpt_cfg) (m : mem) : Prop :=
  forall x y, is_table c m x = true -> disjoint_rng (l1_desc c m x) 8 (l0_desc c y) 8.

(** ** Lemmas *)

Lemma replace_gpi_fld entry sh GPI :
  0 <= entry < 2 ^ 64 -> 0 <= sh -> sh + 4 <= 64 -> 0 <= GPI < 16 ->
  replace_gpi entry sh GPI = fld_set sh 4 entry GPI.
Proof.
  intros He Hs Hw Hg. unfold replace_gpi.
  assert (((entry >> sh) .& 0xf) = fld sh 4 entry) as -> by done.
  assert (forall i, 0 <= i -> Z.testbit GPI i = Z.testbit GPI i && (i <? 4)) as HG.
  { intros i Hi. destruct (Z.ltb_spec i 4); [by rewrite andb_true_r|].
    by rewrite (testbit_high 4) by lia. }
  apply Z.bits_inj'. intros i Hi. rewrite testbit_fld_set by lia.
  destruct (Z.eqb_spec (fld sh 4 entry) GPI) as [Heq|Hne].
  - destruct ((sh <=? i) && (i <? sh + 4)) eqn:E; [|done].
    rewrite <- Heq, testbit_fld by lia.
    replace (i - sh + sh) with i by lia. replace (i - sh <? 4) with true by lia.
    by rewrite andb_true_r.
  - unfold bnot, u64. rewrite Z.lor_spec, Z.land_spec, !testbit_wrap, Z.lnot_spec by lia.
    rewrite testbit_wrap, !testbit_shiftl by lia.
    change 15 with (Z.ones 4). 
    destruct (Z.ltb_spec i 64).
    + rewrite !andb_true_r. destruct (Z.leb_spec sh i); cbn [andb].
      * rewrite Z.testbit_ones, (HG (i - sh)) by lia.
        replace (0 <=? i - sh) with true by lia. cbn [andb].
        destruct (Z.ltb_spec i (sh + 4)).
        -- replace (i - sh <? 4) with true by lia. by rewrite andb_false_r, andb_true_r.
        -- replace (i - sh <? 4) with false by lia.
           by rewrite andb_true_r, andb_false_r, orb_false_r.
      * rewrite !(Z.testbit_neg_r _ (i - sh)) by lia. by rewrite andb_true_r, orb_false_r.
    + rewrite !andb_false_r. cbn [orb].
      replace (i <? sh + 4) with false by lia. rewrite andb_false_r.
      by rewrite (testbit_high 64) by lia.
Qed.

Lemma nth_chk_some {S A} (l : list A) i (a : A) (s : S) :
  0 <= i -> nth_error l (Z.to_nat i) = Some a -> nth_chk l i s = Done a s.
Proof.
  intros Hi Hn. unfold nth_chk. replace (i <? 0) with false by lia. by rewrite Hn.
Qed.

Lemma decode_gpccr_fields val : fld 14 2 val <> 1 -> fld 14 2 val <> 3 ->
  g_pps (decode_gpccr val) = fld 0 3 val /\
  g_l0gptsz (decode_gpccr val) = fld 20 4 val /\
  g_pgs (decode_gpccr val) = fld 14 2 val.
Proof.
  intros H1 H3. cbn [decode_gpccr g_pps g_l0gptsz g_pgs].
  split; [|split].
  - apply (eq_trans (f_equal (wrap 3) (fld_mask 0 3 val ltac:(lia) ltac:(lia)))).
    apply wrap_small, fld_range. lia.
  - apply (eq_trans (f_equal (wrap 4) (fld_mask 20 4 val ltac:(lia) ltac:(lia)))).
    apply wrap_small, fld_range. lia.
  - assert (Z.testbit (fld 14 2 val) 0 = false) as Hb.
    { pose proof (fld_range 14 2 val ltac:(lia)).
      assert (fld 14 2 val = 0 \/ fld 14 2 val = 2) as [-> | ->] by lia; done. }
    rewrite testbit_fld in Hb by lia. rewrite andb_true_r in Hb.
    apply Z.bits_inj'. intros i Hi. unfold RME_ACS_GPCCR_PGS_MASK, RME_ACS_GPCCR_PGS_SHIFT.
    rewrite testbit_wrap, testbit_shiftr, Z.land_spec, testbit_shiftl, testbit_fld by lia.
    replace (i + 14 - 14) with i by lia.
    destruct (Z.ltb_spec i 2); [|by rewrite !andb_false_r].
    assert (i = 0 \/ i = 1) as [-> | ->] by lia; [|by rewrite !andb_true_r].
    by rewrite Hb.
Qed.

Section indices.
Context {D : Type}.

Lemma get_gpt_index_0 pa l0 pps p (s : el3 D) :
  0 <= l0 < 64 -> 0 <= pps - l0 < 32 ->
  get_gpt_index pa 0 l0 pps p s = Done (fld l0 (pps - l0) pa) s.
Proof.
  intros Hl Hp. unfold get_gpt_index. rewrite Z.eqb_refl.
  unfold shl_chk, shr_chk. 
  replace ((0 <=? pps - l0) && (pps - l0 <? 32)) with true by zbool.
  replace ((0 <=? l0) && (l0 <? 64)) with true by zbool.
  unfold bind, ret, require. f_equal.
  unfold fld. f_equal. rewrite Z.shiftl_1_l, Z.ones_equiv.
  assert (2 ^ (pps - l0) <= 2 ^ 31) by (apply Z.pow_le_mono_r; lia).
  rewrite (wrap_small 32 (2 ^ _)) by lia. unfold u32. apply wrap_small. lia.
Qed.

Lemma get_gpt_index_1 pa l0 pps p (s : el3 D) :
  0 <= p + 4 < 64 -> 0 <= l0 - (p + 4) < 64 ->
  get_gpt_index pa 1 l0 pps p s = Done (fld (p + 4) (l0 - (p + 4)) pa) s.
Proof.
  intros Hl Hp. unfold get_gpt_index. cbn [Z.eqb Pos.eqb].
  unfold shl_chk, shr_chk.
  replace ((0 <=? l0 - (p + 4)) && (l0 - (p + 4) <? 64)) with true by zbool.
  replace ((0 <=? p + 4) && (p + 4 <? 64)) with true by zbool.
  unfold bind, ret, require. f_equal.
  unfold fld. f_equal. rewrite Z.shiftl_1_l, Z.ones_equiv.
  assert (2 ^ (l0 - (p + 4)) <= 2 ^ 63) by (apply Z.pow_le_mono_r; lia).
  rewrite (wrap_small 64 (2 ^ _)) by lia. unfold u64. apply wrap_small. lia.
Qed.
End indices.

(** Reading a level 0 table descriptor clears its reserved bits. *)
Definition clear_res0 (e : Z) : Z :=
  e .& bnot 64 ((((1 << 12) - 1) << 52) .| (((1 << 8) - 1) << 4)).

Lemma nibble e : e .& 0xF = fld 0 4 e.
Proof. unfold fld. by rewrite Z.shiftr_0_r. Qed.

Lemma clear_res0_ok e : 0 <= e < 2 ^ 64 ->
  fld 0 4 (clear_res0 e) = fld 0 4 e /\ next_table (clear_res0 e) = next_table e /\
  0 <= clear_res0 e < 2 ^ 64.
Proof.
  intros He. unfold clear_res0. split; [|split].
  - apply Z.bits_inj'. intros i Hi. rewrite !testbit_fld by lia.
    destruct (Z.ltb_spec i 4); [|by rewrite !andb_false_r]. rewrite !andb_true_r.
    rewrite Z.land_spec. unfold bnot. rewrite testbit_wrap, Z.lnot_spec by lia.
    replace (i + 0) with i by lia. replace (i <? 64) with true by lia.
    rewrite Z.lor_spec, !testbit_shiftl by lia.
    rewrite (Z.testbit_neg_r _ (i - 52)), (Z.testbit_neg_r _ (i - 4)) by lia.
    by rewrite !andb_true_r.
  - unfold next_table. rewrite !shl1_sub1. apply Z.bits_inj'. intros i Hi.
    rewrite !Z.land_spec, testbit_shiftl by lia. unfold bnot.
    rewrite testbit_wrap, Z.lnot_spec, Z.lor_spec, !testbit_shiftl by lia.
    destruct (Z.leb_spec 12 i); [|rewrite (Z.testbit_neg_r _ (i - 12)) by lia;
      by rewrite !andb_false_r].
    rewrite !Z.testbit_ones by lia.
    destruct (Z.ltb_spec (i - 12) 40); [|by rewrite !andb_false_r].
    replace (0 <=? i - 12) with true by lia.
    replace (i <? 64) with true by lia.
    replace (0 <=? i - 52) with false by lia.
    replace (i - 4 <? 8) with false by lia. by rewrite !andb_false_r, !andb_true_r.
  - apply land_range; [lia| |done]. unfold bnot. apply wrap_range. lia.
Qed.

(** What replacing a GPI does to a descriptor. *)
Lemma modify_gpt_gpi_level0 e pa p GPI : 0 <= e < 2 ^ 64 -> 0 <= GPI < 16 ->
  modify_gpt_gpi e pa 0 p GPI = fld_set 4 4 e GPI.
Proof. intros. unfold modify_gpt_gpi. rewrite Z.eqb_refl. apply replace_gpi_fld; lia. Qed.

Lemma modify_gpt_gpi_level1 e pa p GPI : 0 <= e < 2 ^ 64 -> 0 <= GPI < 16 -> 0 <= p ->
  modify_gpt_gpi e pa 1 p GPI =
  fld_set (if IS_GPT_ENTRY_CONTIG e then 4 else 4 * fld p 4 pa) 4 e GPI.
Proof.
  intros He HG Hp. unfold modify_gpt_gpi. cbn [Z.eqb Pos.eqb].
  pose proof (fld_range p 4 pa ltac:(lia)).
  assert (u8 ((pa >> p) .& 0xf) = fld p 4 pa) as ->.
  { apply wrap_small. change 0xf with (Z.ones 4). fold (fld p 4 pa). lia. }
  destruct (IS_GPT_ENTRY_CONTIG e); apply replace_gpi_fld; lia.
Qed.

(** A valid GPI in any field keeps the kind of the descriptor. *)
Lemma kind_fld_set e sh GPI k : is_gpi_valid GPI = true -> 0 <= k < 8 -> k <> 0 ->
  0 <= sh -> (sh = 0 \/ 4 <= sh) -> (sh = 0 -> fld 0 4 e <> k) ->
  (fld 0 4 (fld_set sh 4 e GPI) =? k) = (fld 0 4 e =? k).
Proof.
  intros Hv Hk Hk0 Hs [-> | H4] H0.
  - unfold is_gpi_valid, GPT_NOACCESS, GPT_ANY, GPT_SECURE, GPT_REALM in Hv.
    rewrite fld_fld_set by lia. specialize (H0 eq_refl). lia.
  - by rewrite fld_fld_set_ne by lia.
Qed.

Lemma gpt_config_inv gpccr gptbr c : gpt_config gpccr gptbr = Some c ->
  nth_error pps_table (Z.to_nat (fld 0 3 gpccr)) = Some (c_pps c) /\
  nth_error pgs_table (Z.to_nat (fld 14 2 gpccr)) = Some (c_p c) /\
  c_l0 c = fld 20 4 gpccr + 30 /\ 30 <= c_l0 c <= c_pps c /\ c_pps c <= 52 /\
  12 <= c_p c <= 16 /\
  c_base c = (u64 (gptbr << 12)) .& bnot 64 (2 ^ Z.max (c_pps c - c_l0 c + 3) 12 - 1).
Proof.
  unfold gpt_config. intros H.
  destruct (nth_error pps_table _) as [pps|] eqn:E1; [|done].
  destruct (nth_error pgs_table _) as [p|] eqn:E2; [|done].
  destruct (Z.leb_spec (fld 20 4 gpccr + 30) pps) as [Hle|]; [|done].
  injection H as <-. cbn [c_pps c_p c_l0 c_base].
  pose proof (fld_range 20 4 gpccr ltac:(lia)) as Hr.
  assert (pps <= 52).
  { apply nth_error_In in E1. cbn in E1. lia. }
  assert (12 <= p <= 16).
  { apply nth_error_In in E2. cbn in E2. lia. }
  repeat split; try done; lia.
Qed.

Section gpt.
Context {D : Type} {HW : Hw D}.
Implicit Types (s : el3 D) (m : mem).

(** The memory [add_gpt_entry] leaves. *)
Definition gpt_update (c : gpt_cfg) (m : mem) (pa gpi : Z) : mem :=
  let m1 := if is_table c m pa
            then store64 m (l0_desc c pa) (clear_res0 (load64 m (l0_desc c pa))) else m in
  let '(a, lsb) := gpt_slot c m1 pa in
  store64 m1 a (fld_set lsb 4 (load64 m1 a) gpi).

Lemma l0_desc_store c m pa v : is_table c m pa = true -> v = clear_res0 (load64 m (l0_desc c pa)) ->
  is_table c (store64 m (l0_desc c pa) v) pa = true /\
  l1_desc c (store64 m (l0_desc c pa) v) pa = l1_desc c m pa.
Proof.
  intros Ht ->. pose proof (clear_res0_ok _ (load64_range m (l0_desc c pa))) as (H1 & H2 & H3).
  unfold is_table, l1_desc, IS_GPT_ENTRY_TABLE in *.
  rewrite load64_store64 by done. rewrite !nibble in *. rewrite H1, H2. done.
Qed.

Lemma add_gpt_entry_run c pa gpi s :
  gpt_config (gpccr_el3 (e_sys s)) (gptbr_el3 (e_sys s)) = Some c ->
  fld 14 2 (gpccr_el3 (e_sys s)) <> 1 -> 0 <= gpi < 16 ->
  exists a, add_gpt_entry pa gpi s =
    Done tt (add_ev (EvCleanInv a) (set_mem (fun m => gpt_update c m pa gpi) s)).
Proof.
  intros Hc H1 Hg.
  destruct (gpt_config_inv _ _ _ Hc) as (Hpps & Hp & Hl0 & Hl & Hpm & Hpb & Hbase).
  assert (fld 14 2 (gpccr_el3 (e_sys s)) <> 3) as H3.
  { intros E. rewrite E in Hp. discriminate. }
  destruct (decode_gpccr_fields _ H1 H3) as (Dp & Dl & Dg).
  pose proof (fld_range 0 3 (gpccr_el3 (e_sys s)) ltac:(lia)).
  pose proof (fld_range 14 2 (gpccr_el3 (e_sys s)) ltac:(lia)).
  pose proof (fld_range 20 4 (gpccr_el3 (e_sys s)) ltac:(lia)).
  unfold add_gpt_entry.
  rewrite (bind_done (sysreg gpccr_el3) _ s (gpccr_el3 (e_sys s)) s) by done.
  rewrite (bind_done (sysreg gptbr_el3) _ s (gptbr_el3 (e_sys s)) s) by done.
  rewrite Dp, Dl, Dg.
  rewrite (bind_done _ _ s _ s (nth_chk_some _ _ _ _ (proj1 H0) Hp)).
  rewrite (bind_done _ _ s _ s (nth_chk_some _ _ _ _ (proj1 H) Hpps)).
  cbn zeta.
  assert (u8 (fld 20 4 (gpccr_el3 (e_sys s)) + 30) = c_l0 c) as ->.
  { rewrite Hl0. apply wrap_small. lia. }
  assert ((if c_l0 c <? c_pps c then u8 (c_pps c - c_l0 c) else 0) = c_pps c - c_l0 c) as ->.
  { destruct (Z.ltb_spec (c_l0 c) (c_pps c)); [apply wrap_small; lia | lia]. }
  assert (u8 (Z.max (c_pps c - c_l0 c + 3) 12) = Z.max (c_pps c - c_l0 c + 3) 12) as ->.
  { apply wrap_small. lia. }
  rewrite Z.shiftl_1_l, <- Hbase.
  rewrite (bind_done _ _ s _ s (get_gpt_index_0 pa (c_l0 c) (c_pps c) (c_p c) s
    ltac:(lia) ltac:(lia))).
  fold (l0_desc c pa). 
  rewrite (bind_done (rd 8 (l0_desc c pa)) _ s (load64 (e_mem s) (l0_desc c pa)) s) by done.
  fold (clear_res0 (load64 (e_mem s) (l0_desc c pa))).
  fold (is_table c (e_mem s) pa).
  pose proof (load64_range (e_mem s) (l0_desc c pa)) as Hr0.
  destruct (is_table c (e_mem s) pa) eqn:Ht.
  - set (m1 := store64 (e_mem s) (l0_desc c pa) (clear_res0 (load64 (e_mem s) (l0_desc c pa)))).
    destruct (l0_desc_store c (e_mem s) pa _ Ht eq_refl) as [Ht1 El1]. fold m1 in Ht1, El1.
    exists (l1_desc c m1 pa).
    unfold wr. rewrite (bind_done (modify _) _ s tt (set_mem (fun _ => m1) s)) by done.
    rewrite (bind_done (rd 8 (l0_desc c pa)) _ _ (load64 m1 (l0_desc c pa))
      (set_mem (fun _ => m1) s)) by done.
    rewrite (bind_done _ _ _ _ _ (get_gpt_index_1 pa (c_l0 c) (c_pps c) (c_p c)
      (set_mem (fun _ => m1) s) ltac:(lia) ltac:(lia))).
    fold (next_table (load64 m1 (l0_desc c pa))). fold (l1_desc c m1 pa).
    rewrite (bind_done (rd 8 (l1_desc c m1 pa)) _ _ (load64 m1 (l1_desc c m1 pa))
      (set_mem (fun _ => m1) s)) by done.
    rewrite modify_gpt_gpi_level1 by (apply load64_range || lia).
    unfold bind, modify, cln_and_invldt_cache, emit, modify.
    cbn [set_mem e_mem e_dev e_sys e_shared e_trace e_free_pa e_free_list e_smmu].
    do 2 f_equal. unfold set_mem.
    cbn [e_mem e_dev e_sys e_shared e_trace e_free_pa e_free_list e_smmu]. f_equal.
    unfold gpt_update. rewrite Ht. fold m1. unfold gpt_slot. rewrite Ht1.
    by destruct (IS_GPT_ENTRY_CONTIG _).
  - exists (l0_desc c pa).
    rewrite modify_gpt_gpi_level0 by (apply load64_range || lia).
    unfold wr, bind, modify, cln_and_invldt_cache, emit, modify.
    do 2 f_equal. unfold set_mem. f_equal.
    unfold gpt_update. rewrite Ht. unfold gpt_slot. rewrite Ht. done.
Qed.
End gpt.

Section view.
Variable c : gpt_cfg.
Hypothesis Hal : aligned (c_base c) 8.
Implicit Types m : mem.

Lemma l0_desc_aligned pa : aligned (l0_desc c pa) 8.
Proof.
  unfold aligned, l0_desc in *. rewrite Z.mul_comm, Z.mod_add by lia. done.
Qed.

Lemma next_table_aligned e : aligned (next_table e) 8.
Proof.
  unfold aligned, next_table. change 8 with (2 ^ 3).
  rewrite <- Z.land_ones by lia. apply Z.bits_inj'. intros i Hi.
  rewrite !Z.land_spec, testbit_shiftl, Z.testbit_ones, Z.bits_0 by lia.
  destruct (Z.ltb_spec i 3); [|by rewrite !andb_false_r].
  rewrite (Z.testbit_neg_r _ (i - 12)) by lia. by rewrite andb_false_r.
Qed.

Lemma l1_desc_aligned m pa : aligned (l1_desc c m pa) 8.
Proof.
  pose proof (next_table_aligned (load64 m (l0_desc c pa))) as H.
  unfold aligned, l1_desc in *. rewrite Z.mul_comm, Z.mod_add by lia. done.
Qed.

Lemma slot_aligned m pa : aligned (fst (gpt_slot c m pa)) 8.
Proof.
  unfold gpt_slot. destruct (is_table c m pa); [|apply l0_desc_aligned].
  destruct (IS_GPT_ENTRY_CONTIG _); apply l1_desc_aligned.
Qed.

Lemma slot_lsb m pa : 0 <= c_p c ->
  exists k, snd (gpt_slot c m pa) = 4 * k /\ 0 <= k < 16.
Proof.
  intros Hp. pose proof (fld_range (c_p c) 4 pa ltac:(lia)). unfold gpt_slot.
  destruct (is_table c m pa); [|by exists 1].
  destruct (IS_GPT_ENTRY_CONTIG _); [by exists 1|]. by exists (fld (c_p c) 4 pa).
Qed.

(** The slot depends on the kinds and the next-table field only. *)
Lemma slot_ext m m' x :
  is_table c m' x = is_table c m x ->
  (is_table c m x = true ->
     next_table (load64 m' (l0_desc c x)) = next_table (load64 m (l0_desc c x)) /\
     IS_GPT_ENTRY_CONTIG (load64 m' (l1_desc c m x)) =
     IS_GPT_ENTRY_CONTIG (load64 m (l1_desc c m x))) ->
  gpt_slot c m' x = gpt_slot c m x.
Proof.
  intros Ht H. unfold gpt_slot. rewrite Ht. destruct (is_table c m x); [|done].
  destruct (H eq_refl) as [Hn Hc].
  assert (l1_desc c m' x = l1_desc c m x) as -> by (unfold l1_desc; by rewrite Hn).
  by rewrite Hc.
Qed.

Lemma load64_aligned_ne m a b v : aligned a 8 -> aligned b 8 -> a <> b ->
  load64 (store64 m a v) b = load64 m b.
Proof. intros. apply load64_store64_ne, aligned_disjoint; done || lia. Qed.

Lemma fld_split a b x y : 0 <= a <= b -> x / 2 ^ b = y / 2 ^ b ->
  (fld a (b - a) x = fld a (b - a) y <-> x / 2 ^ a = y / 2 ^ a).
Proof.
  intros Hab E. rewrite !fld_div_mod by lia. split; [|by intros ->]. intros H.
  assert (forall z, z / 2 ^ a / 2 ^ (b - a) = z / 2 ^ b) as Hd.
  { intros z. rewrite Z.div_div by lia. rewrite <- Z.pow_add_r by lia. do 2 f_equal. lia. }
  rewrite (Z.div_mod (x / 2 ^ a) (2 ^ (b - a))), (Z.div_mod (y / 2 ^ a) (2 ^ (b - a))) by lia.
  by rewrite !Hd, E, H.
Qed.

(** Inside one level 0 region the slot is shared by the addresses of its scope. *)
Lemma slot_scope m pa x : 30 <= c_l0 c -> 0 <= c_p c <= 16 ->
  x / 2 ^ c_l0 c = pa / 2 ^ c_l0 c ->
  (gpt_slot c m x = gpt_slot c m pa <->
   x / 2 ^ scope_bits c m pa = pa / 2 ^ scope_bits c m pa).
Proof.
  intros Hl Hp Hx.
  assert (l0_desc c x = l0_desc c pa) as Hd
    by (unfold l0_desc, fld; rewrite !Z.shiftr_div_pow2, Hx by lia; done).
  assert (is_table c m x = is_table c m pa) as Ht by (unfold is_table; by rewrite Hd).
  unfold gpt_slot, scope_bits. rewrite Ht, Hd. destruct (is_table c m pa); [|done].
  pose proof (fld_split (c_p c + 4) (c_l0 c) x pa ltac:(lia) Hx) as H1.
  pose proof (fld_split (c_p c) (c_p c + 4) x pa ltac:(lia)) as H2.
  replace (c_p c + 4 - c_p c) with 4 in H2 by lia.
  assert (l1_desc c m x = l1_desc c m pa <-> x / 2 ^ (c_p c + 4) = pa / 2 ^ (c_p c + 4)) as Hl1.
  { unfold l1_desc. rewrite Hd, <- H1. lia. }
  assert (x / 2 ^ c_p c = pa / 2 ^ c_p c -> x / 2 ^ (c_p c + 4) = pa / 2 ^ (c_p c + 4)) as Hup.
  { intros E. rewrite Z.pow_add_r, <- !Z.div_div by lia. by rewrite E. }
  destruct (decide (l1_desc c m x = l1_desc c m pa)) as [E|E].
  - rewrite E. destruct (IS_GPT_ENTRY_CONTIG _); [by rewrite <- Hl1|].
    rewrite <- H2 by (by apply Hl1).
    split; [intros Hs; injection Hs as Hs; lia|by intros ->].
  - split.
    + intros Hs. exfalso. apply E. by repeat destruct (IS_GPT_ENTRY_CONTIG _); injection Hs.
    + intros Hs. exfalso. apply E, Hl1. destruct (IS_GPT_ENTRY_CONTIG _); auto.
Qed.

(** Clearing the reserved bits of a table descriptor is invisible. *)
Lemma clear_step m pa m1 :
  tables_apart c m -> is_table c m pa = true ->
  m1 = store64 m (l0_desc c pa) (clear_res0 (load64 m (l0_desc c pa))) ->
  tables_apart c m1 /\
  forall x, gpt_slot c m1 x = gpt_slot c m x /\ gpt_gpi c m1 x = gpt_gpi c m x.
Proof.
  intros Hap Ht ->. set (d := l0_desc c pa) in *.
  set (m1 := store64 m d _).
  pose proof (clear_res0_ok _ (load64_range m d)) as (H1 & H2 & H3).
  assert (forall x, fld 0 4 (load64 m1 (l0_desc c x)) = fld 0 4 (load64 m (l0_desc c x)) /\
    next_table (load64 m1 (l0_desc c x)) = next_table (load64 m (l0_desc c x))) as H0.
  { intros x. destruct (Z.eq_dec (l0_desc c x) d) as [->|Hne].
    - unfold m1. by rewrite load64_store64.
    - unfold m1. by rewrite load64_aligned_ne
        by (try apply l0_desc_aligned; congruence). }
  assert (forall x, is_table c m1 x = is_table c m x) as Ht1.
  { intros x. unfold is_table, IS_GPT_ENTRY_TABLE. rewrite !nibble.
    by rewrite (proj1 (H0 x)). }
  assert (forall x, l1_desc c m1 x = l1_desc c m x) as Hl1.
  { intros x. unfold l1_desc. by rewrite (proj2 (H0 x)). }
  assert (forall x, is_table c m x = true ->
    load64 m1 (l1_desc c m x) = load64 m (l1_desc c m x)) as Hld.
  { intros x Hx. unfold m1. apply load64_store64_ne.
    specialize (Hap x pa Hx). fold d in Hap. unfold disjoint_rng in *. lia. }
  assert (forall x, gpt_slot c m1 x = gpt_slot c m x) as Hs.
  { intros x. apply slot_ext; [done|]. intros Hx. rewrite Hld by done.
    split; [apply H0|done]. }
  split; [intros x y Hx; rewrite Ht1 in Hx; rewrite Hl1; by apply Hap|].
  intros x. split; [apply Hs|]. unfold gpt_gpi. rewrite Hs. f_equal.
  unfold gpt_slot. destruct (is_table c m x) eqn:Hx.
  - destruct (IS_GPT_ENTRY_CONTIG _); by apply Hld.
  - unfold m1. apply load64_aligned_ne; try apply l0_desc_aligned.
    intros E. unfold is_table in Hx, Ht. cbn [fst] in E. rewrite <- E in Hx.
    fold d in Ht. congruence.
Qed.

(** Writing a valid GPI into a slot changes that slot only. *)
Lemma set_step m pa a lsb gpi :
  tables_apart c m -> is_gpi_valid gpi = true -> 0 <= gpi < 16 -> 0 <= c_p c ->
  gpt_slot c m pa = (a, lsb) ->
  let m' := store64 m a (fld_set lsb 4 (load64 m a) gpi) in
  forall x, gpt_slot c m' x = gpt_slot c m x /\
    gpt_gpi c m' x = if decide (gpt_slot c m x = (a, lsb)) then gpi else gpt_gpi c m x.
Proof.
  intros Hap Hv Hg Hp Hs m' x.
  pose proof (slot_aligned m pa) as Haa. rewrite Hs in Haa. cbn [fst] in Haa.
  destruct (slot_lsb m pa Hp) as (k & Hk & Hkr). rewrite Hs in Hk. cbn [snd] in Hk.
  pose proof (load64_range m a) as Hra.
  pose proof (fld_set_range 64 lsb 4 (load64 m a) gpi ltac:(lia) ltac:(lia) ltac:(lia) Hra).
  assert (forall b, aligned b 8 -> b <> a -> load64 m' b = load64 m b) as Hne.
  { intros b Hb Hn. apply load64_aligned_ne; congruence. }
  assert (load64 m' a = fld_set lsb 4 (load64 m a) gpi) as Heq.
  { unfold m'. by rewrite load64_store64. }
  assert (forall y, is_table c m y = true -> a <> l0_desc c y) as Htab.
  { intros y Hy E. unfold gpt_slot in Hs. destruct (is_table c m pa) eqn:Hpa.
    - specialize (Hap pa y Hpa). unfold disjoint_rng in Hap.
      destruct (IS_GPT_ENTRY_CONTIG _); injection Hs as <- _; lia.
    - injection Hs as <- _. unfold is_table in Hpa, Hy. rewrite E in Hpa. congruence. }
  assert (is_table c m' x = is_table c m x) as Ht'.
  { unfold is_table, IS_GPT_ENTRY_TABLE. rewrite !nibble.
    destruct (Z.eq_dec (l0_desc c x) a) as [E|E];
      [|by rewrite Hne by (done || apply l0_desc_aligned)].
    rewrite E, Heq. apply kind_fld_set; try done; try lia.
    intros H0. unfold gpt_slot in Hs. destruct (is_table c m pa) eqn:Hpa.
    - specialize (Hap pa x Hpa). unfold disjoint_rng in Hap.
      destruct (IS_GPT_ENTRY_CONTIG _); injection Hs as <- _; lia.
    - injection Hs as _ <-. lia. }
  assert (gpt_slot c m' x = gpt_slot c m x) as Hsx.
  { apply slot_ext; [done|]. intros Hx. split.
    - rewrite Hne; [done|apply l0_desc_aligned|]. by apply not_eq_sym, Htab.
    - unfold IS_GPT_ENTRY_CONTIG. rewrite !nibble.
      destruct (Z.eq_dec (l1_desc c m x) a) as [E|E];
        [|by rewrite Hne by (done || apply l1_desc_aligned)].
      rewrite E, Heq. apply kind_fld_set; try done; try lia.
      intros H0. unfold gpt_slot in Hs. destruct (is_table c m pa) eqn:Hpa.
      + unfold IS_GPT_ENTRY_CONTIG in Hs. rewrite !nibble in Hs.
        destruct (Z.eqb_spec (fld 0 4 (load64 m (l1_desc c m pa))) 1) as [Ec|Ec];
          injection Hs as Ea El; [lia|]. by rewrite <- Ea.
      + injection Hs as _ <-. lia. }
  split; [done|]. unfold gpt_gpi. rewrite Hsx.
  destruct (decide (gpt_slot c m x = (a, lsb))) as [E|E].
  { rewrite E. cbn [fst snd]. rewrite Heq. apply fld_fld_set; lia. }
  destruct (slot_lsb m x Hp) as (j & Hj & Hjr).
  destruct (Z.eq_dec (fst (gpt_slot c m x)) a) as [Ea|Ea];
    [|by rewrite Hne by (done || apply slot_aligned)].
  rewrite Ea, Heq. apply fld_fld_set_ne; try lia.
  assert (snd (gpt_slot c m x) <> lsb); [|lia].
  intros Es. apply E. rewrite (surjective_pairing (gpt_slot c m x)). by rewrite Ea, Es.
Qed.

Lemma gpt_update_view m pa gpi :
  tables_apart c m -> is_gpi_valid gpi = true -> 0 <= gpi < 16 -> 0 <= c_p c ->
  forall x, gpt_slot c (gpt_update c m pa gpi) x = gpt_slot c m x /\
    gpt_gpi c (gpt_update c m pa gpi) x =
      if decide (gpt_slot c m x = gpt_slot c m pa) then gpi else gpt_gpi c m x.
Proof.
  intros Hap Hv Hg Hp x. unfold gpt_update. destruct (is_table c m pa) eqn:Ht.
  - destruct (clear_step m pa _ Hap Ht eq_refl) as [Hap1 H1].
    set (m1 := store64 m _ _) in *.
    destruct (gpt_slot c m1 pa) as [a lsb] eqn:Es.
    destruct (set_step m1 pa a lsb gpi Hap1 Hv Hg Hp Es x) as [-> ->].
    rewrite (proj1 (H1 x)), (proj2 (H1 x)), <- (proj1 (H1 pa)), Es. done.
  - destruct (gpt_slot c m pa) as [a lsb] eqn:Es.
    by apply (set_step m pa a lsb gpi).
Qed.
End view.

Lemma c_base_aligned gpccr gptbr c :
  gpt_config gpccr gptbr = Some c -> aligned (c_base c) 8.
Proof.
  intros Hc. destruct (gpt_config_inv _ _ _ Hc) as (_ & _ & _ & Hl & Hp & _ & Hb).
  set (x := Z.max (c_pps c - c_l0 c + 3) 12) in *.
  assert (12 <= x <= 25) as Hx by lia.
  rewrite Hb, (round_down 64 x) by (try apply wrap_range; lia).
  unfold aligned.
  set (y := u64 (gptbr << 12)). pose proof (Z.div_mod y (2 ^ x) ltac:(lia)) as Hd.
  replace (y - y mod 2 ^ x) with ((2 ^ (x - 3) * (y / 2 ^ x)) * 8).
  { apply Z.mod_mul. lia. }
  replace (2 ^ x) with (2 ^ (x - 3) * 8) in *; [lia|].
  change 8 with (2 ^ 3). rewrite <- Z.pow_add_r by lia. f_equal. lia.
Qed.


(** A machine with one level 1 table: every granule of the first gigabyte is in
    it, the rest of the address space has empty descriptors. *)
Definition demo_cfg : gpt_cfg := mk_cfg 0x80000000 30 32 12.
Definition demo_mem : mem := store64 ∅ 0x80000000 0x80010003.
Definition demo_regs : sysregs := mk_sysregs 0 0x80000 0 0 0 0 0 0 0 0 0 0 0.
Definition demo_state : el3 unit :=
  mk_el3 demo_mem tt demo_regs zero_shared [] FREE_MEM_START 0 zero_globals.

Lemma demo_apart : tables_apart demo_cfg demo_mem.
Proof.
  intros x y Hx. unfold l1_desc, is_table, l0_desc in *. cbn [c_base c_l0 c_pps c_p demo_cfg] in *.
  change (32 - 30) with 2 in *. change (30 - (12 + 4)) with 14. change (12 + 4) with 16.
  pose proof (fld_range 30 2 x ltac:(lia)). pose proof (fld_range 30 2 y ltac:(lia)).
  pose proof (fld_range 16 14 x ltac:(lia)).
  assert (fld 30 2 x = 0 \/ fld 30 2 x = 1 \/ fld 30 2 x = 2 \/ fld 30 2 x = 3)
    as [E|[E|[E|E]]] by lia; rewrite E in *; try (vm_compute in Hx; discriminate).
  assert (next_table (load64 demo_mem (0x80000000 + 8 * 0)) = 0x80010000) as ->
    by (vm_compute; reflexivity).
  unfold disjoint_rng. lia.
Qed.


(** A contiguous range of 2MB is thirty-two level 1 entries; the call rewrites
    the one of the address, so the range ends up with two different values. *)
Definition contig_mem : mem :=
  store64 (store64 demo_mem 0x80010000 0x1f1) 0x80010008 0x1f1.
Theorem contig_range_split :
  wp (@add_gpt_entry unit 0x5000 GPT_REALM)
    (fun _ s' => gpt_gpi demo_cfg (e_mem s') 0xf000 = GPT_REALM /\
                 gpt_gpi demo_cfg (e_mem s') 0x10000 = GPT_ANY)
    (set_mem (fun _ => contig_mem) demo_state).
Proof. vm_compute. by split. Qed.

(** A GPCCR_EL3 that selects 64KB granules is decoded as 4KB granules: the
    mask of the PGS field is 0b10, so the encoding 0b01 becomes 0b00. *)
Theorem decode_gpccr_pgs_64k gpccr : fld 14 2 gpccr = 1 ->
  g_pgs (decode_gpccr gpccr) = 0 /\
  nth_error pgs_table 0 = Some 12 /\ nth_error pgs_table 1 = Some 16.
Proof.
  intros H. split; [|done]. cbn [decode_gpccr g_pgs].
  assert (Z.testbit gpccr 15 = false) as Hb.
  { change 15 with (1 + 14). replace (Z.testbit gpccr (1 + 14)) with
      (Z.testbit (fld 14 2 gpccr) 1); [by rewrite H|].
    rewrite testbit_fld by lia. by rewrite andb_true_r. }
  apply Z.bits_inj'. intros i Hi. unfold RME_ACS_GPCCR_PGS_MASK, RME_ACS_GPCCR_PGS_SHIFT.
  rewrite testbit_wrap, testbit_shiftr, Z.land_spec, testbit_shiftl, Z.bits_0 by lia.
  replace (i + 14 - 14) with i by lia.
  destruct (Z.ltb_spec i 2); [|by rewrite !andb_false_r].
  assert (i = 0 \/ i = 1) as [-> | ->] by lia; [by rewrite !andb_false_r|].
  change (1 + 14) with 15. by rewrite Hb.
Qed.

Lemma decode_gpccr_pgs_64k_witness : g_pgs (decode_gpccr 0x4000) = 0.
Proof. exact (proj1 (decode_gpccr_pgs_64k 0x4000 eq_refl)). Defined.

Lemma log2_loop_pow n k bit : (k < n)%nat ->
  log2_loop n (2 ^ Z.of_nat k) bit = bit + Z.of_nat k.
Proof.
  revert n bit. induction k as [|k IH]; intros [|n] bit Hn; try lia; cbn [log2_loop].
  { change (2 ^ Z.of_nat 0) with 1. cbn [Z.eqb]. change (truthy (1 .& 1)) with true. cbv iota. lia. }
  pose proof (Z.pow_pos_nonneg 2 (Z.of_nat (S k)) ltac:(lia) ltac:(lia)).
  replace (2 ^ Z.of_nat (S k) =? 0) with false by zbool.
  assert (2 ^ Z.of_nat (S k) = 2 * 2 ^ Z.of_nat k) as E.
  { rewrite Nat2Z.inj_succ, Z.pow_succ_r by lia. done. }
  assert (2 ^ Z.of_nat (S k) .& 1 = 0) as ->.
  { change 1 with (Z.ones 1). rewrite Z.land_ones, E, Z.mul_comm by lia.
    by rewrite Z.mod_mul by lia. }
  cbn [truthy negb Z.eqb].
  assert (2 ^ Z.of_nat (S k) >> 1 = 2 ^ Z.of_nat k) as ->.
  { rewrite E, Z.shiftr_div_pow2 by lia. change (2 ^ 1) with 2.
    rewrite Z.mul_comm. by apply Z.div_mul. }
  rewrite IH by lia. lia.
Qed.

(** [log2_page_size] inverts the power of two on every 64-bit power. *)
Theorem log2_page_size_pow k : 0 <= k < 64 -> log2_page_size (2 ^ k) = k.
Proof.
  intros Hk. unfold log2_page_size. replace k with (Z.of_nat (Z.to_nat k)) at 1 by lia.
  rewrite log2_loop_pow by lia. lia.
Qed.

Lemma log2_page_size_pow_witness : log2_page_size (2 ^ 12) = 12.
Proof. apply (log2_page_size_pow 12). lia. Defined.

Lemma bit_mask_iter n : (n < 64)%nat ->
  Nat.iter n (fun m => u64 (m * 2)) 1 = 2 ^ Z.of_nat n.
Proof.
  induction n as [|n IH]; intros Hn; [done|]. rewrite Nat.iter_succ, IH by lia.
  rewrite Nat2Z.inj_succ, Z.pow_succ_r by lia. unfold u64. rewrite wrap_small; [lia|].
  pose proof (Z.pow_lt_mono_r 2 (Z.of_nat n) 63 ltac:(lia) ltac:(lia) ltac:(lia)). lia.
Qed.

(** [modify_desc]: a field of the descriptor is replaced by the value and
    every other bit stays. *)
Theorem modify_desc_field {D} desc start value n (s : el3 D) :
  0 <= desc < 2 ^ 64 -> 0 <= start -> 0 <= n < 64 -> start + n <= 64 -> start < 64 ->
  0 <= value < 2 ^ n ->
  modify_desc desc start value n s = Done (fld_set start n desc value) s.
Proof.
  intros Hd Hs Hn Hw Hs64 Hv. unfold modify_desc. 
  rewrite bit_mask_iter, Z2Nat.id by lia.
  pose proof (Z.pow_le_mono_r 2 n 63 ltac:(lia) ltac:(lia)) as Hp.
  pose proof (Z.pow_pos_nonneg 2 n ltac:(lia) ltac:(lia)).
  assert (u64 (2 ^ n - 1) = Z.ones n) as ->.
  { rewrite Z.ones_equiv. apply wrap_small. lia. }
  unfold shl_chk. replace ((0 <=? start) && (start <? 64)) with true by zbool.
  unfold require, bind, ret. f_equal.
  assert (forall i, 0 <= i -> Z.testbit value i = Z.testbit value i && (i <? n)) as HV.
  { intros i Hi. destruct (Z.ltb_spec i n); [by rewrite andb_true_r|].
    by rewrite (testbit_high n) by lia. }
  apply Z.bits_inj'. intros i Hi. rewrite testbit_fld_set by lia.
  unfold bnot. rewrite Z.lor_spec, Z.land_spec, testbit_wrap, Z.lnot_spec by lia.
  rewrite !testbit_wrap, !testbit_shiftl by lia.
  destruct (Z.ltb_spec i 64).
  - rewrite !andb_true_r. destruct (Z.leb_spec start i); cbn [andb].
    + rewrite Z.testbit_ones, (HV (i - start)) by lia.
      replace (0 <=? i - start) with true by lia. cbn [andb].
      destruct (Z.ltb_spec i (start + n)).
      * replace (i - start <? n) with true by lia. by rewrite andb_false_r, andb_true_r.
      * replace (i - start <? n) with false by lia.
        by rewrite andb_true_r, andb_false_r, orb_false_r.
    + rewrite !(Z.testbit_neg_r _ (i - start)) by lia. by rewrite andb_true_r, orb_false_r.
  - rewrite !andb_false_r. cbn [orb]. replace (i <? start + n) with false by lia.
    rewrite andb_false_r. by rewrite (testbit_high 64) by lia.
Qed.

Lemma modify_desc_field_witness :
  @modify_desc unit 0xFFFF 4 0x3 4 demo_state = Done 0xFF3F demo_state.
Proof.
  exact (modify_desc_field 0xFFFF 4 0x3 4 demo_state ltac:(lia) ltac:(lia) ltac:(lia)
    ltac:(lia) ltac:(lia) ltac:(lia)).
Defined.
