(* ===== verification/El3Mmu.v ===== *)
(** * El3Mmu

    What [add_mmu_entry] (val_el3/pgt_common.c, modelled in [El3Pgt]) does to
    the translation tables of EL3: the tables as a layered structure, the leaf
    a virtual address reaches, and the theorem that the call maps the page and
    leaves every other leaf alone. *)

From Stdlib Require Import ZArith Lia Bool List.
From stdpp Require Import base tactics numbers list gmap option.
From S2P Require Import Prelude Memory El3State El3Pgt.

(** ** Tables *)

(** How the code classifies a descriptor above the last level. *)
Definition free_entry (e : Z) : bool :=
  (e =? 0) || IS_PGT_ENTRY_BLOCK e || ((e .& 0xf) =? 0xf).
Definition table_entry (e : Z) : bool := negb (free_entry e) && Z.testbit e 0.
Definition next_tt (e : Z) : Z := e .& u64 (((1 << 36) - 1) << 12).

(** Table pages by the number [r] of levels below them. *)
Definition tables := nat -> Z -> Prop.

Definition slot_addr (r : nat) (t nb va : Z) : Z := t + 8 * fld (12 + 9 * Z.of_nat r) nb va.

(** The address of the last-level descriptor of [va], walking from table [t]. *)
Fixpoint mmu_slot (m : mem) (r : nat) (t nb va : Z) : option Z :=
  match r with
  | O => Some (slot_addr 0 t nb va)
  | S r' =>
      let e := load64 m (slot_addr r t nb va) in
      if table_entry e then mmu_slot m r' (next_tt e) 9 va else None
  end.

(** Well-formed tables: pages in range, in one layer each, whose entries above
    the last level are free or point into the next layer. *)
Record tables_ok (tab : tables) (m : mem) : Prop := {
  tok_page : forall r t, tab r t -> aligned t 4096 /\ 0 <= t < 2 ^ 48;
  tok_layer : forall r r' t, tab r t -> tab r' t -> r = r';
  tok_next : forall r t i, tab (S r) t -> 0 <= i < 512 ->
    free_entry (load64 m (t + 8 * i)) = true \/
    (table_entry (load64 m (t + 8 * i)) = true /\ tab r (next_tt (load64 m (t + 8 * i))))
}.

(** [k] pages from [fp] that are zero and are not tables. *)
Definition pool_free (tab : tables) (m : mem) (fp : Z) (k : nat) : Prop :=
  aligned fp 4096 /\ 0 < fp /\ fp + 4096 * Z.of_nat k <= 2 ^ 48 /\
  forall j, 0 <= j < Z.of_nat k ->
    (forall r, ~ tab r (fp + 4096 * j)) /\
    (forall i, 0 <= i < 512 -> load64 m (fp + 4096 * j + 8 * i) = 0).

Definition page_desc (pa attr : Z) : Z := 3 .| (pa .& bnot 64 4095) .| attr.

(** ** One dword changes *)

Definition upd1 (m m' : mem) (w v : Z) : Prop :=
  load64 m' w = v /\ forall b, aligned b 8 -> b <> w -> load64 m' b = load64 m b.

Lemma upd1_store m w v : aligned w 8 -> 0 <= v < 2 ^ 64 -> upd1 m (store64 m w v) w v.
Proof.
  intros Hw Hv. split; [by apply load64_store64|]. intros b Hb Hne.
  apply load64_store64_ne, aligned_disjoint; done || lia.
Qed.

Lemma upd1_trans m m1 m2 w v v' : upd1 m m1 w v -> upd1 m1 m2 w v' -> upd1 m m2 w v'.
Proof. intros [_ H1] [H2 H3]. split; [done|]. intros b Hb Hne. by rewrite H3, H1. Qed.

Lemma page_dword t i : aligned t 4096 -> aligned (t + 8 * i) 8.
Proof.
  unfold aligned. intros H. pose proof (Z.div_mod t 4096 ltac:(lia)).
  replace (t + 8 * i) with ((512 * (t / 4096) + i) * 8) by lia. by apply Z.mod_mul.
Qed.

(** Dwords of distinct pages are distinct. *)
Lemma page_dword_ne t t' i i' : aligned t 4096 -> aligned t' 4096 -> t <> t' ->
  0 <= i < 512 -> 0 <= i' < 512 -> t + 8 * i <> t' + 8 * i'.
Proof.
  unfold aligned. intros H H' Hne Hi Hi'.
  pose proof (Z.div_mod t 4096 ltac:(lia)). pose proof (Z.div_mod t' 4096 ltac:(lia)). lia.
Qed.

Lemma slot_index r nb va : 0 <= nb <= 9 -> 0 <= fld (12 + 9 * Z.of_nat r) nb va < 512.
Proof.
  intros H. pose proof (fld_range (12 + 9 * Z.of_nat r) nb va ltac:(lia)).
  pose proof (Z.pow_le_mono_r 2 nb 9 ltac:(lia) ltac:(lia)). lia.
Qed.

Section frame.
Variable tab : tables.
Implicit Types m : mem.

(** The leaf found is a dword of a last-level table. *)
Lemma mmu_slot_leaf m r t nb va b : tables_ok tab m -> tab r t -> 0 <= nb <= 9 ->
  mmu_slot m r t nb va = Some b ->
  exists t' i, tab 0%nat t' /\ 0 <= i < 512 /\ b = t' + 8 * i.
Proof.
  intros Hok. revert t nb. induction r as [|r IH]; intros t nb Ht Hnb; cbn [mmu_slot].
  - intros [= <-]. exists t, (fld (12 + 9 * Z.of_nat 0) nb va).
    split; [done|]. split; [by apply slot_index|done].
  - destruct (table_entry _) eqn:E; [|done]. intros H.
    apply (IH _ _) in H; [done| |lia].
    destruct (tok_next _ _ Hok r t _ Ht (slot_index (S r) nb va Hnb)) as [Hf|[_ Hn]];
      [|done].
    unfold slot_addr, table_entry in E. by rewrite Hf in E.
Qed.

(** Leaves of [m] survive in [m'] with their contents, those in [A] aside. *)
Definition leaves_kept (A : Z -> Prop) m m' : Prop :=
  forall r t nb va b, tab r t -> 0 <= nb <= 9 -> mmu_slot m r t nb va = Some b ->
    mmu_slot m' r t nb va = Some b /\ (A b \/ load64 m' b = load64 m b).

(** Writing a free entry keeps every leaf; so does writing a leaf in [A]. *)
Lemma leaves_kept_upd m m' k t0 i v (A : Z -> Prop) :
  tables_ok tab m -> tab k t0 -> 0 <= i < 512 -> upd1 m m' (t0 + 8 * i) v ->
  match k with O => A (t0 + 8 * i) | S _ => free_entry (load64 m (t0 + 8 * i)) = true end ->
  leaves_kept A m m'.
Proof.
  intros Hok H0 Hi [_ Hu] Hk r t nb va b Ht Hnb Hs.
  destruct (tok_page _ _ Hok _ _ H0) as [Ha0 _].
  split.
  - revert t nb Ht Hnb Hs. induction r as [|r IH]; intros t nb Ht Hnb; cbn [mmu_slot];
      [done|].
    destruct (table_entry (load64 m (slot_addr (S r) t nb va))) eqn:E; [|done].
    intros Hs. destruct (tok_page _ _ Hok _ _ Ht) as [Hat _].
    pose proof (slot_index (S r) nb va Hnb) as Hidx.
    assert (load64 m' (slot_addr (S r) t nb va) = load64 m (slot_addr (S r) t nb va)) as ->.
    { unfold slot_addr in *. apply Hu; [by apply page_dword|]. intros Eq.
      destruct (Z.eq_dec t t0) as [->|Hne].
      - pose proof (tok_layer _ _ Hok _ _ _ H0 Ht) as ->. rewrite Eq in E.
        unfold table_entry in E. by rewrite Hk in E.
      - by apply (page_dword_ne t t0 _ _ Hat Ha0 Hne Hidx Hi) in Eq. }
    rewrite E. apply IH; [|lia|done].
    destruct (tok_next _ _ Hok r t _ Ht Hidx) as [Hf|[_ Hn]]; [|done].
    unfold slot_addr, table_entry in E. by rewrite Hf in E.
  - destruct (mmu_slot_leaf _ _ _ _ _ _ Hok Ht Hnb Hs) as (t' & i' & Ht' & Hi' & ->).
    destruct (tok_page _ _ Hok _ _ Ht') as [Hat' _].
    destruct (Z.eq_dec (t' + 8 * i') (t0 + 8 * i)) as [Eq|Hd];
      [|by right; apply Hu; [apply page_dword|]].
    left. destruct (Z.eq_dec t' t0) as [->|Hn].
    + pose proof (tok_layer _ _ Hok _ _ _ H0 Ht') as ->. by rewrite Eq.
    + by apply (page_dword_ne t' t0 _ _ Hat' Ha0 Hn Hi' Hi) in Eq.
Qed.
End frame.

(** Table descriptors of [m] survive in [m']. *)
Definition tables_kept (tab : tables) (m m' : mem) : Prop :=
  forall k t i, tab (S k) t -> 0 <= i < 512 ->
    free_entry (load64 m (t + 8 * i)) = false -> load64 m' (t + 8 * i) = load64 m (t + 8 * i).

Lemma tables_kept_upd tab m m' k t0 i v : tables_ok tab m -> tab k t0 -> 0 <= i < 512 ->
  upd1 m m' (t0 + 8 * i) v ->
  match k with O => True | S _ => free_entry (load64 m (t0 + 8 * i)) = true end ->
  tables_kept tab m m'.
Proof.
  intros Hok H0 Hi [_ Hu] Hk q t j Ht Hj Hf.
  destruct (tok_page _ _ Hok _ _ H0) as [Ha0 _].
  destruct (tok_page _ _ Hok _ _ Ht) as [Hat _].
  apply Hu; [by apply page_dword|]. intros Eq. destruct (Z.eq_dec t t0) as [->|Hn].
  - pose proof (tok_layer _ _ Hok _ _ _ H0 Ht) as ->. rewrite Eq in Hf. congruence.
  - by apply (page_dword_ne t t0 _ _ Hat Ha0 Hn Hj Hi) in Eq.
Qed.

Lemma table_not_free e : table_entry e = true -> free_entry e = false.
Proof. unfold table_entry. by intros [?%negb_true_iff _]%andb_true_iff. Qed.

(** The descriptor written for a fresh page. *)
Lemma fresh_desc fp : aligned fp 4096 -> 0 < fp < 2 ^ 48 ->
  table_entry (3 .| (fp .& bnot 64 4095)) = true /\
  next_tt (3 .| (fp .& bnot 64 4095)) = fp /\ 0 <= 3 .| (fp .& bnot 64 4095) < 2 ^ 64.
Proof.
  intros Ha Hr.
  assert (fp .& bnot 64 4095 = fp) as ->.
  { change 4095 with (2 ^ 12 - 1). rewrite (round_down 64 12) by lia.
    unfold aligned in Ha. change (2 ^ 12) with 4096. lia. }
  assert (forall i, 0 <= i < 12 -> Z.testbit fp i = false) as Hlow.
  { intros i Hi. change 4096 with (2 ^ 12) in Ha.
    apply (land_low_aligned 12) in Ha; [|lia].
    change (2 ^ 12 - 1) with (Z.ones 12) in Ha.
    assert (Z.testbit (Z.land fp (Z.ones 12)) i = false) as H by (rewrite Ha; apply Z.bits_0).
    rewrite Z.land_spec, Z.testbit_ones in H by lia.
    replace (0 <=? i) with true in H by lia. replace (i <? 12) with true in H by lia.
    by rewrite andb_true_r in H. }
  assert (forall i, Z.testbit (3 .| fp) i = Z.testbit 3 i || Z.testbit fp i) as Hb
    by (intros; apply Z.lor_spec).
  assert ((3 .| fp) .& 0xf = 3) as Hn.
  { apply Z.bits_inj'. intros i Hi. change 0xf with (Z.ones 4).
    rewrite Z.land_spec, Hb, Z.testbit_ones by lia.
    destruct (Z.ltb_spec i 4).
    - rewrite Hlow by lia. replace (0 <=? i) with true by lia. by rewrite orb_false_r, andb_true_r.
    - rewrite andb_false_r, andb_false_r. symmetry. apply (testbit_high 2); lia. }
  split; [|split].
  - unfold table_entry, free_entry, IS_PGT_ENTRY_BLOCK. rewrite Hn, Hb, orb_true_l, andb_true_r.
    assert (Z.testbit (3 .| fp) 0 = true) as H0 by (by rewrite Hb).
    assert (Z.testbit (3 .| fp) 1 = true) as H1 by (by rewrite Hb).
    destruct (Z.eqb_spec (3 .| fp) 0) as [E|E]; [by rewrite E in H0|].
    destruct (truthy ((3 .| fp) .& 2)) eqn:E2; [done|].
    unfold truthy in E2. apply negb_false_iff, Z.eqb_eq in E2.
    assert (Z.testbit ((3 .| fp) .& 2) 1 = true) as H by (by rewrite Z.land_spec, H1).
    by rewrite E2 in H.
  - unfold next_tt. apply Z.bits_inj'. intros i Hi.
    rewrite shl1_sub1, Z.land_spec, Hb. unfold u64.
    rewrite testbit_wrap, testbit_shiftl by lia.
    destruct (Z.ltb_spec i 12).
    + rewrite Hlow, (Z.testbit_neg_r _ (i - 12)) by lia. by rewrite andb_false_r.
    + rewrite Z.testbit_ones, (testbit_high 2 3) by lia. cbn [orb].
      destruct (Z.ltb_spec i 48).
      * replace (0 <=? i - 12) with true by lia. replace (i - 12 <? 36) with true by lia.
        replace (i <? 64) with true by lia. by rewrite !andb_true_r.
      * by rewrite (testbit_high 48 fp) by lia.
  - apply lor_range; lia.
Qed.

(** Linking a fresh page into a free entry. *)
Section grow.
Variables (tab : tables) (m m' : mem) (r : nat) (t i fp : Z) (k : nat).
Hypothesis Hok : tables_ok tab m.
Hypothesis Ht : tab (S r) t.
Hypothesis Hi : 0 <= i < 512.
Hypothesis Hpool : pool_free tab m fp (S k).
Hypothesis Hu : upd1 m m' (t + 8 * i) (3 .| (fp .& bnot 64 4095)).

Definition grown : tables := fun q x => tab q x \/ (q = r /\ x = fp).

Lemma fp_range : aligned fp 4096 /\ 0 < fp < 2 ^ 48 /\ forall q, ~ tab q fp.
Proof.
  destruct Hpool as (Ha & H0 & Hmax & Hp). split; [done|]. split; [lia|].
  destruct (Hp 0 ltac:(lia)) as [Hn _]. by rewrite Z.mul_0_r, Z.add_0_r in Hn.
Qed.

Lemma grown_ok : tables_ok grown m'.
Proof.
  destruct fp_range as (Ha & Hr & Hn). destruct (tok_page _ _ Hok _ _ Ht) as [Hat _].
  destruct (fresh_desc fp Ha Hr) as (Hte & Hnt & _). destruct Hu as [Hw Hne].
  split.
  - intros q x [Hx|[-> ->]]; [by apply (tok_page _ _ Hok q)|]. split; [done|lia].
  - intros q q' x [Hx|[-> ->]] [Hx'|[E' E]]; subst; try done.
    + by apply (tok_layer _ _ Hok _ _ x).
    + by apply Hn in Hx.
    + by apply Hn in Hx'.
  - intros q x j [Hx|[E ->]] Hj.
    + destruct (Z.eq_dec (x + 8 * j) (t + 8 * i)) as [Eq|Hd].
      * destruct (Z.eq_dec x t) as [->|Hx'].
        2:{ destruct (tok_page _ _ Hok _ _ Hx) as [Hax _].
            by apply (page_dword_ne x t _ _ Hax Hat Hx' Hj Hi) in Eq. }
        pose proof (tok_layer _ _ Hok _ _ _ Hx Ht) as [= ->].
        right. rewrite Eq, Hw. split; [done|]. right. by rewrite Hnt.
      * destruct (tok_page _ _ Hok _ _ Hx) as [Hax _].
        rewrite Hne by (done || by apply page_dword).
        destruct (tok_next _ _ Hok _ _ _ Hx Hj) as [?|[? ?]]; [by left|].
        right. split; [done|by left].
    + left. rewrite Hne.
      * destruct Hpool as (_ & _ & _ & Hp). destruct (Hp 0 ltac:(lia)) as [_ Hz].
        specialize (Hz j Hj). rewrite Z.mul_0_r, Z.add_0_r in Hz. by rewrite Hz.
      * by apply page_dword.
      * apply page_dword_ne; try done. intros ->. by apply (Hn (S r)).
Qed.

Lemma grown_pool : pool_free grown m' (fp + 4096) k.
Proof.
  destruct fp_range as (Ha & Hr & Hn). destruct (tok_page _ _ Hok _ _ Ht) as [Hat _].
  destruct Hpool as (_ & H0 & Hmax & Hp). destruct Hu as [_ Hne].
  split; [|split; [lia|split; [lia|]]].
  { unfold aligned in *. rewrite Z.add_mod, Ha by lia. done. }
  intros j Hj. destruct (Hp (j + 1) ltac:(lia)) as [Hnt Hz].
  replace (fp + 4096 + 4096 * j) with (fp + 4096 * (j + 1)) by lia. split.
  - intros q [Hx|[_ E]]; [by apply (Hnt q)|lia].
  - intros i' Hi'. rewrite Hne; [by apply Hz| |].
    + apply page_dword. unfold aligned in *.
      by rewrite Z.add_mod, Ha, (Z.mul_comm 4096), Z.mod_mul by lia.
    + apply page_dword_ne; try done.
      * unfold aligned in *. by rewrite Z.add_mod, Ha, (Z.mul_comm 4096), Z.mod_mul by lia.
      * intros E. apply (Hnt (S r)). by rewrite E.
Qed.
End grow.

(** ** The tables a walk lacks *)

(** The number of tables between [t] and the last level that [va] needs and
    that do not exist yet. *)
Fixpoint missing (m : mem) (r : nat) (t nb va : Z) : nat :=
  match r with
  | O => O
  | S r' =>
      let e := load64 m (slot_addr r t nb va) in
      if table_entry e then missing m r' (next_tt e) 9 va else r
  end.

Lemma missing_le m r t nb va : (missing m r t nb va <= r)%nat.
Proof.
  revert t nb. induction r as [|r IH]; intros t nb; cbn [missing]; [done|].
  destruct (table_entry _); [|done]. etransitivity; [apply IH|lia].
Qed.

(** Addresses of one 2MB block share the tables of their walks. *)
Definition block (va : Z) : Z := va / 2 ^ 21.

Lemma slot_block r t nb p q : block p = block q -> slot_addr (S r) t nb p = slot_addr (S r) t nb q.
Proof.
  unfold block, slot_addr, fld. intros E. do 3 f_equal. rewrite !Z.shiftr_div_pow2 by lia.
  replace (12 + 9 * Z.of_nat (S r)) with (21 + 9 * Z.of_nat r) by lia.
  rewrite Z.pow_add_r, <- !Z.div_div by lia. by rewrite E.
Qed.
Lemma missing_block m r t nb p q : block p = block q -> missing m r t nb p = missing m r t nb q.
Proof.
  intros E. revert t nb. induction r as [|r IH]; intros t nb; cbn [missing]; [done|].
  rewrite (slot_block r t nb p q E). destruct (table_entry _); [apply IH|done].
Qed.

(** Distinct pages of a block have distinct leaves. *)
Lemma mmu_slot_inj m r t nb p q b : (1 <= r)%nat -> block p = block q ->
  aligned p 4096 -> aligned q 4096 ->
  mmu_slot m r t nb p = Some b -> mmu_slot m r t nb q = Some b -> p = q.
Proof.
  intros Hr E Hp Hq. revert t nb. induction r as [|r IH]; intros t nb; [lia|]. cbn [mmu_slot].
  rewrite (slot_block r t nb p q E). destruct (table_entry _); [|done].
  destruct r as [|r]; [|by apply IH; lia]. cbn [mmu_slot]. intros [= Hb] [= Hb'].
  unfold slot_addr in Hb, Hb'. rewrite <- Hb in Hb'.
  assert (fld 12 9 p = fld 12 9 q) as F by (change (12 + 9 * Z.of_nat 0) with 12 in Hb'; lia).
  rewrite !fld_div_mod in F by lia. unfold block, aligned in *.
  change (2 ^ 12) with 4096 in F. change (2 ^ 9) with 512 in F.
  assert (forall x, x / 2 ^ 21 = x / 4096 / 512) as D by (intros; by rewrite Z.div_div by lia).
  rewrite !D in E. pose proof (Z.div_mod p 4096 ltac:(lia)). pose proof (Z.div_mod q 4096 ltac:(lia)).
  pose proof (Z.div_mod (p / 4096) 512 ltac:(lia)). pose proof (Z.div_mod (q / 4096) 512 ltac:(lia)).
  lia.
Qed.

(** The walk of [va] from one table reaches another. *)
Inductive reaches (m : mem) (va : Z) : nat -> Z -> Z -> nat -> Z -> Z -> Prop :=
| reaches_refl r t nb : reaches m va r t nb r t nb
| reaches_step r t nb r' t' nb' :
    table_entry (load64 m (slot_addr (S r) t nb va)) = true ->
    reaches m va r (next_tt (load64 m (slot_addr (S r) t nb va))) 9 r' t' nb' ->
    reaches m va (S r) t nb r' t' nb'.

Section reaches.
Context (m : mem) (va : Z).

Lemma reaches_snoc R root nb0 r t nb : reaches m va R root nb0 (S r) t nb ->
  table_entry (load64 m (slot_addr (S r) t nb va)) = true ->
  reaches m va R root nb0 r (next_tt (load64 m (slot_addr (S r) t nb va))) 9.
Proof.
  intros H. remember (S r) as r1 eqn:E.
  induction H as [q x y|q x y q' x' y' Ht _ IH]; intros Hte; subst.
  - apply reaches_step; [done|apply reaches_refl].
  - apply reaches_step; [done|]. by apply IH.
Qed.
Lemma reaches_missing R root nb0 r t nb : reaches m va R root nb0 r t nb ->
  missing m R root nb0 va = missing m r t nb va.
Proof. induction 1 as [|q x y q' x' y' Ht _ IH]; [done|]. cbn [missing]. by rewrite Ht. Qed.
Lemma reaches_slot R root nb0 r t nb : reaches m va R root nb0 r t nb ->
  mmu_slot m R root nb0 va = mmu_slot m r t nb va.
Proof. induction 1 as [|q x y q' x' y' Ht _ IH]; [done|]. cbn [mmu_slot]. by rewrite Ht. Qed.
Lemma reaches_nb R root nb0 r t nb : reaches m va R root nb0 r t nb ->
  0 <= nb0 <= 9 -> 0 <= nb <= 9.
Proof. induction 1 as [|q x y q' x' y' Ht _ IH]; [done|]. intros _. apply IH. lia. Qed.

Lemma next_tab tab r t nb : tables_ok tab m -> tab (S r) t -> 0 <= nb <= 9 ->
  table_entry (load64 m (slot_addr (S r) t nb va)) = true ->
  tab r (next_tt (load64 m (slot_addr (S r) t nb va))).
Proof.
  intros Hok Ht Hnb Hte.
  destruct (tok_next _ _ Hok r t _ Ht (slot_index (S r) nb va Hnb)) as [Hf|[_ Hn]]; [|done].
  apply table_not_free in Hte. unfold slot_addr in Hte. congruence.
Qed.
Lemma reaches_tab tab R root nb0 r t nb : tables_ok tab m -> tab R root -> 0 <= nb0 <= 9 ->
  reaches m va R root nb0 r t nb -> tab r t.
Proof.
  intros Hok H0 Hnb H. revert H0 Hnb. induction H as [|q x y q' x' y' Ht _ IH]; [done|].
  intros H0 Hnb. apply IH; [|lia]. by apply next_tab.
Qed.
End reaches.

(** Existing tables stay on the path. *)
Lemma kept_entry tab m m' r t nb va : tables_kept tab m m' -> tab (S r) t -> 0 <= nb <= 9 ->
  table_entry (load64 m (slot_addr (S r) t nb va)) = true ->
  load64 m' (slot_addr (S r) t nb va) = load64 m (slot_addr (S r) t nb va).
Proof.
  intros Hk Ht Hnb Hte. apply (Hk r); [done|by apply slot_index|]. by apply table_not_free.
Qed.
Lemma reaches_kept tab m m' va R root nb0 r t nb : tables_ok tab m -> tables_kept tab m m' ->
  tab R root -> 0 <= nb0 <= 9 -> reaches m va R root nb0 r t nb -> reaches m' va R root nb0 r t nb.
Proof.
  intros Hok Hk H0 Hnb H. revert H0 Hnb. induction H as [|q x y q' x' y' Ht _ IH]; intros H0 Hnb.
  - apply reaches_refl.
  - pose proof (kept_entry tab m m' q x y va Hk H0 Hnb Ht) as E.
    apply reaches_step; rewrite E; [done|]. apply IH; [|lia]. by apply next_tab.
Qed.
Lemma missing_kept tab m m' r t nb va : tables_ok tab m -> tables_kept tab m m' -> tab r t ->
  0 <= nb <= 9 -> (missing m' r t nb va <= missing m r t nb va)%nat.
Proof.
  intros Hok Hk. revert t nb. induction r as [|r IH]; intros t nb Ht Hnb; [done|].
  pose proof (missing_le m' (S r) t nb va) as Hle. cbn [missing] in *.
  destruct (table_entry (load64 m _)) eqn:E; [|done].
  rewrite (kept_entry tab m m' r t nb va Hk Ht Hnb E), E. apply IH; [|lia].
  by apply next_tab.
Qed.

(** ** What a run may change *)

(** The bytes of the tables. *)
Definition in_tables (tab : tables) (b : Z) : Prop := exists r t, tab r t /\ t <= b < t + 4096.
(** What it leaves alone. *)
Definition quiet_run {D} (s s' : el3 D) : Prop :=
  e_sys s' = e_sys s /\ e_shared s' = e_shared s /\ e_dev s' = e_dev s.

(** The tables [tab'] are [tab] and [c] pages taken from the pool, of which [k]
    pages are left; of the leaves there were, those in [A] may have changed; no
    byte outside the tables did. *)
Record grows {D} (A : Z -> Prop) (tab tab' : tables) (c k : nat) (s s' : el3 D) : Prop := {
  gr_ok : tables_ok tab' (e_mem s');
  gr_sub : forall q x, tab q x -> tab' q x;
  gr_new : forall q x, tab' q x -> tab q x \/ e_free_pa s <= x < e_free_pa s';
  gr_free : e_free_pa s' = e_free_pa s + 4096 * Z.of_nat c;
  gr_pool : pool_free tab' (e_mem s') (e_free_pa s') k;
  gr_leaves : leaves_kept tab A (e_mem s) (e_mem s');
  gr_tables : tables_kept tab (e_mem s) (e_mem s');
  gr_only : only_at (in_tables tab') (e_mem s) (e_mem s');
  gr_quiet : quiet_run s s'
}.

Lemma grows_mono {D} (A A' : Z -> Prop) tab tab' c k (s s' : el3 D) : (forall b, A b -> A' b) ->
  grows A tab tab' c k s s' -> grows A' tab tab' c k s s'.
Proof.
  intros HA []. constructor; try done. intros r t nb va b Ht Hnb Hs.
  destruct (gr_leaves0 r t nb va b Ht Hnb Hs) as [H1 H2]. split; [done|]. destruct H2; auto.
Qed.

Lemma grows_trans {D} A tab tab1 tab2 c1 c2 k1 k (s s1 s2 : el3 D) :
  grows A tab tab1 c1 k1 s s1 -> grows A tab1 tab2 c2 k s1 s2 ->
  grows A tab tab2 (c1 + c2) k s s2.
Proof.
  intros [A1 A2 A3 A4 _ A6 A7 A8 (A9 & A10 & A11)] [B1 B2 B3 B4 B5 B6 B7 B8 (B9 & B10 & B11)].
  constructor; try done; [by auto| |lia| | | |].
  - intros q x [H|H]%B3; [apply A3 in H as [?|?]|]; [by left|right; lia..].
  - intros r t nb va b Ht Hnb Hs. destruct (A6 _ _ _ _ _ Ht Hnb Hs) as [Hs1 Hl1].
    destruct (B6 _ _ _ _ _ (A2 _ _ Ht) Hnb Hs1) as [Hs2 Hl2]. split; [done|].
    destruct Hl2 as [?|Hl2]; [by left|]. destruct Hl1 as [?|Hl1]; [by left|]. right. congruence.
  - intros q t i Ht Hi Hf. rewrite <- (A7 _ _ _ Ht Hi Hf).
    apply (B7 q); [by apply A2|done|]. by rewrite (A7 _ _ _ Ht Hi Hf).
  - transitivity (e_mem s1); [|done]. eapply only_at_mono; [|exact A8].
    intros b (q & t & Ht & Hb). exists q, t. split; [by apply B2|done].
  - unfold quiet_run. by rewrite B9, B10, B11.
Qed.

Lemma grows_refl {D} A tab k (s : el3 D) : tables_ok tab (e_mem s) ->
  pool_free tab (e_mem s) (e_free_pa s) k -> grows A tab tab 0 k s s.
Proof.
  intros Hok Hp. constructor; try done.
  - intros q x Hx. by left.
  - lia.
  - intros r t nb va b Ht Hnb Hs. split; [done|by right].
Qed.

(** *** Around the pool *)
Section pool.
Context {D : Type} {HW : Hw D}.
(** The root table, its layer and index bits, and the 2MB block of the pool. *)
Variables (R : nat) (root nb0 P : Z).
Hypothesis HR : (1 <= R <= 3)%nat.
Hypothesis Hnb0 : 0 <= nb0 <= 9.
Implicit Types (s : el3 D) (tab : tables) (A X : Z -> Prop).

Abbreviation leaf m va := (mmu_slot m R root nb0 va).
Abbreviation lacks m va := (missing m R root nb0 va).

Definition page_in (lo hi p : Z) : Prop := aligned p 4096 /\ lo <= p < hi.
(** The leaf of a page taken from the pool. *)
Definition pool_leaf m (lo hi b : Z) : Prop := exists p, page_in lo hi p /\ leaf m p = Some b.
(** A page of the pool was mapped when it became a table, or it is mapped to
    itself now, unless its leaf is one in [X]. *)
Definition page_fate X (d : D) m (p : Z) : Prop :=
  (exists m0, hw_at_s1e3w d m0 p .& 1 <> 1) \/
  exists b, leaf m p = Some b /\ (X b \/ load64 m b = page_desc p NONSECURE_PAS).
Definition pool_in_block fp (k : nat) : Prop :=
  forall p, fp <= p < fp + 4096 * Z.of_nat k -> block p = P.
Definition cleans A (e : ev) : Prop := exists b, e = EvCleanInv b /\ A b.

Definition touched X s s' (b : Z) : Prop :=
  X b \/ pool_leaf (e_mem s') (e_free_pa s) (e_free_pa s') b.
(** A run that changes the leaves in [X] and those of the pages it takes. *)
Record run X tab tab' (c k : nat) s s' : Prop := {
  run_grows : grows (touched X s s') tab tab' c k s s';
  run_fate : forall p, page_in (e_free_pa s) (e_free_pa s') p ->
    page_fate X (e_dev s') (e_mem s') p;
  run_trace : exists l, e_trace s' = l ++ e_trace s /\ Forall (cleans (touched X s s')) l
}.

Lemma pool_in_block_sub fp k c k' : pool_in_block fp k -> (c + k' <= k)%nat ->
  pool_in_block (fp + 4096 * Z.of_nat c) k'.
Proof. intros H Hle p Hp. apply H. clear - Hle Hp. lia. Qed.

Lemma pool_leaf_kept A tab m m' lo hi lo' hi' b : tab R root -> leaves_kept tab A m m' ->
  lo' <= lo -> hi <= hi' -> pool_leaf m lo hi b -> pool_leaf m' lo' hi' b.
Proof.
  intros HT Hk H1 H2 (p & [Hp Hr] & Hs). exists p. split; [split; [done|lia]|].
  by apply (Hk R root nb0 p b HT Hnb0 Hs).
Qed.

Lemma run_mono X X' tab tab' c k s s' : (forall b, X b -> X' b) ->
  run X tab tab' c k s s' -> run X' tab tab' c k s s'.
Proof.
  intros HX [H1 H2 (l & H3 & H4)].
  assert (forall b, touched X s s' b -> touched X' s s' b) as HT
    by (intros b [?|?]; [left; auto|by right]).
  constructor.
  - by eapply grows_mono.
  - intros p Hp. destruct (H2 p Hp) as [?|(b & Hb & Hc)]; [by left|]. right. exists b.
    split; [done|]. destruct Hc; [left; auto|by right].
  - exists l. split; [done|]. revert H4. apply List.Forall_impl.
    intros e (b & -> & Hb). exists b. auto.
Qed.

(** The pages taken earlier keep their fate. *)
Lemma fate_kept X tab A m m' d p lo hi : tab R root -> leaves_kept tab A m m' ->
  (forall b, A b -> X b \/ pool_leaf m' lo hi b) -> aligned p 4096 -> p < lo -> block p = P ->
  (forall q, page_in lo hi q -> block q = P) ->
  page_fate X d m p -> page_fate X d m' p.
Proof.
  intros HT Hk HA Hp Hlt Hpb Hblk [?|(b & Hs & Hb)]; [by left|]. right. exists b.
  destruct (Hk R root nb0 p b HT Hnb0 Hs) as [Hs' Hl]. split; [done|].
  destruct Hb as [Hb|Hb]; [by left|].
  destruct Hl as [Hl|E]; [|right; by rewrite E].
  destruct (HA b Hl) as [?|(q & Hq & Hsq)]; [by left|].
  exfalso. pose proof (mmu_slot_inj m' R root nb0 p q b ltac:(lia)) as Hi.
  rewrite Hi in Hlt; try done; [by destruct Hq; lia|by rewrite Hpb, Hblk|apply Hq].
Qed.

Lemma pool_leaf_widen m lo hi lo' b : lo' <= lo -> pool_leaf m lo hi b -> pool_leaf m lo' hi b.
Proof. intros H (p & [Hp Hr] & Hs). exists p. split; [split; [done|lia]|done]. Qed.

Lemma run_trans X tab tab1 tab2 c1 c2 k1 k s s1 s2 : tab R root ->
  pool_in_block (e_free_pa s) (c1 + c2) ->
  run X tab tab1 c1 k1 s s1 -> run X tab1 tab2 c2 k s1 s2 -> run X tab tab2 (c1 + c2) k s s2.
Proof.
  intros HT Hblk [A1 A2 (l1 & A3 & A4)] [B1 B2 (l2 & B3 & B4)].
  pose proof (gr_sub _ _ _ _ _ _ _ A1 _ _ HT) as HT1.
  pose proof (gr_free _ _ _ _ _ _ _ A1) as F1. pose proof (gr_free _ _ _ _ _ _ _ B1) as F2.
  assert (forall b, touched X s s1 b -> touched X s s2 b) as H1.
  { intros b [?|Hb]; [by left|]. right.
    eapply (pool_leaf_kept _ tab1); [exact HT1|apply B1| | |exact Hb]; lia. }
  assert (forall b, touched X s1 s2 b -> touched X s s2 b) as H2.
  { intros b [?|Hb]; [by left|]. right. eapply pool_leaf_widen; [|exact Hb]. lia. }
  assert (forall b, touched X s1 s2 b ->
    X b \/ pool_leaf (e_mem s2) (e_free_pa s1) (e_free_pa s2) b) as H2' by done.
  constructor.
  - eapply grows_trans; [eapply grows_mono; [exact H1|exact A1]|eapply grows_mono; [exact H2|exact B1]].
  - intros p [Hp Hr]. destruct (Z.lt_ge_cases p (e_free_pa s1)); [|apply B2; split; [done|lia]].
    eapply (fate_kept X tab1); [exact HT1|apply B1|exact H2'|exact Hp|done|apply Hblk; lia| |].
    + intros q [_ Hq]. apply Hblk. lia.
    + rewrite (proj2 (proj2 (gr_quiet _ _ _ _ _ _ _ B1))). apply A2. split; [done|lia].
  - exists (l2 ++ l1). rewrite B3, A3, app_assoc. split; [done|]. apply Forall_app. split.
    + revert B4. apply List.Forall_impl. intros e (b & -> & Hb). exists b. auto.
    + revert A4. apply List.Forall_impl. intros e (b & -> & Hb). exists b. auto.
Qed.

(** The cache maintenance at the end of a call. *)
Lemma run_clean X tab tab' c k s s' a : X a -> run X tab tab' c k s s' ->
  run X tab tab' c k s (add_ev (EvCleanInv a) s').
Proof.
  intros Ha [[] H2 (l & H3 & H4)]. constructor; [by constructor|done|].
  exists (EvCleanInv a :: l). cbn. rewrite H3. split; [done|]. constructor; [|exact H4].
  exists a. split; [done|by left].
Qed.

(** A page is linked: it is mapped already, or a call maps it to itself. *)
Definition none (b : Z) : Prop := False.
Section link.
Variables (tab tab1 : tables) (k1 : nat) (s s1 : el3 D).
Hypothesis Hlink : grows none tab tab1 1 k1 s s1.
Hypothesis Htr : e_trace s1 = e_trace s.
Hypothesis Hfp : aligned (e_free_pa s) 4096.

Lemma first_page hi p : hi = e_free_pa s + 4096 -> page_in (e_free_pa s) hi p -> p = e_free_pa s.
Proof.
  intros -> [Hp Hr]. unfold aligned in *. pose proof (Z.div_mod p 4096 ltac:(lia)).
  pose proof (Z.div_mod (e_free_pa s) 4096 ltac:(lia)). lia.
Qed.

Lemma run_linked : hw_at_s1e3w (e_dev s1) (e_mem s1) (e_free_pa s) .& 1 <> 1 ->
  run none tab tab1 1 k1 s s1.
Proof.
  intros Hat. constructor.
  - eapply grows_mono; [|exact Hlink]. by left.
  - intros p Hp. left. exists (e_mem s1).
    rewrite (first_page (e_free_pa s1) p) by (done || rewrite (gr_free _ _ _ _ _ _ _ Hlink); lia).
    done.
  - by exists [].
Qed.

Lemma run_self_mapped tab2 c k a s2 : tab R root -> pool_in_block (e_free_pa s) (S c) ->
  run (eq a) tab1 tab2 c k s1 s2 ->
  leaf (e_mem s2) (e_free_pa s) = Some a ->
  load64 (e_mem s2) a = page_desc (e_free_pa s) NONSECURE_PAS ->
  run none tab tab2 (S c) k s s2.
Proof.
  intros HT Hblk [B1 B2 (l & B3 & B4)] Hs Hl.
  pose proof (gr_free _ _ _ _ _ _ _ Hlink) as F1. pose proof (gr_free _ _ _ _ _ _ _ B1) as F2.
  assert (forall b, touched (eq a) s1 s2 b -> touched none s s2 b) as HM.
  { intros b [<-|Hb]; right; [|by eapply pool_leaf_widen; [|exact Hb]; lia].
    exists (e_free_pa s). split; [split; [done|lia]|done]. }
  constructor.
  - apply (grows_trans _ tab tab1 tab2 1 c k1 k s s1 s2).
    + by apply (grows_mono none).
    + by apply (grows_mono (touched (eq a) s1 s2)).
  - intros p Hp. destruct (Z.lt_ge_cases p (e_free_pa s1)).
    + assert (p = e_free_pa s) as ->.
      { apply (first_page (e_free_pa s1)); [lia|]. split; [apply Hp|destruct Hp; lia]. }
      right. exists a. split; [done|by right].
    + destruct (B2 p) as [?|(b & Hb & [<-|Hd])]; [split; [apply Hp|destruct Hp; lia]|by left| |].
      * exfalso. assert (p = e_free_pa s); [|lia].
        apply (mmu_slot_inj (e_mem s2) R root nb0 p _ a); try done; [lia| |apply Hp].
        rewrite !Hblk; [done|lia|destruct Hp; lia].
      * right. exists b. split; [done|by right].
  - exists l. rewrite B3, Htr. split; [done|]. revert B4. apply List.Forall_impl.
    intros e (b & -> & Hb). exists b. auto.
Qed.
End link.

(** *** The turns of the walk *)
Lemma missing_zero m r t nb va : 0 <= nb <= 9 ->
  (forall i, 0 <= i < 512 -> load64 m (t + 8 * i) = 0) -> missing m r t nb va = r.
Proof.
  intros Hnb Hz. destruct r as [|r]; [done|]. cbn [missing]. unfold slot_addr.
  rewrite Hz by (by apply slot_index). done.
Qed.

(** The pool behind a store to a table. *)
Lemma pool_upd tab m m' w v r t i fp k : tables_ok tab m -> tab r t -> 0 <= i < 512 ->
  w = t + 8 * i -> upd1 m m' w v -> pool_free tab m fp k -> pool_free tab m' fp k.
Proof.
  intros Hok Ht Hi -> U (Ha & H0 & Hmax & Hp). split; [done|]. split; [done|]. split; [done|].
  intros j Hj. destruct (Hp j Hj) as [Hn Hz]. split; [done|]. intros i' Hi'.
  assert (aligned (fp + 4096 * j) 4096) as Hpa.
  { unfold aligned in *. by rewrite Z.add_mod, Ha, (Z.mul_comm 4096), Z.mod_mul by lia. }
  rewrite (proj2 U); [by apply Hz|by apply page_dword|].
  apply page_dword_ne; try done; [by eapply tok_page|]. intros E. apply (Hn r). by rewrite E.
Qed.

(** The tables behind a store to a last-level entry. *)
Lemma tables_ok_leaf tab m m' w v t i : tables_ok tab m -> tab 0%nat t -> 0 <= i < 512 ->
  w = t + 8 * i -> upd1 m m' w v -> tables_ok tab m'.
Proof.
  intros Hok Ht Hi -> U. split; [apply Hok|apply Hok|]. intros q x j Hx Hj.
  destruct (tok_page _ _ Hok _ _ Hx) as [Hxa _]. destruct (tok_page _ _ Hok _ _ Ht) as [Hta _].
  rewrite (proj2 U); [by apply Hok|by apply page_dword|].
  apply page_dword_ne; try done. intros ->. by pose proof (tok_layer _ _ Hok _ _ _ Hx Ht).
Qed.

Section walk.
Variables (rec : Z -> Z -> Z -> E D unit) (va pa attr n : Z).
Hypothesis Hn : 1 <= n <= 4.
Hypothesis Hattr : 0 <= attr < 2 ^ 64.
Hypothesis Hpa : 0 <= pa < 2 ^ 64.

Abbreviation step := (mmu_step rec va pa attr 4096 12 9 n).
Definition at_layer (r : nat) (t nb : Z) : mmu_walk :=
  (t, n - 1 - Z.of_nat r, 12 + 9 * Z.of_nat r, nb).

Lemma walk_shr r s : (r <= 3)%nat ->
  shr_chk 64 va (12 + 9 * Z.of_nat r) s = Done (va >> (12 + 9 * Z.of_nat r)) s.
Proof.
  intros Hr. unfold shr_chk.
  by replace ((0 <=? 12 + 9 * Z.of_nat r) && (12 + 9 * Z.of_nat r <? 64)) with true by zbool.
Qed.

Lemma walk_shl nb s : 0 <= nb <= 9 -> shl_chk 64 1 nb s = Done (2 ^ nb) s.
Proof.
  intros Hnb. unfold shl_chk.
  replace ((0 <=? nb) && (nb <? 64)) with true by zbool.
  unfold require, bind, ret. rewrite Z.shiftl_1_l.
  pose proof (Z.pow_le_mono_r 2 nb 9 ltac:(lia) ltac:(lia)).
  pose proof (Z.pow_pos_nonneg 2 nb ltac:(lia) ltac:(lia)).
  by rewrite wrap_small by lia.
Qed.

Lemma walk_index r t nb : 0 <= nb <= 9 ->
  t + 8 * u32 ((va >> (12 + 9 * Z.of_nat r)) .& u64 (2 ^ nb - 1)) = slot_addr r t nb va.
Proof.
  intros Hnb. unfold slot_addr. f_equal. f_equal.
  pose proof (Z.pow_le_mono_r 2 nb 9 ltac:(lia) ltac:(lia)).
  pose proof (Z.pow_pos_nonneg 2 nb ltac:(lia) ltac:(lia)).
  unfold u64. rewrite wrap_small by lia.
  replace (2 ^ nb - 1) with (Z.ones nb) by (rewrite Z.ones_equiv; lia).
  fold (fld (12 + 9 * Z.of_nat r) nb va).
  pose proof (slot_index r nb va Hnb). apply wrap_small. lia.
Qed.

(** The last level writes the page descriptor. *)
Lemma step_leaf tab k t nb s : tables_ok tab (e_mem s) -> tab R root ->
  reaches (e_mem s) va R root nb0 0 t nb -> pool_free tab (e_mem s) (e_free_pa s) k ->
  wp (step (at_layer 0 t nb)) (fun r s' => exists a, r = inr a /\
    leaf (e_mem s') va = Some a /\ load64 (e_mem s') a = page_desc pa attr /\
    run (eq a) tab tab 0 k s s') s.
Proof.
  intros Hok HT Hre Hpool.
  pose proof (reaches_nb _ _ _ _ _ _ _ _ Hre Hnb0) as Hnb.
  pose proof (reaches_tab _ _ tab _ _ _ _ _ _ Hok HT Hnb0 Hre) as Ht.
  destruct (tok_page _ _ Hok _ _ Ht) as [Hta Htr].
  pose proof (slot_index 0 nb va Hnb) as Hidx.
  set (w := slot_addr 0 t nb va).
  assert (aligned w 8) as Hw by (by apply page_dword).
  set (o := pa .& bnot 64 4095).
  assert (0 <= o < 2 ^ 64) as Ho.
  { apply land_range; [lia| |done]. unfold bnot. apply wrap_range. lia. }
  unfold at_layer, mmu_step.
  replace (n - 1 - Z.of_nat 0 =? u32 (n - 1)) with true
    by (unfold u32; rewrite wrap_small by lia; zbool).
  unfold wp. rewrite (bind_done _ _ s _ s (walk_shr 0 s ltac:(lia))).
  rewrite (bind_done _ _ s _ s (walk_shl nb s Hnb)). cbn zeta.
  rewrite (walk_index 0 t nb Hnb). fold w.
  change (PGT_ENTRY_PAGE_MASK .| PGT_ENTRY_VALID_MASK) with 3.
  change (4096 - 1) with 4095. fold o.
  el3_run.
  pose proof (upd1_store (e_mem s) w 3 Hw ltac:(lia)) as U1.
  set (m1 := store64 (e_mem s) w 3) in *. rewrite (proj1 U1).
  pose proof (lor_range 64 3 o ltac:(lia) ltac:(lia) Ho) as R2.
  pose proof (upd1_store m1 w (3 .| o) Hw R2) as U2.
  set (m2 := store64 m1 w (3 .| o)) in *. rewrite (proj1 U2).
  pose proof (lor_range 64 (3 .| o) attr ltac:(lia) R2 Hattr) as R3.
  pose proof (upd1_store m2 w (3 .| o .| attr) Hw R3) as U3.
  set (m3 := store64 m2 w (3 .| o .| attr)) in *.
  pose proof (upd1_trans _ _ _ _ _ _ (upd1_trans _ _ _ _ _ _ U1 U2) U3) as U.
  assert (tables_kept tab (e_mem s) m3) as Htk
    by (by apply (tables_kept_upd tab _ _ 0 t (fld (12 + 9 * Z.of_nat 0) nb va) (3 .| o .| attr))).
  exists w. split; [done|]. cbn [e_mem set_mem]. fold m1. fold m2. fold m3. split; [|split; [exact (proj1 U)|]].
  { by rewrite (reaches_slot _ _ _ _ _ _ _ _ (reaches_kept _ _ _ _ _ _ _ _ _ _ Hok Htk HT Hnb0 Hre)). }
  constructor; [constructor| |by exists []]; cbn [e_mem e_free_pa set_mem];
    fold m1; fold m2; fold m3; try done.
  - by apply (tables_ok_leaf tab (e_mem s) m3 w (3 .| o .| attr) t (fld (12 + 9 * Z.of_nat 0) nb va)).
  - intros q x Hx. by left.
  - lia.
  - by apply (pool_upd tab (e_mem s) m3 w (3 .| o .| attr) 0 t (fld (12 + 9 * Z.of_nat 0) nb va)).
  - apply (leaves_kept_upd tab _ _ 0 t (fld (12 + 9 * Z.of_nat 0) nb va) (3 .| o .| attr)); try done.
    by left.
  - assert (forall b, w <= b < w + 8 -> in_tables tab b) as Hin.
    { intros b Hb. exists 0%nat, t. split; [done|]. unfold w, slot_addr in Hb. lia. }
    transitivity m2; [transitivity m1|]; by apply only_at_store.
  - intros p [_ Hr]. lia.
Qed.

(** The start of a turn above the last level. *)
Lemma step_upper r t nb Q s : 0 <= nb <= 9 -> Z.of_nat (S r) < n ->
  let w := slot_addr (S r) t nb va in
  (if free_entry (load64 (e_mem s) w) then
     wp (let! fp := gets e_free_pa in
         modify (set_free_pa (u64 (fp + SIZE_4KB))) ;;
         wr 8 w 3 ;; let! v := rd 8 w in wr 8 w (v .| (fp .& bnot 64 4095)) ;;
         let! par := at_s1e3w fp in
         (when (par .& 0x1) =? 0x1 then rec fp fp NONSECURE_PAS) ;;
         ret (inl (at_layer r fp 9))) Q s
   else Q (inl (at_layer r (next_tt (load64 (e_mem s) w)) 9)) s) ->
  wp (step (at_layer (S r) t nb)) Q s.
Proof.
  intros Hnb Hr w H. unfold at_layer, mmu_step.
  replace (n - 1 - Z.of_nat (S r) =? u32 (n - 1)) with false
    by (unfold u32; rewrite wrap_small by lia; zbool).
  unfold wp at 1. rewrite (bind_done _ _ s _ s (walk_shr (S r) s ltac:(lia))).
  rewrite (bind_done _ _ s _ s (walk_shl nb s Hnb)). cbn zeta.
  rewrite (walk_index (S r) t nb Hnb). fold w.
  assert (u32 (12 + 9 * Z.of_nat (S r) - 9) = 12 + 9 * Z.of_nat r) as ->
    by (unfold u32; rewrite wrap_small by lia; lia).
  assert (n - 1 - Z.of_nat (S r) + 1 = n - 1 - Z.of_nat r) as -> by lia.
  unfold rd at 1. rewrite (bind_done (gets _) _ s (load64 (e_mem s) w) s) by done.
  change ((load64 (e_mem s) w =? 0) || IS_PGT_ENTRY_BLOCK (load64 (e_mem s) w) ||
          (load64 (e_mem s) w .& 15 =? 15)) with (free_entry (load64 (e_mem s) w)).
  destruct (free_entry (load64 (e_mem s) w)) eqn:Hf; [exact H|].
  assert (IS_PGT_ENTRY_BLOCK (load64 (e_mem s) w) = false) as ->.
  { unfold free_entry in Hf. by apply orb_false_iff in Hf as [[_ ?]%orb_false_iff _]. }
  exact H.
Qed.

(** A free entry gets a page of the pool. *)
Lemma step_link tab r k t nb Q s : Z.of_nat (S r) < n ->
  tables_ok tab (e_mem s) -> tab R root -> reaches (e_mem s) va R root nb0 (S r) t nb ->
  pool_free tab (e_mem s) (e_free_pa s) (S k) ->
  free_entry (load64 (e_mem s) (slot_addr (S r) t nb va)) = true ->
  (forall s1 tab1, let fp := e_free_pa s in
     grows none tab tab1 1 k s s1 -> e_trace s1 = e_trace s -> 
     reaches (e_mem s1) va R root nb0 r fp 9 -> missing (e_mem s1) r fp 9 va = r ->
     wp ((when (hw_at_s1e3w (e_dev s1) (e_mem s1) fp .& 0x1) =? 0x1
            then rec fp fp NONSECURE_PAS) ;; ret (inl (at_layer r fp 9))) Q s1) ->
  wp (step (at_layer (S r) t nb)) Q s.
Proof.
  intros Hr Hok HT Hre Hpool Hf HQ.
  pose proof (reaches_nb _ _ _ _ _ _ _ _ Hre Hnb0) as Hnb.
  pose proof (reaches_tab _ _ tab _ _ _ _ _ _ Hok HT Hnb0 Hre) as Ht.
  destruct (tok_page _ _ Hok _ _ Ht) as [Hta Htr].
  pose proof (slot_index (S r) nb va Hnb) as Hidx.
  apply step_upper; [done|done|]. cbv zeta. rewrite Hf.
  set (w := slot_addr (S r) t nb va) in *. set (fp := e_free_pa s) in *.
  assert (aligned w 8) as Hw by (by apply page_dword).
  destruct (fp_range tab (e_mem s) fp k Hpool) as (Hfa & Hfr & Hfn).
  destruct (fresh_desc fp Hfa Hfr) as (Dte & Dnt & Dr).
  set (v := 3 .| (fp .& bnot 64 4095)) in *.
  apply wp_bind, wp_gets. fold fp. apply wp_bind, wp_modify, wp_bind, wp_wr, wp_bind, wp_rd.
  apply wp_bind, wp_wr, wp_bind. unfold at_s1e3w. apply wp_gets.
  cbn [e_mem set_mem set_free_pa].
  pose proof (upd1_store (e_mem s) w 3 Hw ltac:(lia)) as U1.
  set (m1 := store64 (e_mem s) w 3) in *. rewrite (proj1 U1). fold v.
  pose proof (upd1_store m1 w v Hw Dr) as U2.
  set (m2 := store64 m1 w v) in *.
  pose proof (upd1_trans _ _ _ _ _ _ U1 U2) as U.
  assert (u64 (fp + SIZE_4KB) = fp + 4096) as ->.
  { destruct Hpool as (_ & _ & Hmax & _). apply wrap_small. unfold SIZE_4KB. lia. }
  set (s1 := set_mem _ _). assert (e_mem s1 = m2) as Em by done.
  assert (e_free_pa s1 = fp + 4096) as Ef by done.
  assert (tables_kept tab (e_mem s) m2) as Htk
    by (by apply (tables_kept_upd tab _ _ (S r) t (fld (12 + 9 * Z.of_nat (S r)) nb va) v)).
  change (hw_at_s1e3w (e_dev s) m2 fp) with (hw_at_s1e3w (e_dev s1) m2 fp). rewrite <- Em.
  apply (HQ s1 (grown tab r fp)); [|done| |]; rewrite ?Em.
  - constructor; rewrite ?Em, ?Ef; fold fp; try done.
    + by apply (grown_ok tab (e_mem s) m2 r t (fld (12 + 9 * Z.of_nat (S r)) nb va) fp k).
    + intros q x Hx. by left.
    + intros q x [Hx|[_ ->]]; [by left|right; lia].
    + by apply (grown_pool tab (e_mem s) m2 r t (fld (12 + 9 * Z.of_nat (S r)) nb va) fp k).
    + by apply (leaves_kept_upd tab _ _ (S r) t (fld (12 + 9 * Z.of_nat (S r)) nb va) v).
    + assert (forall b, w <= b < w + 8 -> in_tables (grown tab r fp) b) as Hin.
      { intros b Hb. exists (S r), t. split; [by left|]. unfold w, slot_addr in Hb. lia. }
      transitivity m1; by apply only_at_store.
  - pose proof (reaches_kept _ _ _ _ _ _ _ _ _ _ Hok Htk HT Hnb0 Hre) as H'.
    apply reaches_snoc in H'; fold w in H' |- *; rewrite (proj1 U) in *; by rewrite ?Dnt in *.
  - apply missing_zero; [lia|]. intros i Hi.
    destruct Hpool as (_ & _ & _ & Hp). destruct (Hp 0 ltac:(lia)) as [Hnt Hz].
    rewrite Z.mul_0_r, Z.add_0_r in Hnt, Hz. rewrite (proj2 U); [by apply Hz|by apply page_dword|].
    apply page_dword_ne; try done. intros E. apply (Hnt (S r)). by rewrite E.
Qed.

(** *** The whole walk *)
Definition walk_post tab (B K : nat) va pa attr s (a : Z) s' : Prop :=
  exists c k tab', K = (c + k)%nat /\ (c <= B)%nat /\
    leaf (e_mem s') va = Some a /\ load64 (e_mem s') a = page_desc pa attr /\
    run (eq a) tab tab' c k s s'.
Definition call_post tab (B K : nat) va pa attr s s' : Prop :=
  exists a s0, walk_post tab B K va pa attr s a s0 /\ s' = add_ev (EvCleanInv a) s0.
(** The tables and the pool a call starts from. *)
Definition ready tab (K : nat) s : Prop :=
  tables_ok tab (e_mem s) /\ tab R root /\ pool_free tab (e_mem s) (e_free_pa s) K /\
  pool_in_block (e_free_pa s) K.
Definition pool_lacks m : nat := lacks m (P * 2 ^ 21).

(** [rec] maps a page of the pool to itself when fewer than [N] tables lack. *)
Variable sy : sysregs.
Definition self_maps (N : nat) : Prop := forall tab p K s,
  e_sys s = sy -> ready tab K s -> aligned p 4096 -> 0 < p < 2 ^ 48 -> block p = P ->
  (pool_lacks (e_mem s) < N)%nat -> (pool_lacks (e_mem s) <= K)%nat ->
  wp (rec p p NONSECURE_PAS)
    (fun _ s' => call_post tab (pool_lacks (e_mem s)) K p p NONSECURE_PAS s s') s.
(** The pages the walk of [va] may take, and the fuel below. *)
Definition enough (N B : nat) m : Prop :=
  (block va = P /\ (lacks m va <= N)%nat /\ (lacks m va <= B)%nat) \/
  ((pool_lacks m < N)%nat /\ (lacks m va + pool_lacks m <= B)%nat).

Lemma pool_lacks_block m p : block p = P -> lacks m p = pool_lacks m.
Proof. intros E. apply missing_block. rewrite E. unfold block. by rewrite Z.div_mul. Qed.
Lemma slot_missing m r t nb p b : mmu_slot m r t nb p = Some b -> missing m r t nb p = 0%nat.
Proof.
  revert t nb. induction r as [|r IH]; intros t nb; cbn [mmu_slot missing]; [done|].
  destruct (table_entry _); [apply IH|done].
Qed.

Lemma ready_run X tab tab' c k s s' : ready tab (c + k) s -> run X tab tab' c k s s' ->
  ready tab' k s'.
Proof.
  intros (_ & HT & _ & Hb) [G _ _]. destruct G. unfold ready. rewrite gr_free0 in *.
  split; [done|]. split; [by apply gr_sub0|]. split; [done|]. by eapply pool_in_block_sub.
Qed.

Lemma then_walk tab tab1 c1 k1 B1 B s s1 a s' : ready tab (c1 + k1) s ->
  run none tab tab1 c1 k1 s s1 -> walk_post tab1 B1 k1 va pa attr s1 a s' ->
  (c1 + B1 <= B)%nat -> walk_post tab B (c1 + k1) va pa attr s a s'.
Proof.
  intros (_ & HT & _ & Hb) H1 (c & k & tab' & -> & Hc & Hs & Hl & H2) HB.
  exists (c1 + c)%nat, k, tab'. split; [lia|]. split; [lia|]. split; [done|]. split; [done|].
  apply (run_trans _ _ tab1 _ _ _ (c + k) _ _ s1); [done| |by apply (run_mono none)|done].
  intros p Hp. apply Hb. lia.
Qed.

(** Counting: linking one page, and a call that completes the pool's path. *)
Lemma enough_link N B r m m1 : lacks m va = S r -> lacks m1 va = r ->
  (pool_lacks m1 <= pool_lacks m)%nat -> enough N B m ->
  (1 <= B)%nat /\ enough N (B - 1) m1 /\ (pool_lacks m1 < N)%nat /\ (pool_lacks m1 <= B - 1)%nat.
Proof.
  intros E E1 Hp [(Hb & H1 & H2)|[H1 H2]].
  - pose proof (pool_lacks_block m1 va Hb). split; [lia|]. split; [left; lia|lia].
  - split; [lia|]. split; [right; lia|lia].
Qed.
Lemma enough_full N B m1 m2 c : enough N B m1 -> pool_lacks m2 = 0%nat ->
  (lacks m2 va <= lacks m1 va)%nat -> (c <= pool_lacks m1)%nat -> (pool_lacks m1 < N)%nat ->
  (c <= B)%nat /\ enough N (B - c) m2.
Proof.
  intros [(Hb & H1 & H2)|[H1 H2]] H0 Hle Hc HN.
  - pose proof (pool_lacks_block m1 va Hb). pose proof (pool_lacks_block m2 va Hb).
    split; [lia|]. left. lia.
  - split; [lia|]. right. lia.
Qed.

Lemma walk_maps N r : self_maps N -> forall tab t nb fuel s B K, e_sys s = sy ->
  ready tab K s -> reaches (e_mem s) va R root nb0 r t nb -> Z.of_nat r < n -> (r < fuel)%nat ->
  (B <= K)%nat -> enough N B (e_mem s) ->
  wp (loop fuel step (at_layer r t nb)) (walk_post tab B K va pa attr s) s.
Proof.
  intros Hself. induction r as [|r IH]; intros tab t nb fuel s B K Hsy Hrd Hre Hr Hfuel HBK He;
    (destruct fuel as [|fuel]; [lia|]); cbn [loop]; apply wp_bind;
    pose proof Hrd as (Hok & HT & Hp & Hblk).
  { eapply wp_mono; [|by apply (step_leaf tab K t nb)].
    intros res s' (a & -> & H1 & H2 & H3). apply wp_ret. exists 0%nat, K, tab. auto with lia. }
  pose proof (reaches_nb _ _ _ _ _ _ _ _ Hre Hnb0) as Hnb.
  pose proof (reaches_tab _ _ tab _ _ _ _ _ _ Hok HT Hnb0 Hre) as Ht.
  pose proof (tok_next _ _ Hok r t _ Ht (slot_index (S r) nb va Hnb)) as Hcase.
  fold (slot_addr (S r) t nb va) in Hcase. destruct Hcase as [Hf|[Hte _]].
  2:{ apply step_upper; [done|done|]. cbv zeta. rewrite (table_not_free _ Hte).
      apply IH; try done; [by apply reaches_snoc|lia|lia]. }
  assert (lacks (e_mem s) va = S r) as E.
  { rewrite (reaches_missing _ _ _ _ _ _ _ _ Hre). cbn [missing]. unfold table_entry. by rewrite Hf. }
  assert (1 <= B)%nat as HB by (destruct He as [?|?]; lia).
  destruct K as [|K]; [lia|]. apply (step_link tab r K t nb); try done.
  intros s1 tab1 fp G Htr Hre1 Hm1.
  assert (lacks (e_mem s1) va = r) as E1 by (by rewrite (reaches_missing _ _ _ _ _ _ _ _ Hre1)).
  pose proof (missing_kept tab _ _ R root nb0 (P * 2 ^ 21) Hok (gr_tables _ _ _ _ _ _ _ G) HT Hnb0)
    as Hle.
  destruct (enough_link N B r _ _ E E1 Hle He) as (_ & He1 & HN & HB1).
  assert (aligned fp 4096 /\ 0 < fp < 2 ^ 48) as [Hfa Hfr].
  { destruct Hp as (? & ? & ? & _). unfold fp. split; [done|lia]. }
  assert (e_sys s1 = sy) as Hsy1 by (by rewrite (proj1 (gr_quiet _ _ _ _ _ _ _ G))).
  destruct (Z.eqb_spec (hw_at_s1e3w (e_dev s1) (e_mem s1) fp .& 1) 1) as [Eat|Eat].
  - apply wp_bind. assert (ready tab1 K s1) as Hrd1.
    { destruct G. unfold ready. rewrite gr_free0 in *. split; [done|]. split; [by apply gr_sub0|].
      split; [done|]. by eapply pool_in_block_sub. }
    eapply wp_mono; [|apply (Hself tab1 fp K s1); try done; [apply Hblk; lia|lia]].
    intros [] s2 (a1 & s0 & (c & k & tab2 & -> & Hc & Hs & Hl & Hrun) & E2).
    apply run_clean with (a := a1) in Hrun; [|done]. rewrite <- E2 in Hrun.
    assert (e_mem s2 = e_mem s0) as Em by (by rewrite E2). rewrite <- Em in Hs, Hl.
    pose proof (run_grows _ _ _ _ _ _ _ Hrun) as G2.
    assert (run none tab tab2 (S c) k s s2) as Hseg.
    { eapply (run_self_mapped tab tab1 (c + k) s s1 G Htr Hfa); try done.
      intros p Hpp. apply Hblk. lia. }
    assert (ready tab2 k s2) as Hrd2 by (by eapply ready_run; [exact Hrd1|]).
    destruct (enough_full N (B - 1) (e_mem s1) (e_mem s2) c He1) as [HcB He2]; [| |done|done|].
    { rewrite <- (pool_lacks_block _ fp) by (apply Hblk; lia). by eapply slot_missing. }
    { destruct Hrd1 as (Hok1 & HT1 & _). by apply (missing_kept tab1); [|apply G2| |]. }
    apply wp_ret. eapply wp_mono; [|apply (IH tab2 fp 9 fuel s2 (B - 1 - c)%nat k)]; try done; try lia.
    + intros a s' Hw. by apply (then_walk tab tab2 (S c) k (B - 1 - c)%nat B s s2); [| | |lia].
    + by rewrite (proj1 (gr_quiet _ _ _ _ _ _ _ G2)).
    + destruct Hrd1 as (Hok1 & HT1 & _). by apply (reaches_kept tab1 (e_mem s1)); [|apply G2| | |].
  - pose proof (run_linked tab tab1 K s s1 G Htr Hfa Eat) as Hseg.
    apply wp_bind, wp_ret, wp_ret.
    eapply wp_mono; [|apply (IH tab1 fp 9 fuel s1 (B - 1)%nat K)]; try done; try lia.
    + intros a s' Hw. by apply (then_walk tab tab1 1 K (B - 1) B s s1); [| | |lia].
    + by eapply (ready_run none tab tab1 1).
Qed.
End walk.
End pool.

(** The layer of the root table and the index bits it uses, for an input
    address size. *)
Definition top_layer (ias : Z) : nat := Z.to_nat ((ias - 13) / 9).
Definition top_bits (ias : Z) : Z := ias - 12 - 9 * Z.of_nat (top_layer ias).
Definition root_table {D} (s : el3 D) : Z := ttbr_el3 (e_sys s) .& AARCH64_TTBR_ADDR_MASK.
Definition input_size {D} (s : el3 D) : Z := 64 - fld 0 6 (tcr_el3 (e_sys s)).

Lemma geometry_run {D} (s : el3 D) tcr :
  tcr_ps tcr < 8 -> 0 <= tcr_ps tcr -> tcr_tg tcr = 0 -> 16 <= tcr_tsz tcr <= 39 ->
  mmu_geometry tcr s =
  Done (4096, 12, 9, Z.of_nat (top_layer (64 - tcr_tsz tcr)) + 1, 64 - tcr_tsz tcr) s.
Proof.
  intros Hps Hps0 Htg Htsz. unfold mmu_geometry. cbn zeta.
  assert (exists o, nth_error oas_bit_arr (Z.to_nat (tcr_ps tcr)) = Some o) as [o Ho].
  { destruct (nth_error oas_bit_arr (Z.to_nat (tcr_ps tcr))) as [o|] eqn:E; [by exists o|].
    apply nth_error_None in E. cbn in E. lia. }
  rewrite (bind_done _ _ s _ s (nth_chk_some _ _ _ _ Hps0 Ho)). rewrite Htg.
  rewrite (bind_done _ _ s SIZE_4KB s eq_refl).
  change (log2_page_size SIZE_4KB) with 12. change (u32 (12 - 3)) with 9.
  unfold ret. f_equal. change SIZE_4KB with 4096. f_equal. f_equal.
  set (ias := 64 - tcr_tsz tcr).
  unfold u32. rewrite wrap_small by lia.
  replace (ias - 12 + 9 - 1) with (ias - 13 + 1 * 9) by lia. rewrite Z.div_add by lia.
  unfold top_layer.
  assert (0 <= (ias - 13) / 9 <= 3).
  { split; [apply Z.div_pos; lia|]. apply Z.lt_succ_r, Z.div_lt_upper_bound; lia. }
  rewrite Z2Nat.id by lia. by replace (4 <? (ias - 13) / 9 + 1) with false by zbool.
Qed.

(** The call is its walk from the root table and the cache maintenance. *)
Lemma call_run {D} {HW : Hw D} va pa attr fuel (s : el3 D) (Q : Z -> el3 D -> Prop) :
  fld 14 2 (tcr_el3 (e_sys s)) = 0 -> 25 <= input_size s <= 48 ->
  let r := top_layer (input_size s) in
  wp (loop 5 (mmu_step (add_mmu_entry fuel) va pa attr 4096 12 9 (Z.of_nat r + 1))
        (at_layer (Z.of_nat r + 1) r (root_table s) (top_bits (input_size s)))) Q s ->
  wp (add_mmu_entry (S fuel) va pa attr)
    (fun _ s' => exists a s0, Q a s0 /\ s' = add_ev (EvCleanInv a) s0) s.
Proof.
  intros Htg Hias r Hw. subst r. cbn [add_mmu_entry].
  unfold input_size in *. set (tcr := tcr_el3 (e_sys s)) in *.
  pose proof (fld_range 16 3 tcr ltac:(lia)) as Hps.
  pose proof (fld_range 0 6 tcr ltac:(lia)) as Htsz.
  apply wp_bind. unfold val_get_tcr_info. apply wp_bind, wp_gets, wp_ret. fold tcr.
  apply wp_bind, wp_gets.
  match goal with |- wp (bind (mmu_geometry ?t) _) _ _ => set (t0 := t) end.
  assert (tcr_ps t0 = fld 16 3 tcr) as E1.
  { apply (eq_trans (f_equal (wrap 3) (fld_mask 16 3 tcr ltac:(lia) ltac:(lia)))).
    apply wrap_small. lia. }
  assert (tcr_tg t0 = 0) as E2.
  { rewrite <- Htg.
    apply (eq_trans (f_equal (wrap 2) (fld_mask 14 2 tcr ltac:(lia) ltac:(lia)))).
    rewrite Htg. done. }
  assert (tcr_tsz t0 = fld 0 6 tcr) as E3.
  { apply (eq_trans (f_equal (wrap 6) (fld_mask 0 6 tcr ltac:(lia) ltac:(lia)))).
    apply wrap_small. lia. }
  unfold wp. rewrite (bind_done _ _ s _ s (geometry_run s t0 ltac:(lia) ltac:(lia) E2 ltac:(lia))).
  rewrite E3. cbv beta iota. set (ias := 64 - fld 0 6 tcr) in *.
  fold (root_table s).
  assert (Z.of_nat (top_layer ias) = (ias - 13) / 9) as Et.
  { unfold top_layer. rewrite Z2Nat.id; [done|]. apply Z.div_pos; lia. }
  pose proof (Z.div_mod (ias - 13) 9 ltac:(lia)) as Hdm.
  pose proof (Z.mod_pos_bound (ias - 13) 9 ltac:(lia)) as Hmb.
  set (r := top_layer ias) in *.
  assert (u32 (u32 (Z.of_nat r + 1 - 1) * 9 + 12) = 12 + 9 * Z.of_nat r) as ->.
  { unfold u32. rewrite !wrap_small; lia || (rewrite wrap_small; lia). }
  assert (u32 (ias - (12 + 9 * Z.of_nat r)) = top_bits ias) as ->.
  { unfold top_bits. fold r. unfold u32. rewrite wrap_small; lia. }
  unfold at_layer in Hw.
  replace (Z.of_nat r + 1 - 1 - Z.of_nat r) with 0 in Hw by lia.
  apply wp_done in Hw as (a & s' & Hrun & Hpost).
  rewrite (bind_done _ _ _ _ _ Hrun). by exists a, s'.
Qed.

Lemma top_range ias : 25 <= ias <= 48 ->
  (1 <= top_layer ias <= 3)%nat /\ 0 <= top_bits ias <= 9.
Proof.
  intros H. unfold top_bits, top_layer. pose proof (Z.div_mod (ias - 13) 9 ltac:(lia)).
  pose proof (Z.mod_pos_bound (ias - 13) 9 ltac:(lia)).
  rewrite Z2Nat.id by (apply Z.div_pos; lia). lia.
Qed.

(** The walk from the root table of a state. *)
Definition missing_tables {D} (s : el3 D) (va : Z) : nat :=
  missing (e_mem s) (top_layer (input_size s)) (root_table s) (top_bits (input_size s)) va.

Section call.
Context {D : Type} {HW : Hw D}.
Variable sy : sysregs.
Abbreviation ias := (64 - fld 0 6 (tcr_el3 sy)).
Abbreviation R := (top_layer ias).
Abbreviation root := (ttbr_el3 sy .& AARCH64_TTBR_ADDR_MASK).
Hypothesis Htg : fld 14 2 (tcr_el3 sy) = 0.
Hypothesis Hias : 25 <= ias <= 48.

Lemma call_maps P fuel : self_maps R root (top_bits ias) P (add_mmu_entry fuel) sy fuel ->
  forall tab va pa attr B K (s : el3 D), e_sys s = sy -> 0 <= pa < 2 ^ 64 -> 0 <= attr < 2 ^ 64 ->
  ready R root P tab K s -> (B <= K)%nat -> enough R root (top_bits ias) P va fuel B (e_mem s) ->
  wp (add_mmu_entry (S fuel) va pa attr)
    (fun _ s' => call_post R root (top_bits ias) tab B K va pa attr s s') s.
Proof.
  intros Hself tab va pa attr B K s Hsy Hpa Hattr Hrd HBK He.
  destruct (top_range ias Hias) as [HR Hnb].
  pose proof (call_run va pa attr fuel s (walk_post R root (top_bits ias) tab B K va pa attr s)) as Hc.
  cbv zeta in Hc. unfold input_size, root_table in Hc. rewrite Hsy in Hc. apply Hc; [done|done|].
  apply (walk_maps R root _ P HR Hnb _ va pa attr (Z.of_nat R + 1) ltac:(lia) Hattr Hpa
           sy fuel); try done; [apply reaches_refl|lia|lia].
Qed.

(** The call a walk makes for a page of the pool. *)
Lemma call_self_maps P fuel : self_maps R root (top_bits ias) P (add_mmu_entry fuel) sy fuel.
Proof.
  induction fuel as [|fuel IH]; intros tab p K s Hsy Hrd Hp Hpr Hb HN HK; [lia|].
  apply (call_maps P); try done; [lia|].
  left. rewrite (pool_lacks_block _ _ _ P) by done. split; [done|lia].
Qed.
Lemma call_enough P fuel tab va pa attr B K (s : el3 D) : e_sys s = sy ->
  0 <= pa < 2 ^ 64 -> 0 <= attr < 2 ^ 64 ->
  ready R root P tab K s -> (B <= K)%nat -> enough R root (top_bits ias) P va fuel B (e_mem s) ->
  wp (add_mmu_entry (S fuel) va pa attr)
    (fun _ s' => call_post R root (top_bits ias) tab B K va pa attr s s') s.
Proof. apply (call_maps P fuel), call_self_maps. Qed.
End call.


(** An EL3 with an empty root table and a 39-bit input size, on a hardware where
    every AT S1E3W fails. *)
Definition mmu_demo : el3 unit :=
  mk_el3 ∅ tt (mk_sysregs 0 0 25 0x10000 0 0 0 0 0 0 0 0 0) zero_shared [] FREE_MEM_START 0
    zero_globals.
Definition demo_tab : tables := fun r t => r = 2%nat /\ t = 0x10000.

Lemma load64_empty a : load64 ∅ a = 0.
Proof. 
  assert (forall n b, load n ∅ b = 0) as H; [|apply (H 8%nat)].
  induction n as [|n IH]; intros b; [done|]. Transparent load. cbn [load]. rewrite IH.
  Opaque load. unfold ld_byte. by rewrite lookup_empty.
Qed.

Lemma demo_tab_ok : tables_ok demo_tab ∅.
Proof.
  split.
  - intros r t [-> ->]. split; [done|lia].
  - by intros r r' t [-> _] [-> _].
  - intros r t i [[= ->] ->] Hi. left. by rewrite load64_empty.
Qed.

Lemma demo_pool : pool_free demo_tab ∅ FREE_MEM_START 4.
Proof.
  split; [done|]. split; [done|]. split; [done|]. intros j Hj. split.
  - intros r [-> E]. unfold FREE_MEM_START in E. lia.
  - intros i Hi. apply load64_empty.
Qed.

Lemma demo_block : pool_in_block (block FREE_MEM_START) FREE_MEM_START 4.
Proof.
  intros p Hp. unfold block. change (FREE_MEM_START / 2 ^ 21) with 0x4400.
  symmetry. apply (Z.div_unique _ _ _ (p - 0x880000000)); unfold FREE_MEM_START in Hp; [left|]; lia.
Qed.

