(* ===== verification/SmmuRealm.v ===== *)
(** * SmmuRealm

    The Realm SMMUv3 driver of val_el3/smmuv3_realm.c: command and event queues,
    stream table, context descriptors, probe, reset, map and unmap. The driver's
    structures live in the typed stores of [El3State]; tables the SMMU reads are
    bytes of memory; registers are device accesses. *)

From Stdlib Require Import ZArith Lia Bool List.
From stdpp Require Import base tactics numbers list gmap option.
From S2P Require Import Prelude Memory El3State PoolAlloc.

(** ** val_el3/smmuv3_el3.h *)

(** [BITFIELD_SET]/[BITFIELD_GET] of a field declared with [msb], [lsb]. *)
Definition bf_mask (msb lsb : Z) : Z := (1 << (msb - lsb + 1)) - 1.
Definition bf_set (msb lsb v : Z) : Z := (v .& bf_mask msb lsb) << lsb.
Definition bf_get (msb lsb v : Z) : Z := (v >> lsb) .& bf_mask msb lsb.

Definition CMDQ_OP_PREFETCH_CFG : Z := 0x1.
Definition CMDQ_OP_CFGI_STE : Z := 0x3.
Definition CMDQ_OP_CFGI_ALL : Z := 0x4.
Definition CMDQ_OP_TLBI_EL2_ALL : Z := 0x20.
Definition CMDQ_OP_TLBI_NSNH_ALL : Z := 0x30.
Definition CMDQ_OP_CMD_SYNC : Z := 0x46.
Definition BYTES_PER_DWORD : Z := 8.
Definition QUEUE_DWORDS_PER_ENT : Z := 2.
Definition SMMU_CMDQ_POLL_TIMEOUT : Z := 0x100000.

Definition SMMU_IDR0_OFFSET : Z := 0x0.
Definition SMMU_IDR1_OFFSET : Z := 0x4.
Definition SMMU_IDR5_OFFSET : Z := 0x14.
Definition SMMU_AIDR_OFFSET : Z := 0x1C.
Definition SMMU_CR0_OFFSET : Z := 0x20.
Definition SMMU_CR0ACK_OFFSET : Z := 0x24.
Definition SMMU_R_PAGE_0_OFFSET : Z := 0x40000.
Definition SMMU_R_PAGE_1_OFFSET : Z := 0x50000.
Definition SMMU_R_CR0 : Z := SMMU_R_PAGE_0_OFFSET + 0x20.
Definition SMMU_R_CR0ACK : Z := SMMU_R_PAGE_0_OFFSET + 0x24.
Definition SMMU_R_CR1 : Z := SMMU_R_PAGE_0_OFFSET + 0x28.
Definition SMMU_R_CR2 : Z := SMMU_R_PAGE_0_OFFSET + 0x2C.
Definition SMMU_R_GERROR : Z := SMMU_R_PAGE_0_OFFSET + 0x60.
Definition SMMU_R_STRTAB_BASE : Z := SMMU_R_PAGE_0_OFFSET + 0x80.
Definition SMMU_R_STRTAB_BASE_CFG : Z := SMMU_R_PAGE_0_OFFSET + 0x88.
Definition SMMU_R_CMDQ_BASE : Z := SMMU_R_PAGE_0_OFFSET + 0x90.
Definition SMMU_R_CMDQ_PROD : Z := SMMU_R_PAGE_0_OFFSET + 0x98.
Definition SMMU_R_CMDQ_CONS : Z := SMMU_R_PAGE_0_OFFSET + 0x9C.
Definition SMMU_R_EVTQ_BASE : Z := SMMU_R_PAGE_0_OFFSET + 0xA0.
Definition SMMU_R_EVTQ_PROD : Z := SMMU_R_PAGE_1_OFFSET + 0xA8.
Definition SMMU_R_EVTQ_CONS : Z := SMMU_R_PAGE_1_OFFSET + 0xAC.

Definition IDR0_CD2L : Z := 1 << 19.
Definition IDR0_HYP : Z := 1 << 9.
Definition IDR0_S1P : Z := 1 << 1.
Definition IDR0_S2P : Z := 1 << 0.
Definition IDR0_ST_LEVEL_2LVL : Z := 1.
Definition IDR0_TTF_AARCH64 : Z := 2.
Definition IDR0_TTF_AARCH32_64 : Z := 3.
Definition IDR1_TABLES_PRESET : Z := 1 << 30.
Definition IDR1_QUEUES_PRESET : Z := 1 << 29.
Definition CR0_EVENTQEN : Z := 1 << 2.
Definition CR0_CMDQEN : Z := 1 << 3.
Definition CR0_SMMUEN : Z := 1 << 0.
Definition ENABLE_E2H : Z := 1 << 0.
Definition CR1_CACHE_WB : Z := 1.
Definition SMMU_SH_ISH : Z := 3.
Definition smmu_oas : list Z := [32; 36; 40; 42; 44; 48; 52].
Definition SMMU_OAS_MAX_IDX : Z := 7.

Definition STRTAB_SPLIT : Z := 8.
Definition STRTAB_L1_DESC_DWORDS : Z := 1.
Definition STRTAB_L1_DESC_SIZE : Z := 8.
Definition STRTAB_STE_DWORDS : Z := 8.
Definition STRTAB_BASE_RA : Z := 1 << 62.
Definition QUEUE_BASE_RWA : Z := 1 << 62.
Definition STRTAB_STE_0_V : Z := 1 << 0.
Definition STRTAB_STE_0_CONFIG_BYPASS : Z := 4.
Definition STRTAB_STE_0_CONFIG_S1_TRANS : Z := 5.
Definition STRTAB_STE_0_CONFIG_S2_TRANS : Z := 6.
Definition STRTAB_STE_0_S1FMT_LINEAR : Z := 0.
Definition STRTAB_STE_0_S1FMT_64K_L2 : Z := 2.
Definition STRTAB_STE_1_S1DSS_SSID0 : Z := 2.
Definition STRTAB_STE_1_S1C_CACHE_WBRA : Z := 1.
Definition STRTAB_STE_1_SHCFG_INCOMING : Z := 1.
Definition STRTAB_STE_2_S2AA64 : Z := 1 << 51.
Definition STRTAB_STE_2_S2PTW : Z := 1 << 54.
Definition STRTAB_STE_2_S2R : Z := 1 << 58.
Definition CDTAB_SPLIT : Z := 10.
Definition CDTAB_L2_ENTRY_COUNT : Z := 1 << CDTAB_SPLIT.
Definition CDTAB_L1_DESC_DWORDS : Z := 1.
Definition CDTAB_L1_DESC_V : Z := 1 << 0.
Definition CDTAB_CD_DWORDS : Z := 8.
Definition CDTAB_CD_0_TCR_EPD1 : Z := 1 << 30.
Definition CDTAB_CD_0_V : Z := 1 << 31.
Definition CDTAB_CD_0_AA64 : Z := 1 << 41.
Definition CDTAB_CD_0_R : Z := 1 << 45.
Definition CDTAB_CD_0_A : Z := 1 << 46.
Definition CDTAB_CD_0_ASET : Z := 1 << 47.

(** C sizes of the driver's structures (LP64). *)
Definition sizeof_smmu_dev : Z := 240.
Definition sizeof_smmu_master : Z := 136.
Definition sizeof_master_node : Z := 16.
Definition sizeof_strtab_l1_desc : Z := 32.
Definition sizeof_cdtab_l1_desc : Z := 24.

(** Objects as [val_memory_calloc] leaves them. *)
Definition zero_queue_type : smmu_queue_type :=
  mk_queue_type (mk_queue 0 0 0) 0 0 0 0 0 0 0.
Definition zero_smmu : smmu_dev :=
  mk_smmu 0 0 0 0 0 zero_queue_type zero_queue_type (mk_strtab 0 0 0 0 0 0 0)
    (mk_supp false false false false false).
Definition zero_l1 : smmu_strtab_l1_desc := mk_l1 0 0 0 0.
Definition zero_cl1 : cdtab_l1_desc := mk_cl1 0 0 0.
Definition zero_master : smmu_master :=
  mk_master None SMMU_STAGE_S1 (mk_s1 (mk_cdcfg 0 0 0 0 0) (mk_cd 0 0 0 0) 0 0)
    (mk_s2 0 0 0) 0 0 0.

(** Field updates of the C structures. *)
Definition with_base v d := mk_smmu v (smmu_ias d) (smmu_oas_bits d) (smmu_ssid_bits d)
  (smmu_sid_bits d) (cmd_type d) (evnt_type d) (strtab_cfg d) (supported d).
Definition with_ias v d := mk_smmu (smmu_base d) v (smmu_oas_bits d) (smmu_ssid_bits d)
  (smmu_sid_bits d) (cmd_type d) (evnt_type d) (strtab_cfg d) (supported d).
Definition with_oas v d := mk_smmu (smmu_base d) (smmu_ias d) v (smmu_ssid_bits d)
  (smmu_sid_bits d) (cmd_type d) (evnt_type d) (strtab_cfg d) (supported d).
Definition with_sid_ssid sid ssid d := mk_smmu (smmu_base d) (smmu_ias d) (smmu_oas_bits d)
  ssid sid (cmd_type d) (evnt_type d) (strtab_cfg d) (supported d).
Definition with_cmd v d := mk_smmu (smmu_base d) (smmu_ias d) (smmu_oas_bits d)
  (smmu_ssid_bits d) (smmu_sid_bits d) v (evnt_type d) (strtab_cfg d) (supported d).
Definition with_evnt v d := mk_smmu (smmu_base d) (smmu_ias d) (smmu_oas_bits d)
  (smmu_ssid_bits d) (smmu_sid_bits d) (cmd_type d) v (strtab_cfg d) (supported d).
Definition with_strtab v d := mk_smmu (smmu_base d) (smmu_ias d) (smmu_oas_bits d)
  (smmu_ssid_bits d) (smmu_sid_bits d) (cmd_type d) (evnt_type d) v (supported d).
Definition with_supp v d := mk_smmu (smmu_base d) (smmu_ias d) (smmu_oas_bits d)
  (smmu_ssid_bits d) (smmu_sid_bits d) (cmd_type d) (evnt_type d) (strtab_cfg d) v.
Definition with_stage v m := mk_master (m_smmu m) v (stage1 m) (stage2 m) (m_sid m)
  (m_ssid m) (m_ssid_bits m).
Definition with_stage1 v m := mk_master (m_smmu m) (stage m) v (stage2 m) (m_sid m)
  (m_ssid m) (m_ssid_bits m).
Definition with_stage2 v m := mk_master (m_smmu m) (stage m) (stage1 m) v (m_sid m)
  (m_ssid m) (m_ssid_bits m).
Definition with_ssid v m := mk_master (m_smmu m) (stage m) (stage1 m) (stage2 m) (m_sid m)
  v (m_ssid_bits m).
Definition with_owner i sid bits m := mk_master (Some i) (stage m) (stage1 m) (stage2 m) sid
  (m_ssid m) bits.

Definition set_g_smmu v g := mk_globals v (g_smmu_addr g) (g_num_smmus g) (g_sid g)
  (l1_descs g) (cl1_descs g) (master_list g) (masters g).
Definition set_g_smmu_addr v g := mk_globals (g_smmu g) v (g_num_smmus g) (g_sid g)
  (l1_descs g) (cl1_descs g) (master_list g) (masters g).
Definition set_g_num v g := mk_globals (g_smmu g) (g_smmu_addr g) v (g_sid g)
  (l1_descs g) (cl1_descs g) (master_list g) (masters g).
Definition set_g_sid v g := mk_globals (g_smmu g) (g_smmu_addr g) (g_num_smmus g) v
  (l1_descs g) (cl1_descs g) (master_list g) (masters g).
Definition set_l1_descs f g := mk_globals (g_smmu g) (g_smmu_addr g) (g_num_smmus g) (g_sid g)
  (f (l1_descs g)) (cl1_descs g) (master_list g) (masters g).
Definition set_cl1_descs f g := mk_globals (g_smmu g) (g_smmu_addr g) (g_num_smmus g) (g_sid g)
  (l1_descs g) (f (cl1_descs g)) (master_list g) (masters g).
Definition set_master_list v g := mk_globals (g_smmu g) (g_smmu_addr g) (g_num_smmus g) (g_sid g)
  (l1_descs g) (cl1_descs g) v (masters g).
Definition set_masters f g := mk_globals (g_smmu g) (g_smmu_addr g) (g_num_smmus g) (g_sid g)
  (l1_descs g) (cl1_descs g) (master_list g) (f (masters g)).

(** ** Pure helpers *)

(** [align_to_size]: the next multiple of [size] strictly above [addr]. *)
Definition align_to_size (addr size : Z) : Z :=
  u64 (u64 (size - (addr .& u64 (size - 1))) + addr) .& bnot 64 (u64 (size - 1)).

Definition smmu_cmdq_inc_prod (q : smmu_queue) : Z :=
  u32 ((q_prod q + 1) .& ((1 << (log2nent q + 1)) - 1)).

Definition smmu_queue_full (q : smmu_queue) : bool :=
  let index_mask := u32 ((1 << log2nent q) - 1) in
  let wrap_mask := u32 (1 << log2nent q) in
  ((q_prod q .& index_mask) =? (q_cons q .& index_mask)) &&
  negb ((q_prod q .& wrap_mask) =? (q_cons q .& wrap_mask)).

Definition smmu_queue_empty (q : smmu_queue) : bool :=
  let index_mask := u32 ((1 << log2nent q) - 1) in
  let wrap_mask := u32 (1 << log2nent q) in
  ((q_prod q .& index_mask) =? (q_cons q .& index_mask)) &&
  ((q_prod q .& wrap_mask) =? (q_cons q .& wrap_mask)).

(** [smmu_cmdq_build_cmd]: the two dwords, or [None] for an unsupported opcode. *)
Definition smmu_cmdq_build_cmd (sid opcode : Z) : option (Z * Z) :=
  let cmd0 := bf_set 7 0 opcode in
  if (opcode =? CMDQ_OP_TLBI_EL2_ALL) || (opcode =? CMDQ_OP_TLBI_NSNH_ALL) ||
     (opcode =? CMDQ_OP_CMD_SYNC) then Some (cmd0, 0)
  else if opcode =? CMDQ_OP_CFGI_ALL then Some (cmd0, bf_set 4 0 31)
  else if opcode =? CMDQ_OP_PREFETCH_CFG then
    Some (cmd0 .| ((sid .& 0xFFFFFFFF) << 32), 0)
  else if opcode =? CMDQ_OP_CFGI_STE then
    Some (cmd0 .| ((sid .& 0xFFFFFFFF) << 32), 1)
  else None.

(** The two-level queue base register value shared by both queue inits. *)
Definition queue_base_val (phys log2 : Z) : Z :=
  QUEUE_BASE_RWA .| (phys .& (bf_mask 51 5 << 5)) .| bf_set 4 0 log2.

(** Setters of the nested configuration structures. *)
Definition upd_cfg (f : smmu_strtab_config -> smmu_strtab_config) (d : smmu_dev) : smmu_dev :=
  with_strtab (f (strtab_cfg d)) d.
Definition cfg_ptr v c := mk_strtab v (strtab64 c) (strtab_phys c) (st_l1_desc c)
  (st_l1_ent_count c) (strtab_base c) (strtab_base_cfg c).
Definition cfg_tab v ph c := mk_strtab (strtab_ptr c) v ph (st_l1_desc c)
  (st_l1_ent_count c) (strtab_base c) (strtab_base_cfg c).
Definition cfg_l1 v c := mk_strtab (strtab_ptr c) (strtab64 c) (strtab_phys c) v
  (st_l1_ent_count c) (strtab_base c) (strtab_base_cfg c).
Definition cfg_count v c := mk_strtab (strtab_ptr c) (strtab64 c) (strtab_phys c)
  (st_l1_desc c) v (strtab_base c) (strtab_base_cfg c).
Definition cfg_base v c := mk_strtab (strtab_ptr c) (strtab64 c) (strtab_phys c)
  (st_l1_desc c) (st_l1_ent_count c) v (strtab_base_cfg c).
Definition cfg_base_cfg v c := mk_strtab (strtab_ptr c) (strtab64 c) (strtab_phys c)
  (st_l1_desc c) (st_l1_ent_count c) (strtab_base c) v.
Definition upd_s1 (f : stage1_config -> stage1_config) (m : smmu_master) : smmu_master :=
  with_stage1 (f (stage1 m)) m.
Definition upd_cdcfg (f : cdtab_config -> cdtab_config) (c : stage1_config) : stage1_config :=
  mk_s1 (f (cdcfg c)) (s1_cd c) (s1fmt c) (s1cdmax c).
Definition s1_with_fmt v c := mk_s1 (cdcfg c) (s1_cd c) v (s1cdmax c).
Definition s1_with_max v c := mk_s1 (cdcfg c) (s1_cd c) (s1fmt c) v.
Definition s1_with_cd v c := mk_s1 (cdcfg c) v (s1fmt c) (s1cdmax c).
Definition cd_with_ptr v c := mk_cdcfg v (cdtab64 c) (cdtab_phys c) (cd_l1_desc c)
  (cd_l1_ent_count c).
Definition cd_with_tab v ph c := mk_cdcfg (cdtab_ptr c) v ph (cd_l1_desc c)
  (cd_l1_ent_count c).
Definition cd_with_l1 v c := mk_cdcfg (cdtab_ptr c) (cdtab64 c) (cdtab_phys c) v
  (cd_l1_ent_count c).
Definition cd_with_count v c := mk_cdcfg (cdtab_ptr c) (cdtab64 c) (cdtab_phys c)
  (cd_l1_desc c) v.
Definition supp_2lvl b p := mk_supp b (cd2l p) (hyp p) (s1p p) (s2p p).
Definition supp_cd2l b p := mk_supp (st_level_2lvl p) b (hyp p) (s1p p) (s2p p).
Definition supp_hyp b p := mk_supp (st_level_2lvl p) (cd2l p) b (s1p p) (s2p p).
Definition supp_s1p b p := mk_supp (st_level_2lvl p) (cd2l p) (hyp p) b (s2p p).
Definition supp_s2p b p := mk_supp (st_level_2lvl p) (cd2l p) (hyp p) (s1p p) b.

(** [BITFIELD_SET] of a value in place: the descriptor words. *)
Definition l1_desc_val (desc : smmu_strtab_l1_desc) : Z :=
  bf_set 4 0 (l1_span desc) .| (l1_l2desc_phys desc .& (bf_mask 51 6 << 6)).
Definition cdtab_l1_val (desc : cdtab_l1_desc) : Z :=
  (cl1_l2desc_phys desc .& (bf_mask 51 12 << 12)) .| CDTAB_L1_DESC_V.
Definition ctx_desc_val (cd : cdtab_ctx_desc) : Z :=
  cd_tcr cd .| CDTAB_CD_0_R .| CDTAB_CD_0_A .| CDTAB_CD_0_ASET .| CDTAB_CD_0_AA64 .|
  bf_set 63 48 (cd_asid cd) .| CDTAB_CD_0_V.
Definition s32 (x : Z) : Z := if u32 x <? 2 ^ 31 then u32 x else u32 x - 2 ^ 32.

(** The arguments of [val_smmu_rlm_map]; a field the caller may leave unset is
    an [option]. *)
Record smmu_master_attributes := mk_attr {
  a_smmu_index : option Z; a_streamid : Z; a_substreamid : option Z;
  a_ssid_bits : option Z; a_stage2 : option Z; a_bypass : option Z
}.

Section code.
Context {D : Type} {HW : Hw D}.

Definition glob {A} (f : smmu_globals -> A) : E D A := gets (fun s => f (e_smmu s)).
Definition upd_glob (f : smmu_globals -> smmu_globals) : E D unit := modify (set_smmu f).

(** [g_smmu[i]] and its fields. *)
Definition smmu_at (i : nat) : E D smmu_dev :=
  let! g := glob g_smmu in
  use (match g with Some l => nth_error l i | None => None end).
Definition smmu_upd (i : nat) (f : smmu_dev -> smmu_dev) : E D unit :=
  let! g := glob g_smmu in
  match g with
  | Some l => upd_glob (set_g_smmu (Some (alter f i l)))
  | None => undef
  end.
Definition master_get (p : Z) : E D smmu_master :=
  let! m := glob masters in use (m !! p).
Definition master_upd (p : Z) (f : smmu_master -> smmu_master) : E D unit :=
  upd_glob (set_masters (alter f p)).
Definition l1_get (p : Z) : E D smmu_strtab_l1_desc :=
  let! m := glob l1_descs in use (m !! p).
Definition cl1_get (p : Z) : E D cdtab_l1_desc :=
  let! m := glob cl1_descs in use (m !! p).

Definition val_mmio_read (a : Z) : E D Z := io_read 4 a.
Definition val_mmio_write (a v : Z) : E D unit := io_write 4 a v.
Definition val_mmio_write64 (a v : Z) : E D unit := io_write 8 a v.

Definition val_memory_virt_to_phys (va : Z) : Z := va.
Definition val_memory_alloc (fuel : nat) (size alignment : Z) : E D Z :=
  my_malloc fuel (u32 size) alignment.
Definition val_memory_calloc (fuel : nat) (num size alignment : Z) : E D Z :=
  my_calloc fuel (u32 num) (u32 size) alignment.
Definition val_memory_free (fuel : nat) (addr : Z) : E D unit := my_free fuel addr.

(** ** Command queue *)

(** One turn of the wait for a free slot: the software copy of the indices. *)
Definition wait_not_full (q : smmu_queue) (timeout : Z) : E D (Z + Z) :=
  if smmu_queue_full q && truthy timeout then ret (inl (timeout - 1))
  else ret (inr timeout).

Definition smmu_cmdq_write_cmd (fuel : nat) (i : nat) (cmd : Z * Z) : E D Z :=
  let! smmu := smmu_at i in
  let cmdq := cmd_type smmu in
  let! timeout := loop fuel (wait_not_full (queue cmdq)) SMMU_CMDQ_POLL_TIMEOUT in
  if timeout =? 0 then ret (-1) else
  let! prod := val_mmio_read (prod_reg cmdq) in
  let q := mk_queue prod 0 (log2nent (queue cmdq)) in
  let cmd_dst := u64 (q_base cmdq +
                      (q_prod q .& ((1 << log2nent q) - 1)) * entry_size cmdq) in
  wr 8 cmd_dst (fst cmd) ;;
  wr 8 (cmd_dst + 8) (snd cmd) ;;
  val_mmio_write (prod_reg cmdq) (smmu_cmdq_inc_prod q) ;;
  ret 0.

Definition smmu_cmdq_issue_cmd (fuel : nat) (i : nat) (opcode : Z) : E D Z :=
  let! sid := glob g_sid in
  match smmu_cmdq_build_cmd sid opcode with
  | None => ret (-1)
  | Some cmd => smmu_cmdq_write_cmd fuel i cmd
  end.

(** One turn of the polling loop: (timeout, cns). *)
Definition poll_step (cmdq : smmu_queue_type) (prod : Z) (x : Z * Z) : E D (Z * Z + Z) :=
  let '(timeout, cns) := x in
  if 0 <? timeout then
    if smmu_queue_empty (mk_queue prod cns (log2nent (queue cmdq))) then ret (inr timeout)
    else let! cns' := val_mmio_read (cons_reg cmdq) in
         ret (inl (timeout - 1, cns'))
  else ret (inr timeout).

Definition smmu_cmdq_poll_until_consumed (fuel : nat) (i : nat) : E D unit :=
  let! smmu := smmu_at i in
  let cmdq := cmd_type smmu in
  let! prod := val_mmio_read (prod_reg cmdq) in
  let! cns := val_mmio_read (cons_reg cmdq) in
  let! timeout := loop fuel (poll_step cmdq prod) (SMMU_CMDQ_POLL_TIMEOUT, cns) in
  (* on a timeout the registers are read once more for the error report *)
  when timeout =? 0 then
    (let! _p := val_mmio_read (prod_reg cmdq) in
     let! _c := val_mmio_read (cons_reg cmdq) in
     let! _g := val_mmio_read (u64 (smmu_base smmu + SMMU_R_GERROR)) in
     ret tt).

Definition smmu_tlbi_cached_ste (fuel : nat) (i : nat) : E D unit :=
  let! _r := smmu_cmdq_issue_cmd fuel i CMDQ_OP_CFGI_STE in
  let! _r := smmu_cmdq_issue_cmd fuel i CMDQ_OP_CMD_SYNC in
  smmu_cmdq_poll_until_consumed fuel i.

Definition smmu_tlbi_prefetch_cfg (fuel : nat) (i : nat) : E D unit :=
  let! _r := smmu_cmdq_issue_cmd fuel i CMDQ_OP_CFGI_STE in
  smmu_cmdq_poll_until_consumed fuel i.

Definition smmu_tlbi_cfgi (fuel : nat) (i : nat) : E D unit :=
  let! _r := smmu_cmdq_issue_cmd fuel i CMDQ_OP_CFGI_ALL in
  let! smmu := smmu_at i in
  (when hyp (supported smmu) then
     (let! _r := smmu_cmdq_issue_cmd fuel i CMDQ_OP_TLBI_EL2_ALL in ret tt)) ;;
  let! _r := smmu_cmdq_issue_cmd fuel i CMDQ_OP_TLBI_NSNH_ALL in
  let! _r := smmu_cmdq_issue_cmd fuel i CMDQ_OP_CMD_SYNC in
  smmu_cmdq_poll_until_consumed fuel i.

(** ** Stream table entries *)

(** The bypass entry written for a NULL master and for a bypass master. *)
Definition write_bypass_ste (ste : Z) : E D unit :=
  wr 8 ste (STRTAB_STE_0_V .| bf_set 3 1 STRTAB_STE_0_CONFIG_BYPASS) ;;
  wr 8 (ste + 8) (bf_set 45 44 STRTAB_STE_1_SHCFG_INCOMING) ;;
  wr 8 (ste + 16) 0.

Definition smmu_strtab_write_ste (fuel : nat) (master : option smmu_master)
    (ste : Z) (i : nat) : E D unit :=
  match master with
  | None => write_bypass_ste ste
  | Some m =>
    match stage m with
    | SMMU_STAGE_BYPASS => write_bypass_ste ste
    | SMMU_STAGE_S2 =>
      let cfg := stage2 m in
      let! ste1 := rd 8 (ste + 8) in
      wr 8 (ste + 8) (ste1 .| (bf_set 31 30 0x2 .| bf_set 29 28 0x1)) ;;
      wr 8 (ste + 16)
        (bf_set 15 0 (vmid cfg) .| bf_set 50 32 (vtcr cfg) .| STRTAB_STE_2_S2PTW .|
         STRTAB_STE_2_S2AA64 .| STRTAB_STE_2_S2R) ;;
      wr 8 (ste + 24) (vttbr cfg .& bf_mask 51 4) ;;
      wr 8 ste (STRTAB_STE_0_V .| bf_set 3 1 STRTAB_STE_0_CONFIG_S2_TRANS) ;;
      smmu_tlbi_cached_ste fuel i ;;
      smmu_tlbi_prefetch_cfg fuel i
    | SMMU_STAGE_S1 =>
      let cfg := stage1 m in
      wr 8 (ste + 8)
        (bf_set 1 0 STRTAB_STE_1_S1DSS_SSID0 .| bf_set 3 2 STRTAB_STE_1_S1C_CACHE_WBRA .|
         bf_set 5 4 STRTAB_STE_1_S1C_CACHE_WBRA .| bf_set 7 6 SMMU_SH_ISH .|
         bf_set 29 28 0x1) ;;
      wr 8 ste
        (STRTAB_STE_0_V .|
         ((cdtab_phys (cdcfg cfg) .& (bf_mask 51 6 << 6)) .|
          bf_set 3 1 STRTAB_STE_0_CONFIG_S1_TRANS .|
          bf_set 63 59 (s1cdmax cfg) .| bf_set 5 4 (s1fmt cfg))) ;;
      smmu_tlbi_cached_ste fuel i ;;
      smmu_tlbi_prefetch_cfg fuel i
    end
  end.

(** Runs [f] on [a], [a + 64], ... : the loops over stream table entries. *)
Definition write_bypass_stes (n base : Z) : E D unit :=
  for_range 0 n (fun i => write_bypass_ste (u64 (base + 64 * i))).

Definition smmu_strtab_init_linear (fuel : nat) (i : nat) : E D Z :=
  let! smmu := smmu_at i in
  (* int arithmetic: 1 << sid_bits times 64 must not overflow *)
  require (smmu_sid_bits smmu <=? 24) ;;
  let size := (1 << smmu_sid_bits smmu) * (STRTAB_STE_DWORDS << 3) in
  let! p := val_memory_calloc fuel 2 size SIZE_4KB in
  smmu_upd i (upd_cfg (cfg_ptr p)) ;;
  if p =? 0 then ret 0 else
  let tab := align_to_size p size in
  smmu_upd i (upd_cfg (cfg_tab tab (align_to_size (val_memory_virt_to_phys p) size))) ;;
  smmu_upd i (upd_cfg (cfg_count (1 << smmu_sid_bits smmu))) ;;
  smmu_upd i (upd_cfg (cfg_base_cfg (bf_set 17 16 0 .| bf_set 5 0 (smmu_sid_bits smmu)))) ;;
  write_bypass_stes (1 << smmu_sid_bits smmu) tab ;;
  ret 1.

(** The body shared by the two queue initialisations. *)
Definition queue_init (fuel : nat) (base prod cns : Z) (q : smmu_queue_type)
    (store_q : smmu_queue_type -> E D unit) : E D Z :=
  let l := log2nent (queue q) in
  (* int arithmetic: (1 << log2nent) * 2 << 3 must not overflow *)
  require (l <=? 26) ;;
  let size0 := ((1 << l) * QUEUE_DWORDS_PER_ENT) << 3 in
  let size := if size0 <? 32 then 32 else size0 in
  let! p := val_memory_calloc fuel 2 size SIZE_4KB in
  let q1 := mk_queue_type (queue q) p (q_base q) (q_base_phys q) (queue_base q)
              (entry_size q) (prod_reg q) (cons_reg q) in
  store_q q1 ;;
  if p =? 0 then ret 0 else
  let phys := val_memory_virt_to_phys p in
  store_q (mk_queue_type (mk_queue 0 0 l) p p phys (queue_base_val phys l)
             (QUEUE_DWORDS_PER_ENT << 3) (u64 (base + prod)) (u64 (base + cns))) ;;
  ret 1.

Definition smmu_event_queue_init (fuel : nat) (i : nat) : E D Z :=
  let! smmu := smmu_at i in
  queue_init fuel (smmu_base smmu) SMMU_R_EVTQ_PROD SMMU_R_EVTQ_CONS (evnt_type smmu)
    (fun q => smmu_upd i (with_evnt q)).

Definition smmu_cmd_queue_init (fuel : nat) (i : nat) : E D Z :=
  let! smmu := smmu_at i in
  queue_init fuel (smmu_base smmu) SMMU_R_CMDQ_PROD SMMU_R_CMDQ_CONS (cmd_type smmu)
    (fun q => smmu_upd i (with_cmd q)).

Definition smmu_free_strtab (fuel : nat) (i : nat) : E D unit :=
  let! smmu := smmu_at i in
  let cfg := strtab_cfg smmu in
  if strtab_ptr cfg =? 0 then ret tt else
  (when st_level_2lvl (supported smmu) && truthy (st_l1_desc cfg) then
    (for_range 0 (st_l1_ent_count cfg) (fun k =>
       let! d := l1_get (st_l1_desc cfg + sizeof_strtab_l1_desc * k) in
       when truthy (l1_l2ptr d) then val_memory_free fuel (l1_l2ptr d)) ;;
     val_memory_free fuel (st_l1_desc cfg))) ;;
  val_memory_free fuel (strtab_ptr cfg).

Definition smmu_strtab_write_level1_desc (dst : Z) (desc : smmu_strtab_l1_desc) : E D unit :=
  wr 8 dst (l1_desc_val desc).

Definition l1_put (p : Z) (d : smmu_strtab_l1_desc) : E D unit :=
  upd_glob (set_l1_descs (insert p d)).
Definition cl1_put (p : Z) (d : cdtab_l1_desc) : E D unit :=
  upd_glob (set_cl1_descs (insert p d)).

Definition smmu_strtab_init_level2 (fuel : nat) (i : nat) (sid : Z) : E D Z :=
  let! smmu := smmu_at i in
  let cfg := strtab_cfg smmu in
  let dp := st_l1_desc cfg + sizeof_strtab_l1_desc * (sid >> STRTAB_SPLIT) in
  let! desc := l1_get dp in
  if truthy (l1_l2ptr desc) then ret 1 else
  let size := (1 << STRTAB_SPLIT) * STRTAB_STE_DWORDS * BYTES_PER_DWORD in
  let strtab := u64 (strtab64 cfg + 8 * ((sid >> STRTAB_SPLIT) * STRTAB_L1_DESC_DWORDS)) in
  let! p := val_memory_calloc fuel 2 size SIZE_16KB in
  l1_put dp (mk_l1 (STRTAB_SPLIT + 1) p (l1_l2desc64 desc) (l1_l2desc_phys desc)) ;;
  if p =? 0 then ret 0 else
  let desc' := mk_l1 (STRTAB_SPLIT + 1) p (align_to_size p size)
                 (align_to_size (val_memory_virt_to_phys p) size) in
  l1_put dp desc' ;;
  write_bypass_stes (1 << STRTAB_SPLIT) (l1_l2desc64 desc') ;;
  smmu_strtab_write_level1_desc strtab desc' ;;
  ret 1.

Definition smmu_strtab_init_level1 (fuel : nat) (i : nat) : E D Z :=
  let! smmu := smmu_at i in
  let n := st_l1_ent_count (strtab_cfg smmu) in
  let! p := val_memory_calloc fuel n sizeof_strtab_l1_desc SIZE_4KB in
  smmu_upd i (upd_cfg (cfg_l1 p)) ;;
  if p =? 0 then ret 0 else
  for_range 0 n (fun k => l1_put (p + sizeof_strtab_l1_desc * k) zero_l1) ;;
  ret 1.

Definition smmu_strtab_init_2level (fuel : nat) (i : nat) : E D Z :=
  let! smmu := smmu_at i in
  let log2size := u32 (smmu_sid_bits smmu - STRTAB_SPLIT) in
  require (log2size <? 31) ;;
  let count := 1 << log2size in
  smmu_upd i (upd_cfg (cfg_count count)) ;;
  let log2size := log2size + STRTAB_SPLIT in
  let l1_tbl_size := u32 (count * STRTAB_L1_DESC_SIZE) in
  let! p := val_memory_alloc fuel (u32 (2 * l1_tbl_size)) SIZE_4KB in
  smmu_upd i (upd_cfg (cfg_ptr p)) ;;
  if p =? 0 then ret 0 else
  smmu_upd i (upd_cfg (cfg_tab p (val_memory_virt_to_phys p))) ;;
  smmu_upd i (upd_cfg (cfg_base_cfg
    (bf_set 17 16 1 .| bf_set 5 0 log2size .| bf_set 10 6 STRTAB_SPLIT))) ;;
  let! r := smmu_strtab_init_level1 fuel i in
  if r =? 0 then val_memory_free fuel p ;; ret 0 else ret 1.

Definition smmu_strtab_init (fuel : nat) (i : nat) : E D Z :=
  let! smmu := smmu_at i in
  let! r := (if st_level_2lvl (supported smmu) then smmu_strtab_init_2level fuel i
             else smmu_strtab_init_linear fuel i) in
  if r =? 0 then ret r else
  let! smmu := smmu_at i in
  let data := strtab_phys (strtab_cfg smmu) .& (bf_mask 51 6 << 6) in
  smmu_upd i (upd_cfg (cfg_base (data .| STRTAB_BASE_RA))) ;;
  ret 1.

(** ** Registers *)

(** One turn of [while (timeout--)]. *)
Definition sync_step (ack val timeout : Z) : E D (Z + Z) :=
  if timeout =? 0 then ret (inr 1) else
  let! reg := val_mmio_read ack in
  if reg =? val then ret (inr 0) else ret (inl (timeout - 1)).

Definition smmu_reg_write_sync (fuel : nat) (i : nat) (val reg_off ack_off : Z) : E D Z :=
  let! smmu := smmu_at i in
  val_mmio_write (u64 (smmu_base smmu + reg_off)) val ;;
  loop fuel (sync_step (u64 (smmu_base smmu + ack_off)) val) 0x1000000.

Definition smmu_dev_disable (fuel : nat) (i : nat) : E D Z :=
  smmu_reg_write_sync fuel i 0 SMMU_R_CR0 SMMU_R_CR0ACK.

Definition reset_cr1 : Z :=
  bf_set 11 10 SMMU_SH_ISH .| bf_set 5 4 SMMU_SH_ISH .|
  bf_set 7 6 CR1_CACHE_WB .| bf_set 1 0 CR1_CACHE_WB .|
  bf_set 9 8 CR1_CACHE_WB .| bf_set 3 2 CR1_CACHE_WB.

(** The register writes between clearing SMMUEN and enabling the queues. *)
Definition reset_program (smmu : smmu_dev) : E D unit :=
  let at_ off := u64 (smmu_base smmu + off) in
  val_mmio_write (at_ SMMU_R_CR1) reset_cr1 ;;
  let! r_cr2 := val_mmio_read (at_ SMMU_R_CR2) in
  val_mmio_write (at_ SMMU_R_CR2) (r_cr2 .| ENABLE_E2H) ;;
  val_mmio_write64 (at_ SMMU_R_STRTAB_BASE) (strtab_base (strtab_cfg smmu)) ;;
  val_mmio_write (at_ SMMU_R_STRTAB_BASE_CFG) (strtab_base_cfg (strtab_cfg smmu)) ;;
  val_mmio_write64 (at_ SMMU_R_CMDQ_BASE) (queue_base (cmd_type smmu)) ;;
  val_mmio_write (at_ SMMU_R_CMDQ_PROD) (q_prod (queue (cmd_type smmu))) ;;
  val_mmio_write (at_ SMMU_R_CMDQ_CONS) (q_cons (queue (cmd_type smmu))) ;;
  val_mmio_write64 (at_ SMMU_R_EVTQ_BASE) (queue_base (evnt_type smmu)) ;;
  val_mmio_write (at_ SMMU_R_EVTQ_PROD) (q_prod (queue (evnt_type smmu))) ;;
  val_mmio_write (at_ SMMU_R_EVTQ_CONS) (q_cons (queue (evnt_type smmu))).

Definition smmu_reset (fuel : nat) (i : nat) : E D Z :=
  let! smmu := smmu_at i in
  let cr0 := u64 (smmu_base smmu + SMMU_R_CR0) in
  let sync v := smmu_reg_write_sync fuel i v SMMU_R_CR0 SMMU_R_CR0ACK in
  let! r_cr0 := val_mmio_read cr0 in
  let! r := sync (r_cr0 .& bnot 32 CR0_SMMUEN) in
  if truthy r then ret r else
  reset_program smmu ;;
  let! r_cr0 := val_mmio_read cr0 in
  let r_cr0 := r_cr0 .| CR0_CMDQEN in
  let! r := sync r_cr0 in
  if truthy r then ret r else
  let r_cr0 := r_cr0 .| CR0_EVENTQEN in
  let! r := sync r_cr0 in
  if truthy r then ret r else
  smmu_tlbi_cfgi fuel i ;;
  let r_cr0 := r_cr0 .| CR0_SMMUEN in
  let! r := sync r_cr0 in
  if truthy r then ret r else
  ret 1.

Definition smmu_set_state (fuel : nat) (smmu_index en : Z) : E D Z :=
  let! n := glob g_num_smmus in
  if n <=? smmu_index then ret 1 else
  let i := Z.to_nat smmu_index in
  let! smmu := smmu_at i in
  if smmu_base smmu =? 0 then ret 1 else
  let! cr0_val := val_mmio_read (u64 (smmu_base smmu + SMMU_CR0_OFFSET)) in
  let cr0_val := if truthy en then cr0_val .| CR0_SMMUEN
                 else cr0_val .& bnot 32 CR0_SMMUEN in
  let! r := smmu_reg_write_sync fuel i cr0_val SMMU_CR0_OFFSET SMMU_CR0ACK_OFFSET in
  if truthy r then ret r else ret 0.

Definition val_smmu_disable (fuel : nat) (smmu_index : Z) : E D Z :=
  smmu_set_state fuel smmu_index 0.
Definition val_smmu_enable (fuel : nat) (smmu_index : Z) : E D Z :=
  smmu_set_state fuel smmu_index 1.

Definition set_supp (i : nat) (f : smmu_supported -> smmu_supported) : E D unit :=
  smmu_upd i (fun d => with_supp (f (supported d)) d).

Definition smmu_probe (i : nat) : E D Z :=
  let! smmu := smmu_at i in
  let base := smmu_base smmu in
  let! idr0 := val_mmio_read (u64 (base + SMMU_IDR0_OFFSET)) in
  (when bf_get 28 27 idr0 =? IDR0_ST_LEVEL_2LVL then set_supp i (supp_2lvl true)) ;;
  (when truthy (idr0 .& IDR0_CD2L) then set_supp i (supp_cd2l true)) ;;
  (when truthy (idr0 .& IDR0_HYP) then set_supp i (supp_hyp true)) ;;
  (when truthy (idr0 .& IDR0_S1P) then set_supp i (supp_s1p true)) ;;
  (when truthy (idr0 .& IDR0_S2P) then set_supp i (supp_s2p true)) ;;
  if idr0 .& (IDR0_S1P .| IDR0_S2P) =? 0 then ret 0 else
  let ttf := bf_get 3 2 idr0 in
  if negb ((ttf =? IDR0_TTF_AARCH32_64) || (ttf =? IDR0_TTF_AARCH64)) then ret 0 else
  (when ttf =? IDR0_TTF_AARCH32_64 then smmu_upd i (with_ias 40)) ;;
  let! idr1 := val_mmio_read (u64 (base + SMMU_IDR1_OFFSET)) in
  if truthy (idr1 .& (IDR1_TABLES_PRESET .| IDR1_QUEUES_PRESET)) then ret 0 else
  smmu_upd i (fun d =>
    let c := cmd_type d in
    with_cmd (mk_queue_type
      (mk_queue (q_prod (queue c)) (q_cons (queue c)) (bf_get 25 21 idr1))
      (q_base_ptr c) (q_base c) (q_base_phys c) (queue_base c) (entry_size c)
      (prod_reg c) (cons_reg c)) d) ;;
  smmu_upd i (with_sid_ssid (bf_get 5 0 idr1) (bf_get 10 6 idr1)) ;;
  (when bf_get 5 0 idr1 <=? STRTAB_SPLIT then set_supp i (supp_2lvl false)) ;;
  let! idr5 := val_mmio_read (u64 (base + SMMU_IDR5_OFFSET)) in
  if SMMU_OAS_MAX_IDX <=? bf_get 2 0 idr5 then ret 0 else
  let! oas := use (nth_error smmu_oas (Z.to_nat (bf_get 2 0 idr5))) in
  smmu_upd i (with_oas oas) ;;
  smmu_upd i (fun d => with_ias (Z.max (smmu_ias d) (smmu_oas_bits d)) d) ;;
  ret 1.

Definition smmu_strtab_get_ste_for_sid (i : nat) (sid : Z) : E D Z :=
  let! smmu := smmu_at i in
  let cfg := strtab_cfg smmu in
  if negb (st_level_2lvl (supported smmu)) then
    ret (u64 (strtab64 cfg + 8 * u32 (sid * STRTAB_STE_DWORDS)))
  else
    let! l1 := l1_get (st_l1_desc cfg +
                       sizeof_strtab_l1_desc * ((sid >> STRTAB_SPLIT) * STRTAB_L1_DESC_DWORDS)) in
    ret (u64 (l1_l2desc64 l1 +
              8 * ((sid .& ((1 << STRTAB_SPLIT) - 1)) * STRTAB_STE_DWORDS))).

(** ** Context descriptors *)

Definition smmu_cdtab_write_l1_desc (dst : Z) (l1_desc : cdtab_l1_desc) : E D unit :=
  wr 8 dst (cdtab_l1_val l1_desc).

(** [dp] is the address of the l1 descriptor. *)
Definition smmu_cdtab_alloc_leaf_table (fuel : nat) (dp : Z) : E D Z :=
  let! d := cl1_get dp in
  let size := CDTAB_L2_ENTRY_COUNT * (CDTAB_CD_DWORDS << 3) in
  let! p := val_memory_alloc fuel (size * 2) BYTES_PER_DWORD in
  cl1_put dp (mk_cl1 p (cl1_l2desc64 d) (cl1_l2desc_phys d)) ;;
  if p =? 0 then ret 1 else
  cl1_put dp (mk_cl1 p (align_to_size p size)
                (align_to_size (val_memory_virt_to_phys p) size)) ;;
  ret 0.

(** [mp] is the address of the master. *)
Definition smmu_cdtab_get_ctx_desc (fuel : nat) (mp : Z) : E D Z :=
  let! m := master_get mp in
  let cdc := cdcfg (stage1 m) in
  if s1fmt (stage1 m) =? STRTAB_STE_0_S1FMT_LINEAR then
    ret (u64 (cdtab64 cdc + 8 * u32 (m_ssid m * CDTAB_CD_DWORDS)))
  else
    let idx := m_ssid m >> CDTAB_SPLIT in
    let dp := cd_l1_desc cdc + sizeof_cdtab_l1_desc * idx in
    let leaf := let! d := cl1_get dp in
                ret (u64 (cl1_l2desc64 d +
                  8 * ((m_ssid m .& (CDTAB_L2_ENTRY_COUNT - 1)) * CDTAB_CD_DWORDS))) in
    let! d := cl1_get dp in
    if cl1_l2ptr d =? 0 then
      let! r := smmu_cdtab_alloc_leaf_table fuel dp in
      if truthy r then ret 0 else
      let! d := cl1_get dp in
      smmu_cdtab_write_l1_desc (u64 (cdtab64 cdc + 8 * (idx * CDTAB_L1_DESC_DWORDS))) d ;;
      leaf
    else leaf.

Definition smmu_cdtab_write_ctx_desc (fuel : nat) (mp ssid : Z) (cd : cdtab_ctx_desc) : E D Z :=
  let! m := master_get mp in
  require (s1cdmax (stage1 m) <? 31) ;;
  if (1 << s1cdmax (stage1 m)) <=? s32 ssid then ret 0 else
  let! cdptr := smmu_cdtab_get_ctx_desc fuel mp in
  if cdptr =? 0 then ret 0 else
  wr 8 (cdptr + 8) (cd_ttbr cd .& (bf_mask 51 4)) ;;
  wr 8 (cdptr + 16) 0 ;;
  wr 8 (cdptr + 24) (cd_mair cd) ;;
  wr 8 cdptr (ctx_desc_val cd) ;;
  ret 1.

(** [master->smmu->supported.cd2l]. *)
Definition master_cd2l (m : smmu_master) : E D bool :=
  let! i := use (m_smmu m) in
  let! smmu := smmu_at i in
  ret (cd2l (supported smmu)).

Definition smmu_cdtab_free (fuel : nat) (mp : Z) : E D unit :=
  let! m := master_get mp in
  let cfg := stage1 m in
  let cdc := cdcfg cfg in
  require (s1cdmax cfg <? 31) ;;
  let max_contexts := 1 << s1cdmax cfg in
  let! two := master_cd2l m in
  (when two && (CDTAB_L2_ENTRY_COUNT <? max_contexts) then
    (for_range 0 ((max_contexts + CDTAB_L2_ENTRY_COUNT - 1) / CDTAB_L2_ENTRY_COUNT) (fun k =>
       let! d := cl1_get (cd_l1_desc cdc + sizeof_cdtab_l1_desc * k) in
       when truthy (cl1_l2ptr d) then val_memory_free fuel (cl1_l2ptr d)) ;;
     val_memory_free fuel (cd_l1_desc cdc))) ;;
  val_memory_free fuel (cdtab_ptr cdc) ;;
  master_upd mp (upd_s1 (upd_cdcfg (cd_with_ptr 0))).

(** The second half of [smmu_cdtab_alloc]: the table itself. *)
Definition cdtab_alloc_table (fuel : nat) (mp l1_tbl_size : Z) : E D Z :=
  let! p := val_memory_calloc fuel 2 l1_tbl_size BYTES_PER_DWORD in
  master_upd mp (upd_s1 (upd_cdcfg (cd_with_ptr p))) ;;
  if p =? 0 then ret 0 else
  master_upd mp (upd_s1 (upd_cdcfg
    (cd_with_tab (align_to_size p l1_tbl_size)
       (align_to_size (val_memory_virt_to_phys p) l1_tbl_size)))) ;;
  ret 1.

Definition smmu_cdtab_alloc (fuel : nat) (mp : Z) : E D Z :=
  let! m := master_get mp in
  require (s1cdmax (stage1 m) <? 31) ;;
  let cdmax := 1 << s1cdmax (stage1 m) in
  let! two := master_cd2l m in
  if two && (CDTAB_L2_ENTRY_COUNT <? cdmax) then
    master_upd mp (upd_s1 (s1_with_fmt STRTAB_STE_0_S1FMT_64K_L2)) ;;
    let n := (cdmax + CDTAB_L2_ENTRY_COUNT - 1) / CDTAB_L2_ENTRY_COUNT in
    master_upd mp (upd_s1 (upd_cdcfg (cd_with_count n))) ;;
    let! p := val_memory_calloc fuel n sizeof_cdtab_l1_desc BYTES_PER_DWORD in
    master_upd mp (upd_s1 (upd_cdcfg (cd_with_l1 p))) ;;
    if p =? 0 then ret 0 else
    for_range 0 n (fun k => cl1_put (p + sizeof_cdtab_l1_desc * k) zero_cl1) ;;
    cdtab_alloc_table fuel mp (n * (CDTAB_L1_DESC_DWORDS << 3))
  else
    master_upd mp (upd_s1 (s1_with_fmt STRTAB_STE_0_S1FMT_LINEAR)) ;;
    master_upd mp (upd_s1 (upd_cdcfg (cd_with_count (u32 cdmax)))) ;;
    cdtab_alloc_table fuel mp (cdmax * (CDTAB_CD_DWORDS << 3)).

(** ** Masters *)

(** The [while (node != NULL)] search. *)
Fixpoint find_master (sid : Z) (nodes : list (Z * Z)) : E D (option Z) :=
  match nodes with
  | [] => ret None
  | (_, mp) :: nodes' =>
      let! m := master_get mp in
      if m_sid m =? sid then ret (Some mp) else find_master sid nodes'
  end.

Definition smmu_master_at (fuel : nat) (sid : Z) : E D Z :=
  let! nodes := glob master_list in
  let! found := find_master sid nodes in
  match found with
  | Some mp => ret mp
  | None =>
      let! node := val_memory_alloc fuel sizeof_master_node BYTES_PER_DWORD in
      if node =? 0 then ret 0 else
      let! mp := val_memory_calloc fuel 1 sizeof_smmu_master BYTES_PER_DWORD in
      if mp =? 0 then val_memory_free fuel node ;; ret 0 else
      upd_glob (set_masters (insert mp zero_master)) ;;
      upd_glob (set_master_list ((node, mp) :: nodes)) ;;
      ret mp
  end.

(** ** Map, unmap, init, stop *)

(** The choice of translation stage; [None] when the SMMU does not support it. *)
Definition select_stage (a : smmu_master_attributes) (smmu : smmu_dev) (mp : Z) : E D bool :=
  let! s2 := use (a_stage2 a) in
  if truthy s2 then
    if negb (s2p (supported smmu)) then ret false
    else master_upd mp (with_stage SMMU_STAGE_S2) ;; ret true
  else
    let! bypass := use (a_bypass a) in
    if truthy bypass then master_upd mp (with_stage SMMU_STAGE_BYPASS) ;; ret true
    else if negb (s1p (supported smmu)) then ret false
    else master_upd mp (with_stage SMMU_STAGE_S1) ;;
         let! ssid := use (a_substreamid a) in
         master_upd mp (with_ssid ssid) ;;
         ret true.

Definition stage2_vtcr (t : tcr_el3_info) (irgn : Z) : Z :=
  bf_set 5 0 (tcr_tsz t) .| bf_set 7 6 (tcr_sh t) .| bf_set 9 8 irgn .|
  bf_set 11 10 (tcr_orgn t) .| bf_set 13 12 (tcr_sh t) .| bf_set 15 14 (tcr_tg t) .|
  bf_set 18 16 (tcr_ps t).

Definition stage1_tcr (t : tcr_el3_info) (irgn : Z) : Z :=
  bf_set 5 0 (tcr_tsz t) .| bf_set 7 6 (tcr_tg t) .| bf_set 9 8 irgn .|
  bf_set 11 10 (tcr_orgn t) .| bf_set 13 12 (tcr_sh t) .| bf_set 34 32 (tcr_ps t) .|
  CDTAB_CD_0_TCR_EPD1 .| CDTAB_CD_0_AA64.

(** The stage 2 configuration of the master. *)
Definition config_stage2 (pgt : pgt_descriptor) (mp : Z) : E D unit :=
  let! irgn := use (tcr_irgn (pgt_tcr pgt)) in
  master_upd mp (with_stage2 (mk_s2 0 (pgt_base pgt) (stage2_vtcr (pgt_tcr pgt) irgn))).

(** The stage 1 configuration and its context descriptor; [false] on failure. *)
Definition config_stage1 (fuel : nat) (pgt : pgt_descriptor) (mp : Z) : E D bool :=
  master_upd mp (fun m => upd_s1 (s1_with_max (u8 (m_ssid_bits m))) m) ;;
  let! m := master_get mp in
  let! ok := (if cdtab_ptr (cdcfg (stage1 m)) =? 0 then smmu_cdtab_alloc fuel mp
              else ret 1) in
  if ok =? 0 then ret false else
  let! irgn := use (tcr_irgn (pgt_tcr pgt)) in
  let cd := mk_cd 0 (pgt_base pgt) (stage1_tcr (pgt_tcr pgt) irgn) (pgt_mair pgt) in
  master_upd mp (upd_s1 (s1_with_cd cd)) ;;
  let! r := smmu_cdtab_write_ctx_desc fuel mp (m_ssid m) cd in
  ret (truthy r).

Definition val_smmu_rlm_map (fuel : nat) (a : smmu_master_attributes)
    (pgt : pgt_descriptor) : E D Z :=
  upd_glob (set_g_sid (a_streamid a)) ;;
  let! g := glob g_smmu in
  match g with
  | None => ret 1
  | Some _ =>
    let! smmu_index := use (a_smmu_index a) in
    let! n := glob g_num_smmus in
    if n <=? smmu_index then ret 1 else
    let i := Z.to_nat smmu_index in
    let! smmu := smmu_at i in
    if smmu_base smmu =? 0 then ret 1 else
    let! mp := smmu_master_at fuel (a_streamid a) in
    if mp =? 0 then ret 1 else
    let! m := master_get mp in
    (match m_smmu m with
     | None => let! bits := use (a_ssid_bits a) in
               master_upd mp (with_owner i (a_streamid a) bits)
     | Some _ => ret tt
     end) ;;
    let! ok := select_stage a smmu mp in
    if negb ok then ret 1 else
    if (1 << smmu_sid_bits smmu) <=? a_streamid a then ret 1 else
    let! r := (if st_level_2lvl (supported smmu) then
                 let! sid := glob g_sid in smmu_strtab_init_level2 fuel i sid
               else ret 1) in
    if r =? 0 then ret 1 else
    let! m := master_get mp in
    (when bool_decide (stage m = SMMU_STAGE_S2) then config_stage2 pgt mp) ;;
    let! ok := (if bool_decide (stage m = SMMU_STAGE_S1) then config_stage1 fuel pgt mp
                else ret true) in
    if negb ok then ret 1 else
    let! m := master_get mp in
    let! ste := smmu_strtab_get_ste_for_sid i (m_sid m) in
    smmu_strtab_write_ste fuel (Some m) ste i ;;
    smmu_tlbi_cfgi fuel i ;;
    ret 0
  end.

Definition val_smmu_unmap (fuel : nat) (a : smmu_master_attributes) : E D unit :=
  let! smmu_index := use (a_smmu_index a) in
  let i := Z.to_nat smmu_index in
  let! smmu := smmu_at i in
  if smmu_base smmu =? 0 then ret tt else
  let! mp := smmu_master_at fuel (a_streamid a) in
  if mp =? 0 then ret tt else
  let! m := master_get mp in
  match m_smmu m with
  | None => ret tt
  | Some j =>
      let! owner := smmu_at j in
      if (1 << smmu_sid_bits owner) <=? a_streamid a then ret tt else
      let strtab := u64 (strtab64 (strtab_cfg owner) +
                         8 * u32 (a_streamid a * STRTAB_STE_DWORDS)) in
      smmu_strtab_write_ste fuel None strtab i ;;
      smmu_cdtab_free fuel mp ;;
      smmu_tlbi_cfgi fuel j ;;
      upd_glob (set_masters (insert mp zero_master))
  end.

Definition smmu_init (fuel : nat) (i : nat) : E D Z :=
  let! smmu := smmu_at i in
  if smmu_base smmu =? 0 then ret 1 else
  let! r := smmu_probe i in
  if r =? 0 then ret 1 else
  let! r := smmu_cmd_queue_init fuel i in
  if r =? 0 then ret 1 else
  let! r := smmu_event_queue_init fuel i in
  if r =? 0 then ret 1 else
  let! r := smmu_strtab_init fuel i in
  if r =? 0 then ret 1 else
  let! r := smmu_reset fuel i in
  if r =? 0 then ret 1 else
  ret 0.

(** One SMMU of [val_smmu_stop]. *)
Definition smmu_stop_one (fuel : nat) (k : Z) : E D unit :=
  let i := Z.to_nat k in
  let! smmu := smmu_at i in
  if smmu_base smmu =? 0 then ret tt else
  let! _r := smmu_dev_disable fuel i in
  (when truthy (q_base_ptr (cmd_type smmu)) then
     val_memory_free fuel (q_base_ptr (cmd_type smmu))) ;;
  smmu_free_strtab fuel i.

Definition val_smmu_stop (fuel : nat) : E D unit :=
  let! n := glob g_num_smmus in
  for_range 0 n (smmu_stop_one fuel) ;;
  let! p := glob g_smmu_addr in
  val_memory_free fuel p.

(** One turn of the scan loop of [val_smmu_init]. *)
Definition smmu_init_step (fuel : nat) (k : Z) (_u : unit) : E D (unit + Z) :=
  let i := Z.to_nat k in
  let! aidr := val_mmio_read (ROOT_IOVIRT_SMMUV3_BASE + SMMU_AIDR_OFFSET) in
  if negb (aidr .& 0xFF =? 3) then ret (inl tt) else
  smmu_upd i (with_base ROOT_IOVIRT_SMMUV3_BASE) ;;
  let! r := smmu_init fuel i in
  if truthy r then smmu_upd i (with_base 0) ;; ret (inr 1) else ret (inl tt).

Definition val_smmu_init (fuel : nat) (num_smmu : Z) : E D Z :=
  upd_glob (set_g_num num_smmu) ;;
  if num_smmu =? 0 then ret 1 else
  let! p := val_memory_calloc fuel num_smmu sizeof_smmu_dev BYTES_PER_DWORD in
  upd_glob (set_g_smmu_addr p) ;;
  if p =? 0 then upd_glob (set_g_smmu None) ;; ret 1 else
  upd_glob (set_g_smmu (Some (repeat zero_smmu (Z.to_nat num_smmu)))) ;;
  let! r := for_acc (Z.to_nat num_smmu) 0 tt (smmu_init_step fuel) in
  match r with inl _ => ret 0 | inr v => ret v end.
End code.
