(* ===== verification/SmmuSpec.v ===== *)
(** * SmmuSpec

    Properties of the Realm SMMUv3 driver modelled in [SmmuRealm]: the command
    queue as a ring, the wait loops, table placement, reset and unmap. *)

From Stdlib Require Import ZArith Lia Bool List.
From stdpp Require Import base tactics numbers list gmap option.
From S2P Require Import Prelude Memory El3State PoolAlloc SmmuRealm.

(** ** The ring *)

(** Entries between the consumer and the producer, the wrap bit included. *)
Definition q_used (q : smmu_queue) : Z := (q_prod q - q_cons q) mod (2 * 2 ^ log2nent q).
Definition q_ok (q : smmu_queue) : Prop :=
  0 <= log2nent q < 31 /\ 0 <= q_prod q < 2 * 2 ^ log2nent q /\
  0 <= q_cons q < 2 * 2 ^ log2nent q /\ q_used q <= 2 ^ log2nent q.

Lemma index_bits l x : 0 <= l < 31 -> x .& u32 ((1 << l) - 1) = x mod 2 ^ l.
Proof.
  intros Hl. pose proof (Z.pow_le_mono_r 2 l 30 ltac:(lia) ltac:(lia)).
  pose proof (Z.pow_pos_nonneg 2 l ltac:(lia) ltac:(lia)).
  rewrite shl1_sub1. unfold u32. rewrite wrap_small by (rewrite Z.ones_equiv; lia).
  by rewrite Z.land_ones by lia.
Qed.

Lemma wrap_bit l x : 0 <= l < 31 -> 0 <= x < 2 * 2 ^ l ->
  x .& u32 (1 << l) = if x <? 2 ^ l then 0 else 2 ^ l.
Proof.
  intros Hl Hx. pose proof (Z.pow_le_mono_r 2 l 30 ltac:(lia) ltac:(lia)).
  pose proof (Z.pow_pos_nonneg 2 l ltac:(lia) ltac:(lia)).
  rewrite Z.shiftl_1_l. unfold u32. rewrite wrap_small by lia.
  assert (2 * 2 ^ l = 2 ^ (l + 1)) as E by (rewrite Z.pow_add_r by lia; lia).
  apply Z.bits_inj'. intros i Hi. rewrite Z.land_spec, Z.pow2_bits_eqb by lia.
  destruct (Z.ltb_spec x (2 ^ l)) as [Hlt|Hge].
  - rewrite Z.bits_0. destruct (Z.eqb_spec l i) as [<-|]; [|by rewrite andb_false_r].
    by rewrite (testbit_high l) by lia.
  - rewrite Z.pow2_bits_eqb by lia. destruct (Z.eqb_spec l i) as [<-|]; [|by rewrite andb_false_r].
    rewrite andb_true_r. rewrite Z.testbit_true by lia.
    assert (x / 2 ^ l = 1) as ->; [|done].
    symmetry. apply Z.div_unique with (x - 2 ^ l); lia.
Qed.

(** The two halves of an index. *)
Lemma split_index n x : 0 < n -> 0 <= x < 2 * n ->
  x mod n = if x <? n then x else x - n.
Proof.
  intros Hn Hx. destruct (Z.ltb_spec x n); [apply Z.mod_small; lia|].
  replace x with ((x - n) + 1 * n) at 1 by lia. rewrite Z.mod_add by lia.
  apply Z.mod_small. lia.
Qed.

Lemma used_cases n p c : 0 < n -> 0 <= p < 2 * n -> 0 <= c < 2 * n ->
  (p - c) mod (2 * n) = if c <=? p then p - c else p - c + 2 * n.
Proof.
  intros Hn Hp Hc. destruct (Z.leb_spec c p); [apply Z.mod_small; lia|].
  replace (p - c) with ((p - c + 2 * n) + (-1) * (2 * n)) at 1 by lia.
  rewrite Z.mod_add by lia. apply Z.mod_small. lia.
Qed.

(** C11. The command queue is a ring with a wrap bit: on well-formed indices
    [smmu_queue_full] holds exactly when all the entries are used,
    [smmu_queue_empty] exactly when none is, and [smmu_cmdq_inc_prod] of a
    queue that is not full gives well-formed indices with one more entry. *)
Theorem smmu_queue_ring q : q_ok q ->
  smmu_queue_full q = (q_used q =? 2 ^ log2nent q) /\
  smmu_queue_empty q = (q_used q =? 0) /\
  (smmu_queue_full q = false ->
     let q' := mk_queue (smmu_cmdq_inc_prod q) (q_cons q) (log2nent q) in
     q_ok q' /\ q_used q' = q_used q + 1).
Proof.
  destruct q as [p c l]. unfold q_ok, q_used, smmu_queue_full, smmu_queue_empty.
  cbn [q_prod q_cons log2nent]. intros (Hl & Hp & Hc & Hu).
  pose proof (Z.pow_pos_nonneg 2 l ltac:(lia) ltac:(lia)) as Hn.
  pose proof (Z.pow_le_mono_r 2 l 30 ltac:(lia) ltac:(lia)) as Hn2.
  assert (smmu_cmdq_inc_prod (mk_queue p c l) = (p + 1) mod (2 * 2 ^ l)) as Einc.
  { unfold smmu_cmdq_inc_prod. cbn [q_prod log2nent].
    rewrite shl1_sub1, Z.land_ones by lia.
    replace (2 ^ (l + 1)) with (2 * 2 ^ l) by (rewrite Z.pow_add_r by lia; lia).
    pose proof (Z.mod_pos_bound (p + 1) (2 * 2 ^ l) ltac:(lia)). apply wrap_small. lia. }
  rewrite Einc, !index_bits, !wrap_bit by done. set (n := 2 ^ l) in *.
  rewrite !(split_index n) by lia. rewrite (used_cases n p c) in * by lia.
  assert ((p + 1) mod (2 * n) = if p + 1 =? 2 * n then 0 else p + 1) as ->.
  { destruct (Z.eqb_spec (p + 1) (2 * n)) as [->|]; [apply Z.mod_same; lia|].
    apply Z.mod_small. lia. }
  split; [|split].
  - destruct (Z.ltb_spec p n), (Z.ltb_spec c n), (Z.leb_spec c p); zbool.
  - destruct (Z.ltb_spec p n), (Z.ltb_spec c n), (Z.leb_spec c p); zbool.
  - intros Hf.
    assert ((if c <=? p then p - c else p - c + 2 * n) <> n) as Hne.
    { intros E. revert Hf. destruct (Z.ltb_spec p n), (Z.ltb_spec c n), (Z.leb_spec c p); zbool. }
    destruct (Z.eqb_spec (p + 1) (2 * n)); rewrite (used_cases n _ c) by lia;
      destruct (Z.leb_spec c p); zbool.
Qed.

Lemma smmu_queue_ring_witness :
  smmu_queue_full (mk_queue 9 1 3) = true /\ smmu_queue_empty (mk_queue 9 9 3) = true.
Proof.
  assert (q_ok (mk_queue 9 1 3)) as H1 by (by vm_compute).
  assert (q_ok (mk_queue 9 9 3)) as H2 by (by vm_compute).
  split; [rewrite (proj1 (smmu_queue_ring _ H1))|
          rewrite (proj1 (proj2 (smmu_queue_ring _ H2)))]; reflexivity.
Defined.

(** ** Placement of the tables *)

(** [align_to_size] of an allocation twice the size of a table: the result
    is aligned to the table's size and the table fits in the allocation. *)
Theorem align_to_size_fits addr k : 0 <= k < 62 -> 0 <= addr -> addr + 2 * 2 ^ k <= 2 ^ 64 ->
  let t := align_to_size addr (2 ^ k) in
  aligned t (2 ^ k) /\ addr < t /\ t + 2 ^ k <= addr + 2 * 2 ^ k.
Proof.
  intros Hk Ha Hw t. pose proof (Z.pow_pos_nonneg 2 k ltac:(lia) ltac:(lia)) as Hp.
  assert (t = addr - addr mod 2 ^ k + 2 ^ k) as ->.
  { unfold t, align_to_size. unfold u64 at 3. rewrite (wrap_small 64 (2 ^ k - 1)) by lia.
    unfold u64 at 3. rewrite (wrap_small 64 (2 ^ k - 1)) by lia.
    replace (addr .& (2 ^ k - 1)) with (addr mod 2 ^ k).
    2:{ rewrite <- Z.land_ones by lia. f_equal. rewrite Z.ones_equiv. lia. }
    pose proof (Z.mod_pos_bound addr (2 ^ k) ltac:(lia)).
    unfold u64 at 2. rewrite wrap_small by lia.
    pose proof (Z.mod_le addr (2 ^ k) Ha ltac:(lia)).
    replace (2 ^ k - addr mod 2 ^ k + addr) with (addr - addr mod 2 ^ k + 2 ^ k) by lia.
    unfold u64. destruct (Z.eq_dec (addr - addr mod 2 ^ k + 2 ^ k) (2 ^ 64)) as [E|E].
    { exfalso. assert (addr + 2 ^ k < 2 ^ 64) by lia. lia. }
    rewrite wrap_small by lia. rewrite round_down by lia.
    assert ((addr - addr mod 2 ^ k + 2 ^ k) mod 2 ^ k = 0) as ->; [|lia].
    pose proof (Z.div_mod addr (2 ^ k) ltac:(lia)).
    replace (addr - addr mod 2 ^ k + 2 ^ k) with ((addr / 2 ^ k + 1) * 2 ^ k) by lia.
    by apply Z.mod_mul; lia. }
  pose proof (Z.mod_pos_bound addr (2 ^ k) ltac:(lia)).
  split; [|lia]. unfold aligned. pose proof (Z.div_mod addr (2 ^ k) ltac:(lia)).
  replace (addr - addr mod 2 ^ k + 2 ^ k) with ((addr / 2 ^ k + 1) * 2 ^ k) by lia.
  apply Z.mod_mul. lia.
Qed.

Lemma align_to_size_fits_witness :
  let t := align_to_size 0x880401000 (2 ^ 14) in
  aligned t (2 ^ 14) /\ 0x880401000 < t /\ t + 2 ^ 14 <= 0x880401000 + 2 * 2 ^ 14.
Proof. apply (align_to_size_fits 0x880401000 14); lia. Defined.

(** ** The driver's calls *)

Section driver.
Context {D : Type} {HW : Hw D}.
Implicit Types s : el3 D.

Definition smmu_is (i : nat) (d : smmu_dev) (s : el3 D) : Prop :=
  exists l, g_smmu (e_smmu s) = Some l /\ nth_error l i = Some d.

Lemma wp_smmu_at i d (Q : smmu_dev -> el3 D -> Prop) s :
  smmu_is i d s -> Q d s -> wp (smmu_at i) Q s.
Proof.
  intros (l & Hl & Hi) HQ. unfold smmu_at, glob. apply wp_bind, wp_gets.
  rewrite Hl, Hi. by apply wp_ret.
Qed.

(** Device accesses leave the driver's structures and memory alone. *)
Definition io_only s s' : Prop :=
  e_smmu s' = e_smmu s /\ e_mem s' = e_mem s /\ e_sys s' = e_sys s /\
  e_shared s' = e_shared s /\ e_free_list s' = e_free_list s.
Lemma io_only_refl s : io_only s s.
Proof. done. Qed.
Lemma io_only_trans s1 s2 s3 : io_only s1 s2 -> io_only s2 s3 -> io_only s1 s3.
Proof. unfold io_only. intuition congruence. Qed.

Lemma wp_io_read n a (Q : Z -> el3 D -> Prop) s :
  (forall v s', io_only s s' -> 0 <= v < 2 ^ (8 * Z.of_nat n) -> Q v s') ->
  wp (io_read n a) Q s.
Proof.
  intros H. unfold io_read, wp. destruct (hw_read n (e_dev s) a) as [v d].
  apply H; [done|]. apply wrap_range. lia.
Qed.

Lemma wp_io_write n a v (Q : unit -> el3 D -> Prop) s :
  (forall s', io_only s s' -> Q tt s') -> wp (io_write n a v) Q s.
Proof. intros H. unfold io_write, wp. by apply H. Qed.

Definition is_read (e : ev) : Prop :=
  match e with EvRead _ _ _ => True | _ => False end.
(** At most k reads of device registers, nothing else. *)
Definition reads (k : Z) s s' : Prop :=
  io_only s s' /\ exists evs, e_trace s' = evs ++ e_trace s /\
    Forall is_read evs /\ Z.of_nat (length evs) <= k.
Lemma reads_refl s : reads 0 s s.
Proof. split; [done|]. exists []. by repeat split. Qed.
Lemma reads_trans k1 k2 s1 s2 s3 : reads k1 s1 s2 -> reads k2 s2 s3 -> reads (k1 + k2) s1 s3.
Proof.
  intros [H1 (e1 & E1 & F1 & L1)] [H2 (e2 & E2 & F2 & L2)].
  split; [by eapply io_only_trans|]. exists (e2 ++ e1). rewrite E2, E1, app_assoc.
  split; [done|]. split; [by apply Forall_app|]. rewrite length_app. lia.
Qed.
Lemma reads_mono k k' s s' : k <= k' -> reads k s s' -> reads k' s s'.
Proof. intros Hk [H (e & ? & ? & ?)]. split; [done|]. exists e. intuition lia. Qed.
Lemma wp_reads n a (Q : Z -> el3 D -> Prop) s :
  (forall v s', reads 1 s s' -> Q v s') -> wp (io_read n a) Q s.
Proof.
  intros H. unfold io_read, wp. destruct (hw_read n (e_dev s) a) as [v d].
  apply H. split; [done|]. eexists [_]. split; [done|]. split; [by constructor|done].
Qed.

(** The polling loop reads CONS until the ring is empty or the time is up. *)
Lemma poll_loop cmdq prod fuel timeout cns s :
  0 <= timeout -> (Z.to_nat timeout < fuel)%nat ->
  wp (loop fuel (poll_step cmdq prod) (timeout, cns)) (fun _ s' => reads timeout s s') s.
Proof.
  intros Ht Hf.
  apply (wp_loop (fun (n : nat) (x : Z * Z) s' => (0 <= fst x <= timeout) /\ n = Z.to_nat (fst x) /\ reads (timeout - fst x) s s')
    (poll_step cmdq prod) (fun _ s' => reads timeout s s')) with (n := Z.to_nat timeout);
    [|done|split; [cbn; lia|split; [done|]]].
  2:{ cbn [fst]. rewrite Z.sub_diag. apply reads_refl. }
  clear fuel Hf. intros n [t c] s1 (Hb & -> & Hio). cbn [fst] in *. unfold poll_step.
  assert (reads timeout s s1) by (eapply reads_mono; [|exact Hio]; lia).
  destruct (Z.ltb_spec 0 t); [|by apply wp_ret].
  destruct (smmu_queue_empty _); [by apply wp_ret|].
  apply wp_bind, wp_reads. intros v s' Hio'. apply wp_ret.
  exists (Z.to_nat (t - 1)). cbn [fst]. split; [lia|]. split; [lia|]. split; [done|].
  replace (timeout - (t - 1)) with (timeout - t + 1) by lia. by apply (reads_trans _ _ s s1).
Qed.

(** C20. [smmu_cmdq_poll_until_consumed] ends whatever the device answers: with
    fuel above the timeout it returns; it has then made at most the timeout's
    number of register reads and five more, no register write, and it changes
    neither memory nor the driver's structures. *)
Theorem poll_terminates fuel i d s : smmu_is i d s -> (Z.to_nat 0x100000 < fuel)%nat ->
  wp (smmu_cmdq_poll_until_consumed fuel i)
    (fun _ s' => reads (SMMU_CMDQ_POLL_TIMEOUT + 5) s s') s.
Proof.
  intros Hi Hf. unfold smmu_cmdq_poll_until_consumed.
  apply wp_bind, (wp_smmu_at i d); [done|].
  apply wp_bind, wp_reads. intros prod s1 H1.
  apply wp_bind, wp_reads. intros cns s2 H2.
  apply wp_bind. eapply wp_mono; [|apply poll_loop; [vm_compute; discriminate|exact Hf]].
  intros timeout s3 H3. pose proof (reads_trans _ _ _ _ _ (reads_trans _ _ _ _ _ H1 H2) H3) as H.
  destruct (timeout =? 0); [|apply wp_ret; eapply reads_mono; [|exact H]; vm_compute; discriminate].
  apply wp_bind, wp_reads. intros ? s4 H4.
  apply wp_bind, wp_reads. intros ? s5 H5.
  apply wp_bind, wp_reads. intros ? s6 H6. apply wp_ret.
  eapply reads_mono; [|exact (reads_trans _ _ _ _ _ (reads_trans _ _ _ _ _
    (reads_trans _ _ _ _ _ H H4) H5) H6)]. vm_compute; discriminate.
Qed.

(** [smmu_reg_write_sync]: 0 when the acknowledge register shows the value in
    time, else 1. *)
Lemma sync_loop ack val fuel timeout s : 0 <= timeout -> (Z.to_nat timeout < fuel)%nat ->
  wp (loop fuel (sync_step ack val) timeout)
    (fun r s' => (r = 0 \/ r = 1) /\ io_only s s') s.
Proof.
  intros Ht Hf.
  apply (wp_loop (fun n x s' => 0 <= x /\ n = Z.to_nat x /\ io_only s s')
    (sync_step ack val) (fun r s' => (r = 0 \/ r = 1) /\ io_only s s'))
    with (n := Z.to_nat timeout); [|done|done].
  clear. intros n timeout s1 (Ht & -> & Hio). unfold sync_step.
  destruct (Z.eqb_spec timeout 0); [apply wp_ret; auto|].
  apply wp_bind, wp_io_read. intros v s' Hio' _.
  destruct (v =? val); apply wp_ret; [eauto using io_only_trans|].
  exists (Z.to_nat (timeout - 1)). split; [lia|]. split; [lia|].
  split; [done|]. by apply (io_only_trans s s1).
Qed.

Lemma reg_write_sync_spec fuel i d v reg_off ack_off s :
  smmu_is i d s -> (Z.to_nat 0x1000000 < fuel)%nat ->
  wp (smmu_reg_write_sync fuel i v reg_off ack_off)
    (fun r s' => (r = 0 \/ r = 1) /\ io_only s s') s.
Proof.
  intros Hi Hf. unfold smmu_reg_write_sync. apply wp_bind, (wp_smmu_at i d); [done|].
  apply wp_bind, wp_io_write. intros s1 H1.
  eapply wp_mono; [|apply sync_loop; [vm_compute; discriminate|exact Hf]].
  intros r s2 [Hr H2]. eauto using io_only_trans.
Qed.

Lemma smmu_is_io i d s s' : smmu_is i d s -> io_only s s' -> smmu_is i d s'.
Proof. intros Hi (Hs & _). unfold smmu_is. by rewrite Hs. Qed.
Lemma smmu_is_eq i d s s' : smmu_is i d s -> e_smmu s' = e_smmu s -> smmu_is i d s'.
Proof. intros Hi Hs. unfold smmu_is. by rewrite Hs. Qed.

(** The wait for a free slot looks at the software indices only: it is over
    at once, or turns until the timeout is used up. *)
Lemma wait_loop q fuel timeout s : 0 <= timeout -> (Z.to_nat timeout < fuel)%nat ->
  loop fuel (wait_not_full q) timeout s =
  Done (if smmu_queue_full q then 0 else timeout) s.
Proof.
  revert timeout. induction fuel as [|fuel IH]; intros timeout Ht Hf; [lia|].
  cbn [loop]. unfold bind, wait_not_full at 1.
  destruct (smmu_queue_full q) eqn:Hq; cbn [andb]; [|done].
  unfold truthy. destruct (Z.eqb_spec timeout 0) as [->|Hn]; [done|].
  cbn [negb]. unfold ret. rewrite IH by lia. done.
Qed.

(** The slot of the next command and the published index. *)
Definition cmd_slot (cmdq : smmu_queue_type) (prod : Z) : Z :=
  q_base cmdq + 16 * (prod mod 2 ^ log2nent (queue cmdq)).

(** C19. [smmu_cmdq_write_cmd] on a queue whose software copy is not full:
    the two dwords go to the slot of the producer index read from the device,
    inside the queue's memory, nothing else is written, and the producer
    register gets the next index modulo twice the queue size. *)
Theorem write_cmd_spec fuel i d c0 c1 prod dev s :
  smmu_is i d s -> (Z.to_nat 0x100000 < fuel)%nat ->
  let cmdq := cmd_type d in
  let n := 2 ^ log2nent (queue cmdq) in
  smmu_queue_full (queue cmdq) = false -> 0 <= log2nent (queue cmdq) < 31 ->
  entry_size cmdq = 16 -> 0 <= q_base cmdq -> q_base cmdq + 16 * n <= 2 ^ 64 ->
  0 <= c0 < 2 ^ 64 -> 0 <= c1 < 2 ^ 64 ->
  hw_read 4 (e_dev s) (prod_reg cmdq) = (prod, dev) -> 0 <= prod < 2 ^ 32 ->
  wp (smmu_cmdq_write_cmd fuel i (c0, c1))
    (fun r s' => let dst := cmd_slot cmdq prod in
       r = 0 /\ q_base cmdq <= dst /\ dst + 16 <= q_base cmdq + 16 * n /\
       load64 (e_mem s') dst = c0 /\ load64 (e_mem s') (dst + 8) = c1 /\
       only_at (fun b => dst <= b < dst + 16) (e_mem s) (e_mem s') /\
       e_trace s' = EvWrite 4 (prod_reg cmdq) ((prod + 1) mod (2 * n)) ::
                    EvRead 4 (prod_reg cmdq) prod :: e_trace s) s.
Proof.
  intros Hi Hf cmdq n Hq Hl He Hb0 Hb Hc0 Hc1 Hrd Hp.
  pose proof (Z.pow_pos_nonneg 2 (log2nent (queue cmdq)) ltac:(lia) ltac:(lia)) as Hn.
  pose proof (Z.pow_le_mono_r 2 (log2nent (queue cmdq)) 30 ltac:(lia) ltac:(lia)) as Hn2.
  fold n in Hn, Hn2.
  pose proof (Z.mod_pos_bound prod n Hn) as Hm.
  unfold smmu_cmdq_write_cmd. apply wp_bind, (wp_smmu_at i d); [done|]. fold cmdq.
  unfold wp. rewrite (bind_done _ _ s _ s (wait_loop (queue cmdq) fuel SMMU_CMDQ_POLL_TIMEOUT s
    ltac:(vm_compute; discriminate) Hf)).
  rewrite Hq. change (SMMU_CMDQ_POLL_TIMEOUT =? 0) with false. cbv iota.
  unfold val_mmio_read, io_read. unfold bind at 1. rewrite Hrd.
  rewrite (wrap_small (8 * Z.of_nat 4) prod) by done. cbn [q_prod log2nent].
  assert (u64 (q_base cmdq + (prod .& ((1 << log2nent (queue cmdq)) - 1)) * entry_size cmdq)
          = cmd_slot cmdq prod) as ->.
  { unfold cmd_slot. rewrite shl1_sub1, Z.land_ones, He by lia. fold n.
    unfold u64. rewrite wrap_small; lia. }
  set (dst := cmd_slot cmdq prod).
  assert (dst = q_base cmdq + 16 * (prod mod n)) as Ed by done.
  assert (smmu_cmdq_inc_prod (mk_queue prod 0 (log2nent (queue cmdq))) =
          (prod + 1) mod (2 * n)) as ->.
  { unfold smmu_cmdq_inc_prod. cbn [q_prod log2nent].
    rewrite shl1_sub1, Z.land_ones by lia. rewrite Z.pow_add_r by lia. fold n.
    change (2 ^ 1) with 2. rewrite (Z.mul_comm n).
    pose proof (Z.mod_pos_bound (prod + 1) (2 * n) ltac:(lia)). apply wrap_small. lia. }
  unfold val_mmio_write, io_write. el3_run. cbn [fst snd].
  split; [done|]. split; [lia|]. split; [lia|].
  split; [|split; [by apply load64_store64|split; [|done]]].
  - rewrite load64_store64_ne by (unfold disjoint_rng; lia). by apply load64_store64.
  - transitivity (store64 (e_mem s) dst c0); apply only_at_store; lia.
Qed.

(** ** Reset *)

Lemma write_cmd_total fuel i d cmd s : smmu_is i d s -> (Z.to_nat 0x100000 < fuel)%nat ->
  wp (smmu_cmdq_write_cmd fuel i cmd) (fun _ s' => e_smmu s' = e_smmu s) s.
Proof.
  intros Hi Hf. unfold smmu_cmdq_write_cmd. apply wp_bind, (wp_smmu_at i d); [done|].
  unfold wp. rewrite (bind_done _ _ s _ s (wait_loop (queue (cmd_type d)) fuel
    SMMU_CMDQ_POLL_TIMEOUT s ltac:(vm_compute; discriminate) Hf)).
  destruct (smmu_queue_full _); [done|].
  change (SMMU_CMDQ_POLL_TIMEOUT =? 0) with false. cbv iota.
  unfold val_mmio_read, io_read. unfold bind at 1.
  destruct (hw_read 4 _ _) as [v dv].
  unfold val_mmio_write, io_write. by el3_run.
Qed.

Lemma issue_cmd_total fuel i d op s : smmu_is i d s -> (Z.to_nat 0x100000 < fuel)%nat ->
  wp (smmu_cmdq_issue_cmd fuel i op) (fun _ s' => e_smmu s' = e_smmu s) s.
Proof.
  intros Hi Hf. unfold smmu_cmdq_issue_cmd, glob. apply wp_bind, wp_gets.
  destruct (smmu_cmdq_build_cmd _ _); [by apply (write_cmd_total fuel i d)|by apply wp_ret].
Qed.

Lemma poll_io fuel i d s : smmu_is i d s -> (Z.to_nat 0x100000 < fuel)%nat ->
  wp (smmu_cmdq_poll_until_consumed fuel i) (fun _ s' => io_only s s') s.
Proof.
  intros Hi Hf. unfold smmu_cmdq_poll_until_consumed.
  apply wp_bind, (wp_smmu_at i d); [done|].
  apply wp_bind, wp_io_read. intros prod s1 H1 _.
  apply wp_bind, wp_io_read. intros cns s2 H2 _. pose proof (io_only_trans _ _ _ H1 H2) as H12.
  apply wp_bind. eapply wp_mono; [|apply poll_loop; [vm_compute; discriminate|exact Hf]].
  intros timeout s3 [H3 _]. pose proof (io_only_trans _ _ _ H12 H3) as H13.
  destruct (timeout =? 0); [|by apply wp_ret].
  apply wp_bind, wp_io_read. intros ? s4 H4 _.
  apply wp_bind, wp_io_read. intros ? s5 H5 _. pose proof (io_only_trans _ _ _ H4 H5) as H45.
  apply wp_bind, wp_io_read. intros ? s6 H6 _. apply wp_ret.
  exact (io_only_trans _ _ _ H13 (io_only_trans _ _ _ H45 H6)).
Qed.

Lemma poll_total fuel i d s : smmu_is i d s -> (Z.to_nat 0x100000 < fuel)%nat ->
  wp (smmu_cmdq_poll_until_consumed fuel i) (fun _ s' => e_smmu s' = e_smmu s) s.
Proof.
  intros Hi Hf. eapply wp_mono; [|by apply (poll_io fuel i d)]. by intros ? s' [H _].
Qed.

Lemma tlbi_cfgi_total fuel i d s : smmu_is i d s -> (Z.to_nat 0x100000 < fuel)%nat ->
  wp (smmu_tlbi_cfgi fuel i) (fun _ s' => e_smmu s' = e_smmu s) s.
Proof.
  intros Hi Hf. unfold smmu_tlbi_cfgi.
  apply wp_bind. eapply wp_mono; [|by apply (issue_cmd_total fuel i d)]. intros ? s1 H1.
  pose proof (smmu_is_eq _ _ _ _ Hi H1) as Hi1.
  apply wp_bind, (wp_smmu_at i d); [done|]. apply wp_bind.
  eapply (wp_mono _ (fun _ s2 => e_smmu s2 = e_smmu s)).
  2:{ destruct (hyp (supported d)); [|by apply wp_ret].
      apply wp_bind. eapply wp_mono; [|by apply (issue_cmd_total fuel i d)].
      intros ? s2 H2. apply wp_ret. congruence. }
  intros ? s2 H2. pose proof (smmu_is_eq _ _ _ _ Hi H2) as Hi2.
  apply wp_bind. eapply wp_mono; [|by apply (issue_cmd_total fuel i d)]. intros ? s3 H3.
  pose proof (smmu_is_eq _ _ _ _ Hi2 H3) as Hi3.
  apply wp_bind. eapply wp_mono; [|by apply (issue_cmd_total fuel i d)]. intros ? s4 H4.
  pose proof (smmu_is_eq _ _ _ _ Hi3 H4) as Hi4.
  eapply wp_mono; [|by apply (poll_total fuel i d)]. intros ? s5 H5. congruence.
Qed.

(** Calls that return and leave the driver's structures alone. *)
Definition quiet {A} (m : E D A) : Prop :=
  forall s, wp m (fun _ s' => e_smmu s' = e_smmu s) s.
Lemma quiet_read n a : quiet (io_read n a).
Proof. intros s. apply wp_io_read. by intros v s' [H _]. Qed.
Lemma quiet_write n a v : quiet (io_write n a v).
Proof. intros s. apply wp_io_write. by intros s' [H _]. Qed.
Lemma quiet_bind {A B} (m : E D A) (f : A -> E D B) :
  quiet m -> (forall a, quiet (f a)) -> quiet (bind m f).
Proof.
  intros Hm Hf s. apply wp_bind. eapply wp_mono; [|apply Hm]. intros a s1 H1.
  eapply wp_mono; [|apply Hf]. intros b s2 H2. congruence.
Qed.

Lemma reset_program_io d : quiet (reset_program d).
Proof.
  unfold reset_program, val_mmio_write, val_mmio_read, val_mmio_write64.
  repeat (first [ apply quiet_bind; [|intros ?] | apply quiet_write | apply quiet_read ]).
Qed.

(** [smmu_reset] returns 1 on every path, timeouts of the handshakes
    included: the value 0, which [smmu_init] takes for the failure of the
    reset, is never returned. *)
Theorem smmu_reset_always_one fuel i d s :
  smmu_is i d s -> (Z.to_nat 0x1000000 < fuel)%nat ->
  wp (smmu_reset fuel i) (fun r s' => r = 1 /\ e_smmu s' = e_smmu s) s.
Proof.
  intros Hi Hf. assert ((Z.to_nat 0x100000 < fuel)%nat) as Hf'.
  { eapply Nat.lt_trans; [|exact Hf]. apply Z2Nat.inj_lt; done. }
  assert (forall v s1, e_smmu s1 = e_smmu s ->
    wp (smmu_reg_write_sync fuel i v SMMU_R_CR0 SMMU_R_CR0ACK)
      (fun r s2 => (r = 0 \/ r = 1) /\ e_smmu s2 = e_smmu s) s1) as Hsync.
  { intros v s1 H1. eapply wp_mono; [|apply (reg_write_sync_spec fuel i d); [|exact Hf]].
    - intros r s2 [Hr (H2 & _)]. split; [done|]. congruence.
    - by apply (smmu_is_eq i d s). }
  unfold smmu_reset. apply wp_bind, (wp_smmu_at i d); [done|].
  apply wp_bind, wp_io_read. intros v s1 (H1 & _) _.
  apply wp_bind. eapply wp_mono; [|by apply Hsync].
  intros r s2 [[-> | ->] H2]; [|by apply wp_ret].
  cbn [truthy Z.eqb negb]. apply wp_bind. eapply wp_mono; [|apply reset_program_io].
  intros ? s3 H3. apply wp_bind, wp_io_read. intros v3 s4 (H4 & _) _.
  apply wp_bind. eapply wp_mono; [|apply Hsync; congruence].
  intros r s5 [[-> | ->] H5]; [|by apply wp_ret].
  cbn [truthy Z.eqb negb]. apply wp_bind. eapply wp_mono; [|apply Hsync; congruence].
  intros r s6 [[-> | ->] H6]; [|by apply wp_ret].
  cbn [truthy Z.eqb negb]. apply wp_bind.
  eapply wp_mono; [|apply (tlbi_cfgi_total fuel i d); [by apply (smmu_is_eq i d s)|done]].
  intros ? s7 H7. apply wp_bind. eapply wp_mono; [|apply Hsync; congruence].
  intros r s8 [[-> | ->] H8]; [|by apply wp_ret]. by apply wp_ret.
Qed.
(** ** Stream table entries *)

(** The command queue's memory, and calls that write nowhere else. *)
Definition cmdq_ok (d : smmu_dev) : Prop :=
  let q := cmd_type d in
  0 <= log2nent (queue q) < 31 /\ entry_size q = 16 /\ 0 <= q_base q /\
  q_base q + 16 * 2 ^ log2nent (queue q) <= 2 ^ 64.
Definition in_cmdq (d : smmu_dev) (b : Z) : Prop :=
  q_base (cmd_type d) <= b < q_base (cmd_type d) + 16 * 2 ^ log2nent (queue (cmd_type d)).
Definition q_frame d s s' : Prop :=
  e_smmu s' = e_smmu s /\ only_at (in_cmdq d) (e_mem s) (e_mem s').
Lemma q_frame_refl d s : q_frame d s s.
Proof. by split. Qed.
Lemma q_frame_trans d s1 s2 s3 : q_frame d s1 s2 -> q_frame d s2 s3 -> q_frame d s1 s3.
Proof. intros [H1 F1] [H2 F2]. split; [congruence|by transitivity (e_mem s2)]. Qed.
Lemma io_q_frame d s s' : io_only s s' -> q_frame d s s'.
Proof. intros (H & M & _). split; [done|]. by rewrite M. Qed.
Lemma smmu_is_frame i d s s' : smmu_is i d s -> q_frame d s s' -> smmu_is i d s'.
Proof. intros Hi [H _]. by apply (smmu_is_eq i d s). Qed.

Lemma cmd_slot_in d v : cmdq_ok d -> 0 <= v ->
  u64 (q_base (cmd_type d) + (v .& ((1 << log2nent (queue (cmd_type d))) - 1)) *
       entry_size (cmd_type d)) = cmd_slot (cmd_type d) v /\
  q_base (cmd_type d) <= cmd_slot (cmd_type d) v /\
  cmd_slot (cmd_type d) v + 16 <=
    q_base (cmd_type d) + 16 * 2 ^ log2nent (queue (cmd_type d)).
Proof.
  intros (Hl & He & Hb & Ht) Hv. unfold cmd_slot.
  pose proof (Z.pow_pos_nonneg 2 (log2nent (queue (cmd_type d))) ltac:(lia) ltac:(lia)).
  pose proof (Z.mod_pos_bound v (2 ^ log2nent (queue (cmd_type d))) ltac:(lia)).
  rewrite shl1_sub1, Z.land_ones, He by lia.
  unfold u64. rewrite wrap_small by lia. lia.
Qed.

Lemma write_cmd_frame fuel i d cmd s : smmu_is i d s -> cmdq_ok d ->
  (Z.to_nat 0x100000 < fuel)%nat ->
  wp (smmu_cmdq_write_cmd fuel i cmd) (fun _ s' => q_frame d s s') s.
Proof.
  intros Hi Hq Hf. unfold smmu_cmdq_write_cmd. apply wp_bind, (wp_smmu_at i d); [done|].
  unfold wp. rewrite (bind_done _ _ s _ s (wait_loop (queue (cmd_type d)) fuel
    SMMU_CMDQ_POLL_TIMEOUT s ltac:(vm_compute; discriminate) Hf)).
  destruct (smmu_queue_full _); [apply q_frame_refl|].
  change (SMMU_CMDQ_POLL_TIMEOUT =? 0) with false. cbv iota.
  unfold val_mmio_read, io_read. unfold bind at 1.
  destruct (hw_read 4 _ _) as [v dv]. cbn [q_prod log2nent].
  pose proof (wrap_range (8 * Z.of_nat 4) v ltac:(lia)) as Hv.
  destruct (cmd_slot_in d (wrap (8 * Z.of_nat 4) v) Hq ltac:(lia)) as (-> & Hlo & Hhi).
  unfold val_mmio_write, io_write. el3_run. split; [done|].
  transitivity (store64 (e_mem s) (cmd_slot (cmd_type d) (wrap (8 * Z.of_nat 4) v)) (fst cmd));
    apply only_at_store; unfold in_cmdq; lia.
Qed.

Lemma issue_cmd_frame fuel i d op s : smmu_is i d s -> cmdq_ok d ->
  (Z.to_nat 0x100000 < fuel)%nat ->
  wp (smmu_cmdq_issue_cmd fuel i op) (fun _ s' => q_frame d s s') s.
Proof.
  intros Hi Hq Hf. unfold smmu_cmdq_issue_cmd, glob. apply wp_bind, wp_gets.
  destruct (smmu_cmdq_build_cmd _ _); [by apply (write_cmd_frame fuel i d)|].
  apply wp_ret, q_frame_refl.
Qed.

Lemma poll_frame fuel i d s : smmu_is i d s -> (Z.to_nat 0x100000 < fuel)%nat ->
  wp (smmu_cmdq_poll_until_consumed fuel i) (fun _ s' => q_frame d s s') s.
Proof.
  intros Hi Hf. eapply wp_mono; [|by apply (poll_io fuel i d)].
  intros ? s' H. by apply io_q_frame.
Qed.

(** Two calls in a row, both within the frame. *)
Lemma wp_frame_bind {A B} i d (m : E D A) (f : A -> E D B) s0 s :
  smmu_is i d s -> q_frame d s0 s -> wp m (fun _ s' => q_frame d s s') s ->
  (forall a s', smmu_is i d s' -> q_frame d s0 s' -> wp (f a) (fun _ s' => q_frame d s0 s') s') ->
  wp (bind m f) (fun _ s' => q_frame d s0 s') s.
Proof.
  intros Hi H0 Hm Hf. apply wp_bind. eapply wp_mono; [|exact Hm].
  intros a s' H. apply Hf; [by eapply smmu_is_frame|by eapply q_frame_trans].
Qed.

Lemma tlbi_cached_ste_frame fuel i d s : smmu_is i d s -> cmdq_ok d ->
  (Z.to_nat 0x100000 < fuel)%nat ->
  wp (smmu_tlbi_cached_ste fuel i) (fun _ s' => q_frame d s s') s.
Proof.
  intros Hi Hq Hf. unfold smmu_tlbi_cached_ste.
  apply (wp_frame_bind i d); [done|apply q_frame_refl|by apply (issue_cmd_frame fuel i d)|].
  intros ? s1 Hi1 H1. apply (wp_frame_bind i d); [done..|by apply (issue_cmd_frame fuel i d)|].
  intros ? s2 Hi2 H2. eapply wp_mono; [|by apply (poll_frame fuel i d)].
  intros. by eapply q_frame_trans.
Qed.

Lemma tlbi_prefetch_frame fuel i d s : smmu_is i d s -> cmdq_ok d ->
  (Z.to_nat 0x100000 < fuel)%nat ->
  wp (smmu_tlbi_prefetch_cfg fuel i) (fun _ s' => q_frame d s s') s.
Proof.
  intros Hi Hq Hf. unfold smmu_tlbi_prefetch_cfg.
  apply (wp_frame_bind i d); [done|apply q_frame_refl|by apply (issue_cmd_frame fuel i d)|].
  intros ? s2 Hi2 H2. eapply wp_mono; [|by apply (poll_frame fuel i d)].
  intros. by eapply q_frame_trans.
Qed.
(** The bits of a shifted field. *)
Lemma testbit_bf_set msb lsb v i : 0 <= lsb <= msb -> 0 <= i ->
  Z.testbit (bf_set msb lsb v) i = (lsb <=? i) && (i <=? msb) && Z.testbit v (i - lsb).
Proof.
  intros Hl Hi. unfold bf_set, bf_mask. rewrite shl1_sub1, Z.shiftl_spec, Z.land_spec by lia.
  destruct (Z.leb_spec lsb i); cbn [andb].
  - rewrite Z.testbit_ones by lia. rewrite andb_comm. f_equal. lia.
  - by rewrite Z.testbit_neg_r by lia.
Qed.

(** Dword 2 of a stage 2 entry. *)
Definition s2_word (vm vt : Z) : Z :=
  bf_set 15 0 vm .| bf_set 50 32 vt .| STRTAB_STE_2_S2PTW .| STRTAB_STE_2_S2AA64 .|
  STRTAB_STE_2_S2R.

Lemma testbit_s2_word vm vt i : 0 <= i ->
  Z.testbit (s2_word vm vt) i =
  (i <=? 15) && Z.testbit vm i || (32 <=? i) && (i <=? 50) && Z.testbit vt (i - 32) ||
  (i =? 54) || (i =? 51) || (i =? 58).
Proof.
  intros Hi. unfold s2_word, STRTAB_STE_2_S2PTW, STRTAB_STE_2_S2AA64, STRTAB_STE_2_S2R.
  rewrite !Z.lor_spec, !testbit_bf_set by lia. rewrite !Z.shiftl_1_l.
  rewrite !Z.pow2_bits_eqb by lia. rewrite Z.sub_0_r.
  replace (0 <=? i) with true by lia. rewrite !(Z.eqb_sym i). done.
Qed.

Lemma s2_word_range vm vt : 0 <= s2_word vm vt < 2 ^ 64.
Proof.
  assert (0 <= s2_word vm vt) as H0.
  { unfold s2_word, bf_set. rewrite !Z.lor_nonneg, !Z.shiftl_nonneg.
    repeat apply conj; try (apply Z.land_nonneg; right; vm_compute; discriminate);
      vm_compute; discriminate. }
  split; [done|]. apply bits_lt; [lia|done|]. intros i Hi. rewrite testbit_s2_word by lia.
  replace (i <=? 15) with false by lia. replace (i <=? 50) with false by lia.
  rewrite andb_false_r. cbn [andb orb]. zbool.
Qed.

Lemma s2_word_fields vm vt : 0 <= vm < 2 ^ 16 -> 0 <= vt < 2 ^ 19 ->
  fld 0 16 (s2_word vm vt) = vm /\ fld 32 19 (s2_word vm vt) = vt /\
  fld 51 1 (s2_word vm vt) = 1.
Proof.
  intros Hm Ht. split; [|split].
  - apply (bits_ext 16); [lia|apply fld_range; lia|done|]. intros i Hi.
    rewrite testbit_fld, testbit_s2_word by lia. rewrite Z.add_0_r.
    replace (i <=? 15) with true by lia. replace (32 <=? i) with false by lia.
    replace (i <? 16) with true by lia. cbn [andb]. rewrite andb_true_r.
    replace (i =? 54) with false by lia. replace (i =? 51) with false by lia.
    replace (i =? 58) with false by lia. by rewrite !orb_false_r.
  - apply (bits_ext 19); [lia|apply fld_range; lia|done|]. intros i Hi.
    rewrite testbit_fld, testbit_s2_word by lia.
    replace (i + 32 <=? 15) with false by lia. replace (32 <=? i + 32) with true by lia.
    replace (i + 32 <=? 50) with true by lia. replace (i <? 19) with true by lia.
    replace (i + 32 =? 54) with false by lia. replace (i + 32 =? 51) with false by lia.
    replace (i + 32 =? 58) with false by lia. replace (i + 32 - 32) with i by lia.
    cbn [andb orb]. by rewrite !orb_false_r, andb_true_r.
  - apply (bits_ext 1); [lia|apply fld_range; lia|lia|]. intros i Hi.
    replace i with 0 by lia. by rewrite testbit_fld, testbit_s2_word.
Qed.

Lemma write_ste_s2 fuel i d m ste s : smmu_is i d s -> cmdq_ok d ->
  (Z.to_nat 0x100000 < fuel)%nat -> stage m = SMMU_STAGE_S2 ->
  (forall b, ste <= b < ste + 64 -> ~ in_cmdq d b) ->
  wp (smmu_strtab_write_ste fuel (Some m) ste i)
    (fun _ s' => e_smmu s' = e_smmu s /\
       only_at (fun b => ste <= b < ste + 64 \/ in_cmdq d b) (e_mem s) (e_mem s') /\
       load64 (e_mem s') ste = 13 /\
       load64 (e_mem s') (ste + 16) = s2_word (vmid (stage2 m)) (vtcr (stage2 m)) /\
       load64 (e_mem s') (ste + 24) = vttbr (stage2 m) .& bf_mask 51 4) s.
Proof.
  intros Hi Hq Hf Hst Hdis. unfold smmu_strtab_write_ste. rewrite Hst.
  apply wp_bind, wp_rd. set (w1 := load 8 (e_mem s) (ste + 8)).
  do 4 apply wp_bind, wp_wr. fold (s2_word (vmid (stage2 m)) (vtcr (stage2 m))).
  match goal with |- wp _ _ ?t => set (s1 := t) end.
  assert (smmu_is i d s1) as Hi1 by done.
  assert (only_at (fun b => ste <= b < ste + 64) (e_mem s) (e_mem s1)) as Hm1.
  { subst s1. cbn [set_mem e_mem].
    repeat (etransitivity; [|apply only_at_store; intros; lia]). done. }
  assert (wp (smmu_tlbi_cached_ste fuel i ;; smmu_tlbi_prefetch_cfg fuel i)
    (fun _ s' => q_frame d s1 s') s1) as Htl.
  { apply (wp_frame_bind i d); [done|apply q_frame_refl|by apply tlbi_cached_ste_frame|].
    intros ? s2 Hi2 H2. eapply wp_mono; [|by apply (tlbi_prefetch_frame fuel i d)].
    intros. by eapply q_frame_trans. }
  eapply wp_mono; [|exact Htl]. intros [] s' [He Hm].
  split; [exact He|]. split.
  { transitivity (e_mem s1); [eapply only_at_mono; [|exact Hm1]; auto|].
    eapply only_at_mono; [|exact Hm]. auto. }
  assert (forall o, 0 <= o <= 56 -> load64 (e_mem s') (ste + o) = load64 (e_mem s1) (ste + o)) as Hld.
  { intros o Ho. apply (only_at_load _ 8 _ _ _ Hm). intros b Hb. apply Hdis. lia. }
  pose proof (Hld 0 ltac:(lia)) as L0. rewrite Z.add_0_r in L0.
  rewrite L0, !Hld by lia. subst s1. cbn [set_mem e_mem].
  split; [apply (load_store_eq 8)|]. split.
  - rewrite !(load_store_ne 8 8) by (unfold disjoint_rng; lia).
    apply (load_store_eq' 8), s2_word_range.
  - rewrite (load_store_ne 8 8) by (unfold disjoint_rng; lia).
    apply (load_store_eq' 8). change (bf_mask 51 4) with (Z.ones 48).
    rewrite Z.land_ones by lia. pose proof (Z.mod_pos_bound (vttbr (stage2 m)) (2 ^ 48)). lia.
Qed.

(** C10. On a linear stream table of [2 ^ sid_bits] entries of 64 bytes the
    look-up of a stream ID is the entry's address, inside the table, and
    writing a stage 2 master there gives a valid entry that translates with the
    master's VMID, VTCR and table base; the entry of every other stream ID
    keeps its 64 bytes. *)
Theorem write_ste_s2_isolated fuel i d m sid s :
  smmu_is i d s -> cmdq_ok d -> (Z.to_nat 0x100000 < fuel)%nat ->
  let T := strtab64 (strtab_cfg d) in
  st_level_2lvl (supported d) = false -> 0 <= smmu_sid_bits d <= 24 ->
  0 <= T -> T + 64 * 2 ^ smmu_sid_bits d <= 2 ^ 64 ->
  (forall b, T <= b < T + 64 * 2 ^ smmu_sid_bits d -> ~ in_cmdq d b) ->
  stage m = SMMU_STAGE_S2 -> 0 <= sid < 2 ^ smmu_sid_bits d ->
  0 <= vmid (stage2 m) < 2 ^ 16 -> 0 <= vtcr (stage2 m) < 2 ^ 19 ->
  0 <= vttbr (stage2 m) < 2 ^ 48 ->
  wp (let! ste := smmu_strtab_get_ste_for_sid i sid in
      smmu_strtab_write_ste fuel (Some m) ste i ;; ret ste)
    (fun ste s' => ste = T + 64 * sid /\
       load64 (e_mem s') ste = 0x1 + 2 * STRTAB_STE_0_CONFIG_S2_TRANS /\
       fld 0 16 (load64 (e_mem s') (ste + 16)) = vmid (stage2 m) /\
       fld 32 19 (load64 (e_mem s') (ste + 16)) = vtcr (stage2 m) /\
       fld 51 1 (load64 (e_mem s') (ste + 16)) = 1 /\
       load64 (e_mem s') (ste + 24) = vttbr (stage2 m) /\
       forall sid' k, 0 <= sid' < 2 ^ smmu_sid_bits d -> sid' <> sid -> 0 <= k < 64 ->
         ld_byte (e_mem s') (T + 64 * sid' + k) = ld_byte (e_mem s) (T + 64 * sid' + k)) s.
Proof.
  intros Hi Hq Hf T H2 Hb HT Hend Hdis Hst Hsid Hvm Hvt Hvb.
  pose proof (Z.pow_le_mono_r 2 (smmu_sid_bits d) 24 ltac:(lia) ltac:(lia)).
  unfold smmu_strtab_get_ste_for_sid. apply wp_bind, wp_bind, (wp_smmu_at i d); [done|].
  rewrite H2. cbn [negb]. apply wp_ret. fold T. unfold STRTAB_STE_DWORDS.
  assert (u64 (T + 8 * u32 (sid * 8)) = T + 64 * sid) as ->.
  { unfold u32. rewrite wrap_small by lia. unfold u64. rewrite wrap_small; lia. }
  apply wp_bind. eapply wp_mono; [|apply (write_ste_s2 fuel i d m); try done].
  2:{ intros b Hbb. apply Hdis. lia. }
  intros [] s' (He & Hm & L0 & L2 & L3). apply wp_ret. rewrite L0, L2, L3.
  destruct (s2_word_fields (vmid (stage2 m)) (vtcr (stage2 m)) Hvm Hvt) as (F1 & F2 & F3).
  split; [done|]. split; [done|]. split; [done|]. split; [done|]. split; [done|]. split.
  { change (bf_mask 51 4) with (Z.ones 48). rewrite Z.land_ones by lia. apply Z.mod_small. lia. }
  intros sid' k Hs' Hne Hk. apply Hm. intros [Hin|Hin]; [lia|].
  apply (Hdis (T + 64 * sid' + k)); [nia|done].
Qed.
End driver.

(** An SMMU at its platform address with a command queue of 256 entries. *)
Definition demo_queue : smmu_queue_type :=
  mk_queue_type (mk_queue 0 0 8) 0x880401000 0x880401000 0x880401000
    0x880401008 16 0x2b400098 0x2b40009c.
Definition demo_dev : smmu_dev :=
  mk_smmu ROOT_IOVIRT_SMMUV3_BASE 48 48 0 8 demo_queue demo_queue
    (mk_strtab 0 0 0 0 0 0 0) (mk_supp false false true true true).
Definition demo_smmu : el3 unit :=
  set_smmu (fun _ => mk_globals (Some [demo_dev]) 0 1 0 ∅ ∅ [] ∅) (el3_init tt ∅).

Lemma demo_is : smmu_is 0 demo_dev demo_smmu.
Proof. by exists [demo_dev]. Qed.

Lemma poll_terminates_witness :
  wp (smmu_cmdq_poll_until_consumed (HW := quiet_hw) (S (Z.to_nat 0x100000)) 0)
    (fun _ s' => reads (SMMU_CMDQ_POLL_TIMEOUT + 5) demo_smmu s') demo_smmu.
Proof.
  exact (poll_terminates (HW := quiet_hw) _ 0 demo_dev demo_smmu demo_is (Nat.lt_succ_diag_r _)).
Defined.

Lemma write_cmd_spec_witness :
  wp (smmu_cmdq_write_cmd (HW := quiet_hw) (S (Z.to_nat 0x100000)) 0 (0x46, 0))
    (fun r s' => r = 0 /\ load64 (e_mem s') 0x880401000 = 0x46 /\
       e_trace s' = [EvWrite 4 0x2b400098 1; EvRead 4 0x2b400098 0]) demo_smmu.
Proof.
  eapply wp_mono; [|apply (write_cmd_spec (HW := quiet_hw) _ 0 demo_dev 0x46 0 0 tt demo_smmu
    demo_is (Nat.lt_succ_diag_r _)); [reflexivity|cbn; lia..|reflexivity|lia]].
  intros r s' (Hr & _ & _ & H0 & _ & _ & Ht).
  exact (conj Hr (conj H0 Ht)).
Defined.

Lemma smmu_reset_always_one_witness :
  wp (smmu_reset (HW := quiet_hw) (S (Z.to_nat 0x1000000)) 0)
    (fun r s' => r = 1 /\ e_smmu s' = e_smmu demo_smmu) demo_smmu.
Proof.
  exact (smmu_reset_always_one (HW := quiet_hw) _ 0 demo_dev demo_smmu demo_is
    (Nat.lt_succ_diag_r _)).
Defined.

Definition demo_master : smmu_master :=
  mk_master (Some 0%nat) SMMU_STAGE_S2
    (mk_s1 (mk_cdcfg 0 0 0 0 0) (mk_cd 0 0 0 0) 0 0)
    (mk_s2 3 0x880010000 0x51918) 5 0 0.
Definition linear_dev : smmu_dev :=
  mk_smmu ROOT_IOVIRT_SMMUV3_BASE 48 48 0 8 demo_queue demo_queue
    (mk_strtab 0 0x880410000 0x880410000 0 0 0 0) (mk_supp false false true true true).
Definition linear_smmu : el3 unit :=
  set_smmu (fun _ => mk_globals (Some [linear_dev]) 0 1 0 ∅ ∅ [] ∅) (el3_init tt ∅).

Lemma write_ste_s2_isolated_witness :
  wp (let! ste := smmu_strtab_get_ste_for_sid 0 5 in
      smmu_strtab_write_ste (HW := quiet_hw) (S (Z.to_nat 0x100000)) (Some demo_master) ste 0 ;;
      ret ste)
    (fun ste s' => ste = 0x880410140 /\ load64 (e_mem s') ste = 13 /\
       load64 (e_mem s') (ste + 24) = 0x880010000) linear_smmu.
Proof.
  eapply wp_mono; [|apply (write_ste_s2_isolated (HW := quiet_hw) (S (Z.to_nat 0x100000)) 0
    linear_dev demo_master 5 linear_smmu);
    [exists [linear_dev]; split; reflexivity | unfold cmdq_ok; cbn; lia
    |apply Nat.lt_succ_diag_r | reflexivity | cbn; lia | cbn; lia | cbn; lia
    |intros b Hb; unfold in_cmdq; cbn in *; lia | reflexivity | cbn; lia | cbn; lia
    |cbn; lia | cbn; lia]].
  intros ste s' (E1 & E2 & _ & _ & _ & E3 & _). exact (conj E1 (conj E2 E3)).
Defined.

(** ** Unmapping with a two-level stream table *)

(** An SMMU whose registers keep what is written; CR0ACK follows CR0 and the
    consumer index follows the producer index.  It has stream IDs of 9 bits, so
    the driver chooses the two-level stream table. *)
Definition reg_file : Hw (gmap Z Z) :=
  {| hw_read _ d a := (default 0 (d !! a), d);
     hw_write _ d a v :=
       let d := <[a := v]> d in
       if a =? ROOT_IOVIRT_SMMUV3_BASE + SMMU_R_CR0
       then <[ROOT_IOVIRT_SMMUV3_BASE + SMMU_R_CR0ACK := v]> d
       else if a =? ROOT_IOVIRT_SMMUV3_BASE + SMMU_R_CMDQ_PROD
       then <[ROOT_IOVIRT_SMMUV3_BASE + SMMU_R_CMDQ_CONS := v]> d else d;
     hw_at_s1e3w _ _ _ := 0 |}.
Definition reset_regs : gmap Z Z :=
  list_to_map [(ROOT_IOVIRT_SMMUV3_BASE + SMMU_AIDR_OFFSET, 3);
               (ROOT_IOVIRT_SMMUV3_BASE + SMMU_IDR0_OFFSET, 0x0800020b);
               (ROOT_IOVIRT_SMMUV3_BASE + SMMU_IDR1_OFFSET, (8 << 21) .| 9);
               (ROOT_IOVIRT_SMMUV3_BASE + SMMU_IDR5_OFFSET, 5)].
Definition demo_attrs (sid : Z) : smmu_master_attributes :=
  mk_attr (Some 0) sid (Some 0) (Some 0) (Some 1) (Some 0).
Definition demo_pgt : pgt_descriptor :=
  mk_pgt 0x880010000 48 (Some 48) 0 (Some 2) (mk_tcr 5 0 3 1 (Some 1) 24).

(** Initialise, map stream ID [sid] for stage 2, then unmap it: the results of
    the calls, the entry's address and its first dword before and after. *)
Definition map_unmap (fuel : nat) (sid : Z) : E (gmap Z Z) (Z * Z * Z * Z * Z) :=
  let! r := val_smmu_init (HW := reg_file) fuel 1 in
  let! r' := val_smmu_rlm_map (HW := reg_file) fuel (demo_attrs sid) demo_pgt in
  let! ste := smmu_strtab_get_ste_for_sid 0 sid in
  let! before := rd 8 ste in
  val_smmu_unmap (HW := reg_file) fuel (demo_attrs sid) ;;
  let! after := rd 8 ste in
  let! smmu := smmu_at 0 in
  let! stray := rd 8 (strtab64 (strtab_cfg smmu) + 64 * sid) in
  ret (r, r', before, after, stray).

(** [val_smmu_unmap] indexes the stream table linearly even when the SMMU
    uses the two-level table: after a successful initialisation and mapping, the
    unmapped stream's own entry still is valid and translates, and the bypass
    entry (9) went 64 bytes per stream ID past the start of the level 1 table,
    far outside its 16 bytes. *)
Theorem unmap_two_level_keeps_ste :
  wp (map_unmap 100 0x105) (fun r _ =>
      r = (0, 0, 0x1 + 2 * STRTAB_STE_0_CONFIG_S2_TRANS,
           0x1 + 2 * STRTAB_STE_0_CONFIG_S2_TRANS,
           0x1 + 2 * STRTAB_STE_0_CONFIG_BYPASS)) (el3_init reset_regs ∅).
Proof. vm_compute. reflexivity. Qed.
