(* ===== verification/El3Common.v ===== *)
(** * El3Common

    val_el3/ack_common.c: the services behind the SMC handler (cache
    maintenance, register save and compare, memory set, root watchdog, security
    state, SMMU configuration), with the platform hooks of pal_el3/acs_el3.c. *)

From Stdlib Require Import ZArith Lia Bool List.
From stdpp Require Import base tactics numbers list gmap option.
From S2P Require Import Prelude Memory El3State PoolAlloc El3Pgt SmmuRealm.

Definition CLEAN_AND_INVALIDATE : Z := 0x1.
Definition CLEAN : Z := 0x2.
Definition INVALIDATE : Z := 0x3.
Definition SCR_NSE_SHIFT : Z := 62.
Definition SCR_NS_SHIFT : Z := 0.
Definition SCR_NSE_MASK : Z := 0x1 << SCR_NSE_SHIFT.
Definition SCR_NS_MASK : Z := 0x1 << SCR_NS_SHIFT.
Definition WD_IIDR_OFFSET : Z := 0xFCC.
Definition SMMUV3_ROOT_REG_OFFSET : Z := 0x20000.
Definition SMMU_ROOT_CR0 : Z := SMMUV3_ROOT_REG_OFFSET + 0x20.
Definition SMMU_ROOT_IDRO : Z := SMMUV3_ROOT_REG_OFFSET + 0x0.
Definition SMMU_ROOT_RME_IMPL_CHK : Z := 0x1.
Definition SMMU_RLM_PGT_INIT : Z := 0x2.
Definition SMMU_RLM_SMMU_MAP : Z := 0x3.

(** [RME_ACS_REGS_MSD]. *)
Definition GPCCR_EL3_MSD : Z := 1.
Definition GPTBR_EL3_MSD : Z := 2.
Definition TCR_EL3_MSD : Z := 3.
Definition TTBR_EL3_MSD : Z := 4.
Definition SCR_EL3_MSD : Z := 5.
Definition SCTLR_EL2_MSD : Z := 6.
Definition SCTLR_EL3_MSD : Z := 7.

Definition VAL_EXTRACT_BITS (data st en : Z) : Z :=
  (data >> st) .& ((1 << (en - st + 1)) - 1).

Definition with_scr v r := mk_sysregs (gpccr_el3 r) (gptbr_el3 r) (tcr_el3 r) (ttbr_el3 r)
  v (sctlr_el3 r) (sctlr_el2 r) (mair_el3 r) (elr_el3 r) (spsr_el3 r) (esr_el3 r)
  (far_el3 r) (vbar_el3 r).
Definition with_elr v r := mk_sysregs (gpccr_el3 r) (gptbr_el3 r) (tcr_el3 r) (ttbr_el3 r)
  (scr_el3 r) (sctlr_el3 r) (sctlr_el2 r) (mair_el3 r) v (spsr_el3 r) (esr_el3 r)
  (far_el3 r) (vbar_el3 r).
Definition with_spsr v r := mk_sysregs (gpccr_el3 r) (gptbr_el3 r) (tcr_el3 r) (ttbr_el3 r)
  (scr_el3 r) (sctlr_el3 r) (sctlr_el2 r) (mair_el3 r) (elr_el3 r) v (esr_el3 r)
  (far_el3 r) (vbar_el3 r).
Definition with_vbar v r := mk_sysregs (gpccr_el3 r) (gptbr_el3 r) (tcr_el3 r) (ttbr_el3 r)
  (scr_el3 r) (sctlr_el3 r) (sctlr_el2 r) (mair_el3 r) (elr_el3 r) (spsr_el3 r) (esr_el3 r)
  (far_el3 r) v.

(** The value [val_security_state_change] computes for SCR_EL3. *)
Definition scr_for_state (scr attr_nse_ns : Z) : Z :=
  (scr .& (bnot 64 SCR_NSE_MASK .& bnot 64 SCR_NS_MASK)) .|
  ((NSE_SET attr_nse_ns << SCR_NSE_SHIFT) .| (NS_SET attr_nse_ns << SCR_NS_SHIFT)).

(** The register a [RME_ACS_REGS_MSD] value selects; 0 when it selects none. *)
Definition msd_reg (reg_id : Z) (r : sysregs) : Z :=
  if reg_id =? GPCCR_EL3_MSD then gpccr_el3 r
  else if reg_id =? GPTBR_EL3_MSD then gptbr_el3 r
  else if reg_id =? TCR_EL3_MSD then tcr_el3 r
  else if reg_id =? TTBR_EL3_MSD then ttbr_el3 r
  else if reg_id =? SCR_EL3_MSD then scr_el3 r
  else if reg_id =? SCTLR_EL3_MSD then sctlr_el3 r
  else if reg_id =? SCTLR_EL2_MSD then sctlr_el2 r
  else 0.

Definition set_saved (i : nat) (v : Z) (r : reg_info_msd) : reg_info_msd :=
  mk_reg_info (num_regs r) (alter (fun d => mk_reg (reg_name d) v) i (reg_list r)).

(** Replaces the [data] field of [shared_data_access[i]]. *)
Definition set_acc_data (i : nat) (v : Z) (l : list shared_data_access)
    : list shared_data_access :=
  alter (fun d => mk_access (access_type d) (acc_addr d) v) i l.

Section code.
Context {D : Type} {HW : Hw D}.

Definition set_sh (f : struct_sh_data -> struct_sh_data) : E D unit :=
  modify (set_shared f).

Definition val_data_cache_ops_by_va_el3 (VA type : Z) : E D unit :=
  if type =? CLEAN_AND_INVALIDATE then cln_and_invldt_cache VA
  else if type =? CLEAN then emit (EvClean VA)
  else if type =? INVALIDATE then emit (EvInval VA)
  else ret tt.

Definition val_enable_ns_encryption : E D unit := emit (EvNsEncryption true).
Definition val_disable_ns_encryption : E D unit := emit (EvNsEncryption false).
Definition val_prog_legacy_tz (enable : Z) : E D unit := emit (EvLegacyTz enable).
Definition val_pas_filter_active_mode (enable : Z) : E D unit := emit (EvPasFilter enable).

Definition val_pe_reg_read (reg_id : Z) : E D Z := sysreg (msd_reg reg_id).

(** [reg_list[i]]. *)
Definition reg_at (i : Z) : E D reg_details_msd :=
  let! info := sh reg_info in nth_chk (reg_list info) i.

Definition val_pe_reg_read_msd : E D unit :=
  let! info := sh reg_info in
  for_range 0 (s32 (num_regs info)) (fun i =>
    let! d := reg_at i in
    let! v := val_pe_reg_read (reg_name d) in
    set_sh (fun r => set_reg_info (set_saved (Z.to_nat i) v (reg_info r)) r)).

(** One turn of the comparison loop; the accumulator is [cmp_fail]. *)
Definition cmp_step (i cmp_fail : Z) : E D (Z + unit) :=
  let! d := reg_at i in
  let! v := val_pe_reg_read (reg_name d) in
  ret (inl (if saved_reg_value d =? v then cmp_fail else cmp_fail + 1)).

Definition val_pe_reg_list_cmp_msd : E D unit :=
  let! info := sh reg_info in
  let! r := for_acc (Z.to_nat (s32 (num_regs info))) 0 0 cmp_step in
  match r with
  | inl cmp_fail => when 0 <? cmp_fail then set_sh (set_generic_flag SET)
  | inr _ => ret tt
  end.

Definition val_memory_set_el3 (address size value : Z) : E D unit :=
  for_range 0 size (fun index => wr 1 (address + index) value).

(** [exception_expected = SET; access_mut = CLEAR] under [generic_flag]. *)
Definition arm_exception : E D unit :=
  let! g := sh generic_flag in
  when truthy g then
    (set_sh (set_exc_expected SET) ;; set_sh (set_access_mut CLEAR)).

Definition val_wd_enable (wdog_ctrl_base : Z) : E D unit :=
  arm_exception ;; io_write 8 wdog_ctrl_base SET.

Definition val_wd_disable (wdog_ctrl_base : Z) : E D unit :=
  io_write 8 wdog_ctrl_base CLEAR.

Definition val_wd_set_ws0_el3 (VA_RT_WDOG timeout counter_freq : Z) : E D unit :=
  let ctrl_base := VA_RT_WDOG in
  if timeout =? 0 then val_wd_disable ctrl_base else
  let! iidr := io_read 8 (u64 (ctrl_base + WD_IIDR_OFFSET)) in
  let data := u32 (VAL_EXTRACT_BITS iidr 16 19) in
  let ticks := u64 (counter_freq * timeout) in
  let wor_l := u32 ticks in
  let wor_h := u32 (ticks >> 32) in
  arm_exception ;;
  io_write 8 (u64 (ctrl_base + 8)) wor_l ;;
  (when data =? 1 then
     (arm_exception ;; io_write 8 (u64 (ctrl_base + 12)) wor_h)) ;;
  val_wd_enable ctrl_base.

Definition val_smmu_access_disable : E D unit :=
  io_write 4 (ROOT_IOVIRT_SMMUV3_BASE + SMMU_ROOT_CR0) CLEAR.

Definition val_security_state_change (attr_nse_ns : Z) : E D unit :=
  let! scr_data := sysreg scr_el3 in
  modify (set_sys (with_scr (scr_for_state scr_data attr_nse_ns))).

(** [shared_data_access[i].data = v]. *)
Definition acc_at (i : Z) : E D shared_data_access :=
  let! l := sh sh_access in nth_chk l i.
Definition put_acc_data (i v : Z) : E D unit :=
  let! _d := acc_at i in
  set_sh (fun r => set_sh_access (set_acc_data (Z.to_nat i) v (sh_access r)) r).

(** [smmu_attr] is a local whose [smmu_index], [substreamid], [ssid_bits] and
    [stage2] are never assigned; nor is [pgt_attr.oas] before it is read. *)
Definition root_map_attr (smmu_info : Z) : smmu_master_attributes :=
  mk_attr None smmu_info None None None (Some 1).

Definition val_smmu_root_config_service (fuel : nat) (reg_config smmu_info : Z) : E D unit :=
  if reg_config =? SMMU_ROOT_RME_IMPL_CHK then
    let! data := io_read 4 (ROOT_IOVIRT_SMMUV3_BASE + SMMU_ROOT_IDRO) in
    put_acc_data 0 data
  else if reg_config =? SMMU_RLM_PGT_INIT then
    let! _r := val_smmu_init fuel smmu_info in ret tt
  else if reg_config =? SMMU_RLM_SMMU_MAP then
    let! idr5 := io_read 4 (ROOT_IOVIRT_SMMUV3_BASE + SMMU_IDR5_OFFSET) in
    let! tcr := val_get_tcr_info in
    let! ttbr := sysreg ttbr_el3 in
    let! ias := nth_chk smmu_oas (VAL_EXTRACT_BITS idr5 0 2) in
    let! mair := sysreg mair_el3 in
    let pgt_attr := mk_pgt (ttbr .& AARCH64_TTBR_ADDR_MASK) ias None mair None tcr in
    let! _r := val_smmu_rlm_map fuel (root_map_attr smmu_info) pgt_attr in
    ret tt
  else ret tt.
End code.
