(* ===== verification/El3Handler.v ===== *)
(** * El3Handler

    val_el3/plat_acs_smc_handler.c: the EL3 exception handler and the SMC
    service dispatcher, with the assembly routines they end in
    (val_el3/aarch64/ack_helper_functions.S). *)

From Stdlib Require Import ZArith Lia Bool List.
From stdpp Require Import base tactics numbers list gmap option.
From S2P Require Import Prelude Memory El3State PoolAlloc El3Pgt SmmuRealm El3Common.

Definition RME_INSTALL_HANDLER : Z := 0x1.
Definition RME_ADD_GPT_ENTRY : Z := 0x2.
Definition RME_ADD_MMU_ENTRY : Z := 0x3.
Definition RME_MAP_SHARED_MEM : Z := 0x4.
Definition RME_CMO_POPA : Z := 0x5.
Definition RME_ACCESS_MUT : Z := 0x6.
Definition RME_MEM_SET : Z := 0x7.
Definition RME_DATA_CACHE_OPS : Z := 0x8.
Definition RME_NS_ENCRYPTION : Z := 0x9.
Definition RME_READ_AND_CMPR_REG_MSD : Z := 0xA.
Definition LEGACY_TZ_ENABLE : Z := 0xB.
Definition ROOT_WATCHDOG : Z := 0xC.
Definition PAS_FILTER_SERVICE : Z := 0xD.
Definition SMMU_ROOT_SERVICE : Z := 0xE.
Definition SEC_STATE_CHANGE : Z := 0xF.
Definition SMMU_CONFIG_SERVICE : Z := 0x10.

Definition GPF_ESR_READ : Z := 0x96000028.
Definition GPF_ESR_WRITE : Z := 0x96000068.
Definition CIPOPA_NS_BIT : Z := 63.
Definition CIPOPA_NSE_BIT : Z := 62.
Definition READ_DATA : Z := 0.
Definition WRITE_DATA : Z := 1.
Definition TEST_DATA : Z := 0x999.
Definition ARM_TF_SHARED_ADDRESS : Z := SHARED_ADDRESS + SIZE_4KB - 0x20.
Definition armtf_handler : Z := ARM_TF_SHARED_ADDRESS.

(** How an exception handler leaves EL3. *)
Inductive el3_exit :=
| ExitEret            (* eret to the address in ELR_EL3 *)
| ExitEretSmc         (* eret after an SMC: the saved context is popped *)
| ExitBranch (a : Z). (* br to the firmware's handler *)

Section code.
Context {D : Type} {HW : Hw D}.

(** ** ack_helper_functions.S *)

(** [asm_eret]: ELR_EL3 + 4, eret. *)
Definition asm_eret : E D el3_exit :=
  modify (set_sys (fun r => with_elr (u64 (elr_el3 r + 4)) r)) ;;
  emit EvEret ;; ret ExitEret.
Definition asm_eret_smc : E D el3_exit := emit EvEretSmc ;; ret ExitEretSmc.
Definition branch_asm (a : Z) : E D el3_exit := emit (EvBranch a) ;; ret (ExitBranch a).
Definition set_daif : E D unit := emit EvDaif.

(** The common tail of [acs_str] and [acs_ldr_pas_filter]: ELR_EL3 and
    SPSR_EL3 from the shared structure, eret. They do not return. *)
Definition eret_shared : E D el3_exit :=
  let! elr := sh sh_elr_el3 in
  let! spsr := sh sh_spsr_el3 in
  modify (set_sys (with_elr elr)) ;;
  modify (set_sys (with_spsr spsr)) ;;
  emit EvEret ;; ret ExitEret.
Definition acs_str (a v : Z) : E D el3_exit := io_write 8 a v ;; eret_shared.
Definition acs_ldr_pas_filter (a : Z) : E D el3_exit :=
  let! _v := io_read 8 a in eret_shared.

Definition save_vbar_el3 (a : Z) : E D unit :=
  let! v := sysreg vbar_el3 in wr 8 a v.

(** ** plat_acs_smc_handler.c *)

(** [exception_handler_user] is the address of the assembly vector table. *)
Definition rme_install_handler (exception_handler_user : Z) : E D unit :=
  save_vbar_el3 armtf_handler ;;
  modify (set_sys (with_vbar exception_handler_user)).

(** [exception_expected == SET && access_mut == CLEAR]. *)
Definition fault_expected : E D bool :=
  let! e := sh exception_expected in
  let! a := sh sh_access_mut in
  ret ((e =? SET) && (a =? CLEAR)).

(** [ack_handler_el3] over its three accesses to the tested address: the store
    and the load in assembly, which do not come back, and the load of the C
    code. *)
Definition ack_handler_with (str : Z -> Z -> E D el3_exit) (ldr : Z -> E D el3_exit)
    (load : Z -> E D unit) : E D el3_exit :=
  let! expected := fault_expected in
  let! mut := sh sh_access_mut in
  if expected then
    let! esr := sysreg esr_el3 in
    if (esr =? GPF_ESR_READ) || (esr =? GPF_ESR_WRITE) then
      set_sh (set_exc_generated SET) ;;
      set_sh (set_exc_expected CLEAR) ;;
      asm_eret
    else
      set_sh (set_exc_expected CLEAR) ;;
      asm_eret
  else if mut =? SET then
    set_sh (set_access_mut CLEAR) ;;
    let! elr := sysreg elr_el3 in
    set_sh (set_elr elr) ;;
    let! spsr := sysreg spsr_el3 in
    set_sh (set_spsr spsr) ;;
    let! flag := sh pas_filter_flag in
    let! exc := sh exception_expected in
    let! arg1 := sh sh_arg1 in
    if flag =? SET then
      set_daif ;;
      (* the second argument, shared_data_access[0].data, is evaluated *)
      let! _a := acc_at 0 in
      ldr arg1
    else if exc =? SET then str arg1 TEST_DATA
    else
      load arg1 ;;
      let! elr := sh sh_elr_el3 in
      modify (set_sys (with_elr elr)) ;;
      let! spsr := sh sh_spsr_el3 in
      modify (set_sys (with_spsr spsr)) ;;
      asm_eret_smc
  else
    let! a := rd 8 (armtf_handler + 8) in
    branch_asm a.
(** The handler when none of the accesses faults; [El3Smc] has the others. *)
Definition ack_handler_el3 : E D el3_exit :=
  ack_handler_with acs_str acs_ldr_pas_filter (fun a => let! _data := io_read 8 a in ret tt).

(** One access of [access_mut]. *)
Definition access_one (acc_cnt : Z) : E D unit :=
  let! d := acc_at acc_cnt in
  let type := u8 (access_type d) in
  if type =? READ_DATA then
    let! data := io_read 4 (acc_addr d) in
    put_acc_data acc_cnt data
  else if type =? WRITE_DATA then io_write 4 (acc_addr d) (u32 (acc_data d))
  else ret tt.

Definition access_mut : E D unit :=
  let! n := sh num_access in
  for_range 0 (u8 n) access_one.

Definition map_shared_mem : E D unit := ret tt.

(** [RME_CMO_POPA]: the results of the two [modify_desc] are discarded. *)
Definition cmo_popa (arg0 arg1 : Z) : E D unit :=
  let! _v := modify_desc arg0 CIPOPA_NS_BIT (NSE_SET arg1) 1 in
  let! _v := modify_desc arg0 CIPOPA_NSE_BIT (NS_SET arg1) 1 in
  emit (EvCipapa arg0).

Definition root_watchdog (arg0 arg1 arg2 : Z) : E D unit :=
  let! g := sh generic_flag in
  (when truthy g then
     (set_daif ;; set_sh (set_exc_expected SET) ;; set_sh (set_access_mut CLEAR))) ;;
  val_wd_set_ws0_el3 arg0 (u32 arg1) arg2 ;;
  set_sh (set_generic_flag CLEAR).

(** [plat_arm_acs_smc_handler]; [vec] is the address of
    [exception_handler_user], [fuel] bounds the loops of the services. *)
Definition plat_arm_acs_smc_handler (vec : Z) (fuel : nat)
    (services arg0 arg1 arg2 : Z) : E D unit :=
  if services =? RME_INSTALL_HANDLER then rme_install_handler vec
  else if services =? RME_ADD_GPT_ENTRY then add_gpt_entry arg0 arg1 ;; emit EvTlbiPaallos
  else if services =? RME_ADD_MMU_ENTRY then
    add_mmu_entry fuel arg0 arg1 arg2 ;; emit (EvTlbiVae3 arg0)
  else if services =? RME_MAP_SHARED_MEM then map_shared_mem
  else if services =? RME_CMO_POPA then cmo_popa arg0 arg1
  else if services =? RME_ACCESS_MUT then access_mut
  else if services =? RME_DATA_CACHE_OPS then val_data_cache_ops_by_va_el3 arg0 (u32 arg1)
  else if services =? RME_MEM_SET then val_memory_set_el3 arg0 (u32 arg1) (u8 arg2)
  else if services =? RME_NS_ENCRYPTION then
    (if arg0 =? SET then val_enable_ns_encryption else val_disable_ns_encryption)
  else if services =? RME_READ_AND_CMPR_REG_MSD then
    (if arg0 =? SET then val_pe_reg_list_cmp_msd else val_pe_reg_read_msd)
  else if services =? LEGACY_TZ_ENABLE then val_prog_legacy_tz (s32 arg0)
  else if services =? ROOT_WATCHDOG then root_watchdog arg0 arg1 arg2
  else if services =? PAS_FILTER_SERVICE then val_pas_filter_active_mode (s32 arg0)
  else if services =? SMMU_ROOT_SERVICE then val_smmu_access_disable
  else if services =? SEC_STATE_CHANGE then val_security_state_change arg0
  else if services =? SMMU_CONFIG_SERVICE then
    val_smmu_root_config_service fuel arg0 (u32 arg1)
  else ret tt.
End code.
