(* ===== verification/El3Spec.v ===== *)
(** * El3Spec

    Properties of the EL3 services and of the exception handler modelled in
    [El3Common] and [El3Handler]. *)

From Stdlib Require Import ZArith Lia Bool List.
From stdpp Require Import base tactics numbers list gmap option.
From S2P Require Import Prelude Memory El3State PoolAlloc El3Pgt SmmuRealm El3Common El3Handler.

Section handler.
Context {D : Type} {HW : Hw D}.
Implicit Types s : el3 D.

(** A fault the test announced. *)
Definition armed s : Prop :=
  exception_expected (e_shared s) = SET /\ sh_access_mut (e_shared s) = CLEAR.
Definition is_gpf (esr : Z) : bool := (esr =? GPF_ESR_READ) || (esr =? GPF_ESR_WRITE).

(** The shared structure after an announced fault with syndrome [esr]. *)
Definition after_fault (esr : Z) (r : struct_sh_data) : struct_sh_data :=
  set_exc_expected CLEAR (if is_gpf esr then set_exc_generated SET r else r).

Lemma handler_armed s : armed s ->
  ack_handler_el3 s =
  Done ExitEret
    (add_ev EvEret
      (set_sys (fun r => with_elr (u64 (elr_el3 r + 4)) r)
        (set_shared (after_fault (esr_el3 (e_sys s))) s))).
Proof.
  intros [He Ha]. unfold ack_handler_el3, ack_handler_with, fault_expected. el3_run. rewrite He, Ha.
  change ((SET =? SET) && (CLEAR =? CLEAR)) with true. cbv iota.
  unfold after_fault, is_gpf, asm_eret, set_sh. el3_run.
  by destruct ((_ =? GPF_ESR_READ) || _).
Qed.

Lemma handler_idle s :
  sh_access_mut (e_shared s) <> SET -> exception_expected (e_shared s) <> SET ->
  ack_handler_el3 s =
  Done (ExitBranch (load64 (e_mem s) (armtf_handler + 8)))
    (add_ev (EvBranch (load64 (e_mem s) (armtf_handler + 8))) s).
Proof.
  intros Ha He. unfold ack_handler_el3, ack_handler_with, fault_expected. el3_run.
  replace (exception_expected (e_shared s) =? SET) with false by zbool.
  cbn [andb]. replace (sh_access_mut (e_shared s) =? SET) with false by zbool. done.
Qed.

(** C31. [ack_handler_el3] consumes an announced fault exactly once: it returns
    to the instruction after the faulting one, reports the fault in the shared
    structure when and only when it is a granule protection fault, withdraws the
    announcement and touches neither memory nor devices; a second fault then
    goes to the firmware's handler and changes nothing. *)
Theorem ack_fault_one_shot s : armed s ->
  wp ack_handler_el3 (fun x s1 =>
    x = ExitEret /\ elr_el3 (e_sys s1) = u64 (elr_el3 (e_sys s) + 4) /\
    exception_generated (e_shared s1) =
      (if is_gpf (esr_el3 (e_sys s)) then SET else exception_generated (e_shared s)) /\
    exception_expected (e_shared s1) = CLEAR /\
    e_mem s1 = e_mem s /\ e_dev s1 = e_dev s /\ e_smmu s1 = e_smmu s /\
    wp ack_handler_el3 (fun y s2 =>
      y = ExitBranch (load64 (e_mem s) (armtf_handler + 8)) /\
      e_sys s2 = e_sys s1 /\ e_shared s2 = e_shared s1) s1) s.
Proof.
  intros Ha. unfold wp at 1. rewrite handler_armed by done.
  split; [done|]. split; [done|]. split.
  { cbn. unfold after_fault. by destruct (is_gpf _). }
  split; [done|]. split; [done|]. split; [done|]. split; [done|].
  unfold wp. rewrite handler_idle; [done| |done].
  cbn. unfold after_fault. destruct Ha as [_ Ha]. by destruct (is_gpf _); cbn; rewrite Ha.
Qed.

(** The mutable access of a test that expects a fault: the handler saves
    ELR_EL3 and SPSR_EL3 before the store of the test data and restores them, so
    the exception returns where it was taken, and during the store the state is
    armed: the fault of the store itself is the announced one. *)
Theorem ack_access_restores s :
  sh_access_mut (e_shared s) = SET -> exception_expected (e_shared s) = SET ->
  pas_filter_flag (e_shared s) <> SET ->
  wp ack_handler_el3 (fun x s' =>
    x = ExitEret /\ elr_el3 (e_sys s') = elr_el3 (e_sys s) /\
    spsr_el3 (e_sys s') = spsr_el3 (e_sys s) /\
    e_trace s' = EvEret :: EvWrite 8 (sh_arg1 (e_shared s)) TEST_DATA :: e_trace s /\
    e_dev s' = hw_write 8 (e_dev s) (sh_arg1 (e_shared s)) TEST_DATA /\
    e_mem s' = e_mem s /\ armed s') s.
Proof.
  intros Ha He Hp. unfold ack_handler_el3, ack_handler_with, fault_expected, acs_str, eret_shared, io_write, set_sh, wp.
  el3_run. rewrite Ha, He. change ((SET =? SET) && (SET =? CLEAR)) with false. cbv iota.
  change (SET =? SET) with true. cbv iota. el3_run.
  cbn [pas_filter_flag exception_expected set_spsr set_elr set_access_mut sh_elr_el3 sh_spsr_el3
       sh_arg1 e_shared set_shared].
  replace (pas_filter_flag (e_shared s) =? SET) with false by zbool. cbv iota.
  rewrite He. change (SET =? SET) with true. cbv iota. by el3_run.
Qed.

(** ** Security state *)

Lemma testbit_scr scr st i : 0 <= i < 64 ->
  Z.testbit (scr_for_state scr st) i =
  if i =? 62 then (NSE_SET st =? 1) else if i =? 0 then (NS_SET st =? 1) else Z.testbit scr i.
Proof.
  intros Hi. unfold scr_for_state, bnot, SCR_NSE_MASK, SCR_NS_MASK, SCR_NSE_SHIFT, SCR_NS_SHIFT.
  rewrite !Z.lor_spec, !Z.land_spec, !testbit_wrap, !Z.lnot_spec by lia.
  replace (i <? 64) with true by lia. rewrite !andb_true_r.
  assert (forall b k, 0 <= k -> b = 0 \/ b = 1 ->
    Z.testbit (b << k) i = (i =? k) && (b =? 1)) as Hb.
  { intros b k Hk [-> | ->]; [by rewrite Z.shiftl_0_l, Z.testbit_0_l, andb_false_r|].
    rewrite Z.shiftl_1_l, Z.pow2_bits_eqb, andb_true_r by lia. apply Z.eqb_sym. }
  assert (forall x, NSE_SET x = 0 \/ NSE_SET x = 1) as H1
    by (intros x; unfold NSE_SET; destruct (_ || _); auto).
  assert (forall x, NS_SET x = 0 \/ NS_SET x = 1) as H2
    by (intros x; unfold NS_SET; destruct (_ || _); auto).
  rewrite !Hb by (try lia; auto).
  destruct (Z.eqb_spec i 62) as [->|]; cbn [Z.eqb Pos.eqb andb negb orb];
    [by rewrite !andb_false_r, orb_false_r|].
  destruct (Z.eqb_spec i 0) as [->|]; cbn [andb negb orb];
    [by rewrite !andb_false_r|].
  by rewrite !andb_true_r, orb_false_r.
Qed.

(** [val_security_state_change] puts (NSE, NS) of the requested security
    state into SCR_EL3, (0,0) Secure, (0,1) Non-secure, (1,0) Root and (1,1)
    Realm, keeps its other 62 bits, and changes nothing else. *)
Theorem security_state_bits (st : Z) s : 0 <= st <= 3 ->
  wp (val_security_state_change st) (fun _ s' =>
    let scr := scr_el3 (e_sys s') in
    Z.testbit scr 62 = bool_decide (st = ROOT_PAS \/ st = REALM_PAS) /\
    Z.testbit scr 0 = bool_decide (st = NONSECURE_PAS \/ st = REALM_PAS) /\
    (forall i, 0 <= i < 64 -> i <> 0 -> i <> 62 ->
       Z.testbit scr i = Z.testbit (scr_el3 (e_sys s)) i) /\
    s' = set_sys (with_scr scr) s) s.
Proof.
  intros Hst. unfold val_security_state_change. apply wp_bind. unfold sysreg.
  apply wp_gets, wp_modify. cbn [e_sys set_sys with_scr scr_el3].
  rewrite !testbit_scr by lia. cbn [Z.eqb Pos.eqb].
  assert (st = 0 \/ st = 1 \/ st = 2 \/ st = 3) as Hc by lia.
  split; [by destruct Hc as [-> | [-> | [-> | ->]]]|].
  split; [by destruct Hc as [-> | [-> | [-> | ->]]]|].
  split; [|done]. intros i Hi H0 H62. rewrite testbit_scr by lia.
  by destruct (Z.eqb_spec i 62), (Z.eqb_spec i 0).
Qed.

(** [RME_CMO_POPA] is meant to clean the physical address of the given
    security state, encoded in the NS and NSE bits 63 and 62 of the operand.  The
    results of both [modify_desc] are dropped: the operation is issued on the
    plain address, both bits clear, whatever the state is. *)
Theorem cmo_popa_ignores_state pa st s : 0 <= pa < 2 ^ 52 ->
  wp (cmo_popa pa st) (fun _ s' =>
    exists operand, e_trace s' = EvCipapa operand :: e_trace s /\
      Z.testbit operand CIPOPA_NS_BIT = false /\ Z.testbit operand CIPOPA_NSE_BIT = false /\
      forall st', cmo_popa pa st' s = Done tt s') s.
Proof.
  intros Hpa. assert (forall st', cmo_popa pa st' s = Done tt (add_ev (EvCipapa pa) s)) as Hrun
    by done.
  unfold wp. rewrite Hrun.
  exists pa. split; [done|]. split; [apply (testbit_high 52); [lia|done]|].
  split; [apply (testbit_high 52); [lia|done]|exact Hrun].
Qed.

(** ** Memory set and register comparison *)

(** [val_memory_set_el3] is [memset]: every byte of the range gets the
    value, no other byte changes. *)
Theorem memory_set_memset a n v s : 0 <= n ->
  wp (val_memory_set_el3 a n v) (fun _ s' =>
    (forall b, a <= b < a + n -> ld_byte (e_mem s') b = u8 v) /\
    only_at (fun b => a <= b < a + n) (e_mem s) (e_mem s') /\
    s' = set_mem (fun _ => e_mem s') s) s.
Proof.
  intros Hn. unfold val_memory_set_el3, for_range. rewrite Z.sub_0_r.
  eapply wp_mono; [|apply (wp_for_n (fun i s' =>
    (forall b, a <= b < a + i -> ld_byte (e_mem s') b = u8 v) /\
    only_at (fun b => a <= b < a + n) (e_mem s) (e_mem s') /\
    s' = set_mem (fun _ => e_mem s') s))].
  - intros [] s' H. by rewrite Z.add_0_l, Z2Nat.id in H by lia.
  - intros i s1 Hi (H1 & H2 & ->). apply wp_wr. cbn [set_mem e_mem].
    split; [|split; [|done]].
    + intros b Hb. destruct (Z.eq_dec b (a + i)) as [->|Hne]; [apply ld_byte_store1|].
      rewrite ld_byte_store by lia. apply H1. lia.
    + etransitivity; [exact H2|]. apply only_at_store. lia.
  - split; [lia|]. split; [done|]. by destruct s.
Qed.

Lemma s32_small n : 0 <= n < 2 ^ 31 -> s32 n = n.
Proof.
  intros Hn. unfold s32, u32. rewrite wrap_small by lia.
  replace (n <? 2 ^ 31) with true by zbool. done.
Qed.

(** The list after the first [k] entries were saved from the registers [x]. *)
Definition reg_saved (x : sysregs) (d : reg_details_msd) : reg_details_msd :=
  mk_reg (reg_name d) (msd_reg (reg_name d) x).
Definition saved_list (x : sysregs) (k : nat) (l : list reg_details_msd) :=
  map (reg_saved x) (firstn k l) ++ skipn k l.

Lemma saved_list_nth x k l : nth_error (saved_list x k l) k = nth_error l k.
Proof.
  unfold saved_list. revert l. induction k as [|k IH]; intros [|d l]; try done. apply IH.
Qed.

Lemma saved_list_step x k l d : nth_error l k = Some d ->
  alter (fun d' => mk_reg (reg_name d') (msd_reg (reg_name d) x)) k (saved_list x k l) =
  saved_list x (S k) l.
Proof.
  unfold saved_list. revert l. induction k as [|k IH]; intros [|d0 l] H; try done.
  { injection H as ->. done. }
  cbn in H. specialize (IH l H). cbn [firstn skipn map app].
  transitivity (reg_saved x d0 :: alter (fun d' => mk_reg (reg_name d') (msd_reg (reg_name d) x)) k
    (map (reg_saved x) (firstn k l) ++ skipn k l)); [done|]. by rewrite IH.
Qed.

Lemma reg_read_run n l s : reg_info (e_shared s) = mk_reg_info n l ->
  0 <= n < 2 ^ 31 -> n <= Z.of_nat (length l) ->
  wp val_pe_reg_read_msd (fun _ s' => s' =
    set_shared (set_reg_info (mk_reg_info n (saved_list (e_sys s) (Z.to_nat n) l))) s) s.
Proof.
  intros Hl Hn Hlen. unfold val_pe_reg_read_msd, sh. apply wp_bind, wp_gets. rewrite Hl.
  cbn [num_regs]. assert (s32 n = n) as -> by (apply s32_small; lia).
  unfold for_range. rewrite Z.sub_0_r.
  eapply wp_mono; [|apply (wp_for_n (fun i s' => s' =
    set_shared (set_reg_info (mk_reg_info n (saved_list (e_sys s) (Z.to_nat i) l))) s))].
  - intros [] s'. by rewrite Z2Nat.id by lia.
  - intros i s1 Hi ->.
    destruct (nth_error l (Z.to_nat i)) as [d|] eqn:Hd.
    2:{ apply nth_error_None in Hd. lia. }
    unfold reg_at, val_pe_reg_read, sh, sysreg. apply wp_bind, wp_bind, wp_gets.
    cbn [e_shared set_shared reg_info set_reg_info reg_list]. unfold wp.
    rewrite (nth_chk_some _ i d _) by (try lia; by rewrite saved_list_nth).
    unfold set_sh. el3_run. replace (Z.to_nat (i + 1)) with (S (Z.to_nat i)) by lia.
    rewrite <- (saved_list_step _ _ _ d Hd). done.
  - change (saved_list (e_sys s) (Z.to_nat 0) l) with l. rewrite <- Hl.
    by destruct s as [? ? ? []].
Qed.

(** How many of the [k] entries from [i] differ from the registers. *)
Definition differs (y : sysregs) (d : reg_details_msd) : bool :=
  negb (saved_reg_value d =? msd_reg (reg_name d) y).
Definition diff_count (y : sysregs) (l : list reg_details_msd) : Z :=
  Z.of_nat (length (List.filter (differs y) l)).

Lemma diff_count_pos y l : 0 < diff_count y l <-> exists d, In d l /\ differs y d = true.
Proof.
  unfold diff_count. induction l as [|d l IH]; [cbn; split; [lia|by intros (? & [] & _)]|].
  cbn [List.filter]. destruct (differs y d) eqn:H.
  - cbn [length]. split; [|lia]. intros _. exists d. split; [by left|done].
  - rewrite IH. split; intros (d' & Hd & H').
    + exists d'. split; [by right|done].
    + destruct Hd as [->|Hd]; [congruence|eauto].
Qed.

Lemma cmp_run k i acc s : 0 <= i ->
  i + Z.of_nat k <= Z.of_nat (length (reg_list (reg_info (e_shared s)))) ->
  for_acc k i acc cmp_step s =
  Done (inl (acc + diff_count (e_sys s)
    (firstn k (skipn (Z.to_nat i) (reg_list (reg_info (e_shared s))))))) s.
Proof.
  revert i acc. induction k as [|k IH]; intros i acc Hi Hlen; cbn [for_acc].
  { unfold ret, diff_count. cbn. by rewrite Z.add_0_r. }
  destruct (nth_error (reg_list (reg_info (e_shared s))) (Z.to_nat i)) as [d|] eqn:Hd.
  2:{ apply nth_error_None in Hd. lia. }
  unfold cmp_step at 1, reg_at, val_pe_reg_read, sh, sysreg. el3_run.
  rewrite (nth_chk_some _ i d _) by (try lia; done). cbn beta iota.
  rewrite IH by lia.
  assert (skipn (Z.to_nat i) (reg_list (reg_info (e_shared s))) =
          d :: skipn (Z.to_nat (i + 1)) (reg_list (reg_info (e_shared s)))) as ->.
  { replace (Z.to_nat (i + 1)) with (S (Z.to_nat i)) by lia. clear IH Hlen Hi.
    revert Hd. generalize (Z.to_nat i), (reg_list (reg_info (e_shared s))).
    intros n l. revert l. induction n as [|n IH]; intros [|d0 l] Hd; try done.
    { injection Hd as ->. done. }
    by apply (IH l). }
  cbn [firstn]. unfold diff_count. cbn [List.filter]. change (differs (e_sys s) d) with
    (negb (saved_reg_value d =? msd_reg (reg_name d) (e_sys s))).
  destruct (saved_reg_value d =? _); cbn [negb length]; [done|]. do 2 f_equal. lia.
Qed.

(** Save, disturb, compare: after [val_pe_reg_read_msd] with the registers
    [x] and any change of the system registers to [y], [val_pe_reg_list_cmp_msd]
    sets [generic_flag] when and only when some register of the shared list reads
    differently in [x] and [y]; it never clears the flag. *)
Theorem reg_save_compare n l (y : sysregs) s : reg_info (e_shared s) = mk_reg_info n l ->
  0 <= n < 2 ^ 31 -> n <= Z.of_nat (length l) ->
  wp (val_pe_reg_read_msd ;; modify (set_sys (fun _ => y)) ;; val_pe_reg_list_cmp_msd)
    (fun _ s' =>
       ((exists d, In d (firstn (Z.to_nat n) l) /\
           msd_reg (reg_name d) (e_sys s) <> msd_reg (reg_name d) y) ->
        generic_flag (e_shared s') = SET) /\
       ((forall d, In d (firstn (Z.to_nat n) l) ->
           msd_reg (reg_name d) (e_sys s) = msd_reg (reg_name d) y) ->
        generic_flag (e_shared s') = generic_flag (e_shared s))) s.
Proof.
  intros Hl Hn Hlen. apply wp_bind. eapply wp_mono; [|by apply (reg_read_run n l)].
  intros ? s1 ->. apply wp_bind, wp_modify. unfold val_pe_reg_list_cmp_msd, sh.
  apply wp_bind, wp_gets. cbn [e_shared set_sys set_shared reg_info set_reg_info num_regs].
  rewrite s32_small by lia.
  assert (length (saved_list (e_sys s) (Z.to_nat n) l) = length l) as Hln.
  { unfold saved_list. rewrite length_app, length_map, length_firstn, length_skipn. lia. }
  unfold wp. erewrite bind_done.
  2:{ apply cmp_run; [lia|]. cbn [e_shared set_sys set_shared reg_info set_reg_info reg_list].
      rewrite Hln. lia. }
  cbn [e_shared e_sys set_sys set_shared reg_info set_reg_info reg_list].
  change (Z.to_nat 0) with 0%nat. rewrite drop_0, Z.add_0_l.
  assert (firstn (Z.to_nat n) (saved_list (e_sys s) (Z.to_nat n) l) =
          map (reg_saved (e_sys s)) (firstn (Z.to_nat n) l)) as ->.
  { unfold saved_list. rewrite firstn_app, length_map, length_firstn.
    replace (Z.to_nat n - (Z.to_nat n `min` length l))%nat with 0%nat by lia.
    rewrite firstn_O, app_nil_r. apply firstn_all2. rewrite length_map, length_firstn. lia. }
  destruct (Z.ltb_spec 0 (diff_count y (map (reg_saved (e_sys s)) (firstn (Z.to_nat n) l)))) as [H|H].
  - split; [done|]. intros Heq. exfalso. apply diff_count_pos in H as (d & Hd & Hdiff).
    apply in_map_iff in Hd as (d0 & <- & Hd0). unfold differs in Hdiff. cbn in Hdiff.
    rewrite (Heq d0 Hd0), Z.eqb_refl in Hdiff. done.
  - split; [|done]. intros (d & Hd & Hne). exfalso.
    assert (0 < diff_count y (map (reg_saved (e_sys s)) (firstn (Z.to_nat n) l))); [|lia].
    apply diff_count_pos. exists (reg_saved (e_sys s) d). split; [by apply in_map|].
    unfold differs. cbn. by destruct (Z.eqb_spec (msd_reg (reg_name d) (e_sys s)) (msd_reg (reg_name d) y)).
Qed.

(** ** Root watchdog *)

Lemma wp_arm (Q : unit -> el3 D -> Prop) s :
  (forall s', e_dev s' = e_dev s -> e_trace s' = e_trace s -> e_mem s' = e_mem s ->
     generic_flag (e_shared s') = generic_flag (e_shared s) ->
     (generic_flag (e_shared s) <> 0 -> armed s') -> Q tt s') ->
  wp arm_exception Q s.
Proof.
  intros H. unfold arm_exception, sh. apply wp_bind, wp_gets. unfold truthy, set_sh.
  destruct (Z.eqb_spec (generic_flag (e_shared s)) 0) as [E|E]; cbn [negb].
  - apply wp_ret, H; try done.
  - apply wp_bind, wp_modify, wp_modify, H; try done.
Qed.

Lemma wp_ev_write n a v (Q : unit -> el3 D -> Prop) s :
  (forall s', e_shared s' = e_shared s -> e_trace s' = EvWrite n a v :: e_trace s ->
     e_mem s' = e_mem s -> Q tt s') ->
  wp (io_write n a v) Q s.
Proof. intros H. unfold io_write, wp. by apply H. Qed.

(** The two halves of the programmed offset. *)
Lemma ticks_halves x : 0 <= x < 2 ^ 64 -> u32 (x >> 32) * 2 ^ 32 + u32 x = x.
Proof.
  intros Hx. unfold u32. rewrite Z.shiftr_div_pow2 by lia.
  rewrite (wrap_small 32 (x / 2 ^ 32)).
  2:{ split; [apply Z.div_pos; lia|]. apply Z.div_lt_upper_bound; lia. }
  unfold wrap. pose proof (Z.div_mod x (2 ^ 32)). lia.
Qed.

(** [val_wd_set_ws0_el3] with a timeout: it reads the version, programs the
    low half of the 64-bit product of counter frequency and timeout, the high
    half on a version 1 watchdog only, so that the two halves together are the
    product, and enables the watchdog last; when the caller set [generic_flag]
    the exception of the watchdog is announced. *)
Theorem wd_set_ws0_programs base timeout freq s : 0 < timeout < 2 ^ 32 -> 0 <= freq ->
  wp (val_wd_set_ws0_el3 base timeout freq) (fun _ s' =>
    let ticks := u64 (freq * timeout) in
    exists iidr lo hi,
      e_trace s' = EvWrite 8 base SET ::
        (if fld 16 4 iidr =? 1 then [EvWrite 8 (u64 (base + 12)) hi] else []) ++
        [EvWrite 8 (u64 (base + 8)) lo; EvRead 8 (u64 (base + WD_IIDR_OFFSET)) iidr] ++
        e_trace s /\
      0 <= lo < 2 ^ 32 /\ hi * 2 ^ 32 + lo = ticks /\
      e_mem s' = e_mem s /\ (generic_flag (e_shared s) <> 0 -> armed s')) s.
Proof.
  intros Ht Hf. unfold val_wd_set_ws0_el3. replace (timeout =? 0) with false by zbool.
  apply wp_bind. unfold io_read at 1, wp at 1.
  destruct (hw_read 8 (e_dev s) _) as [v d].
  set (iidr := wrap (8 * Z.of_nat 8) v). set (s1 := add_ev _ _).
  assert (u32 (VAL_EXTRACT_BITS iidr 16 19) = fld 16 4 iidr) as ->.
  { unfold VAL_EXTRACT_BITS, u32. change ((1 << (19 - 16 + 1)) - 1) with (Z.ones 4).
    change ((iidr >> 16) .& Z.ones 4) with (fld 16 4 iidr).
    apply wrap_small. pose proof (fld_range 16 4 iidr ltac:(lia)). lia. }
  set (ticks := u64 (freq * timeout)).
  apply wp_bind, wp_arm. intros s2 _ T2 M2 G2 A2.
  apply wp_bind, wp_ev_write. intros s3 S3 T3 M3. apply wp_bind.
  assert (forall s4, generic_flag (e_shared s4) = generic_flag (e_shared s) ->
    e_mem s4 = e_mem s ->
    e_trace s4 = (if fld 16 4 iidr =? 1 then [EvWrite 8 (u64 (base + 12)) (u32 (ticks >> 32))] else []) ++
      e_trace s3 ->
    wp (val_wd_enable base) (fun _ s' => exists iidr lo hi,
      e_trace s' = EvWrite 8 base SET ::
        (if fld 16 4 iidr =? 1 then [EvWrite 8 (u64 (base + 12)) hi] else []) ++
        [EvWrite 8 (u64 (base + 8)) lo; EvRead 8 (u64 (base + WD_IIDR_OFFSET)) iidr] ++
        e_trace s /\
      0 <= lo < 2 ^ 32 /\ hi * 2 ^ 32 + lo = ticks /\
      e_mem s' = e_mem s /\ (generic_flag (e_shared s) <> 0 -> armed s')) s4) as Hen.
  { intros s4 G4 M4 T4. unfold val_wd_enable. apply wp_bind, wp_arm.
    intros s5 _ T5 M5 G5 A5. apply wp_ev_write. intros s6 S6 T6 M6.
    exists iidr, (u32 ticks), (u32 (ticks >> 32)).
    split; [rewrite T6, T5, T4, T3, T2; by destruct (_ =? 1)|].
    split; [by apply wrap_range|]. split; [by apply ticks_halves, wrap_range|].
    split; [congruence|]. intros Hg. rewrite G4 in A5. unfold armed in *. rewrite S6. auto. }
  destruct (fld 16 4 iidr =? 1).
  - apply wp_bind, wp_arm. intros s4 _ T4 M4 G4 _. apply wp_ev_write. intros s5 S5 T5 M5.
    apply Hen; [rewrite S5, G4, S3, G2; done|rewrite M5, M4, M3, M2; done|].
    by rewrite T5, T4.
  - apply wp_ret, Hen; [rewrite S3, G2; done|by rewrite M3, M2|done].
Qed.

(** The SMC service that maps a device for the Root world never completes
    once the SMMU driver is initialised: it passes a local attribute structure
    whose SMMU index nobody assigned. *)
Theorem smmu_map_service_undefined vec fuel sid arg2 l s :
  g_smmu (e_smmu s) = Some l ->
  plat_arm_acs_smc_handler vec fuel SMMU_CONFIG_SERVICE SMMU_RLM_SMMU_MAP sid arg2 s = Undef.
Proof.
  intros Hg. unfold plat_arm_acs_smc_handler.
  change (val_smmu_root_config_service fuel SMMU_RLM_SMMU_MAP (u32 sid) s = Undef).
  unfold val_smmu_root_config_service.
  change (SMMU_RLM_SMMU_MAP =? SMMU_ROOT_RME_IMPL_CHK) with false.
  change (SMMU_RLM_SMMU_MAP =? SMMU_RLM_PGT_INIT) with false.
  change (SMMU_RLM_SMMU_MAP =? SMMU_RLM_SMMU_MAP) with true. cbv iota.
  unfold io_read, bind at 1. destruct (hw_read 4 _ _) as [v d].
  unfold val_get_tcr_info. el3_run. unfold nth_chk.
  destruct (if _ <? 0 then None else _) as [ias|]; [|done].
  cbn [use]. el3_run. unfold val_smmu_rlm_map, upd_glob, glob. el3_run.
  cbn [set_g_sid g_smmu]. by rewrite Hg.
Qed.
End handler.

(** ** Witnesses *)

Definition armed_el3 : el3 unit :=
  mk_el3 ∅ tt (mk_sysregs 0 0 0 0 0 0 0 0 0x1000 0x3c5 GPF_ESR_READ 0 0)
    (set_exc_expected SET zero_shared) [] 0 0 zero_globals.

Lemma ack_fault_one_shot_witness :
  wp (ack_handler_el3 (HW := quiet_hw)) (fun x s1 =>
    x = ExitEret /\ elr_el3 (e_sys s1) = 0x1004 /\ exception_generated (e_shared s1) = SET)
    armed_el3.
Proof.
  eapply wp_mono; [|apply (ack_fault_one_shot (HW := quiet_hw) armed_el3); split; reflexivity].
  intros x s1 (H1 & H2 & H3 & _). exact (conj H1 (conj H2 H3)).
Defined.

Definition access_el3 : el3 unit :=
  mk_el3 ∅ tt (mk_sysregs 0 0 0 0 0 0 0 0 0x1000 0x3c5 0 0 0)
    (set_access_mut SET (set_exc_expected SET zero_shared)) [] 0 0 zero_globals.

Lemma ack_access_restores_witness :
  wp (ack_handler_el3 (HW := quiet_hw)) (fun x s' =>
    elr_el3 (e_sys s') = 0x1000 /\ spsr_el3 (e_sys s') = 0x3c5 /\ armed s') access_el3.
Proof.
  eapply wp_mono; [|apply (ack_access_restores (HW := quiet_hw) access_el3);
    [reflexivity | reflexivity | discriminate]].
  intros x s' (_ & H1 & H2 & _ & _ & _ & H3). exact (conj H1 (conj H2 H3)).
Defined.

Lemma security_state_bits_witness :
  wp (val_security_state_change REALM_PAS) (fun _ s' =>
    Z.testbit (scr_el3 (e_sys s')) 62 = true /\ Z.testbit (scr_el3 (e_sys s')) 0 = true)
    armed_el3.
Proof.
  eapply wp_mono; [|apply (security_state_bits REALM_PAS armed_el3); vm_compute; split; discriminate].
  intros [] s' (H1 & H2 & _). exact (conj H1 H2).
Defined.

Lemma cmo_popa_ignores_state_witness :
  wp (cmo_popa 0x88001000 REALM_PAS) (fun _ s' =>
    exists operand, e_trace s' = [EvCipapa operand] /\
      Z.testbit operand CIPOPA_NS_BIT = false) armed_el3.
Proof.
  eapply wp_mono; [|apply (cmo_popa_ignores_state 0x88001000 REALM_PAS armed_el3);
                    vm_compute; split; [discriminate | reflexivity]].
  intros [] s' (o & H1 & H2 & _). exact (ex_intro _ o (conj H1 H2)).
Defined.

Lemma memory_set_memset_witness :
  wp (val_memory_set_el3 0x1000 16 0xAB) (fun _ s' =>
    ld_byte (e_mem s') 0x100F = 0xAB) armed_el3.
Proof.
  eapply wp_mono; [|apply (memory_set_memset 0x1000 16 0xAB armed_el3); lia].
  intros [] s' (H & _). apply (H 0x100F). lia.
Defined.

(** The list holds SCR_EL3 and TCR_EL3. *)
Definition msd_el3 : el3 unit :=
  set_shared (set_reg_info (mk_reg_info 2 [mk_reg SCR_EL3_MSD 0; mk_reg TCR_EL3_MSD 0])) armed_el3.

Lemma reg_save_compare_witness :
  wp (val_pe_reg_read_msd ;; modify (set_sys (fun _ => with_scr 1 (e_sys msd_el3))) ;;
      val_pe_reg_list_cmp_msd)
    (fun _ s' => generic_flag (e_shared s') = SET) msd_el3.
Proof.
  eapply wp_mono; [|apply (reg_save_compare 2 [mk_reg SCR_EL3_MSD 0; mk_reg TCR_EL3_MSD 0]
    (with_scr 1 (e_sys msd_el3)) msd_el3); [reflexivity | lia | cbn; lia]].
  intros [] s' [H _]. apply H. exists (mk_reg SCR_EL3_MSD 0).
  split; [left; reflexivity | vm_compute; discriminate].
Defined.

Lemma wd_set_ws0_programs_witness :
  wp (val_wd_set_ws0_el3 (HW := quiet_hw) 0x2A000000 10 100000000) (fun _ s' =>
    exists tr, e_trace s' = EvWrite 8 0x2A000000 SET :: tr) armed_el3.
Proof.
  eapply wp_mono; [|apply (wd_set_ws0_programs (HW := quiet_hw) 0x2A000000 10 100000000 armed_el3);
                    lia].
  intros [] s' (iidr & lo & hi & H & _). eexists. exact H.
Defined.

Definition mapped_smmu : el3 unit :=
  set_smmu (fun _ => mk_globals (Some []) 0 0 0 ∅ ∅ [] ∅) armed_el3.

Lemma smmu_map_service_undefined_witness :
  plat_arm_acs_smc_handler (HW := quiet_hw) 0 10 SMMU_CONFIG_SERVICE SMMU_RLM_SMMU_MAP 8 0
    mapped_smmu = Undef.
Proof. exact (smmu_map_service_undefined (HW := quiet_hw) 0 10 8 0 [] mapped_smmu eq_refl). Defined.
