(* ===== verification/BMRuntime.v ===== *)
(** * BMRuntime

    The bare-metal runtime of platform/pal_baremetal/src/pal_misc.c: string and
    memory primitives, the heap, and the formatted console output. Characters
    go to [bm_uart], newest first. *)

From Stdlib Require Import ZArith Lia Bool List.
From stdpp Require Import base tactics numbers list gmap option.
From S2P Require Import Prelude Memory.

(** ** Platform constants (FVP) *)
Definition PLATFORM_NORMAL_WORLD_IMAGE_SIZE : Z := 0x4000000.
Definition PLATFORM_NORMAL_WORLD_IMAGE_BASE : Z := 0x88000000.
Definition PLATFORM_MEMORY_POOL_SIZE : Z := 250 * 0x100000.
Definition PLATFORM_SHARED_REGION_SIZE : Z := 0x100000.
Definition PLATFORM_HEAP_REGION_SIZE : Z :=
  PLATFORM_MEMORY_POOL_SIZE - PLATFORM_SHARED_REGION_SIZE.
Definition PLATFORM_MEMORY_POOL_BASE : Z :=
  PLATFORM_NORMAL_WORLD_IMAGE_BASE + PLATFORM_NORMAL_WORLD_IMAGE_SIZE.
Definition PLATFORM_HEAP_REGION_BASE : Z :=
  PLATFORM_MEMORY_POOL_BASE + PLATFORM_SHARED_REGION_SIZE.
Definition PLATFORM_PAGE_SIZE : Z := 0x1000.
Definition MEM_ALIGN_4K : Z := 0x1000.
Definition ACS_PRINT_ERR : Z := 5.
Definition ACS_PRINT_TEST : Z := 3.
Definition ACS_PRINT_INFO : Z := 1.

(** [ADDR_ALIGN]. *)
Definition ADDR_ALIGN (a b : Z) : Z := u64 (a + u64 (b - 1)) .& bnot 64 (u64 (b - 1)).

Definition is_power_of_2 (n : Z) : bool := truthy n && negb (truthy (n .& u32 (n - 1))).

(** A variadic argument: a value, or a string. *)
Inductive va_arg := VNum (v : Z) | VStr (s : list Z).

(** [int] and [long long] readings of a 64-bit slot. *)
Definition sint (w x : Z) : Z := if wrap w x <? 2 ^ (w - 1) then wrap w x else wrap w x - 2 ^ w.
Definition get_num_va_args (v l_count : Z) : Z := if l_count =? 0 then sint 32 v else sint 64 v.
Definition get_unum_va_args (v l_count : Z) : Z := if l_count =? 0 then u32 v else u64 v.

Record bm := mk_bm {
  bm_mem : mem; heap_base : Z; heap_top : Z; heap_init_done : Z; bm_uart : list Z;
  gSharedMemory : Z
}.
Abbreviation B := (M bm).

Definition upd_bm_mem f s := mk_bm (f (bm_mem s)) (heap_base s) (heap_top s) (heap_init_done s)
  (bm_uart s) (gSharedMemory s).
Definition upd_heap b t i s := mk_bm (bm_mem s) b t i (bm_uart s) (gSharedMemory s).
Definition upd_uart c s := mk_bm (bm_mem s) (heap_base s) (heap_top s) (heap_init_done s)
  (c :: bm_uart s) (gSharedMemory s).
Definition upd_shared v s := mk_bm (bm_mem s) (heap_base s) (heap_top s) (heap_init_done s)
  (bm_uart s) v.
Definition bm_init : bm := mk_bm ∅ 0 0 0 [] 0.

Definition rdb (a : Z) : B Z := gets (fun s => ld_byte (bm_mem s) a).
Definition wrb (a v : Z) : B unit := modify (upd_bm_mem (fun m => st_byte m a v)).
Definition pal_uart_putc (c : Z) : B unit := modify (upd_uart c).

(** ** Memory and string primitives *)

Definition pal_memcpy (dst src Length : Z) : B Z :=
  for_range 0 Length (fun i => let! c := rdb (src + i) in wrb (dst + i) c) ;;
  ret dst.

(** One turn of the [while] of [pal_strncmp]: leaves with the difference. *)
Definition strncmp_step (str1 str2 i : Z) (_u : unit) : B (unit + Z) :=
  let! c1 := rdb (str1 + i) in
  let! c2 := rdb (str2 + i) in
  if truthy c1 && (c1 =? c2) then ret (inl tt) else ret (inr (u32 (c1 - c2))).

Definition pal_strncmp (str1 str2 len : Z) : B Z :=
  let! r := for_acc (Z.to_nat len) 0 tt (strncmp_step str1 str2) in
  match r with inl _ => ret 0 | inr v => ret v end.

(** One turn of the [while] of [pal_strncpy]: leaves with the index reached. *)
Definition strncpy_step (d s i : Z) (_u : unit) : B (unit + Z) :=
  let! c := rdb (s + i) in
  if truthy c then wrb (d + i) c ;; ret (inl tt) else ret (inr i).

Definition pal_strncpy (d s Length : Z) : B Z :=
  if d =? 0 then ret 0 else
  let! r := for_acc (Z.to_nat Length) 0 tt (strncpy_step d s) in
  let n := match r with inl _ => Length | inr i => i end in
  wrb (d + n) 0 ;;
  ret d.

(** One turn of the [do] of [pal_mem_compare]: [Dest] is the minuend. *)
Definition compare_step (Src Dest i : Z) (_u : unit) : B (unit + Z) :=
  let! p1 := rdb (Dest + i) in
  let! p2 := rdb (Src + i) in
  if p1 =? p2 then ret (inl tt) else ret (inr (p1 - p2)).

Definition pal_mem_compare (Src Dest Len : Z) : B Z :=
  let! r := for_acc (Z.to_nat Len) 0 tt (compare_step Src Dest) in
  match r with inl _ => ret 0 | inr v => ret v end.

Definition pal_mem_set (buf size value : Z) : B unit :=
  for_range 0 size (fun i => wrb (buf + i) (u8 value)).

(** ** Heap *)

Definition heap_alloc (alignment size : Z) : B Z :=
  let! base := gets heap_base in
  let! top := gets heap_top in
  let addr := ADDR_ALIGN base alignment in
  let size := u64 (size + u64 (addr - base)) in
  if u64 (top - base) <? size then ret 0 else
  modify (fun s => upd_heap (u64 (base + size)) top (heap_init_done s) s) ;;
  ret addr.

Definition mem_alloc_init : B unit :=
  modify (upd_heap PLATFORM_HEAP_REGION_BASE
    (PLATFORM_HEAP_REGION_BASE + PLATFORM_HEAP_REGION_SIZE) 1).

Definition mem_alloc (alignment size : Z) : B Z :=
  let! d := gets heap_init_done in
  (when negb (d =? 1) then mem_alloc_init) ;;
  if size =? 0 then ret 0 else
  if negb (is_power_of_2 (u32 alignment)) then ret 0 else
  heap_alloc alignment (u64 (size + (alignment - 1))).

Definition mem_free (ptr : Z) : B unit := ret tt.

Definition pal_mem_alloc (Size : Z) : B Z := mem_alloc 0x08 Size.
Definition pal_mem_calloc (num Size : Z) : B Z :=
  let n := u32 (num * Size) in
  let! ptr := mem_alloc 0x08 n in
  (when truthy ptr then pal_mem_set ptr n 0) ;;
  ret ptr.
(** The cache maintenance that follows has no effect on this state. *)
Definition pal_mem_allocate_shared (num_pe sizeofentry : Z) : B unit :=
  modify (upd_shared 0) ;;
  let! p := pal_mem_alloc (u32 (num_pe * sizeofentry)) in
  modify (upd_shared p).
Definition pal_mem_virt_to_phys (Va : Z) : Z := Va.
Definition pal_mem_phys_to_virt (Pa : Z) : Z := Pa.
Definition pal_mem_page_size : Z := PLATFORM_PAGE_SIZE.
Definition pal_mem_alloc_pages (NumPages : Z) : B Z :=
  mem_alloc MEM_ALIGN_4K (u32 (NumPages * PLATFORM_PAGE_SIZE)).
Definition pal_mem_free_pages (PageBase NumPages : Z) : B unit := ret tt.
Definition pal_aligned_alloc (alignment size : Z) : B Z := mem_alloc alignment size.

(** ** Console output *)

Fixpoint string_print (str : list Z) : B Z :=
  match str with
  | [] => ret 0
  | c :: str' => pal_uart_putc c ;; let! n := string_print str' in ret (n + 1)
  end.

Definition digit_char (rem : Z) : Z := u8 (if rem <? 0xa then 48 + rem else 97 + (rem - 0xa)).

(** One turn of the digit loop: (digits so far, unum). The first digit
    of the list is [num_buf[i - 1]], the last written; [num_buf] has 20 bytes. *)
Definition num_step (radix : Z) (x : list Z * Z) : B (list Z * Z + list Z) :=
  let '(buf, unum) := x in
  require (length buf <? 20)%nat ;;
  let buf' := digit_char (unum mod radix) :: buf in
  let unum' := unum / radix in
  if 0 <? unum' then ret (inl (buf', unum')) else ret (inr buf').

(** A [while] that prints [padc] while [i < padn]. *)
Definition pad_print (padc : Z) (n : Z) : B unit := for_range 0 n (fun _ => pal_uart_putc padc).

Definition unsigned_num_print (unum radix padc padn : Z) : B Z :=
  if radix <? 10 then ret 0 else
  let! buf := loop 65 (num_step radix) ([], unum) in
  let i := Z.of_nat (length buf) in
  let pad := if 0 <? padn then Z.max 0 (padn - i) else 0 in
  pad_print padc pad ;;
  let! n := string_print buf in
  ret (pad + n).

(** Where the scan of the format is: plain text, after a percent sign
    (l_count, padn), or inside a width. *)
Inductive pmode := PText | PSpec (l_count padn : Z) | PWidth (l_count padn : Z).

(** What one format character does: stop with a value, or go on in a mode with
    the printed count and the remaining arguments. *)
Definition pnext : Type := Z + pmode * Z * list va_arg.

(** One case of the [switch]; [padc] is the padding character in force. *)
Definition print_spec (c l_count padn padc count : Z) (args : list va_arg) : B pnext :=
  let num k := match args with VNum v :: args' => k v args' | _ => undef end in
  let done n args' := ret (inr (PText, count + n, args')) in
  if c =? 37 then pal_uart_putc 37 ;; done 0 args                       (* % *)
  else if (c =? 105) || (c =? 100) then                                  (* i d *)
    num (fun v args' =>
      let v := get_num_va_args v l_count in
      if v <? 0 then
        require (negb (v =? - 2 ^ 63)) ;;
        pal_uart_putc 45 ;;
        let! n := unsigned_num_print (- v) 10 padc (padn - 1) in done n args'
      else let! n := unsigned_num_print v 10 padc padn in done n args')
  else if c =? 115 then                                                  (* s *)
    match args with
    | VStr s :: args' => let! n := string_print s in done n args'
    | _ => undef
    end
  else if c =? 112 then                                                  (* p *)
    num (fun v args' =>
      let v := u64 v in
      if 0 <? v then
        let! k := string_print [48; 120] in
        let! n := unsigned_num_print v 16 padc (padn - 2) in done (k + n) args'
      else let! n := unsigned_num_print v 16 padc padn in done n args')
  else if c =? 120 then                                                  (* x *)
    num (fun v args' =>
      let! n := unsigned_num_print (get_unum_va_args v l_count) 16 padc padn in done n args')
  else if c =? 122 then ret (inr (PSpec 2 padn, count, args))            (* z *)
  else if c =? 108 then ret (inr (PSpec (l_count + 1) padn, count, args)) (* l *)
  else if c =? 117 then                                                  (* u *)
    num (fun v args' =>
      let! n := unsigned_num_print (get_unum_va_args v l_count) 10 padc padn in done n args')
  else if (48 <=? c) && (c <=? 57) then                                  (* 0 .. 9 *)
    ret (inr (PWidth l_count 0, count, args))
  else ret (inl (-1)).

(** [vprintf] over a format without its terminating NUL. [padc] becomes 48 at
    the first width and keeps that value. *)
Fixpoint vprintf_from (fmt : list Z) (m : pmode) (padc count : Z) (args : list va_arg) : B Z :=
  match fmt with
  | [] => match m with PText => ret count | _ => ret (-1) end
  | c :: fmt' =>
    let spec l padn padc :=
      let! r := print_spec c l padn padc count args in
      match r with
      | inl v => ret v
      | inr (m', count', args') =>
          vprintf_from fmt' m'
            (match m' with PWidth _ _ => 48 | _ => padc end) count' args'
      end in
    match m with
    | PText =>
        if c =? 37 then vprintf_from fmt' (PSpec 0 0) padc count args
        else
          pal_uart_putc c ;;
          (when c =? 10 then pal_uart_putc 13) ;;
          vprintf_from fmt' PText padc (count + 1) args
    | PSpec l padn => spec l padn padc
    | PWidth l padn =>
        if (c <? 48) || (57 <? c) then spec l padn padc
        else vprintf_from fmt' (PWidth l (padn * 10 + (c - 48))) padc count args
    end
  end.

Definition vprintf (fmt : list Z) (args : list va_arg) : B Z :=
  vprintf_from fmt PText 0 0 args.

(** [prefix_str[level - 1]]: the index, the strings are all empty. *)
Definition log_get_prefix (log_level : Z) : Z :=
  let level := if ACS_PRINT_ERR <? log_level then ACS_PRINT_ERR
               else if log_level <? ACS_PRINT_INFO then ACS_PRINT_TEST
               else log_level in
  level - 1.

(** [pal_print_raw]: digits of [data], least significant first, as the two
    [while] loops fill [buffer] (16 bytes). *)
Definition raw_step (radix : Z) (alpha : Z) (x : list Z * Z) : B (list Z * Z + list Z) :=
  let '(buf, data) := x in
  if data =? 0 then ret (inr buf) else
  require (length buf <? 16)%nat ;;
  let j := data mod radix in
  ret (inl (u8 (j + (if 9 <? j then alpha else 48)) :: buf, data / radix)).

(** One turn of the [for]: plain characters, and [%d], [%x], [%X] with [data];
    any other character after the percent sign prints a 0. *)
Fixpoint pal_print_raw (fuel : nat) (str : list Z) (data : Z) : B unit :=
  match str with
  | [] => ret tt
  | c :: str' =>
    if c =? 37 then
      match str' with
      | [] => undef (* ++string passes the terminator *)
      | f :: str'' =>
        let conv := if f =? 100 then Some (10, 48)
                    else if (f =? 120) || (f =? 88) then Some (16, 55) else None in
        let! buf := match conv with
                    | Some (radix, alpha) => loop fuel (raw_step radix alpha) ([], data)
                    | None => ret []
                    end in
        (match buf with
         | [] => pal_uart_putc 48
         | _ => let! _n := string_print buf in ret tt
         end) ;;
        pal_print_raw fuel str'' (match conv with Some _ => 0 | None => data end)
      end
    else pal_uart_putc c ;; pal_print_raw fuel str' data
  end.
