(* ===== verification/BMSpec.v ===== *)
(** * BMSpec

    Properties of the bare-metal runtime modelled in [BMRuntime]: the heap and
    the number printers. *)

From Stdlib Require Import ZArith Lia Bool List.
From stdpp Require Import base tactics numbers list gmap option.
From S2P Require Import Prelude Memory BMRuntime.

(** ** Heap *)

Lemma is_power_of_2_pow k : 0 <= k < 32 -> is_power_of_2 (2 ^ k) = true.
Proof.
  intros Hk. pose proof (Z.pow_pos_nonneg 2 k ltac:(lia) ltac:(lia)).
  pose proof (Z.pow_lt_mono_r 2 k 32 ltac:(lia) ltac:(lia) ltac:(lia)).
  unfold is_power_of_2, truthy, u32. rewrite wrap_small by lia.
  replace (2 ^ k =? 0) with false by zbool. cbn [negb andb].
  rewrite (proj2 (land_low_aligned k (2 ^ k) ltac:(lia))); [done|].
  unfold aligned. apply Z.mod_same. lia.
Qed.

(** [ADDR_ALIGN] is the least multiple at or above the address. *)
Lemma addr_align_up a k : 0 <= k < 32 -> 0 <= a -> a + 2 ^ k <= 2 ^ 64 ->
  aligned (ADDR_ALIGN a (2 ^ k)) (2 ^ k) /\ a <= ADDR_ALIGN a (2 ^ k) < a + 2 ^ k.
Proof.
  intros Hk Ha Hw. pose proof (Z.pow_pos_nonneg 2 k ltac:(lia) ltac:(lia)) as Hp.
  unfold ADDR_ALIGN, u64. rewrite (wrap_small 64 (2 ^ k - 1)) by lia.
  rewrite (wrap_small 64 (a + (2 ^ k - 1))) by lia. rewrite round_down by lia.
  pose proof (Z.div_mod (a + (2 ^ k - 1)) (2 ^ k) ltac:(lia)) as E.
  pose proof (Z.mod_pos_bound (a + (2 ^ k - 1)) (2 ^ k) Hp).
  split; [|lia]. unfold aligned.
  replace (a + (2 ^ k - 1) - (a + (2 ^ k - 1)) mod 2 ^ k) with ((a + (2 ^ k - 1)) / 2 ^ k * 2 ^ k) by lia.
  apply Z.mod_mul. lia.
Qed.

(** [mem_alloc] for a power-of-two alignment: either it fails, leaves the heap
    alone, and the free space was less than the size plus twice the alignment, or
    the block is aligned, lies between the old and the new free pointer, which stays
    within the heap: blocks of different calls never overlap. *)
Theorem mem_alloc_fresh k size s : heap_init_done s = 1 -> 0 <= k < 32 ->
  0 < heap_base s <= heap_top s -> heap_top s < 2 ^ 62 -> 0 < size < 2 ^ 62 ->
  wp (mem_alloc (2 ^ k) size) (fun p s' =>
    (p = 0 /\ s' = s /\ heap_top s - heap_base s < size + 2 * 2 ^ k) \/
    (aligned p (2 ^ k) /\ heap_base s <= p /\ p + size <= heap_base s' /\
     heap_base s' <= heap_top s /\ heap_top s' = heap_top s /\ heap_init_done s' = 1 /\
     bm_mem s' = bm_mem s)) s.
Proof.
  intros Hi Hk Hb Ht Hs. pose proof (Z.pow_pos_nonneg 2 k ltac:(lia) ltac:(lia)) as Hp.
  pose proof (Z.pow_lt_mono_r 2 k 32 ltac:(lia) ltac:(lia) ltac:(lia)) as Hp2.
  destruct (addr_align_up (heap_base s) k Hk ltac:(lia) ltac:(lia)) as (Hal & Hlo & Hhi).
  unfold mem_alloc. apply wp_bind, wp_gets. rewrite Hi. change (negb (1 =? 1)) with false.
  apply wp_bind, wp_ret. replace (size =? 0) with false by zbool.
  unfold u32. rewrite (wrap_small 32 (2 ^ k)) by lia. rewrite is_power_of_2_pow by done. cbn [negb].
  unfold heap_alloc. apply wp_bind, wp_gets, wp_bind, wp_gets.
  set (p := ADDR_ALIGN (heap_base s) (2 ^ k)) in *.
  assert (u64 (u64 (size + (2 ^ k - 1)) + u64 (p - heap_base s)) = size + (2 ^ k - 1) + (p - heap_base s))
    as ->.
  { unfold u64. rewrite (wrap_small 64 (size + (2 ^ k - 1))), (wrap_small 64 (p - heap_base s)) by lia.
    apply wrap_small. lia. }
  assert (u64 (heap_top s - heap_base s) = heap_top s - heap_base s) as -> by (apply wrap_small; lia).
  destruct (Z.ltb_spec (heap_top s - heap_base s) (size + (2 ^ k - 1) + (p - heap_base s))).
  - apply wp_ret. left. split; [done|]. split; [done|]. lia.
  - apply wp_bind, wp_modify, wp_ret. right. cbn [heap_base heap_top heap_init_done bm_mem upd_heap].
    assert (u64 (heap_base s + (size + (2 ^ k - 1) + (p - heap_base s))) =
            heap_base s + (size + (2 ^ k - 1) + (p - heap_base s))) as -> by (apply wrap_small; lia).
    repeat (split; [first [done | lia]|]). done.
Qed.

Definition demo_heap : bm := mk_bm ∅ 0x8C100008 0x8C200000 1 [] 0.
Lemma mem_alloc_fresh_witness :
  wp (mem_alloc (2 ^ 12) 0x1000) (fun p s' =>
    (p = 0 /\ s' = demo_heap /\ 0x8C200000 - 0x8C100008 < 0x1000 + 2 * 2 ^ 12) \/
    (aligned p (2 ^ 12) /\ 0x8C100008 <= p /\ p + 0x1000 <= heap_base s' /\
     heap_base s' <= 0x8C200000 /\ heap_top s' = 0x8C200000 /\ heap_init_done s' = 1 /\
     bm_mem s' = ∅)) demo_heap.
Proof. apply (mem_alloc_fresh 12 0x1000 demo_heap); cbn [heap_base heap_top demo_heap]; first [reflexivity | lia]. Defined.

(** ** Number printing *)

(** The value of a digit list, most significant digit first. *)
Definition num_value (radix : Z) (ds : list Z) : Z := fold_left (fun acc d => acc * radix + d) ds 0.

Lemma num_value_snoc radix ds d : num_value radix (ds ++ [d]) = num_value radix ds * radix + d.
Proof. unfold num_value. by rewrite fold_left_app. Qed.

(** What the digit loop adds in front of the digits [ds] for the value [u]. *)
Definition digits_of (radix u : Z) (m : nat) (pre : list Z) : Prop :=
  num_value radix pre = u /\ Forall (fun d => 0 <= d < radix) pre /\
  (1 <= length pre <= m)%nat /\ (forall d ds, pre = d :: ds -> ds <> [] -> d <> 0).

Lemma num_loop radix m : forall fuel ds u s, 2 <= radix ->
  0 <= u < radix ^ Z.of_nat m -> (1 <= m)%nat -> (length ds + m <= 20)%nat -> (m <= fuel)%nat ->
  exists pre, loop fuel (num_step radix) (map digit_char ds, u) s =
      Done (map digit_char (pre ++ ds)) s /\ digits_of radix u m pre.
Proof.
  induction m as [|m IH]; intros fuel ds u s Hr Hu Hm Hlen Hf; [lia|].
  destruct fuel as [|fuel]; [lia|]. cbn [loop]. unfold num_step at 1.
  rewrite length_map. replace (length ds <? 20)%nat with true by (symmetry; apply Nat.ltb_lt; lia).
  cbn [require]. unfold bind at 1, bind at 1, ret at 1.
  pose proof (Z.mod_pos_bound u radix ltac:(lia)) as Hmod.
  pose proof (Z.div_mod u radix ltac:(lia)) as Hdm.
  destruct (Z.ltb_spec 0 (u / radix)) as [Hq|Hq]; unfold ret at 1.
  - assert (1 <= m)%nat as Hm1.
    { destruct m as [|m]; [|lia]. change (radix ^ Z.of_nat 1) with (radix ^ 1) in Hu.
      rewrite Z.pow_1_r in Hu. rewrite Z.div_small in Hq by lia. lia. }
    destruct (IH fuel ((u mod radix) :: ds) (u / radix) s Hr) as (pre & Hrun & Hv & Hall & Hl & Hz);
      [|lia|cbn [length]; lia|lia|].
    { split; [lia|]. apply Z.div_lt_upper_bound; [lia|]. rewrite Nat2Z.inj_succ, Z.pow_succ_r in Hu by lia. lia. }
    exists (pre ++ [u mod radix]). split.
    { cbn [map] in Hrun. rewrite Hrun. f_equal. by rewrite <- app_assoc. }
    split; [rewrite num_value_snoc, Hv; lia|]. split; [apply Forall_app; split; [done|by constructor; [|constructor]]|].
    split; [rewrite length_app; cbn [length]; lia|].
    intros d ds' E Hne. destruct pre as [|d0 pre]; [cbn in Hl; lia|]. injection E as -> E.
    destruct pre as [|d1 pre]; [|by apply (Hz d (d1 :: pre))].
    intros ->. unfold num_value in Hv. cbn in Hv. lia.
  - exists [u mod radix]. assert (u / radix = 0) as H0.
    { pose proof (Z.div_pos u radix ltac:(lia) ltac:(lia)). lia. }
    split; [done|]. split; [unfold num_value; cbn; lia|]. split; [by constructor; [|constructor]|].
    split; [cbn [length]; lia|]. intros d ds' [= <- <-] Hne. done.
Qed.

(** The characters printed, oldest first. *)
Definition printed (out : list Z) (s s' : bm) : Prop :=
  bm_uart s' = rev out ++ bm_uart s /\ bm_mem s' = bm_mem s /\ heap_base s' = heap_base s /\
  heap_top s' = heap_top s.

Lemma printed_trans o1 o2 s1 s2 s3 : printed o1 s1 s2 -> printed o2 s2 s3 -> printed (o1 ++ o2) s1 s3.
Proof.
  unfold printed. intros (U1 & M1 & B1 & T1) (U2 & M2 & B2 & T2).
  rewrite U2, U1, rev_app_distr, app_assoc. intuition congruence.
Qed.

Lemma string_print_run str s :
  exists s', string_print str s = Done (Z.of_nat (length str)) s' /\ printed str s s'.
Proof.
  revert s. induction str as [|c str IH]; intros s; cbn [string_print].
  { exists s. by split. }
  unfold pal_uart_putc. unfold bind at 1, modify.
  destruct (IH (upd_uart c s)) as (s' & Hr & Hp). exists s'. rewrite (bind_done _ _ _ _ _ Hr).
  unfold ret. split; [f_equal; cbn [length]; lia|].
  apply (printed_trans [c] str s (upd_uart c s)); [done|done].
Qed.

Lemma pad_print_run c n : forall i s, exists s',
  for_n n i (fun _ => pal_uart_putc c) s = Done tt s' /\ printed (repeat c n) s s'.
Proof.
  induction n as [|n IH]; intros i s; cbn [for_n repeat].
  { exists s. by split. }
  unfold pal_uart_putc at 1. unfold bind, modify.
  destruct (IH (i + 1) (upd_uart c s)) as (s' & Hr & Hp). exists s'. split; [done|].
  by apply (printed_trans [c] (repeat c n) s (upd_uart c s)).
Qed.

(** [unsigned_num_print] writes the number: for every 64-bit value and a radix
    of at least ten the digits fit in the 20-byte buffer, their value is the number,
    there is no leading zero, the field is padded on the left to the asked width and
    the returned count is the number of characters printed. *)
Theorem unsigned_num_print_value u radix padc padn s : 0 <= u < 2 ^ 64 -> 10 <= radix <= 36 ->
  wp (unsigned_num_print u radix padc padn) (fun n s' => exists ds pad,
    printed (repeat padc pad ++ map digit_char ds) s s' /\
    num_value radix ds = u /\ Forall (fun d => 0 <= d < radix) ds /\
    (1 <= length ds <= 20)%nat /\ (forall d ds', ds = d :: ds' -> ds' <> [] -> d <> 0) /\
    n = Z.of_nat (pad + length ds) /\ n = Z.max padn (Z.of_nat (length ds))) s.
Proof.
  intros Hu Hr. unfold unsigned_num_print. replace (radix <? 10) with false by zbool.
  pose proof (Z.pow_le_mono_l 10 radix 20 ltac:(lia)) as Hp.
  assert (2 ^ 64 < 10 ^ 20) as H64 by reflexivity.
  destruct (num_loop radix 20 65 [] u s ltac:(lia)) as (pre & Hrun & Hv & Hall & Hl & Hz);
    [change (Z.of_nat 20) with 20; lia|lia|cbn; lia|lia|].
  rewrite app_nil_r in Hrun. cbn [map] in Hrun. unfold wp. rewrite (bind_done _ _ _ _ _ Hrun).
  rewrite length_map.
  set (pad := if 0 <? padn then Z.max 0 (padn - Z.of_nat (length pre)) else 0).
  assert (pad = Z.max 0 (padn - Z.of_nat (length pre))) as Hpad
    by (unfold pad; destruct (Z.ltb_spec 0 padn); lia).
  destruct (pad_print_run padc (Z.to_nat (pad - 0)) 0 s) as (s1 & H1 & P1).
  unfold pad_print, for_range. rewrite (bind_done _ _ _ _ _ H1).
  destruct (string_print_run (map digit_char pre) s1) as (s2 & H2 & P2).
  rewrite (bind_done _ _ _ _ _ H2). unfold ret. exists pre, (Z.to_nat (pad - 0)).
  rewrite length_map. split; [by apply (printed_trans _ _ s s1)|].
  split; [done|]. split; [done|]. split; [done|]. split; [done|]. split; lia.
Qed.

Lemma unsigned_num_print_value_witness :
  wp (unsigned_num_print (2 ^ 64 - 1) 10 48 4) (fun n _ => 1 <= n <= 20) demo_heap.
Proof.
  eapply wp_mono; [|apply (unsigned_num_print_value (2 ^ 64 - 1) 10 48 4 demo_heap); lia].
  intros n s' (ds & pad & _ & _ & _ & Hl & _ & _ & Hn). rewrite Hn. lia.
Defined.

(** [pal_print_raw] has a buffer of 16 bytes: the decimal conversion of any
    value of more than 16 digits writes past it. *)
Theorem print_raw_overflows data fuel s : 10 ^ 16 <= data -> (16 < fuel)%nat ->
  pal_print_raw fuel [37; 100] data s = Undef.
Proof.
  intros Hd Hf. cbn [pal_print_raw]. change (37 =? 37) with true. change (100 =? 100) with true.
  cbv iota. unfold bind at 1.
  assert (forall j fuel buf x, (length buf + j = 16)%nat -> (j < fuel)%nat -> 10 ^ Z.of_nat j <= x ->
    loop fuel (raw_step 10 48) (buf, x) s = Undef) as H.
  { clear. induction j as [|j IH]; intros fuel buf x Hl Hf Hx; (destruct fuel as [|fuel]; [lia|]);
      cbn [loop]; unfold raw_step at 1;
      (assert (0 < x) by (eapply Z.lt_le_trans; [|exact Hx]; apply Z.pow_pos_nonneg; lia));
      replace (x =? 0) with false by zbool.
    - by replace (length buf <? 16)%nat with false by (symmetry; apply Nat.ltb_ge; lia).
    - replace (length buf <? 16)%nat with true by (symmetry; apply Nat.ltb_lt; lia).
      cbn [require]. unfold bind, ret. apply IH; [cbn [length]; lia|lia|].
      apply Z.div_le_lower_bound; [lia|]. rewrite Nat2Z.inj_succ, Z.pow_succ_r in Hx by lia. lia. }
  by rewrite (H 16%nat).
Qed.

Lemma print_raw_overflows_witness :
  pal_print_raw 17 [37; 100] (2 ^ 64 - 1) demo_heap = Undef.
Proof. apply (print_raw_overflows (2 ^ 64 - 1) 17 demo_heap); [vm_compute; discriminate | lia]. Defined.
