(* ===== verification/ValPgt.v ===== *)
(** * ValPgt

    val/src/acs_pgt.c: the page tables the non-secure side builds at EL2, with
    the TCR/TTBR decoding of val/src/acs_pe.c and the MMU set-up of
    val/src/acs_memory.c. Pages come from the platform through [PalMem]. *)

From Stdlib Require Import ZArith Lia Bool List.
From stdpp Require Import base tactics numbers list gmap option.
From S2P Require Import Prelude Memory BMRuntime El3State El3Pgt.

(** ** Platform memory interface (val_memory and pal_mem functions) *)
Class PalMem (P : Type) := {
  pm_page_size : Z;
  pm_alloc_pages : Z -> P -> Z * P;
  pm_free_pages : Z -> Z -> P -> P;
  pm_virt_to_phys : Z -> Z;
  pm_phys_to_virt : Z -> Z
}.

(** The bare-metal platform. *)
#[export] Instance bm_pal : PalMem bm := {|
  pm_page_size := pal_mem_page_size;
  pm_alloc_pages n b := match pal_mem_alloc_pages n b with
                        | Done a b' => (a, b')
                        | _ => (0, b)
                        end;
  pm_free_pages a n b := match pal_mem_free_pages a n b with Done _ b' => b' | _ => b end;
  pm_virt_to_phys := pal_mem_virt_to_phys;
  pm_phys_to_virt := pal_mem_phys_to_virt
|}.

(** ** Constants *)
Definition ACS_STATUS_FAIL : Z := 0x90000000.
Definition ACS_STATUS_ERR : Z := 0xEDCB1234.
Definition PGT_STAGE1 : Z := 1.
Definition PGT_IAS : Z := 40.
Definition PAGT_OAS : Z := 40.
Definition MMU_PGT_IAS : Z := 48.
Definition MMU_PGT_OAS : Z := 48.
Definition PGT_ENTRY_BLOCK_MASK : Z := 0x0 << 1.
Definition PGT_ENTRY_ACCESS_SET : Z := 0x1 << 10.
Definition IS_PGT_ENTRY_PAGE (v : Z) : bool := truthy (v .& 0x2).
Definition PGT_DESC_ATTRIBUTES_MASK : Z :=
  (((0x1 << 12) - 1) << 52) .| (((0x1 << 10) - 1) << 2).
Definition PGT_DESC_ATTRIBUTES (v : Z) : Z := v .& PGT_DESC_ATTRIBUTES_MASK.
Definition PAGE_SIZE_4K : Z := 0x1000.
Definition PAGE_SIZE_16K : Z := 4 * 0x1000.
Definition PAGE_SIZE_64K : Z := 16 * 0x1000.
Definition MAX_ENTRIES_4K : Z := 512.
Definition MAX_ENTRIES_16K : Z := 2048.
Definition MAX_ENTRIES_64K : Z := 8192.
Definition AARCH64_EL1 : Z := 0x4.
Definition AARCH64_EL2 : Z := 0x8.
Definition AARCH64_EL_MASK : Z := 0x3 << 2.
Definition AARCH64_HCR_E2H_MASK : Z := 0x1 << 34.

(** ** Data *)
Record tt_descriptor := mk_tt {
  tt_base : Z; input_base : Z; input_top : Z; output_base : Z;
  level : Z; size_log2 : Z; nbits : Z
}.
Record acs_pgt := mk_pgti {
  l0_index : Z; l1_index : Z; l2_index : Z; l3_index : Z; size_used : Z
}.
Record memory_region := mk_region {
  physical_address : Z; virtual_address : Z; length_ : Z; attributes : Z
}.
(** [PE_TCR_BF]. *)
Record pe_tcr := mk_pe_tcr {
  t_ps : Z; t_tg : Z; t_sh : Z; t_orgn : Z; t_irgn : Z; t_tsz : Z; t_tg_size_log2 : Z
}.
Record pgt_desc := mk_pd {
  pd_base : Z; pd_ias : Z; pd_oas : Z; pd_mair : Z; pd_stage : Z; pd_tcr : pe_tcr
}.
(** The registers of EL1 and EL2 that acs_pe.c and acs_memory.c use. *)
Record el2_regs := mk_el2 {
  current_el : Z; hcr_el2 : Z; tcr_el1 : Z; tcr_el2 : Z; ttbr0_el1 : Z; ttbr0_el2 : Z;
  ttbr1_el1 : Z; ttbr1_el2 : Z; mair_el1 : Z; mair_el2 : Z
}.

(** Memory, the platform and the file's globals. *)
Record vst (P : Type) := mk_vst {
  v_mem : mem; v_pal : P; v_regs : el2_regs;
  page_size : Z; bits_per_level : Z; pgt_addr_mask : Z;
  is_values_init : Z; offset : Z; acs_pgt_info : acs_pgt
}.
Arguments mk_vst {P}.
Arguments v_mem {P}.
Arguments v_pal {P}.
Arguments v_regs {P}.
Arguments page_size {P}.
Arguments bits_per_level {P}.
Arguments pgt_addr_mask {P}.
Arguments is_values_init {P}.
Arguments offset {P}.
Arguments acs_pgt_info {P}.
Abbreviation V P := (M (vst P)).

(** ** Indices and sizes *)

Definition get_pgt_index_of (info : acs_pgt) (level : Z) : Z :=
  if level =? 0 then l0_index info
  else if level =? 1 then l1_index info
  else if level =? 2 then l2_index info
  else if level =? 3 then l3_index info
  else 0.

Definition increment_index (info : acs_pgt) (level max_index : Z) : acs_pgt :=
  if level =? 1 then
    if l1_index info =? u32 (max_index - 1) then
      mk_pgti (u32 (l0_index info + 1)) 0 (l2_index info) (l3_index info) (size_used info)
    else info
  else if level =? 2 then
    if l2_index info =? u32 (max_index - 1) then
      mk_pgti (l0_index info) (u32 (l1_index info + 1)) 0 (l3_index info) (size_used info)
    else info
  else if level =? 3 then
    if l3_index info =? u32 (max_index - 1) then
      mk_pgti (l0_index info) (l1_index info) (u32 (l2_index info + 1)) 0 (size_used info)
    else mk_pgti (l0_index info) (l1_index info) (l2_index info) (u32 (l3_index info + 1))
           (size_used info)
  else info.

Definition get_entries_per_level (page_size : Z) : Z :=
  if page_size =? PAGE_SIZE_4K then MAX_ENTRIES_4K
  else if page_size =? PAGE_SIZE_16K then MAX_ENTRIES_16K
  else if page_size =? PAGE_SIZE_64K then MAX_ENTRIES_64K
  else 0.

(** [get_block_size]: 32-bit products, widened after the multiplication. *)
Definition get_block_size (page_size level : Z) : Z :=
  let entries := get_entries_per_level page_size in
  if level =? 0 then
    if page_size =? PAGE_SIZE_4K then u32 (page_size * entries * entries * entries)
    else if page_size =? PAGE_SIZE_16K then u32 (page_size * entries * entries * 2)
    else 0
  else if level =? 1 then
    if (page_size =? PAGE_SIZE_4K) || (page_size =? PAGE_SIZE_16K) then
      u32 (page_size * entries * entries)
    else u32 (page_size * entries * 64)
  else if level =? 2 then u32 (page_size * entries)
  else if level =? 3 then page_size
  else 0.

(** [modify_desc] of acs_pgt.c. *)
Definition val_modify_desc (table_desc bit_to_set value_to_set : Z) : Z :=
  (table_desc .& bnot 64 (1 << bit_to_set)) .| u64 (value_to_set << bit_to_set).

Section code.
Context {P : Type} {PM : PalMem P}.

Definition upd_mem (f : mem -> mem) : V P unit :=
  modify (fun s => mk_vst (f (v_mem s)) (v_pal s) (v_regs s) (page_size s) (bits_per_level s)
    (pgt_addr_mask s) (is_values_init s) (offset s) (acs_pgt_info s)).
Definition upd_pal (f : P -> P) : V P unit :=
  modify (fun s => mk_vst (v_mem s) (f (v_pal s)) (v_regs s) (page_size s) (bits_per_level s)
    (pgt_addr_mask s) (is_values_init s) (offset s) (acs_pgt_info s)).
Definition set_geometry (ps bpl mask : Z) : V P unit :=
  modify (fun s => mk_vst (v_mem s) (v_pal s) (v_regs s) ps bpl mask
    (is_values_init s) (offset s) (acs_pgt_info s)).
Definition set_bits_per_level (v : Z) : V P unit :=
  modify (fun s => mk_vst (v_mem s) (v_pal s) (v_regs s) (page_size s) v
    (pgt_addr_mask s) (is_values_init s) (offset s) (acs_pgt_info s)).
Definition set_offset (v : Z) : V P unit :=
  modify (fun s => mk_vst (v_mem s) (v_pal s) (v_regs s) (page_size s) (bits_per_level s)
    (pgt_addr_mask s) (is_values_init s) v (acs_pgt_info s)).
Definition set_info (f : acs_pgt -> acs_pgt) : V P unit :=
  modify (fun s => mk_vst (v_mem s) (v_pal s) (v_regs s) (page_size s) (bits_per_level s)
    (pgt_addr_mask s) (is_values_init s) (offset s) (f (acs_pgt_info s))).
Definition set_values_init (v : Z) : V P unit :=
  modify (fun s => mk_vst (v_mem s) (v_pal s) (v_regs s) (page_size s) (bits_per_level s)
    (pgt_addr_mask s) v (offset s) (acs_pgt_info s)).
Definition vrd (a : Z) : V P Z := gets (fun s => load 8 (v_mem s) a).
Definition vwr (a v : Z) : V P unit := upd_mem (fun m => store 8 m a v).
Definition vset (a n v : Z) : V P unit := upd_mem (fun m => memset (Z.to_nat n) m a v).
Definition vreg {A} (f : el2_regs -> A) : V P A := gets (fun s => f (v_regs s)).

Definition alloc_page : V P Z := fun s =>
  let '(a, p) := pm_alloc_pages 1 (v_pal s) in
  bind (upd_pal (fun _ => p)) (fun _ => ret a) s.

Definition setup_acs_pgt_values : V P unit := set_info (fun _ => mk_pgti 0 0 0 0 0).
Definition get_pgt_index (level : Z) : V P Z :=
  let! info := gets acs_pgt_info in ret (get_pgt_index_of info level).
Definition increment_pgt_index (level max_index : Z) : V P unit :=
  set_info (fun info => increment_index info level max_index).
(** [*a |= v]. *)
Definition or_desc (a v : Z) : V P unit := let! x := vrd a in vwr a (x .| v).

(** A leaf descriptor: page or block, output address, attributes, AF. *)
Definition write_leaf (a kind output attr : Z) : V P unit :=
  vwr a (kind .| PGT_ENTRY_VALID_MASK) ;;
  or_desc a output ;; or_desc a attr ;; or_desc a PGT_ENTRY_ACCESS_SET.

(** One turn of the [for] of [fill_translation_table]; [rec] fills a table of
    the next level. The loop state is (input_address, output_address). *)
Definition fill_step (rec : tt_descriptor -> V P Z) (tt : tt_descriptor) (attr block_size : Z)
    (x : Z * Z) : V P (Z * Z + Z) :=
  let '(input_address, output_address) := x in
  let next := let! off := gets offset in
    ret (inl (u64 (input_address + u64 (block_size - off)),
              u64 (output_address + u64 (block_size - off)))) in
  if input_top tt <=? input_address then ret (inr 0) else
  let! ps := gets page_size in
  let! bpl := gets bits_per_level in
  let! hi := shr_chk 64 input_address (size_log2 tt) in
  let! one := shl_chk 64 1 (nbits tt) in
  let table_desc := tt_base tt + 8 * (hi .& u64 (one - 1)) in
  if level tt =? 3 then
    write_leaf table_desc PGT_ENTRY_PAGE_MASK
      (output_address .& bnot 64 (u32 (ps - 1))) attr ;;
    increment_pgt_index (level tt) (get_entries_per_level ps) ;;
    set_offset 0 ;; next
  else if (input_address .& (block_size - 1) =? 0) &&
          (output_address .& (block_size - 1) =? 0) &&
          (u64 (input_address + block_size - 1) <=? input_top tt) then
    write_leaf table_desc PGT_ENTRY_BLOCK_MASK
      (output_address .& bnot 64 (block_size - 1)) attr ;;
    increment_pgt_index (level tt) (get_entries_per_level ps) ;;
    set_offset 0 ;; next
  else
    let! desc := vrd table_desc in
    let! mask := gets pgt_addr_mask in
    let! tt_base_next_level :=
      (if (desc =? 0) || IS_PGT_ENTRY_BLOCK desc then
         let! p := alloc_page in
         (when truthy p then vset p ps 0) ;; ret p
       else ret (pm_phys_to_virt (desc .& mask))) in
    if ((desc =? 0) || IS_PGT_ENTRY_BLOCK desc) && (tt_base_next_level =? 0)
    then ret (inr ACS_STATUS_ERR) else
    let! filled_tables := get_pgt_index (u32 (level tt + 1)) in
    let off := u64 (filled_tables * get_block_size ps (u32 (level tt + 1))) in
    set_offset off ;;
    let max_allowed_mem := u64 (input_address + block_size - off - 1) in
    let tt_next := mk_tt tt_base_next_level input_address
      (if input_top tt <? max_allowed_mem then input_top tt else max_allowed_mem)
      output_address (u32 (level tt + 1)) (u32 (size_log2 tt - bpl)) bpl in
    increment_pgt_index (level tt) (get_entries_per_level ps) ;;
    let! r := rec tt_next in
    if truthy r then
      upd_pal (pm_free_pages tt_base_next_level 1) ;; ret (inr ACS_STATUS_ERR)
    else
      vwr table_desc (PGT_ENTRY_TABLE_MASK .| PGT_ENTRY_VALID_MASK) ;;
      or_desc table_desc (pm_virt_to_phys tt_base_next_level .& bnot 64 (u32 (ps - 1))) ;;
      next.

(** [depth] bounds the table levels, [fuel] the turns of each loop. *)
Fixpoint fill_translation_table (depth fuel : nat) (attr : Z) (tt : tt_descriptor) : V P Z :=
  match depth with
  | O => nofuel
  | S d =>
    let! block_size := shl_chk 64 1 (size_log2 tt) in
    let! i := gets is_values_init in
    (when i =? 0 then (setup_acs_pgt_values ;; set_values_init 1)) ;;
    loop fuel (fill_step (fill_translation_table d fuel attr) tt attr block_size)
      (input_base tt, output_base tt)
  end.

(** The geometry computed by [val_pgt_create], [val_pe_mmu_map_rmv] and
    [val_pgt_destroy]: (page_size_log2, num_pgt_levels before the cap). *)
Definition pgt_geometry (ias : Z) : V P (Z * Z) :=
  let ps := pm_page_size in
  let psl2 := log2_page_size ps in
  let bpl := u32 (psl2 - 3) in
  require (negb (bpl =? 0)) ;;
  ret (psl2, u32 (ias - psl2 + bpl - 1) / bpl).
Definition cap4 (n : Z) : Z := if 4 <? n then 4 else n.
(** [((0x1ull << n) - 1) << psl2]. *)
Definition addr_mask (n psl2 : Z) : V P Z :=
  let! one := shl_chk 64 1 n in shl_chk 64 (u64 (one - 1)) psl2.

Definition set_va (v : Z) (m : memory_region) : memory_region :=
  mk_region (physical_address m) v (length_ m) (attributes m).

(** One turn of the loop of [val_pgt_create] on the region [m]; the region
    comes back with its truncated virtual address. *)
Definition create_one (bm_boot : bool) (depth fuel : nat) (pd : pgt_desc) (tt_base psl2 levels : Z)
    (m : memory_region) : V P (Z * memory_region) :=
  let! ps := gets page_size in
  let! bpl := gets bits_per_level in
  if truthy (virtual_address m .& u32 (ps - 1)) || truthy (physical_address m .& u32 (ps - 1))
  then ret (ACS_STATUS_ERR, m) else
  let! oas_lim := shl_chk 64 1 (pd_oas pd) in
  if oas_lim <=? physical_address m then ret (ACS_STATUS_ERR, m) else
  let! ias_lim := shl_chk 64 1 (pd_ias pd) in
  let m := if ias_lim <=? virtual_address m
           then set_va (virtual_address m .& (ias_lim - 1)) m else m in
  if negb bm_boot && negb (t_tg_size_log2 (pd_tcr pd) =? psl2)
  then ret (ACS_STATUS_ERR, m) else
  let ib := virtual_address m .& (ias_lim - 1) in
  let sz := u32 (u32 (levels - 1) * bpl + psl2) in
  let! r := fill_translation_table depth fuel (attributes m)
    (mk_tt tt_base ib (u64 (ib + length_ m - 1)) (physical_address m .& (oas_lim - 1))
       (u32 (4 - levels)) sz (u32 (pd_ias pd - sz))) in
  if truthy r then upd_pal (pm_free_pages tt_base 1) ;; ret (ACS_STATUS_ERR, m)
  else ret (0, m).

(** The loop over the array: [iter] is what is left of it from
    [mem_desc_iter]; the body always works on the first region [m]. *)
Fixpoint create_loop (one : memory_region -> V P (Z * memory_region))
    (iter : list memory_region) (m : memory_region) : V P (Z * memory_region) :=
  match iter with
  | [] => undef
  | d :: iter' =>
      if length_ d =? 0 then ret (0, m) else
      let! '(r, m) := one m in
      if truthy r then ret (r, m) else create_loop one iter' m
  end.

Definition set_base (v : Z) (pd : pgt_desc) : pgt_desc :=
  mk_pd v (pd_ias pd) (pd_oas pd) (pd_mair pd) (pd_stage pd) (pd_tcr pd).

(** [val_pgt_create]: the status, the first region and the table descriptor
    as the caller finds them. *)
Definition val_pgt_create (bm_boot : bool) (depth fuel : nat) (mem_desc : list memory_region)
    (pd : pgt_desc) : V P (Z * option memory_region * pgt_desc) :=
  let! '(psl2, n) := pgt_geometry (pd_ias pd) in
  let levels := cap4 n in
  let! mask0 := gets pgt_addr_mask in
  set_geometry pm_page_size (u32 (psl2 - 3)) mask0 ;;
  let! tt_base := (if pd_base pd =? 0 then
                     let! p := alloc_page in
                     (when truthy p then vset p pm_page_size 0) ;; ret p
                   else ret (pd_base pd)) in
  if tt_base =? 0 then ret (ACS_STATUS_ERR, head mem_desc, pd) else
  let! mask := addr_mask (48 - psl2) psl2 in
  set_geometry pm_page_size (u32 (psl2 - 3)) mask ;;
  let! m0 := use (head mem_desc) in
  let! '(r, m) := create_loop (create_one bm_boot depth fuel pd tt_base psl2 levels)
                    mem_desc m0 in
  if truthy r then ret (r, Some m, pd)
  else ret (0, Some m, set_base (pm_virt_to_phys tt_base) pd).

(** ** val/src/acs_pe.c *)

(** [val_pe_reg_read] of [TCR_ELx] and [MAIR_ELx]. *)
Definition val_pe_reg_read_tcr_elx : V P Z :=
  let! el := vreg current_el in
  if el =? AARCH64_EL1 then vreg tcr_el1
  else if el =? AARCH64_EL2 then vreg tcr_el2 else ret 0.
Definition val_pe_reg_read_mair_elx : V P Z :=
  let! el := vreg current_el in
  if el =? AARCH64_EL1 then vreg mair_el1
  else if el =? AARCH64_EL2 then vreg mair_el2 else ret 0.

Definition tcr_field (val lsb n : Z) : Z := (val .& (((1 << n) - 1) << lsb)) >> lsb.
Definition tg_ttbr0 : list Z := [12; 16; 14].
Definition tg_ttbr1 : list Z := [0; 14; 12; 16].

(** [val_pe_reg_read_tcr] with a non-NULL [tcr]: the decoded fields, or [None]
    for the error return. *)
Definition val_pe_reg_read_tcr (ttbr1 : bool) : V P (option pe_tcr) :=
  let! val := val_pe_reg_read_tcr_elx in
  let! el := vreg (fun r => current_el r .& AARCH64_EL_MASK) in
  if negb (el =? AARCH64_EL1) && negb (el =? AARCH64_EL2) then ret None else
  let! hcr := vreg hcr_el2 in
  let e2h := truthy (hcr .& AARCH64_HCR_E2H_MASK) in
  let two_ranges := (el =? AARCH64_EL1) || ((el =? AARCH64_EL2) && e2h) in
  let ps := if two_ranges then tcr_field val 32 3 else tcr_field val 16 3 in
  if two_ranges && ttbr1 then
    let tg := tcr_field val 30 2 in
    if (tg =? 0) || (3 <? tg) then ret None else
    let! size := nth_chk tg_ttbr1 tg in
    ret (Some (mk_pe_tcr ps tg (tcr_field val 28 2) (tcr_field val 26 2)
                 (tcr_field val 24 2) (tcr_field val 16 6) size))
  else if negb two_ranges && ttbr1 then ret None
  else
    let tg := tcr_field val 14 2 in
    if 2 <? tg then ret None else
    let! size := nth_chk tg_ttbr0 tg in
    ret (Some (mk_pe_tcr ps tg (tcr_field val 12 2) (tcr_field val 10 2)
                 (tcr_field val 8 2) (tcr_field val 0 6) size)).

(** [val_pe_reg_read_ttbr] with a non-NULL pointer and [ttbr1 <= 1]. *)
Definition val_pe_reg_read_ttbr (ttbr1 : bool) : V P (option Z) :=
  let! el := vreg (fun r => current_el r .& AARCH64_EL_MASK) in
  if negb (el =? AARCH64_EL1) && negb (el =? AARCH64_EL2) then ret None else
  let! r := gets v_regs in
  ret (Some (if el =? AARCH64_EL1 then (if ttbr1 then ttbr1_el1 r else ttbr0_el1 r)
             else (if ttbr1 then ttbr1_el2 r else ttbr0_el2 r))).

(** ** Mapping in the current tables *)

(** The descriptor of the tables in use, built by [val_pe_mmu_map_add] and
    [val_pe_mmu_map_rmv]. *)
Definition current_pgt : V P (option pgt_desc) :=
  let! tcr := val_pe_reg_read_tcr false in
  match tcr with
  | None => ret None
  | Some tcr =>
      let! ttbr := val_pe_reg_read_ttbr false in
      match ttbr with
      | None => ret None
      | Some ttbr =>
          let! mair := val_pe_reg_read_mair_elx in
          ret (Some (mk_pd (ttbr .& AARCH64_TTBR_ADDR_MASK) PGT_IAS PAGT_OAS mair
                       PGT_STAGE1 tcr))
      end
  end.

Definition val_pe_mmu_map_add (bm_boot : bool) (depth fuel : nat)
    (mem_desc : list memory_region) : V P (Z * option memory_region) :=
  let! pd := current_pgt in
  match pd with
  | None => ret (ACS_STATUS_FAIL, head mem_desc)
  | Some pd =>
      let! '(r, m, _pd) := val_pgt_create bm_boot depth fuel mem_desc pd in ret (r, m)
  end.

(** Walk state: (tt_base_phys, this_level, bits_remaining, bits_at_this_level). *)
Definition walk_st : Type := Z * Z * Z * Z.

(** The index of one walk step and the descriptor it reads. *)
Definition walk_read (input_address : Z) (w : walk_st) : V P (Z * Z) :=
  let '(tt_base_phys, this_level, bits_remaining, bits_at_this_level) := w in
  let! hi := shr_chk 64 input_address bits_remaining in
  let! one := shl_chk 32 1 bits_at_this_level in
  let index := u32 (hi .& u32 (one - 1)) in
  let! desc := vrd (u64 (pm_phys_to_virt tt_base_phys + 8 * index)) in
  ret (index, desc).

(** One turn of [val_pe_mmu_map_rmv]; leaves with the status and the
    descriptor as modified in the local variable. *)
Definition rmv_step (input_address ias psl2 bpl : Z) (w : walk_st) : V P (walk_st + Z * Z) :=
  let '(_base, this_level, bits_remaining, _bits) := w in
  let! '(_index, table_desc) := walk_read input_address w in
  if this_level =? 3 then
    if negb (IS_PGT_ENTRY_PAGE table_desc) then ret (inr (ACS_STATUS_ERR, table_desc))
    else ret (inr (0, val_modify_desc (val_modify_desc table_desc 0 0) 0 0))
  else if IS_PGT_ENTRY_BLOCK table_desc then
    ret (inr (0, val_modify_desc table_desc 0 0))
  else
    let! mask := addr_mask (ias - psl2) psl2 in
    ret (inl (table_desc .& mask, this_level + 1, u32 (bits_remaining - bpl), bpl)).

Definition val_pe_mmu_map_rmv (fuel : nat) (mem_desc : memory_region) : V P Z :=
  let! pd := current_pgt in
  match pd with
  | None => ret ACS_STATUS_FAIL
  | Some pd =>
      let! '(psl2, n) := pgt_geometry (pd_ias pd) in
      let bpl := u32 (psl2 - 3) in
      let levels := cap4 n in
      let! mask := addr_mask (48 - psl2) psl2 in
      set_geometry pm_page_size bpl mask ;;
      let bits_remaining := u32 (u32 (levels - 1) * bpl + psl2) in
      let! '(r, _desc) :=
        loop fuel (rmv_step (virtual_address mem_desc) (pd_ias pd) psl2 bpl)
          (pd_base pd, 4 - levels, bits_remaining, u32 (pd_ias pd - bits_remaining)) in
      ret r
  end.

(** One turn of [val_pgt_get_attributes]: the next [bits_remaining] is
    reduced by the bits of the current level. *)
Definition attr_step (virtual_address ias psl2 bpl : Z) (w : walk_st)
    : V P (walk_st + Z * option Z) :=
  let '(_base, this_level, bits_remaining, bits_at_this_level) := w in
  let! '(_index, val64) := walk_read virtual_address w in
  if this_level =? 3 then
    if negb (IS_PGT_ENTRY_PAGE val64) then ret (inr (ACS_STATUS_ERR, None))
    else ret (inr (0, Some (PGT_DESC_ATTRIBUTES val64)))
  else if IS_PGT_ENTRY_BLOCK val64 then ret (inr (0, Some (PGT_DESC_ATTRIBUTES val64)))
  else
    let! mask := addr_mask (ias - psl2) psl2 in
    ret (inl (val64 .& mask, u32 (this_level + 1),
              u32 (bits_remaining - bits_at_this_level), bpl)).

(** [val_pgt_get_attributes] with a non-NULL [attributes]: the status and what
    is stored there, if anything. *)
Definition val_pgt_get_attributes (fuel : nat) (pd : pgt_desc) (virtual_address : Z)
    : V P (Z * option Z) :=
  if pd_base pd =? 0 then ret (ACS_STATUS_ERR, None) else
  let psl2 := t_tg_size_log2 (pd_tcr pd) in
  let ias := 64 - t_tsz (pd_tcr pd) in
  let bpl := u32 (psl2 - 3) in
  set_bits_per_level bpl ;;
  require (negb (bpl =? 0)) ;;
  let levels := u32 (ias - psl2 + bpl - 1) / bpl in
  let bits_remaining := u32 (u32 (levels - 1) * bpl + psl2) in
  loop fuel (attr_step virtual_address ias psl2 bpl)
    (pd_base pd, u32 (4 - levels), bits_remaining, u32 (ias - bits_remaining)).

(** ** Destruction *)

Fixpoint free_translation_table (depth : nat) (base bits_at_this_level this_level : Z)
    : V P unit :=
  match depth with
  | O => nofuel
  | S d =>
    if this_level =? 3 then ret tt else
    let! n := shl_chk 64 1 bits_at_this_level in
    let! bpl := gets bits_per_level in
    let! mask := gets pgt_addr_mask in
    for_range 0 n (fun index =>
      let! desc := vrd (u64 (base + 8 * index)) in
      if desc =? 0 then ret tt
      else if IS_PGT_ENTRY_BLOCK desc then ret tt
      else
        let next := pm_phys_to_virt (desc .& mask) in
        if next =? 0 then ret tt else
        free_translation_table d next bpl (u32 (this_level + 1)) ;;
        upd_pal (pm_free_pages next 1))
  end.

Definition val_pgt_destroy (depth : nat) (pd : pgt_desc) : V P unit :=
  if pd_base pd =? 0 then ret tt else
  let! '(psl2, levels) := pgt_geometry (pd_ias pd) in
  let bpl := u32 (psl2 - 3) in
  let! mask := addr_mask (pd_ias pd - psl2) psl2 in
  set_geometry pm_page_size bpl mask ;;
  free_translation_table depth (pm_phys_to_virt (pd_base pd))
    (u32 (pd_ias pd - u32 (u32 (levels - 1) * bpl + psl2))) (u32 (4 - levels)) ;;
  upd_pal (pm_free_pages (pm_phys_to_virt (pd_base pd)) 1).

(** ** val/src/acs_memory.c: [val_setup_mmu]

    [tt_l0_base] is the address of the static root table, [regions] what the
    platform lists; the index is 8 bits wide. *)
Definition zero_region : memory_region := mk_region 0 0 0 0.
Definition zero_tcr : pe_tcr := mk_pe_tcr 0 0 0 0 0 0 0.

Definition setup_step (depth fuel : nat) (regions : list memory_region) (x : Z * pgt_desc)
    : V P (Z * pgt_desc + Z) :=
  let '(i, pd) := x in
  if Z.of_nat (length regions) <=? i then ret (inr 0) else
  let! m := use (nth_error regions (Z.to_nat i)) in
  let! '(r, _m, pd) := val_pgt_create true depth fuel [m; zero_region] pd in
  if truthy r then ret (inr ACS_STATUS_ERR) else ret (inl (u8 (i + 1), pd)).

Definition val_setup_mmu (depth fuel : nat) (tt_l0_base : Z) (regions : list memory_region)
    : V P Z :=
  loop fuel (setup_step depth fuel regions)
    (0, mk_pd tt_l0_base MMU_PGT_IAS MMU_PGT_OAS 0 PGT_STAGE1 zero_tcr).
End code.
