(* ===== verification/ValPgtSpec.v ===== *)
(** * ValPgtSpec

    Properties of the page-table library modelled in [ValPgt]: the mapping of a
    fresh table against the architecture's walk, the attribute look-up, and the
    cases in which the code does something else. *)

From Stdlib Require Import ZArith Lia Bool List.
From stdpp Require Import base tactics numbers list gmap option.
From S2P Require Import Prelude Memory BMRuntime El3State El3Pgt ValPgt.

(** ** The architecture's walk

    4KB granule, 48-bit input: the index at the level with [n] levels below it is
    the 9-bit field of the address at [12 + 9 n].  A descriptor with bit 0 clear
    is invalid.  With bit 0 set, bit 1 makes it a table above level 3 and a page at
    level 3; without bit 1 it is a block at levels 1 and 2 and reserved, which
    faults, at levels 0 and 3.  The walk ends in a leaf or in a translation fault,
    with the number of levels below and the descriptor it ends at. *)
Inductive walk_end :=
| Leaf (n : nat) (d : Z)
| Fault (n : nat) (d : Z).
Definition table_mask : Z := Z.ones 36 << 12.

Section walk.
Context {P : Type} {PM : PalMem P}.

Definition slot (base : Z) (n : nat) (va : Z) : Z :=
  u64 (pm_phys_to_virt base + 8 * fld (12 + 9 * Z.of_nat n) 9 va).
Fixpoint arch_walk (n : nat) (m : mem) (base va : Z) : walk_end :=
  let d := load64 m (slot base n va) in
  if negb (Z.testbit d 0) then Fault n d
  else if Z.testbit d 1 then
    match n with
    | O => Leaf O d
    | S n' => arch_walk n' m (d .& table_mask) va
    end
  else if ((n =? 1) || (n =? 2))%nat then Leaf n d else Fault n d.
End walk.

(** A page descriptor as [fill_translation_table] assembles it. *)
Definition page_desc (out attr : Z) : Z := ((3 .| out) .| attr) .| PGT_ENTRY_ACCESS_SET.

Section fill.
Context {P : Type} {PM : PalMem P}.
Implicit Types s : vst P.

Definition geo s : Prop :=
  page_size s = 4096 /\ bits_per_level s = 9 /\ pgt_addr_mask s = table_mask.
Definition page_of (a b : Z) : Prop := a <= b < a + 4096.

Lemma wp_vrd a (Q : Z -> vst P -> Prop) s : Q (load64 (v_mem s) a) s -> wp (vrd a) Q s.
Proof. done. Qed.
(** A store keeps everything but memory. *)
Definition same_but_mem s s' : Prop :=
  v_pal s' = v_pal s /\ v_regs s' = v_regs s /\ page_size s' = page_size s /\
  bits_per_level s' = bits_per_level s /\ pgt_addr_mask s' = pgt_addr_mask s /\
  is_values_init s' = is_values_init s /\ offset s' = offset s /\
  acs_pgt_info s' = acs_pgt_info s.

(** The four stores of [write_leaf] leave one descriptor behind. *)
Lemma write_leaf_run a kind out attr s :
  0 <= kind < 2 ^ 64 -> 0 <= out < 2 ^ 64 -> 0 <= attr < 2 ^ 64 ->
  wp (write_leaf a kind out attr) (fun _ s' => same_but_mem s s' /\
    load64 (v_mem s') a = (((kind .| PGT_ENTRY_VALID_MASK) .| out) .| attr) .| PGT_ENTRY_ACCESS_SET /\
    only_at (fun b => a <= b < a + 8) (v_mem s) (v_mem s')) s.
Proof.
  intros Hk Ho Ha. unfold write_leaf, or_desc, vwr, upd_mem.
  assert (0 <= kind .| PGT_ENTRY_VALID_MASK < 2 ^ 64) as H1 by (apply lor_range; [lia|done|done]).
  assert (0 <= (kind .| PGT_ENTRY_VALID_MASK) .| out < 2 ^ 64) as H2
    by (apply lor_range; [lia|done|done]).
  assert (0 <= ((kind .| PGT_ENTRY_VALID_MASK) .| out) .| attr < 2 ^ 64) as H3
    by (apply lor_range; [lia|done|done]).
  unfold wp, vrd, gets, modify, bind.
  cbn [v_mem]. rewrite !load64_store64 by done.
  split; [done|]. split.
  - apply load64_store64, lor_range; [lia|done|done].
  - repeat (etransitivity; [|apply only_at_store; intros; lia]). done.
Qed.

(** Index arithmetic at the page level. *)
Lemma fld_12_9 va : fld 12 9 va = (va / 4096) mod 512.
Proof. by rewrite fld_div_mod. Qed.
Lemma page_index ib k n : aligned ib 4096 -> 0 <= k < n -> ib mod 2 ^ 21 + 4096 * n <= 2 ^ 21 ->
  fld 12 9 (ib + 4096 * k) = fld 12 9 ib + k /\ 0 <= fld 12 9 ib /\ fld 12 9 ib + n <= 512.
Proof.
  intros Ha Hk Hn. rewrite !fld_12_9. unfold aligned in Ha.
  assert (ib mod 2 ^ 21 = 4096 * ((ib / 4096) mod 512)) as E.
  { change (2 ^ 21) with (4096 * 512). rewrite Z.rem_mul_r by lia. lia. }
  pose proof (Z.mod_pos_bound (ib / 4096) 512 ltac:(lia)).
  rewrite (Z.mul_comm 4096 k), Z.div_add by lia.
  split; [|lia]. rewrite <- Z.add_mod_idemp_l by lia. apply Z.mod_small. lia.
Qed.

Lemma wp_gets_v {A} (f : vst P -> A) (Q : A -> vst P -> Prop) s : Q (f s) s -> wp (gets f) Q s.
Proof. done. Qed.

(** The output address of an aligned page or block. *)
Lemma align_out k x : 0 <= k <= 64 -> 0 <= x < 2 ^ 64 -> aligned x (2 ^ k) ->
  x .& bnot 64 (2 ^ k - 1) = x.
Proof. intros Hk Hx Ha. rewrite round_down by lia. unfold aligned in Ha. lia. Qed.

(** One page of the level 3 table. *)
Lemma leaf_step rec tt attr ia oa s : geo s -> level tt = 3 -> size_log2 tt = 12 ->
  nbits tt = 9 -> 0 <= ia < input_top tt -> input_top tt < 2 ^ 48 ->
  0 <= oa < 2 ^ 48 -> aligned oa 4096 -> 0 <= attr < 2 ^ 64 ->
  wp (fill_step rec tt attr 4096 (ia, oa)) (fun r s' =>
    r = inl (ia + 4096, oa + 4096) /\ geo s' /\ v_pal s' = v_pal s /\ offset s' = 0 /\
    let a := tt_base tt + 8 * fld 12 9 ia in
    load64 (v_mem s') a = page_desc oa attr /\
    only_at (fun b => a <= b < a + 8) (v_mem s) (v_mem s')) s.
Proof.
  intros (G1 & G2 & G3) Hl Hs Hn Hi Ht Ho Hal Ha. unfold fill_step. rewrite Hl, Hs, Hn.
  replace (input_top tt <=? ia) with false by zbool.
  apply wp_bind, wp_gets_v, wp_bind, wp_gets_v. rewrite G1, G2.
  apply wp_bind, wp_shr_chk; [lia|]. apply wp_bind, wp_shl_chk; [lia|].
  change (u64 (wrap 64 (1 << 9) - 1)) with (Z.ones 9). fold (fld 12 9 ia).
  change (3 =? 3) with true. cbv iota. apply wp_bind.
  rewrite (align_out 12) by (try done; lia).
  eapply wp_mono; [|apply write_leaf_run; [done|lia|done]].
  intros [] s1 ((S1 & _ & S3 & S4 & S5 & _) & Hld & Hm).
  unfold increment_pgt_index, set_offset, set_info.
  apply wp_bind, wp_modify, wp_bind, wp_modify, wp_bind, wp_gets_v, wp_ret.
  cbn [offset v_mem v_pal]. change (u64 (4096 - 0)) with 4096.
  assert (u64 (ia + 4096) = ia + 4096) as -> by (apply wrap_small; lia).
  assert (u64 (oa + 4096) = oa + 4096) as -> by (apply wrap_small; lia).
  split; [done|]. split; [unfold geo; cbn; by rewrite S3, S4, S5|].
  split; [done|]. split; [done|]. by split.
Qed.

(** A level 3 table filled with [n] pages that fit in it. *)
Lemma fill_level3 fuel rec tt attr n s : geo s -> level tt = 3 -> size_log2 tt = 12 ->
  nbits tt = 9 -> (Z.to_nat n < fuel)%nat -> 1 <= n ->
  0 <= input_base tt -> aligned (input_base tt) 4096 ->
  input_base tt mod 2 ^ 21 + 4096 * n <= 2 ^ 21 ->
  input_top tt = input_base tt + 4096 * n - 1 -> input_top tt < 2 ^ 48 ->
  0 <= output_base tt -> output_base tt + 4096 * n <= 2 ^ 48 -> aligned (output_base tt) 4096 ->
  0 <= attr < 2 ^ 64 ->
  wp (loop fuel (fill_step rec tt attr 4096) (input_base tt, output_base tt)) (fun r s' =>
    r = 0 /\ geo s' /\ v_pal s' = v_pal s /\ offset s' = 0 /\
    (forall k, 0 <= k < n -> load64 (v_mem s') (tt_base tt + 8 * fld 12 9 (input_base tt + 4096 * k)) =
       page_desc (output_base tt + 4096 * k) attr) /\
    only_at (page_of (tt_base tt)) (v_mem s) (v_mem s')) s.
Proof.
  intros Hg Hl Hs Hn Hf Hn1 Hi Hia Hfit Htop Ht Ho Ho2 Hoa Ha.
  set (ib := input_base tt) in *. set (ob := output_base tt) in *.
  apply (wp_loop (fun (j : nat) (x : Z * Z) s' => exists k, 0 <= k <= n /\ Z.of_nat j = n - k /\
      x = (ib + 4096 * k, ob + 4096 * k) /\ geo s' /\ v_pal s' = v_pal s /\
      (0 < k -> offset s' = 0) /\
      (forall k', 0 <= k' < k -> load64 (v_mem s') (tt_base tt + 8 * fld 12 9 (ib + 4096 * k')) =
         page_desc (ob + 4096 * k') attr) /\
      only_at (page_of (tt_base tt)) (v_mem s) (v_mem s'))) with (n := Z.to_nat n); [|done|].
  2:{ exists 0. rewrite !Z.mul_0_r, !Z.add_0_r. split; [lia|]. split; [lia|]. split; [done|].
      split; [done|]. split; [done|]. split; [lia|]. split; [intros; lia|done]. }
  clear Hf fuel. intros j x s1 (k & Hk & Hj & -> & G & Hp & Hoff & Hld & Hm).
  destruct (Z.eq_dec k n) as [->|Hne].
  { unfold fill_step. replace (input_top tt <=? ib + 4096 * n) with true by zbool.
    apply wp_ret. split; [done|]. split; [done|]. split; [done|]. split; [apply Hoff; lia|]. done. }
  eapply wp_mono; [|apply leaf_step; try done; try lia].
  2:{ unfold aligned in *. rewrite Z.mul_comm, Z.mod_add by lia. done. }
  intros r s2 (-> & G2 & Hp2 & Hoff2 & Hld2 & Hm2).
  exists (j - 1)%nat. split; [lia|]. exists (k + 1).
  split; [lia|]. split; [lia|].
  split; [f_equal; lia|]. split; [done|]. split; [congruence|]. split; [done|].
  destruct (page_index ib k n Hia ltac:(lia) Hfit) as (E & E0 & E1). split.
  - intros k' Hk'. destruct (Z.eq_dec k' k) as [->|Hkk]; [done|].
    destruct (page_index ib k' n Hia ltac:(lia) Hfit) as (E' & _ & _).
    rewrite <- Hld by lia. apply (only_at_load _ 8 _ _ _ Hm2). intros b Hb. rewrite E' in Hb.
    rewrite E. lia.
  - etransitivity; [exact Hm|]. eapply only_at_mono; [|exact Hm2]. unfold page_of.
    intros b Hb. rewrite E in Hb. lia.
Qed.

(** *** Upper levels *)

Hypothesis v2p_id : forall a, pm_virt_to_phys a = a.
Hypothesis p2v_id : forall a, pm_phys_to_virt a = a.

(** The platform hands out the pages [l], one at a time. *)
Fixpoint supplies (l : list Z) (p p' : P) : Prop :=
  match l with
  | [] => p' = p
  | a :: l' => exists q, pm_alloc_pages 1 p = (a, q) /\ supplies l' q p'
  end.
Definition page_ok (a : Z) : Prop := aligned a 4096 /\ 0 < a < 2 ^ 48.
Definition in_pages (l : list Z) (b : Z) : Prop := exists a, In a l /\ page_of a b.

(** The state of the index counters in which nothing was filled yet. *)
Definition no_index s : Prop :=
  is_values_init s = 0 \/
  is_values_init s = 1 /\ acs_pgt_info s = mk_pgti 0 0 0 0 (size_used (acs_pgt_info s)).

Lemma pages_disjoint a b c : page_ok a -> page_ok b -> a <> b -> page_of a c -> ~ page_of b c.
Proof.
  intros [Ha _] [Hb _] Hne H1 H2.
  destruct (aligned_disjoint a b 4096 ltac:(lia) Ha Hb Hne); unfold page_of in *; lia.
Qed.

Lemma fld_upper n ib k np : (1 <= n)%nat -> 0 <= k < np -> ib mod 2 ^ 21 + 4096 * np <= 2 ^ 21 ->
  fld (12 + 9 * Z.of_nat n) 9 (ib + 4096 * k) = fld (12 + 9 * Z.of_nat n) 9 ib.
Proof.
  intros Hn Hk Hfit. rewrite !fld_div_mod by lia. f_equal.
  replace (12 + 9 * Z.of_nat n) with (21 + 9 * Z.of_nat (n - 1)) by lia.
  rewrite Z.pow_add_r, <- !Z.div_div by lia. f_equal.
  pose proof (Z.div_mod ib (2 ^ 21) ltac:(lia)).
  pose proof (Z.mod_pos_bound ib (2 ^ 21) ltac:(lia)).
  symmetry. apply (Z.div_unique _ _ _ (ib mod 2 ^ 21 + 4096 * k)); lia.
Qed.

(** A table descriptor is valid, has bit 1 set and gives back the page. *)
Lemma table_desc_ok a : page_ok a ->
  (3 .| a) .& table_mask = a /\
  (Z.testbit (3 .| a) 0 = true /\ Z.testbit (3 .| a) 1 = true) /\ 0 <= (3 .| a) < 2 ^ 64.
Proof.
  intros [Ha Hr]. assert (forall i, 0 <= i < 12 -> Z.testbit a i = false) as Hlow.
  { intros i Hi. apply (land_low_aligned 12) in Ha; [|lia].
    assert (Z.testbit (a .& (2 ^ 12 - 1)) i = false) as H by (rewrite Ha; apply Z.testbit_0_l).
    replace (2 ^ 12 - 1) with (Z.ones 12) in H by done.
    rewrite Z.land_spec, Z.testbit_ones in H by lia.
    replace ((0 <=? i) && (i <? 12)) with true in H by zbool. by rewrite andb_true_r in H. }
  split; [|split].
  - apply (bits_ext 48); [lia| |lia|].
    + rewrite Z.land_comm. apply land_range; [lia| |done]. apply Z.lor_nonneg. lia.
    + intros i Hi. unfold table_mask.
      rewrite Z.land_spec, Z.lor_spec, Z.shiftl_spec by lia.
      destruct (Z.ltb_spec i 12).
      * rewrite (Z.testbit_neg_r _ (i - 12)) by lia. rewrite Hlow by lia. by rewrite andb_false_r.
      * rewrite Z.testbit_ones by lia. replace ((0 <=? i - 12) && (i - 12 <? 36)) with true by zbool.
        rewrite (testbit_high 12 3) by lia. by rewrite andb_true_r.
  - by rewrite !Z.lor_spec.
  - apply lor_range; lia.
Qed.

Lemma slot_small a n va : page_ok a -> slot a n va = a + 8 * fld (12 + 9 * Z.of_nat n) 9 va.
Proof.
  intros [_ H]. unfold slot. rewrite p2v_id. apply wrap_small.
  pose proof (fld_range (12 + 9 * Z.of_nat n) 9 va ltac:(lia)). lia.
Qed.
Lemma slot_in_page a n va b : page_ok a -> slot a n va <= b < slot a n va + 8 -> page_of a b.
Proof.
  intros Ha. rewrite slot_small by done. unfold page_of.
  pose proof (fld_range (12 + 9 * Z.of_nat n) 9 va ltac:(lia)). lia.
Qed.

(** What a filled table of [n] further levels shows to a memory that agrees on
    its pages. *)
Definition mapped (n : nat) (base : Z) (pages : list Z) (m : mem) (ib ob np attr : Z) : Prop :=
  forall m', (forall b, in_pages (base :: pages) b -> ld_byte m' b = ld_byte m b) ->
  forall k, 0 <= k < np ->
    arch_walk n m' base (ib + 4096 * k) = Leaf O (page_desc (ob + 4096 * k) attr).

(** The region of one call: [np] pages inside a 2MB block. *)
Definition region_ok (tt : tt_descriptor) (np attr : Z) : Prop :=
  1 <= np < 512 /\ 0 <= input_base tt /\ aligned (input_base tt) 4096 /\
  input_base tt mod 2 ^ 21 + 4096 * np <= 2 ^ 21 /\
  input_top tt = input_base tt + 4096 * np - 1 /\ input_top tt < 2 ^ 48 /\
  0 <= output_base tt /\ output_base tt + 4096 * np <= 2 ^ 48 /\
  aligned (output_base tt) 4096 /\ 0 <= attr < 2 ^ 64.

Lemma page_desc_bits out attr :
  Z.testbit (page_desc out attr) 0 = true /\ Z.testbit (page_desc out attr) 1 = true.
Proof. unfold page_desc. by rewrite !Z.lor_spec. Qed.

Lemma level3_mapped base m ib ob np attr : page_ok base ->
  (forall k, 0 <= k < np -> load64 m (base + 8 * fld 12 9 (ib + 4096 * k)) =
     page_desc (ob + 4096 * k) attr) ->
  mapped 0 base [] m ib ob np attr.
Proof.
  intros Hb H m' Hm k Hk. cbn [arch_walk].
  assert (load64 m' (slot base 0 (ib + 4096 * k)) = page_desc (ob + 4096 * k) attr) as ->;
    [|by destruct (page_desc_bits (ob + 4096 * k) attr) as [-> ->]].
  rewrite <- H by done. rewrite slot_small by done. apply load_ext. intros b Hbb. apply Hm.
  exists base. split; [by left|]. apply (slot_in_page _ 0 (ib + 4096 * k)); [done|].
  by rewrite slot_small.
Qed.

Lemma upper_mapped n base a pages m ib ob np attr : (1 <= n)%nat -> page_ok base -> page_ok a ->
  ib mod 2 ^ 21 + 4096 * np <= 2 ^ 21 ->
  load64 m (slot base n ib) = 3 .| a -> mapped (n - 1) a pages m ib ob np attr ->
  mapped n base (a :: pages) m ib ob np attr.
Proof.
  intros Hn Hb Ha Hfit Hd Hmap m' Hm k Hk. destruct n as [|n]; [lia|]. cbn [arch_walk].
  assert (load64 m' (slot base (S n) (ib + 4096 * k)) = 3 .| a) as ->.
  { rewrite <- Hd. rewrite !slot_small by done. rewrite (fld_upper (S n) ib k np) by (lia || done).
    rewrite <- slot_small by done. apply load_ext. intros b Hbb. apply Hm.
    exists base. split; [by left|]. by apply (slot_in_page _ (S n) ib). }
  destruct (table_desc_ok a Ha) as (-> & [-> ->] & _). cbn [negb].
  replace (S n - 1)%nat with n in Hmap by lia. apply Hmap; [|done].
  intros b (c & Hc & Hbc). apply Hm. exists c. split; [|done]. destruct Hc as [->|Hc]; right.
  - by left.
  - by right.
Qed.

(** The result of a call on a table with [n] levels below it. *)
Definition fill_post (n : nat) (tt : tt_descriptor) (np attr : Z) (pages : list Z) (p' : P)
    (s : vst P) (r : Z) (s' : vst P) : Prop :=
  r = 0 /\ geo s' /\ v_pal s' = p' /\ offset s' = 0 /\
  only_at (in_pages (tt_base tt :: pages)) (v_mem s) (v_mem s') /\
  mapped n (tt_base tt) pages (v_mem s') (input_base tt) (output_base tt) np attr.

(** The fields no page-table store changes. *)
Definition same_tables s s' : Prop :=
  page_size s' = page_size s /\ bits_per_level s' = bits_per_level s /\
  pgt_addr_mask s' = pgt_addr_mask s /\ is_values_init s' = is_values_init s /\
  acs_pgt_info s' = acs_pgt_info s.

Lemma wp_alloc_zeroed a q n (Q : Z -> vst P -> Prop) s :
  pm_alloc_pages 1 (v_pal s) = (a, q) -> a <> 0 ->
  (forall s1, same_tables s s1 -> v_pal s1 = q ->
     only_at (fun b => a <= b < a + n) (v_mem s) (v_mem s1) ->
     (forall c, a <= c -> c + 8 <= a + n -> load64 (v_mem s1) c = 0) -> Q a s1) ->
  wp (let! p := alloc_page in (when truthy p then vset p n 0) ;; ret p) Q s.
Proof.
  intros Hal Ha HQ. unfold alloc_page, upd_pal, vset, upd_mem.
  unfold wp, bind at 1, bind at 1. rewrite Hal. unfold modify, bind, ret, truthy.
  destruct (Z.eqb_spec a 0) as [|_]; [done|].
  apply HQ; [done|done| |]; cbn [v_mem].
  - apply only_at_memset. lia.
  - intros c H1 H2. apply (load_memset0 _ 8); lia.
Qed.

(** Above level 3 nothing is counted while the counters are zero. *)
Lemma increment_zero l k su : l <> 3 -> u32 (k - 1) <> 0 ->
  increment_index (mk_pgti 0 0 0 0 su) l k = mk_pgti 0 0 0 0 su.
Proof.
  intros Hl Hk. unfold increment_index. cbn [l1_index l2_index].
  replace (0 =? u32 (k - 1)) with false by zbool. replace (l =? 3) with false by zbool.
  destruct (l =? 1); [done|]. by destruct (l =? 2).
Qed.

Lemma in_pages_cons a l b : page_of a b \/ in_pages l b -> in_pages (a :: l) b.
Proof. intros [H|(c & Hc & H)]; [exists a|exists c]; split; try done; [by left|by right]. Qed.

(** The two turns of the loop above level 3: the first descends into a fresh
    page, the second is past the region. *)
Lemma descend_step rec tt attr np a pages n s q p' : (1 <= n <= 3)%nat -> geo s ->
  is_values_init s = 1 -> acs_pgt_info s = mk_pgti 0 0 0 0 (size_used (acs_pgt_info s)) ->
  level tt = 3 - Z.of_nat n -> size_log2 tt = 12 + 9 * Z.of_nat n -> nbits tt = 9 ->
  region_ok tt np attr -> Forall page_ok (tt_base tt :: a :: pages) ->
  NoDup (tt_base tt :: a :: pages) ->
  load64 (v_mem s) (slot (tt_base tt) n (input_base tt)) = 0 ->
  pm_alloc_pages 1 (v_pal s) = (a, q) ->
  (forall s1, geo s1 -> is_values_init s1 = 1 ->
     acs_pgt_info s1 = mk_pgti 0 0 0 0 (size_used (acs_pgt_info s1)) -> v_pal s1 = q ->
     (forall va, load64 (v_mem s1) (slot a (n - 1) va) = 0) ->
     let tt1 := mk_tt a (input_base tt) (input_top tt) (output_base tt)
                  (4 - Z.of_nat n) (3 + 9 * Z.of_nat n) 9 in
     wp (rec tt1) (fill_post (n - 1) tt1 np attr pages p' s1) s1) ->
  wp (fill_step rec tt attr (2 ^ size_log2 tt) (input_base tt, output_base tt)) (fun x s' =>
    x = inl (input_base tt + 2 ^ size_log2 tt, u64 (output_base tt + 2 ^ size_log2 tt)) /\
    fill_post n tt np attr (a :: pages) p' s 0 s') s.
Proof.
  intros Hn (G1 & G2 & G3) Hv Hidx Hl Hs Hnb Hreg Hpg Hnd Hz Hal Hrec.
  destruct Hreg as (Hnp & Hi & Hia & Hfit & Htop & Ht & Ho & Ho2 & Hoa & Hattr).
  pose proof (Forall_inv Hpg) as Hpb. pose proof (Forall_inv_tail Hpg) as Hpg'. pose proof (Forall_inv Hpg') as Hpa.
  assert (tt_base tt <> a) as Hne.
  { intros E. pose proof (NoDup_cons_1_1 _ _ Hnd) as Hnin. apply Hnin. rewrite E. by left. }
  pose proof (Z.pow_le_mono_r 2 21 (size_log2 tt) ltac:(lia) ltac:(lia)) as Hb1.
  pose proof (Z.pow_le_mono_r 2 (size_log2 tt) 39 ltac:(lia) ltac:(lia)) as Hb2.
  rewrite slot_small in Hz by done. rewrite <- Hs in Hz.
  unfold fill_step. replace (input_top tt <=? input_base tt) with false by zbool.
  apply wp_bind, wp_gets_v, wp_bind, wp_gets_v. rewrite G1, G2, Hnb.
  apply wp_bind, wp_shr_chk; [lia|]. apply wp_bind, wp_shl_chk; [lia|].
  change (u64 (wrap 64 (1 << 9) - 1)) with (Z.ones 9).
  fold (fld (size_log2 tt) 9 (input_base tt)).
  set (td := tt_base tt + 8 * fld (size_log2 tt) 9 (input_base tt)) in *.
  replace (level tt =? 3) with false by zbool.
  replace (u64 (input_base tt + 2 ^ size_log2 tt - 1) <=? input_top tt) with false
    by (unfold u64; rewrite wrap_small by lia; zbool).
  rewrite andb_false_r. apply wp_bind, wp_vrd. rewrite Hz. change (0 =? 0) with true.
  cbn [orb andb]. cbv iota. apply wp_bind, wp_gets_v, wp_bind.
  assert (a <> 0) as Ha0 by (destruct Hpa as [_ Hr]; clear - Hr; lia).
  apply (wp_alloc_zeroed a q 4096); [exact Hal|exact Ha0|].
  intros s1 (S1 & S2 & S3 & S4 & S5) Sp Sm Sz.
  replace (a =? 0) with false by (symmetry; by apply Z.eqb_neq). cbv iota.
  apply wp_bind. unfold get_pgt_index. apply wp_bind, wp_gets_v, wp_ret.
  assert (get_pgt_index_of (acs_pgt_info s1) (u32 (level tt + 1)) = 0) as ->.
  { rewrite S5, Hidx. unfold get_pgt_index_of. cbn [l0_index l1_index l2_index l3_index].
    generalize (u32 (level tt + 1)). intros l.
    by destruct (l =? 0), (l =? 1), (l =? 2), (l =? 3). }
  rewrite Z.mul_0_l. change (u64 0) with 0. rewrite Z.sub_0_r.
  unfold set_offset, increment_pgt_index, set_info.
  apply wp_bind, wp_modify, wp_bind, wp_modify. cbn [v_mem v_pal acs_pgt_info].
  rewrite S5, Hidx, increment_zero by (lia || done).
  replace (u64 (input_base tt + 2 ^ size_log2 tt - 1)) with (input_base tt + 2 ^ size_log2 tt - 1)
    by (unfold u64; rewrite wrap_small; lia).
  replace (input_top tt <? input_base tt + 2 ^ size_log2 tt - 1) with true
    by (symmetry; apply Z.ltb_lt; lia).
  assert (u32 (level tt + 1) = 4 - Z.of_nat n) as -> by (unfold u32; rewrite wrap_small; lia).
  assert (u32 (size_log2 tt - 9) = 3 + 9 * Z.of_nat n) as -> by (unfold u32; rewrite wrap_small; lia).
  apply wp_bind. eapply wp_mono; [|apply Hrec].
  2:{ unfold geo. cbn. by rewrite S1, S2, S3. } 2:{ cbn. by rewrite S4. } 2:{ done. } 2:{ done. }
  2:{ intros va. cbn [v_mem]. rewrite slot_small by done.
      pose proof (fld_range (12 + 9 * Z.of_nat (n - 1)) 9 va ltac:(lia)).
      apply Sz; lia. }
  intros r s2 (-> & (G1' & G2' & G3') & Hp2 & Ho0 & Hm2 & Hmap). cbn [tt_base input_base output_base v_mem] in *.
  change (truthy 0) with false. cbv iota. rewrite v2p_id.
  change (u32 (4096 - 1)) with (2 ^ 12 - 1).
  rewrite (align_out 12) by (destruct Hpa; try done; lia).
  destruct (table_desc_ok a Hpa) as (_ & _ & Hdr).
  assert (forall b, page_of (tt_base tt) b -> ~ in_pages (a :: pages) b) as Hdis.
  { intros b Hb (c & Hc & Hcb). apply (pages_disjoint (tt_base tt) c b); [done| | |done|done].
    - by apply (proj1 (List.Forall_forall page_ok (a :: pages)) Hpg').
    - intros E. apply (NoDup_cons_1_1 _ _ Hnd). rewrite E. by apply list_elem_of_In. }
  unfold or_desc, vwr, upd_mem. unfold wp, vrd, gets, modify, bind, ret.
  cbn [v_mem v_pal offset page_size bits_per_level pgt_addr_mask].
  rewrite load64_store64 by done.
  change (PGT_ENTRY_TABLE_MASK .| PGT_ENTRY_VALID_MASK) with 3.
  rewrite Ho0, Z.sub_0_r.
  assert (u64 (2 ^ size_log2 tt) = 2 ^ size_log2 tt) as -> by (apply wrap_small; lia).
  assert (u64 (input_base tt + 2 ^ size_log2 tt) = input_base tt + 2 ^ size_log2 tt) as ->
    by (apply wrap_small; lia).
  split; [done|]. split; [done|]. split; [done|]. split; [done|]. split; [done|].
  assert (only_at (page_of (tt_base tt)) (v_mem s2)
    (store64 (store64 (v_mem s2) td 3) td (3 .| a))) as Hst.
  { assert (forall b, td <= b < td + 8 -> page_of (tt_base tt) b) as Htd.
    { intros b Hb. unfold td, page_of in *.
      pose proof (fld_range (size_log2 tt) 9 (input_base tt) ltac:(lia)). lia. }
    transitivity (store64 (v_mem s2) td 3); apply only_at_store; exact Htd. }
  split.
  { transitivity (v_mem s1); [|transitivity (v_mem s2)].
    - eapply only_at_mono; [|exact Sm]. intros b Hb. apply in_pages_cons. right. exists a.
      split; [by left|exact Hb].
    - eapply only_at_mono; [|exact Hm2]. intros b Hb. apply in_pages_cons. by right.
    - eapply only_at_mono; [|exact Hst]. intros b Hb. apply in_pages_cons. by left. }
  apply (upper_mapped n); try done; [lia| |].
  { rewrite slot_small, <- Hs by done. by apply load64_store64. }
  intros m' Hm' k Hk. apply Hmap; [|done]. intros b Hb. rewrite Hm' by done.
  apply Hst. intros Hin. by apply (Hdis b Hin).
Qed.

(** The counters are set to zero on the first use. *)
Lemma wp_first_index (Q : unit -> vst P -> Prop) s : no_index s ->
  (forall s0, (geo s -> geo s0) -> is_values_init s0 = 1 ->
     acs_pgt_info s0 = mk_pgti 0 0 0 0 (size_used (acs_pgt_info s0)) ->
     v_pal s0 = v_pal s -> v_mem s0 = v_mem s -> Q tt s0) ->
  wp (when is_values_init s =? 0 then (setup_acs_pgt_values ;; set_values_init 1)) Q s.
Proof.
  intros [H|[H Hi]] HQ; rewrite H.
  - by apply HQ.
  - by apply HQ.
Qed.

(** A table with [n] levels below it, filled for the first time. *)
Lemma fill_table n : forall depth fuel tt np attr pages p' s,
  (n < depth)%nat -> (n <= 3)%nat -> (512 <= fuel)%nat -> geo s -> no_index s ->
  level tt = 3 - Z.of_nat n -> size_log2 tt = 12 + 9 * Z.of_nat n -> nbits tt = 9 ->
  region_ok tt np attr -> Forall page_ok (tt_base tt :: pages) ->
  NoDup (tt_base tt :: pages) -> length pages = n -> supplies pages (v_pal s) p' ->
  ((1 <= n)%nat -> load64 (v_mem s) (slot (tt_base tt) n (input_base tt)) = 0) ->
  wp (fill_translation_table depth fuel attr tt)
    (fill_post n tt np attr pages p' s) s.
Proof.
  induction n as [|n IH]; intros depth fuel tt np attr pages p' s Hd Hn3 Hf G Hno Hl Hs Hnb
    Hreg Hpg Hnd Hlen Hsup Hz; (destruct depth as [|depth]; [lia|]);
    cbn [fill_translation_table];
    (apply wp_bind, wp_shl_chk; [lia|]); apply wp_bind, wp_gets_v, wp_bind;
    (assert (wrap 64 (1 << size_log2 tt) = 2 ^ size_log2 tt) as ->
      by (pose proof (Z.pow_le_mono_r 2 (size_log2 tt) 39 ltac:(lia) ltac:(lia));
          pose proof (Z.pow_pos_nonneg 2 (size_log2 tt) ltac:(lia) ltac:(lia));
          rewrite Z.shiftl_1_l, wrap_small; lia));
    (apply (wp_first_index _ s Hno); intros s0 G0 Hv0 Hi0 Hp0 Hm0; specialize (G0 G);
     rewrite <- Hp0 in Hsup; rewrite <- Hm0 in Hz).
  - destruct pages; [|done]. cbn in Hsup. subst p'.
    change (12 + 9 * Z.of_nat 0) with 12 in Hs. rewrite Hs. change (2 ^ 12) with 4096.
    destruct Hreg as (Hnp & Hi & Hia & Hfit & Htop & Ht & Ho & Ho2 & Hoa & Hattr).
    eapply wp_mono; [|apply (fill_level3 fuel _ tt attr np s0); try done; try lia].
    intros r s' (-> & G' & Hp' & Ho' & Hld & Hm).
    split; [done|]. split; [done|]. split; [done|]. split; [done|]. split.
    + rewrite <- Hm0. eapply only_at_mono; [|exact Hm]. intros b Hb. exists (tt_base tt).
      split; [by left|done].
    + apply level3_mapped; [by apply (Forall_inv Hpg)|done].
  - destruct pages as [|a pages]; [done|]. destruct Hsup as (q & Hal & Hsup).
    destruct fuel as [|[|fuel]]; [lia..|]. cbn [loop]. apply wp_bind.
    eapply wp_mono; [|apply (descend_step _ tt attr np a pages (S n) s0 q p'); try done; try lia].
    2:{ intros s1 G1 V1 I1 P1 Z1 tt1. replace (S n - 1)%nat with n in * by lia.
        apply IH; unfold tt1; cbn [level size_log2 nbits tt_base input_base]; try done; try lia.
        - right. by split.
        - exact (Forall_inv_tail Hpg).
        - by apply (NoDup_cons_1_2 _ _ Hnd).
        - by injection Hlen.
        - by rewrite P1. }
    intros x s' (-> & Hpost). apply wp_bind. unfold fill_step at 1.
    destruct Hreg as (Hnp & Hi & _ & Hfit & Htop & _).
    pose proof (Z.pow_le_mono_r 2 21 (size_log2 tt) ltac:(lia) ltac:(lia)).
    pose proof (Z.mod_pos_bound (input_base tt) (2 ^ 21) ltac:(lia)).
    replace (input_top tt <=? input_base tt + 2 ^ size_log2 tt) with true
      by (symmetry; apply Z.leb_le; lia).
    apply wp_ret, wp_ret. unfold fill_post in *. by rewrite <- Hm0.
Qed.

(** The walk looks at whole pages. *)
Lemma arch_walk_page n m base va :
  arch_walk n m base va = arch_walk n m base (4096 * (va / 4096)).
Proof.
  assert (forall k, fld (12 + 9 * Z.of_nat k) 9 (4096 * (va / 4096)) =
                    fld (12 + 9 * Z.of_nat k) 9 va) as E.
  { intros k. rewrite !fld_div_mod by lia. f_equal. rewrite Z.pow_add_r by lia.
    change (2 ^ 12) with 4096. rewrite <- !Z.div_div by lia. f_equal.
    rewrite Z.mul_comm. by apply Z.div_mul. }
  revert base. induction n as [|n IH]; intros base; cbn [arch_walk]; unfold slot; rewrite E; [done|].
  by rewrite <- IH.
Qed.

Hypothesis page_4k : pm_page_size = 4096.

Lemma geometry_48 s : pgt_geometry 48 s = Done (12, 4) s.
Proof. unfold pgt_geometry. rewrite page_4k. done. Qed.
Lemma addr_mask_48 s : addr_mask (48 - 12) 12 s = Done table_mask s.
Proof. done. Qed.

(** The region a caller passes: [np] pages inside one 2MB block. *)
Definition mem_region_ok (m : memory_region) (np : Z) : Prop :=
  1 <= np < 512 /\ length_ m = 4096 * np /\ 0 <= virtual_address m /\
  aligned (virtual_address m) 4096 /\ virtual_address m mod 2 ^ 21 + 4096 * np <= 2 ^ 21 /\
  virtual_address m + 4096 * np <= 2 ^ 48 /\ 0 <= physical_address m /\
  aligned (physical_address m) 4096 /\ physical_address m + 4096 * np <= 2 ^ 48 /\
  0 <= attributes m < 2 ^ 64.

(** One region written below a fresh root. *)
Lemma create_one_maps boot depth fuel pd root pages p' m np s :
  pd_ias pd = 48 -> pd_oas pd = 48 -> boot = true \/ t_tg_size_log2 (pd_tcr pd) = 12 ->
  (3 < depth)%nat -> (512 <= fuel)%nat -> geo s -> no_index s -> mem_region_ok m np ->
  Forall page_ok (root :: pages) -> NoDup (root :: pages) -> length pages = 3%nat ->
  supplies pages (v_pal s) p' -> load64 (v_mem s) (slot root 3 (virtual_address m)) = 0 ->
  wp (create_one boot depth fuel pd root 12 4 m) (fun x s' => x = (0, m) /\
    only_at (in_pages (root :: pages)) (v_mem s) (v_mem s') /\
    mapped 3 root pages (v_mem s') (virtual_address m) (physical_address m) np (attributes m)) s.
Proof.
  intros Hias Hoas Hboot Hd Hf G Hno
    (Hnp & Hlen & Hv & Hva & Hfit & Hv2 & Hp & Hpa & Hp2 & Hattr) Hpg Hnd Hl Hsup Hz.
  pose proof G as (G1 & G2 & _).
  assert (forall x, aligned x 4096 -> truthy (x .& u32 (4096 - 1)) = false) as Hal.
  { intros x Hx. change (u32 (4096 - 1)) with (2 ^ 12 - 1). unfold truthy.
    by rewrite (proj2 (land_low_aligned 12 x ltac:(lia)) Hx). }
  assert (forall x, 0 <= x < 2 ^ 48 -> x .& (wrap 64 (1 << 48) - 1) = x) as Hlow.
  { intros x Hx. change (wrap 64 (1 << 48) - 1) with (Z.ones 48).
    rewrite Z.land_ones by lia. by apply Z.mod_small. }
  unfold create_one. apply wp_bind, wp_gets_v, wp_bind, wp_gets_v. rewrite G1, G2.
  rewrite !Hal by done. cbn [orb]. rewrite Hias, Hoas.
  apply wp_bind, wp_shl_chk; [lia|].
  replace (wrap 64 (1 << 48) <=? physical_address m) with false
    by (symmetry; apply Z.leb_gt; change (wrap 64 (1 << 48)) with (2 ^ 48); lia).
  apply wp_bind, wp_shl_chk; [lia|].
  replace (wrap 64 (1 << 48) <=? virtual_address m) with false
    by (symmetry; apply Z.leb_gt; change (wrap 64 (1 << 48)) with (2 ^ 48); lia).
  replace (negb boot && negb (t_tg_size_log2 (pd_tcr pd) =? 12)) with false
    by (by destruct Hboot as [-> | ->]; [|rewrite Z.eqb_refl, andb_false_r]).
  rewrite !Hlow by lia. rewrite Hlen.
  change (u32 (u32 (4 - 1) * 9 + 12)) with 39. change (u32 (48 - 39)) with 9.
  change (u32 (4 - 4)) with 0.
  replace (u64 (virtual_address m + 4096 * np - 1)) with (virtual_address m + 4096 * np - 1)
    by (unfold u64; rewrite wrap_small; lia).
  apply wp_bind. eapply wp_mono; [|apply (fill_table 3 depth fuel _ np (attributes m) pages p' s);
    try done; try lia].
  - intros r s' (-> & _ & _ & _ & Hm & Hmap). by apply wp_ret.
  - unfold region_ok. cbn [input_base input_top output_base].
    do 9 (split; [first [assumption | reflexivity | lia]|]). done.
Qed.

(** C3. [val_pgt_create] on a platform with 4KB pages and an identity map, for
    a 48-bit space and a first region of fewer than 512 pages inside a 2MB block:
    it returns 0 and the root page, the architecture's walk from that root takes
    every address of the region to the page of the physical address at the same
    distance with the region's attributes, and only the four allocated pages are
    written. *)
Theorem val_pgt_create_maps boot depth fuel pd root pages p' m np s :
  pd_base pd = 0 -> pd_ias pd = 48 -> pd_oas pd = 48 ->
  boot = true \/ t_tg_size_log2 (pd_tcr pd) = 12 ->
  (3 < depth)%nat -> (512 <= fuel)%nat -> no_index s -> mem_region_ok m np ->
  Forall page_ok (root :: pages) -> NoDup (root :: pages) -> length pages = 3%nat ->
  supplies (root :: pages) (v_pal s) p' ->
  wp (val_pgt_create boot depth fuel [m; zero_region] pd) (fun x s' =>
    x = (0, Some m, set_base root pd) /\
    only_at (in_pages (root :: pages)) (v_mem s) (v_mem s') /\
    forall va, virtual_address m <= va < virtual_address m + length_ m ->
      arch_walk 3 (v_mem s') root va =
      Leaf O (page_desc (physical_address m + 4096 * ((va - virtual_address m) / 4096))
                 (attributes m))) s.
Proof.
  intros Hb Hias Hoas Hboot Hd Hf Hno Hm Hpg Hnd Hl (q & Hal & Hsup).
  pose proof (Forall_inv Hpg) as [_ Hroot].
  unfold val_pgt_create. rewrite Hias, Hb. apply wp_bind. unfold wp at 1.
  rewrite (geometry_48 s). change (cap4 4) with 4. rewrite page_4k.
  unfold set_geometry. apply wp_bind, wp_gets_v, wp_bind, wp_modify.
  change (0 =? 0) with true. cbv iota. apply wp_bind.
  apply (wp_alloc_zeroed root q 4096); [exact Hal|lia|].
  intros s1 (_ & _ & _ & S4 & S5) Sp Sm Sz. replace (root =? 0) with false by (symmetry; apply Z.eqb_neq; lia).
  apply wp_bind. unfold wp at 1. rewrite addr_mask_48.
  apply wp_bind, wp_modify, wp_bind. cbn [head use]. apply wp_ret, wp_bind.
  destruct Hm as (Hnp & Hlen & Hm'). cbn [create_loop].
  replace (length_ m =? 0) with false by (symmetry; apply Z.eqb_neq; lia).
  apply wp_bind. eapply wp_mono; [|apply (create_one_maps boot depth fuel pd root pages p' m np);
    try done].
  - intros x s2 (-> & Hon & Hmap). change (truthy 0) with false. cbv iota.
    cbn [create_loop]. change (length_ zero_region =? 0) with true. cbv iota.
    apply wp_ret. change (truthy 0) with false. cbv iota. apply wp_ret. rewrite v2p_id.
    split; [done|]. split.
    + etransitivity; [|exact Hon]. eapply only_at_mono; [|exact Sm].
      intros b Hbb. exists root. split; [by left|exact Hbb].
    + destruct Hm' as (Hv & Hva & Hfit & _). intros va Hr.
      pose proof (Z.div_mod (va - virtual_address m) 4096 ltac:(lia)).
      pose proof (Z.mod_pos_bound (va - virtual_address m) 4096 ltac:(lia)).
      rewrite arch_walk_page.
      replace (4096 * (va / 4096)) with
        (virtual_address m + 4096 * ((va - virtual_address m) / 4096)).
      { apply (Hmap (v_mem s2)); [done|]. split; [apply Z.div_pos; lia|].
        apply Z.div_lt_upper_bound; lia. }
      unfold aligned in Hva. pose proof (Z.div_mod (virtual_address m) 4096 ltac:(lia)).
      assert (va / 4096 = virtual_address m / 4096 + (va - virtual_address m) / 4096) as ->; [|lia].
      symmetry. apply (Z.div_unique _ _ _ ((va - virtual_address m) mod 4096)); lia.
  - unfold no_index in *. cbn in *. by rewrite S4, S5.
  - by rewrite <- Sp in Hsup.
  - cbn [v_mem]. pose proof (fld_range (12 + 9 * Z.of_nat 3) 9 (virtual_address m) ltac:(lia)).
    rewrite slot_small by apply (Forall_inv Hpg). apply Sz; lia.
Qed.
End fill.

(** ** The attribute look-up *)

Section attributes.
Context {P : Type} {PM : PalMem P}.
Implicit Types s : vst P.

(** What the query answers where the architecture's walk ends.  A leaf gives its
    attribute bits.  An invalid or reserved descriptor with bit 1 clear is an
    error at level 3 only: above, the query takes it for a block and succeeds with
    its bits.  An invalid descriptor with bit 1 set is taken for a page at level 3
    and for a table above, and the answer is that of the walk behind it. *)
Inductive query (m : mem) (va : Z) : walk_end -> Z * option Z -> Prop :=
| query_leaf n d : query m va (Leaf n d) (0, Some (PGT_DESC_ATTRIBUTES d))
| query_no_page d : Z.testbit d 1 = false -> query m va (Fault 0 d) (ACS_STATUS_ERR, None)
| query_no_block n d : Z.testbit d 1 = false ->
    query m va (Fault (S n) d) (0, Some (PGT_DESC_ATTRIBUTES d))
| query_invalid_page d : Z.testbit d 1 = true ->
    query m va (Fault 0 d) (0, Some (PGT_DESC_ATTRIBUTES d))
| query_invalid_table n d r : Z.testbit d 1 = true ->
    query m va (arch_walk n m (d .& table_mask) va) r -> query m va (Fault (S n) d) r.

Lemma walk_read_48 n base va s : (n <= 3)%nat ->
  walk_read va (base, 3 - Z.of_nat n, 12 + 9 * Z.of_nat n, 9) s =
  Done (fld (12 + 9 * Z.of_nat n) 9 va, load64 (v_mem s) (slot base n va)) s.
Proof.
  intros Hn. unfold walk_read, shr_chk, shl_chk. 
  replace ((0 <=? 12 + 9 * Z.of_nat n) && (12 + 9 * Z.of_nat n <? 64)) with true by zbool.
  change (u32 (wrap 32 (1 << 9) - 1)) with (Z.ones 9).
  unfold bind, require, ret, vrd, gets. cbn [andb Z.leb Z.ltb Z.compare Pos.compare Pos.compare_cont].
  fold (fld (12 + 9 * Z.of_nat n) 9 va).
  assert (u32 (fld (12 + 9 * Z.of_nat n) 9 va) = fld (12 + 9 * Z.of_nat n) 9 va) as E.
  { pose proof (fld_range (12 + 9 * Z.of_nat n) 9 va ltac:(lia)). apply wrap_small. lia. }
  change (wrap 32 (1 << 9)) with 512. change (u32 (512 - 1)) with (Z.ones 9).
  fold (fld (12 + 9 * Z.of_nat n) 9 va). rewrite E. done.
Qed.

Lemma bit1_truthy d : truthy (d .& 2) = Z.testbit d 1.
Proof. by apply (truthy_bit d 1). Qed.

Lemma attr_loop n fuel base va s : (n <= 3)%nat -> (n < fuel)%nat ->
  wp (loop fuel (attr_step va 48 12 9) (base, 3 - Z.of_nat n, 12 + 9 * Z.of_nat n, 9))
    (fun x s' => s' = s /\ query (v_mem s) va (arch_walk n (v_mem s) base va) x) s.
Proof.
  revert fuel base. induction n as [|n IH]; intros fuel base Hn Hf;
    (destruct fuel as [|fuel]; [lia|]); cbn [loop]; apply wp_bind; unfold attr_step;
    apply wp_bind; unfold wp at 1; rewrite walk_read_48 by lia; cbn [arch_walk];
    set (d := load64 _ _); unfold IS_PGT_ENTRY_PAGE, IS_PGT_ENTRY_BLOCK; rewrite bit1_truthy.
  - change (3 - Z.of_nat 0 =? 3) with true. cbv iota.
    destruct (Z.testbit d 1) eqn:E1, (Z.testbit d 0); cbn [negb]; repeat apply wp_ret;
      split; [done|by constructor|done|by constructor|done|by constructor|done|by constructor].
  - replace (3 - Z.of_nat (S n) =? 3) with false by zbool.
    destruct (Z.testbit d 1) eqn:E1; cbn [negb].
    + unfold addr_mask. apply wp_bind, wp_bind, wp_shl_chk; [lia|]. apply wp_shl_chk; [lia|].
      apply wp_ret.
      change (wrap 64 (u64 (wrap 64 (1 << (48 - 12)) - 1) << 12)) with table_mask.
      replace (u32 (3 - Z.of_nat (S n) + 1)) with (3 - Z.of_nat n)
        by (unfold u32; rewrite wrap_small; lia).
      replace (u32 (12 + 9 * Z.of_nat (S n) - 9)) with (12 + 9 * Z.of_nat n)
        by (unfold u32; rewrite wrap_small; lia).
      eapply wp_mono; [|apply (IH fuel (d .& table_mask)); lia].
      intros x s' [-> Hq]. split; [done|]. destruct (Z.testbit d 0); cbn [negb]; [done|].
      by apply query_invalid_table.
    + repeat apply wp_ret. split; [done|].
      destruct (Z.testbit d 0); cbn [negb]; [|by apply query_no_block].
      destruct (_ || _)%nat; [by apply query_leaf|by apply query_no_block].
Qed.

(** C18. [val_pgt_get_attributes] for a 4KB granule and a 48-bit space against
    the architecture's walk: where the walk ends in a page or block, the query
    returns 0 and that descriptor's attribute bits.  Where the walk faults the
    answers differ: a descriptor with bits 1 and 0 clear, or reserved with bit 1
    clear, is the error only at level 3, above it the query returns 0 with that
    descriptor's bits; the query never looks at bit 0, so an invalid descriptor
    with bit 1 set is a page at level 3 and a table to follow above.  In all cases
    it ends within four turns and writes nothing. *)
Theorem get_attributes_walks fuel pd va s : pd_base pd <> 0 ->
  t_tg_size_log2 (pd_tcr pd) = 12 -> t_tsz (pd_tcr pd) = 16 -> (3 < fuel)%nat ->
  wp (val_pgt_get_attributes fuel pd va) (fun x s' =>
    query (v_mem s) va (arch_walk 3 (v_mem s) (pd_base pd) va) x /\
    v_mem s' = v_mem s /\ v_pal s' = v_pal s) s.
Proof.
  intros Hb Htg Htsz Hf. unfold val_pgt_get_attributes.
  replace (pd_base pd =? 0) with false by zbool. rewrite Htg, Htsz.
  unfold set_bits_per_level. apply wp_bind, wp_modify, wp_bind. apply wp_require; [done|].
  change (u32 (64 - 16 - 12 + u32 (12 - 3) - 1) / u32 (12 - 3)) with 4.
  change (u32 (4 - 4)) with (3 - Z.of_nat 3).
  change (u32 (u32 (4 - 1) * u32 (12 - 3) + 12)) with (12 + 9 * Z.of_nat 3).
  change (u32 (64 - 16 - (12 + 9 * Z.of_nat 3))) with 9. change (u32 (12 - 3)) with 9.
  change (64 - 16) with 48. eapply wp_mono; [|apply attr_loop; lia].
  intros x s' [-> Hq]. by split.
Qed.

Lemma rmv_loop n fuel va base bits s : (n <= 3)%nat -> (n < fuel)%nat -> 0 <= bits < 32 ->
  wp (loop fuel (rmv_step va 40 12 9) (base, 3 - Z.of_nat n, 12 + 9 * Z.of_nat n, bits))
    (fun _ s' => s' = s) s.
Proof.
  revert fuel base bits. induction n as [|n IH]; intros fuel base bits Hn Hf Hbits;
    (destruct fuel as [|fuel]; [lia|]); cbn [loop]; apply wp_bind;
    unfold rmv_step, walk_read; apply wp_bind, wp_bind, wp_shr_chk; try lia;
    apply wp_bind, wp_shl_chk; try lia; apply wp_bind; unfold vrd; apply wp_gets, wp_ret.
  - change (3 - Z.of_nat 0 =? 3) with true. cbv iota.
    by destruct (negb _); apply wp_ret, wp_ret.
  - replace (3 - Z.of_nat (S n) =? 3) with false by zbool.
    destruct (IS_PGT_ENTRY_BLOCK _); [by apply wp_ret, wp_ret|].
    unfold addr_mask. apply wp_bind, wp_bind, wp_shl_chk; [lia|]. apply wp_shl_chk; [lia|].
    apply wp_ret.
    replace (3 - Z.of_nat (S n) + 1) with (3 - Z.of_nat n) by lia.
    replace (u32 (12 + 9 * Z.of_nat (S n) - 9)) with (12 + 9 * Z.of_nat n)
      by (unfold u32; rewrite wrap_small; lia).
    apply IH; lia.
Qed.

(** [val_pe_mmu_map_rmv] removes nothing: the descriptor it invalidates is
    a local copy.  At EL2 with a valid granule the call ends, reports its status
    and leaves every byte of memory, so every translation, as it was. *)
Theorem map_rmv_keeps_memory fuel m s : pm_page_size = 4096 ->
  current_el (v_regs s) = AARCH64_EL2 -> hcr_el2 (v_regs s) .& AARCH64_HCR_E2H_MASK = 0 ->
  tcr_field (tcr_el2 (v_regs s)) 14 2 <= 2 -> (3 < fuel)%nat ->
  wp (val_pe_mmu_map_rmv fuel m) (fun _ s' => v_mem s' = v_mem s /\
    forall n base va, arch_walk n (v_mem s') base va = arch_walk n (v_mem s) base va) s.
Proof.
  intros Hps Hel Hhcr Htg Hf.
  assert (exists pd, current_pgt s = Done (Some pd) s /\ pd_ias pd = 40) as (pd & Hpd & Hias).
  { unfold current_pgt, val_pe_reg_read_tcr, val_pe_reg_read_ttbr, val_pe_reg_read_tcr_elx,
      val_pe_reg_read_mair_elx, vreg.
    unfold bind, gets, ret. cbv beta iota zeta. rewrite Hel.
    change (AARCH64_EL2 .& AARCH64_EL_MASK) with AARCH64_EL2.
    change (AARCH64_EL2 =? AARCH64_EL1) with false. change (AARCH64_EL2 =? AARCH64_EL2) with true.
    cbv beta iota zeta. rewrite Hel. change (AARCH64_EL2 .& AARCH64_EL_MASK) with AARCH64_EL2.
    change (AARCH64_EL2 =? AARCH64_EL1) with false. change (AARCH64_EL2 =? AARCH64_EL2) with true.
    cbn [negb andb orb]. cbv beta iota zeta. rewrite Hhcr. change (truthy 0) with false.
    cbn [negb andb orb]. cbv beta iota zeta. replace (2 <? tcr_field (tcr_el2 (v_regs s)) 14 2) with false
      by (symmetry; apply Z.ltb_ge; lia).
    assert (0 <= tcr_field (tcr_el2 (v_regs s)) 14 2) as H0.
    { unfold tcr_field. apply Z.shiftr_nonneg, Z.land_nonneg. right. vm_compute. discriminate. }
    assert (exists sz, nth_chk tg_ttbr0 (tcr_field (tcr_el2 (v_regs s)) 14 2) s = Done sz s)
      as [sz Hsz].
    { generalize dependent (tcr_field (tcr_el2 (v_regs s)) 14 2). intros x Hx H0.
      assert (x = 0 \/ x = 1 \/ x = 2) as [-> | [-> | ->]] by lia; by eexists. }
    rewrite Hsz. cbv beta iota zeta. rewrite !Hel.
    change (AARCH64_EL2 .& AARCH64_EL_MASK =? AARCH64_EL1) with false.
    change (AARCH64_EL2 .& AARCH64_EL_MASK =? AARCH64_EL2) with true.
    cbn [negb andb]. cbv beta iota zeta. rewrite !Hel. eexists. split; reflexivity. }
  unfold val_pe_mmu_map_rmv. apply wp_bind. unfold wp at 1. rewrite Hpd, Hias.
  unfold pgt_geometry. rewrite Hps. apply wp_bind. apply wp_bind, wp_require; [done|]. apply wp_ret.
  unfold addr_mask. apply wp_bind, wp_bind, wp_shl_chk; [vm_compute; done|].
  apply wp_shl_chk; [vm_compute; done|].
  unfold set_geometry. apply wp_bind, wp_modify, wp_bind.
  eapply wp_mono; [|apply (rmv_loop 3); [lia|done|vm_compute; done]].
  intros [r d] s' ->. by apply wp_ret.
Qed.

(** ** Lists of regions *)

Lemma create_loop_lengths one l l' m s :
  map (fun d => length_ d =? 0) l = map (fun d => length_ d =? 0) l' ->
  create_loop (P := P) one l m s = create_loop one l' m s.
Proof.
  revert l' m s. induction l as [|d l IH]; intros [|d' l'] m s H; try done.
  cbn in H. injection H as Hd Hl. cbn [create_loop]. rewrite Hd.
  destruct (length_ d' =? 0); [done|]. apply bind_ext. intros [r m1] s1.
  destruct (truthy r); [done|]. by apply IH.
Qed.

(** [val_pgt_create] takes a list of regions but works on its first entry
    in every turn: two lists with the same first region and non-empty entries
    otherwise give the same result and the same tables, whatever the addresses,
    lengths and attributes of the further regions. *)
Theorem create_ignores_further_regions boot depth fuel m l l' pd s :
  map (fun d => length_ d =? 0) l = map (fun d => length_ d =? 0) l' ->
  val_pgt_create boot depth fuel (m :: l) pd s = val_pgt_create boot depth fuel (m :: l') pd s.
Proof.
  intros H. unfold val_pgt_create. apply bind_ext. intros [psl2 n] s1.
  do 3 (apply bind_ext; intros ? ?).
  destruct (_ =? 0); [done|]. do 3 (apply bind_ext; intros ? ?).
  unfold bind. rewrite (create_loop_lengths _ (m :: l) (m :: l')); [done|]. cbn. by rewrite H.
Qed.
End attributes.

(** ** Instances on the bare-metal platform *)

Definition demo_regs : el2_regs := mk_el2 AARCH64_EL2 0 0x80800018 0x80800010 0 0 0 0 0 0.
Definition demo_vst : vst bm := mk_vst ∅ bm_init demo_regs 0 0 0 0 0 (mk_pgti 0 0 0 0 0).
Definition demo_pd : pgt_desc := mk_pd 0 48 48 0 PGT_STAGE1 (mk_pe_tcr 0 0 0 0 0 16 12).
Definition demo_region : memory_region := mk_region 0x88000000 0x40000000 0x3000 0x400.

Lemma val_pgt_create_maps_witness :
  wp (val_pgt_create true 4 512 [demo_region; zero_region] demo_pd) (fun x s' =>
    x = (0, Some demo_region, set_base 0x8c100000 demo_pd) /\
    arch_walk 3 (v_mem s') 0x8c100000 0x40001234 = Leaf O (page_desc 0x88001000 0x400)) demo_vst.
Proof.
  eapply wp_mono; [|eapply (val_pgt_create_maps (PM := bm_pal) (fun a => eq_refl) (fun a => eq_refl) eq_refl
    true 4 512 demo_pd 0x8c100000 [0x8c102000; 0x8c104000; 0x8c106000] _ demo_region 3 demo_vst)].
  - intros x s' (H1 & _ & H2). split; [exact H1|]. etransitivity; [apply H2; cbn; lia|reflexivity].
  - reflexivity.
  - reflexivity.
  - reflexivity.
  - left. reflexivity.
  - lia.
  - lia.
  - left. reflexivity.
  - repeat split; vm_compute; first [reflexivity | discriminate].
  - repeat constructor.
  - apply NoDup_ListNoDup. repeat constructor; cbn; lia.
  - reflexivity.
  - repeat (eexists; split; [vm_compute; reflexivity|]). reflexivity.
Defined.

(** The tables of the example. *)
Definition demo_mapped : vst bm :=
  match val_pgt_create true 4 512 [demo_region; zero_region] demo_pd demo_vst with
  | Done _ s => s
  | _ => demo_vst
  end.

Lemma get_attributes_walks_witness :
  wp (val_pgt_get_attributes 4 (set_base 0x8c100000 demo_pd) 0x40001234) (fun x _ =>
    query (v_mem demo_mapped) 0x40001234
      (arch_walk 3 (v_mem demo_mapped) 0x8c100000 0x40001234) x) demo_mapped.
Proof.
  eapply wp_mono; [|apply (get_attributes_walks 4 (set_base 0x8c100000 demo_pd) 0x40001234 demo_mapped);
    [discriminate | reflexivity | reflexivity | lia]].
  intros x s' [H _]. exact H.
Defined.

Lemma map_rmv_keeps_memory_witness :
  wp (val_pe_mmu_map_rmv 4 demo_region) (fun _ s' => v_mem s' = v_mem demo_vst) demo_vst.
Proof.
  eapply wp_mono; [|apply (map_rmv_keeps_memory 4 demo_region demo_vst);
    [reflexivity | reflexivity | reflexivity | vm_compute; discriminate | lia]].
  intros x s' [H _]. exact H.
Defined.

Lemma create_ignores_further_regions_witness :
  val_pgt_create true 4 512 [demo_region; mk_region 0x99000000 0x40100000 0x1000 0; zero_region]
    demo_pd demo_vst =
  val_pgt_create true 4 512 [demo_region; mk_region 0x77000000 0x50100000 0x5000 0; zero_region]
    demo_pd demo_vst.
Proof.
  exact (create_ignores_further_regions true 4 512 demo_region
    [mk_region 0x99000000 0x40100000 0x1000 0; zero_region]
    [mk_region 0x77000000 0x50100000 0x5000 0; zero_region] demo_pd demo_vst eq_refl).
Defined.

(** A region of two pages on both sides of a 2MB boundary. *)
Definition crossing_region : memory_region := mk_region 0x88000000 0x401ff000 0x2000 0x400.

(** A region that crosses a 2MB boundary is reported as mapped but is not:
    the page behind the boundary has no translation, and an address at the start
    of the block before it, which nobody asked for, is mapped to that page's
    physical address. *)
Theorem create_crossing_maps_wrong :
  wp (val_pgt_create true 4 600 [crossing_region; zero_region] demo_pd) (fun x s' =>
    let '(r, _, pd) := x in
    r = 0 /\
    arch_walk 3 (v_mem s') (pd_base pd) 0x401ff000 = Leaf O (page_desc 0x88000000 0x400) /\
    arch_walk 3 (v_mem s') (pd_base pd) 0x40200000 = Fault 1 0 /\
    arch_walk 3 (v_mem s') (pd_base pd) 0x40000000 = Leaf O (page_desc 0x88001000 0x400))
    demo_vst.
Proof. vm_compute. repeat split. Qed.

(** A 40-bit space: root at 0x10000 with a table at 0x11000, whose entry 2 is the
    1GB block at 0x80000000 with attributes. *)
Definition tables_40 : mem := store64 (store64 ∅ 0x10000 0x11003) 0x11010 0x80000401.
Definition pd_40 : pgt_desc := mk_pd 0x10000 40 40 0 PGT_STAGE1 (mk_pe_tcr 0 0 0 0 0 24 12).

(** [val_pgt_get_attributes] takes the bits of the level it has just read,
    not those of a full level, off the remaining bits; with a 40-bit space the
    first level has one bit, and the second index is taken 8 bits too high: for an
    address the walk translates by a block with access flag it reads an empty
    entry, and returns 0 with no attributes. *)
Theorem get_attributes_40_wrong :
  arch_walk 2 tables_40 0x11000 0x80000000 = Leaf 2 0x80000401 /\
  wp (val_pgt_get_attributes 5 pd_40 0x80000000) (fun x _ => x = (0, Some 0))
    (mk_vst tables_40 bm_init demo_regs 0 0 0 0 0 (mk_pgti 0 0 0 0 0)) /\
  PGT_DESC_ATTRIBUTES 0x80000401 = 0x400.
Proof. vm_compute. repeat split. Qed.
