(* ===== verification/Pcie.v ===== *)
(** * Pcie

    val/src/acs_pcie.c: configuration space access through the ECAM table,
    capability search, the Function table, hierarchy queries, control and
    status bits, and the bit-field compliance checker. *)

From Stdlib Require Import ZArith Lia Bool List String.
From stdpp Require Import base tactics numbers list gmap option.
From S2P Require Import Prelude Memory El3State.
Local Open Scope acs_scope.
Local Open Scope Z_scope.

(** ** Constants (pal_interface.h, rme_acs_pcie.h, rme_acs_pcie_spec.h) *)
Definition PCIE_MAX_DEV : Z := 32.
Definition PCIE_MAX_FUNC : Z := 8.
Definition PCIE_SUCCESS : Z := 0.
Definition PCIE_NO_MAPPING : Z := 0x10000001.
Definition PCIE_CAP_NOT_FOUND : Z := 0x10000010.
Definition PCIE_UNKNOWN_RESPONSE : Z := 0xFFFFFFFF.
Definition ACS_STATUS_SKIP : Z := 0x10000000.
(** Entries of 8 bytes after a 4-byte count in PCIE_DEVICE_BDF_TABLE_SZ bytes. *)
Definition PCIE_DEVICE_BDF_TABLE_SZ : Z := 8192.
Definition bdf_table_room (n : Z) : bool := 4 + 8 * (n + 1) <=? PCIE_DEVICE_BDF_TABLE_SZ.

Definition TYPE01_VIDR : Z := 0x0.
Definition TYPE01_CR : Z := 0x4.
Definition TYPE01_RIDR : Z := 0x8.
Definition TYPE01_CLSR : Z := 0xc.
Definition TYPE01_BAR : Z := 0x10.
Definition TYPE01_CPR : Z := 0x34.
Definition TYPE1_PBN : Z := 0x18.
Definition TYPE1_SEC_STA : Z := 0x1C.
Definition TYPE0_HEADER : Z := 0.
Definition TYPE1_HEADER : Z := 1.
Definition TYPE0_MAX_BARS : Z := 6.
Definition TYPE1_MAX_BARS : Z := 2.
Definition CR_MSE_SHIFT : Z := 1.
Definition CR_BME_SHIFT : Z := 2.
Definition CR_SERRE_SHIFT : Z := 8.
Definition SR_IS_SHIFT : Z := 19.
Definition SR_STA_SHIFT : Z := 27.
Definition CIDR_OFFSET : Z := 0x0.
Definition PCIECR_OFFSET : Z := 0x2.
Definition DCTLR_OFFSET : Z := 0x8.
Definition LCAPR_OFFSET : Z := 0xC.
Definition LCTRLR_OFFSET : Z := 0x10.
Definition DCTLR_DSR_SHIFT : Z := 16.
Definition DSR_URD_SHIFT : Z := 3.
Definition CID_PCIECS : Z := 0x10.
Definition ECID_PASID : Z := 0x1B.
Definition ECID_DVSEC : Z := 0x23.
Definition PCIE_ECAP_START : Z := 0x100.
Definition RMEDA_HEAD2 : Z := 0x8.
Definition RMEDA_HEAD2_DVSEC_ID : Z := 0xFF01.
Definition PASID_CAPABILITY_OFFSET : Z := 0x4.
Definition PCIE_DLL_LINK_ACTIVE_NOT_SUPPORTED : Z := 0x2.
Definition RCiEP : Z := 1 << 9.
Definition RCEC : Z := 1 << 10.
Definition EP : Z := 1 << 0.
Definition RP : Z := 1 << 4.
Definition iEP_EP : Z := 1 << 12.
Definition iEP_RP : Z := 1 << 11.

(** Device Control reporting enables: CERE, NFERE, FERE, URRE. *)
Definition eru_mask : Z := (1 << 0) .| (1 << 1) .| (1 << 2) .| (1 << 3).

(** ** BDF encoding *)
Definition PCIE_EXTRACT_BDF_SEG (bdf : Z) : Z := (bdf >> 24) .& 0xFF.
Definition PCIE_EXTRACT_BDF_BUS (bdf : Z) : Z := (bdf >> 16) .& 0xFF.
Definition PCIE_EXTRACT_BDF_DEV (bdf : Z) : Z := (bdf >> 8) .& 0xFF.
Definition PCIE_EXTRACT_BDF_FUNC (bdf : Z) : Z := bdf .& 0xFF.
Definition PCIE_CREATE_BDF (seg bus dev func : Z) : Z :=
  u32 (seg << 24) .| ((bus .& 0xFF) << 16) .| ((dev .& 0xFF) << 8) .| func.

(** ** Data *)
Inductive PCIE_INFO_e :=
| PCIE_INFO_NUM_ECAM | PCIE_INFO_ECAM | PCIE_INFO_START_BUS | PCIE_INFO_END_BUS
| PCIE_INFO_SEGMENT.

(** [PCIE_INFO_BLOCK]. *)
Record ecam_block := mk_ecam {
  ecam_base : Z; segment_num : Z; start_bus_num : Z; end_bus_num : Z
}.

(** Bit-field entries of the compliance tables. *)
Inductive reg_type := HEADER | PCIE_CAP | PCIE_ECAP.
Inductive attr_type :=
| HW_INIT | READ_ONLY | STICKY_RO | RSVDP_RO | RSVDZ_RO | READ_WRITE | STICKY_RW
| WRITE_DETECT.
Record bitfield_entry := mk_bf {
  bf_type : reg_type; bf_cap_id : Z; bf_ecap_id : Z; bf_offset : Z;
  dev_port_bitmask : Z; bf_start : Z; bf_end : Z; bf_cfg_value : Z;
  bf_attr : attr_type; err_str1 : string; err_str2 : string
}.

(** [REG_MASK], [REG_SHIFT] and the "WARNING" prefix test. *)
Definition REG_MASK (en st : Z) : Z :=
  (u32 (0xFFFFFFFF << st) .& ((1 << (en + 1)) - 1)) >> st.
Definition REG_SHIFT (alignment_byte_cnt st : Z) : Z := alignment_byte_cnt * 8 + st.
Definition is_warning (s : string) : bool := String.prefix "WARNING" s.

(** What the platform layer answers about a Function;
    [pal_pcie_check_device_valid] is [true] where the C function returns 0. *)
Class PciPal := {
  pcie_max_bus : Z;
  pal_pcie_is_onchip_peripheral : Z -> bool;
  pal_pcie_check_device_valid : Z -> bool;
  pal_is_bdf_exerciser : Z -> bool;
  pal_exerciser_mmio_base : Z -> Z -> Z;
  pal_pcie_check_device_list : bool
}.

(** The state: the hardware, the ECAM table, the Function table (BDF and root
    port, [None] before it is allocated) and the trace of accesses. *)
Record pst (D : Type) := mk_pst {
  p_dev : D; p_info : option (list ecam_block); p_table : option (list (Z * Z));
  p_list_flag : Z; p_trace : list ev
}.
Arguments mk_pst {D}.
Arguments p_dev {D}.
Arguments p_info {D}.
Arguments p_table {D}.
Arguments p_list_flag {D}.
Arguments p_trace {D}.
Abbreviation P D := (M (pst D)).

Section code.
Context {D : Type} {HW : Hw D} {PAL : PciPal}.

Definition pal_mmio_read (a : Z) : P D Z := fun s =>
  let '(v, d) := hw_read 4 (p_dev s) a in
  Done (u32 v) (mk_pst d (p_info s) (p_table s) (p_list_flag s)
                  (EvRead 4 a (u32 v) :: p_trace s)).
Definition mmio_store (a v : Z) : P D unit := fun s =>
  Done tt (mk_pst (hw_write 4 (p_dev s) a v) (p_info s) (p_table s) (p_list_flag s)
             (EvWrite 4 a v :: p_trace s)).
Definition pal_mmio_write (a v : Z) : P D unit :=
  mmio_store (if truthy (a .& 0x3) then a .& bnot 64 0x3 else a) (u32 v).
Definition set_table (t : list (Z * Z)) : P D unit :=
  modify (fun s => mk_pst (p_dev s) (p_info s) (Some t) (p_list_flag s) (p_trace s)).

Definition val_pcie_get_info (type : PCIE_INFO_e) (index : Z) : P D Z :=
  let! info := gets p_info in
  match info with
  | None => ret 0
  | Some blocks =>
      match nth_error blocks (Z.to_nat index) with
      | None => ret 0
      | Some b =>
          ret (match type with
               | PCIE_INFO_NUM_ECAM => Z.of_nat (length blocks)
               | PCIE_INFO_ECAM => ecam_base b
               | PCIE_INFO_START_BUS => start_bus_num b
               | PCIE_INFO_END_BUS => end_bus_num b
               | PCIE_INFO_SEGMENT => segment_num b
               end)
      end
  end.

(** The first block that decodes a bus of a segment: the [while] shared by
    the accessors; 0 when there is none. *)
Definition decodes (bus segment : Z) (b : ecam_block) : bool :=
  (start_bus_num b <=? bus) && (bus <=? end_bus_num b) && (segment =? segment_num b).
Definition ecam_of (bus segment : Z) (blocks : list ecam_block) : Z :=
  match List.find (decodes bus segment) blocks with
  | Some b => ecam_base b
  | None => 0
  end.

(** The address of configuration space of [bdf], or [None] when it has none. *)
Definition cfg_address (bdf : Z) : P D (option Z) :=
  let bus := PCIE_EXTRACT_BDF_BUS bdf in
  let dev := PCIE_EXTRACT_BDF_DEV bdf in
  let func := PCIE_EXTRACT_BDF_FUNC bdf in
  let segment := PCIE_EXTRACT_BDF_SEG bdf in
  if (pcie_max_bus <=? bus) || (PCIE_MAX_DEV <=? dev) || (PCIE_MAX_FUNC <=? func)
  then ret None else
  let! info := gets p_info in
  match info with
  | None => ret None
  | Some blocks =>
      let base := ecam_of bus segment blocks in
      if base =? 0 then ret None else
      let cfg_addr := u32 (bus * PCIE_MAX_DEV * PCIE_MAX_FUNC * 4096 +
                           dev * PCIE_MAX_FUNC * 4096 + func * 4096) in
      ret (Some (u64 (base + cfg_addr)))
  end.

(** [val_pcie_read_cfg]: the status and what is stored through [data]. *)
Definition val_pcie_read_cfg (bdf offset : Z) : P D (Z * option Z) :=
  let! a := cfg_address bdf in
  match a with
  | None => ret (PCIE_NO_MAPPING, None)
  | Some a => let! v := pal_mmio_read (u64 (a + offset)) in ret (0, Some v)
  end.

Definition val_pcie_write_cfg (bdf offset data : Z) : P D unit :=
  let! a := cfg_address bdf in
  match a with
  | None => ret tt
  | Some a => pal_mmio_write (u64 (a + offset)) data
  end.

Definition val_pcie_get_bdf_config_addr (bdf : Z) : P D Z :=
  let! a := cfg_address bdf in
  ret (match a with Some a => a | None => 0 end).

(** A read whose status is ignored and whose result is then used: it must
    have been stored. *)
Definition cfg (bdf offset : Z) : P D Z :=
  let! '(_r, v) := val_pcie_read_cfg bdf offset in use v.

(** ** Capabilities *)

(** One turn of the search loops; leaves with the offset found, if any. *)
Definition cap_step (bdf cid id_mask ncp_shift ncp_mask next_cap_offset : Z)
    : P D (Z + option Z) :=
  if next_cap_offset =? 0 then ret (inr None) else
  let! reg_value := cfg bdf next_cap_offset in
  if (reg_value .& id_mask) =? cid then ret (inr (Some next_cap_offset))
  else ret (inl ((reg_value >> ncp_shift) .& ncp_mask)).

(** [val_pcie_find_capability]: the status and what is stored through
    [cid_offset]. *)
Definition val_pcie_find_capability (fuel : nat) (bdf : Z) (cid_type : reg_type) (cid : Z)
    : P D (Z * option Z) :=
  let search start id_mask shift mask :=
    let! r := loop fuel (cap_step bdf cid id_mask shift mask) start in
    ret (match r with
         | Some off => (PCIE_SUCCESS, Some off)
         | None => (PCIE_CAP_NOT_FOUND, None)
         end) in
  match cid_type with
  | PCIE_CAP =>
      let! '(r, v) := val_pcie_read_cfg bdf TYPE01_CPR in
      if r =? PCIE_NO_MAPPING then ret (r, None) else
      let! reg_value := use v in
      if reg_value =? PCIE_UNKNOWN_RESPONSE then ret (r, None) else
      search (reg_value .& 0xff) 0xff 8 0xff
  | PCIE_ECAP => search PCIE_ECAP_START 0xffff 20 0xfff
  | HEADER => ret (PCIE_CAP_NOT_FOUND, None)
  end.

(** One turn of [val_pcie_find_da_capability]: after a DVSEC header
    [reg_value] holds the masked second header word. *)
Definition da_step (bdf next_cap_offset : Z) : P D (Z + option Z) :=
  if next_cap_offset =? 0 then ret (inr None) else
  let! reg_value := cfg bdf next_cap_offset in
  if (reg_value .& 0xffff) =? ECID_DVSEC then
    let! head2 := cfg bdf (next_cap_offset + RMEDA_HEAD2) in
    let reg_value := head2 .& 0xFFFF in
    if reg_value =? RMEDA_HEAD2_DVSEC_ID then ret (inr (Some next_cap_offset))
    else ret (inl ((reg_value >> 20) .& 0xfff))
  else ret (inl ((reg_value >> 20) .& 0xfff)).

Definition val_pcie_find_da_capability (fuel : nat) (bdf : Z) : P D (Z * option Z) :=
  let! r := loop fuel (da_step bdf) PCIE_ECAP_START in
  ret (match r with
       | Some off => (PCIE_SUCCESS, Some off)
       | None => (PCIE_CAP_NOT_FOUND, None)
       end).

(** The PCI Express capability, used without a look at the status. *)
Definition pciecs_base (fuel : nat) (bdf : Z) : P D Z :=
  let! '(_r, off) := val_pcie_find_capability fuel bdf PCIE_CAP CID_PCIECS in use off.

Definition val_pcie_device_port_type (fuel : nat) (bdf : Z) : P D Z :=
  let! base := pciecs_base fuel bdf in
  let! reg_value := cfg bdf (u32 (base + CIDR_OFFSET)) in
  let dp_type := 1 << ((reg_value >> ((PCIECR_OFFSET - CIDR_OFFSET) * 8 + 4)) .& 0xf) in
  ret (if pal_pcie_is_onchip_peripheral bdf then
         if dp_type =? EP then iEP_EP else if dp_type =? RP then iEP_RP else dp_type
       else dp_type).

(** ** Control and status bits *)

(** Read, modify, write of a configuration register. *)
Definition cfg_update (bdf offset : Z) (f : Z -> Z) : P D unit :=
  let! reg_value := cfg bdf offset in val_pcie_write_cfg bdf offset (f reg_value).

Definition val_pcie_disable_bme (bdf : Z) : P D unit :=
  cfg_update bdf TYPE01_CR (fun v => v .& bnot 32 (1 << CR_BME_SHIFT)).
Definition val_pcie_enable_bme (bdf : Z) : P D unit :=
  cfg_update bdf TYPE01_CR (fun v => v .| (1 << CR_BME_SHIFT)).
Definition val_pcie_disable_msa (bdf : Z) : P D unit :=
  cfg_update bdf TYPE01_CR (fun v => v .& bnot 32 (1 << CR_MSE_SHIFT)).
Definition val_pcie_enable_msa (bdf : Z) : P D unit :=
  cfg_update bdf TYPE01_CR (fun v => v .| (1 << CR_MSE_SHIFT)).
Definition val_pcie_is_msa_enabled (bdf : Z) : P D Z :=
  let! v := cfg bdf TYPE01_CR in
  ret (if truthy (v .& (1 << CR_MSE_SHIFT)) then 0 else 1).

Definition val_pcie_clear_urd (fuel : nat) (bdf : Z) : P D unit :=
  let! base := pciecs_base fuel bdf in
  cfg_update bdf (u32 (base + DCTLR_OFFSET))
    (fun v => (v .& 0xffff) .| (1 << (DCTLR_DSR_SHIFT + DSR_URD_SHIFT))).
Definition val_pcie_is_urd (fuel : nat) (bdf : Z) : P D Z :=
  let! base := pciecs_base fuel bdf in
  let! v := cfg bdf (u32 (base + DCTLR_OFFSET)) in
  let v := (v >> DCTLR_DSR_SHIFT) .& 0xffff in
  ret (if truthy ((v >> DSR_URD_SHIFT) .& 0x1) then 1 else 0).
Definition val_pcie_clear_device_status_error (fuel : nat) (bdf : Z) : P D unit :=
  let! base := pciecs_base fuel bdf in
  cfg_update bdf (u32 (base + DCTLR_OFFSET)) (fun v => v .| (0xF << DCTLR_DSR_SHIFT)).
Definition val_pcie_is_device_status_error (fuel : nat) (bdf : Z) : P D Z :=
  let! base := pciecs_base fuel bdf in
  let! v := cfg bdf (u32 (base + DCTLR_OFFSET)) in
  ret (if truthy (v .& (0xF << DCTLR_DSR_SHIFT)) then 1 else 0).

Definition val_pcie_clear_sig_target_abort (bdf : Z) : P D unit :=
  cfg_update bdf TYPE01_CR (fun v => v .| (1 << SR_STA_SHIFT)) ;;
  cfg_update bdf TYPE1_SEC_STA (fun v => v .| (1 << SR_STA_SHIFT)).
Definition val_pcie_is_sig_target_abort (bdf : Z) : P D Z :=
  let! status_val := cfg bdf TYPE01_CR in
  let! sec_status_val := cfg bdf TYPE1_SEC_STA in
  ret (if truthy ((status_val >> SR_STA_SHIFT) .& 0x1) ||
          truthy ((sec_status_val >> SR_STA_SHIFT) .& 0x1) then 1 else 0).

Definition val_pcie_enable_eru (fuel : nat) (bdf : Z) : P D unit :=
  cfg_update bdf TYPE01_CR (fun v => v .| (1 << CR_SERRE_SHIFT)) ;;
  let! base := pciecs_base fuel bdf in
  cfg_update bdf (u32 (base + DCTLR_OFFSET)) (fun v => v .| eru_mask).
Definition val_pcie_disable_eru (fuel : nat) (bdf : Z) : P D unit :=
  cfg_update bdf TYPE01_CR (fun v => v .& bnot 32 (1 << CR_SERRE_SHIFT)) ;;
  let! base := pciecs_base fuel bdf in
  cfg_update bdf (u32 (base + DCTLR_OFFSET)) (fun v => v .& bnot 32 eru_mask).
Definition val_pcie_check_interrupt_status (bdf : Z) : P D Z :=
  let! v := cfg bdf TYPE01_CR in ret ((v >> SR_IS_SHIFT) .& 0x1).

(** ** Bit-field compliance *)

(** The base of the structure an entry is in: the status and [cap_base]. *)
Definition bf_cap_base (fuel : nat) (bdf : Z) (e : bitfield_entry) : P D (Z * option Z) :=
  match bf_type e with
  | HEADER => ret (PCIE_SUCCESS, Some 0)
  | PCIE_CAP => val_pcie_find_capability fuel bdf PCIE_CAP (bf_cap_id e)
  | PCIE_ECAP =>
      if bf_ecap_id e =? ECID_DVSEC then val_pcie_find_da_capability fuel bdf
      else val_pcie_find_capability fuel bdf PCIE_ECAP (bf_ecap_id e)
  end.

(** The checks of the attribute: the register at [off] holds [reg_value], the
    field mask in place is [fmask]; the two values compared at the end. [None]
    for an attribute this check does not know. *)
Definition bf_attr_check (bdf off reg_value fmask shift mask : Z) (a : attr_type)
    : P D (option (Z * Z)) :=
  let write_back v := val_pcie_write_cfg bdf off v ;; cfg bdf off in
  match a with
  | HW_INIT | READ_ONLY | STICKY_RO =>
      let! reg_overwrite_value := write_back (u32 (reg_value .^ fmask)) in
      ret (Some (reg_overwrite_value, reg_value))
  | RSVDP_RO =>
      let! reg_overwrite_value := write_back reg_value in
      ret (Some (u32 ((reg_overwrite_value >> shift) .& mask), 0))
  | RSVDZ_RO =>
      let! reg_overwrite_value := write_back (u32 (reg_value .& bnot 64 fmask)) in
      ret (Some (reg_overwrite_value, reg_value))
  | READ_WRITE | STICKY_RW =>
      let reg_overwrite_value := u32 (reg_value .^ fmask) in
      let! reg_value' := write_back reg_overwrite_value in
      val_pcie_write_cfg bdf off reg_value ;;
      ret (Some (reg_overwrite_value, reg_value'))
  | WRITE_DETECT => ret None
  end.

Definition val_pcie_bitfield_check (fuel : nat) (bdf : Z) (e : bitfield_entry) : P D Z :=
  let alignment_byte_cnt := bf_offset e .& 0x3 in
  let reg_offset := bf_offset e - alignment_byte_cnt in
  let! '(status, base) := bf_cap_base fuel bdf e in
  if negb (status =? PCIE_SUCCESS) then ret status else
  let! cap_base := use base in
  let off := u32 (cap_base + reg_offset) in
  let! reg_value := cfg bdf off in
  val_pcie_write_cfg bdf off reg_value ;;
  let! reg_value := cfg bdf off in
  (* the shifts of REG_MASK and REG_SHIFT must stay in range *)
  require ((bf_start e <? 32) && (bf_end e <? 63) &&
           (REG_SHIFT alignment_byte_cnt (bf_start e) <? 32)) ;;
  let shift := REG_SHIFT alignment_byte_cnt (bf_start e) in
  let mask := REG_MASK (bf_end e) (bf_start e) in
  let bf_value := u32 ((reg_value >> shift) .& mask) in
  if negb (bf_value =? bf_cfg_value e) then ret (if is_warning (err_str1 e) then 0 else 1)
  else
  let! r := bf_attr_check bdf off reg_value (u64 (mask << shift)) shift mask (bf_attr e) in
  match r with
  | None => ret 1
  | Some (reg_overwrite_value, reg_value) =>
      if reg_overwrite_value =? reg_value then ret 0
      else ret (if is_warning (err_str2 e) then 0 else 1)
  end.

(** The table of Functions; using it before it is allocated is undefined. *)
Definition bdf_table : P D (list (Z * Z)) := let! t := gets p_table in use t.

(** The entries of the table for one Function: the failures and passes. *)
Fixpoint check_entries (fuel : nat) (bdf dp_type : Z) (es : list bitfield_entry)
    (acc : Z * Z) : P D (Z * Z) :=
  match es with
  | [] => ret acc
  | e :: es' =>
      if negb (truthy (dp_type .& dev_port_bitmask e)) then
        check_entries fuel bdf dp_type es' acc
      else
        let! r := val_pcie_bitfield_check fuel bdf e in
        check_entries fuel bdf dp_type es'
          (if truthy r then (fst acc + 1, snd acc) else (fst acc, snd acc + 1))
  end.

Fixpoint check_functions (fuel : nat) (es : list bitfield_entry) (devs : list (Z * Z))
    (acc : Z * Z) : P D (Z * Z) :=
  match devs with
  | [] => ret acc
  | (bdf, _) :: devs' =>
      val_pcie_disable_eru fuel bdf ;;
      let! dp_type := val_pcie_device_port_type fuel bdf in
      let! acc := check_entries fuel bdf (wrap 16 dp_type) es acc in
      check_functions fuel es devs' acc
  end.

Definition val_pcie_register_bitfields_check (fuel : nat) (es : list bitfield_entry) : P D Z :=
  let! devs := bdf_table in
  let! '(num_fails, num_pass) := check_functions fuel es devs (0, 0) in
  if (0 <? num_pass) || (0 <? num_fails) then ret num_fails else ret ACS_STATUS_SKIP.

(** ** Headers, BARs and the hierarchy *)

Definition val_pcie_function_header_type (bdf : Z) : P D Z :=
  let! v := cfg bdf TYPE01_CLSR in ret (((v >> 16) .& 0xff) .& 0x7f).

(** Secondary and subordinate bus numbers. *)
Definition bus_range (bdf : Z) : P D (Z * Z) :=
  let! v := cfg bdf TYPE1_PBN in ret ((v >> 8) .& 0xff, (v >> 16) .& 0xff).

(** [val_pcie_get_ecam_base]: from block [index] on. *)
Fixpoint ecam_base_from (bdf : Z) (blocks : list ecam_block) : P D Z :=
  match blocks with
  | [] => ret 0
  | b :: blocks' =>
      if PCIE_EXTRACT_BDF_SEG bdf =? segment_num b then
        let! h := val_pcie_function_header_type bdf in
        if h =? TYPE0_HEADER then ret (ecam_base b)
        else
          let! '(sec_bus, sub_bus) := bus_range bdf in
          if (start_bus_num b <=? sec_bus) && (sub_bus <=? end_bus_num b)
          then ret (ecam_base b) else ecam_base_from bdf blocks'
      else ecam_base_from bdf blocks'
  end.
Definition info_blocks : P D (list ecam_block) :=
  let! i := gets p_info in ret (match i with Some l => l | None => [] end).
Definition val_pcie_get_ecam_base (bdf : Z) : P D Z :=
  let! blocks := info_blocks in ecam_base_from bdf blocks.

(** [val_pcie_get_ecam_index]: the index, or [None] for the failure return. *)
Fixpoint ecam_index_from (bdf : Z) (blocks : list ecam_block) (index : Z) : P D (option Z) :=
  match blocks with
  | [] => ret None
  | b :: blocks' =>
      if decodes (PCIE_EXTRACT_BDF_BUS bdf) (PCIE_EXTRACT_BDF_SEG bdf) b then
        let! h := val_pcie_function_header_type bdf in
        if h =? TYPE0_HEADER then ret (Some index)
        else
          let! '(sec_bus, sub_bus) := bus_range bdf in
          if (start_bus_num b <=? sec_bus) && (sub_bus <=? end_bus_num b)
          then ret (Some index) else ecam_index_from bdf blocks' (index + 1)
      else ecam_index_from bdf blocks' (index + 1)
  end.
Definition val_pcie_get_ecam_index (bdf : Z) : P D (option Z) :=
  let! blocks := info_blocks in ecam_index_from bdf blocks 0.

(** One turn of the BAR scan of [val_pcie_get_mmio_bar]; [base1] is the upper
    word as it stands in the caller's buffer. *)
Definition bar_step (bdf index : Z) : P D (Z + (Z * option Z)) :=
  if TYPE0_MAX_BARS <=? index then ret (inr (0, Some 0)) else
  let! bar_low32bits := cfg bdf (TYPE01_BAR + index * 4) in
  if (bar_low32bits .& 0x1) =? 0 then
    let mdt := (bar_low32bits >> 1) .& 0x3 in
    let! high := (if mdt =? 2 then
                    let! h := cfg bdf (TYPE01_BAR + (index + 1) * 4) in ret (Some h)
                  else ret (if mdt =? 0 then Some 0 else None)) in
    ret (inr (u32 (((bar_low32bits >> 4) .& 0xfffffff) << 4), high))
  else
    let index := index + 1 in
    let! h := val_pcie_function_header_type bdf in
    if (h =? TYPE1_HEADER) && (index =? TYPE1_MAX_BARS) then ret (inr (0, Some 0))
    else ret (inl index).

(** [val_pcie_get_mmio_bar]: the 64 bits left in the buffer, which held
    [old]; the upper word stays for a reserved memory type. *)
Definition val_pcie_get_mmio_bar (bdf old : Z) : P D Z :=
  if pal_is_bdf_exerciser bdf then
    let! ecam := val_pcie_get_ecam_base bdf in ret (pal_exerciser_mmio_base bdf ecam)
  else
    let! '(lo, hi) := loop 7 (bar_step bdf) 0 in
    ret (lo .| ((match hi with Some h => h | None => u64 old >> 32 end) << 32)).

(** The scan of [val_pcie_get_downstream_function]: the first Type 0 Function
    in range, else the first Type 1. *)
Fixpoint downstream_from (seg sec_bus sub_bus : Z) (devs : list (Z * Z))
    (type1 : option Z) : P D (option Z) :=
  match devs with
  | [] => ret type1
  | (d, _) :: devs' =>
      if (sec_bus <=? PCIE_EXTRACT_BDF_BUS d) && (PCIE_EXTRACT_BDF_BUS d <=? sub_bus) &&
         (PCIE_EXTRACT_BDF_SEG d =? seg)
      then
        let! h := val_pcie_function_header_type d in
        if h =? TYPE0_HEADER then ret (Some d)
        else downstream_from seg sec_bus sub_bus devs'
               (match type1 with None => Some d | _ => type1 end)
      else downstream_from seg sec_bus sub_bus devs' type1
  end.

Definition val_pcie_get_downstream_function (bdf : Z) : P D (option Z) :=
  let! '(sec_bus, sub_bus) := bus_range bdf in
  let! devs := bdf_table in
  downstream_from (PCIE_EXTRACT_BDF_SEG bdf) sec_bus sub_bus devs None.

(** The scan of [val_pcie_get_rootport]. *)
Fixpoint rootport_from (fuel : nat) (bdf : Z) (devs : list (Z * Z)) : P D (Z * Z) :=
  match devs with
  | [] => ret (1, 0)
  | (d, _) :: devs' =>
      let! '(sec_bus, sub_bus) := bus_range d in
      let! dp_type := val_pcie_device_port_type fuel d in
      if ((dp_type =? RP) || (dp_type =? iEP_RP)) &&
         (sec_bus <=? PCIE_EXTRACT_BDF_BUS bdf) && (PCIE_EXTRACT_BDF_BUS bdf <=? sub_bus) &&
         (PCIE_EXTRACT_BDF_SEG d =? PCIE_EXTRACT_BDF_SEG bdf)
      then ret (0, d) else rootport_from fuel bdf devs'
  end.

(** [val_pcie_get_rootport]: the status and [rp_bdf]. *)
Definition val_pcie_get_rootport (fuel : nat) (bdf : Z) : P D (Z * Z) :=
  let! dp_type := val_pcie_device_port_type fuel bdf in
  if (dp_type =? RP) || (dp_type =? iEP_RP) then ret (0, bdf)
  else if (dp_type =? RCiEP) || (dp_type =? RCEC) then ret (1, 0xffffffff)
  else let! devs := bdf_table in rootport_from fuel bdf devs.

Fixpoint parent_from (fuel : nat) (dsf_bus : Z) (devs : list (Z * Z)) : P D (option Z) :=
  match devs with
  | [] => ret None
  | (d, _) :: devs' =>
      let! dp_type := val_pcie_device_port_type fuel d in
      if (dp_type =? RP) || (dp_type =? iEP_RP) then
        let! '(sec_bus, sub_bus) := bus_range d in
        if (dsf_bus =? sec_bus) && (dsf_bus <=? sub_bus) then ret (Some d)
        else parent_from fuel dsf_bus devs'
      else parent_from fuel dsf_bus devs'
  end.
(** [val_pcie_parent_is_rootport]: the root port, or [None] for the return 1. *)
Definition val_pcie_parent_is_rootport (fuel : nat) (dsf_bdf : Z) : P D (option Z) :=
  let! devs := bdf_table in parent_from fuel (PCIE_EXTRACT_BDF_BUS dsf_bdf) devs.

Definition val_pcie_is_host_bridge (bdf : Z) : P D bool :=
  let! v := cfg bdf TYPE01_RIDR in
  ret ((0x06 =? (v >> 24) .& 0xff) && (0x00 =? (v >> 16) .& 0xff)).

Definition val_pcie_data_link_layer_status (fuel : nat) (bdf : Z) : P D Z :=
  let! base := pciecs_base fuel bdf in
  let! cap := cfg bdf (u32 (base + LCAPR_OFFSET)) in
  if truthy ((cap .& 0x100000) >> 20) then
    let! base := pciecs_base fuel bdf in
    let! v := cfg bdf (u32 (base + LCTRLR_OFFSET)) in
    ret ((v .& 0x20000000) >> 29)
  else ret PCIE_DLL_LINK_ACTIVE_NOT_SUPPORTED.

Definition val_pcie_get_max_pasid_width (fuel : nat) (bdf : Z) : P D (Z * option Z) :=
  let! '(status, base) := val_pcie_find_capability fuel bdf PCIE_ECAP ECID_PASID in
  if truthy status then ret (status, None) else
  let! base := use base in
  let! v := cfg bdf (u32 (base + PASID_CAPABILITY_OFFSET)) in
  ret (0, Some ((v .& 0x1F00) >> 8)).

(** ** BDF iteration *)

Definition val_pcie_increment_busdev (start_bdf : Z) : Z :=
  let seg := PCIE_EXTRACT_BDF_SEG start_bdf in
  let bus := PCIE_EXTRACT_BDF_BUS start_bdf in
  let dev := PCIE_EXTRACT_BDF_DEV start_bdf in
  if negb (dev =? PCIE_MAX_DEV) then PCIE_CREATE_BDF seg bus (dev + 1) 0
  else PCIE_CREATE_BDF seg (bus + 1) 0 0.

(** The last block of a segment, as the downward scan finds it. *)
Fixpoint last_index (seg : Z) (blocks : list ecam_block) (i : Z) : option Z :=
  match blocks with
  | [] => None
  | b :: blocks' =>
      match last_index seg blocks' (i + 1) with
      | Some j => Some j
      | None => if seg =? segment_num b then Some i else None
      end
  end.

Definition val_pcie_increment_bdf (bdf : Z) : P D Z :=
  let seg := PCIE_EXTRACT_BDF_SEG bdf in
  let bus := PCIE_EXTRACT_BDF_BUS bdf in
  let dev := PCIE_EXTRACT_BDF_DEV bdf in
  let func := PCIE_EXTRACT_BDF_FUNC bdf in
  let! blocks := info_blocks in
  match last_index seg blocks 0 with
  | None => ret 0
  | Some ecam_index =>
      if func <? PCIE_MAX_FUNC - 1 then ret (PCIE_CREATE_BDF seg bus dev (func + 1))
      else if dev <? PCIE_MAX_DEV - 1 then ret (PCIE_CREATE_BDF seg bus (dev + 1) 0)
      else
        let! end_bus := val_pcie_get_info PCIE_INFO_END_BUS ecam_index in
        if bus <? end_bus then ret (PCIE_CREATE_BDF seg (bus + 1) 0 0)
        else
          let! n := val_pcie_get_info PCIE_INFO_NUM_ECAM 0 in
          if ecam_index + 1 <? n then
            let! bus' := val_pcie_get_info PCIE_INFO_START_BUS (ecam_index + 1) in
            let! seg' := val_pcie_get_info PCIE_INFO_SEGMENT (ecam_index + 1) in
            ret (PCIE_CREATE_BDF seg' bus' 0 0)
          else ret 0
  end.

(** ** The Function table *)

(** [device[num_entries++].bdf = bdf] in the fixed-size table. *)
Definition append_bdf (bdf : Z) : P D unit :=
  let! t := bdf_table in
  require (bdf_table_room (Z.of_nat (length t))) ;;
  set_table (t ++ [(bdf, 0)]).

(** One Function of the scan; [inr 1] is the early return. *)
Definition probe_function (fuel : nat) (bdf : Z) : P D (unit + Z) :=
  let! '(r, v) := val_pcie_read_cfg bdf TYPE01_VIDR in
  if r =? PCIE_NO_MAPPING then ret (inr 1) else
  let! reg_value := use v in
  if reg_value =? PCIE_UNKNOWN_RESPONSE then ret (inl tt) else
  let! hb := val_pcie_is_host_bridge bdf in
  if hb then ret (inl tt) else
  let! '(status, _off) := val_pcie_find_capability fuel bdf PCIE_CAP CID_PCIECS in
  if negb (status =? PCIE_SUCCESS) then ret (inl tt) else
  if negb (pal_pcie_check_device_valid bdf) then ret (inl tt) else
  val_pcie_enable_bme bdf ;;
  val_pcie_enable_msa bdf ;;
  append_bdf bdf ;;
  ret (inl tt).

(** Runs [f] over a list with an early return. *)
Fixpoint scan {A} (f : A -> P D (unit + Z)) (l : list A) : P D (unit + Z) :=
  match l with
  | [] => ret (inl tt)
  | x :: l' => let! r := f x in
               match r with inl _ => scan f l' | inr v => ret (inr v) end
  end.
Definition zseq (a b : Z) : list Z := map (fun k => a + Z.of_nat k) (seq 0 (Z.to_nat (b - a))).

(** All buses, devices and functions of one block, in the order of the loops. *)
Definition block_bdfs (b : ecam_block) : list Z :=
  flat_map (fun bus => flat_map (fun dev => map (fun func =>
      PCIE_CREATE_BDF (segment_num b) bus dev func) (zseq 0 PCIE_MAX_FUNC))
    (zseq 0 PCIE_MAX_DEV)) (zseq (start_bus_num b) (end_bus_num b + 1)).

(** [val_pcie_populate_device_rootport]. *)
Fixpoint populate_from (fuel : nat) (i : nat) (n : nat) : P D unit :=
  match n with
  | O => ret tt
  | S n' =>
      let! t := bdf_table in
      let! '(bdf, _) := use (nth_error t i) in
      let! '(_r, rp) := val_pcie_get_rootport fuel bdf in
      let! t := bdf_table in
      set_table (alter (fun d => (fst d, rp)) i t) ;;
      populate_from fuel (S i) n'
  end.
Definition val_pcie_populate_device_rootport (fuel : nat) : P D unit :=
  let! t := bdf_table in populate_from fuel 0 (length t).

(** [alloc_ok]: whether [pal_mem_alloc] gave the table its memory. *)
Definition val_pcie_create_device_bdf_table (fuel : nat) (alloc_ok : bool) : P D Z :=
  let! t := gets p_table in
  match t with
  | Some _ => ret PCIE_SUCCESS
  | None =>
      if negb alloc_ok then ret 1 else
      set_table [] ;;
      let! blocks := info_blocks in
      if (length blocks =? 0)%nat then ret 1 else
      let! r := scan (fun b => scan (probe_function fuel) (block_bdfs b)) blocks in
      match r with
      | inr v => ret v
      | inl _ => val_pcie_populate_device_rootport fuel ;; ret 0
      end
  end.

(** [val_pcie_create_info_table] with a non-NULL argument: [blocks] is what
    [pal_pcie_create_info_table] leaves in it; the enumeration is the
    platform's. *)
Definition val_pcie_create_info_table (fuel : nat) (alloc_ok : bool)
    (blocks : list ecam_block) : P D unit :=
  modify (fun s => mk_pst (p_dev s) (Some blocks) (p_table s) (p_list_flag s) (p_trace s)) ;;
  let! r := val_pcie_create_device_bdf_table fuel alloc_ok in
  if truthy r then ret tt else
  when pal_pcie_check_device_list then
    modify (fun s => mk_pst (p_dev s) (p_info s) (p_table s) 1 (p_trace s)).
End code.
