(* ===== verification/PcieSpec.v ===== *)
(** * PcieSpec

    Properties of the PCIe library modelled in [Pcie]: the BDF encoding, the
    configuration space windows, the capability search and the enumeration. *)

From Stdlib Require Import ZArith Lia Bool List String.
From stdpp Require Import base tactics numbers list gmap option.
From S2P Require Import Prelude Memory El3State Pcie.
Local Open Scope Z_scope.

(** ** BDF encoding *)

Lemma byte_fld lsb x : (x >> lsb) .& 0xFF = fld lsb 8 x.
Proof. done. Qed.

Lemma testbit_bdf seg bus dev func i : 0 <= i -> 0 <= seg < 256 -> 0 <= func < 256 ->
  Z.testbit (PCIE_CREATE_BDF seg bus dev func) i =
  if i <? 8 then Z.testbit func i
  else if i <? 16 then Z.testbit dev (i - 8)
  else if i <? 24 then Z.testbit bus (i - 16)
  else if i <? 32 then Z.testbit seg (i - 24) else false.
Proof.
  intros Hi Hs Hf. unfold PCIE_CREATE_BDF, u32. change 0xFF with (Z.ones 8).
  rewrite !Z.lor_spec, testbit_wrap, !Z.shiftl_spec by lia.
  assert (forall x k, Z.testbit (x .& Z.ones 8) k = Z.testbit x k && ((0 <=? k) && (k <? 8))) as Hb.
  { intros x k. destruct (Z.ltb_spec k 0).
    - rewrite !Z.testbit_neg_r by lia. done.
    - rewrite Z.land_spec, Z.testbit_ones by lia. done. }
  rewrite !Hb.
  destruct (Z.ltb_spec i 8).
  { rewrite (Z.testbit_neg_r seg) by lia. replace (0 <=? i - 16) with false by lia.
    replace (0 <=? i - 8) with false by lia. by rewrite !andb_false_r. }
  rewrite (testbit_high 8 func) by lia. rewrite orb_false_r.
  destruct (Z.ltb_spec i 16).
  { rewrite (Z.testbit_neg_r seg) by lia. replace (0 <=? i - 16) with false by lia.
    replace (0 <=? i - 8) with true by lia. replace (i - 8 <? 8) with true by lia.
    cbn [andb]. by rewrite andb_false_r, andb_true_r. }
  replace (i - 8 <? 8) with false by lia. rewrite (andb_false_r (0 <=? i - 8)).
  destruct (Z.ltb_spec i 24).
  { rewrite (Z.testbit_neg_r seg) by lia. replace (0 <=? i - 16) with true by lia.
    replace (i - 16 <? 8) with true by lia. cbn [andb]. by rewrite andb_true_r, andb_false_r, orb_false_r. }
  replace (i - 16 <? 8) with false by lia. rewrite !andb_false_r, !orb_false_r.
  destruct (Z.ltb_spec i 32); [by rewrite andb_true_r|by rewrite andb_false_r].
Qed.

Lemma bdf_range seg bus dev func : 0 <= seg < 256 -> 0 <= func < 256 ->
  0 <= PCIE_CREATE_BDF seg bus dev func < 2 ^ 32.
Proof.
  intros Hs Hf. assert (0 <= PCIE_CREATE_BDF seg bus dev func) as H0.
  { unfold PCIE_CREATE_BDF. rewrite !Z.lor_nonneg, !Z.shiftl_nonneg.
    pose proof (wrap_range 32 (seg << 24) ltac:(lia)).
    repeat apply conj; try apply Z.land_nonneg; unfold u32; lia. }
  split; [done|]. apply bits_lt; [lia|done|]. intros i Hi. rewrite testbit_bdf by lia.
  replace (i <? 8) with false by lia. replace (i <? 16) with false by lia.
  replace (i <? 24) with false by lia. by replace (i <? 32) with false by lia.
Qed.

Lemma low_byte x : x .& 0xFF = fld 0 8 x.
Proof. by rewrite <- byte_fld, Z.shiftr_0_r. Qed.

Lemma bdf_fields seg bus dev func : 0 <= seg < 256 -> 0 <= bus < 256 -> 0 <= dev < 256 ->
  0 <= func < 256 ->
  let b := PCIE_CREATE_BDF seg bus dev func in
  PCIE_EXTRACT_BDF_SEG b = seg /\ PCIE_EXTRACT_BDF_BUS b = bus /\
  PCIE_EXTRACT_BDF_DEV b = dev /\ PCIE_EXTRACT_BDF_FUNC b = func.
Proof.
  intros Hs Hb Hd Hf b.
  unfold PCIE_EXTRACT_BDF_SEG, PCIE_EXTRACT_BDF_BUS, PCIE_EXTRACT_BDF_DEV, PCIE_EXTRACT_BDF_FUNC.
  rewrite !byte_fld, !low_byte.
  assert (forall lsb x, 0 <= lsb -> 0 <= x < 256 ->
    (forall i, 0 <= i < 8 -> Z.testbit b (i + lsb) = Z.testbit x i) -> fld lsb 8 b = x) as Hfld.
  { intros lsb x Hl Hx H. apply (bits_ext 8); [lia|apply (fld_range lsb 8); lia|done|]. intros i Hi.
    rewrite testbit_fld by lia. rewrite H by lia. replace (i <? 8) with true by lia.
    apply andb_true_r. }
  split; [|split; [|split]]; apply Hfld; try lia; intros i Hi; unfold b; rewrite testbit_bdf by lia.
  - replace (i + 24 <? 8) with false by lia. replace (i + 24 <? 16) with false by lia.
    replace (i + 24 <? 24) with false by lia. replace (i + 24 <? 32) with true by lia.
    f_equal. lia.
  - replace (i + 16 <? 8) with false by lia. replace (i + 16 <? 16) with false by lia.
    replace (i + 16 <? 24) with true by lia. f_equal. lia.
  - replace (i + 8 <? 8) with false by lia. replace (i + 8 <? 16) with true by lia.
    f_equal. lia.
  - replace (i + 0 <? 8) with true by lia. f_equal. lia.
Qed.

(** The BDF macros are inverse to each other: the fields of a created BDF are
    the bytes it was made of, and a 32-bit BDF is the one made of its fields. *)
Theorem bdf_roundtrip seg bus dev func bdf :
  0 <= seg < 256 -> 0 <= bus < 256 -> 0 <= dev < 256 -> 0 <= func < 256 -> 0 <= bdf < 2 ^ 32 ->
  (let b := PCIE_CREATE_BDF seg bus dev func in
   PCIE_EXTRACT_BDF_SEG b = seg /\ PCIE_EXTRACT_BDF_BUS b = bus /\
   PCIE_EXTRACT_BDF_DEV b = dev /\ PCIE_EXTRACT_BDF_FUNC b = func) /\
  PCIE_CREATE_BDF (PCIE_EXTRACT_BDF_SEG bdf) (PCIE_EXTRACT_BDF_BUS bdf)
    (PCIE_EXTRACT_BDF_DEV bdf) (PCIE_EXTRACT_BDF_FUNC bdf) = bdf.
Proof.
  intros Hs Hb Hd Hf Hbdf. split; [by apply bdf_fields|].
  assert (forall lsb x, 0 <= lsb -> 0 <= fld lsb 8 x < 256) as Hr
    by (intros; apply (fld_range lsb 8); lia).
  unfold PCIE_EXTRACT_BDF_SEG, PCIE_EXTRACT_BDF_BUS, PCIE_EXTRACT_BDF_DEV, PCIE_EXTRACT_BDF_FUNC.
  rewrite !byte_fld, !low_byte.
  apply (bits_ext 32); [lia|apply bdf_range; apply Hr; lia|done|]. intros i Hi.
  rewrite testbit_bdf by (try apply Hr; lia).
  destruct (Z.ltb_spec i 8).
  { rewrite testbit_fld by lia. replace (i <? 8) with true by lia. rewrite andb_true_r. f_equal. lia. }
  destruct (Z.ltb_spec i 16).
  { rewrite testbit_fld by lia. replace (i - 8 <? 8) with true by lia.
    rewrite andb_true_r. f_equal. lia. }
  destruct (Z.ltb_spec i 24).
  { rewrite testbit_fld by lia. replace (i - 16 <? 8) with true by lia.
    rewrite andb_true_r. f_equal. lia. }
  rewrite testbit_fld by lia.
  replace (i <? 32) with true by lia. replace (i - 24 <? 8) with true by lia.
  rewrite andb_true_r. f_equal. lia.
Qed.

Lemma bdf_roundtrip_witness :
  (PCIE_EXTRACT_BDF_SEG 0x01020304 = 1 /\ PCIE_EXTRACT_BDF_BUS 0x01020304 = 2 /\
   PCIE_EXTRACT_BDF_DEV 0x01020304 = 3 /\ PCIE_EXTRACT_BDF_FUNC 0x01020304 = 4) /\
  PCIE_CREATE_BDF 5 6 7 1 = 0x05060701.
Proof. exact (bdf_roundtrip 1 2 3 4 0x05060701 ltac:(lia) ltac:(lia) ltac:(lia) ltac:(lia) ltac:(lia)). Defined.

(** ** Configuration space windows *)

(** The 4KB window of a Function below an ECAM base. *)
Definition fn_index (bdf : Z) : Z :=
  256 * PCIE_EXTRACT_BDF_BUS bdf + 8 * PCIE_EXTRACT_BDF_DEV bdf + PCIE_EXTRACT_BDF_FUNC bdf.
Definition fn_window (base bdf : Z) : Z := base + 4096 * fn_index bdf.

Section config.
Context {D : Type} {HW : Hw D} {PAL : PciPal}.
Implicit Types s : pst D.

Definition bdf_ok (bdf : Z) : Prop :=
  0 <= PCIE_EXTRACT_BDF_BUS bdf < Z.min 256 pcie_max_bus /\
  0 <= PCIE_EXTRACT_BDF_DEV bdf < 32 /\ 0 <= PCIE_EXTRACT_BDF_FUNC bdf < 8.
(** [b] is the block the table gives for the Function. *)
Definition in_block (bdf : Z) (b : ecam_block) s : Prop :=
  exists blocks, p_info s = Some blocks /\
    List.find (decodes (PCIE_EXTRACT_BDF_BUS bdf) (PCIE_EXTRACT_BDF_SEG bdf)) blocks = Some b.
Definition base_ok (b : ecam_block) : Prop :=
  0 < ecam_base b /\ aligned (ecam_base b) 4096 /\ ecam_base b + 2 ^ 28 <= 2 ^ 64.

Lemma cfg_address_ok bdf b s : bdf_ok bdf -> in_block bdf b s -> base_ok b ->
  cfg_address bdf s = Done (Some (fn_window (ecam_base b) bdf)) s.
Proof.
  intros (Hb & Hd & Hf) (blocks & Hi & Hfind) (Hp & _ & Hw). unfold cfg_address.
  replace (pcie_max_bus <=? PCIE_EXTRACT_BDF_BUS bdf) with false by zbool.
  replace (PCIE_MAX_DEV <=? PCIE_EXTRACT_BDF_DEV bdf) with false by (unfold PCIE_MAX_DEV; zbool).
  replace (PCIE_MAX_FUNC <=? PCIE_EXTRACT_BDF_FUNC bdf) with false by (unfold PCIE_MAX_FUNC; zbool).
  cbn [orb]. unfold bind, gets. rewrite Hi. unfold ecam_of. rewrite Hfind.
  replace (ecam_base b =? 0) with false by zbool. unfold ret, fn_window, fn_index.
  do 2 f_equal. unfold PCIE_MAX_DEV, PCIE_MAX_FUNC, u32, u64. rewrite !wrap_small; [lia| |];
    rewrite ?wrap_small; lia.
Qed.

Lemma cfg_address_bad bdf s :
  PCIE_MAX_DEV <= PCIE_EXTRACT_BDF_DEV bdf \/ PCIE_MAX_FUNC <= PCIE_EXTRACT_BDF_FUNC bdf ->
  cfg_address bdf s = Done None s.
Proof.
  intros H. unfold cfg_address.
  replace ((pcie_max_bus <=? PCIE_EXTRACT_BDF_BUS bdf) || (PCIE_MAX_DEV <=? PCIE_EXTRACT_BDF_DEV bdf) ||
           (PCIE_MAX_FUNC <=? PCIE_EXTRACT_BDF_FUNC bdf)) with true; [done|].
  symmetry. destruct H as [H|H]; apply Z.leb_le in H; rewrite H; by rewrite !orb_true_r.
Qed.

(** A dword write reaches the register at its offset of the window. *)
Lemma write_cfg_run bdf b off v s : bdf_ok bdf -> in_block bdf b s -> base_ok b ->
  0 <= off < 4096 -> aligned off 4 ->
  val_pcie_write_cfg bdf off v s =
  mmio_store (fn_window (ecam_base b) bdf + off) (u32 v) s.
Proof.
  intros Hok Hin Hbase Ho Hal. unfold val_pcie_write_cfg.
  rewrite (bind_done _ _ _ _ _ (cfg_address_ok bdf b s Hok Hin Hbase)).
  destruct Hok as (Hb & Hd & Hf). destruct Hbase as (Hp & Hba & Hw).
  assert (u64 (fn_window (ecam_base b) bdf + off) = fn_window (ecam_base b) bdf + off) as ->.
  { apply wrap_small. unfold fn_window, fn_index. lia. }
  unfold pal_mmio_write. set (a := fn_window (ecam_base b) bdf + off).
  assert (truthy (a .& 0x3) = false) as ->; [|done].
  unfold truthy. change 0x3 with (2 ^ 2 - 1).
  rewrite (proj2 (land_low_aligned 2 a ltac:(lia))); [done|].
  unfold aligned in *. unfold a, fn_window. change (2 ^ 2) with 4.
  pose proof (Z.div_mod (ecam_base b) 4096 ltac:(lia)).
  pose proof (Z.div_mod off 4 ltac:(lia)).
  replace (ecam_base b + 4096 * fn_index bdf + off) with
    ((1024 * (ecam_base b / 4096) + 1024 * fn_index bdf + off / 4) * 4) by lia.
  by apply Z.mod_mul.
Qed.

(** C23. Configuration accesses of a valid Function touch one dword of its own
    4KB window of the ECAM region and no register else, reads return it, and the
    windows of different Functions of a block do not overlap. *)
Theorem cfg_access_window bdf b off v s : bdf_ok bdf -> in_block bdf b s -> base_ok b ->
  0 <= off < 4096 -> aligned off 4 -> 0 <= v < 2 ^ 32 ->
  let a := fn_window (ecam_base b) bdf + off in
  wp (val_pcie_read_cfg bdf off) (fun r s' => exists x,
    r = (0, Some x) /\ x = u32 (fst (hw_read 4 (p_dev s) a)) /\
    p_trace s' = EvRead 4 a x :: p_trace s) s /\
  wp (val_pcie_write_cfg bdf off v) (fun _ s' =>
    p_dev s' = hw_write 4 (p_dev s) a v /\ p_trace s' = EvWrite 4 a v :: p_trace s) s /\
  (forall bdf' off', bdf_ok bdf' -> 0 <= off' < 4096 ->
     fn_window (ecam_base b) bdf' + off' = a -> fn_index bdf' = fn_index bdf /\
     PCIE_EXTRACT_BDF_BUS bdf' = PCIE_EXTRACT_BDF_BUS bdf /\
     PCIE_EXTRACT_BDF_DEV bdf' = PCIE_EXTRACT_BDF_DEV bdf /\
     PCIE_EXTRACT_BDF_FUNC bdf' = PCIE_EXTRACT_BDF_FUNC bdf).
Proof.
  intros Hok Hin Hbase Ho Hal Hv a.
  pose proof (cfg_address_ok bdf b s Hok Hin Hbase) as Hca.
  assert (u64 (fn_window (ecam_base b) bdf + off) = a) as Ha.
  { destruct Hok as (Hb & Hd & Hf). destruct Hbase as (Hp & Hba & Hw).
    apply wrap_small. unfold a, fn_window, fn_index. lia. }
  split; [|split].
  - unfold val_pcie_read_cfg, wp. rewrite (bind_done _ _ _ _ _ Hca), Ha.
    unfold bind, pal_mmio_read, ret. destruct (hw_read 4 (p_dev s) a) as [x d]. by eexists.
  - unfold wp. rewrite (write_cfg_run bdf b) by done. unfold mmio_store, u32.
    by rewrite wrap_small by lia.
  - destruct Hok as (Hb & Hd & Hf).
    intros bdf' off' (Hb' & Hd' & Hf') Ho' E. unfold a, fn_window in E.
    assert (fn_index bdf' = fn_index bdf) as Ei by lia. split; [done|].
    unfold fn_index in Ei. lia.
Qed.
End config.

(** ** Capability search *)

(** The list of structures behind [o]: the offsets up to the null pointer. *)
Inductive chain (next : Z -> Z) : Z -> list Z -> Prop :=
| chain_end : chain next 0 []
| chain_node o l : o <> 0 -> chain next (next o) l -> chain next o (o :: l).

Lemma chain_ext next next' o l : (forall x, x ∈ l -> next' x = next x) ->
  chain next o l -> chain next' o l.
Proof.
  intros H Hc. induction Hc as [|o l Ho Hc IH]; [constructor|]. constructor; [done|].
  rewrite H by (apply list.elem_of_cons; by left). apply IH. intros x Hx. apply H.
  apply list.elem_of_cons; by right.
Qed.
Lemma find_ext (f g : Z -> bool) l : (forall x, x ∈ l -> g x = f x) -> List.find g l = List.find f l.
Proof.
  induction l as [|x l IH]; intros H; [done|]. cbn. rewrite H by (apply list.elem_of_cons; by left).
  rewrite IH; [done|]. intros y Hy. apply H. apply list.elem_of_cons; by right.
Qed.

Section search.
Context {D : Type} {HW : Hw D} {PAL : PciPal}.
Implicit Types s : pst D.
(** Configuration space that reads do not change. *)
Variable regs : D -> Z -> Z.
Hypothesis static : forall d a, hw_read 4 d a = (regs d a, d).
Variables (bdf : Z) (b : ecam_block).
Hypothesis Hok : bdf_ok bdf.
Hypothesis Hbase : base_ok b.

Definition creg (d : D) (off : Z) : Z := u32 (regs d (u64 (fn_window (ecam_base b) bdf + off))).
(** The fields of a header, and the first structure, by kind. *)
Definition hdr_id (k : reg_type) (v : Z) : Z := v .& match k with PCIE_ECAP => 0xffff | _ => 0xff end.
Definition hdr_next (k : reg_type) (v : Z) : Z :=
  match k with PCIE_ECAP => (v >> 20) .& 0xfff | _ => (v >> 8) .& 0xff end.
Definition first_cap (d : D) (k : reg_type) : Z :=
  match k with PCIE_ECAP => PCIE_ECAP_START | _ => creg d TYPE01_CPR .& 0xff end.

Definition reads_only s s' : Prop :=
  p_dev s' = p_dev s /\ p_info s' = p_info s /\ p_table s' = p_table s /\
  p_list_flag s' = p_list_flag s.

Lemma in_block_frame s s' : in_block bdf b s -> reads_only s s' -> in_block bdf b s'.
Proof. intros (l & H & Hf) (_ & Hi & _). exists l. by rewrite Hi. Qed.

Lemma read_cfg_run off s : in_block bdf b s ->
  exists s', val_pcie_read_cfg bdf off s = Done (0, Some (creg (p_dev s) off)) s' /\ reads_only s s'.
Proof.
  intros Hin. unfold val_pcie_read_cfg.
  rewrite (bind_done _ _ _ _ _ (cfg_address_ok bdf b s Hok Hin Hbase)).
  unfold bind, pal_mmio_read, ret. rewrite static. eexists. split; [reflexivity|done].
Qed.
Lemma cfg_run off s : in_block bdf b s ->
  exists s', cfg bdf off s = Done (creg (p_dev s) off) s' /\ reads_only s s'.
Proof.
  intros Hin. destruct (read_cfg_run off s Hin) as (s' & H & Hr). exists s'.
  split; [|done]. unfold cfg. by rewrite (bind_done _ _ _ _ _ H).
Qed.

Lemma cap_loop k cid d o l : chain (fun o => hdr_next k (creg d o)) o l ->
  forall fuel s, in_block bdf b s -> p_dev s = d -> (length l < fuel)%nat ->
  exists s', loop fuel (cap_step bdf cid (match k with PCIE_ECAP => 0xffff | _ => 0xff end)
      (match k with PCIE_ECAP => 20 | _ => 8 end)
      (match k with PCIE_ECAP => 0xfff | _ => 0xff end)) o s =
    Done (List.find (fun o => hdr_id k (creg d o) =? cid) l) s' /\ reads_only s s'.
Proof.
  induction 1 as [|o l Ho Hc IH]; intros fuel s Hin Hd Hf; (destruct fuel as [|fuel]; [cbn in Hf; lia|]);
    cbn [loop]; unfold cap_step at 1.
  { by exists s. }
  replace (o =? 0) with false by zbool. cbn [length] in Hf.
  destruct (cfg_run o s Hin) as (s1 & H1 & Hr1).
  unfold bind at 1. rewrite (bind_done _ _ _ _ _ H1), Hd. cbn [List.find].
  unfold hdr_id at 1. destruct (_ =? cid); [by exists s1|]. unfold ret at 1.
  destruct (IH fuel s1 (in_block_frame _ _ Hin Hr1) ltac:(by rewrite (proj1 Hr1)) ltac:(lia)) as (s2 & H2 & Hr2).
  exists s2. split; [|unfold reads_only in *; intuition congruence].
  rewrite <- H2. by destruct k.
Qed.

(** C21. [val_pcie_find_capability] on a well-formed list of capabilities, or of
    extended capabilities, ends, and returns the first structure of the list with
    the asked ID; when there is none it says so.  It changes nothing. *)
Theorem find_capability_first k cid l fuel s : k <> HEADER -> in_block bdf b s ->
  chain (fun o => hdr_next k (creg (p_dev s) o)) (first_cap (p_dev s) k) l -> (length l < fuel)%nat ->
  creg (p_dev s) TYPE01_CPR <> PCIE_UNKNOWN_RESPONSE ->
  wp (val_pcie_find_capability fuel bdf k cid) (fun r s' =>
    r = match List.find (fun o => hdr_id k (creg (p_dev s) o) =? cid) l with
        | Some o => (PCIE_SUCCESS, Some o)
        | None => (PCIE_CAP_NOT_FOUND, None)
        end /\ reads_only s s') s.
Proof.
  intros Hk Hin Hc Hf Hu. unfold val_pcie_find_capability, wp. destruct k; [done| |].
  - destruct (read_cfg_run TYPE01_CPR s Hin) as (s1 & H1 & Hr1).
    rewrite (bind_done _ _ _ _ _ H1). change (0 =? PCIE_NO_MAPPING) with false. cbv iota.
    cbn [use]. rewrite bind_ret.
    replace (creg (p_dev s) TYPE01_CPR =? PCIE_UNKNOWN_RESPONSE) with false by zbool.
    destruct (cap_loop PCIE_CAP cid _ _ l Hc fuel s1 (in_block_frame _ _ Hin Hr1) (proj1 Hr1) Hf) as (s2 & H2 & Hr2).
    cbn [first_cap] in *. rewrite (bind_done _ _ _ _ _ H2). unfold ret.
    destruct (List.find _ l); split; try done; unfold reads_only in *; intuition congruence.
  - destruct (cap_loop PCIE_ECAP cid _ _ l Hc fuel s Hin eq_refl Hf) as (s2 & H2 & Hr2).
    cbn [first_cap] in *. rewrite (bind_done _ _ _ _ _ H2). unfold ret.
    by destruct (List.find _ l).
Qed.

(** [val_pcie_find_da_capability] overwrites the header word with the second
    one before it takes the pointer to the next structure: at the first
    designated vendor capability that is not the RME one it gives up, whatever
    the header's pointer says. *)
Theorem find_da_stops_at_first_dvsec fuel s : in_block bdf b s -> (2 <= fuel)%nat ->
  hdr_id PCIE_ECAP (creg (p_dev s) PCIE_ECAP_START) = ECID_DVSEC ->
  creg (p_dev s) (PCIE_ECAP_START + RMEDA_HEAD2) .& 0xFFFF <> RMEDA_HEAD2_DVSEC_ID ->
  wp (val_pcie_find_da_capability fuel bdf) (fun r _ => r = (PCIE_CAP_NOT_FOUND, None)) s.
Proof.
  intros Hin Hf Hid Hne. unfold val_pcie_find_da_capability, wp.
  destruct (cfg_run PCIE_ECAP_START s Hin) as (s1 & H1 & Hr1).
  destruct (cfg_run (PCIE_ECAP_START + RMEDA_HEAD2) s1 (in_block_frame _ _ Hin Hr1)) as (s2 & H2 & _).
  destruct fuel as [|[|fuel]]; [lia..|]. cbn [loop].
  unfold da_step at 1. change (PCIE_ECAP_START =? 0) with false. cbv iota.
  unfold bind at 1, bind at 1. rewrite (bind_done _ _ _ _ _ H1).
  unfold hdr_id in Hid. rewrite Hid. change (ECID_DVSEC =? ECID_DVSEC) with true. cbv iota.
  rewrite (bind_done _ _ _ _ _ H2), (proj1 Hr1).
  replace (_ =? RMEDA_HEAD2_DVSEC_ID) with false by zbool. unfold ret at 1.
  assert (((creg (p_dev s) (PCIE_ECAP_START + RMEDA_HEAD2) .& 0xFFFF) >> 20) .& 0xfff = 0) as ->; [|done].
  rewrite Z.shiftr_land. change (0xFFFF >> 20) with 0. by rewrite Z.land_0_r.
Qed.

(** A Function whose capability pointer reads as all ones (no device behind
    it) makes [val_pcie_find_capability] return success without storing an
    offset; the callers that ignore the status use the uninitialised offset:
    the port type of such a Function is undefined. *)
Theorem port_type_undefined fuel s : in_block bdf b s ->
  creg (p_dev s) TYPE01_CPR = PCIE_UNKNOWN_RESPONSE ->
  wp (val_pcie_find_capability fuel bdf PCIE_CAP CID_PCIECS)
    (fun r _ => r = (PCIE_SUCCESS, None)) s /\
  val_pcie_device_port_type fuel bdf s = Undef.
Proof.
  intros Hin Hu. destruct (read_cfg_run TYPE01_CPR s Hin) as (s1 & H1 & _).
  assert (val_pcie_find_capability fuel bdf PCIE_CAP CID_PCIECS s = Done (0, None) s1) as Hf.
  { unfold val_pcie_find_capability. rewrite (bind_done _ _ _ _ _ H1).
    change (0 =? PCIE_NO_MAPPING) with false. cbv iota. cbn [use]. rewrite bind_ret, Hu. done. }
  unfold wp. rewrite Hf. split; [done|].
  unfold val_pcie_device_port_type, pciecs_base. unfold bind at 1.
  by rewrite (bind_done _ _ _ _ _ Hf).
Qed.
End search.

(** ** Enumeration *)

Section enumeration.
Context {D : Type} {HW : Hw D} {PAL : PciPal}.
Implicit Types s : pst D.

(** C22. [val_pcie_increment_bdf] enumerates a segment: while Functions are left
    on the buses of the last block of the segment the result is the valid
    Function with the next index, in the order bus, device, function; after the
    last one it is the first Function of the next block, or 0 at the end. *)
Theorem increment_bdf_next blocks i blk bdf s :
  p_info s = Some blocks -> last_index (PCIE_EXTRACT_BDF_SEG bdf) blocks 0 = Some i ->
  0 <= i -> nth_error blocks (Z.to_nat i) = Some blk -> end_bus_num blk < 256 ->
  0 <= bdf < 2 ^ 32 -> PCIE_EXTRACT_BDF_BUS bdf <= end_bus_num blk ->
  PCIE_EXTRACT_BDF_DEV bdf < 32 -> PCIE_EXTRACT_BDF_FUNC bdf < 8 ->
  wp (val_pcie_increment_bdf bdf) (fun r s' => s' = s /\
    (fn_index bdf < 256 * end_bus_num blk + 255 ->
       PCIE_EXTRACT_BDF_SEG r = PCIE_EXTRACT_BDF_SEG bdf /\
       PCIE_EXTRACT_BDF_BUS r <= end_bus_num blk /\
       PCIE_EXTRACT_BDF_DEV r < 32 /\ PCIE_EXTRACT_BDF_FUNC r < 8 /\
       fn_index r = fn_index bdf + 1) /\
    (fn_index bdf = 256 * end_bus_num blk + 255 ->
       r = match nth_error blocks (Z.to_nat (i + 1)) with
           | Some b' => PCIE_CREATE_BDF (segment_num b') (start_bus_num b') 0 0
           | None => 0
           end)) s.
Proof.
  intros Hi Hl H0 Hn He Hr Hb Hd Hf.
  assert (forall lsb, 0 <= lsb -> 0 <= fld lsb 8 bdf < 256) as Hrng
    by (intros; apply (fld_range lsb 8); lia).
  pose proof (Hrng 24 ltac:(lia)) as Rs. pose proof (Hrng 16 ltac:(lia)) as Rb.
  pose proof (Hrng 8 ltac:(lia)) as Rd. pose proof (Hrng 0 ltac:(lia)) as Rf.
  change (fld 24 8 bdf) with (PCIE_EXTRACT_BDF_SEG bdf) in Rs.
  change (fld 16 8 bdf) with (PCIE_EXTRACT_BDF_BUS bdf) in Rb.
  change (fld 8 8 bdf) with (PCIE_EXTRACT_BDF_DEV bdf) in Rd.
  rewrite <- low_byte in Rf. change (bdf .& 0xFF) with (PCIE_EXTRACT_BDF_FUNC bdf) in Rf.
  unfold val_pcie_increment_bdf, info_blocks, wp. unfold bind at 1, bind at 1, gets, ret.
  rewrite Hi, Hl. unfold PCIE_MAX_FUNC, PCIE_MAX_DEV, fn_index in *.
  set (seg := PCIE_EXTRACT_BDF_SEG bdf) in *. set (bus := PCIE_EXTRACT_BDF_BUS bdf) in *.
  set (dev := PCIE_EXTRACT_BDF_DEV bdf) in *. set (func := PCIE_EXTRACT_BDF_FUNC bdf) in *.
  assert (forall ty, val_pcie_get_info ty i s = Done (match ty with
    | PCIE_INFO_NUM_ECAM => Z.of_nat (Datatypes.length blocks) | PCIE_INFO_ECAM => ecam_base blk
    | PCIE_INFO_START_BUS => start_bus_num blk | PCIE_INFO_END_BUS => end_bus_num blk
    | PCIE_INFO_SEGMENT => segment_num blk end) s) as Hget.
  { intros ty. unfold val_pcie_get_info, bind, gets, ret. rewrite Hi, Hn. by destruct ty. }
  destruct (Z.ltb_spec func (8 - 1)).
  { destruct (bdf_fields seg bus dev (func + 1)) as (E1 & E2 & E3 & E4); try lia.
    cbv beta iota. rewrite E1, E2, E3, E4. split; [done|]. split; [intros _|intros Hx; exfalso; lia]. repeat (split; [lia|]). lia. }
  destruct (Z.ltb_spec dev (32 - 1)).
  { destruct (bdf_fields seg bus (dev + 1) 0) as (E1 & E2 & E3 & E4); try lia.
    cbv beta iota. rewrite E1, E2, E3, E4. split; [done|]. split; [intros _|intros Hx; exfalso; lia]. repeat (split; [lia|]). lia. }
  rewrite (bind_done _ _ _ _ _ (Hget PCIE_INFO_END_BUS)).
  destruct (Z.ltb_spec bus (end_bus_num blk)).
  { destruct (bdf_fields seg (bus + 1) 0 0) as (E1 & E2 & E3 & E4); try lia.
    cbv beta iota. rewrite E1, E2, E3, E4. split; [done|]. split; [intros _|intros Hx; exfalso; lia]. repeat (split; [lia|]). lia. }
  assert (val_pcie_get_info PCIE_INFO_NUM_ECAM 0 s =
          Done (Z.of_nat (Datatypes.length blocks)) s) as Hnum.
  { unfold val_pcie_get_info, bind, gets, ret. rewrite Hi. destruct blocks; [|done].
    by destruct (Z.to_nat i). }
  rewrite (bind_done _ _ _ _ _ Hnum).
  destruct (nth_error blocks (Z.to_nat (i + 1))) as [b'|] eqn:Hn'.
  - assert (i + 1 < Z.of_nat (Datatypes.length blocks)) as Hlt.
    { assert (Z.to_nat (i + 1) < Datatypes.length blocks)%nat by (apply nth_error_Some; congruence). lia. }
    replace (i + 1 <? Z.of_nat (Datatypes.length blocks)) with true by zbool.
    unfold val_pcie_get_info, bind, gets, ret. rewrite Hi. cbv beta iota zeta. rewrite Hn'.
    cbv beta iota zeta. rewrite ?Hi. cbv beta iota zeta. rewrite ?Hn'. cbv beta iota zeta.
    split; [done|]. split; intros; [lia|done].
  - apply nth_error_None in Hn'.
    replace (i + 1 <? Z.of_nat (Datatypes.length blocks)) with false by zbool.
    unfold ret. cbv beta iota. split; [done|]. split; intros; [lia|done].
Qed.
End enumeration.

(** ** Witnesses *)

#[local] Instance demo_pal : PciPal := {|
  pcie_max_bus := 256;
  pal_pcie_is_onchip_peripheral _ := false;
  pal_pcie_check_device_valid _ := true;
  pal_is_bdf_exerciser _ := false;
  pal_exerciser_mmio_base _ _ := 0;
  pal_pcie_check_device_list := true
|}.
Definition static_hw (reg : Z -> Z) : Hw unit :=
  {| hw_read _ d a := (reg a, d); hw_write _ d _ _ := d; hw_at_s1e3w _ _ _ := 1 |}.
Definition demo_block : ecam_block := mk_ecam 0x40000000 0 0 255.
Definition demo_pst : pst unit := mk_pst tt (Some [demo_block]) None 0 [].
Definition demo_bdf : Z := 0x00010203.
Definition demo_win : Z := 0x40000000 + 4096 * (256 * 1 + 8 * 2 + 3).

(** Capabilities 0x01 at 0x40 and 0x10 at 0x70; a designated vendor extended
    capability at 0x100, that is not the RME one, points to 0x200. *)
Definition demo_reg (a : Z) : Z :=
  if a =? demo_win + 0x34 then 0x40
  else if a =? demo_win + 0x40 then 0x7001
  else if a =? demo_win + 0x70 then 0x0010
  else if a =? demo_win + 0x100 then 0x20010023
  else if a =? demo_win + 0x108 then 0x1234
  else 0.

Lemma demo_bdf_ok : bdf_ok demo_bdf.
Proof. repeat split; vm_compute; first [reflexivity | discriminate]. Qed.
Lemma demo_in_block : in_block demo_bdf demo_block demo_pst.
Proof. by exists [demo_block]. Qed.
Lemma demo_base_ok : base_ok demo_block.
Proof. repeat split; vm_compute; first [reflexivity | discriminate]. Qed.

Lemma cfg_access_window_witness :
  wp (val_pcie_read_cfg (HW := static_hw demo_reg) demo_bdf 0x40)
    (fun r _ => r = (0, Some 0x7001)) demo_pst.
Proof.
  destruct (cfg_access_window (HW := static_hw demo_reg) demo_bdf demo_block 0x40 0 demo_pst
    demo_bdf_ok demo_in_block demo_base_ok ltac:(lia) eq_refl ltac:(lia)) as (H & _).
  eapply wp_mono; [|exact H]. intros r s' (x & Hr & Hx & _). rewrite Hr, Hx. vm_compute. reflexivity.
Defined.

Lemma demo_chain : chain (fun o => hdr_next PCIE_CAP (creg (fun _ => demo_reg) demo_bdf demo_block tt o))
  (first_cap (fun _ => demo_reg) demo_bdf demo_block tt PCIE_CAP) [0x40; 0x70].
Proof.
  apply (chain_node _ 0x40); [done|]. apply (chain_node _ 0x70); [done|]. apply chain_end.
Qed.

Lemma find_capability_first_witness :
  wp (val_pcie_find_capability (HW := static_hw demo_reg) 3 demo_bdf PCIE_CAP CID_PCIECS)
    (fun r _ => r = (PCIE_SUCCESS, Some 0x70)) demo_pst.
Proof.
  eapply wp_mono; [|apply (find_capability_first (HW := static_hw demo_reg) (fun _ => demo_reg)
    (fun d a => eq_refl) demo_bdf demo_block demo_bdf_ok demo_base_ok PCIE_CAP CID_PCIECS
    [0x40; 0x70] 3 demo_pst); [discriminate | exact demo_in_block | exact demo_chain | cbn; lia
    | vm_compute; discriminate]].
  intros r s' [H _]. rewrite H. vm_compute. reflexivity.
Defined.

Lemma find_da_stops_at_first_dvsec_witness :
  wp (val_pcie_find_da_capability (HW := static_hw demo_reg) 2 demo_bdf)
    (fun r _ => r = (PCIE_CAP_NOT_FOUND, None)) demo_pst.
Proof.
  apply (find_da_stops_at_first_dvsec (HW := static_hw demo_reg) (fun _ => demo_reg)
    (fun d a => eq_refl) demo_bdf demo_block demo_bdf_ok demo_base_ok 2 demo_pst);
    [exact demo_in_block | lia | vm_compute; reflexivity | vm_compute; discriminate].
Defined.

Lemma port_type_undefined_witness :
  val_pcie_device_port_type (HW := static_hw (fun _ => 0xFFFFFFFF)) 3 demo_bdf demo_pst = Undef.
Proof.
  exact (proj2 (port_type_undefined (HW := static_hw (fun _ => 0xFFFFFFFF))
    (fun _ _ => 0xFFFFFFFF)
    (fun d a => eq_refl) demo_bdf demo_block demo_bdf_ok demo_base_ok 3 demo_pst demo_in_block
    eq_refl)).
Defined.

Lemma increment_bdf_next_witness :
  wp (val_pcie_increment_bdf 0x00011F07) (fun r _ => fn_index r = 512) demo_pst.
Proof.
  eapply wp_mono; [|apply (increment_bdf_next [demo_block] 0 demo_block 0x00011F07 demo_pst);
    first [reflexivity | lia | vm_compute; first [reflexivity | discriminate | split; [discriminate|reflexivity]]]].
  intros r s' (_ & H & _). destruct H as (_ & _ & _ & _ & H); [vm_compute; reflexivity|].
  rewrite H. vm_compute. reflexivity.
Defined.
