(* ===== verification/PcieEnum.v ===== *)
(** * PcieEnum

    platform/pal_baremetal/src/pal_pcie_enumeration.c and the configuration
    accesses of pal_pcie.c: the depth-first numbering of the buses, the BARs of
    end points and root ports and the memory windows of the bridges. *)

From Stdlib Require Import ZArith Lia Bool List String.
From stdpp Require Import base tactics numbers list gmap option.
From S2P Require Import Prelude Memory El3State Pcie.
Local Open Scope acs_scope.
Local Open Scope Z_scope.

(** ** Constants (pal_pcie_enum.h, pal_common_support.h) *)
Definition PCIE_CFG_SIZE : Z := 4096.
Definition PCIE_MAX_BUS : Z := 256.
Definition HEADER_OFFSET : Z := 0xC.
Definition COMMAND_REG_OFFSET : Z := 0x04.
Definition REG_ACC_DATA : Z := 0x7.
Definition BUS_NUM_REG_OFFSET : Z := 0x18.
Definition BAR0_OFFSET : Z := 0x10.
Definition TYPE1_BAR_MAX_OFF : Z := 0x14.
Definition TYPE0_BAR_MAX_OFF : Z := 0x24.
Definition BAR_MASK : Z := 0xFFFFFFF0.
Definition BAR_64_BIT : Z := 1.
Definition BAR_32_BIT : Z := 0.
Definition BAR_PRE_MEM : Z := 0x1.
Definition MEM_BASE32_LIM_MASK : Z := 0xFFF00000.
Definition MEM_BASE64_LIM_MASK : Z := 0xFFFFFFFFFFF00000.
Definition NON_PRE_FET_OFFSET : Z := 0x20.
Definition PRE_FET_OFFSET : Z := 0x24.
Definition BAR_INCREMENT : Z := 0x100000.
Definition PRI_BUS_CLEAR_MASK : Z := 0xFFFFFF00.
Definition CC_SUB_MASK : Z := 0xFF.
Definition CC_BASE_MASK : Z := 0xFF.
Definition CC_SUB_SHIFT : Z := 16.
Definition CC_BASE_SHIFT : Z := 24.
Definition HB_BASE_CLASS : Z := 0x06.
Definition HB_SUB_CLASS : Z := 0x00.
Definition DEVICE_ID_OFFSET : Z := 16.
Definition PLATFORM_BM_OVERRIDE_PCIE_MAX_BUS : Z := 0x12.

Definition PCIE_HEADER_TYPE (header_value : Z) : Z := (header_value >> 16) .& 0x3.
Definition BUS_NUM_REG_CFG (sub_bus sec_bus bus : Z) : Z :=
  u32 (sub_bus << 16) .| u32 (sec_bus << 8) .| bus.
Definition BAR_REG (v : Z) : Z := (v >> 2) .& 0x1.
Definition BAR_MEM (v : Z) : Z := (v .& 0xF) >> 3.
Definition REG_MASK_SHIFT (v : Z) : Z := (v .& MEM_BASE32_LIM_MASK) >> 16.

(** ** Data *)

(** A block of [platform_root_pcie_cfg], as one list entry per host bridge. *)
Record root_info := mk_root {
  r_start_bus : Z; ep_bar64 : Z; rp_bar64 : Z; ep_npbar32 : Z; ep_pbar32 : Z; rp_bar32 : Z
}.

(** The global variables of the file. *)
Inductive gvar :=
| pcie_index | enumerate
| g_bar64_p_start | g_rp_bar64_value | g_bar64_p_max | g_64_bus | g_bar64_size
| g_rp_bar64_size
| g_bar32_np_start | g_bar32_p_start | g_rp_bar32_value | g_bar32_np_max | g_bar32_p_max
| g_np_bar_size | g_p_bar_size | g_np_bus | g_p_bus | g_rp_bar32_size.
#[export] Instance gvar_eq_dec : EqDecision gvar.
Proof. solve_decision. Defined.

(** The width of a variable. *)
Definition gwidth (v : gvar) : Z :=
  match v with
  | g_bar64_p_start | g_rp_bar64_value | g_bar64_p_max => 64
  | _ => 32
  end.

(** The PCIe library's state and the globals. *)
Record est (D : Type) := mk_est { e_pci : pst D; e_vars : gvar -> Z }.
Arguments mk_est {D}.
Arguments e_pci {D}.
Arguments e_vars {D}.
Abbreviation N D := (M (est D)).

Definition set_var (v : gvar) (x : Z) (f : gvar -> Z) : gvar -> Z :=
  fun w => if decide (w = v) then wrap (gwidth v) x else f w.
(** The initial values of the C file. *)
Definition vars_init : gvar -> Z := fun v => if decide (v = enumerate) then 1 else 0.

Section code.
Context {D : Type} {HW : Hw D}.
(** [platform_pcie_cfg] and [platform_root_pcie_cfg]. *)
Context (platform_pcie_cfg : list ecam_block) (platform_root_pcie_cfg : list (list root_info)).

Definition pci {A} (m : P D A) : N D A := zoom e_pci (fun p s => mk_est p (e_vars s)) m.
Definition var (v : gvar) : N D Z := gets (fun s => e_vars s v).
Definition set (v : gvar) (x : Z) : N D unit :=
  modify (fun s => mk_est (e_pci s) (set_var v x (e_vars s))).

(** ** Configuration space *)

(** The [while] stops at the first block that decodes the bus; [ecam_index]
    has 8 bits, the table must be shorter. *)
Definition pal_pcie_ecam_base (seg bus : Z) : Z := ecam_of bus seg platform_pcie_cfg.

Definition pal_cfg_addr (seg bus dev func offset : Z) : Z :=
  u64 (pal_pcie_ecam_base seg bus +
       u32 (bus * PCIE_MAX_DEV * PCIE_MAX_FUNC * PCIE_CFG_SIZE +
            dev * PCIE_MAX_FUNC * PCIE_CFG_SIZE + func * PCIE_CFG_SIZE) + offset).
Definition pal_pci_cfg_read (seg bus dev func offset : Z) : N D Z :=
  pci (pal_mmio_read (pal_cfg_addr seg bus dev func offset)).
Definition pal_pci_cfg_write (seg bus dev func offset data : Z) : N D unit :=
  pci (pal_mmio_write (pal_cfg_addr seg bus dev func offset) data).

(** ** Memory windows of a bridge *)

(** One half of [get_resource_base_32]: the window in register [off], whose
    next free address is the variable [start] and last BAR size [size]. *)
Definition resource_32 (seg bus dev func off : Z) (start size : gvar) (base limit : Z)
    : N D unit :=
  let! g := var start in
  let! sz := var size in
  when negb (base =? g) || ((base =? g) && negb (sz =? 0)) then
    ((when negb (u32 (g << 12) =? 0) then
        set start ((g .& MEM_BASE32_LIM_MASK) + BAR_INCREMENT)) ;;
     let! g := var start in
     let limit := if limit =? g then u32 (limit - BAR_INCREMENT) else limit in
     let! mem_bar := pal_pci_cfg_read seg bus dev func off in
     pal_pci_cfg_write seg bus dev func off ((limit .& MEM_BASE32_LIM_MASK) .| mem_bar)).

Definition get_resource_base_32 (seg bus dev func bar32_p_base bar32_np_base
    bar32_p_limit bar32_np_limit : Z) : N D unit :=
  resource_32 seg bus dev func NON_PRE_FET_OFFSET g_bar32_np_start g_np_bar_size
    bar32_np_base bar32_np_limit ;;
  resource_32 seg bus dev func PRE_FET_OFFSET g_bar32_p_start g_p_bar_size
    bar32_p_base bar32_p_limit.

(** The last change of [bar64_p_lower32_limit] is never used. *)
Definition get_resource_base_64 (seg bus dev func bar64_p_base bar64_p_max : Z) : N D unit :=
  let lower32_base := REG_MASK_SHIFT (u32 bar64_p_base) in
  let upper32_base := u32 (bar64_p_base >> 32) in
  let lower32_limit := REG_MASK_SHIFT (u32 bar64_p_max) in
  let upper32_limit := u32 (bar64_p_max >> 32) in
  let mem_bar_p := u32 (lower32_limit << 16) .| lower32_base in
  let! g := var g_bar64_p_start in
  let! sz := var g_bar64_size in
  when negb (bar64_p_base =? g) || ((bar64_p_base =? g) && negb (sz =? 0)) then
    ((when negb (u64 (g << 12) =? 0) then
        set g_bar64_p_start ((g .& MEM_BASE64_LIM_MASK) + BAR_INCREMENT)) ;;
     let! g := var g_bar64_p_start in
     set g_bar64_p_start ((g .& MEM_BASE64_LIM_MASK) + BAR_INCREMENT) ;;
     pal_pci_cfg_write seg bus dev func PRE_FET_OFFSET mem_bar_p ;;
     pal_pci_cfg_write seg bus dev func (PRE_FET_OFFSET + 4) upper32_base ;;
     pal_pci_cfg_write seg bus dev func (PRE_FET_OFFSET + 8) upper32_limit).

(** ** BARs *)

(** The size a BAR reports after all ones were written: 64 and 32 bits. *)
Definition bar_size_64 (seg bus dev func offset : Z) : N D Z :=
  pal_pci_cfg_write seg bus dev func offset 0xFFFFFFF0 ;;
  pal_pci_cfg_write seg bus dev func (offset + 4) 0xFFFFFFFF ;;
  let! bar_lower_bits := pal_pci_cfg_read seg bus dev func offset in
  let! bar_upper_bits := pal_pci_cfg_read seg bus dev func (offset + 4) in
  ret (u64 (bnot 64 ((bar_lower_bits .& BAR_MASK) .| (bar_upper_bits << 32)) + 1)).
(** The size and the low bits read back. *)
Definition bar_size_32 (seg bus dev func offset : Z) : N D (Z * Z) :=
  pal_pci_cfg_write seg bus dev func offset 0xFFFFFFF0 ;;
  let! bar_lower_bits := pal_pci_cfg_read seg bus dev func offset in
  ret (u32 (bnot 32 (bar_lower_bits .& BAR_MASK) + 1), bar_lower_bits).

(** One turn of the [while] of [pal_pcie_rp_program_bar]. *)
Definition rp_bar_step (seg bus dev func offset : Z) : N D (Z + unit) :=
  if TYPE1_BAR_MAX_OFF <? offset then ret (inr tt) else
  let! bar_reg_value := pal_pci_cfg_read seg bus dev func offset in
  if BAR_REG bar_reg_value =? BAR_64_BIT then
    let! bar_size := bar_size_64 seg bus dev func offset in
    if bar_size =? 0 then ret (inl (offset + 8)) else
    let! v := var g_rp_bar64_value in
    pal_pci_cfg_write seg bus dev func offset v ;;
    pal_pci_cfg_write seg bus dev func (offset + 4) (v >> 32) ;;
    set g_rp_bar64_size bar_size ;;
    let! sz := var g_rp_bar64_size in
    set g_rp_bar64_value (v + sz) ;;
    ret (inl (offset + 8))
  else
    let! '(bar_size, _lo) := bar_size_32 seg bus dev func offset in
    if bar_size =? 0 then ret (inl (offset + 4)) else
    let! v := var g_rp_bar32_value in
    pal_pci_cfg_write seg bus dev func offset v ;;
    set g_rp_bar32_value (v + bar_size) ;;
    set g_rp_bar32_size bar_size ;;
    let! v := var g_rp_bar32_value in
    let! sz := var g_rp_bar32_size in
    set g_rp_bar32_value (v + sz) ;;
    ret (inl (offset + 4)).
Definition pal_pcie_rp_program_bar (seg bus dev func : Z) : N D unit :=
  loop 3 (rp_bar_step seg bus dev func) BAR0_OFFSET.

(** Where the next BAR starts: [own] is the size of the Function's last BAR of
    the kind, [last] the size of the last one of all Functions. *)
Definition bar_next (start own last bar_size : Z) (same_bus : bool) : Z :=
  if (own =? 0) && same_bus then
    if last <? bar_size then start + bar_size else start + last
  else if (last <? bar_size) && negb (own =? 0) then start + bar_size
  else start + own.

(** Moves the variable [start] to the next BAR and records the BAR's size. *)
Definition place_bar (start size lastbus : gvar) (bus own bar_size : Z) : N D Z :=
  let! s := var start in
  let! last := var size in
  let! b := var lastbus in
  set start (bar_next s own last bar_size (b =? bus)) ;;
  var start.
Definition record_bar (size lastbus : gvar) (bus bar_size : Z) : N D unit :=
  set size bar_size ;; set lastbus bus.

(** One turn of the [while] of [pal_pcie_program_bar_reg]: the offset and the
    sizes of the Function's last BARs (np_bar_size, p_bar_size, p_bar64_size). *)
Definition bar_reg_step (seg bus dev func : Z) (x : Z * Z * Z * Z) : N D (Z * Z * Z * Z + unit) :=
  let '(offset, np_bar_size, p_bar_size, p_bar64_size) := x in
  if TYPE0_BAR_MAX_OFF <? offset then ret (inr tt) else
  let next n := ret (inl (offset + n, np_bar_size, p_bar_size, p_bar64_size)) in
  let! bar_reg_value := pal_pci_cfg_read seg bus dev func offset in
  if BAR_MEM bar_reg_value =? BAR_PRE_MEM then
    if BAR_REG bar_reg_value =? BAR_64_BIT then
      let! bar_size := bar_size_64 seg bus dev func offset in
      if bar_size =? 0 then next 8 else
      let! v := place_bar g_bar64_p_start g_bar64_size g_64_bus bus p_bar64_size bar_size in
      pal_pci_cfg_write seg bus dev func offset v ;;
      pal_pci_cfg_write seg bus dev func (offset + 4) (v >> 32) ;;
      record_bar g_bar64_size g_64_bus bus bar_size ;;
      ret (inl (offset + 8, np_bar_size, p_bar_size, u32 bar_size))
    else
      let! '(bar_size, _lo) := bar_size_32 seg bus dev func offset in
      if bar_size =? 0 then next 4 else
      let! v := place_bar g_bar32_p_start g_p_bar_size g_p_bus bus p_bar_size bar_size in
      pal_pci_cfg_write seg bus dev func offset v ;;
      record_bar g_p_bar_size g_p_bus bus bar_size ;;
      ret (inl (offset + 4, np_bar_size, bar_size, p_bar64_size))
  else
    let! '(bar_size, bar_lower_bits) := bar_size_32 seg bus dev func offset in
    if bar_size =? 0 then
      next (if BAR_REG bar_lower_bits =? BAR_64_BIT then 8 else 4)
    else
      let! v := place_bar g_bar32_np_start g_np_bar_size g_np_bus bus np_bar_size bar_size in
      pal_pci_cfg_write seg bus dev func offset v ;;
      record_bar g_np_bar_size g_np_bus bus bar_size ;;
      let! bar_reg_value := pal_pci_cfg_read seg bus dev func offset in
      if BAR_REG bar_reg_value =? BAR_64_BIT then
        pal_pci_cfg_write seg bus dev func (offset + 4) 0 ;;
        ret (inl (offset + 8, bar_size, p_bar_size, p_bar64_size))
      else ret (inl (offset + 4, bar_size, p_bar_size, p_bar64_size)).

Definition pal_pcie_program_bar_reg (seg bus dev func : Z) : N D unit :=
  loop 7 (bar_reg_step seg bus dev func) (BAR0_OFFSET, 0, 0, 0) ;;
  let! p := var g_bar32_p_start in
  set g_bar32_p_max p ;;
  let! np := var g_bar32_np_start in
  set g_bar32_np_max np ;;
  let! p64 := var g_bar64_p_start in
  set g_bar64_p_max p64.

(** ** Bus numbering *)

(** [g_pcie_info_table->block[pcie_index]]. *)
Definition this_block : N D ecam_block :=
  let! i := var pcie_index in
  let! info := pci (gets p_info) in
  let! blocks := use info in
  use (nth_error blocks (Z.to_nat i)).

Definition absent (vendor_id : Z) : bool := (vendor_id =? 0x0) || (vendor_id =? 0xFFFFFFFF).
Definition is_host_bridge (class_code : Z) : bool :=
  ((class_code >> CC_BASE_SHIFT) .& CC_BASE_MASK =? HB_BASE_CLASS) &&
  ((class_code >> CC_SUB_SHIFT) .& CC_SUB_MASK =? HB_SUB_CLASS).

(** The locals of [pal_pcie_enumerate_device] that change in its loops. *)
Record enum_locals := mk_loc {
  sub_bus : Z; sec_bus : Z; bar32_np_base : Z; bar32_p_base : Z; bar64_p_base : Z
}.

(** A Type 1 Function: the bus behind it is enumerated by [rec]. *)
Definition enum_bridge (rec : Z -> Z -> N D Z) (seg bus dev func : Z) (x : enum_locals)
    : N D enum_locals :=
  let! com_reg_value := pal_pci_cfg_read seg bus dev func COMMAND_REG_OFFSET in
  pal_pci_cfg_write seg bus dev func COMMAND_REG_OFFSET (com_reg_value .| REG_ACC_DATA) ;;
  pal_pci_cfg_write seg bus dev func BUS_NUM_REG_OFFSET (BUS_NUM_REG_CFG 0xFF (sec_bus x) bus) ;;
  let! np := var g_bar32_np_start in
  pal_pci_cfg_write seg bus dev func NON_PRE_FET_OFFSET ((np >> 16) .& 0xFFF0) ;;
  let! p := var g_bar32_p_start in
  pal_pci_cfg_write seg bus dev func PRE_FET_OFFSET ((p >> 16) .& 0xFFF0) ;;
  let! sub := rec (sec_bus x) (u32 (sec_bus x + 1)) in
  pal_pci_cfg_write seg bus dev func BUS_NUM_REG_OFFSET (BUS_NUM_REG_CFG sub (sec_bus x) bus) ;;
  let! bar32_p_limit := var g_bar32_p_max in
  let! bar32_np_limit := var g_bar32_np_max in
  get_resource_base_32 seg bus dev func (bar32_p_base x) (bar32_np_base x)
    bar32_p_limit bar32_np_limit ;;
  let! p64_max := var g_bar64_p_max in
  get_resource_base_64 seg bus dev func (bar64_p_base x) p64_max ;;
  pal_pcie_rp_program_bar seg bus dev func ;;
  let! p := var g_bar32_p_start in
  let! np := var g_bar32_np_start in
  let! p64 := var g_bar64_p_start in
  set g_np_bar_size 0 ;; set g_p_bar_size 0 ;; set g_bar64_size 0 ;;
  ret (mk_loc sub (u32 (sub + 1)) np p p64).

(** One Function of the two loops. *)
Definition enum_function (rec : Z -> Z -> N D Z) (seg bus dev func : Z) (x : enum_locals)
    : N D (enum_locals + Empty_set) :=
  let! vendor_id := pal_pci_cfg_read seg bus dev func 0 in
  if absent vendor_id then ret (inl x) else
  let! class_code := pal_pci_cfg_read seg bus dev func TYPE01_RIDR in
  if is_host_bridge class_code then ret (inl x) else
  let! header_value := pal_pci_cfg_read seg bus dev func HEADER_OFFSET in
  let type := PCIE_HEADER_TYPE header_value in
  if type =? TYPE1_HEADER then
    let! x := enum_bridge rec seg bus dev func x in ret (inl x)
  else if type =? TYPE0_HEADER then
    pal_pcie_program_bar_reg seg bus dev func ;;
    ret (inl (mk_loc (u32 (sec_bus x - 1)) (sec_bus x) (bar32_np_base x) (bar32_p_base x)
                (bar64_p_base x)))
  else ret (inl x).

Definition enum_device (rec : Z -> Z -> N D Z) (seg bus dev : Z) (x : enum_locals)
    : N D (enum_locals + Empty_set) :=
  for_acc 8 0 x (enum_function rec seg bus dev).

Fixpoint pal_pcie_enumerate_device (fuel : nat) (bus sec : Z) : N D Z :=
  match fuel with
  | O => nofuel
  | S fuel' =>
      let! b := this_block in
      if bus =? u32 (end_bus_num b + 1) then ret bus else
      let! p := var g_bar32_p_start in
      let! np := var g_bar32_np_start in
      let! p64 := var g_bar64_p_start in
      let! r := for_acc 32 0 (mk_loc bus sec np p p64)
                  (enum_device (pal_pcie_enumerate_device fuel') (segment_num b) bus) in
      match r with inl x => ret (sub_bus x) | inr e => match e with end end
  end.

(** One Function of [pal_clear_pri_bus]. *)
Definition clear_function (seg bus dev func : Z) : N D unit :=
  let! vendor_id := pal_pci_cfg_read seg bus dev func 0 in
  when negb (absent vendor_id) then
    (let! header_value := pal_pci_cfg_read seg bus dev func HEADER_OFFSET in
     when PCIE_HEADER_TYPE header_value =? TYPE1_HEADER then
       (let! bus_value := pal_pci_cfg_read seg bus dev func BUS_NUM_REG_OFFSET in
        pal_pci_cfg_write seg bus dev func BUS_NUM_REG_OFFSET
          (bus_value .& PRI_BUS_CLEAR_MASK))).

Definition pal_clear_pri_bus : N D unit :=
  let! b := this_block in
  for_range 0 (end_bus_num b + 1) (fun bus =>
    for_range 0 PCIE_MAX_DEV (fun dev =>
      for_range 0 PCIE_MAX_FUNC (clear_function (segment_num b) bus dev))).

(** The hierarchies of one ECAM block. *)
Fixpoint enum_roots (fuel : nat) (roots : list root_info) : N D unit :=
  match roots with
  | [] => ret tt
  | r :: roots' =>
      set g_bar64_p_start (ep_bar64 r) ;;
      set g_rp_bar64_value (rp_bar64 r) ;;
      set g_bar32_np_start (ep_npbar32 r) ;;
      set g_bar32_p_start (ep_pbar32 r) ;;
      set g_rp_bar32_value (rp_bar32 r) ;;
      let! _sub := pal_pcie_enumerate_device fuel (r_start_bus r) (u32 (r_start_bus r + 1)) in
      pal_clear_pri_bus ;;
      enum_roots fuel roots'
  end.

(** One turn of the outer [while]. *)
Definition enum_block (fuel : nat) (n : Z) (_u : unit) : N D (unit + unit) :=
  let! i := var pcie_index in
  if n <=? i then ret (inr tt) else
  let! roots := use (nth_error platform_root_pcie_cfg (Z.to_nat i)) in
  enum_roots fuel roots ;;
  set pcie_index (i + 1) ;;
  ret (inl tt).

Definition pal_pcie_enumerate (fuel : nat) : N D unit :=
  let! info := pci (gets p_info) in
  let! blocks := use info in
  let n := Z.of_nat (length blocks) in
  if n =? 0 then ret tt else
  loop (S (length blocks)) (enum_block fuel n) tt ;;
  set enumerate 0 ;;
  set pcie_index 0.

(** ** Look-ups *)

(** One Function of the scan of [pal_pcie_get_bdf]. *)
Definition class_step (ClassCode seg bus dev func : Z) (_u : unit) : N D (unit + Z) :=
  let! class_code := pal_pci_cfg_read seg bus dev func TYPE01_RIDR in
  if (class_code >> CC_BASE_SHIFT =? ClassCode >> 16) &&
     (class_code >> CC_SUB_SHIFT =? ClassCode >> 8)
  then ret (inr (u32 (seg << 24) .| u32 (bus << 16) .| u32 (dev << 8) .| func))
  else ret (inl tt).
(** The inner loops start at the input's device and function on every turn. *)
Definition pal_pcie_get_bdf (ClassCode StartBdf : Z) : N D Z :=
  let InputSeg := PCIE_EXTRACT_BDF_SEG StartBdf in
  let InputBus := PCIE_EXTRACT_BDF_BUS StartBdf in
  let InputDev := PCIE_EXTRACT_BDF_DEV StartBdf in
  let InputFunc := PCIE_EXTRACT_BDF_FUNC StartBdf in
  let! r := for_acc (Z.to_nat (PLATFORM_BM_OVERRIDE_PCIE_MAX_BUS - InputBus)) InputBus tt
    (fun bus _ => for_acc (Z.to_nat (PCIE_MAX_DEV - InputDev)) InputDev tt
      (fun dev _ => for_acc (Z.to_nat (PCIE_MAX_FUNC - InputFunc)) InputFunc tt
        (class_step ClassCode InputSeg bus dev))) in
  ret (match r with inl _ => 0 | inr bdf => bdf end).

Definition pal_increment_bus_dev (StartBdf : Z) : Z :=
  let Seg := PCIE_EXTRACT_BDF_SEG StartBdf in
  let Bus := PCIE_EXTRACT_BDF_BUS StartBdf in
  let Dev := PCIE_EXTRACT_BDF_DEV StartBdf in
  if negb (Dev =? PCIE_MAX_DEV - 1)
  then u32 (Seg << 24) .| u32 (Bus << 16) .| u32 ((Dev + 1) << 8)
  else u32 (Seg << 24) .| u32 ((Bus + 1) << 16).

Definition pal_pcie_get_base (bdf bar_index : Z) : N D Z :=
  let seg := PCIE_EXTRACT_BDF_SEG bdf in
  let bus := PCIE_EXTRACT_BDF_BUS bdf in
  let dev := PCIE_EXTRACT_BDF_DEV bdf in
  let func := PCIE_EXTRACT_BDF_FUNC bdf in
  let offset := u32 (BAR0_OFFSET + 4 * bar_index) in
  let! lower := pal_pci_cfg_read seg bus dev func offset in
  let bar_value := lower .& BAR_MASK in
  if BAR_REG lower =? BAR_64_BIT then
    let! upper := pal_pci_cfg_read seg bus dev func (u32 (offset + 4)) in
    ret (bar_value .| (upper << 32))
  else ret bar_value.
Definition pal_pcie_get_bdf_wrapper (class_code start_bdf : Z) : N D Z :=
  pal_pcie_get_bdf class_code start_bdf.
Definition pal_pcie_check_device_valid (_bdf : Z) : Z := 0.
End code.
