(* ===== verification/PcieEnumSpec.v ===== *)
(** * PcieEnumSpec

    The bus numbering of [PcieEnum.pal_pcie_enumerate_device] as a traversal of
    a forest of bridges, and the placement of BARs. *)

From Stdlib Require Import ZArith Lia Bool List String.
From stdpp Require Import base tactics numbers list gmap option.
From S2P Require Import Prelude Memory El3State Pcie PcieEnum.
Local Open Scope acs_scope.
Local Open Scope Z_scope.

(** ** Forests of bridges *)

(** A Type 1 Function with its secondary and subordinate bus and what is
    behind it. *)
Inductive bridge := Br (dev func sec sub : Z) (below : list bridge).

(** [numbered s l last]: depth-first numbers from [s] on; [last] is the last
    one used. *)
Inductive numbered : Z -> list bridge -> Z -> Prop :=
| numbered_nil s : numbered s [] (s - 1)
| numbered_cons s d f sub below l last :
    numbered (s + 1) below sub -> numbered (sub + 1) l last ->
    numbered s (Br d f s sub below :: l) last.

(** Header dwords that read as Type 1, in the order of the reads: the bridges
    the enumeration found. *)
Definition is_hit (e : ev) : bool :=
  match e with
  | EvRead _ a v => (a mod 4096 =? HEADER_OFFSET) && (PCIE_HEADER_TYPE v =? TYPE1_HEADER)
  | _ => false
  end.
Definition ev_addr (e : ev) : Z := match e with EvRead _ a _ => a | EvWrite _ a _ => a | _ => 0 end.
Definition hits (es : list ev) : list Z := map ev_addr (List.filter is_hit es).

Lemma hits_app l k : hits (l ++ k) = hits l ++ hits k.
Proof. unfold hits. by rewrite filter_app, map_app. Qed.

Lemma numbered_last s l last : numbered s l last -> s - 1 <= last.
Proof. induction 1; lia. Qed.

Lemma numbered_app s l last k last' :
  numbered s l last -> numbered (last + 1) k last' -> numbered s (l ++ k) last'.
Proof.
  induction 1 as [s|s d f sub below l last Hb _ Hl IH]; intros Hk.
  - by replace (s - 1 + 1) with s in Hk by lia.
  - cbn. constructor; auto.
Qed.

(** The secondary bus numbers of a forest, in the order they were given. *)
Fixpoint secs (b : bridge) : list Z :=
  match b with Br _ _ sec _ below => sec :: flat_map secs below end.

(** Depth-first numbering gives every number of the range to one bridge. *)
Lemma numbered_secs s l last :
  numbered s l last -> flat_map secs l = seqZ s (last - s + 1).
Proof.
  induction 1 as [s|s d f sub below l last Hb IHb Hl IHl].
  - by replace (s - 1 - s + 1) with 0 by lia.
  - pose proof (numbered_last _ _ _ Hb). pose proof (numbered_last _ _ _ Hl).
    cbn. rewrite IHb, IHl.
    replace (last - s + 1) with (1 + ((sub - (s + 1) + 1) + (last - (sub + 1) + 1))) by lia.
    rewrite (seqZ_app s 1) by lia. change (seqZ s 1) with [s].
    rewrite (seqZ_app (s + 1) (sub - (s + 1) + 1)) by lia. cbn [app].
    by replace (s + 1 + (sub - (s + 1) + 1)) with (sub + 1) by lia.
Qed.

Section numbering.
Context {D : Type} {HW : Hw D}.
Context (cfg : list ecam_block).
Hypothesis ecam_aligned : forall b, In b cfg -> ecam_base b mod 4096 = 0.

Abbreviation addr := (pal_cfg_addr cfg).

(** The header reads and the writes of the bus number registers a forest on
    [bus] gives rise to. *)
Fixpoint heads (seg bus : Z) (b : bridge) : list Z :=
  match b with
  | Br d f sec sub below =>
      addr seg bus d f HEADER_OFFSET :: flat_map (heads seg sec) below
  end.
Fixpoint writes (seg bus : Z) (b : bridge) : list ev :=
  match b with
  | Br d f sec sub below =>
      EvWrite 4 (addr seg bus d f BUS_NUM_REG_OFFSET) (u32 (BUS_NUM_REG_CFG 0xFF sec bus))
      :: flat_map (writes seg sec) below ++
      [EvWrite 4 (addr seg bus d f BUS_NUM_REG_OFFSET) (u32 (BUS_NUM_REG_CFG sub sec bus))]
  end.

Implicit Types s : est D.

(** What every step of the enumeration keeps, and the accesses [es] it makes. *)
Definition emits s (es : list ev) s' : Prop :=
  p_trace (e_pci s') = rev es ++ p_trace (e_pci s) /\
  p_info (e_pci s') = p_info (e_pci s) /\
  e_vars s' pcie_index = e_vars s pcie_index.

Lemma emits_nil s : emits s [] s.
Proof. done. Qed.
Lemma emits_app s es s1 fs s2 : emits s es s1 -> emits s1 fs s2 -> emits s (es ++ fs) s2.
Proof.
  intros (H1 & H2 & H3) (H4 & H5 & H6). split; [|split]; try congruence.
  by rewrite H4, H1, rev_app_distr, app_assoc.
Qed.

(** A computation that finds no bridge; its result satisfies [Q]. *)
Definition dull {A} (m : M (est D) A) (Q : A -> Prop) : Prop :=
  forall s, wp m (fun a s' => (exists es, emits s es s' /\ hits es = []) /\ Q a) s.

Lemma dull_ret {A} (a : A) (Q : A -> Prop) : Q a -> dull (ret a) Q.
Proof. intros H s. split; [|done]. exists []. split; [apply emits_nil|done]. Qed.

Lemma dull_bind {A B} (m : M (est D) A) (f : A -> M (est D) B) P Q :
  dull m P -> (forall a, P a -> dull (f a) Q) -> dull (bind m f) Q.
Proof.
  intros Hm Hf s. apply wp_bind. eapply wp_mono; [|apply Hm].
  intros a s1 [(es & He & Hh) Ha]. eapply wp_mono; [|apply (Hf a Ha)].
  intros b s2 [(fs & Hf2 & Hh2) Hb]. split; [|done].
  exists (es ++ fs). split; [by eapply emits_app|]. by rewrite hits_app, Hh, Hh2.
Qed.

Lemma dull_mono {A} (m : M (est D) A) (P Q : A -> Prop) :
  dull m P -> (forall a, P a -> Q a) -> dull m Q.
Proof. intros H HQ s. eapply wp_mono; [|apply H]. intros a s' [? ?]; auto. Qed.

Lemma dull_loop {X R} (I : nat -> X -> Prop) (body : X -> M (est D) (X + R)) fuel n x :
  (forall n x, I n x -> dull (body x) (fun r =>
     match r with inl x' => exists k, (k < n)%nat /\ I k x' | inr _ => True end)) ->
  (n < fuel)%nat -> I n x -> dull (loop fuel body x) (fun _ => True).
Proof.
  intros Hb. revert n x. induction fuel as [|k IH]; intros n x Hn HI; [lia|]. cbn [loop].
  eapply dull_bind; [by apply (Hb n)|]. intros [x'|v] Hr; [|by apply dull_ret].
  destruct Hr as (j & Hj & HI'). apply (IH j); [lia|done].
Qed.

Lemma dull_var v : dull (var v) (fun _ => True).
Proof. intros s. split; [|done]. exists []. split; [apply emits_nil|done]. Qed.

Lemma dull_set v x : v <> pcie_index -> dull (set v x) (fun _ => True).
Proof.
  intros Hv s. split; [|done]. exists []. split; [|done]. repeat split.
  cbn. unfold set_var. by rewrite decide_False by congruence.
Qed.
Lemma dull_if {A} (b : bool) (m k : M (est D) A) Q :
  (b = true -> dull m Q) -> (b = false -> dull k Q) -> dull (if b then m else k) Q.
Proof. destruct b; auto. Qed.

Lemma ecam_of_aligned bus seg : ecam_of bus seg cfg mod 4096 = 0.
Proof.
  unfold ecam_of. destruct (List.find _ _) as [b|] eqn:Hf; [|done].
  apply find_some in Hf as [Hin _]. by apply ecam_aligned.
Qed.

Lemma addr_mod seg bus dev func off : addr seg bus dev func off mod 4096 = off mod 4096.
Proof.
  unfold pal_cfg_addr, pal_pcie_ecam_base, u64, u32, wrap, PCIE_CFG_SIZE.
  pose proof (ecam_of_aligned bus seg) as Ha.
  rewrite Z.mod_mod_divide by (exists (2 ^ 52); lia).
  set (k := _ * 4096 + _ * 4096 + func * 4096). assert (k mod 2 ^ 32 mod 4096 = 0) as Hk.
  { rewrite Z.mod_mod_divide by (exists (2 ^ 20); lia).
    replace k with ((bus * PCIE_MAX_DEV * PCIE_MAX_FUNC + dev * PCIE_MAX_FUNC + func) * 4096)
      by (unfold k; lia). apply Z_mod_mult. }
  rewrite <- Zplus_mod_idemp_l, (Zplus_mod (ecam_of _ _ _)), Ha, Hk. done.
Qed.

Lemma cfg_read_run seg bus dev func off s :
  exists v s', pal_pci_cfg_read cfg seg bus dev func off s = Done v s' /\
    emits s [EvRead 4 (addr seg bus dev func off) v] s' /\
    v = u32 (fst (hw_read 4 (p_dev (e_pci s)) (addr seg bus dev func off))) /\
    e_vars s' = e_vars s.
Proof.
  unfold pal_pci_cfg_read, pci, zoom, pal_mmio_read.
  destruct (hw_read _ _ _) as [v d]. by repeat esplit.
Qed.

Lemma cfg_write_run seg bus dev func off v s : off mod 4 = 0 ->
  exists s', pal_pci_cfg_write cfg seg bus dev func off v s = Done tt s' /\
    emits s [EvWrite 4 (addr seg bus dev func off) (u32 v)] s' /\ e_vars s' = e_vars s.
Proof.
  intros Ho. unfold pal_pci_cfg_write, pci, zoom, pal_mmio_write, mmio_store.
  assert (addr seg bus dev func off .& 0x3 = 0) as ->; [|by repeat esplit].
  change 3 with (Z.ones 2). rewrite Z.land_ones by lia. change (2 ^ 2) with 4.
  rewrite <- (Z.mod_mod_divide _ 4096 4) by (by exists 1024).
  rewrite addr_mod, Z.mod_mod_divide by (by exists 1024). done.
Qed.

Lemma dull_read seg bus dev func off : off mod 4096 <> HEADER_OFFSET ->
  dull (pal_pci_cfg_read cfg seg bus dev func off) (fun _ => True).
Proof.
  intros Ho s. destruct (cfg_read_run seg bus dev func off s) as (v & s' & H & He & _).
  eapply wp_intro; [exact H|]. split; [|done]. eexists. split; [exact He|].
  unfold hits. cbn [List.filter is_hit]. rewrite addr_mod.
  by destruct (Z.eqb_spec (off mod 4096) HEADER_OFFSET).
Qed.

Lemma dull_write seg bus dev func off v :
  dull (pal_pci_cfg_write cfg seg bus dev func off v) (fun _ => True).
Proof.
  intros s. split; [|done]. eexists [_]. by repeat split.
Qed.

(** Discharges a [dull] goal for straight-line code. *)
Ltac dull_step :=
  match goal with
  | |- dull (bind _ _) _ => eapply (dull_bind _ _ (fun _ => True)); [|intros ? _]
  | |- dull (ret _) _ => apply dull_ret; try done
  | |- dull (if _ then _ else _) _ => apply dull_if; intros ?
  | |- dull (var _) _ => apply dull_var
  | |- dull (set _ _) _ => apply dull_set; discriminate
  | |- dull (pal_pci_cfg_write _ _ _ _ _ _ _) _ => apply dull_write
  | |- dull (pal_pci_cfg_read _ _ _ _ _ _) _ => apply dull_read
  | |- dull (let _ := _ in _) _ => cbv zeta
  end.
Ltac dulls := repeat dull_step; try done.

Lemma dull_resource_32 seg bus dev func off start size base limit :
  off mod 4096 <> HEADER_OFFSET -> start <> pcie_index ->
  dull (resource_32 cfg seg bus dev func off start size base limit) (fun _ => True).
Proof. intros Ho Hs. unfold resource_32. dulls. by apply dull_set. Qed.

Lemma dull_resources_32 seg bus dev func a b c d :
  dull (get_resource_base_32 cfg seg bus dev func a b c d) (fun _ => True).
Proof. unfold get_resource_base_32. dulls; apply dull_resource_32; discriminate. Qed.
Lemma dull_resources_64 seg bus dev func a b :
  dull (get_resource_base_64 cfg seg bus dev func a b) (fun _ => True).
Proof. unfold get_resource_base_64. dulls. Qed.

Lemma dull_size_64 seg bus dev func off : off mod 4096 <> HEADER_OFFSET ->
  (off + 4) mod 4096 <> HEADER_OFFSET ->
  dull (bar_size_64 cfg seg bus dev func off) (fun _ => True).
Proof. intros Ho Ho4. unfold bar_size_64. dulls. Qed.
Lemma dull_size_32 seg bus dev func off : off mod 4096 <> HEADER_OFFSET ->
  dull (bar_size_32 cfg seg bus dev func off) (fun _ => True).
Proof. intros Ho. unfold bar_size_32. dulls. Qed.

Lemma bar_offset off : 0x10 <= off <= 0x28 -> off mod 4096 <> HEADER_OFFSET.
Proof. intros H. rewrite Z.mod_small by lia. unfold HEADER_OFFSET. lia. Qed.

Lemma dull_rp_bars seg bus dev func :
  dull (pal_pcie_rp_program_bar cfg seg bus dev func) (fun _ => True).
Proof.
  apply (dull_loop (fun n off => 0x10 <= off /\ (0x17 < off + 4 * Z.of_nat n)) _ 3 2);
    [|lia|unfold BAR0_OFFSET; lia].
  intros n off [H1 H2]. unfold rp_bar_step, TYPE1_BAR_MAX_OFF.
  apply dull_if; intros Ho; [by apply dull_ret|].
  assert (forall k, 4 <= k -> exists m, (m < n)%nat /\ 0x10 <= off + k /\ 0x17 < off + k + 4 * Z.of_nat m)
    as Hm by (intros; exists (n - 1)%nat; lia).
  dulls; try (apply Hm; lia); try (apply dull_size_64); try (apply dull_size_32);
    try (apply bar_offset; lia).
  destruct a0 as [sz lo]. dulls; apply Hm; lia.
Qed.

Lemma dull_place start size lastbus bus own bar_size : start <> pcie_index ->
  dull (place_bar start size lastbus bus own bar_size) (fun _ => True).
Proof. intros H. unfold place_bar. dulls. by apply dull_set. Qed.
Lemma dull_record size lastbus bus bar_size : size <> pcie_index -> lastbus <> pcie_index ->
  dull (record_bar size lastbus bus bar_size) (fun _ => True).
Proof. intros H1 H2. unfold record_bar. dulls; by apply dull_set. Qed.

Definition bar_off (x : Z * Z * Z * Z) : Z := let '(off, _, _, _) := x in off.

Lemma dull_bar_step seg bus dev func n x :
  0x10 <= bar_off x -> 0x27 < bar_off x + 4 * Z.of_nat n ->
  dull (bar_reg_step cfg seg bus dev func x) (fun r => match r with
    | inl y => exists k, (k < n)%nat /\ 0x10 <= bar_off y /\
                         0x27 < bar_off y + 4 * Z.of_nat k
    | inr _ => True end).
Proof.
  destruct x as [[[off np] p] p64]. cbn [bar_off]. intros H1 H2.
  unfold bar_reg_step, TYPE0_BAR_MAX_OFF. apply dull_if; intros Ho; [by apply dull_ret|].
  assert (forall k a b c, 4 <= k -> dull (ret (inl (off + k, a, b, c)) : M (est D) (_ + unit))
    (fun r => match r with
    | inl y => exists j, (j < n)%nat /\ 0x10 <= bar_off y /\
                         0x27 < bar_off y + 4 * Z.of_nat j
    | inr _ => True end)) as Hnext.
  { intros k a b c Hk. apply dull_ret. exists (n - 1)%nat. cbn [bar_off]. lia. }
  repeat match goal with
  | a : (Z * Z)%type |- _ => destruct a
  | |- context [if ?b then 8 else 4] => destruct b
  | |- dull (ret (inl _)) _ => apply Hnext; lia
  | |- dull (bar_size_64 _ _ _ _ _ _) _ => apply dull_size_64; apply bar_offset; lia
  | |- dull (bar_size_32 _ _ _ _ _ _) _ => apply dull_size_32; apply bar_offset; lia
  | |- dull (place_bar _ _ _ _ _ _) _ => apply dull_place; discriminate
  | |- dull (record_bar _ _ _ _) _ => apply dull_record; discriminate
  | |- _ mod 4096 <> _ => apply bar_offset; lia
  | _ => dull_step
  end.
Qed.

Lemma dull_ep_bars seg bus dev func :
  dull (pal_pcie_program_bar_reg cfg seg bus dev func) (fun _ => True).
Proof.
  unfold pal_pcie_program_bar_reg. dulls.
  apply (dull_loop (fun n x => 0x10 <= bar_off x /\
    0x27 < bar_off x + 4 * Z.of_nat n) _ 7 6); [|lia|cbn; unfold BAR0_OFFSET; lia].
  intros n x [H1 H2]. by apply dull_bar_step.
Qed.
(** ** The numbering *)

Context (blocks : list ecam_block) (blk : ecam_block) (index : Z).
Hypothesis this_index : nth_error blocks (Z.to_nat index) = Some blk.
Hypothesis end_range : 0 <= end_bus_num blk < 256.
Abbreviation seg := (segment_num blk).
Abbreviation last_bus := (end_bus_num blk).

(** Buses past the end of the block read as absent. *)
Definition unimplemented : Prop := forall d bus dev func, last_bus < bus ->
  0 <= dev < 32 -> 0 <= func < 8 ->
  absent (u32 (fst (hw_read 4 d (addr seg bus dev func 0)))) = true.

Definition at_block s : Prop :=
  e_vars s pcie_index = index /\ p_info (e_pci s) = Some blocks.

(** No bus number above this is given below [bus]: a bus has 256 Functions. *)
Definition bus_limit (bus : Z) : Z := bus + 257 * Z.max 0 (last_bus + 1 - bus).

(** From a state of the enumeration, [m] ends; its result and accesses satisfy
    [P]. *)
Definition does {A} (m : M (est D) A) (P : A -> list ev -> Prop) : Prop :=
  forall s, at_block s -> wp m (fun a s' => exists es, emits s es s' /\ P a es) s.

(** Enumerating [bus] found the forest [l], numbered up to [sub]. *)
Definition found (bus : Z) (l : list bridge) (sub : Z) (es : list ev) : Prop :=
  numbered (bus + 1) l sub /\
  hits es = flat_map (heads seg bus) l /\ sublist (flat_map (writes seg bus) l) es.

Definition enum_post (bus sub : Z) (es : list ev) : Prop :=
  (exists l, found bus l sub es) /\ bus <= sub <= bus_limit bus.

Lemma emits_block s es s' : emits s es s' -> at_block s -> at_block s'.
Proof. intros (_ & H1 & H2) [? ?]. split; congruence. Qed.

Lemma this_block_run s : at_block s -> this_block s = Done blk s.
Proof.
  intros [Hi Hb]. unfold this_block, var, pci, zoom, gets, bind, use. cbn.
  rewrite Hi, Hb. cbn. rewrite this_index. by destruct s.
Qed.

Lemma does_bind {A B} (m : M (est D) A) (f : A -> M (est D) B) P Q :
  does m P -> (forall a es, P a es -> does (f a) (fun b fs => Q b (es ++ fs))) ->
  does (bind m f) Q.
Proof.
  intros Hm Hf s Hs. apply wp_bind. eapply wp_mono; [|by apply Hm].
  intros a s1 (es & He & Ha). eapply wp_mono; [|apply (Hf a es Ha); by eapply emits_block].
  intros b s2 (fs & Hf2 & Hb). exists (es ++ fs). split; [by eapply emits_app|done].
Qed.

Lemma does_ret {A} (a : A) (P : A -> list ev -> Prop) : P a [] -> does (ret a) P.
Proof. intros H s Hs. exists []. split; [apply emits_nil|done]. Qed.

Lemma does_mono {A} (m : M (est D) A) (P Q : A -> list ev -> Prop) :
  does m P -> (forall a es, P a es -> Q a es) -> does m Q.
Proof. intros H HPQ s Hs. eapply wp_mono; [|by apply H]. naive_solver. Qed.

Lemma does_dull {A} (m : M (est D) A) Q P :
  dull m Q -> (forall a es, hits es = [] -> Q a -> P a es) -> does m P.
Proof.
  intros H HP s Hs. eapply wp_mono; [|apply H]. intros a s' [(es & ? & ?) ?]. eauto.
Qed.

(** A dull step in front of the rest. *)
Lemma dull_then {A B} (m : M (est D) A) (f : A -> M (est D) B) Q :
  dull m (fun _ => True) ->
  (forall a es, hits es = [] -> does (f a) (fun b fs => Q b (es ++ fs))) ->
  does (bind m f) Q.
Proof.
  intros Hm Hf. eapply does_bind; [|apply Hf]. apply (does_dull _ _ _ Hm). auto.
Qed.

Ltac dull_head :=
  apply dull_then;
  [first [apply dull_write | apply dull_var | apply dull_resources_32
         | apply dull_resources_64 | apply dull_rp_bars | apply dull_ep_bars
         | apply dull_set; discriminate | apply dull_read; discriminate]|];
  intros ? ? ?.

Lemma does_write dev bus func off v : off mod 4 = 0 ->
  does (pal_pci_cfg_write cfg seg bus dev func off v)
    (fun _ es => es = [EvWrite 4 (addr seg bus dev func off) (u32 v)]).
Proof.
  intros Ho s Hs. destruct (cfg_write_run seg bus dev func off v s Ho) as (s' & H & He & _).
  eapply wp_intro; [exact H|]. eauto.
Qed.

(** The four dull events around the two writes and the recursion. *)
Definition bridge_writes (bus dev func sec sub : Z) (inner : list ev) : list ev :=
  EvWrite 4 (addr seg bus dev func BUS_NUM_REG_OFFSET) (u32 (BUS_NUM_REG_CFG 0xFF sec bus))
  :: inner ++
  [EvWrite 4 (addr seg bus dev func BUS_NUM_REG_OFFSET) (u32 (BUS_NUM_REG_CFG sub sec bus))].

Lemma bridge_does rec bus dev func x :
  let sec := sec_bus x in
  0 <= sec -> bus_limit sec < 2 ^ 31 -> does (rec sec (sec + 1)) (enum_post sec) ->
  does (enum_bridge cfg rec seg bus dev func x) (fun x' es =>
    (exists l, numbered (sec + 1) l (sub_bus x') /\ hits es = flat_map (heads seg sec) l /\
      sublist (bridge_writes bus dev func sec (sub_bus x') (flat_map (writes seg sec) l)) es) /\
    sec <= sub_bus x' <= bus_limit sec /\ sec_bus x' = sub_bus x' + 1).
Proof.
  intros sec Hsec Hlim Hrec.
  assert (sec <= bus_limit sec) as Hle by (unfold bus_limit; lia).
  unfold enum_bridge. fold sec.
  replace (u32 (sec + 1)) with (sec + 1) by (symmetry; apply wrap_small; lia).
  do 2 dull_head. eapply does_bind; [by apply does_write|]. intros ? ? ->.
  do 4 dull_head. eapply does_bind; [exact Hrec|]. intros sub fs [(l & Hn & Hh & Hw) Hsub].
  eapply does_bind; [by apply does_write|]. intros ? ? ->.
  do 12 dull_head.
  apply does_ret. cbn [sub_bus sec_bus]. split; [|split]; [|done|apply wrap_small; lia].
  exists l. rewrite !hits_app. repeat match goal with H : hits _ = [] |- _ => rewrite H; clear H end.
  cbn [app]. rewrite Hh, !app_nil_r. split; [done|]. split; [done|].
  unfold bridge_writes.
  do 2 apply sublist_inserts_l. apply sublist_skip. do 4 apply sublist_inserts_l.
  apply sublist_app; [done|]. apply sublist_skip. apply sublist_nil_l.
Qed.

(** The loop rule: the accesses so far are part of the invariant. *)
Lemma does_for_acc {X} (I : Z -> X -> list ev -> Prop) (body : Z -> X -> M (est D) (X + Empty_set))
    n a x es :
  (forall i x es, a <= i < a + Z.of_nat n -> I i x es ->
     does (body i x) (fun r fs => match r with inl x' => I (i + 1) x' (es ++ fs) | inr e => match e with end end)) ->
  I a x es ->
  does (for_acc n a x body) (fun r fs =>
    match r with inl x' => I (a + Z.of_nat n) x' (es ++ fs) | inr e => match e with end end).
Proof.
  revert a x es. induction n as [|n IH]; intros a x es Hb HI; cbn [for_acc].
  - apply does_ret. by rewrite app_nil_r, Z.add_0_r.
  - eapply does_bind; [apply (Hb a x es); [lia|done]|]. intros [x'|[]] fs Hx.
    eapply does_mono; [apply (IH (a + 1) x' (es ++ fs)); [|done]|].
    + intros i y gs Hi. apply Hb. lia.
    + intros [y|[]] gs Hy. by rewrite app_assoc, Nat2Z.inj_succ, <- Z.add_1_l, Z.add_assoc.
Qed.

Lemma does_read bus dev func off :
  does (pal_pci_cfg_read cfg seg bus dev func off) (fun v es =>
    es = [EvRead 4 (addr seg bus dev func off) v] /\
    exists d, v = u32 (fst (hw_read 4 d (addr seg bus dev func off)))).
Proof.
  intros s Hs. destruct (cfg_read_run seg bus dev func off s) as (v & s' & H & He & Hv & _).
  eapply wp_intro; [exact H|]. eauto 10.
Qed.

(** What one Function or a range of Functions of [bus] adds to the forest. *)
Definition adds (bus : Z) (x x' : enum_locals) (es : list ev) : Prop :=
  exists l, numbered (sec_bus x) l (sec_bus x' - 1) /\
    hits es = flat_map (heads seg bus) l /\ sublist (flat_map (writes seg bus) l) es.

(** The locals between two Functions, of which [k] were looked at. *)
Definition between (bus k : Z) (x : enum_locals) : Prop :=
  sub_bus x = sec_bus x - 1 /\ bus < sec_bus x /\
  sec_bus x - 1 <= bus_limit (bus + 1) + k /\ (last_bus < bus -> sec_bus x = bus + 1).

Lemma adds_nil bus x x' es : hits es = [] -> sec_bus x' = sec_bus x -> adds bus x x' es.
Proof. intros Hh Hx. exists []. rewrite Hx, Hh. repeat split; [constructor|apply sublist_nil_l]. Qed.

Lemma adds_trans bus x y z es fs :
  adds bus x y es -> adds bus y z fs -> adds bus x z (es ++ fs).
Proof.
  intros (l & Hn & Hh & Hw) (k & Hn' & Hh' & Hw'). exists (l ++ k).
  rewrite !flat_map_app, hits_app, Hh, Hh'. split; [|split; [done|by apply sublist_app]].
  eapply numbered_app; [done|]. by replace (sec_bus y - 1 + 1) with (sec_bus y) by lia.
Qed.

Lemma bus_limit_sec bus sec k : bus < sec -> 0 <= k -> bus <= last_bus ->
  sec - 1 <= bus_limit (bus + 1) + k -> bus_limit sec <= bus_limit (bus + 1) + (k + 1).
Proof. unfold bus_limit. lia. Qed.

Lemma adds_bridge bus dev func sec x x' l es fs :
  sec_bus x = sec -> sec_bus x' = sub_bus x' + 1 ->
  hits es = [addr seg bus dev func HEADER_OFFSET] ->
  numbered (sec + 1) l (sub_bus x') -> hits fs = flat_map (heads seg sec) l ->
  sublist (bridge_writes bus dev func sec (sub_bus x') (flat_map (writes seg sec) l)) fs ->
  adds bus x x' (es ++ fs).
Proof.
  intros Hx Hx' Hes Hn Hfs Hw. exists [Br dev func sec (sub_bus x') l]. rewrite Hx, Hx'.
  split; [|split].
  - constructor; [done|]. replace (sub_bus x' + 1 - 1) with (sub_bus x' + 1 - 1) by lia.
    constructor.
  - rewrite hits_app, Hes, Hfs. cbn. by rewrite app_nil_r.
  - cbn. rewrite app_nil_r. apply sublist_inserts_l. exact Hw.
Qed.

(** A Function by its header type. *)
Lemma type_does rec bus dev func k x type pre :
  0 <= bus <= last_bus -> 0 <= k < 256 -> between bus k x ->
  hits pre = (if type =? TYPE1_HEADER then [addr seg bus dev func HEADER_OFFSET] else []) ->
  (forall sec, bus < sec -> bus_limit sec < 2 ^ 31 -> does (rec sec (sec + 1)) (enum_post sec)) ->
  does (if type =? TYPE1_HEADER then
          let! x := enum_bridge cfg rec seg bus dev func x in ret (inl x)
        else if type =? TYPE0_HEADER then
          pal_pcie_program_bar_reg cfg seg bus dev func ;;
          ret (inl (mk_loc (u32 (sec_bus x - 1)) (sec_bus x) (bar32_np_base x) (bar32_p_base x)
                      (bar64_p_base x)))
        else ret (inl x)) (fun r es =>
    match r with
    | inl x' => adds bus x x' (pre ++ es) /\ between bus (k + 1) x'
    | inr e => match (e : Empty_set) with end
    end).
Proof.
  intros Hb Hk (Hx1 & Hx2 & Hx3 & Hx4) Hpre Hrec.
  assert (bus_limit (sec_bus x) <= bus_limit (bus + 1) + (k + 1)) as Hlim
    by (apply (bus_limit_sec bus); lia).
  assert (bus_limit (bus + 1) <= 257 * 257) as Hmax by (unfold bus_limit; lia).
  destruct (Z.eqb_spec type TYPE1_HEADER) as [_|_].
  - eapply does_bind; [apply bridge_does; [lia|lia|apply Hrec; lia]|].
    intros x' es [(l & Hn & Hh & Hw) [Hsub Hsec]]. apply does_ret. rewrite app_nil_r. split.
    + by eapply (adds_bridge bus dev func (sec_bus x)).
    + unfold between. lia.
  - destruct (type =? TYPE0_HEADER).
    + dull_head. apply does_ret. rewrite app_nil_r. split.
      * apply adds_nil; [by rewrite hits_app, Hpre, H|done].
      * unfold between. cbn [sub_bus sec_bus]. unfold u32. rewrite wrap_small; lia.
    + apply does_ret. rewrite app_nil_r. split; [by apply adds_nil|unfold between; lia].
Qed.

(** One Function. *)
Lemma function_does rec bus dev func k x :
  unimplemented -> 0 <= bus -> 0 <= k < 256 -> 0 <= dev < 32 -> 0 <= func < 8 ->
  between bus k x ->
  (forall sec, bus <= last_bus -> bus < sec -> bus_limit sec < 2 ^ 31 ->
     does (rec sec (sec + 1)) (enum_post sec)) ->
  does (enum_function cfg rec seg bus dev func x) (fun r es =>
    match r with inl x' => adds bus x x' es /\ between bus (k + 1) x' | inr e => match e with end end).
Proof.
  intros Hun Hb Hk Hd Hf Hx Hrec.
  assert (between bus (k + 1) x) as Hnext by (unfold between in *; lia).
  unfold enum_function.
  eapply does_bind; [apply does_read|]. intros v es [-> [d Hv]].
  assert (hits [EvRead 4 (addr seg bus dev func 0) v] = []) as Hh0.
  { unfold hits. cbn [List.filter is_hit]. by rewrite addr_mod. }
  destruct (absent v) eqn:Habs.
  { apply does_ret. split; [|done]. by apply adds_nil. }
  assert (bus <= last_bus) as Hle.
  { destruct (Z.le_gt_cases bus last_bus); [done|].
    rewrite Hv, Hun in Habs by (done || lia). discriminate. }
  dull_head. destruct (is_host_bridge a).
  { apply does_ret. split; [|done]. apply adds_nil; [|done].
    by rewrite !hits_app, Hh0, H. }
  eapply does_bind; [apply does_read|]. intros h ? [-> _].
  eapply does_mono; [eapply type_does; [lia|exact Hk|done| |auto]|].
  - instantiate (1 := [EvRead 4 (addr seg bus dev func 0) v] ++ es ++
      [EvRead 4 (addr seg bus dev func HEADER_OFFSET) h]). rewrite !hits_app, Hh0, H.
    unfold hits. cbn [List.filter is_hit app map]. rewrite addr_mod.
    change (HEADER_OFFSET mod 4096 =? HEADER_OFFSET) with true. cbn [andb].
    by destruct (_ =? TYPE1_HEADER).
  - intros [x'|[]] fs Hx'. by rewrite <- !app_assoc in Hx'.
Qed.

(** All Functions of device [dev]: [k0] were looked at before. *)
Lemma device_does rec bus dev x :
  unimplemented -> 0 <= bus -> 0 <= dev < 32 -> between bus (8 * dev) x ->
  (forall sec, bus <= last_bus -> bus < sec -> bus_limit sec < 2 ^ 31 ->
     does (rec sec (sec + 1)) (enum_post sec)) ->
  does (enum_device cfg rec seg bus dev x) (fun r es =>
    match r with
    | inl x' => adds bus x x' es /\ between bus (8 * (dev + 1)) x'
    | inr e => match e with end
    end).
Proof.
  intros Hun Hb Hd Hx Hrec. unfold enum_device.
  eapply does_mono;
    [apply (does_for_acc (fun i y es => adds bus x y es /\ between bus (8 * dev + i) y)
              _ 8 0 x [])|].
  - intros i y es Hi [Ha Hbt].
    eapply does_mono; [apply (function_does _ _ _ _ (8 * dev + i)); auto; lia|].
    intros [z|[]] fs [Ha' Hbt']. rewrite Z.add_assoc. split; [by eapply adds_trans|done].
  - rewrite Z.add_0_r. split; [by apply adds_nil|done].
  - intros [y|[]] es Hy. by replace (8 * (dev + 1)) with (8 * dev + (0 + Z.of_nat 8)) by lia.
Qed.

Lemma enumerate_does fuel bus :
  unimplemented -> 0 <= bus -> bus_limit bus < 2 ^ 31 ->
  Z.max 0 (last_bus + 1 - bus) < Z.of_nat fuel ->
  does (pal_pcie_enumerate_device cfg fuel bus (bus + 1)) (enum_post bus).
Proof.
  intros Hun. revert bus. induction fuel as [|fuel IH]; intros bus Hb Hlim Hf; [lia|].
  cbn [pal_pcie_enumerate_device].
  assert (u32 (last_bus + 1) = last_bus + 1) as He by (apply wrap_small; lia).
  intros s Hs. apply wp_bind. eapply wp_intro; [by apply this_block_run|]. rewrite He.
  destruct (Z.eqb_spec bus (last_bus + 1)) as [->|Hne].
  { exists []. split; [apply emits_nil|]. split; [|unfold bus_limit in *; lia]. exists [].
    split; [|split; [done|apply sublist_nil_l]].
    replace (last_bus + 1) with (last_bus + 1 + 1 - 1) at 2 by lia. constructor. }
  revert s Hs. change (does (let! p := var g_bar32_p_start in
    let! np := var g_bar32_np_start in let! p64 := var g_bar64_p_start in
    let! r := for_acc 32 0 (mk_loc bus (bus + 1) np p p64)
      (enum_device cfg (pal_pcie_enumerate_device cfg fuel) seg bus) in
    match r with inl x => ret (sub_bus x) | inr e => match e with end end) (enum_post bus)).
  do 3 dull_head. set (x0 := mk_loc _ _ _ _ _).
  eapply does_bind;
    [apply (does_for_acc (fun i y es => adds bus x0 y es /\ between bus (8 * i) y) _ 32 0 x0 [])|].
  - intros i y fs Hi [Ha Hbt].
    eapply does_mono; [apply device_does; auto|].
    + intros sec Hl Hsec Hlims. apply IH; lia.
    + intros [z|[]] gs [Ha' Hbt']. split; [by eapply adds_trans|done].
  - split; [by apply adds_nil|]. unfold between, bus_limit. cbn. lia.
  - intros [x|[]] fs [(l & Hn & Hh & Hw) (Hb1 & Hb2 & Hb3 & Hb4)]. apply does_ret.
    rewrite app_nil_r. cbn [sec_bus x0] in Hn. split.
    + exists l. split; [|split].
      * by rewrite Hb1.
      * rewrite !hits_app, H, H0, H1. done.
      * do 3 apply sublist_inserts_l. done.
    + unfold bus_limit in *. lia.
Qed.
End numbering.

(** ** The enumeration of a hierarchy *)

(** C7. [pal_pcie_enumerate_device], called on a bus of the current ECAM block,
    ends for any hardware whose buses past the block read as absent, whatever
    the configuration reads return. The Type 1 headers it read are a forest of
    bridges ([heads]) numbered depth-first from the next bus on: every number
    up to the one returned is the secondary bus of exactly one bridge, each
    bridge's subordinate number is the largest one behind it, and the bus number
    register of each bridge is written with the open range (subordinate 0xFF)
    before its bus is scanned and with the final one afterwards. *)
Theorem enumerate_device_numbers {D} {HW : Hw D} cfg blocks blk index fuel bus (s : est D) :
  (forall b, In b cfg -> ecam_base b mod 4096 = 0) ->
  nth_error blocks (Z.to_nat index) = Some blk -> 0 <= end_bus_num blk < 256 ->
  unimplemented cfg blk -> at_block blocks index s ->
  0 <= bus <= end_bus_num blk + 1 -> end_bus_num blk + 1 - bus < Z.of_nat fuel ->
  exists sub s' es l,
    pal_pcie_enumerate_device cfg fuel bus (bus + 1) s = Done sub s' /\
    p_trace (e_pci s') = rev es ++ p_trace (e_pci s) /\
    hits es = flat_map (heads cfg (segment_num blk) bus) l /\
    numbered (bus + 1) l sub /\ flat_map secs l = seqZ (bus + 1) (sub - bus) /\
    sublist (flat_map (writes cfg (segment_num blk) bus) l) es.
Proof.
  intros Hal Hi He Hun Hs Hb Hf.
  destruct (wp_done _ _ _ (enumerate_does cfg Hal blocks blk index Hi He fuel bus Hun
    ltac:(lia) ltac:(unfold bus_limit; lia) ltac:(lia) s Hs))
    as (sub & s' & Hr & es & (Ht & _) & (l & Hn & Hh & Hw) & _).
  exists sub, s', es, l. repeat (split; [done|]). split; [|done].
  rewrite (numbered_secs _ _ _ Hn). f_equal. lia.
Qed.

(** Where a BAR goes. [start] and [size] are the address and size of the
    last BAR of the kind, [own] its size if it belongs to the same Function.
    On the same bus or in the same Function the new BAR starts at or behind the
    end of the last one, so the two do not overlap; the first BAR of another bus
    is given the start address of the last BAR itself. *)
Theorem place_bar_start {D} start size lastbus bus own bar_size (s : est D) :
  let a := e_vars s start in
  let last := e_vars s size in
  0 <= a -> 0 <= last -> 0 < bar_size -> a + Z.max last bar_size < 2 ^ gwidth start ->
  own = 0 \/ own = last ->
  exists v s', place_bar start size lastbus bus own bar_size s = Done v s' /\
    e_vars s' start = v /\ (forall w, w <> start -> e_vars s' w = e_vars s w) /\
    e_pci s' = e_pci s /\
    (own <> 0 \/ e_vars s lastbus = bus -> a + last <= v <= a + Z.max last bar_size) /\
    (own = 0 -> e_vars s lastbus <> bus -> v = a).
Proof.
  intros a last Ha Hl Hsz Hw Hown. set (same := e_vars s lastbus =? bus).
  set (v := bar_next a own last bar_size same).
  assert ((own <> 0 \/ e_vars s lastbus = bus -> a + last <= v <= a + Z.max last bar_size) /\
    (own = 0 -> e_vars s lastbus <> bus -> v = a)) as [H1 H2].
  { unfold v, bar_next, same.
    destruct (Z.eqb_spec own 0), (Z.eqb_spec (e_vars s lastbus) bus), (Z.ltb_spec last bar_size);
      cbn [andb negb]; lia. }
  assert (0 <= v < 2 ^ gwidth start) as Hv.
  { destruct (Z.eq_dec own 0), (Z.eq_dec (e_vars s lastbus) bus); lia. }
  exists v, (mk_est (e_pci s) (set_var start v (e_vars s))).
  assert (set_var start v (e_vars s) start = v) as Hvar
    by (unfold set_var; rewrite decide_True by done; by apply wrap_small).
  split; [|split; [done|split; [|done]]].
  - unfold place_bar, bind, var, set, gets, modify. cbn. fold same a last v. by rewrite Hvar.
  - intros w Hne. cbn. unfold set_var. by rewrite decide_False.
Qed.

(** A block with buses 0 and 1: a root port at device 1 of bus 0, an end point
    behind it. *)
Definition demo_ecam : ecam_block := mk_ecam 0x4010000000 0 0 1.
Definition demo_config (a : Z) : Z :=
  let off := a - 0x4010000000 in
  if (off <? 0) then 0xFFFFFFFF else
  if off >> 12 =? 8 then
    match off mod 4096 with 0 => 0x11AF4 | 0x8 => 0x06040000 | 0xC => 0x10000 | _ => 0 end
  else if off >> 12 =? 256 then
    match off mod 4096 with 0 => 0x21AF4 | 0x8 => 0x01080200 | _ => 0 end
  else 0xFFFFFFFF.
#[local] Instance config_hw : Hw unit := {
  hw_read _ d a := (demo_config a, d); hw_write _ d _ _ := d; hw_at_s1e3w _ _ v := v
}.
Definition demo_state : est unit := mk_est (mk_pst tt (Some [demo_ecam]) None 0 []) vars_init.

Lemma demo_unimplemented : unimplemented [demo_ecam] demo_ecam.
Proof.
  intros d bus dev func Hb Hdev Hfn. cbn [hw_read config_hw fst].
  unfold pal_cfg_addr, pal_pcie_ecam_base, ecam_of. cbn [List.find].
  replace (decodes bus (segment_num demo_ecam) demo_ecam) with false.
  - assert (exists x, 0 <= x < 2 ^ 32 /\ demo_config (u64 (0 + u32 (bus * PCIE_MAX_DEV *
      PCIE_MAX_FUNC * PCIE_CFG_SIZE + dev * PCIE_MAX_FUNC * PCIE_CFG_SIZE +
      func * PCIE_CFG_SIZE) + 0)) = demo_config x) as (x & Hx & ->).
    { eexists. split; [|reflexivity]. set (k := _ + _ * PCIE_CFG_SIZE).
      pose proof (wrap_range 32 k ltac:(lia)). fold (u32 k) in H.
      unfold u64. rewrite wrap_small; lia. }
    unfold demo_config. destruct (Z.ltb_spec (x - 0x4010000000) 0); [done|lia].
  - cbn [end_bus_num demo_ecam] in Hb. unfold decodes. cbn [start_bus_num end_bus_num segment_num demo_ecam].
    zbool.
Qed.

Lemma enumerate_device_numbers_witness :
  exists s' es, pal_pcie_enumerate_device [demo_ecam] 3 0 1 demo_state = Done 1 s' /\
    p_trace (e_pci s') = rev es /\ hits es = [0x401000800C].
Proof.
  destruct (enumerate_device_numbers [demo_ecam] [demo_ecam] demo_ecam 0 3 0 demo_state)
    as (sub & s' & es & l & Hr & Ht & Hh & _).
  - intros b [<-|[]]. reflexivity.
  - reflexivity.
  - cbn. lia.
  - exact demo_unimplemented.
  - split; reflexivity.
  - cbn. lia.
  - cbn. lia.
  - change (0 + 1) with 1 in Hr.
    pose proof Hr as Hr2. vm_compute in Hr2. injection Hr2 as <- Hs.
    exists s', es. rewrite Ht, app_nil_r. split; [exact Hr|]. split; [reflexivity|].
    rewrite <- (rev_involutive es), <- (app_nil_r (rev es)).
    change (@nil ev) with (p_trace (e_pci demo_state)) at 1. rewrite <- Ht, <- Hs.
    vm_compute. reflexivity.
Defined.

(** An end point with a 4KB BAR on bus 0, then one on bus 1: the second BAR gets
    the address of the first. *)
Lemma place_bar_start_witness :
  let vars := set_var g_np_bar_size 0x1000 (set_var g_bar32_np_start 0x50001000 vars_init) in
  exists s', place_bar g_bar32_np_start g_np_bar_size g_np_bus 1 0 0x1000
    (mk_est (e_pci demo_state) vars) = Done 0x50001000 s'.
Proof.
  intros vars.
  destruct (place_bar_start g_bar32_np_start g_np_bar_size g_np_bus 1 0 0x1000
    (mk_est (e_pci demo_state) vars)) as (v & s' & Hr & _ & _ & _ & _ & Hv);
    [vm_compute; congruence..|left; reflexivity|].
  exists s'. rewrite Hr, Hv; [reflexivity|reflexivity|vm_compute; congruence].
Defined.
