(* ===== verification/PciePal.v ===== *)
(** * PciePal

    platform/pal_baremetal/src/pal_pcie.c: the platform's answers about PCIe
    Functions, from configuration space and from the table of the platform. *)

From Stdlib Require Import ZArith Lia Bool List String.
From stdpp Require Import base tactics numbers list gmap option.
From S2P Require Import Prelude Memory El3State Pcie PcieSpec PcieEnum.
Local Open Scope acs_scope.
Local Open Scope Z_scope.

(** ** Constants (pal_common_support.h, platform_override_fvp.h) *)
Definition TYPE01_CPR_MASK : Z := 0xff.
Definition PCIE_CIDR_MASK : Z := 0xff.
Definition PCIE_NCPR_SHIFT : Z := 8.
Definition PCIE_NCPR_MASK : Z := 0xff.
Definition PCIE_ECAP_CIDR_MASK : Z := 0xffff.
Definition PCIE_ECAP_NCPR_SHIFT : Z := 20.
Definition PCIE_ECAP_NCPR_MASK : Z := 0xfff.
Definition PCIE_DEVICE_TYPE_SHIFT : Z := 20.
Definition PCIE_DEVICE_TYPE_MASK : Z := 0xf.
Definition PCI_EXP_DEVCTL : Z := 8.
Definition DEVCTL_SNOOP_BIT : Z := 11.
Definition SECBN_SHIFT : Z := 8.
Definition SECBN_MASK : Z := 0xff.
Definition SUBBN_SHIFT : Z := 16.
Definition SUBBN_MASK : Z := 0xff.
Definition PCIECR_DPT_SHIFT : Z := 4.
Definition PCIECR_DPT_MASK : Z := 0xf.
Definition PLATFORM_PCIE_P2P_NOT_SUPPORTED : Z := 1.
Definition MEM_OFFSET_SMALL : Z := 0x10.
Definition MEM_OFFSET_MEDIUM : Z := 0x1000.

(** [PCIE_READ_BLOCK]; an interrupt list is its array and its count. *)
Record PCIE_READ_BLOCK := mk_device {
  class_code : Z; device_id : Z; vendor_id : Z;
  d_bus : Z; d_dev : Z; d_func : Z; d_seg : Z;
  dma_support : Z; dma_coherent : Z; p2p_support : Z; dma_64bit : Z;
  behind_smmu : Z; atc_present : Z; irq_map : list (list Z * Z)
}.

Section code.
Context {D : Type} {HW : Hw D}.
(** [platform_pcie_cfg] and [platform_pcie_device_hierarchy]. *)
Context (platform_pcie_cfg : list ecam_block) (platform_pcie_device_hierarchy : list PCIE_READ_BLOCK).

(** [block[0]] of the array of the platform. *)
Definition pal_pcie_get_mcfg_ecam : P D Z :=
  let! b := use (head platform_pcie_cfg) in ret (ecam_base b).

(** The table is [None] when the pointer is NULL. *)
Definition pal_pcie_create_info_table : P D unit :=
  let! info := gets p_info in
  match info with
  | None => ret tt
  | Some _ => modify (fun s => mk_pst (p_dev s) (Some platform_pcie_cfg) (p_table s)
                                 (p_list_flag s) (p_trace s))
  end.

(** ** Configuration space *)
Definition pal_pcie_read_cfg (seg bus dev func offset : Z) : P D Z :=
  pal_mmio_read (pal_cfg_addr platform_pcie_cfg seg bus dev func offset).
Definition pal_pcie_io_write_cfg (bdf offset data : Z) : P D unit :=
  pal_mmio_write (pal_cfg_addr platform_pcie_cfg (PCIE_EXTRACT_BDF_SEG bdf)
    (PCIE_EXTRACT_BDF_BUS bdf) (PCIE_EXTRACT_BDF_DEV bdf) (PCIE_EXTRACT_BDF_FUNC bdf) offset) data.

(** ** The table of the platform *)
Definition is_device (seg bus dev fn : Z) (d : PCIE_READ_BLOCK) : bool :=
  (seg =? d_seg d) && (bus =? d_bus d) && (dev =? d_dev d) && (fn =? d_func d).
(** The loop over the table the accessors share. *)
Definition device_of (seg bus dev fn : Z) : option PCIE_READ_BLOCK :=
  List.find (is_device seg bus dev fn) platform_pcie_device_hierarchy.
Definition device_field (f : PCIE_READ_BLOCK -> Z) (absent seg bus dev fn : Z) : Z :=
  match device_of seg bus dev fn with Some d => f d | None => absent end.

Definition pal_pcie_is_device_behind_smmu := device_field behind_smmu 0.
Definition pal_pcie_get_dma_support := device_field dma_support 2.
Definition pal_pcie_get_dma_coherent := device_field dma_coherent 2.
Definition pal_pcie_dev_p2p_support := device_field p2p_support 1.
Definition pal_pcie_is_devicedma_64bit := device_field dma_64bit 0.
Definition pal_pcie_is_cache_present := device_field atc_present 0.

(** The status and what is stored through [data]. *)
Definition pal_pcie_io_read_cfg (Bdf offset : Z) : Z * option Z :=
  match device_of (PCIE_EXTRACT_BDF_SEG Bdf) (PCIE_EXTRACT_BDF_BUS Bdf)
          (PCIE_EXTRACT_BDF_DEV Bdf) (PCIE_EXTRACT_BDF_FUNC Bdf) with
  | Some d => if offset =? TYPE01_RIDR then (0, Some (u32 (class_code d)))
              else (PCIE_NO_MAPPING, None)
  | None => (PCIE_NO_MAPPING, None)
  end.
Definition pal_pcie_get_legacy_irq_map (Seg Bus Dev Fn : Z) : Z * option (list (list Z * Z)) :=
  match device_of Seg Bus Dev Fn with
  | Some d => (0, Some (irq_map d))
  | None => (PCIE_NO_MAPPING, None)
  end.

(** ** Fixed answers *)
Definition pal_pcie_p2p_support : Z := PLATFORM_PCIE_P2P_NOT_SUPPORTED.
Definition pal_pcie_device_driver_present (_seg _bus _dev _fn : Z) : Z := 1.
Definition pal_get_msi_vectors (_Seg _Bus _Dev _Fn : Z) : Z := 0.
Definition pal_pcie_get_rp_transaction_frwd_support (_seg _bus _dev _fn : Z) : Z := 1.
Definition pal_pcie_is_onchip_peripheral (_bdf : Z) : Z := 0.
Definition pal_pcie_check_device_list : Z := 0.
Definition pal_pcie_mem_get_offset (type : Z) : Z :=
  if type =? MEM_OFFSET_MEDIUM then MEM_OFFSET_MEDIUM else MEM_OFFSET_SMALL.
Definition pal_pcie_bar_mem_write (_Bdf address data : Z) : P D Z :=
  pal_mmio_write address data ;; ret 0.
Definition pal_pcie_bar_mem_read (_Bdf address : Z) : P D (Z * Z) :=
  let! v := pal_mmio_read address in ret (0, v).

(** ** Headers *)

(** One Function of the scan; [inr] is the [break]. *)
Definition memtype_step (seg reg_value Bus Dev Func status : Z) : P D (Z + Z) :=
  let! header_type := pal_mmio_read (pal_cfg_addr platform_pcie_cfg seg Bus Dev Func HEADER_OFFSET) in
  if (PCIE_HEADER_TYPE header_type =? TYPE0_HEADER) &&
     ((reg_value >> SECBN_SHIFT) .& SECBN_MASK <=? Bus) &&
     (Bus <=? (reg_value >> SUBBN_SHIFT) .& SUBBN_MASK)
  then
    let! data := pal_pcie_read_cfg seg Bus Dev Func BAR0_OFFSET in
    if truthy data && truthy (data .& 0x6) then ret (inr 1) else ret (inl status)
  else ret (inl status).
(** The [break] leaves the loop over the Functions only. *)
Definition memtype_device (seg reg_value Bus Dev status : Z) : P D (Z + Empty_set) :=
  let! r := for_acc 8 0 status (memtype_step seg reg_value Bus Dev) in
  ret (inl (match r with inl status => status | inr status => status end)).
Definition pal_pcie_scan_bridge_devices_and_check_memtype (seg bus dev fn : Z) : P D Z :=
  let! reg_value := pal_pcie_read_cfg seg bus dev fn BUS_NUM_REG_OFFSET in
  let! r := for_acc 256 0 0 (fun Bus status =>
    for_acc 32 0 status (memtype_device seg reg_value Bus)) in
  match r with inl status => ret status | inr e => match e with end end.

Definition pal_pcie_get_device_type (seg bus dev fn : Z) : P D Z :=
  let! header_type := pal_pcie_read_cfg seg bus dev fn HEADER_OFFSET in
  if negb (PCIE_HEADER_TYPE header_type =? TYPE0_HEADER) then
    let! class_code := pal_pcie_read_cfg seg bus dev fn TYPE01_RIDR in
    if is_host_bridge class_code then ret 2 else ret 3
  else ret 1.

(** ** Capabilities *)

(** The walk the three capability queries share: [found] is what is done at
    the PCI Express capability. *)
Definition pcie_cap_step {R} (seg bus dev fn : Z) (dflt : R) (found : Z -> Z -> P D R)
    (next_cap_offset : Z) : P D (Z + R) :=
  if next_cap_offset =? 0 then ret (inr dflt) else
  let! reg_value := pal_pcie_read_cfg seg bus dev fn next_cap_offset in
  if reg_value .& PCIE_CIDR_MASK =? CID_PCIECS then
    let! r := found next_cap_offset reg_value in ret (inr r)
  else ret (inl ((reg_value >> PCIE_NCPR_SHIFT) .& PCIE_NCPR_MASK)).
Definition pcie_cap_walk {R} (fuel : nat) (seg bus dev fn : Z) (dflt : R)
    (found : Z -> Z -> P D R) : P D R :=
  let! reg_value := pal_pcie_read_cfg seg bus dev fn TYPE01_CPR in
  loop fuel (pcie_cap_step seg bus dev fn dflt found) (reg_value .& TYPE01_CPR_MASK).

Definition pal_pcie_get_pcie_type (fuel : nat) (seg bus dev fn : Z) : P D Z :=
  pcie_cap_walk fuel seg bus dev fn 0 (fun _ reg_value =>
    ret ((reg_value >> PCIE_DEVICE_TYPE_SHIFT) .& PCIE_DEVICE_TYPE_MASK)).

Definition pal_pcie_get_snoop_bit (fuel : nat) (seg bus dev fn : Z) : P D Z :=
  pcie_cap_walk fuel seg bus dev fn 2 (fun next_cap_offset _ =>
    let! reg_value := pal_pcie_read_cfg seg bus dev fn (next_cap_offset + PCI_EXP_DEVCTL) in
    ret ((reg_value >> DEVCTL_SNOOP_BIT) .& 0x1)).

(** One turn; the accumulator is the offset and [*val]. The walk does not stop
    at the capability, and goes on with the word read there. *)
Definition ext_cap_step (seg bus dev fn ext_cap_id offset : Z) (x : Z * option Z)
    : P D ((Z * option Z) + option Z) :=
  let '(next_cap_offset, val) := x in
  if next_cap_offset =? 0 then ret (inr val) else
  let! reg_value := pal_pcie_read_cfg seg bus dev fn next_cap_offset in
  let next v := (v >> PCIE_ECAP_NCPR_SHIFT) .& PCIE_ECAP_NCPR_MASK in
  if reg_value .& PCIE_ECAP_CIDR_MASK =? ext_cap_id then
    let! reg_value := pal_pcie_read_cfg seg bus dev fn (next_cap_offset + offset) in
    ret (inl (next reg_value, Some (reg_value .& 0xffff)))
  else ret (inl (next reg_value, val)).
Definition pal_pcie_read_ext_cap_word (fuel : nat) (seg bus dev fn ext_cap_id offset : Z)
    : P D (option Z) :=
  loop fuel (ext_cap_step seg bus dev fn ext_cap_id offset) (PCIE_ECAP_START, None).

(** ** Root ports *)

(** Does the Function with its PCI Express capability at [next_cap_offset]
    forward to bus [Bus]? *)
Definition root_port_covers (Bus seg bus dev fn next_cap_offset : Z) : P D bool :=
  let! reg_value := pal_pcie_read_cfg seg bus dev fn (next_cap_offset + CIDR_OFFSET) in
  let dp_type := (reg_value >> ((PCIECR_OFFSET - CIDR_OFFSET) * 8 + PCIECR_DPT_SHIFT))
                   .& PCIECR_DPT_MASK in
  let dp_type := 1 << dp_type in
  if (dp_type =? RP) || (dp_type =? iEP_RP) then
    let! reg_value := pal_pcie_read_cfg seg bus dev fn BUS_NUM_REG_OFFSET in
    ret (((reg_value >> SECBN_SHIFT) .& SECBN_MASK <=? Bus) &&
         (Bus <=? (reg_value >> SUBBN_SHIFT) .& SUBBN_MASK))
  else ret false.

(** The [while] over the Function table: the status and, for 0, the Function. *)
Fixpoint root_port_scan (fuel : nat) (Bus : Z) (table : list (Z * Z)) : P D (Z * option Z) :=
  match table with
  | [] => ret (1, None)
  | (bdf, _rp) :: table' =>
      let seg := PCIE_EXTRACT_BDF_SEG bdf in
      let bus := PCIE_EXTRACT_BDF_BUS bdf in
      let dev := PCIE_EXTRACT_BDF_DEV bdf in
      let func := PCIE_EXTRACT_BDF_FUNC bdf in
      let! r := pcie_cap_walk fuel seg bus dev func None (fun next_cap_offset _ =>
        let! c := root_port_covers Bus seg bus dev func next_cap_offset in ret (Some c)) in
      match r with
      | None => root_port_scan fuel Bus table'
      | Some true => ret (0, Some bdf)
      | Some false => ret (2, None)
      end
  end.

(** The status and the new values of [*Seg], [*Bus], [*Dev] and [*Func]. *)
Definition pal_pcie_get_root_port_bdf (fuel : nat) (Seg Bus Dev Func : Z)
    : P D (Z * (Z * Z * Z * Z)) :=
  let! t := gets p_table in
  let! table := use t in
  let! '(status, r) := root_port_scan fuel Bus table in
  ret (status, match r with
               | Some bdf => (PCIE_EXTRACT_BDF_SEG bdf, PCIE_EXTRACT_BDF_BUS bdf,
                              PCIE_EXTRACT_BDF_DEV bdf, PCIE_EXTRACT_BDF_FUNC bdf)
               | None => (Seg, Bus, Dev, Func)
               end).
End code.

(** The platform behind the VAL's PCIe library; what exercisers answer is left
    open. *)
#[export] Instance bm_pci (is_exerciser : Z -> bool) (exerciser_base : Z -> Z -> Z) : PciPal := {
  pcie_max_bus := PLATFORM_BM_OVERRIDE_PCIE_MAX_BUS;
  Pcie.pal_pcie_is_onchip_peripheral bdf := truthy (pal_pcie_is_onchip_peripheral bdf);
  Pcie.pal_pcie_check_device_valid bdf := negb (truthy (PcieEnum.pal_pcie_check_device_valid bdf));
  pal_is_bdf_exerciser := is_exerciser;
  pal_exerciser_mmio_base := exerciser_base;
  Pcie.pal_pcie_check_device_list := negb (truthy pal_pcie_check_device_list)
}.

(** ** The two libraries address the same registers *)

(** The VAL's configuration read and write agree with the platform's: on a
    table made by [pal_pcie_create_info_table], for a Function of a block, they
    access the same register, give the same value and leave the same state. *)
Theorem val_pal_cfg_agree {D} {HW : Hw D} {PAL : PciPal} cfg bdf b off v (s : pst D) :
  p_info s <> None -> bdf_ok bdf -> base_ok b -> 0 <= off < 4096 ->
  List.find (decodes (PCIE_EXTRACT_BDF_BUS bdf) (PCIE_EXTRACT_BDF_SEG bdf)) cfg = Some b ->
  let seg := PCIE_EXTRACT_BDF_SEG bdf in
  let bus := PCIE_EXTRACT_BDF_BUS bdf in
  let dev := PCIE_EXTRACT_BDF_DEV bdf in
  let func := PCIE_EXTRACT_BDF_FUNC bdf in
  exists s0, pal_pcie_create_info_table cfg s = Done tt s0 /\
    val_pcie_read_cfg bdf off s0 =
      (let! x := pal_pcie_read_cfg cfg seg bus dev func off in ret (0, Some x)) s0 /\
    val_pcie_write_cfg bdf off v s0 = pal_pcie_io_write_cfg cfg bdf off v s0.
Proof.
  intros Hi Hok Hb Ho Hf seg bus dev func.
  eexists. split.
  { unfold pal_pcie_create_info_table, bind, gets.
    destruct (p_info s); [reflexivity|done]. }
  set (s0 := mk_pst _ _ _ _ _).
  assert (in_block bdf b s0) as Hin by (by exists cfg).
  assert (u64 (fn_window (ecam_base b) bdf + off) = pal_cfg_addr cfg seg bus dev func off) as Ha.
  { unfold pal_cfg_addr, pal_pcie_ecam_base, ecam_of. unfold bus, seg. rewrite Hf.
    destruct Hok as (H1 & H2 & H3). unfold fn_window, fn_index, dev, func.
    unfold PCIE_MAX_DEV, PCIE_MAX_FUNC, PCIE_CFG_SIZE. f_equal. unfold u32.
    rewrite wrap_small; lia. }
  pose proof (cfg_address_ok bdf b s0 Hok Hin Hb) as Hca. split.
  - unfold val_pcie_read_cfg. rewrite (bind_done _ _ _ _ _ Hca), Ha. done.
  - unfold val_pcie_write_cfg. rewrite (bind_done _ _ _ _ _ Hca), Ha. done.
Qed.

(** ** Root port look-up *)

Section root_port.
Context {D : Type} {HW : Hw D}.
Implicit Types s : pst D.
Context (cfg : list ecam_block).
(** Configuration space that reads do not change. *)
Variable reg : Z -> Z.
Hypothesis static : forall d a, hw_read 4 d a = (reg a, d).

(** A register of a Function. *)
Definition freg (bdf off : Z) : Z :=
  u32 (reg (pal_cfg_addr cfg (PCIE_EXTRACT_BDF_SEG bdf) (PCIE_EXTRACT_BDF_BUS bdf)
              (PCIE_EXTRACT_BDF_DEV bdf) (PCIE_EXTRACT_BDF_FUNC bdf) off)).
(** [l] are the capabilities of the Function. *)
Definition caps_of (bdf : Z) (l : list Z) : Prop :=
  chain (fun o => hdr_next PCIE_CAP (freg bdf o)) (freg bdf TYPE01_CPR .& 0xff) l.
Definition pcie_cap_of (bdf : Z) (l : list Z) : option Z :=
  List.find (fun o => hdr_id PCIE_CAP (freg bdf o) =? CID_PCIECS) l.

(** The Function is a root port whose bus range holds [Bus]. *)
Definition forwards (Bus bdf off : Z) : bool :=
  let type := 1 << ((freg bdf off >> 20) .& 0xf) in
  ((type =? RP) || (type =? iEP_RP)) &&
  (((freg bdf BUS_NUM_REG_OFFSET >> 8) .& 0xff <=? Bus) &&
   (Bus <=? (freg bdf BUS_NUM_REG_OFFSET >> 16) .& 0xff)).

Lemma pal_read_run seg bus dev fn off s :
  exists s', pal_pcie_read_cfg cfg seg bus dev fn off s =
    Done (u32 (reg (pal_cfg_addr cfg seg bus dev fn off))) s' /\ reads_only s s'.
Proof.
  unfold pal_pcie_read_cfg, pal_mmio_read. rewrite static. eexists. by split.
Qed.

Lemma reads_only_trans s1 s2 s3 : reads_only s1 s2 -> reads_only s2 s3 -> reads_only s1 s3.
Proof. unfold reads_only. intuition congruence. Qed.

(** The capability walk on a well-formed list. *)
Lemma pcie_cap_walk_run {R} bdf l fuel (dflt : R) found (spec : Z -> R) s :
  caps_of bdf l -> (length l < fuel)%nat ->
  (forall o s, exists s', found o (freg bdf o) s = Done (spec o) s' /\ reads_only s s') ->
  exists s', pcie_cap_walk cfg fuel (PCIE_EXTRACT_BDF_SEG bdf) (PCIE_EXTRACT_BDF_BUS bdf)
      (PCIE_EXTRACT_BDF_DEV bdf) (PCIE_EXTRACT_BDF_FUNC bdf) dflt found s =
    Done (match pcie_cap_of bdf l with Some o => spec o | None => dflt end) s' /\ reads_only s s'.
Proof.
  intros Hc Hf Hfound. unfold pcie_cap_walk, pcie_cap_of.
  edestruct (pal_read_run) as (s1 & H1 & Hr1). rewrite (bind_done _ _ _ _ _ H1). fold (freg bdf TYPE01_CPR).
  unfold caps_of in Hc. change TYPE01_CPR_MASK with 0xff.
  revert fuel Hf s1 H1 Hr1. generalize (freg bdf TYPE01_CPR .& 0xff) as o, Hc.
  clear Hc. intros o Hc fuel Hf s1 _. revert fuel Hf s s1.
  induction Hc as [|o l Ho Hc IH]; intros fuel Hf s s1 Hr1; (destruct fuel as [|fuel]; [cbn in Hf; lia|]);
    cbn [loop length] in *; unfold pcie_cap_step at 1.
  { exists s1. done. }
  replace (o =? 0) with false by zbool.
  edestruct (pal_read_run) as (s2 & H2 & Hr2). unfold bind at 1. rewrite (bind_done _ _ _ _ _ H2).
  fold (freg bdf o). cbn [List.find]. unfold hdr_id at 1. change PCIE_CIDR_MASK with 0xff.
  destruct (_ =? CID_PCIECS).
  - destruct (Hfound o s2) as (s3 & H3 & Hr3). rewrite (bind_done _ _ _ _ _ H3).
    exists s3. split; [done|]. eauto using reads_only_trans.
  - apply (IH fuel ltac:(lia) s s2). eauto using reads_only_trans.
Qed.

Lemma covers_run Bus bdf o s :
  exists s', root_port_covers cfg Bus (PCIE_EXTRACT_BDF_SEG bdf) (PCIE_EXTRACT_BDF_BUS bdf)
      (PCIE_EXTRACT_BDF_DEV bdf) (PCIE_EXTRACT_BDF_FUNC bdf) o s =
    Done (forwards Bus bdf o) s' /\ reads_only s s'.
Proof.
  unfold root_port_covers, forwards. replace (o + CIDR_OFFSET) with o by (unfold CIDR_OFFSET; lia).
  edestruct (pal_read_run) as (s1 & H1 & Hr1). rewrite (bind_done _ _ _ _ _ H1). fold (freg bdf o).
  change ((PCIECR_OFFSET - CIDR_OFFSET) * 8 + PCIECR_DPT_SHIFT) with 20.
  change PCIECR_DPT_MASK with 0xf. cbv zeta.
  destruct (_ || _); [|by exists s1].
  edestruct (pal_read_run) as (s2 & H2 & Hr2). rewrite (bind_done _ _ _ _ _ H2).
  fold (freg bdf BUS_NUM_REG_OFFSET). exists s2. split; [done|]. eauto using reads_only_trans.
Qed.

(** What the scan answers: the first Function of the table with a PCI Express
    capability decides. *)
Fixpoint root_port_spec (Bus : Z) (table : list (Z * list Z)) : Z * option Z :=
  match table with
  | [] => (1, None)
  | (bdf, l) :: table' =>
      match pcie_cap_of bdf l with
      | None => root_port_spec Bus table'
      | Some o => if forwards Bus bdf o then (0, Some bdf) else (2, None)
      end
  end.

Lemma root_port_scan_run Bus fuel table tbl s :
  Forall2 (fun e x => fst e = fst x /\ caps_of (fst x) (snd x) /\ (length (snd x) < fuel)%nat)
    table tbl ->
  exists s', root_port_scan cfg fuel Bus table s = Done (root_port_spec Bus tbl) s' /\ reads_only s s'.
Proof.
  intros H. revert s. induction H as [|[bdf rp] [bdf' l] table tbl (Hb & Hc & Hf) _ IH]; intros s.
  { by exists s. }
  cbn [fst snd] in *. subst bdf'. cbn [root_port_scan root_port_spec].
  destruct (pcie_cap_walk_run bdf l fuel None (fun o _ =>
    let! c := root_port_covers cfg Bus (PCIE_EXTRACT_BDF_SEG bdf) (PCIE_EXTRACT_BDF_BUS bdf)
      (PCIE_EXTRACT_BDF_DEV bdf) (PCIE_EXTRACT_BDF_FUNC bdf) o in ret (Some c))
    (fun o => Some (forwards Bus bdf o)) s Hc Hf) as (s1 & H1 & Hr1).
  { intros o s'. destruct (covers_run Bus bdf o s') as (s2 & H2 & Hr2).
    exists s2. by rewrite (bind_done _ _ _ _ _ H2). }
  rewrite (bind_done _ _ _ _ _ H1). destruct (pcie_cap_of bdf l) as [o|].
  - destruct (forwards Bus bdf o); by exists s1.
  - destruct (IH s1) as (s2 & H2 & Hr2). exists s2. split; [done|]. eauto using reads_only_trans.
Qed.

(** C24. [pal_pcie_get_root_port_bdf] on well-formed capability lists ends and is
    decided by the first Function of the table that has a PCI Express
    capability: if that is a root port with the bus in its range the call
    returns 0 and its BDF, and otherwise 2, whatever root ports follow in the
    table; it returns 1 only when no Function has the capability. *)
Theorem root_port_first Seg Bus Dev Func fuel table tbl s :
  p_table s = Some table ->
  Forall2 (fun e x => fst e = fst x /\ caps_of (fst x) (snd x) /\ (length (snd x) < fuel)%nat)
    table tbl ->
  wp (pal_pcie_get_root_port_bdf cfg fuel Seg Bus Dev Func) (fun r s' =>
    r = match root_port_spec Bus tbl with
        | (status, Some bdf) => (status, (PCIE_EXTRACT_BDF_SEG bdf, PCIE_EXTRACT_BDF_BUS bdf,
                                          PCIE_EXTRACT_BDF_DEV bdf, PCIE_EXTRACT_BDF_FUNC bdf))
        | (status, None) => (status, (Seg, Bus, Dev, Func))
        end /\ reads_only s s') s.
Proof.
  intros Ht Hf. destruct (root_port_scan_run Bus fuel table tbl s Hf) as (s1 & H1 & Hr1).
  unfold wp, pal_pcie_get_root_port_bdf. unfold bind at 1, gets. rewrite Ht. cbn [use].
  rewrite bind_ret, (bind_done _ _ _ _ _ H1). destruct (root_port_spec Bus tbl) as [st [bdf|]]; done.
Qed.

(** [pal_pcie_read_ext_cap_word] does not stop at the capability it looks for
    but goes on with the word it read there as if it were a header: when the
    upper bits of that word point back to the capability the call never
    returns, whatever the rest of the list is. *)
Theorem ext_cap_word_loops bdf ext_cap_id offset fuel s :
  freg bdf PCIE_ECAP_START .& 0xffff = ext_cap_id ->
  (freg bdf (PCIE_ECAP_START + offset) >> 20) .& 0xfff = PCIE_ECAP_START ->
  pal_pcie_read_ext_cap_word cfg fuel (PCIE_EXTRACT_BDF_SEG bdf) (PCIE_EXTRACT_BDF_BUS bdf)
    (PCIE_EXTRACT_BDF_DEV bdf) (PCIE_EXTRACT_BDF_FUNC bdf) ext_cap_id offset s = NoFuel.
Proof.
  intros Hid Hnext. unfold pal_pcie_read_ext_cap_word. generalize (@None Z) as val.
  revert s. induction fuel as [|fuel IH]; intros s val; [done|]. cbn [loop].
  unfold ext_cap_step at 1. change (PCIE_ECAP_START =? 0) with false. cbv iota.
  unfold bind at 1. edestruct (pal_read_run) as (s1 & H1 & _). rewrite (bind_done _ _ _ _ _ H1).
  fold (freg bdf PCIE_ECAP_START). change PCIE_ECAP_CIDR_MASK with 0xffff.
  rewrite Hid, Z.eqb_refl. edestruct (pal_read_run) as (s2 & H2 & _).
  rewrite (bind_done _ _ _ _ _ H2). fold (freg bdf (PCIE_ECAP_START + offset)). unfold ret at 1.
  change PCIE_ECAP_NCPR_SHIFT with 20. change PCIE_ECAP_NCPR_MASK with 0xfff. rewrite Hnext.
  apply IH.
Qed.
End root_port.

(** ** Runs *)
Section runs.
(** An end point on bus 1 and the root port above it, device 1 of bus 0, each
    with its PCI Express capability at 0x40. *)
Definition rp_win : Z := 0x40000000 + 0x8000.
Definition ep_win : Z := 0x40000000 + 0x100000.
Definition rp_reg (a : Z) : Z :=
  if a =? rp_win + 0x34 then 0x40 else if a =? rp_win + 0x40 then 0x420010
  else if a =? rp_win + 0x18 then 0x010100
  else if a =? ep_win + 0x34 then 0x40 else if a =? ep_win + 0x40 then 0x020010
  else if a =? ep_win + 0x100 then 0x1000000B else if a =? ep_win + 0x104 then 0x10000042
  else 0.
Definition rp_cfg : list ecam_block := [mk_ecam 0x40000000 0 0 255].
Definition rp_state (table : list (Z * Z)) : pst unit := mk_pst tt (Some []) (Some table) 0 [].

Lemma rp_caps bdf : In bdf [0x00010000; 0x00000100] -> caps_of rp_cfg rp_reg bdf [0x40].
Proof.
  intros [<-|[<-|[]]]; (apply (chain_node _ 0x40); [done|apply chain_end]).
Qed.

Lemma val_pal_cfg_agree_witness :
  let _ := bm_pci (fun _ => false) (fun _ _ => 0) in
  val_pcie_read_cfg (HW := static_hw rp_reg) 0x00010000 0x40
    (mk_pst tt (Some rp_cfg) (Some []) 0 []) =
  Done (0, Some 0x020010) (mk_pst tt (Some rp_cfg) (Some []) 0 [EvRead 4 (ep_win + 0x40) 0x020010]).
Proof.
  intros pal.
  destruct (val_pal_cfg_agree (HW := static_hw rp_reg) rp_cfg 0x00010000
    (mk_ecam 0x40000000 0 0 255) 0x40 0 (rp_state [])) as (s0 & H0 & H & _);
    [done | repeat split; vm_compute; first [reflexivity|discriminate] ..|].
  vm_compute in H0. injection H0 as <-. etransitivity; [exact H|]. vm_compute. reflexivity.
Defined.

Lemma root_port_first_witness :
  wp (pal_pcie_get_root_port_bdf (HW := static_hw rp_reg) rp_cfg 2 0 1 0 0)
    (fun r _ => r = (2, (0, 1, 0, 0))) (rp_state [(0x00010000, 0); (0x00000100, 0)]) /\
  wp (pal_pcie_get_root_port_bdf (HW := static_hw rp_reg) rp_cfg 2 0 1 0 0)
    (fun r _ => r = (0, (0, 0, 1, 0))) (rp_state [(0x00000100, 0); (0x00010000, 0)]).
Proof.
  split; (eapply wp_mono; [|eapply (root_port_first (HW := static_hw rp_reg) rp_cfg rp_reg
    (fun d a => eq_refl)); [reflexivity|]]).
  - intros r s' [-> _].
    instantiate (1 := [(0x00010000, [0x40]); (0x00000100, [0x40])]). vm_compute. reflexivity.
  - repeat constructor; cbn; lia || (apply rp_caps; cbn; tauto).
  - intros r s' [-> _].
    instantiate (1 := [(0x00000100, [0x40]); (0x00010000, [0x40])]). vm_compute. reflexivity.
  - repeat constructor; cbn; lia || (apply rp_caps; cbn; tauto).
Defined.

Lemma ext_cap_word_loops_witness :
  pal_pcie_read_ext_cap_word (HW := static_hw rp_reg) rp_cfg 1000 0 1 0 0 0x0B 4 (rp_state []) = NoFuel.
Proof.
  apply (ext_cap_word_loops (HW := static_hw rp_reg) rp_cfg rp_reg (fun d a => eq_refl)
    0x00010000 0x0B 4); vm_compute; reflexivity.
Defined.
End runs.
