(* ===== verification/TestRun.v ===== *)
(** * TestRun

    The test runner of the VAL: val/src/acs_test_infra.c, acs_status.c,
    acs_pe_infra.c and test_entry_rme.c, with the entry function of a test
    (test_pool/rme/test_rme001.c). The main PE starts a payload on the other PEs
    and reads their results from memory they all write. *)

From Stdlib Require Import ZArith Lia Bool List.
From stdpp Require Import base tactics numbers list gmap option.
From S2P Require Import Prelude.
Local Open Scope acs_scope.
Local Open Scope Z_scope.

(** ** Constants (rme_acs_common.h, val_interface.h, rme_std_smc.h, rme_acs_pe.h) *)
Definition STATE_BIT : Z := 28.
Definition STATE_MASK : Z := 0xF.
Definition TEST_START_VAL : Z := 0x1.
Definition TEST_END_VAL : Z := 0x2.
Definition TEST_PASS_VAL : Z := 0x4.
Definition TEST_FAIL_VAL : Z := 0x8.
Definition TEST_SKIP_VAL : Z := 0x9.
Definition TEST_PENDING_VAL : Z := 0xA.
Definition TEST_NUM_BIT : Z := 12.
Definition ACS_STATUS_FAIL : Z := 0x90000000.
Definition ACS_STATUS_ERR : Z := 0xEDCB1234.
Definition ACS_STATUS_SKIP : Z := 0x10000000.
Definition ACS_STATUS_PASS : Z := 0x0.
Definition SINGLE_TEST_SENTINEL : Z := 10000.
Definition SINGLE_MODULE_SENTINEL : Z := 10001.
Definition ACS_RME_TEST_NUM_BASE : Z := 0.
Definition TIMEOUT_LARGE : Z := 0x100000.
Definition ARM_SMC_PSCI_RET_ALREADY_ON : Z := u64 (-4).
Definition MPIDR_AFF_MASK : Z := 0xFF00FFFFFF.
Definition PAL_MPIDR_AFFINITY_MASK : Z := (0xff << 32) .| (0xff << 16) .| (0xff << 8) .| 0xff.
Definition PAL_INVALID_MPID : Z := 0xFFFFFFFF.
Definition FREE_VA_TEST : Z := 0x880200000.
Definition FREE_PA_TEST : Z := 0x880300000.
Definition RESET_TST2_FLAG : Z := 34.
Definition RESET_TST12_FLAG : Z := 12.
Definition RESET_TST31_FLAG : Z := 31.
Definition RESET_TST32_FLAG : Z := 32.
Definition RESET_LS_TEST3_FLAG : Z := 503.
Definition RESET_LS_DISBL_FLAG : Z := 500.
Definition CONDUIT_SMC : Z := 0.
Definition CONDUIT_UNKNOWN : Z := -1.
Definition CONDUIT_NONE : Z := -2.

(** A status word: state, test number and check point. The macros compute in
    [int]; the result is stored in 32 bits. *)
Definition RESULT (state test_num status : Z) : Z :=
  u32 ((state << STATE_BIT) .| (test_num << TEST_NUM_BIT) .| status).
Definition RESULT_PASS : Z -> Z -> Z := RESULT TEST_PASS_VAL.
Definition RESULT_FAIL : Z -> Z -> Z := RESULT TEST_FAIL_VAL.
Definition RESULT_SKIP : Z -> Z -> Z := RESULT TEST_SKIP_VAL.
Definition RESULT_PENDING (test_num : Z) : Z := RESULT TEST_PENDING_VAL test_num 0.
Definition RME_ACS_START (test_num : Z) : Z := RESULT TEST_START_VAL test_num 0.
Definition RME_ACS_END (test_num : Z) : Z := RESULT TEST_END_VAL test_num 0.
Definition state_of (value : Z) : Z := (value >> STATE_BIT) .& STATE_MASK.
Definition IS_RESULT_PENDING (value : Z) : bool := state_of value =? TEST_PENDING_VAL.
Definition IS_TEST_PASS (value : Z) : bool := state_of value =? TEST_PASS_VAL.
Definition IS_TEST_FAIL (value : Z) : bool := state_of value =? TEST_FAIL_VAL.
Definition IS_TEST_SKIP (value : Z) : bool := state_of value =? TEST_SKIP_VAL.
Definition IS_TEST_FAIL_SKIP (value : Z) : bool := IS_TEST_FAIL value || IS_TEST_SKIP value.

(** ** State *)

(** [VAL_SHARED_MEM_t] and [PE_INFO_ENTRY]. *)
Record shmem := mk_shmem { data0 : Z; data1 : Z; sh_status : Z }.
Record pe_entry := mk_pe { pe_num : Z; mpidr : Z; pmu_gsiv : Z }.

(** What leaves the runner: reports, power state calls and cache maintenance. *)
Inductive act :=
| Report (index status : Z)
| CpuOff (mpid : Z) | SystemReset
| CacheClean (addr : Z).

(** The other PEs and the firmware behind PSCI. [others] is what the other PEs
    do to the shared array between two accesses of the PE that runs the code
    below; [cpu_on] is the call that starts one of them. *)
Class Pes (W : Type) := {
  others : W -> list shmem -> W * list shmem;
  cpu_on : Z -> W -> Z * W;
  my_mpidr : Z
}.

(** The variables of the files; [t_shared] is the array at [gSharedMemory]. *)
Record tst (W : Type) := mk_tst {
  t_world : W; t_shared : list shmem; t_pes : option (list pe_entry);
  g_rme_tests_total : Z; g_rme_tests_pass : Z; g_rme_tests_fail : Z;
  free_mem_var_pa : Z; free_mem_var_va : Z; unique_stream_id : Z; gPsciConduit : Z;
  t_acts : list act
}.
Arguments mk_tst {W}.
Arguments t_world {W}. Arguments t_shared {W}. Arguments t_pes {W}.
Arguments g_rme_tests_total {W}. Arguments g_rme_tests_pass {W}. Arguments g_rme_tests_fail {W}.
Arguments free_mem_var_pa {W}. Arguments free_mem_var_va {W}.
Arguments unique_stream_id {W}. Arguments gPsciConduit {W}. Arguments t_acts {W}.
Abbreviation T W := (M (tst W)).

Section updates.
Context {W : Type}.
Implicit Types s : tst W.
Definition upd_world (w : W) (l : list shmem) s : tst W :=
  mk_tst w l (t_pes s) (g_rme_tests_total s) (g_rme_tests_pass s) (g_rme_tests_fail s)
    (free_mem_var_pa s) (free_mem_var_va s) (unique_stream_id s) (gPsciConduit s) (t_acts s).
Definition upd_counts (total pass fail : Z) s : tst W :=
  mk_tst (t_world s) (t_shared s) (t_pes s) total pass fail
    (free_mem_var_pa s) (free_mem_var_va s) (unique_stream_id s) (gPsciConduit s) (t_acts s).
Definition upd_free (pa va stream : Z) s : tst W :=
  mk_tst (t_world s) (t_shared s) (t_pes s) (g_rme_tests_total s) (g_rme_tests_pass s)
    (g_rme_tests_fail s) pa va stream (gPsciConduit s) (t_acts s).
Definition upd_pes (t : option (list pe_entry)) (conduit : Z) s : tst W :=
  mk_tst (t_world s) (t_shared s) t (g_rme_tests_total s) (g_rme_tests_pass s)
    (g_rme_tests_fail s) (free_mem_var_pa s) (free_mem_var_va s) (unique_stream_id s) conduit
    (t_acts s).
Definition upd_acts (a : list act) s : tst W :=
  mk_tst (t_world s) (t_shared s) (t_pes s) (g_rme_tests_total s) (g_rme_tests_pass s)
    (g_rme_tests_fail s) (free_mem_var_pa s) (free_mem_var_va s) (unique_stream_id s)
    (gPsciConduit s) a.
End updates.

Section code.
Context {W : Type} {PES : Pes W}.

Definition act_out (a : act) : T W unit := modify (fun s => upd_acts (a :: t_acts s) s).

(** The other PEs run. *)
Definition run_others : T W unit := modify (fun s =>
  let '(w, l) := others (t_world s) (t_shared s) in upd_world w l s).
(** An access to entry [index] of the shared array. *)
Definition shared_read (index : Z) : T W shmem :=
  run_others ;;
  let! l := gets t_shared in
  use (l !! Z.to_nat index).
Definition shared_write (index : Z) (f : shmem -> shmem) : T W unit :=
  run_others ;;
  let! l := gets t_shared in
  let! m := use (l !! Z.to_nat index) in
  modify (fun s => upd_world (t_world s) (<[Z.to_nat index := f m]> l) s).

(** ** acs_status.c *)

(** Only the output depends on the kind of status. *)
Definition val_report_status (index status : Z) : T W unit := act_out (Report index status).
Definition val_set_status (index status : Z) : T W unit :=
  shared_write index (fun m => mk_shmem (data0 m) (data1 m) status).
Definition val_get_status (index : Z) : T W Z :=
  let! m := shared_read index in ret (sh_status m).

(** ** acs_pe_infra.c *)

Definition val_pe_get_num : T W Z :=
  let! t := gets t_pes in
  ret (match t with None => 0 | Some l => Z.of_nat (length l) end).

(** [table] is what [pal_pe_create_info_table] writes behind the pointer, which
    is NULL when it is [None]. *)
Definition val_pe_create_info_table (conduit : Z) (table : option (list pe_entry)) : T W Z :=
  let c := if (conduit =? CONDUIT_UNKNOWN) || (conduit =? CONDUIT_NONE) then CONDUIT_SMC
           else conduit in
  match table with
  | None => modify (fun s => upd_pes (t_pes s) c s) ;; ret ACS_STATUS_ERR
  | Some _ =>
      modify (upd_pes table c) ;;
      let! n := val_pe_get_num in
      ret (if n =? 0 then ACS_STATUS_ERR else ACS_STATUS_PASS)
  end.

Definition val_pe_get_mpid : T W Z := ret (my_mpidr .& MPIDR_AFF_MASK).

Definition val_pe_get_mpid_index (index : Z) : T W Z :=
  let! t := gets t_pes in
  let! l := use t in
  if Z.of_nat (length l) <? index then
    val_report_status index (RESULT_FAIL 0 0xFF) ;; ret 0xFFFFFF
  else
    let! e := use (l !! Z.to_nat index) in ret (mpidr e).

(** The [while] over the table; 0 when no entry matches. *)
Definition val_pe_get_index_mpid (mpid : Z) : T W Z :=
  let! t := gets t_pes in
  let! l := use t in
  ret (match List.find (fun e => mpidr e =? mpid) l with Some e => pe_num e | None => 0 end).
Definition my_index : T W Z :=
  let! m := val_pe_get_mpid in val_pe_get_index_mpid m.

(** The two searches of [val_get_cpuid] and [val_get_pe_id]. *)
Fixpoint index_of (mpid : Z) (l : list Z) (i : Z) : option Z :=
  match l with
  | [] => None
  | m :: l' => if mpid =? m then Some i else index_of mpid l' (i + 1)
  end.
Definition val_get_cpuid (phy_mpidr_list : list Z) (m : Z) : Z :=
  let m := m .& PAL_MPIDR_AFFINITY_MASK in
  match index_of m phy_mpidr_list 0 with
  | Some i => i
  | None => if m <? Z.of_nat (length phy_mpidr_list) then m else PAL_INVALID_MPID
  end.

(** ** Test data (acs_test_infra.c) *)

Definition val_set_test_data (index addr test_data : Z) : T W unit :=
  let! n := val_pe_get_num in
  if n <? index then ret tt else
  shared_write index (fun m => mk_shmem addr test_data (sh_status m)).
(** What is stored through [data0] and [data1], [None] when nothing is. *)
Definition val_get_test_data (index : Z) : T W (option (Z * Z)) :=
  let! n := val_pe_get_num in
  if n <? index then ret None else
  let! m := shared_read index in ret (Some (data0 m, data1 m)).

(** ** Starting the other PEs (acs_pe_infra.c) *)

(** One turn of the [do] of [val_execute_on_pe]; [Arg0] is what the firmware
    returned. *)
Definition execute_step (index payload test_input timeout : Z) : T W (Z + Z) :=
  let! mpid := val_pe_get_mpid_index index in
  val_set_test_data index payload test_input ;;
  let! w := gets t_world in
  let '(Arg0, w') := cpu_on mpid w in
  modify (fun s => upd_world w' (t_shared s) s) ;;
  if (Arg0 =? ARM_SMC_PSCI_RET_ALREADY_ON) && negb (timeout =? 0)
  then ret (inl (timeout - 1)) else ret (inr Arg0).

(** [(int)Arg0]. *)
Definition to_int (x : Z) : Z := if u32 x <? 2 ^ 31 then u32 x else u32 x - 2 ^ 32.

Definition val_execute_on_pe (fuel : nat) (index payload test_input : Z) : T W unit :=
  let! t := gets t_pes in
  let! l := use t in
  if Z.of_nat (length l) <? index then val_report_status index (RESULT_FAIL 0 0xFF) else
  let! Arg0 := loop fuel (execute_step index payload test_input) TIMEOUT_LARGE in
  if Arg0 =? 0 then ret tt
  else val_set_status index (RESULT_FAIL 0 (0x120 - to_int Arg0)).

(** The code a started PE runs: [vector] calls the function at an address. *)
Definition val_test_entry (vector : Z -> Z -> T W unit) : T W unit :=
  let! i := my_index in
  let! d := val_get_test_data i in
  let! '(addr, test_arg) := use d in
  vector addr test_arg ;;
  let! m := val_pe_get_mpid in
  act_out (CpuOff m).
Definition val_system_reset : T W unit := act_out SystemReset.

(** [2 << field] is the step; the loop walks it over the range. *)
Definition clean_step (line_length end_addr aligned_addr : Z) : T W (Z + unit) :=
  if aligned_addr <? end_addr then
    act_out (CacheClean aligned_addr) ;; ret (inl (u64 (aligned_addr + line_length)))
  else ret (inr tt).
Definition val_pe_cache_clean_range (fuel : nat) (ctr_el0 start_addr length : Z) : T W unit :=
  let line_length := 2 << ((ctr_el0 >> 16) .& 0xf) in
  let aligned_addr := start_addr - (start_addr .& (line_length - 1)) in
  loop fuel (clean_step line_length (u64 (start_addr + length))) aligned_addr.

(** ** Running a test (acs_test_infra.c) *)

Definition val_initialize_test (g_skip_test_num : list Z) (g_single_test g_single_module : Z)
    (test_num num_pe : Z) : T W Z :=
  let! index := my_index in
  val_report_status 0 (RME_ACS_START test_num) ;;
  modify (fun s => upd_counts (u32 (g_rme_tests_total s + 1)) (g_rme_tests_pass s)
                     (g_rme_tests_fail s) s) ;;
  for_range 0 num_pe (fun i => val_set_status i (RESULT_PENDING test_num)) ;;
  if existsb (Z.eqb test_num) g_skip_test_num then
    val_set_status index (RESULT_SKIP test_num 0) ;; ret ACS_STATUS_SKIP
  else if (negb (g_single_test =? SINGLE_TEST_SENTINEL) && negb (test_num =? g_single_test)) &&
          ((g_single_module =? SINGLE_MODULE_SENTINEL) ||
           ((100 <=? u32 (test_num - g_single_module)) ||
            (u32 (test_num - g_single_module) <=? 0))) then
    val_set_status index (RESULT_SKIP test_num 0) ;; ret ACS_STATUS_SKIP
  else ret ACS_STATUS_PASS.

(** One round of reads: 0, or one more than the last pending index. *)
Definition wait_round (num_pe : Z) : T W Z :=
  let! r := for_acc (Z.to_nat num_pe) 0 0 (fun i j =>
    let! st := val_get_status i in
    ret (inl (if IS_RESULT_PENDING st then i + 1 else j) : Z + Empty_set)) in
  match r with inl j => ret j | inr e => match e with end end.
(** One turn of the [while (--timeout)]: leaves with [None] when no PE is
    pending, with the last [j] when the time is over. *)
Definition wait_step (num_pe : Z) (x : Z * Z) : T W (Z * Z + option Z) :=
  let '(timeout, j) := x in
  let timeout := u32 (timeout - 1) in
  if timeout =? 0 then ret (inr (Some j)) else
  let! j := wait_round num_pe in
  if j =? 0 then ret (inr None) else ret (inl (timeout, j)).
Definition val_wait_for_test_completion (fuel : nat) (test_num num_pe timeout : Z) : T W unit :=
  if num_pe =? 1 then ret tt else
  let! r := loop fuel (wait_step num_pe) (timeout, 0) in
  match r with
  | None => ret tt
  | Some j => val_set_status (u32 (j - 1)) (RESULT_FAIL test_num 0xF)
  end.

(** [payload] is the test and [address] its address. *)
Definition val_run_test_payload (fuel : nat) (test_num num_pe : Z) (payload : T W unit)
    (address test_input : Z) : T W unit :=
  let! my := my_index in
  payload ;;
  if num_pe =? 1 then ret tt else
  for_range 0 num_pe (fun i =>
    when negb (i =? my) then val_execute_on_pe fuel i address test_input) ;;
  val_wait_for_test_completion fuel test_num num_pe TIMEOUT_LARGE.

(** The tail both branches of [val_check_for_error] share. *)
Definition count_result (status : Z) : T W Z :=
  if IS_TEST_PASS status then
    modify (fun s => upd_counts (g_rme_tests_total s) (u32 (g_rme_tests_pass s + 1))
                       (g_rme_tests_fail s) s) ;;
    ret ACS_STATUS_PASS
  else if IS_TEST_SKIP status then ret ACS_STATUS_SKIP
  else
    modify (fun s => upd_counts (g_rme_tests_total s) (g_rme_tests_pass s)
                       (u32 (g_rme_tests_fail s + 1)) s) ;;
    ret ACS_STATUS_FAIL.

(** The search for the first PE that failed or skipped; [inl] is the status of
    the last PE. *)
Definition check_step (i _status : Z) : T W (Z + Z) :=
  let! status := val_get_status i in
  if IS_TEST_FAIL_SKIP status then val_report_status i status ;; ret (inr status)
  else ret (inl status).
Definition val_check_for_error (num_pe : Z) : T W Z :=
  let! my := my_index in
  if num_pe =? 1 then
    let! status := val_get_status my in
    val_report_status my status ;;
    count_result status
  else
    let! r := for_acc (Z.to_nat num_pe) 0 0 check_step in
    match r with
    | inr status => count_result status
    | inl status => val_report_status my status ;; count_result status
    end.

(** The entry function of a test (test_rme001.c). *)
Definition test_entry (fuel : nat) (skip : list Z) (single_test single_module : Z)
    (test_num num_pe : Z) (payload : T W unit) (address : Z) : T W Z :=
  let! status := val_initialize_test skip single_test single_module test_num num_pe in
  (when negb (status =? ACS_STATUS_SKIP) then
     val_run_test_payload fuel test_num num_pe payload address 0) ;;
  let! status := val_check_for_error num_pe in
  val_report_status 0 (RME_ACS_END test_num) ;;
  ret status.

(** ** Test addresses and stream IDs *)

Definition val_get_free_pa (size alignment : Z) : T W Z :=
  let! pa := gets free_mem_var_pa in
  let mem_base := pa .& bnot 64 (alignment - 1) in
  modify (fun s => upd_free (u64 (mem_base + (if alignment <? size then size else alignment)))
                     (free_mem_var_va s) (unique_stream_id s) s) ;;
  ret mem_base.
Definition val_get_free_va (size : Z) : T W Z :=
  let! va := gets free_mem_var_va in
  modify (fun s => upd_free (free_mem_var_pa s) (u64 (va + size)) (unique_stream_id s) s) ;;
  ret va.
Definition val_generate_stream_id : T W Z :=
  let! id := gets unique_stream_id in
  let id := if 255 <? u32 (id + 1) then 1 else u32 (id + 1) in
  modify (fun s => upd_free (free_mem_var_pa s) (free_mem_var_va s) id s) ;;
  ret id.

(** ** The RME module (test_entry_rme.c) *)

(** [status |= test()] for a range of tests. *)
Fixpoint run_tests (entry : Z -> T W Z) (tests : list Z) (status : Z) : T W Z :=
  match tests with
  | [] => ret status
  | n :: tests' => let! st := entry n in run_tests entry tests' (status .| st)
  end.
(** [status = first(); status |= ...]. *)
Definition run_from (entry : Z -> T W Z) (first : Z) (rest : list Z) : T W Z :=
  let! st := entry first in run_tests entry rest st.

(** The tests behind each label fall through to the next label, whose first
    statement assigns [status]. At [reset_done_ls] it was never assigned. *)
Definition from_32 entry : T W Z := run_from entry 32 [].
Definition from_31 entry : T W Z := let! _st := run_from entry 31 [32] in from_32 entry.
Definition from_12 entry : T W Z :=
  let! _st := run_from entry 12 [13; 14; 15; 16; 17; 18; 19; 20; 21; 22; 23; 24; 25; 26; 27; 28;
                                 29; 30; 31] in
  from_31 entry.
Definition from_2 entry : T W Z :=
  let! _st := run_from entry 2 [3; 4; 5; 6; 7; 8; 9; 10; 11; 12] in from_12 entry.
Definition from_1 entry : T W Z := let! _st := run_from entry 1 [2] in from_2 entry.
Definition val_rme_execute_tests (g_skip_test_num : list Z) (g_single_test g_single_module : Z)
    (reset_status : Z) (entry : Z -> T W Z) : T W Z :=
  if existsb (fun n => n =? ACS_RME_TEST_NUM_BASE) g_skip_test_num then ret ACS_STATUS_SKIP else
  if negb (g_single_module =? SINGLE_MODULE_SENTINEL) &&
     negb (g_single_module =? ACS_RME_TEST_NUM_BASE) &&
     ((g_single_test =? SINGLE_MODULE_SENTINEL) ||
      ((100 <? u32 (g_single_test - ACS_RME_TEST_NUM_BASE)) ||
       (u32 (g_single_test - ACS_RME_TEST_NUM_BASE) <=? 0)))
  then ret ACS_STATUS_SKIP else
  if reset_status =? RESET_TST12_FLAG then from_12 entry
  else if reset_status =? RESET_TST31_FLAG then from_31 entry
  else if reset_status =? RESET_TST32_FLAG then from_32 entry
  else if reset_status =? RESET_TST2_FLAG then from_2 entry
  else if (reset_status =? RESET_LS_DISBL_FLAG) || (reset_status =? RESET_LS_TEST3_FLAG)
  then undef
  else from_1 entry.
End code.
