(* ===== verification/TestRunSpec.v ===== *)
(** * TestRunSpec

    Theorems on the test runner: the wait always ends, a multi-PE test is never
    reported as passed while a PE is pending, failed or skipped, the status of
    the module is that of its last test, and the address and stream ID
    generators. *)

From Stdlib Require Import ZArith Lia Bool List.
From stdpp Require Import base tactics numbers list gmap option.
From S2P Require Import Prelude TestRun.
Local Open Scope acs_scope.
Local Open Scope Z_scope.

Lemma wp_and {S A} (m : M S A) (P Q : A -> S -> Prop) s :
  wp m P s -> wp m Q s -> wp m (fun a s' => P a s' /\ Q a s') s.
Proof. unfold wp. by destruct (m s). Qed.

(** ** Status words *)

Lemma state_of_result state test_num status :
  0 <= state < 16 -> 0 <= test_num < 2 ^ 16 -> 0 <= status < 2 ^ 28 ->
  state_of (RESULT state test_num status) = state.
Proof.
  intros Hs Ht Hc. unfold state_of, RESULT, u32, STATE_BIT, STATE_MASK, TEST_NUM_BIT.
  change 0xF with (Z.ones 4). apply (bits_ext 4); [lia| |lia|].
  { rewrite Z.land_ones by lia. apply Z.mod_pos_bound. lia. }
  intros i Hi.
  rewrite Z.land_spec, Z.testbit_ones, Z.shiftr_spec, testbit_wrap, !Z.lor_spec, !Z.shiftl_spec by lia.
  replace (i + 28 <? 32) with true by lia. replace (0 <=? i) with true by lia.
  replace (i <? 4) with true by lia. rewrite !andb_true_r.
  replace (i + 28 - 28) with i by lia.
  rewrite (testbit_high 16 test_num) by lia. rewrite (testbit_high 28 status) by lia.
  by rewrite !orb_false_r.
Qed.

(** The results a PE may leave, and what the runner reads as one. *)
Definition result_word (st : Z) : bool := IS_TEST_PASS st || IS_TEST_FAIL_SKIP st.
Definition valid_word (st : Z) : bool := IS_RESULT_PENDING st || result_word st.

Lemma fail_word test_num c : 0 <= test_num < 2 ^ 16 -> 0 <= c < 2 ^ 28 ->
  IS_TEST_FAIL (RESULT_FAIL test_num c) = true.
Proof. intros Ht Hc. unfold IS_TEST_FAIL, RESULT_FAIL. by rewrite state_of_result. Qed.
Lemma skip_word test_num : 0 <= test_num < 2 ^ 16 ->
  IS_TEST_SKIP (RESULT_SKIP test_num 0) = true.
Proof. intros Ht. unfold IS_TEST_SKIP, RESULT_SKIP. by rewrite state_of_result. Qed.
Lemma pending_word test_num : 0 <= test_num < 2 ^ 16 ->
  IS_RESULT_PENDING (RESULT_PENDING test_num) = true.
Proof. intros Ht. unfold IS_RESULT_PENDING, RESULT_PENDING. by rewrite state_of_result. Qed.

Lemma fail_skip_valid st : IS_TEST_FAIL_SKIP st = true -> valid_word st = true.
Proof. unfold valid_word, result_word. intros ->. by rewrite !orb_true_r. Qed.
Lemma fail_is_fail_skip st : IS_TEST_FAIL st = true -> IS_TEST_FAIL_SKIP st = true.
Proof. unfold IS_TEST_FAIL_SKIP. by intros ->. Qed.

(** The states exclude each other. *)
Lemma fail_skip_not_pass st : IS_TEST_FAIL_SKIP st = true -> IS_TEST_PASS st = false.
Proof.
  unfold IS_TEST_FAIL_SKIP, IS_TEST_FAIL, IS_TEST_SKIP, IS_TEST_PASS,
    TEST_FAIL_VAL, TEST_SKIP_VAL, TEST_PASS_VAL.
  destruct (Z.eqb_spec (state_of st) 8), (Z.eqb_spec (state_of st) 9),
    (Z.eqb_spec (state_of st) 4); cbn; congruence || lia.
Qed.
Lemma result_not_pending st : result_word st = true -> IS_RESULT_PENDING st = false.
Proof.
  unfold result_word, IS_TEST_FAIL_SKIP, IS_TEST_FAIL, IS_TEST_SKIP, IS_TEST_PASS,
    IS_RESULT_PENDING, TEST_FAIL_VAL, TEST_SKIP_VAL, TEST_PASS_VAL, TEST_PENDING_VAL.
  destruct (Z.eqb_spec (state_of st) 8), (Z.eqb_spec (state_of st) 9),
    (Z.eqb_spec (state_of st) 4), (Z.eqb_spec (state_of st) 10); cbn; congruence || lia.
Qed.

(** ** The other PEs *)

(** A PE that is pending may leave its result, once; nothing else changes. *)
Definition may_settle (m m' : shmem) : Prop :=
  sh_status m' = sh_status m \/
  (IS_RESULT_PENDING (sh_status m) = true /\ result_word (sh_status m') = true).

Section runner.
Context {W : Type} {PES : Pes W}.
Implicit Types s : tst W.
Context (n : nat) (pes : list pe_entry).
Hypothesis others_settle : forall w l, Forall2 may_settle l (snd (others w l)).
(** What PSCI documents: success or a small negative error. *)
Hypothesis psci_codes : forall m w, exists c, -8 <= c <= 0 /\ fst (cpu_on m w) = u64 c.
Hypothesis pes_count : length pes = n.
Hypothesis pes_index : forall e, In e pes -> 0 <= pe_num e < Z.of_nat n.
Hypothesis some_pe : 1 <= Z.of_nat n < 2 ^ 31.

(** The array has one valid status per PE of the table. *)
Definition ok s : Prop :=
  t_pes s = Some pes /\ length (t_shared s) = n /\
  Forall (fun m => valid_word (sh_status m) = true) (t_shared s).
(** Entry [i] holds a status that satisfies [P]. *)
Definition at_pe (P : Z -> Prop) (i : nat) s : Prop :=
  exists m, t_shared s !! i = Some m /\ P (sh_status m).
Definition settled (st : Z) : Prop := result_word st = true.

Lemma may_settle_valid m m' : may_settle m m' -> valid_word (sh_status m) = true ->
  valid_word (sh_status m') = true.
Proof.
  intros [->|[_ Hr]] H; [done|]. unfold valid_word. by rewrite Hr, orb_true_r.
Qed.
Lemma may_settle_result m m' : may_settle m m' -> settled (sh_status m) ->
  sh_status m' = sh_status m.
Proof. intros [He|[Hp _]] H; [done|]. by rewrite (result_not_pending _ H) in Hp. Qed.

(** What an access keeps: [ok] and every result already there. *)
Definition later s s' : Prop :=
  ok s' /\ forall i st, at_pe (fun x => x = st /\ settled x) i s ->
                        at_pe (fun x => x = st /\ settled x) i s'.

Lemma later_refl s : ok s -> later s s.
Proof. done. Qed.
Lemma later_trans s1 s2 s3 : later s1 s2 -> later s2 s3 -> later s1 s3.
Proof. intros [_ H12] [H3 H23]. split; auto. Qed.
Lemma later_at (P : Z -> Prop) i s s' : later s s' -> at_pe (fun x => P x /\ settled x) i s ->
  at_pe (fun x => P x /\ settled x) i s'.
Proof.
  intros [_ H] (m & Hm & HP & Hs). destruct (H i (sh_status m)) as (m' & Hm' & He & Hs');
    [by exists m|]. exists m'. by rewrite He.
Qed.

Lemma others_later s : ok s -> wp run_others (fun _ s' => later s s') s.
Proof.
  intros (Hp & Hl & Hv). unfold run_others, modify, wp.
  pose proof (others_settle (t_world s) (t_shared s)) as Ho.
  destruct (others _ _) as [w l]. cbn [snd] in Ho. split; [split; [done|split]|]; cbn.
  - rewrite <- Hl. symmetry. by eapply Forall2_length.
  - clear Hl. revert Hv. induction Ho as [|m m' k k' Hm _ IH]; [done|]. intros Hv.
    inversion Hv as [|? ? Hv1 Hv2]; subst. constructor; [by eapply may_settle_valid|auto].
  - intros i st (m & Hm & <- & Hs). cbn in *.
    destruct (Forall2_lookup_l _ _ _ _ _ Ho Hm) as (m' & Hm' & Hmm).
    exists m'. split; [done|]. by rewrite (may_settle_result m m').
Qed.

Lemma ok_lookup s i : ok s -> 0 <= i < Z.of_nat n ->
  exists m, t_shared s !! Z.to_nat i = Some m /\ valid_word (sh_status m) = true.
Proof.
  intros (_ & Hl & Hv) Hi. destruct (lookup_lt_is_Some_2 (t_shared s) (Z.to_nat i)) as [m Hm]; [lia|].
  exists m. split; [done|]. rewrite Forall_lookup in Hv. by eapply Hv.
Qed.

Lemma get_status_later i s : ok s -> 0 <= i < Z.of_nat n ->
  wp (val_get_status i) (fun st s' => later s s' /\ valid_word st = true /\
    at_pe (fun x => x = st) (Z.to_nat i) s') s.
Proof.
  intros Hok Hi. unfold val_get_status, shared_read. do 2 apply wp_bind.
  eapply wp_mono; [|by apply others_later]. intros [] s1 H1. apply wp_bind. cbn.
  destruct (ok_lookup s1 i) as (m & Hm & Hv); [apply H1|done|]. rewrite Hm. cbn.
  split; [done|]. split; [done|]. by exists m.
Qed.

(** A write to entry [i] that leaves a valid status; results of the other
    entries stay. *)
Lemma shared_write_ok i f s : ok s -> 0 <= i < Z.of_nat n ->
  (forall m, valid_word (sh_status m) = true -> valid_word (sh_status (f m)) = true) ->
  wp (shared_write i f) (fun _ s' => ok s' /\
    at_pe (fun x => exists m, x = sh_status (f m)) (Z.to_nat i) s' /\
    ((forall m, sh_status (f m) = sh_status m) -> later s s')) s.
Proof.
  intros Hok Hi Hf. unfold shared_write. apply wp_bind.
  eapply wp_mono; [|by apply others_later]. intros [] s1 H1.
  destruct (ok_lookup s1 i) as (m & Hm & Hv); [apply H1|done|].
  apply wp_bind, wp_gets, wp_bind. rewrite Hm. cbn. destruct H1 as [(Hp & Hl & Hva) Hr].
  assert (t_shared s1 !! Z.to_nat i = Some m) as Hm' by done.
  apply lookup_lt_Some in Hm'. split; [|split].
  - split; [done|]. cbn. rewrite length_insert. split; [done|]. by apply Forall_insert; [|apply Hf].
  - exists (f m). cbn. rewrite list_lookup_insert_eq by done. split; [done|by exists m].
  - intros Hsame. split; [split; [done|]; cbn; rewrite length_insert; split; [done|];
      by apply Forall_insert; [|apply Hf]|].
    intros k st Hk. destruct (Hr k st Hk) as (m1 & Hm1 & Hst). cbn.
    destruct (decide (k = Z.to_nat i)) as [->|Hne].
    + exists (f m). cbn. rewrite list_lookup_insert_eq by done. split; [done|].
      rewrite Hsame. by simplify_eq.
    + exists m1. cbn. by rewrite list_lookup_insert_ne by done.
Qed.

Lemma set_status_ok i st s : ok s -> 0 <= i < Z.of_nat n -> valid_word st = true ->
  wp (val_set_status i st) (fun _ s' => ok s' /\ at_pe (fun x => x = st) (Z.to_nat i) s') s.
Proof.
  intros Hok Hi Hv. eapply wp_mono; [|apply shared_write_ok; done].
  intros [] s' (H1 & (m & Hm & (m' & He)) & _). split; [done|]. exists m. by rewrite He.
Qed.

(** ** Waiting *)

Definition all_settled s : Prop :=
  forall k, (k < n)%nat -> at_pe settled k s.
Definition some_failed s : Prop :=
  exists k, (k < n)%nat /\ at_pe (fun x => IS_TEST_FAIL_SKIP x = true /\ settled x) k s.

Lemma fail_settled st : IS_TEST_FAIL_SKIP st = true -> settled st.
Proof. unfold settled, result_word. intros ->. apply orb_true_r. Qed.

Lemma settled_later k s s' : later s s' -> at_pe settled k s -> at_pe settled k s'.
Proof.
  intros Hl (m & Hm & Hs). destruct (later_at (fun _ => True) k s s' Hl) as (m' & Hm' & _ & Hs').
  - by exists m.
  - by exists m'.
Qed.

Lemma wait_round_run s : ok s ->
  wp (wait_round (Z.of_nat n)) (fun j s' => later s s' /\ 0 <= j <= Z.of_nat n /\
    (j = 0 -> all_settled s')) s.
Proof.
  intros Hok. unfold wait_round. apply wp_bind. rewrite Nat2Z.id.
  eapply wp_mono; [|apply (wp_for_acc (fun i j s' => later s s' /\ 0 <= j <= i /\
    (j = 0 -> forall k, (k < Z.to_nat i)%nat -> at_pe settled k s')) (fun (e : Empty_set) _ => match e with end))].
  - intros [j|[]] s' (Hl & Hj & Hs). apply wp_ret. split; [done|]. split; [lia|].
    intros Hj0 k Hk. apply Hs; [done|lia].
  - intros i j s1 Hi (Hl & Hj & Hs). apply wp_bind.
    eapply wp_mono; [|apply get_status_later; [apply Hl|lia]].
    intros st s2 (Hl2 & Hv & m & Hm & Hst). cbn. split; [by eapply later_trans|].
    destruct (IS_RESULT_PENDING st) eqn:Hp; [split; [lia|lia]|]. split; [lia|].
    intros Hj0 k Hk. destruct (decide (k = Z.to_nat i)) as [->|Hne].
    + exists m. split; [done|]. rewrite Hst. unfold settled.
      unfold valid_word in Hv. by rewrite Hp in Hv.
    + eapply settled_later; [done|]. apply Hs; [done|lia].
  - split; [by apply later_refl|]. split; [lia|]. intros _ k Hk. lia.
Qed.

Lemma wait_run fuel test_num timeout s : ok s -> 0 <= test_num < 2 ^ 16 ->
  2 <= timeout < 2 ^ 32 -> timeout < Z.of_nat fuel -> (2 <= n)%nat ->
  wp (val_wait_for_test_completion fuel test_num (Z.of_nat n) timeout) (fun _ s' =>
    ok s' /\ (all_settled s' \/ some_failed s')) s.
Proof.
  intros Hok Ht Hto Hf Hn. unfold val_wait_for_test_completion.
  replace (Z.of_nat n =? 1) with false by (symmetry; apply Z.eqb_neq; lia).
  apply wp_bind. eapply wp_mono;
    [|apply (wp_loop (fun k x s' => let '(t, j) := x in ok s' /\ k = Z.to_nat t /\
        1 <= t <= timeout /\ 0 <= j <= Z.of_nat n /\ (j = 0 -> t = timeout))
      (wait_step (Z.of_nat n))
      (fun r s' => ok s' /\ match r with None => all_settled s' | Some j => 1 <= j <= Z.of_nat n end))
      with (n := Z.to_nat timeout)].
  - intros [j|] s' [Hok' Hr]; [|split; auto]. unfold u32. rewrite wrap_small by lia.
    assert (IS_TEST_FAIL (RESULT_FAIL test_num 0xF) = true) as Hfail by (apply fail_word; lia).
    apply fail_is_fail_skip in Hfail.
    eapply wp_mono; [|apply set_status_ok; [done|lia|by apply fail_skip_valid]].
    intros [] s2 [Hok2 (m & Hm & He)]. split; [done|]. right. exists (Z.to_nat (j - 1)).
    split; [lia|]. exists m. rewrite He. split; [done|]. split; [done|by apply fail_settled].
  - intros k [t j] s' (Hok' & -> & Ht1 & Hj & Hj0). unfold wait_step, u32.
    rewrite wrap_small by lia. destruct (Z.eqb_spec (t - 1) 0).
    { apply wp_ret. split; [done|]. lia. }
    apply wp_bind. eapply wp_mono; [|by apply wait_round_run].
    intros j' s2 ([Hok2 _] & Hj' & Hs). destruct (Z.eqb_spec j' 0); cbn; [by auto|].
    exists (Z.to_nat (t - 1)). split; [lia|]. split; [done|]. split; [done|]. lia.
  - lia.
  - split; [done|]. split; [done|]. lia.
Qed.

(** ** Checking *)

Definition all_passed s : Prop :=
  forall k m, t_shared s !! k = Some m -> IS_TEST_PASS (sh_status m) = true.

Lemma count_result_run status s : wp (count_result status) (fun r s' =>
  (r = ACS_STATUS_PASS -> IS_TEST_PASS status = true) /\ t_shared s' = t_shared s /\
  t_pes s' = t_pes s) s.
Proof. unfold count_result. destruct (IS_TEST_PASS status), (IS_TEST_SKIP status); done. Qed.

Lemma my_index_run s : t_pes s = Some pes ->
  wp my_index (fun i s' => s' = s /\ 0 <= i < Z.of_nat n) s.
Proof.
  intros Hp. unfold my_index, val_pe_get_index_mpid, wp, bind, ret, gets, val_pe_get_mpid.
  cbn. rewrite Hp. cbn. split; [done|]. destruct (List.find _ pes) as [e|] eqn:Hf; [|lia].
  apply find_some in Hf as [Hin _]. by apply pes_index.
Qed.

Lemma check_run s : ok s -> (2 <= n)%nat -> all_settled s \/ some_failed s ->
  wp (val_check_for_error (Z.of_nat n)) (fun r s' => r = ACS_STATUS_PASS -> all_passed s') s.
Proof.
  intros Hok Hn Hs. unfold val_check_for_error. apply wp_bind.
  eapply wp_mono; [|apply my_index_run, Hok]. intros my s0 [-> _].
  replace (Z.of_nat n =? 1) with false by (symmetry; apply Z.eqb_neq; lia).
  apply wp_bind. rewrite Nat2Z.id.
  set (passed k s' := at_pe (fun x => IS_TEST_PASS x = true /\ settled x) k s').
  eapply wp_mono; [|apply (wp_for_acc (fun i _ s' => later s s' /\
      (all_settled s -> forall k, (k < Z.to_nat i)%nat -> passed k s') /\
      (forall k, (k < Z.to_nat i)%nat -> ~ at_pe (fun x => IS_TEST_FAIL_SKIP x = true /\ settled x) k s))
    (fun st _ => IS_TEST_FAIL_SKIP st = true))].
  - intros [st|st] s' Hr.
    + destruct Hr as (Hl & Hp & Hnf). apply wp_bind. cbn.
      eapply wp_mono; [|apply count_result_run]. intros r s2 (_ & Hsh & _) _.
      destruct Hs as [Hall|(k & Hk & Hf)]; [|exfalso; apply (Hnf k); [lia|done]].
      intros k m Hm. rewrite Hsh in Hm. cbn in Hm.
      assert (k < n)%nat as Hk. { apply lookup_lt_Some in Hm. by rewrite (proj1 (proj2 (proj1 Hl))) in Hm. }
      destruct (Hp Hall k) as (m' & Hm' & Hpm & _); [lia|]. by simplify_eq.
    + eapply wp_mono; [|apply count_result_run]. intros r s2 (Hr2 & _) He.
      apply fail_skip_not_pass in Hr. apply Hr2 in He. congruence.
  - intros i st s1 Hi (Hl & Hp & Hnf). unfold check_step. apply wp_bind.
    eapply wp_mono; [|apply get_status_later; [apply Hl|lia]].
    intros st' s2 (Hl2 & Hv & m & Hm & Hst).
    destruct (IS_TEST_FAIL_SKIP st') eqn:Hfs; [done|]. apply wp_ret.
    assert (later s s2) as Hl02 by (by eapply later_trans). split; [done|]. split.
    + intros Hall k Hk. destruct (decide (k = Z.to_nat i)) as [->|Hne].
      * destruct (settled_later (Z.to_nat i) s s2 Hl02) as (m' & Hm' & Hs'); [apply Hall; lia|].
        exists m. split; [done|]. simplify_eq. split; [|done].
        unfold settled, result_word in Hs'. rewrite Hfs, orb_false_r in Hs'. done.
      * apply (later_at (fun x => IS_TEST_PASS x = true) k s1 s2 Hl2). apply Hp; [done|lia].
    + intros k Hk Hf. destruct (decide (k = Z.to_nat i)) as [->|Hne]; [|apply (Hnf k); [lia|done]].
      destruct (later_at (fun x => IS_TEST_FAIL_SKIP x = true) _ s s2 Hl02 Hf) as (m' & Hm' & Hf' & _).
      simplify_eq. congruence.
  - split; [by apply later_refl|]. split; intros; lia.
Qed.

(** ** Starting the other PEs *)

Lemma to_int_code c : -8 <= c < 0 -> to_int (u64 c) = c.
Proof.
  intros Hc. unfold to_int, u32, u64.
  assert (wrap 32 (wrap 64 c) = c + 2 ^ 32) as ->.
  { unfold wrap. rewrite Z.mod_mod_divide by (exists (2 ^ 32); lia).
    rewrite <- (Z.mod_small (c + 2 ^ 32) (2 ^ 32)) by lia.
    by rewrite <- Zplus_mod_idemp_r, Z_mod_same_full, Z.add_0_r. }
  destruct (Z.ltb_spec (c + 2 ^ 32) (2 ^ 31)); lia.
Qed.

Lemma execute_step_run i addr input timeout s : ok s -> 0 <= i < Z.of_nat n -> 0 <= timeout ->
  wp (execute_step i addr input timeout) (fun r s' => ok s' /\ match r with
    | inl t' => t' = timeout - 1 /\ 0 < timeout
    | inr Arg0 => exists c, -8 <= c <= 0 /\ Arg0 = u64 c
    end) s.
Proof.
  intros Hok Hi Ht. unfold execute_step, val_pe_get_mpid_index. do 2 apply wp_bind.
  apply wp_gets, wp_bind. pose proof Hok as (Hp & _). rewrite Hp. cbn.
  assert (Z.of_nat (length pes) = Z.of_nat n) as -> by lia.
  replace (Z.of_nat n <? i) with false by (symmetry; apply Z.ltb_ge; lia).
  destruct (lookup_lt_is_Some_2 pes (Z.to_nat i)) as [e He]; [lia|]. rewrite He. cbn.
  apply wp_bind. unfold val_set_test_data, val_pe_get_num. do 2 apply wp_bind. apply wp_gets.
  rewrite Hp. cbn. assert (Z.of_nat (length pes) = Z.of_nat n) as -> by lia.
  replace (Z.of_nat n <? i) with false by (symmetry; apply Z.ltb_ge; lia).
  eapply wp_mono; [|by apply shared_write_ok]. intros [] s1 (Hok1 & _). apply wp_bind. cbn.
  destruct (psci_codes (mpidr e) (t_world s1)) as (c & Hc & Ha).
  destruct (cpu_on (mpidr e) (t_world s1)) as [Arg0 w'] eqn:Hon. cbn in Ha. subst Arg0.
  apply wp_bind. cbn. destruct (_ && _) eqn:Hb; cbn; (split; [exact Hok1|]).
  - apply andb_prop in Hb as [_ Hb]. destruct (Z.eqb_spec timeout 0); [done|lia].
  - by exists c.
Qed.

Lemma execute_run fuel i addr input s : ok s -> 0 <= i < Z.of_nat n ->
  TIMEOUT_LARGE < Z.of_nat fuel -> wp (val_execute_on_pe fuel i addr input) (fun _ => ok) s.
Proof.
  intros Hok Hi Hf. unfold val_execute_on_pe. apply wp_bind, wp_gets, wp_bind.
  pose proof Hok as (Hp & _). rewrite Hp. cbn.
  assert (Z.of_nat (length pes) = Z.of_nat n) as -> by lia.
  replace (Z.of_nat n <? i) with false by (symmetry; apply Z.ltb_ge; lia).
  apply wp_bind. eapply wp_mono;
    [|apply (wp_loop (fun k t s' => ok s' /\ k = Z.to_nat t /\ 0 <= t) (execute_step i addr input)
      (fun Arg0 s' => ok s' /\ exists c, -8 <= c <= 0 /\ Arg0 = u64 c))
      with (n := Z.to_nat TIMEOUT_LARGE)].
  - intros Arg0 s1 (Hok1 & c & Hc & ->). destruct (Z.eqb_spec (u64 c) 0) as [_|Hne]; [done|].
    assert (c <> 0) by (intros ->; by apply Hne).
    rewrite to_int_code by lia.
    assert (IS_TEST_FAIL (RESULT_FAIL 0 (0x120 - c)) = true) as Hfail by (apply fail_word; lia).
    apply fail_is_fail_skip, fail_skip_valid in Hfail.
    eapply wp_mono; [|by apply set_status_ok]. by intros [] s2 [? _].
  - intros k t s1 (Hok1 & -> & Ht). eapply wp_mono; [|by apply execute_step_run].
    intros [t'|Arg0] s2 [Hok2 Hr]; [|done]. destruct Hr as [-> Hpos].
    exists (Z.to_nat (t - 1)). split; [lia|]. split; [done|]. split; [done|lia].
  - unfold TIMEOUT_LARGE in *. lia.
  - split; [done|]. split; [done|]. unfold TIMEOUT_LARGE. lia.
Qed.

(** ** The start of a test *)

(** The memory as it is allocated: [k] entries have been initialised. *)
Definition fresh_to (k : Z) s : Prop :=
  t_pes s = Some pes /\ length (t_shared s) = n /\
  forall i m, (Z.of_nat i < k) -> t_shared s !! i = Some m -> valid_word (sh_status m) = true.

Lemma fresh_ok s : fresh_to (Z.of_nat n) s -> ok s.
Proof.
  intros (Hp & Hl & Hv). split; [done|]. split; [done|]. apply Forall_lookup. intros i m Hm.
  apply (Hv i m); [|done]. apply lookup_lt_Some in Hm. lia.
Qed.

Lemma init_entry k st s : fresh_to k s -> 0 <= k < Z.of_nat n -> valid_word st = true ->
  wp (val_set_status k st) (fun _ => fresh_to (k + 1)) s.
Proof.
  intros (Hp & Hl & Hv) Hk Hst. unfold val_set_status, shared_write.
  apply wp_bind. unfold run_others, modify, wp at 1.
  pose proof (others_settle (t_world s) (t_shared s)) as Ho.
  destruct (others _ _) as [w l]. cbn [snd] in Ho.
  apply wp_bind, wp_gets, wp_bind. cbn.
  assert (length l = n) as Hln by (rewrite <- Hl; symmetry; by eapply Forall2_length).
  destruct (lookup_lt_is_Some_2 l (Z.to_nat k)) as [m Hm]; [lia|]. rewrite Hm. cbn.
  split; [done|]. cbn. rewrite length_insert. split; [done|]. intros i m' Hi Hm'.
  destruct (decide (i = Z.to_nat k)) as [->|Hne].
  - rewrite list_lookup_insert_eq in Hm' by lia. by injection Hm' as <-.
  - rewrite list_lookup_insert_ne in Hm' by done.
    destruct (Forall2_lookup_r _ _ _ _ _ Ho Hm') as (m0 & Hm0 & Hmm).
    eapply may_settle_valid; [done|]. apply (Hv i m0); [lia|done].
Qed.

Lemma init_run skip single module test_num s : fresh_to 0 s -> 0 <= test_num < 2 ^ 16 ->
  wp (val_initialize_test skip single module test_num (Z.of_nat n)) (fun r s' =>
    ok s' /\ (r = ACS_STATUS_SKIP -> some_failed s')) s.
Proof.
  intros Hf Ht. unfold val_initialize_test. apply wp_bind.
  eapply wp_mono; [|apply my_index_run, Hf]. intros my s0 [-> Hmy].
  apply wp_bind. cbn. apply wp_bind. cbn. apply wp_bind. unfold for_range.
  replace (Z.to_nat (Z.of_nat n - 0)) with n by lia.
  assert (valid_word (RESULT_PENDING test_num) = true) as Hpend.
  { unfold valid_word. by rewrite pending_word. }
  eapply wp_mono; [|apply (wp_for_n (fun i => fresh_to i) (fun i =>
    val_set_status i (RESULT_PENDING test_num)))].
  2: { intros i s1 Hi Hf1. apply init_entry; [done|lia|done]. }
  2: { exact Hf. }
  intros [] s1 Hf1. apply fresh_ok in Hf1.
  assert (wp (val_set_status my (RESULT_SKIP test_num 0) ;; ret ACS_STATUS_SKIP)
    (fun r s' => ok s' /\ (r = ACS_STATUS_SKIP -> some_failed s')) s1) as Hskip.
  { pose proof (skip_word test_num Ht) as Hsk.
    assert (IS_TEST_FAIL_SKIP (RESULT_SKIP test_num 0) = true) as Hfs
      by (unfold IS_TEST_FAIL_SKIP; by rewrite Hsk, orb_true_r).
    apply wp_bind. eapply wp_mono; [|apply set_status_ok; [done|lia|by apply fail_skip_valid]].
    intros [] s2 [Hok2 (m & Hm & He)]. apply wp_ret. split; [done|]. intros _.
    exists (Z.to_nat my). split; [lia|]. exists m. rewrite He. split; [done|].
    split; [done|by apply fail_settled]. }
  destruct (existsb _ _); [done|]. destruct (_ && _); [done|]. by apply wp_ret.
Qed.

Lemma run_payload_run fuel test_num payload addr input s :
  (forall s, ok s -> wp payload (fun _ => ok) s) -> ok s -> 0 <= test_num < 2 ^ 16 ->
  (2 <= n)%nat -> TIMEOUT_LARGE < Z.of_nat fuel ->
  wp (val_run_test_payload fuel test_num (Z.of_nat n) payload addr input) (fun _ s' =>
    ok s' /\ (all_settled s' \/ some_failed s')) s.
Proof.
  intros Hpay Hok Ht Hn Hf. unfold val_run_test_payload. apply wp_bind.
  eapply wp_mono; [|apply my_index_run, Hok]. intros my s0 [-> _]. apply wp_bind.
  eapply wp_mono; [|by apply Hpay]. intros [] s1 Hok1.
  replace (Z.of_nat n =? 1) with false by (symmetry; apply Z.eqb_neq; lia).
  apply wp_bind. unfold for_range. replace (Z.to_nat (Z.of_nat n - 0)) with n by lia.
  eapply wp_mono; [|apply (wp_for_n (fun _ => ok) (fun i =>
    when negb (i =? my) then val_execute_on_pe fuel i addr input))].
  - intros [] s2 Hok2. apply wait_run; unfold TIMEOUT_LARGE in *; done || lia.
  - intros i s2 Hi Hok2. destruct (negb _); [|by apply wp_ret].
    apply execute_run; [done|lia|done].
  - done.
Qed.

(** C12. A test on several PEs that is reported as passed has passed on every PE.
    Whatever the other PEs do between two accesses, as long as each leaves one
    result, whatever the payload does and whatever PSCI answers, the entry
    function of a test returns within its time-outs, and if it returns
    [ACS_STATUS_PASS] every PE's status is a pass: none is pending, failed or
    skipped, and none timed out. *)
Theorem test_pass_sound fuel skip single module test_num payload addr s :
  (forall s, ok s -> wp payload (fun _ => ok) s) ->
  t_pes s = Some pes -> length (t_shared s) = n -> (2 <= n)%nat ->
  0 <= test_num < 2 ^ 16 -> TIMEOUT_LARGE < Z.of_nat fuel ->
  wp (test_entry fuel skip single module test_num (Z.of_nat n) payload addr)
    (fun r s' => r = ACS_STATUS_PASS -> all_passed s') s.
Proof.
  intros Hpay Hp Hl Hn Ht Hf. unfold test_entry. apply wp_bind.
  eapply wp_mono; [|apply init_run; [|exact Ht]]; [|by repeat split; [..|intros; lia]].
  intros r0 s1 [Hok1 Hskip]. apply wp_bind.
  assert (wp (when negb (r0 =? ACS_STATUS_SKIP) then
    val_run_test_payload fuel test_num (Z.of_nat n) payload addr 0)
    (fun _ s' => ok s' /\ (all_settled s' \/ some_failed s')) s1) as Hrun.
  { destruct (Z.eqb_spec r0 ACS_STATUS_SKIP) as [He|_]; cbn [negb].
    - apply wp_ret. auto.
    - by apply run_payload_run. }
  eapply wp_mono; [|exact Hrun]. intros [] s2 [Hok2 Hs2]. apply wp_bind.
  eapply wp_mono; [|by apply check_run]. intros r s3 Hr. done.
Qed.

(** ** PEs that finish in time *)

(** [left] bounds how often the other PEs still have to run. *)
Variable left : W -> list shmem -> nat.
Hypothesis progress : forall w l, Forall (fun m => valid_word (sh_status m) = true) l ->
  Forall (fun m => result_word (sh_status m) = true) l \/
  (left (fst (others w l)) (snd (others w l)) < left w l)%nat.
Definition left_of s : nat := left (t_world s) (t_shared s).

Lemma settled_forall s : ok s ->
  (Forall (fun m => result_word (sh_status m) = true) (t_shared s) <-> all_settled s).
Proof.
  intros (_ & Hl & _). rewrite Forall_lookup. split.
  - intros H k Hk. destruct (lookup_lt_is_Some_2 (t_shared s) k) as [m Hm]; [lia|].
    exists m. split; [done|]. exact (H k m Hm).
  - intros H k m Hm. destruct (H k) as (m' & Hm' & Hs); [apply lookup_lt_Some in Hm; lia|].
    by simplify_eq.
Qed.

Lemma others_progress s : ok s -> all_settled s \/
  exists s', run_others s = Done tt s' /\ (left_of s' < left_of s)%nat.
Proof.
  intros Hok. destruct (progress (t_world s) (t_shared s)) as [Hs|Hlt]; [apply Hok|..].
  - left. by apply settled_forall.
  - right. unfold run_others, modify. eexists. split; [reflexivity|].
    destruct (others _ _). exact Hlt.
Qed.

Lemma settled_all_later s s' : later s s' -> all_settled s -> all_settled s'.
Proof. intros Hl Hs k Hk. eapply settled_later; [done|]. by apply Hs. Qed.

Lemma get_status_left i s : ok s -> 0 <= i < Z.of_nat n ->
  wp (val_get_status i) (fun _ s' => all_settled s' \/ (left_of s' < left_of s)%nat) s.
Proof.
  intros Hok Hi. pose proof (get_status_later i s Hok Hi) as Hg.
  destruct (others_progress s Hok) as [Hs|(s1 & H1 & Hlt)].
  - eapply wp_mono; [|exact Hg]. intros st s' (Hl & _). left. by eapply settled_all_later.
  - revert Hg. unfold val_get_status, shared_read, wp, bind. rewrite H1. cbn.
    destruct (t_shared s1 !! Z.to_nat i); [|done]. intros _. by right.
Qed.

Lemma wait_round_left s : ok s ->
  wp (wait_round (Z.of_nat n)) (fun j s' => later s s' /\ 0 <= j <= Z.of_nat n /\
    (j = 0 -> all_settled s') /\ (all_settled s -> j = 0) /\
    (all_settled s' \/ (left_of s' < left_of s)%nat)) s.
Proof.
  intros Hok. unfold wait_round. apply wp_bind. rewrite Nat2Z.id.
  eapply wp_mono; [|apply (wp_for_acc (fun i j s' => later s s' /\ 0 <= j <= i /\
    (j = 0 -> forall k, (k < Z.to_nat i)%nat -> at_pe settled k s') /\
    (all_settled s -> j = 0) /\
    (all_settled s' \/ (left_of s' + Z.to_nat i <= left_of s)%nat))
    (fun (e : Empty_set) _ => match e with end))].
  - intros [j|[]] s' (Hl & Hj & Hs & Hj0 & Hleft). apply wp_ret. split; [done|]. split; [lia|].
    split; [|split; [done|destruct Hleft; [by left|right; lia]]].
    intros Hz k Hk. apply Hs; [done|lia].
  - intros i j s1 Hi (Hl & Hj & Hs & Hj0 & Hleft). apply wp_bind.
    eapply wp_mono; [|apply wp_and; [apply get_status_later; [apply Hl|lia]
                                    |apply get_status_left; [apply Hl|lia]]].
    intros st s2 [(Hl2 & Hv & m & Hm & Hst) Hprog]. cbn. split; [by eapply later_trans|].
    assert (all_settled s -> IS_RESULT_PENDING st = false) as Hnp.
    { intros Ha. destruct (settled_later (Z.to_nat i) s s2) as (m' & Hm' & Hs');
        [by eapply later_trans|apply Ha; lia|]. simplify_eq. by apply result_not_pending. }
    assert (all_settled s2 \/ (left_of s2 + Z.to_nat (i + 1) <= left_of s)%nat) as Hleft2.
    { destruct Hleft as [Ha|Hle]; [left; by eapply settled_all_later|].
      destruct Hprog as [Ha|Hlt]; [by left|right; lia]. }
    destruct (IS_RESULT_PENDING st) eqn:Hp.
    { split; [lia|]. split; [lia|]. split; [|done]. intros Ha. specialize (Hnp Ha). congruence. }
    split; [lia|]. split; [|split; [done|done]].
    intros Hz k Hk. destruct (decide (k = Z.to_nat i)) as [->|Hne].
    + exists m. split; [done|]. rewrite Hst. unfold settled.
      unfold valid_word in Hv. by rewrite Hp in Hv.
    + eapply settled_later; [done|]. apply Hs; [done|lia].
  - split; [by apply later_refl|]. split; [lia|]. split; [intros _ k Hk; lia|].
    split; [done|right; lia].
Qed.

(** C14. When the other PEs leave their results in fewer steps than the time-out
    has rounds, [val_wait_for_test_completion] ends with a result of every PE in
    the array, and every result is the one the PE left: no time-out is reported. *)
Theorem wait_completes fuel test_num timeout s : ok s -> (2 <= n)%nat ->
  Z.of_nat (left_of s) + 2 < timeout < 2 ^ 32 -> timeout < Z.of_nat fuel ->
  wp (val_wait_for_test_completion fuel test_num (Z.of_nat n) timeout) (fun _ s' =>
    later s s' /\ all_settled s') s.
Proof.
  intros Hok Hn Hto Hf. unfold val_wait_for_test_completion.
  replace (Z.of_nat n =? 1) with false by (symmetry; apply Z.eqb_neq; lia).
  apply wp_bind. eapply wp_mono;
    [|apply (wp_loop (fun k x s' => let '(t, j) := x in later s s' /\ k = Z.to_nat t /\
        0 <= timeout - t <= Z.of_nat (left_of s) + 1 /\
        (all_settled s' \/ Z.of_nat (left_of s') + (timeout - t) <= Z.of_nat (left_of s)))
      (wait_step (Z.of_nat n))
      (fun r s' => later s s' /\ all_settled s' /\ r = None))
      with (n := Z.to_nat timeout)].
  - intros r s' (Hl & Hs & ->). done.
  - intros k [t j] s' (Hl & -> & Ht & Hleft). unfold wait_step, u32.
    rewrite wrap_small by lia. destruct (Z.eqb_spec (t - 1) 0); [lia|].
    apply wp_bind. eapply wp_mono; [|apply wait_round_left, Hl].
    intros j' s2 (Hl2 & Hj' & Hs & Hnz & Hprog). destruct (Z.eqb_spec j' 0); cbn.
    { split; [by eapply later_trans|]. split; [by apply Hs|done]. }
    destruct Hleft as [Ha|Hle]; [specialize (Hnz Ha); lia|].
    exists (Z.to_nat (t - 1)). split; [lia|]. split; [by eapply later_trans|]. split; [done|].
    split; [lia|]. destruct Hprog; [by left|right; lia].
  - lia.
  - split; [by apply later_refl|]. split; [done|]. split; [lia|]. right. lia.
Qed.
End runner.

(** ** The status of the RME module *)

Section module_status.
Context {W : Type} {PES : Pes W}.
Variable entry : Z -> T W Z.

Lemma run_from_32 s r s' : from_32 entry s = Done r s' ->
  exists s1, entry 32 s1 = Done r s'.
Proof. unfold from_32, run_from. cbn. intros H. exists s. minv. done. Qed.

(** The labels of [val_rme_execute_tests] fall through, and the statement at
    each label assigns the status instead of adding to it: however the call is
    entered, unless the module is skipped, the status it returns is that of the
    last test, and the results of all other tests are dropped. After a reset by
    a legacy system test it returns a variable that was never assigned. *)
Theorem rme_status_is_last skip single module reset_status s :
  (forall r s', val_rme_execute_tests skip single module reset_status entry s = Done r s' ->
     r = ACS_STATUS_SKIP \/ exists s1, entry 32 s1 = Done r s') /\
  (existsb (fun n => n =? 0) skip = false -> module = SINGLE_MODULE_SENTINEL ->
   reset_status = RESET_LS_DISBL_FLAG \/ reset_status = RESET_LS_TEST3_FLAG ->
   val_rme_execute_tests skip single module reset_status entry s = Undef).
Proof.
  unfold val_rme_execute_tests, ACS_RME_TEST_NUM_BASE. split.
  - intros r s'. destruct (existsb _ skip); [intros [= <- _]; by left|].
    destruct (_ && _); [intros [= <- _]; by left|]. intros H. right.
    unfold from_1, from_2, from_12, from_31 in H.
    repeat match type of H with (if ?b then _ else _) _ = _ => destruct b end; minv;
      eauto using run_from_32.
  - intros -> -> Hr. cbn. by destruct Hr as [-> | ->].
Qed.
End module_status.

(** ** Stream IDs and test addresses *)

Section generators.
Context {W : Type} {PES : Pes W}.
Implicit Types s : tst W.

(** The results of [k] calls in a row. *)
Fixpoint stream_ids (k : nat) : T W (list Z) :=
  match k with
  | O => ret []
  | S k' => let! id := val_generate_stream_id in let! l := stream_ids k' in ret (id :: l)
  end.

Lemma stream_id_run s : 1 <= unique_stream_id s <= 255 ->
  exists s', val_generate_stream_id s = Done (unique_stream_id s mod 255 + 1) s' /\
    unique_stream_id s' = unique_stream_id s mod 255 + 1.
Proof.
  intros H. unfold val_generate_stream_id, bind, gets, modify, ret, u32.
  rewrite wrap_small by lia.
  assert ((if 255 <? unique_stream_id s + 1 then 1 else unique_stream_id s + 1) =
    unique_stream_id s mod 255 + 1) as ->.
  { destruct (Z.ltb_spec 255 (unique_stream_id s + 1)).
    - by replace (unique_stream_id s) with 255 by lia.
    - by rewrite Z.mod_small by lia. }
  by eexists.
Qed.

Lemma stream_ids_run k s : 1 <= unique_stream_id s <= 255 ->
  exists s', stream_ids k s =
    Done (map (fun i => (unique_stream_id s + i) mod 255 + 1) (seqZ 0 (Z.of_nat k))) s'.
Proof.
  revert s. induction k as [|k IH]; intros s Hs; cbn [stream_ids].
  { by exists s. }
  destruct (stream_id_run s Hs) as (s1 & H1 & E1). rewrite (bind_done _ _ _ _ _ H1).
  destruct (IH s1) as (s2 & H2).
  { rewrite E1. pose proof (Z.mod_pos_bound (unique_stream_id s) 255). lia. }
  rewrite (bind_done _ _ _ _ _ H2). exists s2. unfold ret. f_equal.
  rewrite Nat2Z.inj_succ, <- Z.add_1_l, seqZ_app by lia. cbn [map app].
  change (seqZ 0 1) with [0]. cbn [map app]. rewrite Z.add_0_r. f_equal.
  rewrite (Z.add_comm 0 1), <- fmap_add_seqZ, <- list_fmap_compose. apply map_ext. intros i. cbn.
  rewrite E1. f_equal. rewrite <- Z.add_assoc, Zplus_mod_idemp_l. done.
Qed.

(** Stream IDs are between 1 and 255, and any 255 that are generated in a row
    are different. *)
Theorem stream_ids_distinct k s : 1 <= unique_stream_id s <= 255 -> (k <= 255)%nat ->
  exists l s', stream_ids k s = Done l s' /\ length l = k /\ NoDup l /\
    Forall (fun id => 1 <= id <= 255) l.
Proof.
  intros Hs Hk. destruct (stream_ids_run k s Hs) as (s' & H).
  eexists _, s'. split; [exact H|]. rewrite length_map, length_seqZ. split; [lia|]. split.
  - apply NoDup_fmap_2_strong; [|apply NoDup_seqZ].
    + intros i j Hi%elem_of_seqZ Hj%elem_of_seqZ E. cbn in E.
      assert ((unique_stream_id s + i) mod 255 = (unique_stream_id s + j) mod 255) as E' by lia.
      apply (f_equal (fun x => (x - unique_stream_id s) mod 255)) in E'.
      rewrite !Zminus_mod_idemp_l in E'.
      replace (unique_stream_id s + i - unique_stream_id s) with i in E' by lia.
      replace (unique_stream_id s + j - unique_stream_id s) with j in E' by lia.
      rewrite !Z.mod_small in E' by lia. done.
  - apply List.Forall_forall. intros x Hx. apply in_map_iff in Hx as (i & <- & _).
    pose proof (Z.mod_pos_bound (unique_stream_id s + i) 255). lia.
Qed.

(** [val_get_free_pa] rounds the free address down: the region it returns for
    a power-of-two alignment is fresh only if the free address was already
    aligned, and otherwise starts inside what was handed out before. *)
Theorem free_pa_rounds_down size e s : 0 <= e < 64 -> 0 <= free_mem_var_pa s < 2 ^ 64 ->
  let pa := free_mem_var_pa s in
  exists base s', val_get_free_pa size (2 ^ e) s = Done base s' /\
    base mod 2 ^ e = 0 /\ base <= pa < base + 2 ^ e /\ (base < pa <-> pa mod 2 ^ e <> 0) /\
    free_mem_var_pa s' = u64 (base + Z.max size (2 ^ e)).
Proof.
  intros He Hpa pa. unfold val_get_free_pa, bind, gets, modify, ret.
  assert (pa .& bnot 64 (2 ^ e - 1) = pa - pa mod 2 ^ e) as Hb.
  { apply Z.bits_inj'. intros i Hi.
    replace (pa - pa mod 2 ^ e) with ((pa >> e) << e).
    - unfold bnot. rewrite Z.land_spec, testbit_wrap, Z.lnot_spec by lia.
      replace (2 ^ e - 1) with (Z.ones e) by (rewrite Z.ones_equiv; lia).
      rewrite Z.testbit_ones, Z.shiftl_spec by lia.
      destruct (Z.ltb_spec i e).
      + rewrite (Z.testbit_neg_r _ (i - e)) by lia. replace (0 <=? i) with true by lia.
        by rewrite andb_false_r.
      + rewrite Z.shiftr_spec by lia. replace (i - e + e) with i by lia.
        rewrite andb_false_r. cbn. destruct (Z.ltb_spec i 64); [by rewrite andb_true_r|].
        by rewrite (testbit_high 64 pa) by lia.
    - rewrite Z.shiftl_mul_pow2, Z.shiftr_div_pow2 by lia.
      pose proof (Z.div_mod pa (2 ^ e)). lia. }
  fold pa. rewrite Hb. eexists _, _. split; [reflexivity|].
  pose proof (Z.mod_pos_bound pa (2 ^ e) ltac:(lia)) as Hm. split; [|split; [|split]].
  - rewrite Zminus_mod_idemp_r. by rewrite Z.sub_diag.
  - lia.
  - lia.
  - cbn. f_equal. destruct (Z.ltb_spec (2 ^ e) size); lia.
Qed.
End generators.

(** ** Runs *)

(** Two PEs; the other one passes after [w] accesses of the main PE. *)
Section runs.
Definition settle (m : shmem) : shmem :=
  if IS_RESULT_PENDING (sh_status m) then mk_shmem (data0 m) (data1 m) (RESULT_PASS 1 1) else m.
#[local] Instance demo_pes : Pes nat := {
  others w l := (pred w, if (w <=? 1)%nat then map settle l else l);
  cpu_on _ w := (0, w);
  my_mpidr := 0
}.
Definition demo_table : list pe_entry := [mk_pe 0 0 23; mk_pe 1 0x100 23].
Definition demo_tst (w : nat) (st : Z) : tst nat :=
  mk_tst w [mk_shmem 0 0 st; mk_shmem 0 0 st] (Some demo_table) 0 0 0
    FREE_PA_TEST FREE_VA_TEST 1 CONDUIT_SMC [].
Definition demo_left (w : nat) (l : list shmem) : nat :=
  if forallb (fun m => result_word (sh_status m)) l then 0 else S w.

Lemma demo_settle w l : Forall2 may_settle l (snd (others w l)).
Proof.
  cbn. destruct (w <=? 1)%nat; (induction l as [|m l IH]; [constructor|]); constructor;
    [|exact IH|by left|exact IH].
  unfold settle, may_settle. destruct (IS_RESULT_PENDING _); [right|left]; done.
Qed.
Lemma demo_codes m w : exists c, -8 <= c <= 0 /\ fst (cpu_on m w) = u64 c.
Proof. exists 0. split; [lia|reflexivity]. Qed.
Lemma demo_progress w l : Forall (fun m => valid_word (sh_status m) = true) l ->
  Forall (fun m => result_word (sh_status m) = true) l \/
  (demo_left (fst (others w l)) (snd (others w l)) < demo_left w l)%nat.
Proof.
  intros Hv. unfold demo_left. destruct (forallb _ l) eqn:Hf.
  { left. apply List.Forall_forall. by apply forallb_forall. }
  right. cbn. destruct (Nat.leb_spec w 1).
  - replace (forallb _ (map settle l)) with true; [lia|]. symmetry. apply forallb_forall.
    intros m' (m & <- & Hin)%in_map_iff. rewrite List.Forall_forall in Hv. specialize (Hv m Hin).
    unfold settle. unfold valid_word in Hv. destruct (IS_RESULT_PENDING _) eqn:Hp; [done|].
    exact Hv.
  - rewrite Hf. lia.
Qed.
Lemma demo_index e : In e demo_table -> 0 <= pe_num e < Z.of_nat 2.
Proof. intros [<-|[<-|[]]]; cbn; lia. Qed.

Lemma demo_ok : ok 2 demo_table (demo_tst 5 (RESULT_PENDING 1)).
Proof. split; [done|]. split; [done|]. repeat constructor. Qed.

Lemma wait_completes_witness :
  wp (val_wait_for_test_completion 20 1 2 15) (fun _ s' => all_settled 2 s')
    (demo_tst 5 (RESULT_PENDING 1)).
Proof.
  eapply wp_mono; [|apply (wait_completes 2 demo_table demo_settle eq_refl demo_index ltac:(lia)
    demo_left demo_progress 20 1 15); [exact demo_ok|lia|vm_compute; split; reflexivity|lia]].
  intros [] s' [_ H]. exact H.
Defined.

Lemma test_pass_sound_witness :
  let fuel := Z.to_nat (TIMEOUT_LARGE + 1) in
  wp (test_entry fuel [] SINGLE_TEST_SENTINEL SINGLE_MODULE_SENTINEL 1 2
        (val_set_status 0 (RESULT_PASS 1 1)) 0x1000)
    (fun r s' => r = ACS_STATUS_PASS -> all_passed s') (demo_tst 9 0).
Proof.
  intros fuel.
  apply (test_pass_sound 2 demo_table demo_settle demo_codes eq_refl demo_index ltac:(lia)).
  - intros s Hok. eapply wp_mono; [|apply (set_status_ok 2 demo_table);
      first [exact demo_settle|exact demo_index|reflexivity|exact Hok|lia]].
    intros [] s' [H _]. exact H.
  - reflexivity.
  - reflexivity.
  - lia.
  - lia.
  - unfold fuel, TIMEOUT_LARGE. lia.
Defined.

Lemma rme_status_is_last_witness :
  val_rme_execute_tests [] 0 SINGLE_MODULE_SENTINEL RESET_LS_TEST3_FLAG
    (fun _ => ret ACS_STATUS_FAIL) (demo_tst 0 0) = Undef.
Proof.
  apply (rme_status_is_last (fun _ => ret ACS_STATUS_FAIL) [] 0 SINGLE_MODULE_SENTINEL
    RESET_LS_TEST3_FLAG (demo_tst 0 0)); [reflexivity|reflexivity|right; reflexivity].
Defined.

(** Test 1 fails, all others pass: the module passes. *)
Example first_failure_dropped :
  val_rme_execute_tests [] 0 SINGLE_MODULE_SENTINEL 0
    (fun n => ret (if n =? 1 then ACS_STATUS_FAIL else ACS_STATUS_PASS)) (demo_tst 0 0) =
  Done ACS_STATUS_PASS (demo_tst 0 0).
Proof. reflexivity. Qed.

Lemma stream_ids_distinct_witness :
  exists l s', stream_ids 255 (demo_tst 0 0) = Done l s' /\ NoDup l.
Proof.
  destruct (stream_ids_distinct 255 (demo_tst 0 0)) as (l & s' & H & _ & Hd & _);
    [cbn; lia|lia|]. exists l, s'. split; [exact H|exact Hd].
Defined.

(** 4KB are handed out, then 8KB aligned: the second region contains the first. *)
Lemma free_pa_rounds_down_witness :
  let s1 := upd_free 0x880301000 FREE_VA_TEST 1 (demo_tst 0 0) in
  val_get_free_pa 0x1000 0x1000 (demo_tst 0 0) = Done FREE_PA_TEST s1 /\
  exists s2, val_get_free_pa 0x2000 0x2000 s1 = Done FREE_PA_TEST s2.
Proof.
  intros s1. split; [vm_compute; reflexivity|].
  destruct (free_pa_rounds_down 0x2000 13 s1) as (base & s2 & H & Hm & Hb & _);
    [lia|cbn; lia|].
  change (2 ^ 13) with 0x2000 in *. exists s2. rewrite H. cbn [free_mem_var_pa s1 upd_free] in Hb.
  assert (base = FREE_PA_TEST) as ->; [|reflexivity]. unfold FREE_PA_TEST.
  pose proof (Z.div_mod base 0x2000). lia.
Defined.
End runs.
