(* ===== verification/Gic.v ===== *)
(** * Gic

    The interrupt controller driver: val/src/acs_gic.c, the drivers of
    val/sys_arch_src/gic/ (gic.c, v3/gic_v3.c, v3/gic_v3_extended.c, v2/gic_v2.c),
    the exception dispatch of rme_exception.c and
    platform/pal_baremetal/src/pal_gic.c. *)

From Stdlib Require Import ZArith Lia Bool List.
From stdpp Require Import base tactics numbers list gmap option.
From S2P Require Import Prelude Memory El3State Pcie.
Local Open Scope acs_scope.
Local Open Scope Z_scope.

(** ** Constants (rme_acs_gic.h, gic.h, gic_v3.h, rme_exception.h) *)
Definition GICD_CTLR : Z := 0x0000.
Definition GICD_CTRL : Z := 0x0000.
Definition GICD_TYPER : Z := 0x0004.
Definition GICD_ISENABLER : Z := 0x100.
Definition GICD_ICENABLER : Z := 0x180.
Definition GICD_ISPENDR : Z := 0x200.
Definition GICD_ISACTIVER0 : Z := 0x300.
Definition GICD_ICPENDR0 : Z := 0x280.
Definition GICD_ICACTIVER0 : Z := 0x380.
Definition GICD_IPRIORITYR : Z := 0x0400.
Definition GICD_ICFGR : Z := 0xC00.
Definition GICD_IROUTER : Z := 0x6000.
Definition GICD_IROUTERn : Z := 0x6100.
Definition GICD_PIDR2 : Z := 0xFFE8.
Definition GICD_ICENABLERE : Z := 0x1400.
Definition GICD_ICPENDRE0 : Z := 0x1800.
Definition GICD_ICACTIVERE0 : Z := 0x1C00.
Definition GICD_IPRIORITYRE : Z := 0x2000.
Definition GICD_ICFGRE : Z := 0x3000.
Definition GICR_TYPER : Z := 0x0008.
Definition GICR_IPRIORITYR : Z := 0x0400.
Definition GICR_ISENABLER : Z := 0x100.
Definition GICR_ICENABLER : Z := 0x0180.
Definition GICR_WAKER : Z := 0x0014.
Definition GICR_PWRR : Z := 0x0024.
Definition GIC_ARE_ENABLE : Z := 1 << 4.
Definition GIC_DEFAULT_PRIORITY : Z := 0x80.
Definition GICR_CTLR_FRAME_SIZE : Z := 0x00010000.
Definition GICR_SGI_PPI_FRAME_SIZE : Z := 0x00010000.
Definition RD_FRAME_SIZE : Z := 0x10000.
Definition GICR_TYPER_AFF : Z := 0xFFFFFFFF << 32.
Definition GIC_ICDIPTR : Z := 0x800.
Definition GIC_ICCICR : Z := 0x00.
Definition GIC_ICCBPR : Z := 0x08.
Definition GIC_ICCPMR : Z := 0x04.
Definition GIC_ICCIAR : Z := 0x0C.
Definition GIC_ICCEIOR : Z := 0x10.
Definition PE_AFF0 : Z := 0xFF.
Definition PE_AFF1 : Z := 0xFF << 8.
Definition PE_AFF2 : Z := 0xFF << 16.
Definition PE_AFF3 : Z := 0xFF << 32.
Definition GICD_TYPER_ESPI_SHIFT : Z := 8.
Definition GICD_TYPER_ESPI_MASK : Z := 0x01.
Definition GICD_TYPER_ESPI_RANGE_SHIFT : Z := 27.
Definition GICD_TYPER_ESPI_RANGE_MASK : Z := 0x1F.
Definition GICD_TYPER_EPPI_NUM_SHIFT : Z := 27.
Definition GICD_TYPER_EPPI_NUM_MASK : Z := 0x1F.
Definition EXTENDED_SPI_START_INTID : Z := 4096.
Definition EXTENDED_PPI_START_INTID : Z := 1056.
Definition EXTENDED_PPI_REG_OFFSET : Z := 1024.
Definition GICD_ICFGR_INTR_STRIDE : Z := 16.
(** The macro uses the caller's [int_id], not its argument. *)
Definition GICD_ICFGR_INTR_CONFIG1 (int_id : Z) : Z := u32 (1 + int_id * 2) mod 32.
Definition NUM_ARM_MAX_INTERRUPT : Z := 16384.
Definition EXCEPT_AARCH64_SYNCHRONOUS_EXCEPTIONS : Z := 0.
Definition EXCEPT_AARCH64_IRQ : Z := 1.
Definition ACS_STATUS_ERR : Z := 0xEDCB1234.
Definition VAL_EXTRACT_BITS (data st en : Z) : Z := (data >> st) .& ((1 << (en - st + 1)) - 1).

(** ** Data (pal_interface.h) *)

Inductive GIC_INFO_TYPE_e :=
| ENTRY_TYPE_CPUIF | ENTRY_TYPE_GICD | ENTRY_TYPE_GICC_GICRD | ENTRY_TYPE_GICR_GICRD
| ENTRY_TYPE_GICITS | ENTRY_TYPE_GIC_MSI_FRAME | ENTRY_TYPE_GICH.
#[export] Instance gic_type_eq_dec : EqDecision GIC_INFO_TYPE_e.
Proof. solve_decision. Defined.
Inductive GIC_INFO_e :=
| GIC_INFO_VERSION | GIC_INFO_SEC_STATES | GIC_INFO_AFFINITY_NS | GIC_INFO_ENABLE_GROUP1NS
| GIC_INFO_SGI_NON_SECURE | GIC_INFO_SGI_NON_SECURE_LEGACY | GIC_INFO_NUM_ITS
| GIC_INFO_NUM_MSI_FRAME | GIC_INFO_OTHER.
Inductive INTR_TRIGGER_INFO_TYPE_e := INTR_TRIGGER_INFO_LEVEL_HIGH | INTR_TRIGGER_INFO_EDGE_RISING.

Record GIC_INFO_HDR := mk_gic_hdr {
  gic_version : Z; num_gicd : Z; num_gicrd : Z; num_its : Z; num_msi_frame : Z; num_gich : Z
}.
(** The fields the code below reads (the SPI range of an MSI frame is not). *)
Record GIC_INFO_ENTRY := mk_gic_entry {
  ge_type : GIC_INFO_TYPE_e; ge_base : Z; entry_id : Z; ge_length : Z
}.
(** The entries up to the one of type 0xFF. *)
Record GIC_INFO_TABLE := mk_gic_table { header : GIC_INFO_HDR; gic_info : list GIC_INFO_ENTRY }.

(** The configuration of the platform. *)
Record platform_gic := mk_platform_gic {
  pg_version : Z; pg_gicc : list Z; pg_gicrd : list Z; pg_gicrd_length : Z; pg_gicd : list Z;
  pg_gicits : list (Z * Z); pg_gich : list Z; pg_msi : list (Z * Z)
}.

(** An installed exception handler. *)
Inductive esr := NoEsr | default_irq | UserEsr (f : Z).
#[export] Instance esr_eq_dec : EqDecision esr.
Proof. solve_decision. Defined.

(** System register writes and calls through function pointers. *)
Inductive gic_reg := ICC_IGRPEN1_EL1 | ICC_BPR1_EL1 | ICC_PMR_EL1 | HCR_EL2.
Inductive gact :=
| SysWrite (r : gic_reg) (v : Z) | AckIntr (v : Z) | EndIntr (v : Z) | CallIsr (f : Z)
| CallEsr (f : Z) | SetVectors | ClearDaif.

(** The PE's own view: affinity, exception level and the acknowledge register. *)
Class GicPe (D : Type) := {
  mpidr_el1 : Z;
  at_el2 : bool;
  read_iar1 : D -> Z * D
}.

(** [g_isr] and [g_esr] are the two tables of handlers; a function is its
    address, 0 for none. *)
Record gst (D : Type) := mk_gst {
  g_pci : pst D; g_table : option GIC_INFO_TABLE; g_intr_handler : Z -> Z;
  g_esr_handler : Z -> esr; g_acts : list gact
}.
Arguments mk_gst {D}.
Arguments g_pci {D}. Arguments g_table {D}. Arguments g_intr_handler {D}.
Arguments g_esr_handler {D}. Arguments g_acts {D}.
Abbreviation G D := (M (gst D)).

Section code.
Context {D : Type} {HW : Hw D} {PE : GicPe D}.

Definition pci {A} (m : P D A) : G D A :=
  zoom g_pci (fun p s => mk_gst p (g_table s) (g_intr_handler s) (g_esr_handler s) (g_acts s)) m.
Definition gact_out (a : gact) : G D unit := modify (fun s =>
  mk_gst (g_pci s) (g_table s) (g_intr_handler s) (g_esr_handler s) (a :: g_acts s)).
Definition set_isr (f : Z -> Z) : G D unit := modify (fun s =>
  mk_gst (g_pci s) (g_table s) f (g_esr_handler s) (g_acts s)).
Definition set_esr (f : Z -> esr) : G D unit := modify (fun s =>
  mk_gst (g_pci s) (g_table s) (g_intr_handler s) f (g_acts s)).

(** ** Device accesses (acs_test_infra.c, pal_misc.c) *)
Definition mmio_read_n (n : nat) (a : Z) : P D Z := fun s =>
  let '(v, d) := hw_read n (p_dev s) a in
  let x := wrap (8 * Z.of_nat n) v in
  Done x (mk_pst d (p_info s) (p_table s) (p_list_flag s) (EvRead n a x :: p_trace s)).
Definition mmio_write_n (n : nat) (a v : Z) : P D unit := fun s =>
  let x := wrap (8 * Z.of_nat n) v in
  Done tt (mk_pst (hw_write n (p_dev s) a x) (p_info s) (p_table s) (p_list_flag s)
             (EvWrite n a x :: p_trace s)).
Definition val_mmio_read (a : Z) : G D Z := pci (pal_mmio_read (u64 a)).
Definition val_mmio_write (a v : Z) : G D unit := pci (pal_mmio_write (u64 a) v).
Definition val_mmio_read64 (a : Z) : G D Z := pci (mmio_read_n 8 (u64 a)).
Definition val_mmio_write64 (a v : Z) : G D unit := pci (mmio_write_n 8 (u64 a) v).
Definition val_mmio_write8 (a v : Z) : G D unit := pci (mmio_write_n 1 (u64 a) v).

(** ** The information table (acs_gic.c, pal_gic.c) *)

Definition pal_gic_create_info_table (c : platform_gic) : GIC_INFO_TABLE :=
  mk_gic_table
    (mk_gic_hdr (pg_version c) (Z.of_nat (length (pg_gicd c))) (Z.of_nat (length (pg_gicrd c)))
       (Z.of_nat (length (pg_gicits c))) (Z.of_nat (length (pg_msi c)))
       (Z.of_nat (length (pg_gich c))))
    (map (fun b => mk_gic_entry ENTRY_TYPE_CPUIF b 0 0) (pg_gicc c) ++
     map (fun b => mk_gic_entry ENTRY_TYPE_GICR_GICRD b 0 (pg_gicrd_length c)) (pg_gicrd c) ++
     map (fun b => mk_gic_entry ENTRY_TYPE_GICD b 0 0) (pg_gicd c) ++
     map (fun '(b, i) => mk_gic_entry ENTRY_TYPE_GICITS b i 0) (pg_gicits c) ++
     map (fun b => mk_gic_entry ENTRY_TYPE_GICH b 0 0) (pg_gich c) ++
     map (fun '(b, i) => mk_gic_entry ENTRY_TYPE_GIC_MSI_FRAME b i 0) (pg_msi c)).

(** The first entry of a type; 0 when there is none. *)
Definition base_of (t : GIC_INFO_TYPE_e) (l : list GIC_INFO_ENTRY) : Z :=
  match List.find (fun e => bool_decide (ge_type e = t)) l with
  | Some e => ge_base e
  | None => 0
  end.
Definition table_base (t : GIC_INFO_TYPE_e) : G D Z :=
  let! table := gets g_table in
  ret (match table with None => 0 | Some t' => base_of t (gic_info t') end).
Definition val_get_gicd_base : G D Z := table_base ENTRY_TYPE_GICD.
Definition val_get_gich_base : G D Z := table_base ENTRY_TYPE_GICH.
Definition val_get_cpuif_base : G D Z := table_base ENTRY_TYPE_CPUIF.

(** The base and the length (32 bits) of a redistributor region. *)
Fixpoint gicr_entry (gicr_rd_index index : Z) (l : list GIC_INFO_ENTRY) : Z * Z :=
  match l with
  | [] => (0, 0)
  | e :: l' =>
      match ge_type e with
      | ENTRY_TYPE_GICR_GICRD =>
          if index =? gicr_rd_index then (ge_base e, u32 (ge_length e))
          else gicr_entry gicr_rd_index (index + 1) l'
      | ENTRY_TYPE_GICC_GICRD => (ge_base e, 0)
      | _ => gicr_entry gicr_rd_index index l'
      end
  end.
(** The length is not stored when there is no table. *)
Definition val_get_gicr_base (gicr_rd_index : Z) : G D (Z * option Z) :=
  let! table := gets g_table in
  ret (match table with
       | None => (0, None)
       | Some t => let '(b, n) := gicr_entry gicr_rd_index 0 (gic_info t) in (b, Some n)
       end).

(** The affinity of a PE as in the upper half of GICR_TYPER. *)
Definition affinity_of (mpidr : Z) : Z :=
  (mpidr .& (PE_AFF0 .| PE_AFF1 .| PE_AFF2)) .| ((mpidr .& PE_AFF3) >> 8).
(** The walk over the frames of a region; [None] when no frame matches. With
    [log] the type register is read once more, for a message. *)
Definition frame_step (log : bool) (affinity region_end frame : Z) : G D (Z + option Z) :=
  if frame <? region_end then
    (when log then (let! _typer := val_mmio_read64 (frame + GICR_TYPER) in ret tt)) ;;
    let! typer := val_mmio_read64 (frame + GICR_TYPER) in
    if (typer .& GICR_TYPER_AFF) >> 32 =? affinity then ret (inr (Some frame))
    else ret (inl (u64 (frame + (GICR_CTLR_FRAME_SIZE + GICR_SGI_PPI_FRAME_SIZE))))
  else ret (inr None).
Definition frame_walk (log : bool) (fuel : nat) (affinity base length : Z) : G D (option Z) :=
  loop fuel (frame_step log affinity (u64 (base + length))) base.
(** A region with one frame, from a CPU interface structure. *)
Definition single_frame (affinity base : Z) : G D Z :=
  let! typer := val_mmio_read64 (base + GICR_TYPER) in
  ret (if (typer .& GICR_TYPER_AFF) >> 32 =? affinity then base else 0).
Definition or_zero (o : option Z) : Z := match o with Some x => x | None => 0 end.

Definition CurrentCpuRDBase (fuel : nat) (mGicRedistributorBase length : Z) : G D Z :=
  if length =? 0 then single_frame (affinity_of mpidr_el1) mGicRedistributorBase else
  let! r := frame_walk false fuel (affinity_of mpidr_el1) mGicRedistributorBase length in
  ret (or_zero r).
Definition v3_get_pe_gicr_base (fuel : nat) : G D Z :=
  let! '(rd_base, rdbase_len) := val_get_gicr_base 0 in
  let! n := use rdbase_len in
  CurrentCpuRDBase fuel rd_base n.

(** One redistributor region of [val_gic_get_pe_rdbase]. *)
Definition rdbase_step (fuel : nat) (affinity gicr_rdindex : Z) (_u : unit) : G D (unit + Z) :=
  let! '(gicrd_base, len) := val_get_gicr_base gicr_rdindex in
  let! n := use len in
  let! r := frame_walk true fuel affinity gicrd_base n in
  ret (match r with Some f => inr f | None => inl tt end).
Definition val_gic_get_pe_rdbase (fuel : nat) (mpidr : Z) : G D Z :=
  let affinity := affinity_of mpidr in
  let! table := gets g_table in
  let! t := use table in
  let num := num_gicrd (header t) in
  let regions :=
    let! r := for_acc (Z.to_nat num) 0 tt (rdbase_step fuel affinity) in
    ret (match r with inl _ => 0 | inr f => f end) in
  if num =? 0 then
    let! '(gicrd_base, len) := val_get_gicr_base 0 in
    let! n := use len in
    if n =? 0 then single_frame affinity gicrd_base else regions
  else regions.

Definition val_gic_get_info (type : GIC_INFO_e) : G D Z :=
  let! table := gets g_table in
  match table with
  | None => ret 0
  | Some t =>
      let! gicd := val_get_gicd_base in
      match type with
      | GIC_INFO_VERSION =>
          if negb (gic_version (header t) =? 0) then ret (gic_version (header t)) else
          let! v := val_mmio_read (gicd + GICD_PIDR2) in ret (VAL_EXTRACT_BITS v 4 7)
      | GIC_INFO_SEC_STATES =>
          let! v := val_mmio_read (gicd + GICD_CTLR) in ret (VAL_EXTRACT_BITS v 6 6)
      | GIC_INFO_AFFINITY_NS =>
          let! v := val_mmio_read (gicd + GICD_CTLR) in ret (VAL_EXTRACT_BITS v 4 4)
      | GIC_INFO_ENABLE_GROUP1NS =>
          let! v := val_mmio_read (gicd + GICD_CTLR) in ret (VAL_EXTRACT_BITS v 0 1)
      | GIC_INFO_SGI_NON_SECURE =>
          let! '(b, _n) := val_get_gicr_base 0 in
          val_mmio_read (b + RD_FRAME_SIZE + GICR_ISENABLER)
      | GIC_INFO_SGI_NON_SECURE_LEGACY => val_mmio_read (gicd + GICD_ISENABLER)
      | GIC_INFO_NUM_ITS => ret (num_its (header t))
      | GIC_INFO_NUM_MSI_FRAME => ret (num_msi_frame (header t))
      | GIC_INFO_OTHER => ret ACS_STATUS_ERR
      end
  end.

Definition val_get_max_intid : G D Z :=
  let! gicd := val_get_gicd_base in
  let! v := val_mmio_read (gicd + GICD_TYPER) in
  ret (32 * ((v .& 0x1F) + 1)).

(** ** Extended interrupts (gic.c, gic_v3_extended.c) *)

Definition is_v3 (v : Z) : bool := (v =? 3) || (v =? 4).
Definition v3_read_gicdTyper : G D Z :=
  let! gicd := val_get_gicd_base in val_mmio_read (gicd + GICD_TYPER).
Definition v3_read_gicr_typer (fuel : nat) : G D Z :=
  let! b := v3_get_pe_gicr_base fuel in val_mmio_read64 (b + GICR_TYPER).

Definition val_rme_gic_espi_support : G D Z :=
  let! v := val_gic_get_info GIC_INFO_VERSION in
  if 3 <=? v then
    let! t := v3_read_gicdTyper in ret ((t >> GICD_TYPER_ESPI_SHIFT) .& GICD_TYPER_ESPI_MASK)
  else ret 0.
Definition val_rme_gic_max_espi_val : G D Z :=
  let! v := val_gic_get_info GIC_INFO_VERSION in
  if 3 <=? v then
    let! t := v3_read_gicdTyper in
    let espi_range := (t >> GICD_TYPER_ESPI_RANGE_SHIFT) .& GICD_TYPER_ESPI_RANGE_MASK in
    ret (32 * (espi_range + 1) + 4095)
  else ret 0.
(** The field is taken from the 64-bit GICR_TYPER. *)
Definition eppi_num (fuel : nat) : G D Z :=
  let! t := v3_read_gicr_typer fuel in
  ret ((t >> GICD_TYPER_EPPI_NUM_SHIFT) .& GICD_TYPER_EPPI_NUM_MASK).
Definition val_rme_gic_eppi_support (fuel : nat) : G D Z :=
  let! v := val_gic_get_info GIC_INFO_VERSION in
  if 3 <=? v then let! n := eppi_num fuel in ret (b2z (truthy n)) else ret 0.
Definition val_rme_gic_max_eppi_val (fuel : nat) : G D Z :=
  let! v := val_gic_get_info GIC_INFO_VERSION in
  if 3 <=? v then
    let! ppi_range := eppi_num fuel in
    ret (if ppi_range =? 1 then 1087 else if ppi_range =? 2 then 1119 else 0)
  else ret 0.

Definition v3_is_extended_spi (int_id : Z) : G D bool :=
  if EXTENDED_SPI_START_INTID <=? int_id then
    let! m := val_rme_gic_max_espi_val in ret (int_id <=? m)
  else ret false.
Definition v3_is_extended_ppi (fuel : nat) (int_id : Z) : G D bool :=
  if EXTENDED_PPI_START_INTID <=? int_id then
    let! m := val_rme_gic_max_eppi_val fuel in ret (int_id <=? m)
  else ret false.
Definition is_extended (fuel : nat) (int_id : Z) : G D bool :=
  let! spi := v3_is_extended_spi int_id in
  if spi then ret true else v3_is_extended_ppi fuel int_id.

Definition val_rme_gic_check_espi_interrupt (int_id : Z) : G D Z :=
  let! s := val_rme_gic_espi_support in
  if truthy s then let! b := v3_is_extended_spi int_id in ret (b2z b) else ret 0.
Definition val_rme_gic_check_eppi_interrupt (fuel : nat) (int_id : Z) : G D Z :=
  let! s := val_rme_gic_eppi_support fuel in
  if truthy s then let! b := v3_is_extended_ppi fuel int_id in ret (b2z b) else ret 0.
Definition val_rme_gic_check_ppi (fuel : nat) (int_id : Z) : G D Z :=
  let! e := val_rme_gic_check_eppi_interrupt fuel int_id in
  ret (b2z (truthy e || ((15 <? int_id) && (int_id <? 32)))).

(** [1 << (int_id % 32)] stored in a 32-bit register. *)
Definition bit32 (int_id : Z) : Z := u32 (1 << (int_id mod 32)).

Definition v3_clear_extended_spi_interrupt (int_id : Z) : G D unit :=
  let reg_offset := u32 (int_id - EXTENDED_SPI_START_INTID) / 32 in
  let bit := bit32 (u32 (int_id - EXTENDED_SPI_START_INTID)) in
  let! gicd := val_get_gicd_base in
  val_mmio_write (gicd + GICD_ICPENDRE0 + 4 * reg_offset) bit ;;
  let! gicd := val_get_gicd_base in
  val_mmio_write (gicd + GICD_ICACTIVERE0 + 4 * reg_offset) bit.

(** The write the two functions below share: [gicd_reg] of the distributor for an
    extended SPI, [gicr_reg] of the redistributor otherwise. *)
Definition extended_source (fuel : nat) (gicd_reg gicr_reg int_id : Z) : G D unit :=
  let! spi := v3_is_extended_spi int_id in
  if spi then
    let n := int_id - EXTENDED_SPI_START_INTID in
    let! gicd := val_get_gicd_base in
    val_mmio_write (gicd + gicd_reg + 4 * (n / 32)) (bit32 n)
  else
    let n := u32 (int_id - EXTENDED_PPI_REG_OFFSET) in
    let! cpuRd_base := v3_get_pe_gicr_base fuel in
    when negb (cpuRd_base =? 0) then
      val_mmio_write (cpuRd_base + GICR_CTLR_FRAME_SIZE + gicr_reg + 4 * (n / 32)) (bit32 n).
Definition v3_disable_extended_interrupt_source (fuel : nat) : Z -> G D unit :=
  extended_source fuel GICD_ICENABLERE GICR_ICENABLER.
Definition v3_enable_extended_interrupt_source (fuel : nat) : Z -> G D unit :=
  extended_source fuel GICD_ICENABLERE GICR_ISENABLER.

(** Replaces byte [n % 4] of the 32-bit register that holds it. *)
Definition priority_value (old n priority : Z) : Z :=
  (old .& bnot 32 (u32 (0xff << (n mod 4 * 8)))) .| u32 (priority << (n mod 4 * 8)).
Definition write_priority (reg n priority : Z) : G D unit :=
  let! old := val_mmio_read (reg + 4 * (n / 4)) in
  val_mmio_write (reg + 4 * (n / 4)) (priority_value old n priority).

Definition v3_set_extended_interrupt_priority (fuel : nat) (int_id priority : Z) : G D unit :=
  let! spi := v3_is_extended_spi int_id in
  if spi then
    let! gicd := val_get_gicd_base in
    write_priority (gicd + GICD_IPRIORITYRE) (int_id - EXTENDED_SPI_START_INTID) priority
  else
    let! cpuRd_base := v3_get_pe_gicr_base fuel in
    when negb (cpuRd_base =? 0) then
      write_priority (cpuRd_base + GICR_IPRIORITYR) (u32 (int_id - EXTENDED_PPI_REG_OFFSET)) priority.

Definition cpu_target : Z := mpidr_el1 .& (PE_AFF0 .| PE_AFF1 .| PE_AFF2 .| PE_AFF3).
Definition v3_route_extended_interrupt (int_id : Z) : G D unit :=
  let! gicd := val_get_gicd_base in
  val_mmio_write64 (gicd + GICD_IROUTERn + int_id * 8) cpu_target.

Definition v3_extended_init (fuel : nat) : G D unit :=
  let! espi := val_rme_gic_max_espi_val in
  let! eppi := val_rme_gic_max_eppi_val fuel in
  let spis f := for_range EXTENDED_SPI_START_INTID (espi + 1) f in
  let ppis f := for_range EXTENDED_PPI_START_INTID (eppi + 1) f in
  spis (v3_disable_extended_interrupt_source fuel) ;;
  ppis (v3_disable_extended_interrupt_source fuel) ;;
  spis (fun i => v3_set_extended_interrupt_priority fuel i GIC_DEFAULT_PRIORITY) ;;
  ppis (fun i => v3_set_extended_interrupt_priority fuel i GIC_DEFAULT_PRIORITY) ;;
  spis v3_route_extended_interrupt.

(** ** GICv3 (gic_v3.c) *)

Definition IsSpi (int_id : Z) : bool := (32 <=? int_id) && (int_id <? 1020).

(** The shared body of the enable and disable functions. *)
Definition v3_source (fuel : nat) (extended : Z -> G D unit) (gicd_reg gicr_reg int_id : Z)
    : G D unit :=
  let! ext := is_extended fuel int_id in
  if ext then extended int_id else
  if IsSpi int_id then
    let! gicd := val_get_gicd_base in
    val_mmio_write (gicd + gicd_reg + 4 * (int_id / 32)) (bit32 int_id)
  else
    let! cpuRd_base := v3_get_pe_gicr_base fuel in
    when negb (cpuRd_base =? 0) then
      val_mmio_write (cpuRd_base + GICR_CTLR_FRAME_SIZE + gicr_reg + 4 * (int_id / 32))
        (bit32 int_id).
Definition v3_DisableInterruptSource (fuel : nat) : Z -> G D unit :=
  v3_source fuel (v3_disable_extended_interrupt_source fuel) GICD_ICENABLER GICR_ICENABLER.
Definition v3_EnableInterruptSource (fuel : nat) : Z -> G D unit :=
  v3_source fuel (v3_enable_extended_interrupt_source fuel) GICD_ISENABLER GICR_ISENABLER.

(** The redistributor's register is addressed in its first frame. *)
Definition v3_SetInterruptPriority (fuel : nat) (int_id priority : Z) : G D unit :=
  let! ext := is_extended fuel int_id in
  if ext then v3_set_extended_interrupt_priority fuel int_id priority else
  if IsSpi int_id then
    let! gicd := val_get_gicd_base in
    write_priority (gicd + GICD_IPRIORITYR) int_id priority
  else
    let! cpuRd_base := v3_get_pe_gicr_base fuel in
    when negb (cpuRd_base =? 0) then write_priority (cpuRd_base + GICR_IPRIORITYR) int_id priority.

(** [do { tmp = (WAKER >> 2) & 1; } while (tmp)]. *)
Definition waker_step (rd : Z) (_u : unit) : G D (unit + unit) :=
  let! v := val_mmio_read (rd + GICR_WAKER) in
  ret (if truthy ((v >> 2) .& 0x01) then inl tt else inr tt).
Definition WakeUpRD (fuel : nat) : G D unit :=
  let! cpuRd_base := v3_get_pe_gicr_base fuel in
  if cpuRd_base =? 0 then ret tt else
  let! read_value := val_mmio_read (cpuRd_base + GICR_PWRR) in
  (when truthy (read_value .& 0x01) then
     val_mmio_write (cpuRd_base + GICR_PWRR) (read_value .& bnot 32 0x01)) ;;
  let! tmp := val_mmio_read (cpuRd_base + GICR_WAKER) in
  (when truthy ((tmp >> 1) .& 0x01) then
     val_mmio_write (cpuRd_base + GICR_WAKER) (tmp .& bnot 32 0x02)) ;;
  loop fuel (waker_step cpuRd_base) tt.

Definition val_gic_cpuif_init : G D unit :=
  gact_out (SysWrite ICC_BPR1_EL1 0x7) ;;
  gact_out (SysWrite ICC_PMR_EL1 0xff) ;;
  gact_out (SysWrite ICC_IGRPEN1_EL1 0x1).

(** ** Exceptions (rme_exception.c) *)

Definition val_gic_rme_install_esr (exception_type : Z) (f : esr) : G D unit :=
  let! h := gets g_esr_handler in
  require ((0 <=? exception_type) && (exception_type <? 4)) ;;
  set_esr (fun t => if t =? exception_type then f else h t).
Definition rme_gic_vector_table_init : G D unit :=
  gact_out SetVectors ;; val_gic_rme_install_esr EXCEPT_AARCH64_IRQ default_irq.

(** The tail of [v2_Init] and [v3_Init] up to the priorities. *)
Definition take_interrupts : G D unit :=
  rme_gic_vector_table_init ;;
  (when at_el2 then gact_out (SysWrite HCR_EL2 (1 << 27))) ;;
  gact_out ClearDaif.

Definition v3_Init (fuel : nat) : G D unit :=
  let! espi := val_rme_gic_espi_support in
  let! ext := (if truthy espi then ret true
               else let! eppi := val_rme_gic_eppi_support fuel in ret (truthy eppi)) in
  (when ext then v3_extended_init fuel) ;;
  let! gicd_base := val_get_gicd_base in
  let! n := val_get_max_intid in
  for_range 0 n (v3_DisableInterruptSource fuel) ;;
  take_interrupts ;;
  for_range 0 n (fun i => v3_SetInterruptPriority fuel i GIC_DEFAULT_PRIORITY) ;;
  let! c := val_mmio_read (gicd_base + GICD_CTLR) in
  val_mmio_write (gicd_base + GICD_CTLR) (c .| GIC_ARE_ENABLE) ;;
  let! c := val_mmio_read (gicd_base + GICD_CTLR) in
  val_mmio_write (gicd_base + GICD_CTLR) (c .| 0x2) ;;
  let! _c := val_mmio_read (gicd_base + GICD_CTLR) in
  WakeUpRD fuel ;;
  for_range 0 n (fun i => v3_SetInterruptPriority fuel i GIC_DEFAULT_PRIORITY) ;;
  for_range 0 (n - 32) (fun i => val_mmio_write64 (gicd_base + GICD_IROUTERn + i * 8) cpu_target) ;;
  val_gic_cpuif_init.

(** ** GICv2 (gic_v2.c) *)

Definition v2_AcknowledgeInterrupt : G D Z :=
  let! b := val_get_cpuif_base in val_mmio_read (b + GIC_ICCIAR).
Definition v2_EndofInterrupt (int_id : Z) : G D unit :=
  let! b := val_get_cpuif_base in val_mmio_write (b + GIC_ICCEIOR) int_id.
Definition v2_DisableInterruptSource (int_id : Z) : G D unit :=
  let! gicd := val_get_gicd_base in
  val_mmio_write (gicd + GICD_ICENABLER + 4 * (int_id / 32)) (bit32 int_id).
Definition v2_EnableInterruptSource (int_id : Z) : G D unit :=
  let! gicd := val_get_gicd_base in
  val_mmio_write (gicd + GICD_ISENABLER + 4 * (int_id / 32)) (bit32 int_id).
(** [cpuif_base] is a 32-bit variable. *)
Definition v2_Init : G D unit :=
  let! gicd_base := val_get_gicd_base in
  let! b := val_get_cpuif_base in
  let cpuif_base := u32 b in
  let! n := val_get_max_intid in
  for_range 0 n v2_DisableInterruptSource ;;
  take_interrupts ;;
  for_range 0 n (fun i =>
    let! gicd := val_get_gicd_base in
    write_priority (gicd + GICD_IPRIORITYR) i GIC_DEFAULT_PRIORITY) ;;
  let! cpuTarget := val_mmio_read (gicd_base + GIC_ICDIPTR) in
  (when negb (cpuTarget =? 0) then
     for_range 8 (n / 4) (fun i => val_mmio_write (gicd_base + GIC_ICDIPTR + i * 4) cpuTarget)) ;;
  val_mmio_write (cpuif_base + GIC_ICCBPR) 0x7 ;;
  val_mmio_write (cpuif_base + GIC_ICCPMR) 0xff ;;
  val_mmio_write (cpuif_base + GIC_ICCICR) 0x1 ;;
  let! gicd := val_get_gicd_base in
  val_mmio_write (gicd + GICD_CTRL) 0x1.

(** ** Dispatch on the version (gic.c) *)

Definition by_version {A} (v3 v2 : G D A) : G D A :=
  let! v := val_gic_get_info GIC_INFO_VERSION in if is_v3 v then v3 else v2.
(** ICC_IAR1_EL1 and ICC_EOIR1_EL1. *)
Definition v3_AcknowledgeInterrupt : G D Z := fun s =>
  let '(v, d) := read_iar1 (p_dev (g_pci s)) in
  let p := g_pci s in
  Done (u32 v) (mk_gst (mk_pst d (p_info p) (p_table p) (p_list_flag p) (p_trace p)) (g_table s)
                  (g_intr_handler s) (g_esr_handler s) (AckIntr (u32 v) :: g_acts s)).
Definition v3_EndofInterrupt (int_id : Z) : G D unit := gact_out (EndIntr int_id).
Definition val_rme_gic_init (fuel : nat) : G D unit := by_version (v3_Init fuel) v2_Init.
Definition val_rme_gic_enableInterruptSource (fuel : nat) (int_id : Z) : G D unit :=
  by_version (v3_EnableInterruptSource fuel int_id) (v2_EnableInterruptSource int_id).
Definition val_rme_gic_disableInterruptSource (fuel : nat) (int_id : Z) : G D unit :=
  by_version (v3_DisableInterruptSource fuel int_id) (v2_DisableInterruptSource int_id).
Definition val_rme_gic_acknowledgeInterrupt : G D Z :=
  by_version v3_AcknowledgeInterrupt v2_AcknowledgeInterrupt.
Definition val_rme_gic_endofInterrupt (int_id : Z) : G D unit :=
  by_version (v3_EndofInterrupt int_id) (v2_EndofInterrupt int_id).

(** [isr f] runs the service routine at address [f]. The table has
    [NUM_ARM_MAX_INTERRUPT] entries; the index is not checked. *)
Definition default_irq_handler (isr : Z -> G D unit) : G D unit :=
  let! iar_ack_val := val_rme_gic_acknowledgeInterrupt in
  let ack_interrupt := iar_ack_val .& 0xFFFFFF in
  require (ack_interrupt <? NUM_ARM_MAX_INTERRUPT) ;;
  let! h := gets g_intr_handler in
  (when truthy (h ack_interrupt) then
     (gact_out (CallIsr (h ack_interrupt)) ;; isr (h ack_interrupt))) ;;
  val_rme_gic_endofInterrupt ack_interrupt.

Definition val_gic_rme_install_isr (fuel : nat) (interrupt_id isr : Z) : G D Z :=
  val_rme_gic_disableInterruptSource fuel interrupt_id ;;
  require (interrupt_id <? NUM_ARM_MAX_INTERRUPT) ;;
  let! h := gets g_intr_handler in
  set_isr (fun i => if i =? interrupt_id then isr else h i) ;;
  val_rme_gic_enableInterruptSource fuel interrupt_id ;;
  ret 0.

(** [user f] runs the handler at address [f]. A missing handler is a call of
    NULL. *)
Definition common_exception_handler (isr user : Z -> G D unit) (exception_type : Z) : G D Z :=
  let! h := gets g_esr_handler in
  match h exception_type with
  | NoEsr => undef
  | default_irq => default_irq_handler isr
  | UserEsr f => gact_out (CallEsr f) ;; user f
  end ;;
  ret (if exception_type =? EXCEPT_AARCH64_SYNCHRONOUS_EXCEPTIONS then 1 else 0).

(** ** Interrupt state (acs_gic.c) *)

Definition val_gic_create_info_table (fuel : nat) (c : option platform_gic) : G D Z :=
  match c with
  | None => ret ACS_STATUS_ERR
  | Some c =>
      let t := pal_gic_create_info_table c in
      modify (fun s => mk_gst (g_pci s) (Some t) (g_intr_handler s) (g_esr_handler s) (g_acts s)) ;;
      if num_gicd (header t) =? 0 then ret ACS_STATUS_ERR else
      val_rme_gic_init fuel ;; ret 0
  end.

Definition val_gic_route_interrupt_to_pe (int_id mpidr : Z) : G D Z :=
  (when 31 <? int_id then
     (let! gicd := val_get_gicd_base in
      val_mmio_write64 (gicd + GICD_IROUTER + 8 * int_id)
        (mpidr .& (PE_AFF0 .| PE_AFF1 .| PE_AFF2 .| PE_AFF3)))) ;;
  ret 0.

Definition val_gic_get_interrupt_state (int_id : Z) : G D Z :=
  let reg_offset := int_id / 32 in
  let mask := bit32 int_id in
  let! gicd := val_get_gicd_base in
  let! pending := val_mmio_read (gicd + GICD_ISPENDR + 4 * reg_offset) in
  let! gicd := val_get_gicd_base in
  let! active := val_mmio_read (gicd + GICD_ISACTIVER0 + 4 * reg_offset) in
  ret (b2z (truthy (mask .& active) || truthy (mask .& pending))).

Definition val_gic_clear_interrupt (int_id : Z) : G D unit :=
  let reg_offset := int_id / 32 in
  let! e := val_rme_gic_check_espi_interrupt int_id in
  if truthy e then v3_clear_extended_spi_interrupt int_id
  else if (31 <? int_id) && (int_id <? 1020) then
    let! gicd := val_get_gicd_base in
    val_mmio_write (gicd + GICD_ICPENDR0 + 4 * reg_offset) (bit32 int_id) ;;
    let! gicd := val_get_gicd_base in
    val_mmio_write (gicd + GICD_ICACTIVER0 + 4 * reg_offset) (bit32 int_id)
  else ret tt.

(** The trigger type of an interrupt: the configuration bit at [reg]. *)
Definition trigger_of (reg n int_id : Z) : G D INTR_TRIGGER_INFO_TYPE_e :=
  let! gicd := val_get_gicd_base in
  let! v := val_mmio_read (gicd + reg + 4 * (n / GICD_ICFGR_INTR_STRIDE)) in
  ret (if v .& u32 (1 << GICD_ICFGR_INTR_CONFIG1 int_id) =? 0
       then INTR_TRIGGER_INFO_LEVEL_HIGH else INTR_TRIGGER_INFO_EDGE_RISING).
Definition val_gic_get_intr_trigger_type (int_id : Z)
    : G D (Z * option INTR_TRIGGER_INFO_TYPE_e) :=
  let! m := val_get_max_intid in
  if m <? int_id then ret (ACS_STATUS_ERR, None) else
  let! t := trigger_of GICD_ICFGR int_id int_id in ret (0, Some t).
Definition val_gic_get_espi_intr_trigger_type (int_id : Z)
    : G D (Z * option INTR_TRIGGER_INFO_TYPE_e) :=
  let! ok := (if 4096 <=? int_id then
                let! m := val_rme_gic_max_espi_val in ret (int_id <=? m) else ret false) in
  if negb ok then ret (ACS_STATUS_ERR, None) else
  let! t := trigger_of GICD_ICFGRE (int_id - 4096) int_id in ret (0, Some t).
Definition val_gic_set_intr_trigger (int_id : Z) (trigger_type : INTR_TRIGGER_INFO_TYPE_e)
    : G D unit :=
  let off := 4 * (int_id / GICD_ICFGR_INTR_STRIDE) in
  let bit := u32 (1 << GICD_ICFGR_INTR_CONFIG1 int_id) in
  let! gicd := val_get_gicd_base in
  let! v := val_mmio_read (gicd + GICD_ICFGR + off) in
  let! gicd := val_get_gicd_base in
  val_mmio_write (gicd + GICD_ICFGR + off)
    (match trigger_type with
     | INTR_TRIGGER_INFO_EDGE_RISING => v .| bit
     | _ => v .& bnot 32 bit
     end).
End code.
