(* ===== verification/GicSpec.v ===== *)
(** * GicSpec

    Theorems on the interrupt controller driver: the redistributor search, the
    enable bits, the priority bytes and the dispatch of an interrupt. *)

From Stdlib Require Import ZArith Lia Bool List.
From stdpp Require Import base tactics numbers list gmap option.
From S2P Require Import Prelude Memory El3State Pcie Gic.
Local Open Scope acs_scope.
Local Open Scope Z_scope.

Section gic.
Context {D : Type} {HW : Hw D} {PE : GicPe D}.
Implicit Types s : gst D.

(** Device accesses leave the tables and the handlers alone. *)
Definition same s s' : Prop :=
  g_table s' = g_table s /\ g_intr_handler s' = g_intr_handler s /\
  g_esr_handler s' = g_esr_handler s /\ g_acts s' = g_acts s.
Lemma same_refl s : same s s.
Proof. done. Qed.
Lemma same_trans s1 s2 s3 : same s1 s2 -> same s2 s3 -> same s1 s3.
Proof. unfold same. intuition congruence. Qed.

(** [m] ends and only accesses devices; its result satisfies [Q]. *)
Definition quiet {A} (m : G D A) (Q : A -> Prop) s : Prop :=
  wp m (fun a s' => same s s' /\ Q a) s.

Lemma still_ret {A} (a : A) (Q : A -> Prop) s : Q a -> quiet (ret a) Q s.
Proof. done. Qed.
Lemma still_bind {A B} (m : G D A) (f : A -> G D B) P Q s :
  quiet m P s -> (forall a s', same s s' -> P a -> quiet (f a) Q s') -> quiet (bind m f) Q s.
Proof.
  intros Hm Hf. unfold quiet. apply wp_bind. eapply wp_mono; [|exact Hm].
  intros a s1 [H1 Ha]. eapply wp_mono; [|apply (Hf a s1 H1 Ha)].
  intros b s2 [H2 Hb]. split; [by eapply same_trans|done].
Qed.
Lemma still_mono {A} (m : G D A) (P Q : A -> Prop) s :
  quiet m P s -> (forall a, P a -> Q a) -> quiet m Q s.
Proof. intros H HPQ. eapply wp_mono; [|exact H]. intros a s' [? ?]; auto. Qed.

Lemma still_read a s : quiet (val_mmio_read a) (fun _ => True) s.
Proof.
  unfold quiet, val_mmio_read, pci, wp, zoom, pal_mmio_read.
  by destruct (hw_read _ _ _).
Qed.
Lemma still_read64 a s : quiet (val_mmio_read64 a) (fun _ => True) s.
Proof.
  unfold quiet, val_mmio_read64, pci, wp, zoom, mmio_read_n.
  by destruct (hw_read _ _ _).
Qed.
Lemma still_write a v s : quiet (val_mmio_write a v) (fun _ => True) s.
Proof. done. Qed.
Lemma still_gets {A} (f : gst D -> A) s : quiet (gets f) (fun a => a = f s) s.
Proof. done. Qed.

(** ** The redistributor of a PE *)

(** Frames of a region: the walk reads at most [n] of them. *)
Lemma frame_walk_quiet log fuel affinity base len s :
  0 <= base -> 0 <= len -> base + len + 0x20000 < 2 ^ 64 -> len <= 0x20000 * (Z.of_nat fuel - 1) ->
  quiet (frame_walk log fuel affinity base len)
    (fun r => match r with Some f => base <= f < base + len /\ (f - base) mod 0x20000 = 0 | None => True end) s.
Proof.
  intros Hb Hl Hw Hf. unfold frame_walk.
  replace (u64 (base + len)) with (base + len) by (symmetry; apply wrap_small; lia).
  unfold quiet. apply (wp_loop (fun k f s' => same s s' /\ base <= f /\ (f - base) mod 0x20000 = 0 /\
    f < base + len + 0x20000 /\
    (base + len - f <= 0x20000 * Z.of_nat k)) _ _) with (n := (fuel - 1)%nat).
  - intros k f s' (Hs & Hf1 & Hf2 & Hf4 & Hf3). unfold frame_step.
    destruct (Z.ltb_spec f (base + len)); [|by apply wp_ret].
    apply wp_bind. eapply wp_mono with (P := fun _ s1 => same s s1).
    2: { destruct log; [|done]. apply wp_bind. eapply wp_mono; [|apply still_read64].
         intros t s1 [Hs1 _]. by eapply same_trans. }
    intros [] s1 Hs1. apply wp_bind. eapply wp_mono; [|apply still_read64].
    intros t s2 [Hs2 _]. assert (same s s2) as Hs02 by (by eapply same_trans).
    destruct (_ =? affinity); cbn; [split; [done|lia]|].
    change (GICR_CTLR_FRAME_SIZE + GICR_SGI_PPI_FRAME_SIZE) with 0x20000.
    assert (u64 (f + 0x20000) = f + 0x20000) as -> by (apply wrap_small; lia).
    exists (k - 1)%nat. split; [lia|]. split; [done|]. split; [lia|]. split; [|lia].
    replace (f + 0x20000 - base) with (f - base + 1 * 0x20000) by lia. by rewrite Z_mod_plus_full.
  - lia.
  - split; [done|]. split; [lia|]. rewrite Z.sub_diag. split; [done|]. split; [lia|]. nia.
Qed.

(** ** The search with type registers that do not change *)

Section static.
Variable reg : Z -> Z.
Hypothesis static : forall d a, hw_read 8 d a = (reg a, d).

(** The affinity a frame's type register holds, and [k] frames from [f] on. *)
Definition frame_affinity (f : Z) : Z := (u64 (reg (u64 (f + GICR_TYPER))) .& GICR_TYPER_AFF) >> 32.
Definition frames (f : Z) (k : nat) : list Z := map (fun i => f + 0x20000 * i) (seqZ 0 (Z.of_nat k)).
Definition frame_count (len : Z) : nat := Z.to_nat ((len + 0x1FFFF) / 0x20000).

Lemma frames_cons f k : frames f (S k) = f :: frames (f + 0x20000) k.
Proof.
  unfold frames. rewrite Nat2Z.inj_succ, <- Z.add_1_l, seqZ_app by lia. cbn [map app].
  change (seqZ 0 1) with [0]. cbn [map app]. f_equal; [lia|].
  rewrite (Z.add_comm 0 1), <- fmap_add_seqZ, <- list_fmap_compose.
  apply map_ext. intros i. cbn. lia.
Qed.

Lemma read64_run a s : exists s', val_mmio_read64 a s = Done (u64 (reg (u64 a))) s' /\ same s s'.
Proof.
  unfold val_mmio_read64, pci, zoom, mmio_read_n. rewrite static. eexists. split; [reflexivity|done].
Qed.

Lemma walk_run log affinity fin fuel k f s :
  0 <= f -> fin + 0x20000 < 2 ^ 64 -> fin - f <= 0x20000 * Z.of_nat k ->
  (k <> O -> 0x20000 * (Z.of_nat k - 1) < fin - f) -> (k < fuel)%nat ->
  exists s', loop fuel (frame_step log affinity fin) f s =
    Done (List.find (fun g => frame_affinity g =? affinity) (frames f k)) s' /\ same s s'.
Proof.
  revert f s fuel. induction k as [|k IH]; intros f s fuel Hf Hw Hk Hk1 Hfuel;
    (destruct fuel as [|fuel]; [lia|]); cbn [loop]; unfold frame_step at 1.
  { replace (f <? fin) with false by (symmetry; apply Z.ltb_ge; lia). by exists s. }
  specialize (Hk1 ltac:(done)). replace (f <? fin) with true by (symmetry; apply Z.ltb_lt; lia).
  assert (exists s1, (when log then (let! _typer := val_mmio_read64 (f + GICR_TYPER) in ret tt)) s =
    Done tt s1 /\ same s s1) as (s1 & H1 & Hs1).
  { destruct log; [|by exists s]. destruct (read64_run (f + GICR_TYPER) s) as (s1 & H1 & Hs1).
    exists s1. by rewrite (bind_done _ _ _ _ _ H1). }
  unfold bind at 1. rewrite (bind_done _ _ _ _ _ H1).
  destruct (read64_run (f + GICR_TYPER) s1) as (s2 & H2 & Hs2).
  rewrite (bind_done _ _ _ _ _ H2). fold (frame_affinity f). rewrite frames_cons. cbn [List.find].
  assert (same s s2) as Hs02 by (by eapply same_trans).
  destruct (frame_affinity f =? affinity); [by exists s2|].
  change (GICR_CTLR_FRAME_SIZE + GICR_SGI_PPI_FRAME_SIZE) with 0x20000.
  assert (u64 (f + 0x20000) = f + 0x20000) as -> by (apply wrap_small; lia). unfold ret at 1.
  destruct (IH (f + 0x20000) s2 fuel) as (s3 & H3 & Hs3); [lia..|].
  exists s3. split; [exact H3|]. by eapply same_trans.
Qed.

Lemma frame_walk_run log fuel affinity base len s :
  0 <= base -> 0 <= len -> base + len + 0x20000 < 2 ^ 64 -> (frame_count len < fuel)%nat ->
  exists s', frame_walk log fuel affinity base len s =
    Done (List.find (fun g => frame_affinity g =? affinity) (frames base (frame_count len))) s' /\
    same s s'.
Proof.
  intros Hb Hl Hw Hf. unfold frame_walk.
  replace (u64 (base + len)) with (base + len) by (symmetry; apply wrap_small; lia).
  pose proof (Z.div_mod (len + 0x1FFFF) 0x20000 ltac:(lia)).
  pose proof (Z.mod_pos_bound (len + 0x1FFFF) 0x20000 ltac:(lia)).
  assert (0 <= (len + 0x1FFFF) / 0x20000) by (apply Z.div_pos; lia).
  apply walk_run; [done|done| | |done]; unfold frame_count; rewrite Z2Nat.id by done; lia.
Qed.

Definition region_ok (fuel : nat) (r : Z * Z) : Prop :=
  let '(b, n) := r in
  0 <= b /\ 0 <= n /\ b + n + 0x20000 < 2 ^ 64 /\ (frame_count n < fuel)%nat.

Lemma find_app {A} (f : A -> bool) l k :
  List.find f (l ++ k) = match List.find f l with Some x => Some x | None => List.find f k end.
Proof. induction l as [|x l IH]; [done|]. cbn. by destruct (f x). Qed.

Lemma regions_run fuel affinity t k i s : g_table s = Some t ->
  Forall (region_ok fuel) (map (fun i => gicr_entry i 0 (gic_info t)) (seqZ i (Z.of_nat k))) ->
  exists s', for_acc k i tt (rdbase_step fuel affinity) s =
    Done (match List.find (fun g => frame_affinity g =? affinity)
            (flat_map (fun '(b, n) => frames b (frame_count n))
               (map (fun i => gicr_entry i 0 (gic_info t)) (seqZ i (Z.of_nat k)))) with
          | Some f => inr f | None => inl tt end) s' /\ same s s'.
Proof.
  revert i s. induction k as [|k IH]; intros i s Ht Hok; [by exists s|].
  rewrite Nat2Z.inj_succ, seqZ_cons in * by lia. rewrite Z.pred_succ in *. cbn [map flat_map] in *.
  inversion Hok as [|? ? Hr Hok']; subst. cbn [for_acc]. unfold rdbase_step at 1, val_get_gicr_base.
  unfold bind at 1, bind at 1, bind at 1, gets. rewrite Ht.
  destruct (gicr_entry i 0 (gic_info t)) as [b n]. cbn [ret use].
  destruct Hr as (Hb & Hn & Hw & Hf).
  destruct (frame_walk_run true fuel affinity b n s Hb Hn Hw Hf) as (s1 & H1 & Hs1).
  unfold ret, bind at 1. rewrite (bind_done _ _ _ _ _ H1). rewrite find_app.
  destruct (List.find _ (frames b _)); [by exists s1|].
  destruct (IH (Z.succ i) s1) as (s2 & H2 & Hs2); [by rewrite (proj1 Hs1)|done|].
  exists s2. rewrite Z.add_1_r. split; [exact H2|]. by eapply same_trans.
Qed.

(** The entries of a type, and those in front of the first GICC entry. *)
Definition listing (ty : GIC_INFO_TYPE_e) (l : list GIC_INFO_ENTRY) : list GIC_INFO_ENTRY :=
  List.filter (fun e => bool_decide (ge_type e = ty)) l.
Fixpoint until_gicc (l : list GIC_INFO_ENTRY) : list GIC_INFO_ENTRY :=
  match l with
  | [] => []
  | e :: l' => if decide (ge_type e = ENTRY_TYPE_GICC_GICRD) then [] else e :: until_gicc l'
  end.
(** The frames of the region that a GICR entry describes, and the first frame
    of such regions that is a PE's. *)
Definition region_frames (e : GIC_INFO_ENTRY) : list Z :=
  frames (ge_base e) (frame_count (u32 (ge_length e))).
Definition first_frame (affinity : Z) (l : list GIC_INFO_ENTRY) : Z :=
  or_zero (List.find (fun g => frame_affinity g =? affinity) (flat_map region_frames l)).

(** What the code finds at an index: the GICR entry of that number or else the
    first GICC entry, with no length. *)
Lemma gicr_entry_listing l i k : 0 <= k <= i ->
  gicr_entry i k l =
  match listing ENTRY_TYPE_GICR_GICRD (until_gicc l) !! Z.to_nat (i - k) with
  | Some e => (ge_base e, u32 (ge_length e))
  | None => match listing ENTRY_TYPE_GICC_GICRD l with e :: _ => (ge_base e, 0) | [] => (0, 0) end
  end.
Proof.
  revert k. induction l as [|e l IH]; intros k Hk; [done|]. cbn [gicr_entry until_gicc].
  unfold listing in *. destruct (decide (ge_type e = ENTRY_TYPE_GICR_GICRD)) as [E|E].
  - rewrite decide_False by (rewrite E; discriminate). cbn [List.filter].
    rewrite bool_decide_true, bool_decide_false, E by (done || by rewrite E).
    destruct (Z.eqb_spec k i) as [->|Hne]; [by rewrite Z.sub_diag|].
    rewrite IH by lia. by replace (Z.to_nat (i - k)) with (S (Z.to_nat (i - (k + 1)))) by lia.
  - destruct (decide (ge_type e = ENTRY_TYPE_GICC_GICRD)) as [E'|E']; cbn [List.filter].
    + by rewrite bool_decide_true, E' by done.
    + rewrite !bool_decide_false by done. rewrite IH by lia. by destruct (ge_type e).
Qed.

(** Each entry of a redistributor lies in the 64-bit space, and the fuel is
    enough for its frames. *)
Definition entry_ok (fuel : nat) (e : GIC_INFO_ENTRY) : Prop :=
  match ge_type e with
  | ENTRY_TYPE_GICR_GICRD => region_ok fuel (ge_base e, u32 (ge_length e))
  | ENTRY_TYPE_GICC_GICRD => region_ok fuel (ge_base e, 0)
  | _ => True
  end.
Lemma listing_ok fuel ty l : Forall (entry_ok fuel) l ->
  Forall (fun e => ge_type e = ty /\ entry_ok fuel e) (listing ty l).
Proof.
  induction 1 as [|e l He H IH]; [constructor|]. unfold listing in *. cbn [List.filter].
  case_bool_decide; [by constructor|done].
Qed.
Lemma until_gicc_ok fuel l : Forall (entry_ok fuel) l -> Forall (entry_ok fuel) (until_gicc l).
Proof.
  induction 1 as [|e l He H IH]; [constructor|]. cbn. destruct (decide _); [constructor|by constructor].
Qed.
Lemma gicr_entry_ok fuel l i : (0 < fuel)%nat -> Forall (entry_ok fuel) l -> 0 <= i ->
  region_ok fuel (gicr_entry i 0 l).
Proof.
  intros Hf Hl Hi. rewrite gicr_entry_listing by lia.
  destruct (_ !! _) as [e|] eqn:E.
  - pose proof (listing_ok _ ENTRY_TYPE_GICR_GICRD _ (until_gicc_ok _ _ Hl)) as H.
    rewrite Forall_lookup in H. destruct (H _ _ E) as [Ht He]. unfold entry_ok in He. by rewrite Ht in He.
  - pose proof (listing_ok _ ENTRY_TYPE_GICC_GICRD _ Hl) as H.
    destruct (listing ENTRY_TYPE_GICC_GICRD l) as [|e l']; [|inversion H as [|? ? [Ht He]]; subst].
    + unfold region_ok. change (frame_count 0) with 0%nat. lia.
    + unfold entry_ok in He. by rewrite Ht in He.
Qed.
(** The frames of the first [k] indices are those of the first [k] GICR entries
    in front of a GICC entry. *)
Lemma indices_frames l k i : 0 <= i ->
  flat_map (fun '(b, n) => frames b (frame_count n))
    (map (fun i => gicr_entry i 0 l) (seqZ i (Z.of_nat k))) =
  flat_map region_frames
    (take k (drop (Z.to_nat i) (listing ENTRY_TYPE_GICR_GICRD (until_gicc l)))).
Proof.
  revert i. induction k as [|k IH]; intros i Hi; [done|].
  rewrite Nat2Z.inj_succ, seqZ_cons by lia. rewrite Z.pred_succ. cbn [map flat_map].
  rewrite gicr_entry_listing, Z.sub_0_r, IH by lia.
  replace (Z.to_nat (Z.succ i)) with (S (Z.to_nat i)) by lia.
  set (L := listing ENTRY_TYPE_GICR_GICRD (until_gicc l)).
  destruct (L !! Z.to_nat i) as [e|] eqn:E.
  - by rewrite (drop_S _ _ _ E).
  - apply lookup_ge_None in E. rewrite !drop_ge, !take_nil by lia. cbn [flat_map].
    rewrite app_nil_r. by destruct (listing ENTRY_TYPE_GICC_GICRD l).
Qed.
Lemma until_gicc_all l : listing ENTRY_TYPE_GICC_GICRD l = [] -> until_gicc l = l.
Proof.
  induction l as [|e l IH]; [done|]. unfold listing in *. cbn [List.filter until_gicc].
  case_bool_decide; [done|]. intros H1. destruct (decide _); [done|]. by rewrite IH.
Qed.

Lemma until_gicc_none l : listing ENTRY_TYPE_GICR_GICRD l = [] ->
  listing ENTRY_TYPE_GICR_GICRD (until_gicc l) = [].
Proof.
  induction l as [|e l IH]; [done|]. unfold listing in *. cbn [List.filter until_gicc].
  case_bool_decide; [done|]. intros H1. destruct (decide _); [done|]. cbn [List.filter].
  rewrite bool_decide_false by done. auto.
Qed.
Lemma single_frame_run affinity f s : exists s',
  single_frame affinity f s = Done (if frame_affinity f =? affinity then f else 0) s' /\ same s s'.
Proof.
  destruct (read64_run (f + GICR_TYPER) s) as (s' & H & Hs). exists s'. split; [|done].
  unfold single_frame. by rewrite (bind_done _ _ _ _ _ H).
Qed.

(** C29. [val_gic_get_pe_rdbase] ends and changes no state of the driver. With a
    table of GICR entries that the header counts, and no GICC entry, it returns
    the first redistributor frame, in the order of the entries and of the
    addresses in each, whose affinity is that of the PE, or 0 when there is
    none. In general a header that counts [n > 0] entries makes it try only the
    first [n] GICR entries in front of the first GICC entry: of a table of GICC
    entries that the header counts, as the UEFI platform makes it, no frame is tried
    and the result is always 0. With a header that counts none and no GICR
    entry it tries the frame of the first GICC entry only. The type registers
    of the frames do not change, and each region lies in the 64-bit space. *)
Theorem pe_rdbase_first fuel mpidr t s : g_table s = Some t -> (0 < fuel)%nat ->
  0 <= num_gicrd (header t) -> Forall (entry_ok fuel) (gic_info t) ->
  let num := num_gicrd (header t) in
  let affinity := affinity_of mpidr in
  let gicr := listing ENTRY_TYPE_GICR_GICRD in
  let gicc := listing ENTRY_TYPE_GICC_GICRD (gic_info t) in
  exists r s', val_gic_get_pe_rdbase fuel mpidr s = Done r s' /\ same s s' /\
    (gicc = [] -> num = Z.of_nat (length (gicr (gic_info t))) ->
     r = first_frame affinity (gicr (gic_info t))) /\
    (0 < num -> r = first_frame affinity (take (Z.to_nat num) (gicr (until_gicc (gic_info t))))) /\
    (0 < num -> gicr (until_gicc (gic_info t)) = [] -> r = 0) /\
    (num = 0 -> gicr (gic_info t) = [] ->
     r = match gicc with
         | e :: _ => if frame_affinity (ge_base e) =? affinity then ge_base e else 0
         | [] => 0
         end).
Proof.
  intros Ht Hfuel Hn Hok num affinity gicr gicc.
  assert (exists s', (let! r := for_acc (Z.to_nat num) 0 tt (rdbase_step fuel affinity) in
      ret (match r with inl _ => 0 | inr f => f end)) s =
    Done (first_frame affinity (take (Z.to_nat num) (gicr (until_gicc (gic_info t))))) s' /\
    same s s') as (s1 & Hloop & Hs1).
  { destruct (regions_run fuel affinity t (Z.to_nat num) 0 s Ht) as (s' & H & Hs).
    { apply Forall_forall. intros x Hx. apply in_map_iff in Hx as (i & <- & Hi).
      apply list_elem_of_In, elem_of_seqZ in Hi. apply gicr_entry_ok; [done|done|lia]. }
    rewrite indices_frames in H by lia. rewrite drop_0 in H.
    rewrite (bind_done _ _ _ _ _ H).
    exists s'. split; [|done]. unfold ret, first_frame. by destruct (List.find _ _). }
  unfold val_gic_get_pe_rdbase. unfold bind at 1, bind at 1, gets. rewrite Ht.
  cbn [use ret]. unfold ret at 1. cbv beta iota zeta. fold num affinity.
  destruct (Z.eqb_spec num 0) as [E0|Hne].
  2:{ do 2 eexists. split; [exact Hloop|]. split; [done|]. split_and!; try done.
      - intros Hc ->. unfold gicc in Hc. rewrite until_gicc_all, Nat2Z.id by done. by rewrite firstn_all.
      - intros _ ->. by rewrite take_nil. }
  assert (val_get_gicr_base 0 s =
    Done (fst (gicr_entry 0 0 (gic_info t)), Some (snd (gicr_entry 0 0 (gic_info t)))) s) as Hb.
  { unfold val_get_gicr_base, bind, gets, ret. rewrite Ht. by destruct (gicr_entry _ _ _). }
  rewrite (bind_done _ _ _ _ _ Hb). cbn [use]. rewrite bind_ret.
  destruct (Z.eqb_spec (snd (gicr_entry 0 0 (gic_info t))) 0) as [Hz|Hz].
  - destruct (single_frame_run affinity (fst (gicr_entry 0 0 (gic_info t))) s) as (s2 & H2 & Hs2).
    do 2 eexists. split; [exact H2|]. split; [done|]. clear Hb Hz Hloop.
    split_and!; [|lia|lia|].
    + intros Hc Hl. destruct (gicr (gic_info t)) eqn:Eg; [|cbn in Hl; lia].
      rewrite gicr_entry_listing, Z.sub_diag, until_gicc_all by (exact Hc || lia).
      unfold gicr, gicc in *. rewrite Eg, Hc. rewrite lookup_nil. cbn [fst].
      by destruct (frame_affinity 0 =? affinity).
    + intros _ Hg. rewrite gicr_entry_listing, Z.sub_diag by lia.
      assert (listing ENTRY_TYPE_GICR_GICRD (until_gicc (gic_info t)) = []) as ->.
      { by apply until_gicc_none. }
      rewrite lookup_nil. unfold gicc. destruct (listing ENTRY_TYPE_GICC_GICRD _); [|done].
      cbn [fst]. by destruct (frame_affinity 0 =? affinity).
  - do 2 eexists. split; [exact Hloop|]. split; [done|].
    split_and!; [|done|lia|].
    + intros Hc Hl. destruct (gicr (gic_info t)) eqn:Eg; [|cbn in Hl; lia].
      unfold gicc in Hc. by rewrite until_gicc_all, Eg, take_nil by done.
    + intros _ Hg. rewrite gicr_entry_listing, Z.sub_diag in Hz by lia.
      rewrite until_gicc_none, lookup_nil in Hz by done. 
      unfold gicc in *. by destruct (listing ENTRY_TYPE_GICC_GICRD _).
Qed.
End static.

(** ** Enable bits *)

(** Enabling and disabling a shared peripheral interrupt is one write of the
    interrupt's bit to the distributor's set-enable, or clear-enable, register
    that holds it. *)
Theorem spi_source fuel int_id t s :
  g_table s = Some t -> 32 <= int_id < 1020 ->
  let gicd := base_of ENTRY_TYPE_GICD (gic_info t) in
  0 <= gicd -> aligned gicd 0x10000 -> gicd + 0x10000 < 2 ^ 64 ->
  let reg off := gicd + off + 4 * (int_id / 32) in
  wp (v3_EnableInterruptSource fuel int_id) (fun _ s' => same s s' /\
    p_trace (g_pci s') = EvWrite 4 (reg 0x100) (2 ^ (int_id mod 32)) :: p_trace (g_pci s)) s /\
  wp (v3_DisableInterruptSource fuel int_id) (fun _ s' => same s s' /\
    p_trace (g_pci s') = EvWrite 4 (reg 0x180) (2 ^ (int_id mod 32)) :: p_trace (g_pci s)) s.
Proof.
  intros Ht Hi gicd Hg Hal Hw reg.
  assert (forall ext off, off = 0x100 \/ off = 0x180 -> forall gicr,
    wp (v3_source fuel ext off gicr int_id) (fun _ s' => same s s' /\
      p_trace (g_pci s') = EvWrite 4 (reg off) (2 ^ (int_id mod 32)) :: p_trace (g_pci s)) s) as H.
  2: { split; apply H; tauto. }
  intros ext off Hoff gicr. unfold v3_source, is_extended, v3_is_extended_spi, v3_is_extended_ppi.
  replace (EXTENDED_SPI_START_INTID <=? int_id) with false
    by (symmetry; apply Z.leb_gt; unfold EXTENDED_SPI_START_INTID; lia).
  replace (EXTENDED_PPI_START_INTID <=? int_id) with false
    by (symmetry; apply Z.leb_gt; unfold EXTENDED_PPI_START_INTID; lia).
  do 2 apply wp_bind. do 2 apply wp_ret.
  assert (IsSpi int_id = true) as ->.
  { unfold IsSpi. apply andb_true_intro. split; [apply Z.leb_le|apply Z.ltb_lt]; lia. }
  unfold val_get_gicd_base, table_base, bind, gets, wp. rewrite Ht. cbn [ret]. unfold ret.
  unfold val_mmio_write, pci, zoom, pal_mmio_write, mmio_store. fold gicd. fold (reg off).
  assert (0 <= int_id / 32 < 32) as Hq by (split; [apply Z.div_pos|apply Z.div_lt_upper_bound]; lia).
  replace (u64 (reg off)) with (reg off) by (symmetry; apply wrap_small; unfold reg; lia).
  assert (truthy (reg off .& 0x3) = false) as ->.
  { unfold truthy. change 0x3 with (2 ^ 2 - 1).
    rewrite (proj2 (land_low_aligned 2 (reg off) ltac:(lia))); [done|].
    unfold aligned in *. unfold reg. change (2 ^ 2) with 4.
    pose proof (Z.div_mod gicd 0x10000 ltac:(lia)).
    destruct Hoff as [-> | ->].
    - replace (gicd + 0x100 + 4 * (int_id / 32)) with ((0x4000 * (gicd / 0x10000) + 0x40 + int_id / 32) * 4) by lia.
      by apply Z.mod_mul.
    - replace (gicd + 0x180 + 4 * (int_id / 32)) with ((0x4000 * (gicd / 0x10000) + 0x60 + int_id / 32) * 4) by lia.
      by apply Z.mod_mul. }
  split; [done|]. cbn. do 2 f_equal. unfold bit32, u32. rewrite Z.shiftl_1_l.
  pose proof (Z.mod_pos_bound int_id 32 ltac:(lia)).
  assert (2 ^ (int_id mod 32) < 2 ^ 32) by (apply Z.pow_lt_mono_r; lia).
  rewrite !wrap_small; [done|lia|]. rewrite wrap_small; lia.
Qed.

(** For an extended shared peripheral interrupt enabling does what disabling
    does: both write the clear-enable register. *)
Theorem espi_enable_disables fuel int_id t s s1 s2 :
  v3_is_extended_spi int_id s = Done true s1 -> v3_is_extended_spi int_id s1 = Done true s2 ->
  g_table s2 = Some t ->
  let n := int_id - 4096 in
  let clear := val_mmio_write (base_of ENTRY_TYPE_GICD (gic_info t) + 0x1400 + 4 * (n / 32))
                 (bit32 n) s2 in
  v3_EnableInterruptSource fuel int_id s = clear /\ v3_DisableInterruptSource fuel int_id s = clear.
Proof.
  intros H H1 Ht n clear.
  assert (forall gicr, extended_source fuel GICD_ICENABLERE gicr int_id s1 = clear) as He.
  { intros gicr. unfold extended_source. rewrite (bind_done _ _ _ _ _ H1).
    unfold val_get_gicd_base, table_base, bind, gets. by rewrite Ht. }
  unfold v3_EnableInterruptSource, v3_DisableInterruptSource, v3_source, is_extended.
  unfold bind, ret. rewrite H. split; apply He.
Qed.

(** ** Priorities *)

(** Setting a priority replaces one byte of the 32-bit priority register and
    keeps the other three. *)
Theorem priority_byte old n priority k : 0 <= old < 2 ^ 32 -> 0 <= n -> 0 <= priority < 256 ->
  0 <= k < 4 ->
  fld (8 * k) 8 (priority_value old n priority) =
  if k =? n mod 4 then priority else fld (8 * k) 8 old.
Proof.
  intros Ho Hn Hp Hk. unfold priority_value, bnot, u32.
  pose proof (Z.mod_pos_bound n 4 ltac:(lia)) as Hm. set (m := n mod 4) in *.
  change 0xff with (Z.ones 8).
  assert (0 <= (if k =? m then priority else fld (8 * k) 8 old) < 2 ^ 8).
  { destruct (k =? m); [lia|]. apply (fld_range (8 * k) 8). lia. }
  apply (bits_ext 8); [lia|apply fld_range; lia|done|]. intros i Hi.
  rewrite testbit_fld, Z.lor_spec, Z.land_spec, !testbit_wrap, Z.lnot_spec, testbit_wrap by lia.
  rewrite !Z.shiftl_spec, Z.testbit_ones by lia.
  replace (i <? 8) with true by lia. replace (i + 8 * k <? 32) with true by lia.
  rewrite !andb_true_r.
  destruct (Z.eqb_spec k m) as [->|Hne].
  - replace (i + 8 * m - m * 8) with i by lia. replace (0 <=? i) with true by lia.
    replace (i <? 8) with true by lia. cbn. by rewrite andb_false_r.
  - rewrite testbit_fld by lia. replace (i <? 8) with true by lia. rewrite andb_true_r.
    assert (Z.testbit priority (i + 8 * k - m * 8) = false) as ->.
    { destruct (Z.ltb_spec (i + 8 * k - m * 8) 0); [by apply Z.testbit_neg_r|].
      apply (testbit_high 8); lia. }
    replace ((0 <=? i + 8 * k - m * 8) && (i + 8 * k - m * 8 <? 8)) with false by lia.
    by rewrite orb_false_r, andb_true_r.
Qed.

(** ** Dispatch *)

(** C36. An IRQ whose acknowledge register reads an interrupt's ID acknowledges
    it, runs the routine installed for that ID and ends the interrupt, in this
    order; an interrupt without a routine is only acknowledged and ended. *)
Theorem irq_runs_isr isr user f int_id t s d :
  g_table s = Some t -> is_v3 (gic_version (header t)) = true ->
  g_esr_handler s EXCEPT_AARCH64_IRQ = default_irq ->
  0 <= int_id < NUM_ARM_MAX_INTERRUPT -> g_intr_handler s int_id = f ->
  read_iar1 (p_dev (g_pci s)) = (int_id, d) ->
  (forall a s, wp (isr a) (fun _ s' => g_table s' = g_table s /\
     exists l, g_acts s' = l ++ g_acts s) s) ->
  wp (common_exception_handler isr user EXCEPT_AARCH64_IRQ) (fun r s' => r = 0 /\
    exists l, g_acts s' = EndIntr int_id ::
      (if f =? 0 then [] else l ++ [CallIsr f]) ++ [AckIntr int_id] ++ g_acts s) s.
Proof.
  intros Ht Hv He Hi Hf Hr Hisr. unfold common_exception_handler. apply wp_bind, wp_gets.
  rewrite He. apply wp_bind.
  assert (forall s2, g_table s2 = Some t ->
    val_gic_get_info GIC_INFO_VERSION s2 = Done (gic_version (header t)) s2) as Hver.
  { intros s2 Ht2. unfold val_gic_get_info, val_get_gicd_base, table_base, bind, gets, ret.
    rewrite Ht2. destruct (Z.eqb_spec (gic_version (header t)) 0) as [E|]; [|done].
    by rewrite E in Hv. }
  assert (u32 int_id = int_id) as Hu.
  { unfold NUM_ARM_MAX_INTERRUPT in *. apply wrap_small. lia. }
  unfold default_irq_handler, val_rme_gic_acknowledgeInterrupt, by_version.
  do 2 apply wp_bind. eapply wp_intro; [by apply Hver|]. rewrite Hv.
  unfold v3_AcknowledgeInterrupt at 1, wp at 1. rewrite Hr, Hu.
  assert (int_id .& 0xFFFFFF = int_id) as ->.
  { change 0xFFFFFF with (Z.ones 24). rewrite Z.land_ones by lia.
    unfold NUM_ARM_MAX_INTERRUPT in *. apply Z.mod_small. lia. }
  apply wp_bind. apply wp_require; [apply Z.ltb_lt; lia|].
  apply wp_bind, wp_gets. cbn [g_intr_handler]. rewrite Hf. apply wp_bind.
  eapply wp_mono with (P := fun _ s' => g_table s' = Some t /\ exists l, g_acts s' =
    (if f =? 0 then [] else l ++ [CallIsr f]) ++ [AckIntr int_id] ++ g_acts s).
  - intros [] s1 [Ht1 (l & Ha)]. unfold val_rme_gic_endofInterrupt, by_version. apply wp_bind.
    eapply wp_intro; [by apply Hver|]. rewrite Hv. cbn. split; [done|]. exists l.
    cbn. by rewrite Ha.
  - unfold truthy. destruct (Z.eqb_spec f 0); cbn [negb].
    + apply wp_ret. split; [done|]. by exists [].
    + apply wp_bind. cbn. eapply wp_mono; [|apply Hisr]. intros [] s1 [Ht1 (l & Ha)].
      split; [by rewrite Ht1|]. exists l. rewrite Ha. cbn. by rewrite <- app_assoc.
Qed.
End gic.

(** ** Runs *)
Section runs.
(** Two redistributor frames at 0x50000000, of the PEs 0.0.0.0 and 0.0.1.0; 32
    extended SPIs; interrupt 40 is pending. *)
Definition demo_typer (a : Z) : Z :=
  if a =? 0x50000008 then 0 else if a =? 0x50020008 then 0x100 << 32 else 0x100.
#[local] Instance gic_hw : Hw unit := {
  hw_read _ d a := (demo_typer a, d); hw_write _ d _ _ := d; hw_at_s1e3w _ _ v := v
}.
#[local] Instance gic_pe : GicPe unit := {
  mpidr_el1 := 0; at_el2 := true; read_iar1 d := (40, d)
}.
Definition demo_platform : platform_gic :=
  mk_platform_gic 3 [0] [0x50000000] 0x40000 [0x2F000000] [(0x2F020000, 0)] [] [].
Definition demo_gst (f : Z) : gst unit :=
  mk_gst (mk_pst tt None None 0 []) (Some (pal_gic_create_info_table demo_platform))
    (fun i => if i =? 40 then f else 0) (fun t => if t =? 1 then default_irq else NoEsr) [].

(** A table of two GICC entries whose second frame is the PE's; the header
    counts [n]. *)
Definition gicc_table (n : Z) : GIC_INFO_TABLE :=
  mk_gic_table (mk_gic_hdr 3 1 n 0 0 0)
    [mk_gic_entry ENTRY_TYPE_GICC_GICRD 0x50000000 0 0;
     mk_gic_entry ENTRY_TYPE_GICC_GICRD 0x50020000 0 0].
Definition gicc_gst (n : Z) : gst unit :=
  mk_gst (mk_pst tt None None 0 []) (Some (gicc_table n)) (fun _ => 0) (fun _ => NoEsr) [].

Lemma pe_rdbase_first_witness :
  (exists s', val_gic_get_pe_rdbase 4 0x100 (demo_gst 0) = Done 0x50020000 s') /\
  (exists s', val_gic_get_pe_rdbase 4 0x100 (gicc_gst 2) = Done 0 s') /\
  (exists s', val_gic_get_pe_rdbase 4 0 (gicc_gst 0) = Done 0x50000000 s').
Proof.
  split; [|split].
  - destruct (pe_rdbase_first (HW := gic_hw) demo_typer (fun d a => eq_refl) 4 0x100
      (pal_gic_create_info_table demo_platform) (demo_gst 0)) as (r & s' & H & _ & Hr & _);
      [reflexivity|lia|vm_compute; discriminate|
       repeat constructor; vm_compute; first [reflexivity|discriminate|lia]|].
    exists s'. rewrite H. f_equal. rewrite Hr by (vm_compute; reflexivity). vm_compute. reflexivity.
  - destruct (pe_rdbase_first (HW := gic_hw) demo_typer (fun d a => eq_refl) 4 0x100
      (gicc_table 2) (gicc_gst 2)) as (r & s' & H & _ & _ & _ & Hr & _);
      [reflexivity|lia|vm_compute; discriminate|
       repeat constructor; vm_compute; first [reflexivity|discriminate|lia]|].
    exists s'. rewrite H. f_equal. apply Hr; reflexivity.
  - destruct (pe_rdbase_first (HW := gic_hw) demo_typer (fun d a => eq_refl) 4 0
      (gicc_table 0) (gicc_gst 0)) as (r & s' & H & _ & _ & _ & _ & Hr);
      [reflexivity|lia|vm_compute; discriminate|
       repeat constructor; vm_compute; first [reflexivity|discriminate|lia]|].
    exists s'. rewrite H. f_equal. rewrite Hr by reflexivity. vm_compute. reflexivity.
Defined.

Lemma spi_source_witness :
  wp (v3_EnableInterruptSource 4 40) (fun _ s' =>
    p_trace (g_pci s') = [EvWrite 4 0x2F000104 0x100]) (demo_gst 0).
Proof.
  destruct (spi_source 4 40 (pal_gic_create_info_table demo_platform) (demo_gst 0)) as [H _];
    [reflexivity|lia|vm_compute; discriminate|vm_compute; reflexivity|vm_compute; reflexivity|].
  eapply wp_mono; [|exact H]. intros [] s' [_ Ht]. rewrite Ht. vm_compute. reflexivity.
Defined.

Lemma espi_enable_disables_witness :
  v3_EnableInterruptSource 4 4100 (demo_gst 0) = v3_DisableInterruptSource 4 4100 (demo_gst 0).
Proof.
  edestruct (espi_enable_disables 4 4100 (pal_gic_create_info_table demo_platform) (demo_gst 0))
    as [H1 H2]; [vm_compute; reflexivity|vm_compute; reflexivity|reflexivity|].
  rewrite H1. symmetry. exact H2.
Defined.

Lemma priority_byte_witness : fld 16 8 (priority_value 0x11223344 6 0x80) = 0x80.
Proof. exact (priority_byte 0x11223344 6 0x80 2 ltac:(lia) ltac:(lia) ltac:(lia) ltac:(lia)). Defined.

Lemma irq_runs_isr_witness :
  wp (common_exception_handler (fun _ => ret tt) (fun _ => ret tt) 1) (fun r s' =>
    r = 0 /\ exists l, g_acts s' = EndIntr 40 :: l ++ [CallIsr 0x1000; AckIntr 40]) (demo_gst 0x1000).
Proof.
  eapply wp_mono; [|apply (irq_runs_isr (fun _ => ret tt) (fun _ => ret tt) 0x1000 40
    (pal_gic_create_info_table demo_platform) (demo_gst 0x1000) tt)];
    [|reflexivity|reflexivity|reflexivity|vm_compute; split; congruence|reflexivity|reflexivity|].
  - intros r s' [Hr (l & Ha)]. split; [exact Hr|]. exists l. rewrite Ha. cbn.
    rewrite <- app_assoc. reflexivity.
  - intros a s. split; [reflexivity|]. exists []. reflexivity.
Defined.
End runs.
