(* ===== verification/GicIts.v ===== *)
(** * GicIts

    Message-signalled interrupts: the ITS driver of
    val/sys_arch_src/gic/its/ (rme_gic_its.c, rme_gic_redistributor.c) and the
    functions of val/src/acs_gic_support.c that use it, with the MSI-X table
    of a PCIe Function. *)

From Stdlib Require Import ZArith Lia Bool List.
From stdpp Require Import base tactics numbers list gmap option.
From S2P Require Import Prelude Memory El3State Pcie Gic TestRun.
Local Open Scope acs_scope.
Local Open Scope Z_scope.

(** ** Constants (rme_gic_its.h, rme_acs_pcie_spec.h, rme_acs_gic_support.h) *)
Definition SIZE_4KB : Z := 0x1000.
Definition SIZE_64KB : Z := 0x10000.
Definition PAGE_SIZE_4K : Z := 0x1000.
Definition PAGE_SIZE_16K : Z := 4 * 0x1000.
Definition PAGE_SIZE_64K : Z := 16 * 0x1000.
Definition PAGE_SHIFT : Z := 12.
Definition SIZE_TO_PAGES (Size : Z) : Z :=
  (Size >> PAGE_SHIFT) + (if truthy (Size .& 0xFFF) then 1 else 0).
Definition PAGES_TO_SIZE (Pages : Z) : Z := u32 (Pages << PAGE_SHIFT).
Definition ARM_LPI_MINID : Z := 8192.
Definition ARM_LPI_MIN_IDBITS : Z := 14.
Definition ARM_LPI_MAX_IDBITS : Z := 31.
Definition WAIT_ITS_COMMAND_DONE : Z := 10000.
Definition ARM_GICD_TYPER : Z := 0x0004.
Definition ARM_GICD_TYPER_LPIS : Z := 1 << 17.
Definition ARM_GICD_TYPER_IDbits (v : Z) : Z := (v >> 19) .& 0x1F.
Definition ARM_GICR_CTLR : Z := 0x0000.
Definition ARM_GICR_PROPBASER : Z := 0x0070.
Definition ARM_GICR_PENDBASER : Z := 0x0078.
Definition ARM_GICR_CTLR_ENABLE_LPIS : Z := 1 << 0.
Definition ARM_GICR_TYPER : Z := 0x0008.
Definition NEXT_DW_OFFSET : Z := 0x4.
Definition ARM_GICR_TYPER_PLPIS : Z := 1 << 0.
Definition ARM_GICR_TYPER_VLPIS : Z := 1 << 1.
Definition ARM_GICR_TYPER_PN_MASK : Z := 0xFFFF00.
Definition ARM_GICR_TYPER_PN_SHIFT : Z := 8.
Definition ARM_GICR_PROPBASER_IDbits (v : Z) : Z := v .& 0x1F.
Definition ARM_GICR_PROPBASER_PA_MASK : Z := ((1 << 40) - 1) << 12.
Definition ARM_GICR_PROPBASER_ATTR_MASK : Z := 0xf80.
Definition ARM_GICR_PROPBASER_ATTR_VALUE : Z := 0xB80.
Definition ARM_GICR_PENDBASER_PA_MASK : Z := ((1 << 36) - 1) << 16.
Definition ARM_GITS_CTLR : Z := 0x0000.
Definition ARM_GITS_TYPER : Z := 0x0008.
Definition ARM_GITS_CBASER : Z := 0x0080.
Definition ARM_GITS_CWRITER : Z := 0x0088.
Definition ARM_GITS_CREADR : Z := 0x0090.
Definition ARM_GITS_BASER (n : Z) : Z := 0x0100 + 8 * n.
Definition ARM_GITS_TRANSLATER : Z := 0x10040.
Definition ARM_GITS_CTLR_ENABLE : Z := 1 << 0.
Definition ARM_NUM_GITS_BASER : Z := 8.
Definition ARM_GITS_BASER_INDIRECT : Z := 1 << 62.
Definition ARM_GITS_BASER_GET_TYPE (v : Z) : Z := (v >> 56) .& 0x7.
Definition ARM_GITS_BASER_GET_ENTRY_SIZE (v : Z) : Z := (v >> 48) .& 0x1F.
Definition ARM_GITS_BASER_PA_MASK : Z := ((1 << 36) - 1) << 12.
Definition ARM_GITS_BASER_VALID : Z := 1 << 63.
Definition ARM_GITS_BASER_PAGE_SHIFT : Z := 8.
Definition ARM_GITS_BASER_PAGE_MASK : Z := 3 << 8.
Definition ARM_GITS_BASER_MAX_PAGES : Z := 256.
Definition ARM_GITS_BASER_INDIRECT_LVL1_ENTRY_SIZE : Z := 8.
Definition ARM_GITS_BASER_PGSZ_4K : Z := 0.
Definition ARM_GITS_BASER_PGSZ_16K : Z := 1.
Definition ARM_GITS_BASER_PGSZ_64K : Z := 2.
Definition ARM_GITS_TBL_TYPE_DEVICE : Z := 0x1.
Definition ARM_GITS_TBL_TYPE_CLCN : Z := 0x4.
Definition ARM_GITS_TYPER_DevBits (v : Z) : Z := (v >> 13) .& 0x1F.
Definition ARM_GITS_TYPER_CIDBits (v : Z) : Z := (v >> 32) .& 0xF.
Definition ARM_GITS_TYPER_IDbits (v : Z) : Z := (v >> 8) .& 0x1F.
Definition ARM_GITS_TYPER_PTA : Z := 1 << 19.
Definition ARM_GITS_CREADR_STALL : Z := 1 << 0.
Definition ARM_GITS_CWRITER_RETRY : Z := 1 << 0.
Definition ARM_GITS_CBASER_VALID : Z := 1 << 63.
Definition ARM_GITS_CBASER_PA_MASK : Z := ((1 << 40) - 1) << 12.
Definition ITT_PAR_MASK : Z := ((1 << 44) - 1) << 8.
(** Inner and outer cacheability and shareability of a table. *)
Definition table_attributes : Z := (7 << 59) .| (7 << 53) .| (2 << 10).
Definition LPI_PRIORITY1 : Z := 0x50.
Definition LPI_PRIORITY_MASK : Z := 0xFC.
Definition LPI_ENABLE : Z := 1 << 0.
Definition LPI_DISABLE : Z := 0x0.
Definition ARM_ITS_CMD_MAPD : Z := 0x8.
Definition ARM_ITS_CMD_MAPC : Z := 0x9.
Definition ARM_ITS_CMD_MAPTI : Z := 0xA.
Definition ARM_ITS_CMD_INV : Z := 0xC.
Definition ARM_ITS_CMD_DISCARD : Z := 0xF.
Definition ARM_ITS_CMD_SYNC : Z := 0x5.
Definition RD_BASE_SHIFT : Z := 16.
Definition NUM_PAGES_8 : Z := 8.
Definition ITS_CMD_SHIFT_DEVID : Z := 32.
Definition ITS_CMD_SHIFT_VALID : Z := 63.
Definition ITS_NEXT_CMD_PTR : Z := 4.
Definition NUM_BYTES_IN_DW : Z := 8.
Definition LPI_MIN_ID : Z := 8192.
Definition ACS_INVALID_INDEX : Z := 0xFFFFFFFF.
Definition MEM_ALIGN_4K : Z := 0x1000.
Definition CID_MSIX : Z := 0x11.
Definition MSI_X_ENABLE_SHIFT : Z := 31.
Definition MSI_X_TOR_OFFSET : Z := 0x4.
Definition MSI_X_MSG_TBL_LOWER_ADDR_OFFSET : Z := 0x0.
Definition MSI_X_MSG_TBL_HIGHER_ADDR_OFFSET : Z := 0x4.
Definition MSI_X_MSG_TBL_DATA_OFFSET : Z := 0x8.
Definition MSI_X_MSG_TBL_MVC_OFFSET : Z := 0xC.
Definition MSI_X_TABLE_BIR_MASK : Z := 0x7.
Definition MSI_X_ENTRY_SIZE : Z := 16.
Definition MSI_X_ADDR_SHIFT : Z := 32.
Definition MSI_BIR_MASK : Z := 0xFFFFFFF8.
Definition BAR_MASK : Z := 0xFFFFFFF0.
Definition BAR_64_BIT : Z := 0x1.
Definition BAR_REG (v : Z) : Z := (v >> 2) .& 0x1.

(** ** Data *)

(** [GIC_ITS_BLOCK]; the fields that are not set yet hold what the allocator
    left there. *)
Record its_block := mk_its {
  its_id : Z; its_base : Z; CommandQBase : option Z; IDBits : option Z; ITTBase : option Z
}.
(** [GIC_ITS_INFO]; [GicNumIts] is the length of the list. *)
Record gic_its_info := mk_its_info { GicDBase : Z; GicRdBase : Z; GicIts : list its_block }.
(** 1024 bytes are allocated: a header of 24 bytes and blocks of 40. *)
Definition its_room (n : Z) : bool := 24 + 40 * (n + 1) <=? 1024.

(** What the platform's allocator and [pal_mem_set] do. *)
Class ItsMem (D : Type) := {
  aligned_alloc : Z -> Z -> D -> Z * D;
  mem_set : Z -> Z -> Z -> D -> D
}.

(** [i_test] holds the free test addresses. *)
Record ist (D W : Type) := mk_ist {
  i_gst : gst D; i_test : tst W; g_gic_its_info : option gic_its_info;
  g_cwriter_ptr : option (list Z); g_its_setup_done : Z; ConfigBase : Z
}.
Arguments mk_ist {D W}. Arguments i_gst {D W}. Arguments i_test {D W}.
Arguments g_gic_its_info {D W}. Arguments g_cwriter_ptr {D W}.
Arguments g_its_setup_done {D W}. Arguments ConfigBase {D W}.
Abbreviation I D W := (M (ist D W)).

Section code.
Context {D W : Type} {HW : Hw D} {PE : GicPe D} {MEM : ItsMem D} {PAL : PciPal}.

Definition set_info (x : option gic_its_info) : I D W unit := modify (fun s =>
  mk_ist (i_gst s) (i_test s) x (g_cwriter_ptr s) (g_its_setup_done s) (ConfigBase s)).
Definition set_cwriter (x : option (list Z)) : I D W unit := modify (fun s =>
  mk_ist (i_gst s) (i_test s) (g_gic_its_info s) x (g_its_setup_done s) (ConfigBase s)).
Definition set_done (x : Z) : I D W unit := modify (fun s =>
  mk_ist (i_gst s) (i_test s) (g_gic_its_info s) (g_cwriter_ptr s) x (ConfigBase s)).
Definition set_config (x : Z) : I D W unit := modify (fun s =>
  mk_ist (i_gst s) (i_test s) (g_gic_its_info s) (g_cwriter_ptr s) (g_its_setup_done s) x).
Definition gic {A} (m : G D A) : I D W A := zoom i_gst (fun g s =>
  mk_ist g (i_test s) (g_gic_its_info s) (g_cwriter_ptr s) (g_its_setup_done s) (ConfigBase s)) m.
Definition free_pa (size alignment : Z) : I D W Z := zoom i_test (fun t s =>
  mk_ist (i_gst s) t (g_gic_its_info s) (g_cwriter_ptr s) (g_its_setup_done s) (ConfigBase s))
  (val_get_free_pa size alignment).

Definition rd32 (a : Z) : I D W Z := gic (val_mmio_read a).
Definition wr32 (a v : Z) : I D W unit := gic (val_mmio_write a v).
Definition rd64 (a : Z) : I D W Z := gic (val_mmio_read64 a).
Definition wr64 (a v : Z) : I D W unit := gic (val_mmio_write64 a v).
(** An allocation of [val_aligned_alloc] and [val_memory_set]. *)
Definition alloc (alignment size : Z) : I D W Z := gic (Gic.pci (fun p =>
  let '(a, d) := aligned_alloc alignment size (p_dev p) in
  Done a (mk_pst d (p_info p) (p_table p) (p_list_flag p) (p_trace p)))).
Definition memset (a size v : Z) : I D W unit := gic (Gic.pci (modify (fun p =>
  mk_pst (mem_set a size v (p_dev p)) (p_info p) (p_table p) (p_list_flag p) (p_trace p)))).

Definition its_info : I D W gic_its_info := let! i := gets g_gic_its_info in use i.
(** [g_gic_its_info->GicIts[its_index]]. *)
Definition its_at (its_index : Z) : I D W its_block :=
  let! i := its_info in use (GicIts i !! Z.to_nat its_index).
Definition its_upd (its_index : Z) (f : its_block -> its_block) : I D W unit :=
  let! i := its_info in
  let! b := use (GicIts i !! Z.to_nat its_index) in
  set_info (Some (mk_its_info (GicDBase i) (GicRdBase i)
                    (<[Z.to_nat its_index := f b]> (GicIts i)))).

(** ** The redistributor (rme_gic_redistributor.c) *)

Definition ArmGicSetItsConfigTableBase (rd : Z) : I D W Z :=
  let! v := rd64 (rd + ARM_GICR_PROPBASER) in
  let! n := shl_chk 32 1 (ARM_GICR_PROPBASER_IDbits v + 1) in
  let ConfigTableSize := u32 (n - ARM_LPI_MINID) in
  let Pages := u32 (SIZE_TO_PAGES ConfigTableSize + 1) in
  let! Address := alloc SIZE_4KB (PAGES_TO_SIZE Pages) in
  if Address =? 0 then ret 1 else
  memset Address (PAGES_TO_SIZE Pages) 0 ;;
  let! v := rd64 (rd + ARM_GICR_PROPBASER) in
  let v := v .& bnot 64 ARM_GICR_PROPBASER_PA_MASK in
  let v := v .| (Address .& ARM_GICR_PROPBASER_PA_MASK) in
  let v := v .& bnot 64 ARM_GICR_PROPBASER_ATTR_MASK in
  wr64 (rd + ARM_GICR_PROPBASER) (v .| ARM_GICR_PROPBASER_ATTR_VALUE) ;;
  set_config Address ;;
  ret 0.

Definition ArmGicSetItsPendingTableBase (rd : Z) : I D W Z :=
  let! v := rd64 (rd + ARM_GICR_PROPBASER) in
  let! n := shl_chk 32 1 (ARM_GICR_PROPBASER_IDbits v + 1) in
  let Pages := u32 (SIZE_TO_PAGES (n / 8) + 1) in
  let! Address := alloc SIZE_64KB (PAGES_TO_SIZE Pages) in
  if Address =? 0 then ret 1 else
  memset Address (PAGES_TO_SIZE Pages) 0 ;;
  let! v := rd64 (rd + ARM_GICR_PENDBASER) in
  let v := v .& bnot 64 ARM_GICR_PENDBASER_PA_MASK in
  wr64 (rd + ARM_GICR_PENDBASER) (v .| (Address .& ARM_GICR_PENDBASER_PA_MASK)) ;;
  ret 0.

Definition config_entry (IntID v : Z) : I D W unit :=
  let! c := gets ConfigBase in
  gic (val_mmio_write8 (c + u32 (IntID - ARM_LPI_MINID)) v).
Definition ClearConfigTable (IntID : Z) : I D W unit := config_entry IntID LPI_DISABLE.
Definition SetConfigTable (IntID Priority : Z) : I D W unit :=
  config_entry IntID (u8 ((Priority .& LPI_PRIORITY_MASK) .| LPI_ENABLE)).

Definition EnableLPIsRD (rd : Z) : I D W unit :=
  let! value := rd32 (rd + ARM_GICR_CTLR) in
  wr32 (rd + ARM_GICR_CTLR) (value .| ARM_GICR_CTLR_ENABLE_LPIS).

Definition ArmGicRedistributorConfigurationForLPI (rd : Z) : I D W Z :=
  let! Status := ArmGicSetItsConfigTableBase rd in
  if truthy Status then ret Status else ArmGicSetItsPendingTableBase rd.

(** ** Tables of the ITS (rme_gic_its.c) *)

(** Counts the zeros below the lowest bit that is set; shifting a 64-bit value
    by 64 or more is not defined. *)
Definition num_bits_step (value bit_pos : Z) : I D W (Z + Z) :=
  let! x := shr_chk 64 value bit_pos in
  ret (if truthy (x .& 0x1) then inr bit_pos else inl (bit_pos + 1)).
Definition GET_NUM_BITS (value : Z) : I D W Z :=
  let! n := loop 65 (num_bits_step value) 0 in ret (u32 n).

(** The upper half of GICR_TYPER is read as a 32-bit register. *)
Definition curr_rd_step (CpuAffinity granularity region_end rd : Z) : I D W (Z + Z) :=
  if rd <? region_end then
    let! Affinity := rd32 (rd + ARM_GICR_TYPER + NEXT_DW_OFFSET) in
    if Affinity =? CpuAffinity then ret (inr rd) else ret (inl (u64 (rd + granularity)))
  else ret (inr 0).
Definition val_its_get_curr_rdbase (fuel : nat) (rd_base length : Z) : I D W Z :=
  let CpuAffinity := u32 (affinity_of mpidr_el1) in
  let! typer := rd32 (rd_base + ARM_GICR_TYPER) in
  let rd_granularity := if truthy (typer .& ARM_GICR_TYPER_VLPIS) then 0x40000 else 0x20000 in
  if length =? 0 then
    let! Affinity := rd32 (rd_base + ARM_GICR_TYPER + NEXT_DW_OFFSET) in
    ret (if Affinity =? CpuAffinity then rd_base else 0)
  else loop fuel (curr_rd_step CpuAffinity rd_granularity (u64 (rd_base + length))) rd_base.

Definition val_its_gicd_lpi_support (gicd_base : Z) : I D W Z :=
  let! v := rd32 (gicd_base + ARM_GICD_TYPER) in ret (v .& ARM_GICD_TYPER_LPIS).
Definition val_its_gicr_lpi_support (rd_base : Z) : I D W Z :=
  let! v := rd32 (rd_base + ARM_GICR_TYPER) in ret (v .& ARM_GICR_TYPER_PLPIS).

Definition ArmGicSetItsCommandQueueBase (its_index : Z) : I D W Z :=
  let! b := its_at its_index in
  let! Address := alloc SIZE_64KB (NUM_PAGES_8 * SIZE_4KB) in
  if Address =? 0 then ret 1 else
  memset Address (NUM_PAGES_8 * SIZE_4KB) 0 ;;
  its_upd its_index (fun b => mk_its (its_id b) (its_base b) (Some Address) (IDBits b) (ITTBase b)) ;;
  let! v := rd64 (its_base b + ARM_GITS_CBASER) in
  let v := v .& bnot 64 ARM_GITS_CBASER_PA_MASK in
  let v := v .| (Address .& ARM_GITS_CBASER_PA_MASK) in
  let v := v .| ARM_GITS_CBASER_VALID .| (NUM_PAGES_8 - 1) in
  wr64 (its_base b + ARM_GITS_CBASER) (v .| table_attributes) ;;
  ret 0.

(** The locals of [ArmGicSetItsTables] that survive a turn of its loop:
    indirect_supported, max_page_size, baser_pgsz. *)
Record baser_locals := mk_bl { indirect_supported : bool; max_page_size : Z; baser_pgsz : Z }.

(** One turn of the [while] over the page sizes. *)
Definition page_size_step (reg temp_val : Z) (x : baser_locals)
    : I D W (baser_locals + Empty_set) :=
  let! v := rd64 reg in
  wr64 reg ((v .& bnot 64 ARM_GITS_BASER_PAGE_MASK) .| (temp_val << ARM_GITS_BASER_PAGE_SHIFT)) ;;
  let! v := rd64 reg in
  ret (inl (if (v .& ARM_GITS_BASER_PAGE_MASK) >> ARM_GITS_BASER_PAGE_SHIFT =? temp_val then
              if temp_val =? ARM_GITS_BASER_PGSZ_4K
              then mk_bl (indirect_supported x) PAGE_SIZE_4K ARM_GITS_BASER_PGSZ_4K
              else if temp_val =? ARM_GITS_BASER_PGSZ_16K
              then mk_bl (indirect_supported x) PAGE_SIZE_16K ARM_GITS_BASER_PGSZ_16K
              else if temp_val =? ARM_GITS_BASER_PGSZ_64K
              then mk_bl (indirect_supported x) PAGE_SIZE_64K ARM_GITS_BASER_PGSZ_64K
              else x
            else x)).

(** What the register supports, with its value put back afterwards. *)
Definition probe_baser (reg its_baser : Z) (x : baser_locals) : I D W baser_locals :=
  wr64 reg (its_baser .| (1 << 62)) ;;
  let! v := rd64 reg in
  let x := if truthy ((v >> 62) .& 0x1) then mk_bl true (max_page_size x) (baser_pgsz x) else x in
  wr64 reg its_baser ;;
  let! r := for_acc 3 0 x (page_size_step reg) in
  wr64 reg its_baser ;;
  match r with inl x => ret x | inr e => match e with end end.

(** The size of a table and whether it has two levels: (TableSize, lvl1_bits). *)
Definition table_size (x : baser_locals) (bits entry_size : Z) : I D W (Z * option Z) :=
  let! n := shl_chk 32 1 (bits + 1) in
  let TableSize := u32 (n * (entry_size + 1)) in
  let limit := max_page_size x * ARM_GITS_BASER_MAX_PAGES in
  if limit <? TableSize then
    if indirect_supported x then
      let! lvl2_bits := GET_NUM_BITS (max_page_size x / (entry_size + 1)) in
      let lvl1_bits := u64 (bits + 1 - lvl2_bits) in
      let! n := shl_chk 32 1 lvl1_bits in
      let TableSize := u32 (n * ARM_GITS_BASER_INDIRECT_LVL1_ENTRY_SIZE) in
      ret (if limit <? TableSize then u32 limit else TableSize, Some lvl1_bits)
    else ret (u32 limit, None)
  else ret (TableSize, None).

(** The level 1 table: one page of level 2 entries each. *)
Definition fill_level1 (page Address lvl1_bits : Z) : I D W unit :=
  for_range 0 (to_int (1 << lvl1_bits)) (fun i =>
    let! t := alloc page page in
    memset t page 0 ;;
    wr64 (Address + 8 * i) (t .| ARM_GITS_BASER_VALID)).

(** The table behind a register: [false] when there is no memory. The page size
    is ORed into the register. *)
Definition program_baser (reg bits entry_size : Z) (x : baser_locals) : I D W bool :=
  let! '(TableSize, lvl1) := table_size x bits entry_size in
  let page := max_page_size x in
  require (negb (page =? 0)) ;;
  let Pages := u32 (TableSize / page + (if truthy (TableSize mod page) then 1 else 0)) in
  let TableSize := u32 (Pages * page) in
  let! Address := alloc (u32 page) TableSize in
  if Address =? 0 then ret false else
  memset Address TableSize 0 ;;
  (match lvl1 with Some n => fill_level1 (u32 page) Address n | None => ret tt end) ;;
  let! v := rd64 reg in
  let v := v .& bnot 64 ARM_GITS_BASER_PA_MASK in
  let v := match lvl1 with Some _ => v .| ARM_GITS_BASER_INDIRECT | None => v end in
  let v := v .| (Address .& ARM_GITS_BASER_PA_MASK) in
  let v := v .| ARM_GITS_BASER_VALID in
  let v := v .| (baser_pgsz x << ARM_GITS_BASER_PAGE_SHIFT) in
  let v := v .| u32 (Pages - 1) in
  wr64 reg (v .| table_attributes) ;;
  ret true.

(** One turn of the loop over the GITS_BASER registers; leaves when there is no
    memory. *)
Definition baser_step (base it : Z) (x : baser_locals) : I D W (baser_locals + unit) :=
  let reg := base + ARM_GITS_BASER it in
  let! its_baser := rd64 reg in
  let table_type := ARM_GITS_BASER_GET_TYPE its_baser in
  let entry_size := ARM_GITS_BASER_GET_ENTRY_SIZE its_baser in
  let! its_typer := rd64 (base + ARM_GITS_TYPER) in
  let! x := probe_baser reg its_baser x in
  let table bits :=
    let! ok := program_baser reg bits entry_size x in ret (if ok then inl x else inr tt) in
  if table_type =? ARM_GITS_TBL_TYPE_DEVICE then table (ARM_GITS_TYPER_DevBits its_typer)
  else if table_type =? ARM_GITS_TBL_TYPE_CLCN then table (ARM_GITS_TYPER_CIDBits its_typer)
  else ret (inl x).

Definition ArmGicSetItsTables (its_index : Z) : I D W Z :=
  let! b := its_at its_index in
  let! r := for_acc 8 0 (mk_bl false 0 0) (baser_step (its_base b)) in
  match r with
  | inr _ => ret 1
  | inl _ =>
      let! Address := free_pa (NUM_PAGES_8 * SIZE_4KB) (NUM_PAGES_8 * SIZE_4KB) in
      if Address =? 0 then ret 1 else
      memset Address (NUM_PAGES_8 * SIZE_4KB) 0 ;;
      its_upd its_index
        (fun b => mk_its (its_id b) (its_base b) (CommandQBase b) (IDBits b) (Some Address)) ;;
      ret 0
  end.

Definition EnableITS (GicItsBase : Z) : I D W unit :=
  let! value := rd32 (GicItsBase + ARM_GITS_CTLR) in
  wr32 (GicItsBase + ARM_GITS_CTLR) (value .| ARM_GITS_CTLR_ENABLE).

(** ** The command queue *)

Definition cwriter (its_index : Z) : I D W Z :=
  let! p := gets g_cwriter_ptr in
  let! l := use p in
  use (l !! Z.to_nat its_index).
(** The four double words of a command; then the index, which never goes back
    to 0. *)
Definition write_words (its_index CMDQ_BASE d0 d1 d2 d3 : Z) : I D W unit :=
  let! c := cwriter its_index in
  wr64 (CMDQ_BASE + 8 * c) d0 ;;
  let! c := cwriter its_index in
  wr64 (CMDQ_BASE + 8 * (c + 1)) d1 ;;
  let! c := cwriter its_index in
  wr64 (CMDQ_BASE + 8 * (c + 2)) d2 ;;
  let! c := cwriter its_index in
  wr64 (CMDQ_BASE + 8 * (c + 3)) d3.
Definition write_command (its_index CMDQ_BASE d0 d1 d2 d3 : Z) : I D W unit :=
  write_words its_index CMDQ_BASE d0 d1 d2 d3 ;;
  let! p := gets g_cwriter_ptr in
  let! l := use p in
  let! c := use (l !! Z.to_nat its_index) in
  set_cwriter (Some (<[Z.to_nat its_index := u32 (c + ITS_NEXT_CMD_PTR)]> l)).

Definition device_cmd (device_id cmd : Z) : Z := u64 (device_id << ITS_CMD_SHIFT_DEVID) .| cmd.
Definition WriteCmdQMAPD (its_index CMDQ_BASE device_id ITT_BASE Size Valid : Z) : I D W unit :=
  write_command its_index CMDQ_BASE (device_cmd device_id ARM_ITS_CMD_MAPD) (u32 Size)
    (u64 (Valid << ITS_CMD_SHIFT_VALID) .| (ITT_BASE .& ITT_PAR_MASK)) 0.
(** The target address is a 32-bit parameter. *)
Definition WriteCmdQMAPC (its_index CMDQ_BASE Clctn_ID RDBase Valid : Z) : I D W unit :=
  write_command its_index CMDQ_BASE ARM_ITS_CMD_MAPC 0
    (u64 (Valid << ITS_CMD_SHIFT_VALID) .| u32 RDBase .| u32 Clctn_ID) 0.
Definition WriteCmdQMAPI (its_index CMDQ_BASE device_id int_id Clctn_ID : Z) : I D W unit :=
  write_command its_index CMDQ_BASE (device_cmd device_id ARM_ITS_CMD_MAPTI)
    (u32 int_id .| u64 (u32 int_id << 32)) (u32 Clctn_ID) 0.
Definition WriteCmdQINV (its_index CMDQ_BASE device_id int_id : Z) : I D W unit :=
  write_command its_index CMDQ_BASE (device_cmd device_id ARM_ITS_CMD_INV) (u32 int_id) 0 0.
Definition WriteCmdQDISCARD (its_index CMDQ_BASE device_id int_id : Z) : I D W unit :=
  write_command its_index CMDQ_BASE (device_cmd device_id ARM_ITS_CMD_DISCARD) (u32 int_id) 0 0.
Definition WriteCmdQSYNC (its_index CMDQ_BASE RDBase : Z) : I D W unit :=
  write_command its_index CMDQ_BASE ARM_ITS_CMD_SYNC 0 (u32 RDBase) 0.

(** One turn of the [while]: (count, creadr_value). *)
Definition poll_done_step (ItsBase cwriter_value : Z) (x : Z * Z) : I D W (Z * Z + unit) :=
  let '(count, creadr_value) := x in
  if creadr_value =? cwriter_value then ret (inr tt) else
  (when truthy (creadr_value .& ARM_GITS_CREADR_STALL) then
     wr64 (ItsBase + ARM_GITS_CWRITER) (cwriter_value .| ARM_GITS_CWRITER_RETRY)) ;;
  if WAIT_ITS_COMMAND_DONE <? count + 1 then ret (inr tt) else
  let! v := rd64 (ItsBase + ARM_GITS_CREADR) in
  ret (inl (count + 1, v)).
Definition PollTillCommandQueueDone (its_index : Z) : I D W unit :=
  let! b := its_at its_index in
  let! cwriter_value := rd64 (its_base b + ARM_GITS_CWRITER) in
  let! creadr_value := rd64 (its_base b + ARM_GITS_CREADR) in
  loop (Z.to_nat 10002) (poll_done_step (its_base b) cwriter_value) (0, creadr_value).

(** [value] is a 32-bit variable for both registers. *)
Definition GetRDBaseFormat (its_index : Z) : I D W Z :=
  let! b := its_at its_index in
  let! i := its_info in
  let! value := rd64 (its_base b + ARM_GITS_TYPER) in
  if truthy (u32 value .& ARM_GITS_TYPER_PTA) then ret (GicRdBase i) else
  let! value := rd64 (GicRdBase i + ARM_GICR_TYPER) in
  ret (((u32 value .& ARM_GICR_TYPER_PN_MASK) >> ARM_GICR_TYPER_PN_SHIFT) << RD_BASE_SHIFT).

(** Hands the commands to the ITS and waits for it. *)
Definition run_queue (its_index : Z) : I D W unit :=
  let! b := its_at its_index in
  let! c := cwriter its_index in
  wr64 (its_base b + ARM_GITS_CWRITER) (u32 (c * NUM_BYTES_IN_DW)) ;;
  PollTillCommandQueueDone its_index.

Definition val_its_clear_lpi_map (its_index device_id int_id : Z) : I D W unit :=
  let! setup := gets g_its_setup_done in
  if setup =? 0 then ret tt else
  let! b := its_at its_index in
  let! q := use (CommandQBase b) in
  ClearConfigTable int_id ;;
  let! RDBase := GetRDBaseFormat its_index in
  WriteCmdQDISCARD its_index q device_id int_id ;;
  let! itt := use (ITTBase b) in
  WriteCmdQMAPD its_index q device_id itt 0 0 ;;
  WriteCmdQSYNC its_index q RDBase ;;
  run_queue its_index.

Definition val_its_create_lpi_map (its_index device_id int_id Priority : Z) : I D W unit :=
  let! setup := gets g_its_setup_done in
  if setup =? 0 then ret tt else
  let! i := its_info in
  let! b := its_at its_index in
  let! q := use (CommandQBase b) in
  SetConfigTable int_id Priority ;;
  EnableLPIsRD (GicRdBase i) ;;
  EnableITS (its_base b) ;;
  let! RDBase := GetRDBaseFormat its_index in
  let! itt := use (ITTBase b) in
  let! bits := use (IDBits b) in
  WriteCmdQMAPD its_index q device_id itt bits 0x1 ;;
  WriteCmdQMAPC its_index q 0x1 RDBase 0x1 ;;
  WriteCmdQMAPI its_index q device_id int_id 0x1 ;;
  WriteCmdQINV its_index q device_id int_id ;;
  WriteCmdQSYNC its_index q RDBase ;;
  run_queue its_index.

(** The sum and the shift are done in 32 bits. *)
Definition val_its_get_max_lpi : I D W Z :=
  let! i := gets g_gic_its_info in
  match i with
  | None => ret 0
  | Some i =>
      if Z.of_nat (length (GicIts i)) =? 0 then ret 0 else
      let! setup := gets g_its_setup_done in
      if setup =? 0 then ret 0 else
      let! r := for_acc (length (GicIts i)) 0 ARM_LPI_MAX_IDBITS (fun index min_idbits =>
        let! b := its_at index in
        let! bits := use (IDBits b) in
        ret (inl (if min_idbits <? u32 (bits + 14) then min_idbits else u32 (bits + 14))
             : Z + Empty_set)) in
      match r with
      | inl min_idbits => let! n := shl_chk 32 1 (min_idbits + 1) in ret (u32 (n - 1))
      | inr e => match e with end
      end
  end.

Definition val_its_get_translater_addr (its_index : Z) : I D W Z :=
  let! b := its_at its_index in ret (u64 (its_base b + ARM_GITS_TRANSLATER)).

(** ** Initialisation *)

Definition SetInitialConfiguration (its_index : Z) : I D W Z :=
  let! b := its_at its_index in
  let! i := its_info in
  let! d := rd32 (GicDBase i + ARM_GICD_TYPER) in
  let gicd_typer_idbits := ARM_GICD_TYPER_IDbits d in
  let! t := rd64 (its_base b + ARM_GITS_TYPER) in
  if gicd_typer_idbits <? ARM_LPI_MIN_IDBITS then ret 1 else
  let! v := rd64 (GicRdBase i + ARM_GICR_PROPBASER) in
  its_upd its_index (fun b =>
    mk_its (its_id b) (its_base b) (CommandQBase b) (Some (ARM_GITS_TYPER_IDbits t)) (ITTBase b)) ;;
  wr64 (GicRdBase i + ARM_GICR_PROPBASER) (v .| gicd_typer_idbits) ;;
  ret 0.

(** Runs [f] on the indices from 0 on and leaves with the first status that is
    not 0. *)
Definition each_its (n : nat) (f : Z -> I D W Z) : I D W Z :=
  let! r := for_acc n 0 tt (fun index _ =>
    let! st := f index in ret (if truthy st then inr st else inl tt)) in
  ret (match r with inl _ => 0 | inr st => st end).

Definition val_its_init : I D W Z :=
  let! i := its_info in
  let n := length (GicIts i) in
  let! p := alloc MEM_ALIGN_4K (u32 (4 * Z.of_nat n)) in
  if p =? 0 then set_cwriter None ;; ret 0 else
  set_cwriter (Some (replicate n 0)) ;;
  let! st := each_its n SetInitialConfiguration in
  if truthy st then ret st else
  let! st := ArmGicRedistributorConfigurationForLPI (GicRdBase i) in
  if truthy st then ret st else
  let! st := each_its n (fun index =>
    let! st := ArmGicSetItsCommandQueueBase index in
    if truthy st then ret st else ArmGicSetItsTables index) in
  if truthy st then ret st else
  set_done 1 ;;
  ret 0.

(** ** The interface of the VAL (acs_gic_support.c) *)

(** One entry of the GIC table. *)
Definition configure_step (fuel : nat) (e : GIC_INFO_ENTRY) : I D W unit :=
  let! i := its_info in
  match ge_type e with
  | ENTRY_TYPE_GICD => set_info (Some (mk_its_info (ge_base e) (GicRdBase i) (GicIts i)))
  | ENTRY_TYPE_GICR_GICRD | ENTRY_TYPE_GICC_GICRD =>
      when GicRdBase i =? 0 then
        (let! rd := val_its_get_curr_rdbase fuel (ge_base e)
                      (if bool_decide (ge_type e = ENTRY_TYPE_GICR_GICRD)
                       then u32 (ge_length e) else 0) in
         set_info (Some (mk_its_info (GicDBase i) rd (GicIts i))))
  | ENTRY_TYPE_GICITS =>
      require (its_room (Z.of_nat (length (GicIts i)))) ;;
      set_info (Some (mk_its_info (GicDBase i) (GicRdBase i)
        (GicIts i ++ [mk_its (entry_id e) (ge_base e) None None None])))
  | _ => ret tt
  end.
Fixpoint configure_entries (fuel : nat) (l : list GIC_INFO_ENTRY) : I D W unit :=
  match l with
  | [] => ret tt
  | e :: l' => configure_step fuel e ;; configure_entries fuel l'
  end.

Definition val_gic_its_configure (fuel : nat) : I D W Z :=
  let! t := gic (gets g_table) in
  let! t := use t in
  let! p := alloc MEM_ALIGN_4K 1024 in
  if p =? 0 then set_info None ;; ret Gic.ACS_STATUS_ERR else
  set_info (Some (mk_its_info 0 0 [])) ;;
  configure_entries fuel (gic_info t) ;;
  let! i := its_info in
  if Z.of_nat (length (GicIts i)) =? 0 then ret Gic.ACS_STATUS_ERR else
  if (GicRdBase i =? 0) || (GicDBase i =? 0) then ret Gic.ACS_STATUS_ERR else
  let! d := val_its_gicd_lpi_support (GicDBase i) in
  let! r := (if truthy d then val_its_gicr_lpi_support (GicRdBase i) else ret 0) in
  if truthy r then
    let! Status := val_its_init in
    ret (if truthy Status then Gic.ACS_STATUS_ERR else 0)
  else ret Gic.ACS_STATUS_ERR.

Definition val_gic_is_valid_lpi (int_id : Z) : I D W Z :=
  let! max_lpi_id := val_its_get_max_lpi in
  ret (if (int_id <? LPI_MIN_ID) || (max_lpi_id <? int_id) then 0 else 1).

(** The tests are evaluated from left to right. *)
Definition val_gic_install_isr (fuel : nat) (int_id isr : Z) : I D W Z :=
  let! m := gic val_get_max_intid in
  let! known := (if int_id <=? m then ret true else
    let! l := val_gic_is_valid_lpi int_id in
    if truthy l then ret true else
    let! e := gic (val_rme_gic_check_espi_interrupt int_id) in
    if truthy e then ret true else
    let! p := gic (val_rme_gic_check_eppi_interrupt fuel int_id) in
    ret (truthy p)) in
  if negb known || (int_id =? 0) then ret Gic.ACS_STATUS_ERR
  else gic (val_gic_rme_install_isr fuel int_id isr).

Definition get_its_index (its_id' : Z) : I D W Z :=
  let! i := its_info in
  ret (match list_find (fun b => its_id b = its_id') (GicIts i) with
       | Some (n, _) => Z.of_nat n
       | None => ACS_INVALID_INDEX
       end).

(** ** The MSI-X table of a Function *)

Definition pcie {A} (m : P D A) : I D W A := gic (Gic.pci m).
(** The address of the table: the BAR that holds it and the offset in it. *)
Definition msi_x_table (bdf msi_cap_offset : Z) : I D W Z :=
  let! table_offset_reg := pcie (cfg bdf (msi_cap_offset + MSI_X_TOR_OFFSET)) in
  let index := table_offset_reg .& MSI_X_TABLE_BIR_MASK in
  let! bar := pcie (cfg bdf (TYPE01_BAR + index * 4)) in
  let! high := (if BAR_REG bar =? BAR_64_BIT
                then let! h := pcie (cfg bdf (TYPE01_BAR + index * 4 + 4)) in ret (h << 32)
                else ret 0) in
  ret (u64 (((bar .& BAR_MASK) .| high) + (table_offset_reg .& MSI_BIR_MASK))).

(** The four words of entry [msi_index]. *)
Definition msi_x_entry (table msi_index addr_lo addr_hi data mask : Z) : I D W unit :=
  let e := table + u32 (msi_index * MSI_X_ENTRY_SIZE) in
  wr32 (e + MSI_X_MSG_TBL_LOWER_ADDR_OFFSET) addr_lo ;;
  wr32 (e + MSI_X_MSG_TBL_HIGHER_ADDR_OFFSET) addr_hi ;;
  wr32 (e + MSI_X_MSG_TBL_DATA_OFFSET) data ;;
  wr32 (e + MSI_X_MSG_TBL_MVC_OFFSET) mask.

Definition clear_msi_x_table (fuel : nat) (bdf msi_index : Z) : I D W unit :=
  let! '(st, off) := pcie (val_pcie_find_capability fuel bdf PCIE_CAP CID_MSIX) in
  if truthy st then ret tt else
  let! cap := use off in
  let! v := pcie (cfg bdf cap) in
  pcie (val_pcie_write_cfg bdf cap (v .& ((1 << MSI_X_ENABLE_SHIFT) - 1))) ;;
  let! table := msi_x_table bdf cap in
  msi_x_entry table msi_index 0 0 0 0x1.

Definition fill_msi_x_table (fuel : nat) (bdf msi_index msi_addr msi_data : Z) : I D W Z :=
  let! command_data := pcie (cfg bdf TYPE01_CR) in
  pcie (val_pcie_write_cfg bdf TYPE01_CR
          (command_data .| (1 << CR_MSE_SHIFT) .| (1 << CR_BME_SHIFT))) ;;
  let! '(st, off) := pcie (val_pcie_find_capability fuel bdf PCIE_CAP CID_MSIX) in
  if truthy st then ret Pcie.ACS_STATUS_SKIP else
  let! cap := use off in
  let! v := pcie (cfg bdf cap) in
  pcie (val_pcie_write_cfg bdf cap (v .| (1 << MSI_X_ENABLE_SHIFT))) ;;
  let! table := msi_x_table bdf cap in
  msi_x_entry table msi_index (u32 msi_addr) (u32 (msi_addr >> MSI_X_ADDR_SHIFT)) msi_data 0x0 ;;
  ret TestRun.ACS_STATUS_PASS.

Definition val_gic_free_msi (fuel : nat) (bdf device_id its_id int_id msi_index : Z)
    : I D W unit :=
  let! its_index := get_its_index its_id in
  let! i := its_info in
  if Z.of_nat (length (GicIts i)) <=? its_index then ret tt else
  val_its_clear_lpi_map its_index device_id int_id ;;
  clear_msi_x_table fuel bdf msi_index.

(** The table must exist and have an ITS. *)
Definition with_its {A} (err : A) (m : gic_its_info -> I D W A) : I D W A :=
  let! i := gets g_gic_its_info in
  match i with
  | None => ret err
  | Some i => if Z.of_nat (length (GicIts i)) =? 0 then ret err else m i
  end.
Definition val_gic_request_msi (fuel : nat) (bdf device_id its_id int_id msi_index : Z)
    : I D W Z :=
  with_its Gic.ACS_STATUS_ERR (fun i =>
    let! its_index := get_its_index its_id in
    if Z.of_nat (length (GicIts i)) <=? its_index then ret Gic.ACS_STATUS_ERR else
    if (GicRdBase i =? 0) || (GicDBase i =? 0) then ret Gic.ACS_STATUS_ERR else
    val_its_create_lpi_map its_index device_id int_id LPI_PRIORITY1 ;;
    let! msi_addr := val_its_get_translater_addr its_index in
    fill_msi_x_table fuel bdf msi_index msi_addr int_id).
Definition val_gic_its_get_base (its_id : Z) : I D W (Z * option Z) :=
  with_its (Gic.ACS_STATUS_ERR, None) (fun i =>
    let! its_index := get_its_index its_id in
    if Z.of_nat (length (GicIts i)) <=? its_index then ret (Gic.ACS_STATUS_ERR, None) else
    let! b := its_at its_index in
    ret (0, Some (its_base b))).
End code.
