(* ===== verification/GicItsSpec.v ===== *)
(** * GicItsSpec

    Theorems on the ITS driver: an abstract ITS with its command decoder, and
    that the commands the driver queues map and unmap the LPI of a device. *)

From Stdlib Require Import ZArith Lia Bool List.
From stdpp Require Import base tactics numbers list gmap option.
From S2P Require Import Prelude Memory El3State Pcie Gic TestRun GicIts.
Local Open Scope acs_scope.
Local Open Scope Z_scope.

(** ** The abstract ITS

    A device is mapped to a translation table in memory, of a size and at an
    address; an entry of a table holds an LPI and a collection; a collection is
    mapped to a redistributor. The redistributors keep a copy of the
    configuration byte of an LPI, which only INV reads again from the table in
    memory; [v_open] holds the redistributors with effects of commands that are
    not visible yet, which SYNC waits for. *)
Record vits := mk_vits {
  v_dev : gmap Z (Z * Z); v_itt : gmap (Z * Z) (Z * Z); v_col : gmap Z Z;
  v_cfg : gmap Z Z; v_open : gset Z
}.
Inductive its_cmd :=
| MAPD (dev size itt : Z) (valid : bool)
| MAPC (icid rd : Z) (valid : bool)
| MAPTI (dev event lpi icid : Z)
| INV (dev event : Z)
| DISCARD (dev event : Z)
| SYNC (rd : Z).

(** The command of four double words (the last is reserved). *)
Definition decode (d0 d1 d2 : Z) : option its_cmd :=
  let op := fld 0 8 d0 in
  let dev := fld 32 32 d0 in
  let event := fld 0 32 d1 in
  if op =? 0x8 then Some (MAPD dev (fld 0 5 d1) (fld 8 44 d2 << 8) (Z.testbit d2 63))
  else if op =? 0x9 then Some (MAPC (fld 0 16 d2) (fld 16 36 d2 << 16) (Z.testbit d2 63))
  else if op =? 0xA then Some (MAPTI dev event (fld 32 32 d1) (fld 0 16 d2))
  else if op =? 0xC then Some (INV dev event)
  else if op =? 0xF then Some (DISCARD dev event)
  else if op =? 0x5 then Some (SYNC (fld 16 36 d2 << 16))
  else None.

(** The table entry of an event of a mapped device. *)
Definition entry_of (v : vits) (dev event : Z) : option (Z * Z) :=
  match v_dev v !! dev with
  | Some (size, itt) => if event <? 2 ^ (size + 1) then Some (itt, event) else None
  | None => None
  end.
(** The redistributor that a collection, or an event, concerns. *)
Definition target (v : vits) (icid : Z) : gset Z :=
  match v_col v !! icid with Some rd => {[rd]} | None => ∅ end.
Definition event_target (v : vits) (e : Z * Z) : gset Z :=
  match v_itt v !! e with Some (_, icid) => target v icid | None => ∅ end.
(** One command; [conf] is the configuration table in memory, which holds a
    byte per LPI. *)
Definition exec (conf : Z -> option Z) (v : vits) (c : its_cmd) : vits :=
  let '(mk_vits devs itt col cfg op) := v in
  match c with
  | MAPD dev size t true => mk_vits (<[dev := (size, t)]> devs) itt col cfg op
  | MAPD dev _ _ false => mk_vits (delete dev devs) itt col cfg op
  | MAPC icid rd true => mk_vits devs itt (<[icid := rd]> col) cfg (op ∪ {[rd]})
  | MAPC icid _ false => mk_vits devs itt (delete icid col) cfg (op ∪ target v icid)
  | MAPTI dev event lpi icid =>
      match entry_of v dev event with
      | Some e => mk_vits devs (<[e := (lpi, icid)]> itt) col cfg (op ∪ target v icid)
      | None => v
      end
  | DISCARD dev event =>
      match entry_of v dev event with
      | Some e => mk_vits devs (delete e itt) col cfg (op ∪ event_target v e)
      | None => v
      end
  | INV dev event =>
      match entry_of v dev event with
      | Some e =>
          match itt !! e with
          | Some (lpi, _) =>
              mk_vits devs itt col (partial_alter (fun _ => conf lpi) lpi cfg)
                (op ∪ event_target v e)
          | None => v
          end
      | None => v
      end
  | SYNC rd => mk_vits devs itt col cfg (op ∖ {[rd]})
  end.
(** Where a message of a device goes: an LPI and a redistributor. *)
Definition route (v : vits) (dev event : Z) : option (Z * Z) :=
  match entry_of v dev event with
  | Some e =>
      match v_itt v !! e with
      | Some (lpi, icid) =>
          match v_col v !! icid with Some rd => Some (lpi, rd) | None => None end
      | None => None
      end
  | None => None
  end.

(** ** The queue in the trace of writes *)

(** The double word that was last written to an address. *)
Fixpoint word (t : list ev) (a : Z) : option Z :=
  match t with
  | [] => None
  | EvWrite n b v :: t' => if (n =? 8)%nat && (b =? a) then Some v else word t' a
  | _ :: t' => word t' a
  end.
(** The byte that was last written to an address, and the configuration table
    at an address as the writes leave it. *)
Fixpoint byte (t : list ev) (a : Z) : option Z :=
  match t with
  | [] => None
  | EvWrite n b v :: t' => if (n =? 1)%nat && (b =? a) then Some v else byte t' a
  | _ :: t' => byte t' a
  end.
Definition config_table (base : Z) (t : list ev) (lpi : Z) : option Z :=
  byte t (u64 (base + u32 (lpi - 8192))).
(** The command at an address, and [n] commands from double word [c] on. *)
Definition cmd_at (t : list ev) (a : Z) : option its_cmd :=
  d0 ← word t a; d1 ← word t (a + 8); d2 ← word t (a + 16); decode d0 d1 d2.
Fixpoint cmds (t : list ev) (q c : Z) (n : nat) : option (list its_cmd) :=
  match n with
  | O => Some []
  | S n' => x ← cmd_at t (q + 8 * c); l ← cmds t q (c + 4) n'; Some (x :: l)
  end.

(** The writes of the words [ws] from double word [c] on, the last one first. *)
Fixpoint queue_writes (q c : Z) (ws : list Z) : list ev :=
  match ws with
  | [] => []
  | w :: ws' => queue_writes q (c + 1) ws' ++ [EvWrite 8 (u64 (q + 8 * c)) (u64 w)]
  end.

Lemma queue_writes_app q c ws1 ws2 :
  queue_writes q c (ws1 ++ ws2) =
  queue_writes q (c + Z.of_nat (length ws1)) ws2 ++ queue_writes q c ws1.
Proof.
  revert c. induction ws1 as [|w ws1 IH]; intros c; cbn [app queue_writes length].
  - by rewrite Nat2Z.inj_0, Z.add_0_r, app_nil_r.
  - rewrite IH, app_assoc. do 3 f_equal. lia.
Qed.

Lemma word_skip q c ws t a : 0 <= a < q + 8 * c -> q + 8 * (c + Z.of_nat (length ws)) <= 2 ^ 64 ->
  word (queue_writes q c ws ++ t) a = word t a.
Proof.
  revert c t. induction ws as [|w ws IH]; intros c t Ha Hl; [done|].
  cbn [queue_writes length] in *. rewrite <- app_assoc. rewrite IH by lia.
  cbn [app word]. unfold u64. rewrite (wrap_small 64) by lia.
  by replace (q + 8 * c =? a) with false by lia.
Qed.

Lemma word_queue q c ws t k w : 0 <= q -> 0 <= c ->
  q + 8 * (c + Z.of_nat (length ws)) <= 2 ^ 64 -> ws !! k = Some w ->
  word (queue_writes q c ws ++ t) (q + 8 * (c + Z.of_nat k)) = Some (u64 w).
Proof.
  intros Hq. revert c k t. induction ws as [|x ws IH]; intros c [|k] t Hc Hl Hk;
    cbn [queue_writes length lookup list_lookup] in *; try done; rewrite <- app_assoc.
  - injection Hk as ->. rewrite word_skip by lia. cbn [app word].
    unfold u64. rewrite (wrap_small 64 (q + 8 * c)) by lia.
    by rewrite Z.add_0_r, Z.eqb_refl.
  - replace (c + Z.of_nat (S k)) with (c + 1 + Z.of_nat k) by lia. apply IH; [lia|lia|done].
Qed.

(** Events that are not writes of one byte leave the bytes alone. *)
Definition no_byte (e : ev) : Prop :=
  match e with EvWrite n _ _ => n <> 1%nat | _ => True end.
Lemma byte_skip t1 t a : Forall no_byte t1 -> byte (t1 ++ t) a = byte t a.
Proof.
  induction 1 as [|e t1 He H IH]; [done|]. cbn [app byte].
  destruct e; cbn in He; try exact IH.
  match goal with |- context [(?n =? 1)%nat] => replace (n =? 1)%nat with false end; [exact IH|].
  symmetry. by apply Nat.eqb_neq.
Qed.
Lemma queue_no_byte q c ws : Forall no_byte (queue_writes q c ws).
Proof.
  revert c. induction ws as [|w ws IH]; intros c; [constructor|]. cbn [queue_writes].
  apply Forall_app. split; [apply IH|]. by repeat constructor.
Qed.

(** ** Commands of the driver *)

Definition words_of (c : its_cmd) (ws : list Z) : Prop :=
  exists d0 d1 d2 d3, ws = [d0; d1; d2; d3] /\ decode (u64 d0) (u64 d1) (u64 d2) = Some c.

Lemma cmds_queue q c W t : 0 <= q -> 0 <= c -> q + 8 * (c + Z.of_nat (length W)) <= 2 ^ 64 ->
  forall l wss pre, Forall2 words_of l wss -> W = pre ++ concat wss ->
  cmds (queue_writes q c W ++ t) q (c + Z.of_nat (length pre)) (length l) = Some l.
Proof.
  intros Hq Hc Hl l wss pre Hf. revert pre.
  induction Hf as [|x ws l wss (d0 & d1 & d2 & d3 & -> & Hd) Hf IH]; intros pre HW; [done|].
  cbn [length cmds]. unfold cmd_at.
  assert (forall k w, [d0; d1; d2; d3] !! k = Some w ->
    word (queue_writes q c W ++ t) (q + 8 * (c + Z.of_nat (length pre)) + 8 * Z.of_nat k) =
    Some (u64 w)) as Hw.
  { intros k w Hk. rewrite <- (word_queue q c W t (length pre + k) w); [f_equal; lia|lia..|].
    rewrite HW. cbn [concat]. rewrite lookup_app_r by lia.
    replace (length pre + k - length pre)%nat with k by lia. by apply lookup_app_l_Some. }
  pose proof (Hw 0%nat d0 eq_refl) as H0. rewrite Z.add_0_r in H0.
  pose proof (Hw 1%nat d1 eq_refl) as H1. change (8 * Z.of_nat 1) with 8 in H1.
  pose proof (Hw 2%nat d2 eq_refl) as H2. change (8 * Z.of_nat 2) with 16 in H2.
  rewrite H0, H1, H2. cbn [mbind option_bind].
  rewrite Hd. specialize (IH (pre ++ [d0; d1; d2; d3])).
  rewrite length_app in IH. cbn [length] in IH.
  replace (c + Z.of_nat (length pre) + 4) with (c + Z.of_nat (length pre + 4)) by lia.
  rewrite IH; [done|]. by rewrite HW, <- app_assoc.
Qed.

(** Bit fields of the double words. *)
Lemma op_device dev cmd : 0 <= cmd < 256 -> fld 0 8 (u64 (device_cmd dev cmd)) = cmd.
Proof. intros. unfold device_cmd, u64, ITS_CMD_SHIFT_DEVID. by fields. Qed.
Lemma dev_device dev cmd : 0 <= cmd < 256 -> 0 <= dev < 2 ^ 32 ->
  fld 32 32 (u64 (device_cmd dev cmd)) = dev.
Proof.
  intros. unfold device_cmd, u64, ITS_CMD_SHIFT_DEVID. fields. rewrite fld_high by lia.
  apply Z.lor_0_r.
Qed.

Lemma valid_bit v x : v = 0 \/ v = 1 -> Z.testbit x 63 = false ->
  Z.testbit (u64 (u64 (v << 63) .| x)) 63 = (v =? 1).
Proof.
  intros Hv Hx. unfold u64. rewrite testbit_wrap, Z.lor_spec, testbit_wrap, Hx by lia.
  by destruct Hv as [-> | ->].
Qed.

(** The commands the driver writes are the ones the ITS decodes. *)
Lemma words_mapd dev bits itt v : 0 <= dev < 2 ^ 32 -> 0 <= bits < 32 -> v = 0 \/ v = 1 ->
  words_of (MAPD dev bits (fld 8 44 itt << 8) (v =? 1))
    [device_cmd dev ARM_ITS_CMD_MAPD; u32 bits; u64 (v << 63) .| (itt .& ITT_PAR_MASK); 0].
Proof.
  intros Hd Hb Hv. do 4 eexists. split; [done|]. unfold decode.
  rewrite op_device, dev_device by (unfold ARM_ITS_CMD_MAPD; lia).
  cbn [Z.eqb ARM_ITS_CMD_MAPD Pos.eqb].
  rewrite valid_bit; [|done|unfold ITT_PAR_MASK; rewrite Z.land_spec; apply andb_false_r].
  do 2 f_equal; unfold u64, u32; fields; [done|].
  change ITT_PAR_MASK with (Z.ones 44 << 8). by rewrite fld_masked by lia.
Qed.
(** An address below 2^32 of a frame of 64KB comes back from its field. *)
Lemma fld_frame rd : 0 <= rd < 2 ^ 32 -> fld 0 16 rd = 0 -> fld 16 36 rd << 16 = rd.
Proof.
  intros Hr H0. apply (bits_ext 32); [lia| |lia|].
  - split; [apply Z.shiftl_nonneg, fld_range; lia|]. apply bits_lt; [lia| |].
    + apply Z.shiftl_nonneg, fld_range; lia.
    + intros i Hi. rewrite Z.shiftl_spec, testbit_fld, (testbit_high 32) by lia. done.
  - intros i Hi. rewrite Z.shiftl_spec by lia. destruct (Z.ltb_spec i 16).
    + rewrite Z.testbit_neg_r by lia.
      assert (Z.testbit (fld 0 16 rd) i = false) as Hi0 by (by rewrite H0, Z.bits_0).
      rewrite testbit_fld in Hi0 by lia. replace (i <? 16) with true in Hi0 by lia.
      by rewrite Z.add_0_r, andb_true_r in Hi0.
    + rewrite testbit_fld by lia. replace (i - 16 <? 36) with true by lia.
      rewrite andb_true_r. f_equal. lia.
Qed.
Lemma words_mapc rd0 v : fld 0 16 (u32 rd0) = 0 -> v = 0 \/ v = 1 ->
  words_of (MAPC 1 (u32 rd0) (v =? 1)) [ARM_ITS_CMD_MAPC; 0; u64 (v << 63) .| u32 rd0 .| u32 1; 0].
Proof.
  intros H0 Hv. do 4 eexists. split; [done|]. unfold decode.
  change (fld 0 8 (u64 ARM_ITS_CMD_MAPC)) with 9. cbn [Z.eqb Pos.eqb].
  assert (0 <= u32 rd0 < 2 ^ 32) as Hr by (apply wrap_range; lia).
  generalize dependent (u32 rd0). intros rd H0 Hr.
  rewrite <- Z.lor_assoc, valid_bit; [|done|].
  2: { rewrite Z.lor_spec, (testbit_high 32) by lia. done. }
  do 2 f_equal; unfold u64; fields.
  - rewrite H0. done.
  - by apply fld_frame.
Qed.
Lemma words_mapti dev lpi : 0 <= dev < 2 ^ 32 -> 0 <= lpi < 2 ^ 32 ->
  words_of (MAPTI dev lpi lpi 1)
    [device_cmd dev ARM_ITS_CMD_MAPTI; u32 lpi .| u64 (u32 lpi << 32); u32 1; 0].
Proof.
  intros Hd Hl. do 4 eexists. split; [done|]. unfold decode.
  rewrite op_device, dev_device by (unfold ARM_ITS_CMD_MAPTI; lia).
  cbn [Z.eqb ARM_ITS_CMD_MAPTI Pos.eqb].
  assert (u32 lpi = lpi) as -> by (by apply wrap_small).
  do 2 f_equal; unfold u64; fields; try done. by rewrite (fld_high 32) by lia.
Qed.
Lemma words_event (f : Z -> Z -> its_cmd) cmd dev lpi :
  (f = INV /\ cmd = ARM_ITS_CMD_INV) \/ (f = DISCARD /\ cmd = ARM_ITS_CMD_DISCARD) ->
  0 <= dev < 2 ^ 32 -> 0 <= lpi < 2 ^ 32 ->
  words_of (f dev lpi) [device_cmd dev cmd; u32 lpi; 0; 0].
Proof.
  intros Hf Hd Hl. do 4 eexists. split; [done|]. unfold decode.
  destruct Hf as [[-> ->] | [-> ->]];
    rewrite op_device, dev_device by (unfold ARM_ITS_CMD_INV, ARM_ITS_CMD_DISCARD; lia);
    cbn [Z.eqb ARM_ITS_CMD_INV ARM_ITS_CMD_DISCARD Pos.eqb]; do 2 f_equal;
    unfold u64, u32; by fields.
Qed.
Lemma words_sync rd0 : fld 0 16 (u32 rd0) = 0 ->
  words_of (SYNC (u32 rd0)) [ARM_ITS_CMD_SYNC; 0; u32 rd0; 0].
Proof.
  intros H0. do 4 eexists. split; [done|]. unfold decode.
  change (fld 0 8 (u64 ARM_ITS_CMD_SYNC)) with 5. cbn [Z.eqb Pos.eqb].
  assert (0 <= u32 rd0 < 2 ^ 32) as Hr by (apply wrap_range; lia).
  do 2 f_equal. unfold u64. fields. by apply fld_frame.
Qed.

(** ** What the command sequences do to the abstract ITS *)

Definition run_cmds (conf : Z -> option Z) (v : vits) (l : list its_cmd) : vits :=
  fold_left (exec conf) l v.
(** The device gets its table, the collection 1 the redistributor, the event
    the LPI; the configuration is read again and everything becomes visible. *)
Definition create_cmds (dev lpi bits itt rd : Z) : list its_cmd :=
  [MAPD dev bits itt true; MAPC 1 rd true; MAPTI dev lpi lpi 1; INV dev lpi; SYNC rd].
Definition clear_cmds (dev lpi itt rd : Z) : list its_cmd :=
  [DISCARD dev lpi; MAPD dev 0 itt false; SYNC rd].

(** What the five commands leave. *)
Lemma created conf v dev lpi bits itt rd : lpi < 2 ^ (bits + 1) ->
  exists op, run_cmds conf v (create_cmds dev lpi bits itt rd) =
  mk_vits (<[dev := (bits, itt)]> (v_dev v)) (<[(itt, lpi) := (lpi, 1)]> (v_itt v))
    (<[1 := rd]> (v_col v)) (partial_alter (fun _ => conf lpi) lpi (v_cfg v)) (op ∖ {[rd]}).
Proof.
  intros Hl. unfold run_cmds, create_cmds. cbn [fold_left]. destruct v as [vd vi vc vf vo].
  assert (forall vi vf vo, entry_of (mk_vits (<[dev := (bits, itt)]> vd) vi (<[1 := rd]> vc) vf vo)
    dev lpi = Some (itt, lpi)) as He.
  { intros. unfold entry_of. cbn [v_dev]. rewrite lookup_insert_eq.
    by replace (lpi <? 2 ^ (bits + 1)) with true by lia. }
  cbn [exec]. rewrite He. cbn [exec]. rewrite He, lookup_insert_eq.
  cbn [exec v_dev v_itt v_col v_cfg]. by eexists.
Qed.
(** The message is routed, the copy of the configuration is the byte in the
    table and nothing is left to become visible at the redistributor. *)
Lemma route_created conf v dev lpi bits itt rd : lpi < 2 ^ (bits + 1) ->
  let v' := run_cmds conf v (create_cmds dev lpi bits itt rd) in
  route v' dev lpi = Some (lpi, rd) /\ v_cfg v' !! lpi = conf lpi /\ rd ∉ v_open v'.
Proof.
  intros Hl. destruct (created conf v dev lpi bits itt rd Hl) as [op ->]. cbv zeta.
  cbn [v_cfg v_open]. split_and!; [|apply lookup_partial_alter_eq|by apply not_elem_of_difference; right; apply elem_of_singleton].
  unfold route, entry_of. cbn [v_dev v_itt v_col].
  rewrite lookup_insert_eq. replace (lpi <? 2 ^ (bits + 1)) with true by lia.
  by rewrite !lookup_insert_eq.
Qed.
(** Other devices with a table of their own keep their routes. *)
Lemma route_created_other conf v dev lpi bits itt rd dev' event size' itt' :
  lpi < 2 ^ (bits + 1) ->
  dev' <> dev -> v_dev v !! dev' = Some (size', itt') -> itt' <> itt -> v_col v !! 1 = Some rd ->
  route (run_cmds conf v (create_cmds dev lpi bits itt rd)) dev' event = route v dev' event.
Proof.
  intros Hl Hd Hv Hi Hc. destruct (created conf v dev lpi bits itt rd Hl) as [op ->].
  assert (<[1 := rd]> (v_col v) = v_col v) as Hcol by (by apply insert_id).
  unfold route, entry_of; cbn [v_dev v_itt v_col];
    rewrite lookup_insert_ne, Hv by done; rewrite Hcol;
    destruct (event <? 2 ^ (size' + 1)); try done.
  rewrite lookup_insert_ne; [done|]. congruence.
Qed.
(** Two devices mapped to the same table share its entries. *)
Lemma shared_table conf v dev lpi bits itt rd dev' lpi' : dev' <> dev ->
  lpi < 2 ^ (bits + 1) -> lpi' < 2 ^ (bits + 1) ->
  route (run_cmds conf (run_cmds conf v (create_cmds dev' lpi' bits itt rd))
           (create_cmds dev lpi bits itt rd)) dev' lpi = Some (lpi, rd).
Proof.
  intros Hd Hl Hl'. destruct (created conf v dev' lpi' bits itt rd Hl') as [op ->].
  destruct (created conf (mk_vits (<[dev' := (bits, itt)]> (v_dev v))
    (<[(itt, lpi') := (lpi', 1)]> (v_itt v)) (<[1 := rd]> (v_col v))
    (partial_alter (fun _ => conf lpi') lpi' (v_cfg v)) (op ∖ {[rd]})) dev lpi bits itt rd Hl)
    as [op' ->].
  unfold route, entry_of. cbn [v_dev v_itt v_col].
  rewrite lookup_insert_ne, lookup_insert_eq by done.
  replace (lpi <? 2 ^ (bits + 1)) with true by lia. by rewrite !lookup_insert_eq.
Qed.
Lemma route_cleared conf v dev lpi itt rd event :
  route (run_cmds conf v (clear_cmds dev lpi itt rd)) dev event = None.
Proof.
  unfold run_cmds, clear_cmds. cbn [fold_left]. destruct v as [vd vi vc vf vo].
  cbn [exec]. destruct (entry_of _ dev lpi); cbn [exec];
    unfold route, entry_of; cbn [v_dev v_itt v_col]; by rewrite lookup_delete_eq.
Qed.

(** ** Runs of the driver *)

Section its.
Context {D W : Type} {HW : Hw D} {PE : GicPe D} {MEM : ItsMem D} {PAL : PciPal}.
Implicit Types s : ist D W.

Definition trace s : list ev := p_trace (g_pci (i_gst s)).
(** Device accesses leave the driver's own variables alone. *)
Definition keep s s' : Prop :=
  g_gic_its_info s' = g_gic_its_info s /\ g_cwriter_ptr s' = g_cwriter_ptr s /\
  g_its_setup_done s' = g_its_setup_done s /\ ConfigBase s' = ConfigBase s.

(** [m] ends, keeps the variables and adds to the trace what [Q] says. *)
Definition acc {A} (m : I D W A) (Q : A -> list ev -> Prop) s : Prop :=
  wp m (fun a s' => keep s s' /\ exists t, trace s' = t ++ trace s /\ Q a t) s.

Lemma acc_ret {A} (a : A) (Q : A -> list ev -> Prop) s : Q a [] -> acc (ret a) Q s.
Proof. intros H. split; [done|]. by exists []. Qed.
Lemma acc_bind {A B} (m : I D W A) (f : A -> I D W B) P Q s : acc m P s ->
  (forall a t s', keep s s' -> P a t -> acc (f a) (fun b t' => Q b (t' ++ t)) s') ->
  acc (bind m f) Q s.
Proof.
  intros Hm Hf. unfold acc. apply wp_bind. eapply wp_mono; [|exact Hm].
  intros a s1 [H1 (t & Ht & Ha)]. eapply wp_mono; [|apply (Hf a t s1 H1 Ha)].
  intros b s2 [H2 (t' & Ht' & Hb)]. split.
  { unfold keep in *. intuition congruence. }
  exists (t' ++ t). split; [|done]. by rewrite Ht', Ht, app_assoc.
Qed.
Lemma acc_mono {A} (m : I D W A) (P Q : A -> list ev -> Prop) s :
  acc m P s -> (forall a t, P a t -> Q a t) -> acc m Q s.
Proof.
  intros H HPQ. eapply wp_mono; [|exact H]. intros a s' [? (t & ? & ?)]. split; [done|].
  exists t. auto.
Qed.
Lemma acc_gets {A} (f : ist D W -> A) s : acc (gets f) (fun a t => a = f s /\ t = []) s.
Proof. split; [done|]. by exists []. Qed.
Lemma acc_use {A} (o : option A) a s : o = Some a -> acc (use o) (fun x t => x = a /\ t = []) s.
Proof. intros ->. split; [done|]. by exists []. Qed.

Lemma acc_rd32 a s : acc (rd32 a) (fun v t => t = [EvRead 4 (u64 a) v]) s.
Proof.
  unfold acc, rd32, gic, val_mmio_read, Gic.pci, wp, zoom, pal_mmio_read.
  destruct (hw_read _ _ _) as [v d]. split; [done|]. eexists. split; [|done]. done.
Qed.
Lemma acc_rd64 a s : acc (rd64 a) (fun v t => (exists d, v = u64 (fst (hw_read 8 d (u64 a)))) /\
  t = [EvRead 8 (u64 a) v]) s.
Proof.
  unfold acc, rd64, gic, val_mmio_read64, Gic.pci, wp, zoom, mmio_read_n.
  destruct (hw_read _ _ _) as [v d] eqn:E. split; [done|]. eexists. split; [|split; [|done]].
  - done.
  - eexists. by rewrite E.
Qed.
Lemma acc_wr32 a v s : acc (wr32 a v) (fun _ => Forall no_byte) s.
Proof. split; [done|]. eexists [_]. split; [done|]. by repeat constructor. Qed.
Lemma acc_wr64 a v s : acc (wr64 a v) (fun _ t => t = [EvWrite 8 (u64 a) (u64 v)]) s.
Proof. split; [done|]. eexists [_]. by split. Qed.
Lemma acc_wr8 a v s : acc (gic (val_mmio_write8 a v)) (fun _ t => t = [EvWrite 1 (u64 a) (u8 v)]) s.
Proof. split; [done|]. eexists [_]. by split. Qed.

Lemma acc_or a x s : acc (let! v := rd32 a in wr32 a (v .| x)) (fun _ => Forall no_byte) s.
Proof.
  eapply acc_bind; [apply acc_rd32|]. intros v t s1 _ ->.
  eapply acc_mono; [apply acc_wr32|]. intros ? t Ht. apply Forall_app. by repeat constructor.
Qed.

(** An ITS that is set up: its block and the index of the next command. *)
Record ready s (idx : Z) (i : gic_its_info) (b : its_block) (l : list Z) (c : Z) : Prop := {
  r_info : g_gic_its_info s = Some i; r_block : GicIts i !! Z.to_nat idx = Some b;
  r_ptr : g_cwriter_ptr s = Some l; r_cw : l !! Z.to_nat idx = Some c
}.
Lemma ready_keep s s' idx i b l c : keep s s' -> ready s idx i b l c -> ready s' idx i b l c.
Proof. intros (H1 & H2 & _) []. split; congruence. Qed.

Lemma acc_its_at s idx i b l c : ready s idx i b l c ->
  acc (its_at idx) (fun x t => x = b /\ t = []) s.
Proof.
  intros [H1 H2 _ _]. unfold its_at, its_info, acc, wp, bind, gets, use. rewrite H1. cbn.
  rewrite H2. cbn. split; [done|]. by exists [].
Qed.
Lemma acc_its_info s idx i b l c : ready s idx i b l c ->
  acc its_info (fun x t => x = i /\ t = []) s.
Proof.
  intros [H1 _ _ _]. unfold its_info, acc, wp, bind, gets, use. rewrite H1. cbn.
  split; [done|]. by exists [].
Qed.
Lemma acc_cwriter s idx i b l c : ready s idx i b l c ->
  acc (cwriter idx) (fun x t => x = c /\ t = []) s.
Proof.
  intros [_ _ H1 H2]. unfold cwriter, acc, wp, bind, gets, use. rewrite H1. cbn.
  rewrite H2. cbn. split; [done|]. by exists [].
Qed.

(** The wait reads registers and repeats the write index; it ends after at most
    10001 reads. *)
Definition poll_event (base : Z) (e : ev) : Prop :=
  match e with
  | EvRead _ _ _ => True
  | EvWrite n a _ => n = 8%nat /\ a = u64 (base + ARM_GITS_CWRITER)
  | _ => False
  end.
Lemma acc_poll_loop base cwriter_value n count v s : (0 < n)%nat ->
  WAIT_ITS_COMMAND_DONE + 1 - count <= Z.of_nat n ->
  acc (loop n (poll_done_step base cwriter_value) (count, v)) (fun _ => Forall (poll_event base)) s.
Proof.
  revert count v s. induction n as [|n IH]; intros count v s Hn Hc; [lia|]. cbn [loop].
  set (P := fun (r : Z * Z + unit) t => Forall (poll_event base) t /\
    match r with inl (c', _) => c' = count + 1 /\ c' <= WAIT_ITS_COMMAND_DONE | inr _ => True end).
  eapply acc_bind with (P := P).
  - unfold poll_done_step. destruct (v =? cwriter_value); [by apply acc_ret|].
    eapply acc_bind with (P := fun _ => Forall (poll_event base)).
    { destruct (truthy _); [|by apply acc_ret].
      eapply acc_mono; [apply acc_wr64|]. intros _ t ->. by repeat constructor. }
    intros _ t s1 _ Ht. destruct (Z.ltb_spec WAIT_ITS_COMMAND_DONE (count + 1)).
    { apply acc_ret. by split; [rewrite app_nil_l|]. }
    eapply acc_bind; [apply acc_rd64|]. intros x t1 s2 _ [_ ->]. apply acc_ret. split.
    + cbn [app]. constructor; [done|]. done.
    + lia.
  - intros [[c' v']|[]] t s1 _ [Ht Hc'].
    + destruct Hc' as [-> Hc']. eapply acc_mono; [apply IH; lia|]. intros [] t' Ht'.
      by apply Forall_app.
    + apply acc_ret. by rewrite app_nil_l.
Qed.
Lemma acc_poll s idx i b l c : ready s idx i b l c ->
  acc (PollTillCommandQueueDone idx) (fun _ => Forall (poll_event (its_base b))) s.
Proof.
  intros Hr. unfold PollTillCommandQueueDone.
  eapply acc_bind; [by eapply acc_its_at|]. intros ? ? s1 K1 [-> ->].
  eapply acc_bind; [apply acc_rd64|]. intros cw t2 s2 K2 [_ ->].
  eapply acc_bind; [apply acc_rd64|]. intros v t3 s3 K3 [_ ->].
  eapply acc_mono; [apply acc_poll_loop; [lia|by rewrite Z2Nat.id]|].
  intros [] t Ht. repeat apply Forall_app_2; try done; by repeat constructor.
Qed.

(** The target of a collection: the redistributor's address or the PE's number
    shifted by 16, from the values of GITS_TYPER and GICR_TYPER. *)
Definition rd_format (i : gic_its_info) (typer rd_typer : Z) : Z :=
  if Z.testbit typer 19 then GicRdBase i else fld 8 16 rd_typer << 16.
Lemma acc_rd_format s idx i b l c typer rd_typer : ready s idx i b l c ->
  (forall d, fst (hw_read 8 d (u64 (its_base b + ARM_GITS_TYPER))) = typer) ->
  (forall d, fst (hw_read 8 d (u64 (GicRdBase i + ARM_GICR_TYPER))) = rd_typer) ->
  acc (GetRDBaseFormat idx) (fun rd t => rd = rd_format i typer rd_typer /\ Forall no_byte t) s.
Proof.
  intros Hr Ht Hg. unfold GetRDBaseFormat.
  eapply acc_bind; [by eapply acc_its_at|]. intros ? ? s1 K1 [-> ->].
  eapply acc_bind; [eapply acc_its_info, ready_keep; eassumption|]. intros ? ? s2 K2 [-> ->].
  eapply acc_bind; [apply acc_rd64|]. intros v t s3 K3 [[d ->] ->]. rewrite Ht.
  assert (truthy (u32 (u64 typer) .& ARM_GITS_TYPER_PTA) = Z.testbit typer 19) as ->.
  { change ARM_GITS_TYPER_PTA with (1 << 19). rewrite truthy_bit by lia. unfold u32, u64.
    rewrite !testbit_wrap by lia. by rewrite !andb_true_r. }
  unfold rd_format. destruct (Z.testbit typer 19).
  { apply acc_ret. split; [done|]. by repeat constructor. }
  eapply acc_bind; [apply acc_rd64|]. intros v t' s4 K4 [[d' ->] ->]. rewrite Hg. apply acc_ret.
  split; [|by repeat constructor].
  f_equal. change ARM_GICR_TYPER_PN_MASK with (Z.ones 16 << 8). unfold ARM_GICR_TYPER_PN_SHIFT.
  rewrite fld_mask by lia. unfold u32, u64. by rewrite !fld_wrap by lia.
Qed.

(** One command: four words at the index, which moves on by four. *)
Lemma wp_write_command s idx i b l c q d0 d1 d2 d3 (Q : unit -> ist D W -> Prop) :
  ready s idx i b l c -> 0 <= c -> c + 4 < 2 ^ 32 ->
  (forall s', ready s' idx i b (<[Z.to_nat idx := c + 4]> l) (c + 4) ->
     trace s' = queue_writes q c [d0; d1; d2; d3] ++ trace s -> Q tt s') ->
  wp (write_command idx q d0 d1 d2 d3) Q s.
Proof.
  intros Hr Hc Hc4 HQ.
  assert (acc (write_words idx q d0 d1 d2 d3)
            (fun _ t => t = queue_writes q c [d0; d1; d2; d3]) s) as H.
  { unfold write_words. eapply acc_bind; [by eapply acc_cwriter|]. intros ? ? s1 K1 [-> ->].
    eapply acc_bind; [apply acc_wr64|]. intros [] ? s2 K2 ->.
    pose proof (ready_keep _ _ _ _ _ _ _ K2 (ready_keep _ _ _ _ _ _ _ K1 Hr)) as Hr2.
    eapply acc_bind; [by eapply acc_cwriter|]. intros ? ? s3 K3 [-> ->].
    eapply acc_bind; [apply acc_wr64|]. intros [] ? s4 K4 ->.
    pose proof (ready_keep _ _ _ _ _ _ _ K4 (ready_keep _ _ _ _ _ _ _ K3 Hr2)) as Hr4.
    eapply acc_bind; [by eapply acc_cwriter|]. intros ? ? s5 K5 [-> ->].
    eapply acc_bind; [apply acc_wr64|]. intros [] ? s6 K6 ->.
    pose proof (ready_keep _ _ _ _ _ _ _ K6 (ready_keep _ _ _ _ _ _ _ K5 Hr4)) as Hr6.
    eapply acc_bind; [by eapply acc_cwriter|]. intros ? ? s7 K7 [-> ->].
    eapply acc_mono; [apply acc_wr64|]. intros [] ? ->.
    cbn [queue_writes app].
    replace (c + 1 + 1 + 1) with (c + 3) by lia. by replace (c + 1 + 1) with (c + 2) by lia. }
  unfold write_command. apply wp_bind. eapply wp_mono; [|exact H].
  intros [] s' [K (t & Ht & ->)]. destruct (ready_keep _ _ _ _ _ _ _ K Hr) as [Hi Hb Hp Hl].
  unfold wp, bind, gets, use, set_cwriter, modify, ITS_NEXT_CMD_PTR. rewrite Hp. cbn [ret].
  unfold ret at 1. rewrite Hl. unfold ret. unfold u32. rewrite (wrap_small 32) by lia.
  apply HQ; [|done]. split; try done. cbn [g_cwriter_ptr].
  apply list_lookup_insert_eq. by apply lookup_lt_is_Some; eexists.
Qed.

Lemma wp_acc {A B} (m : I D W A) (f : A -> I D W B) P (Q : B -> ist D W -> Prop) s :
  acc m P s ->
  (forall a t s', keep s s' -> trace s' = t ++ trace s -> P a t -> wp (f a) Q s') ->
  wp (bind m f) Q s.
Proof.
  intros Hm Hf. apply wp_bind. eapply wp_mono; [|exact Hm]. intros a s' [K (t & Ht & HP)].
  by eapply Hf.
Qed.

Lemma acc_run_queue s idx i b l c : ready s idx i b l c -> 0 <= c < 2 ^ 29 ->
  acc (run_queue idx) (fun _ t => exists t', Forall (poll_event (its_base b)) t' /\
    t = t' ++ [EvWrite 8 (u64 (its_base b + ARM_GITS_CWRITER)) (8 * c)]) s.
Proof.
  intros Hr Hc. unfold run_queue.
  eapply acc_bind; [by eapply acc_its_at|]. intros ? ? s1 K1 [-> ->].
  pose proof (ready_keep _ _ _ _ _ _ _ K1 Hr) as Hr1.
  eapply acc_bind; [by eapply acc_cwriter|]. intros ? ? s2 K2 [-> ->].
  pose proof (ready_keep _ _ _ _ _ _ _ K2 Hr1) as Hr2.
  eapply acc_bind; [apply acc_wr64|]. intros [] ? s3 K3 ->.
  pose proof (ready_keep _ _ _ _ _ _ _ K3 Hr2) as Hr3.
  eapply acc_mono; [by eapply acc_poll|]. intros [] t Ht. exists t. split; [done|].
  rewrite !app_nil_r. unfold NUM_BYTES_IN_DW, u64, u32. rewrite (wrap_small 32) by lia.
  rewrite (wrap_small 64 (c * 8)) by lia. by replace (c * 8) with (8 * c) by lia.
Qed.

(** One more command behind the words [ws]. *)
Lemma wp_queue s idx i b l c q ws t d0 d1 d2 d3 (Q : unit -> ist D W -> Prop) :
  ready s idx i b l (c + Z.of_nat (length ws)) -> trace s = queue_writes q c ws ++ t ->
  0 <= c -> c + Z.of_nat (length ws) + 4 < 2 ^ 32 ->
  (forall s' l', ready s' idx i b l' (c + Z.of_nat (length (ws ++ [d0; d1; d2; d3]))) ->
     trace s' = queue_writes q c (ws ++ [d0; d1; d2; d3]) ++ t -> Q tt s') ->
  wp (write_command idx q d0 d1 d2 d3) Q s.
Proof.
  intros Hr Ht Hc Hl HQ. eapply wp_write_command; [exact Hr|lia|lia|]. intros s' Hr' Ht'.
  eapply HQ.
  - rewrite length_app. cbn [length].
    replace (c + Z.of_nat (length ws + 4)) with (c + Z.of_nat (length ws) + 4) by lia. exact Hr'.
  - by rewrite Ht', Ht, queue_writes_app, app_assoc.
Qed.

Section lpi.
Context (idx dev lpi : Z) (i : gic_its_info) (b : its_block) (l : list Z) (c q itt : Z).
Context (typer rd_typer : Z).
Hypothesis Hq : CommandQBase b = Some q.
Hypothesis Hitt : ITTBase b = Some itt.
Hypothesis Hdev : 0 <= dev < 2 ^ 32.
Hypothesis Hlpi : 0 <= lpi < 2 ^ 32.
Hypothesis Hc : 0 <= c /\ 8 * (c + 20) < NUM_PAGES_8 * SIZE_4KB.
Hypothesis Hqc : 0 <= q /\ q + NUM_PAGES_8 * SIZE_4KB <= 2 ^ 64.
Hypothesis Htyper : forall d, fst (hw_read 8 d (u64 (its_base b + ARM_GITS_TYPER))) = typer.
Hypothesis Hrdt : forall d, fst (hw_read 8 d (u64 (GicRdBase i + ARM_GICR_TYPER))) = rd_typer.

(** The state in which the ITS is told to run the commands [cs]: the write of
    the index, [n] words on, follows the writes of the commands; afterwards the
    driver only reads registers and repeats the write of the index. *)
Definition told (n : Z) (cs : list its_cmd) (t : list ev) (t1 : list ev) : Prop :=
  exists t0 t', t1 = t' ++ EvWrite 8 (u64 (its_base b + ARM_GITS_CWRITER)) (8 * (c + n)) :: t0 /\
    Forall (poll_event (its_base b)) t' /\ cmds t0 q c (length cs) = Some cs /\
    exists t2, Forall no_byte t2 /\ t0 = t2 ++ t.
Lemma told_byte n cs t t1 a : told n cs t t1 -> byte t1 a = byte t a.
Proof.
  intros (t0 & t' & -> & Hp & _ & t2 & H2 & ->). rewrite byte_skip.
  - cbn [byte Nat.eqb andb]. by apply byte_skip.
  - eapply Forall_impl; [|exact Hp]. intros [] He; try done. cbn in *. clear - He. lia.
Qed.

Lemma acc_config v s : acc (config_entry lpi v) (fun _ t =>
  t = [EvWrite 1 (u64 (ConfigBase s + u32 (lpi - 8192))) (u8 v)]) s.
Proof.
  unfold config_entry. eapply acc_bind; [apply acc_gets|]. intros ? ? s1 K1 [-> ->].
  eapply acc_mono; [apply acc_wr8|]. by intros [] ? ->.
Qed.

Lemma rd_low : fld 0 16 (GicRdBase i) = 0 -> fld 0 16 (u32 (rd_format i typer rd_typer)) = 0.
Proof.
  intros H. unfold u32. rewrite fld_wrap by lia. unfold rd_format.
  destruct (Z.testbit typer 19); [done|]. by rewrite fld_shl_low by lia.
Qed.

(** The end of both operations: the commands are queued and the ITS is told. *)
Lemma told_run s l' ws cs w t : Forall2 words_of cs ws -> w = concat ws ->
  (length w <= 20)%nat -> ready s idx i b l' (c + Z.of_nat (length w)) ->
  trace s = queue_writes q c w ++ t ->
  wp (run_queue idx) (fun _ s' => told (Z.of_nat (length w)) cs t (trace s')) s.
Proof.
  intros Hw -> Hn Hr Ht. unfold NUM_PAGES_8, SIZE_4KB in Hc, Hqc.
  eapply wp_mono; [|eapply acc_run_queue; [exact Hr|lia]].
  intros [] s' [_ (t1 & Ht1 & t' & Hp & ->)].
  exists (trace s), t'. rewrite Ht1, <- app_assoc. split; [done|]. split; [done|].
  split; [|rewrite Ht; eexists; split; [apply queue_no_byte|done]]. rewrite Ht.
  pose proof (cmds_queue q c (concat ws) t ltac:(lia) ltac:(lia) ltac:(lia) cs ws [] Hw eq_refl)
    as H. cbn [length] in H. by rewrite Z.add_0_r in H.
Qed.
End lpi.

(** Steps through accesses, keeping the fact [Hr] that the ITS is ready. *)
Tactic Notation "step" constr(lem) "as" simple_intropattern(p) simple_intropattern(ht) :=
  eapply wp_acc; [eapply lem; eassumption|];
  let K := fresh "K" in
  intros ? ? ? K ht p;
  match goal with Hr : ready _ _ _ _ _ _ |- _ => apply (ready_keep _ _ _ _ _ _ _ K) in Hr end.

(** C6. [val_its_create_lpi_map] writes five commands behind the ones before
    them, and then the index behind them, which tells the ITS: MAPD of the
    device with its table, MAPC of collection 1 to the redistributor, MAPTI of
    the event with the LPI's number to the LPI and that collection, INV of the
    event and SYNC of the same redistributor, whose address (or PE number) is
    cut to 32 bits. For an abstract ITS in any state these commands make that
    message of the device reach that LPI at that redistributor, make the
    redistributor hold the configuration of the LPI that the memory then has
    (the priority and the enable bit, written before), and leave nothing that
    is not visible there yet. The queue of 32KB must have room for the commands
    and the index behind them: the driver never goes back to its start. The
    redistributor lies on a boundary of 64KB. *)
Theorem lpi_map_routes idx dev lpi prio i b l c q itt bits typer rd_typer s :
  g_its_setup_done s <> 0 -> ready s idx i b l c ->
  CommandQBase b = Some q -> ITTBase b = Some itt -> IDBits b = Some bits ->
  0 <= dev < 2 ^ 32 -> 0 <= lpi < 2 ^ 32 -> 0 <= bits < 32 -> lpi < 2 ^ (bits + 1) ->
  0 <= c /\ 8 * (c + 20) < NUM_PAGES_8 * SIZE_4KB ->
  0 <= q /\ q + NUM_PAGES_8 * SIZE_4KB <= 2 ^ 64 ->
  (forall d, fst (hw_read 8 d (u64 (its_base b + ARM_GITS_TYPER))) = typer) ->
  (forall d, fst (hw_read 8 d (u64 (GicRdBase i + ARM_GICR_TYPER))) = rd_typer) ->
  fld 0 16 (GicRdBase i) = 0 ->
  let rd := u32 (rd_format i typer rd_typer) in
  let cs := create_cmds dev lpi bits (fld 8 44 itt << 8) rd in
  wp (val_its_create_lpi_map idx dev lpi prio) (fun _ s' =>
    (exists t, told b c q 20 cs t (trace s')) /\
    forall v, let v' := run_cmds (config_table (ConfigBase s) (trace s')) v cs in
      route v' dev lpi = Some (lpi, rd) /\
      v_cfg v' !! lpi = Some (u8 ((prio .& 0xFC) .| 1)) /\ rd ∉ v_open v') s.
Proof.
  intros Hs Hr Hq Hitt Hbits Hdev Hlpi Hb Hlb Hc Hqc Ht Hrd Hal rd cs.
  pose proof (rd_low i typer rd_typer Hal) as Hlow.
  pose proof (words_mapd dev bits itt 1 Hdev Hb (or_intror eq_refl)) as W1.
  pose proof (words_mapc (rd_format i typer rd_typer) 1 Hlow (or_intror eq_refl)) as W2.
  pose proof (words_mapti dev lpi Hdev Hlpi) as W3.
  pose proof (words_event INV ARM_ITS_CMD_INV dev lpi ltac:(by left) Hdev Hlpi) as W4.
  pose proof (words_sync (rd_format i typer rd_typer) Hlow) as W5.
  assert (0 <= c /\ 8 * (c + 20) < 0x8000) as Hc' by exact Hc.
  unfold val_its_create_lpi_map. apply wp_bind, wp_gets.
  replace (g_its_setup_done s =? 0) with false by (symmetry; by apply Z.eqb_neq).
  step acc_its_info as [-> ->] T1.
  step acc_its_at as [-> ->] T2.
  rewrite Hq. apply wp_bind. unfold use at 1. apply wp_ret.
  assert (ConfigBase s'0 = ConfigBase s) as Hcb by (unfold keep in *; intuition congruence).
  unfold SetConfigTable, EnableLPIsRD, EnableITS.
  step acc_config as -> T3. step acc_or as B4 T4. step acc_or as B5 T5.
  step acc_rd_format as [-> B6] T6.
  rewrite Hitt, Hbits. do 2 (apply wp_bind; unfold use at 1; apply wp_ret).
  remember (trace s'4) as tq eqn:Htq.
  assert (ready s'4 idx i b l (c + Z.of_nat (length (@nil Z)))) as Hr0 by (by rewrite Z.add_0_r).
  assert (trace s'4 = queue_writes q c [] ++ tq) as Hq0 by done. clear Hr.
  do 5 (apply wp_bind; eapply wp_queue; [exact Hr0|exact Hq0|lia|cbn [length app]; lia|];
    clear Hr0 Hq0; intros ? ? Hr0 Hq0).
  eapply wp_mono; [|eapply told_run with (cs := cs); [exact Hc|exact Hqc| | | |exact Hr0|exact Hq0]].
  - intros [] s1 H. split; [by exists tq|]. intros v.
    destruct (route_created (config_table (ConfigBase s) (trace s1)) v dev lpi bits
      (fld 8 44 itt << 8) rd Hlb) as (H1 & H2 & H3).
    split; [exact H1|]. split; [|exact H3]. etrans; [exact H2|]. unfold config_table.
    rewrite (told_byte _ _ _ _ _ _ _ _ H), T6, T5, T4, T3, Hcb.
    rewrite !byte_skip by done. cbn [app byte Nat.eqb andb]. rewrite Z.eqb_refl.
    unfold u8. by rewrite wrap_idemp by lia.
  - repeat (constructor; [eassumption|]). constructor.
  - reflexivity.
  - cbn. lia.
Qed.

(** [val_its_clear_lpi_map] tells the ITS to run three commands after which
    no message of the device is translated; the LPI is disabled before. *)
Theorem lpi_clear_unmaps idx dev lpi i b l c q itt typer rd_typer s :
  g_its_setup_done s <> 0 -> ready s idx i b l c ->
  CommandQBase b = Some q -> ITTBase b = Some itt ->
  0 <= dev < 2 ^ 32 -> 0 <= lpi < 2 ^ 32 ->
  0 <= c /\ 8 * (c + 20) < NUM_PAGES_8 * SIZE_4KB ->
  0 <= q /\ q + NUM_PAGES_8 * SIZE_4KB <= 2 ^ 64 ->
  (forall d, fst (hw_read 8 d (u64 (its_base b + ARM_GITS_TYPER))) = typer) ->
  (forall d, fst (hw_read 8 d (u64 (GicRdBase i + ARM_GICR_TYPER))) = rd_typer) ->
  fld 0 16 (GicRdBase i) = 0 ->
  let cs := clear_cmds dev lpi (fld 8 44 itt << 8) (u32 (rd_format i typer rd_typer)) in
  wp (val_its_clear_lpi_map idx dev lpi) (fun _ s' =>
    (exists t, told b c q 12 cs t (trace s')) /\
    config_table (ConfigBase s) (trace s') lpi = Some 0 /\
    forall conf v event, route (run_cmds conf v cs) dev event = None) s.
Proof.
  intros Hs Hr Hq Hitt Hdev Hlpi Hc Hqc Ht Hrd Hal cs.
  pose proof (words_event DISCARD ARM_ITS_CMD_DISCARD dev lpi ltac:(by right) Hdev Hlpi) as W1.
  pose proof (words_mapd dev 0 itt 0 Hdev ltac:(lia) (or_introl eq_refl)) as W2.
  pose proof (words_sync (rd_format i typer rd_typer) (rd_low i typer rd_typer Hal)) as W3.
  assert (0 <= c /\ 8 * (c + 20) < 0x8000) as Hc' by exact Hc.
  unfold val_its_clear_lpi_map. apply wp_bind, wp_gets.
  replace (g_its_setup_done s =? 0) with false by (symmetry; by apply Z.eqb_neq).
  step acc_its_at as [-> ->] T1.
  rewrite Hq. apply wp_bind. unfold use at 1. apply wp_ret.
  assert (ConfigBase s' = ConfigBase s) as Hcb by (unfold keep in *; intuition congruence).
  unfold ClearConfigTable. step acc_config as -> T2. step acc_rd_format as [-> B3] T3.
  remember (trace s'1) as tq eqn:Htq.
  assert (ready s'1 idx i b l (c + Z.of_nat (length (@nil Z)))) as Hr0 by (by rewrite Z.add_0_r).
  assert (trace s'1 = queue_writes q c [] ++ tq) as Hq0 by done. clear Hr.
  apply wp_bind; eapply wp_queue; [exact Hr0|exact Hq0|lia|cbn; lia|].
  clear Hr0 Hq0. intros ? ? Hr0 Hq0. rewrite Hitt. apply wp_bind. unfold use at 1. apply wp_ret.
  do 2 (apply wp_bind; eapply wp_queue; [exact Hr0|exact Hq0|lia|cbn; lia|];
    clear Hr0 Hq0; intros ? ? Hr0 Hq0).
  eapply wp_mono; [|eapply told_run with (cs := cs); [exact Hc|exact Hqc| | | |exact Hr0|exact Hq0]].
  - intros [] s1 H. split; [by exists tq|]. split.
    + unfold config_table. rewrite (told_byte _ _ _ _ _ _ _ _ H), T3, T2, Hcb, byte_skip by done.
      cbn [app byte Nat.eqb andb]. by rewrite Z.eqb_refl.
    + intros conf v event. apply route_cleared.
  - repeat (constructor; [eassumption|]). constructor.
  - reflexivity.
  - cbn. lia.
Qed.

(** ** The largest LPI *)

Definition min_idbits (bits : list Z) : Z :=
  fold_left (fun m n => if m <? n + 14 then m else n + 14) bits 31.

Lemma max_lpi_loop s i its bits pre m : g_gic_its_info s = Some i -> GicIts i = pre ++ its ->
  Forall2 (fun b n => IDBits b = Some n /\ 0 <= n < 32) its bits ->
  for_acc (length its) (Z.of_nat (length pre)) m (fun index min_idbits =>
    let! b := its_at (D := D) (W := W) index in
    let! bits := use (IDBits b) in
    ret (inl (if min_idbits <? u32 (bits + 14) then min_idbits else u32 (bits + 14))
         : Z + Empty_set)) s =
  Done (inl (fold_left (fun m n => if m <? n + 14 then m else n + 14) bits m)) s.
Proof.
  intros Hi Hg Hf. revert pre m Hg. induction Hf as [|b n its bits [Hb Hn] Hf IH];
    intros pre m Hg; [done|]. cbn [length for_acc fold_left].
  unfold bind at 1. unfold its_at, its_info, bind at 1 2 3 4, gets. rewrite Hi. cbn [use ret].
  unfold ret at 1. rewrite Nat2Z.id, Hg, lookup_app_r, Nat.sub_diag by lia.
  cbn [lookup list_lookup use]. unfold ret at 1. rewrite Hb. cbn [use]. unfold ret at 1 2.
  unfold u32. rewrite (wrap_small 32) by lia.
  specialize (IH (pre ++ [b])). rewrite length_app in IH. cbn [length] in IH.
  replace (Z.of_nat (length pre) + 1) with (Z.of_nat (length pre + 1)) by lia.
  rewrite <- IH; [done|]. by rewrite Hg, <- app_assoc.
Qed.

(** [val_its_get_max_lpi] takes the smallest number of EventID bits of the
    ITS blocks plus 14 and at most 31; with 17 bits or more everywhere it shifts
    a 32-bit 1 by 32, which C does not define. *)
Theorem max_lpi_spec s i bits : g_its_setup_done s <> 0 -> g_gic_its_info s = Some i ->
  GicIts i <> [] -> Forall2 (fun b n => IDBits b = Some n /\ 0 <= n < 32) (GicIts i) bits ->
  val_its_get_max_lpi s =
  if min_idbits bits <? 31 then Done (2 ^ (min_idbits bits + 1) - 1) s else Undef.
Proof.
  intros Hs Hi Hn Hf. unfold val_its_get_max_lpi. unfold bind at 1, gets. rewrite Hi.
  replace (Z.of_nat (length (GicIts i)) =? 0) with false
    by (destruct (GicIts i); [done|symmetry; apply Z.eqb_neq; cbn; lia]).
  unfold bind at 1. replace (g_its_setup_done s =? 0) with false by (symmetry; by apply Z.eqb_neq).
  unfold bind at 1. pose proof (max_lpi_loop s i (GicIts i) bits [] ARM_LPI_MAX_IDBITS Hi eq_refl Hf)
    as H. cbn [length] in H. change (Z.of_nat 0) with 0 in H. rewrite H. clear H.
  assert (forall l m, Forall (fun n => 0 <= n < 32) l -> 0 <= m <= 31 ->
    0 <= fold_left (fun m n => if m <? n + 14 then m else n + 14) l m <= 31) as Hm.
  { induction l as [|n l IH]; intros m Hl Hm; [done|]. inversion Hl; subst. cbn [fold_left].
    apply IH; [done|]. destruct (Z.ltb_spec m (n + 14)); lia. }
  assert (0 <= min_idbits bits <= 31) as Hb.
  { apply Hm; [|lia]. clear - Hf. induction Hf; constructor; tauto. }
  fold (min_idbits bits). unfold ARM_LPI_MAX_IDBITS in *.
  change (fold_left _ bits 31) with (min_idbits bits).
  unfold shl_chk, require, bind. destruct (Z.ltb_spec (min_idbits bits) 31).
  - replace (0 <=? min_idbits bits + 1) with true by lia.
    replace (min_idbits bits + 1 <? 32) with true by lia. cbn [andb]. unfold ret.
    assert (2 ^ (min_idbits bits + 1) <= 2 ^ 31) by (apply Z.pow_le_mono_r; lia).
    assert (0 < 2 ^ (min_idbits bits + 1)) by (apply Z.pow_pos_nonneg; lia).
    rewrite Z.shiftl_1_l. unfold u32. rewrite (wrap_small 32 (2 ^ _)) by lia.
    by rewrite wrap_small by lia.
  - by replace (min_idbits bits + 1 <? 32) with false by lia; rewrite andb_false_r.
Qed.
End its.

(** ** Runs *)
Section runs.
(** An ITS at 0x2F020000 whose registers read as 0 except GITS_TYPER (16 bits of
    events, targets are addresses); the redistributor is at 0x2F100000, the
    queue at 0x80000000 and the translation table at 0x80010000. *)
#[local] Instance its_hw : Hw unit := {
  hw_read _ d a := ((if a =? 0x2F020008 then (1 << 19) .| (15 << 8) else 0), d);
  hw_write _ d _ _ := d; hw_at_s1e3w _ _ v := v
}.
#[local] Instance its_pe : GicPe unit := {
  mpidr_el1 := 0; at_el2 := true; read_iar1 d := (1023, d)
}.
Definition its_demo_block (bits : Z) : its_block :=
  mk_its 0 0x2F020000 (Some 0x80000000) (Some bits) (Some 0x80010000).
Definition its_demo (bits : Z) : ist unit unit :=
  mk_ist (mk_gst (mk_pst tt None None 0 []) None (fun _ => 0) (fun _ => NoEsr) [])
    (mk_tst tt [] None 0 0 0 0 0 0 0 [])
    (Some (mk_its_info 0x2F000000 0x2F100000 [its_demo_block bits])) (Some [8]) 1 0x90000000.
Lemma its_demo_ready : ready (its_demo 15) 0 (mk_its_info 0x2F000000 0x2F100000
  [its_demo_block 15]) (its_demo_block 15) [8] 8.
Proof. by split. Qed.

(** The queue holds two commands before; the redistributor is reached by its
    address. *)
Lemma lpi_map_routes_witness :
  wp (val_its_create_lpi_map 0 0x10 8200 0x50) (fun _ s' =>
    (exists t, told (its_demo_block 15) 8 0x80000000 20
       (create_cmds 0x10 8200 15 0x80010000 0x2F100000) t (trace s')) /\
    forall v, let v' := run_cmds (config_table 0x90000000 (trace s')) v
                          (create_cmds 0x10 8200 15 0x80010000 0x2F100000) in
      route v' 0x10 8200 = Some (8200, 0x2F100000) /\
      v_cfg v' !! 8200 = Some 0x51 /\ 0x2F100000 ∉ v_open v') (its_demo 15).
Proof.
  exact (lpi_map_routes (HW := its_hw) 0 0x10 8200 0x50 _ _ _ 8 0x80000000
    0x80010000 15 ((1 << 19) .| (15 << 8)) 0 (its_demo 15) ltac:(done) its_demo_ready eq_refl
    eq_refl eq_refl ltac:(lia) ltac:(lia) ltac:(lia) ltac:(lia) ltac:(by vm_compute)
    ltac:(by vm_compute) (fun _ => eq_refl) (fun _ => eq_refl) eq_refl).
Defined.

Lemma lpi_clear_unmaps_witness :
  wp (val_its_clear_lpi_map 0 0x10 8200) (fun _ s' =>
    (exists t, told (its_demo_block 15) 8 0x80000000 12
       (clear_cmds 0x10 8200 0x80010000 0x2F100000) t (trace s')) /\
    config_table 0x90000000 (trace s') 8200 = Some 0 /\
    forall conf v event, route (run_cmds conf v
      (clear_cmds 0x10 8200 0x80010000 0x2F100000)) 0x10 event = None) (its_demo 15).
Proof.
  exact (lpi_clear_unmaps (HW := its_hw) 0 0x10 8200 _ _ _ 8 0x80000000
    0x80010000 ((1 << 19) .| (15 << 8)) 0 (its_demo 15) ltac:(done) its_demo_ready eq_refl
    eq_refl ltac:(lia) ltac:(lia) ltac:(by vm_compute) ltac:(by vm_compute)
    (fun _ => eq_refl) (fun _ => eq_refl) eq_refl).
Defined.

Lemma max_lpi_spec_witness :
  val_its_get_max_lpi (its_demo 15) = Done (2 ^ 30 - 1) (its_demo 15) /\
  val_its_get_max_lpi (its_demo 17) = Undef.
Proof.
  split.
  - rewrite (max_lpi_spec (its_demo 15) (mk_its_info 0x2F000000 0x2F100000 [its_demo_block 15])
      [15]); [reflexivity|discriminate|reflexivity|discriminate|].
    constructor; [split; [reflexivity|lia]|constructor].
  - rewrite (max_lpi_spec (its_demo 17) (mk_its_info 0x2F000000 0x2F100000 [its_demo_block 17])
      [17]); [reflexivity|discriminate|reflexivity|discriminate|].
    constructor; [split; [reflexivity|lia]|constructor].
Defined.
End runs.
