(* ===== verification/Iovirt.v ===== *)
(** * Iovirt

    The IO virtualisation table: val/src/acs_iovirt.c and
    platform/pal_baremetal/src/pal_iovirt.c. The table is a run of blocks of
    different lengths in memory; a block is kept under its address, so the walk
    from block to block and the references by byte offset are those of the code.
    Reading where no block begins is [Undef]. *)

From Stdlib Require Import ZArith Lia Bool List.
From stdpp Require Import base tactics numbers list gmap option.
From S2P Require Import Prelude.

(** ** Constants *)
Definition IOVIRT_NODE_ITS_GROUP : Z := 0x00.
Definition IOVIRT_NODE_NAMED_COMPONENT : Z := 0x01.
Definition IOVIRT_NODE_PCI_ROOT_COMPLEX : Z := 0x02.
Definition IOVIRT_NODE_SMMU : Z := 0x03.
Definition IOVIRT_NODE_SMMU_V3 : Z := 0x04.
Definition IOVIRT_NODE_PMCG : Z := 0x05.
Definition IOVIRT_FLAG_STRID_OVERLAP_SHIFT : Z := 1.
Definition IOVIRT_FLAG_SMMU_CTX_INT_SHIFT : Z := 2.
Definition IOVIRT_CCA_MASK : Z := bnot 32 0.
Definition IORT_NODE_COUNT : Z := 3.
Definition NUM_ITS_COUNT : Z := 1.
Definition IOVIRT_SMMUV3_COUNT : Z := 1.
Definition IOVIRT_RC_COUNT : Z := 1.
Definition IOVIRT_MAX_NUM_MAP : Z := 2.
Definition ACS_STATUS_ERR : Z := 0xEDCB1234.

Inductive SMMU_INFO_e :=
| SMMU_NUM_CTRL | SMMU_CTRL_BASE | SMMU_CTRL_ARCH_MAJOR_REV | SMMU_IOVIRT_BLOCK
| SMMU_SSID_BITS | SMMU_IN_ADDR_SIZE | SMMU_OUT_ADDR_SIZE.
Inductive PCIE_RC_INFO_e :=
| NUM_PCIE_RC | RC_SEGMENT_NUM | RC_ATS_ATTRIBUTE | RC_MEM_ATTRIBUTE
| RC_IOVIRT_BLOCK | RC_SMMU_BASE.

(** ** The table *)
Record ID_MAP := mk_map { input_base : Z; id_count : Z; output_base : Z; output_ref : Z }.
(** The union: ITS identifiers, or a mapping. *)
Inductive NODE_DATA_MAP := Ids (id : list Z) | Map (m : ID_MAP).
Record SMMU_INFO_BLOCK := mk_smmu_info { arch_major_rev : Z; smmu_info_base : Z }.
Record IOVIRT_RC_INFO_BLOCK := mk_rc { rc_segment : Z; rc_ats_attr : Z; rc_cca : Z }.
(** The union, by the member that was written. *)
Inductive NODE_DATA :=
| DataNone | DataRc (rc : IOVIRT_RC_INFO_BLOCK) | DataIts (its_count : Z)
| DataSmmu (smmu : SMMU_INFO_BLOCK).
Record IOVIRT_BLOCK := mk_block {
  b_type : Z; num_data_map : Z; b_data : NODE_DATA; b_flags : Z; data_map : list NODE_DATA_MAP
}.
(** The header of the table. *)
Record IOVIRT_INFO_TABLE := mk_iovirt_table {
  num_blocks : Z; num_smmus : Z; num_pci_rcs : Z; num_named_components : Z;
  num_its_groups : Z; num_pmcgs : Z
}.

(** Sizes and offsets of the C structures: the table's header has 24 bytes, the
    mappings of a block begin at byte 268 of its 272. *)
Definition blocks_offset : Z := 24.
Definition data_map_offset : Z := 268.
Definition sizeof_IOVIRT_BLOCK : Z := 272.
Definition sizeof_NODE_DATA_MAP : Z := 16.
Definition ALIGN_MEMORY (b bound : Z) : Z := u64 (b + bound - 1) .& bnot 64 (bound - 1).
Definition IOVIRT_NEXT_BLOCK (a : Z) (b : IOVIRT_BLOCK) : Z :=
  u64 (a + data_map_offset + num_data_map b * sizeof_NODE_DATA_MAP).

(** ** The platform's description *)
Record PLATFORM_OVERRIDE_SMMU_INFO_BLOCK := mk_psmmu {
  ps_base : Z; context_interrupt_offset : Z; context_interrupt_count : Z
}.
Record PLATFORM_OVERRIDE_NODE_DATA := mk_pnode {
  p_its_count : Z; p_smmu : list PLATFORM_OVERRIDE_SMMU_INFO_BLOCK; p_rc : IOVIRT_RC_INFO_BLOCK
}.
Record PLATFORM_OVERRIDE_NODE_DATA_MAP := mk_pmap {
  pm_input_base : list Z; pm_id_count : list Z; pm_output_base : list Z; pm_output_ref : list Z
}.
Record PLATFORM_OVERRIDE_IOVIRT_INFO_TABLE := mk_piovirt {
  p_Address : Z; p_node_count : Z; p_type : list Z; p_num_map : list Z;
  p_map : list PLATFORM_OVERRIDE_NODE_DATA_MAP
}.

(** The state: blocks by address, the header, the two globals. *)
Record iov := mk_iov {
  io_blocks : gmap Z IOVIRT_BLOCK; io_table : IOVIRT_INFO_TABLE;
  g_iovirt_info_table : Z; g_num_smmus : Z
}.
Abbreviation O := (M iov).
Definition set_blocks f s :=
  mk_iov (f (io_blocks s)) (io_table s) (g_iovirt_info_table s) (g_num_smmus s).
Definition set_header f s :=
  mk_iov (io_blocks s) (f (io_table s)) (g_iovirt_info_table s) (g_num_smmus s).
Definition set_table v s := mk_iov (io_blocks s) (io_table s) v (g_num_smmus s).
Definition set_num_smmus v s := mk_iov (io_blocks s) (io_table s) (g_iovirt_info_table s) v.

(** [*block]. *)
Definition block_at (a : Z) : O IOVIRT_BLOCK := let! s := get in use (io_blocks s !! a).
Definition rc_of (b : IOVIRT_BLOCK) : O IOVIRT_RC_INFO_BLOCK :=
  match b_data b with DataRc r => ret r | _ => undef end.
Definition smmu_of (b : IOVIRT_BLOCK) : O SMMU_INFO_BLOCK :=
  match b_data b with DataSmmu r => ret r | _ => undef end.
Definition map_of (m : NODE_DATA_MAP) : O ID_MAP :=
  match m with Map m => ret m | Ids _ => undef end.
(** [block->data_map[0].id[0]]. *)
Definition first_id (b : IOVIRT_BLOCK) : O Z :=
  match data_map b !! 0%nat with Some (Ids (i :: _)) => ret i | _ => undef end.
Definition is_smmu (b : IOVIRT_BLOCK) : bool :=
  (b_type b =? IOVIRT_NODE_SMMU) || (b_type b =? IOVIRT_NODE_SMMU_V3).

Section code.
(** 8 in the bare-metal build, 1 otherwise. *)
Variable bound : Z.
Variable platform_iovirt_cfg : PLATFORM_OVERRIDE_IOVIRT_INFO_TABLE.
Variable platform_node_type : PLATFORM_OVERRIDE_NODE_DATA.

(** ** The walk over the blocks *)

(** The loops over the table: the body gets the aligned address and the block;
    [inr] is an early return. *)
Definition walk_step {X R} (body : Z -> IOVIRT_BLOCK -> X -> O (X + R)) (x : Z * X)
    : O ((Z * X) + R) :=
  let a := ALIGN_MEMORY (fst x) bound in
  let! b := block_at a in
  let! r := body a b (snd x) in
  match r with
  | inl x' => ret (inl (IOVIRT_NEXT_BLOCK a b, x'))
  | inr v => ret (inr v)
  end.
Definition walk {X R} (body : Z -> IOVIRT_BLOCK -> X -> O (X + R)) (x : X) : O (X + R) :=
  let! t := gets g_iovirt_info_table in
  let! h := gets io_table in
  let! r := for_acc (Z.to_nat (num_blocks h)) 0 (t + blocks_offset, x)
              (fun _ => walk_step body) in
  ret (match r with inl (_, x) => inl x | inr v => inr v end).

(** ** Look-ups (acs_iovirt.c) *)

Definition smmu_info_step (type : SMMU_INFO_e) (index a : Z) (block : IOVIRT_BLOCK) (j : Z)
    : O (Z + Z) :=
  if is_smmu block then
    if j =? index then
      match type with
      | SMMU_CTRL_ARCH_MAJOR_REV => let! s := smmu_of block in ret (inr (arch_major_rev s))
      | SMMU_CTRL_BASE => let! s := smmu_of block in ret (inr (smmu_info_base s))
      | SMMU_IOVIRT_BLOCK => ret (inr a)
      | _ => ret (inr 0)
      end
    else ret (inl (u32 (j + 1)))
  else ret (inl j).

Definition val_iovirt_get_smmu_info (type : SMMU_INFO_e) (index : Z) : O Z :=
  let! t := gets g_iovirt_info_table in
  if t =? 0 then ret 0 else
  match type with
  | SMMU_NUM_CTRL => let! h := gets io_table in ret (num_smmus h)
  | _ =>
      let! r := walk (smmu_info_step type index) 0 in
      match r with
      | inr v => ret v
      | inl j => ret (if u32 (j - 1) <? index then 0 else j)
      end
  end.

Definition rc_info_step (type : PCIE_RC_INFO_e) (index a : Z) (block : IOVIRT_BLOCK) (j : Z)
    : O (Z + Z) :=
  if b_type block =? IOVIRT_NODE_PCI_ROOT_COMPLEX then
    if j =? index then
      match type with
      | RC_SEGMENT_NUM => let! r := rc_of block in ret (inr (rc_segment r))
      | RC_MEM_ATTRIBUTE => let! r := rc_of block in ret (inr (rc_cca r))
      | RC_ATS_ATTRIBUTE => let! r := rc_of block in ret (inr (rc_ats_attr r))
      | RC_IOVIRT_BLOCK => ret (inr a)
      | _ => ret (inr 0)
      end
    else ret (inl (u32 (j + 1)))
  else ret (inl j).

Definition val_iovirt_get_pcie_rc_info (type : PCIE_RC_INFO_e) (index : Z) : O Z :=
  let! t := gets g_iovirt_info_table in
  if t =? 0 then ret 0 else
  match type with
  | NUM_PCIE_RC => let! h := gets io_table in ret (num_pci_rcs h)
  | _ =>
      let! r := walk (rc_info_step type index) 0 in
      match r with
      | inr v => ret v
      | inl j => ret (if u32 (j - 1) <? index then 0 else j)
      end
  end.

Definition pal_iovirt_check_unique_ctx_intid (smmu_block : Z) : O Z :=
  let! b := block_at smmu_block in
  ret (if truthy (b_flags b .& (1 << IOVIRT_FLAG_SMMU_CTX_INT_SHIFT)) then 0 else 1).
Definition pal_iovirt_unique_rid_strid_map (rc_block : Z) : O Z :=
  let! b := block_at rc_block in
  ret (if truthy (b_flags b .& (1 << IOVIRT_FLAG_STRID_OVERLAP_SHIFT)) then 0 else 1).
Definition val_iovirt_unique_rid_strid_map (rc_index : Z) : O Z :=
  let! block := val_iovirt_get_pcie_rc_info RC_IOVIRT_BLOCK rc_index in
  pal_iovirt_unique_rid_strid_map block.
Definition val_iovirt_check_unique_ctx_intid (smmu_index : Z) : O Z :=
  let! smmu_block := val_iovirt_get_smmu_info SMMU_IOVIRT_BLOCK smmu_index in
  pal_iovirt_check_unique_ctx_intid smmu_block.

(** ** Identifier mapping *)

(** The loop over the mappings of a block: the output identifier and reference
    of the first one that holds [x]. *)
Fixpoint map_search (x : Z) (maps : list NODE_DATA_MAP) (n : nat) : O (option (Z * Z)) :=
  match n with
  | 0%nat => ret None
  | S n' =>
      match maps with
      | [] => undef
      | m :: maps' =>
          let! m := map_of m in
          if (input_base m <=? x) && (x <=? u32 (input_base m + id_count m))
          then ret (Some (u32 (u32 (x - input_base m) + output_base m), output_ref m))
          else map_search x maps' n'
      end
  end.
Definition block_search (x : Z) (b : IOVIRT_BLOCK) : O (option (Z * Z)) :=
  map_search x (data_map b) (Z.to_nat (num_data_map b)).

(** The search for the root complex. The inner [break] leaves the inner loop
    only: a later root complex of the segment overrides the result. *)
Definition rc_step (rid segment a : Z) (block : IOVIRT_BLOCK) (found : option (Z * Z))
    : O (option (Z * Z) + unit) :=
  if b_type block =? IOVIRT_NODE_PCI_ROOT_COMPLEX then
    let! r := rc_of block in
    if rc_segment r =? segment then
      let! m := block_search rid block in
      ret (inl (match m with Some x => Some x | None => found end))
    else ret (inl found)
  else ret (inl found).
Definition rc_search (rid segment : Z) : O (option (Z * Z)) :=
  let! r := walk (rc_step rid segment) None in
  ret (match r with inl x => x | inr _ => None end).

(** The block an offset refers to. *)
Definition block_ref (oref : Z) : O IOVIRT_BLOCK :=
  let! t := gets g_iovirt_info_table in block_at (u64 (t + oref)).

Record device_info := mk_device_info { device_id : Z; stream_id : Z; its_id : Z }.

(** The status, and the identifiers written on success. *)
Definition val_iovirt_get_device_info (rid segment : Z) : O (Z * option device_info) :=
  let! t := gets g_iovirt_info_table in
  if t =? 0 then ret (ACS_STATUS_ERR, None) else
  let! found := rc_search rid segment in
  match found with
  | None => ret (ACS_STATUS_ERR, None)
  | Some (id, oref) =>
      let! block := block_ref oref in
      if b_type block =? IOVIRT_NODE_ITS_GROUP then
        let! itsid := first_id block in
        ret (0, Some (mk_device_info id (bnot 32 0) itsid))
      else if is_smmu block then
        let sid := id in
        let! m := block_search sid block in
        let oref' := match m with Some (_, o) => o | None => oref end in
        let! block := block_ref oref' in
        let! itsid := (if b_type block =? IOVIRT_NODE_ITS_GROUP then first_id block
                       else ret 0) in
        match m with
        | None => ret (ACS_STATUS_ERR, None)
        | Some (did, _) => ret (0, Some (mk_device_info did sid itsid))
        end
      else ret (ACS_STATUS_ERR, None)
  end.

Definition pal_iovirt_get_rc_smmu_base (RcSegmentNum rid : Z) : O Z :=
  let! found := rc_search rid RcSegmentNum in
  match found with
  | None => ret 0xFFFFFFFF
  | Some (sid, oref) =>
      let! block := block_ref oref in
      if is_smmu block then
        let! m := block_search sid block in
        match m with
        | Some _ => let! s := smmu_of block in ret (smmu_info_base s)
        | None => ret 0
        end
      else ret 0
  end.

(** ** Construction (pal_iovirt.c) *)

(** The comparison loads 32-bit words behind the field whose address the caller
    passes; only the field itself is an object. *)
Definition smmu_ctx_int_distinct (ctx_int : list Z) (ctx_int_cnt : Z) : O Z :=
  let! r := for_acc (Z.to_nat (ctx_int_cnt - 1)) 0 tt (fun i _ =>
    let! r := for_acc (Z.to_nat (ctx_int_cnt - (i + 1))) (i + 1) tt (fun j _ =>
      let! x := use (ctx_int !! Z.to_nat i) in
      let! y := use (ctx_int !! Z.to_nat j) in
      ret (if u32 x =? u32 y then inr 0 else inl tt)) in
    ret r) in
  ret (match r with inl _ => 1 | inr v => v end).

(** The locals of the loop over the nodes. *)
Record create_locals := mk_cl {
  cl_block : Z; cl_m : Z; cl_k : Z; cl_z : Z; cl_node : list (option Z)
}.

(** What the [switch] stores into the block and counts in the header; [None]
    for a type it does not know. The increments of [m] and [k] come with it. *)
Definition create_data (i type num_map : Z) (x : create_locals)
    : O (option (Z * NODE_DATA * Z * list NODE_DATA_MAP *
                 (IOVIRT_INFO_TABLE -> IOVIRT_INFO_TABLE) * (Z * Z))) :=
  let mk := (cl_m x, cl_k x) in
  if type =? IOVIRT_NODE_ITS_GROUP then
    let n := p_its_count platform_node_type in
    (* sizeof(uint32_t) * its_count bytes of identifier[4][1], from row i *)
    require (i + n <=? 4) ;;
    let ids := take (Z.to_nat n) (drop (Z.to_nat i) [0; 1; 2; 3]) in
    ret (Some (u32 (n + 3) / 4, DataIts n, 0,
               (match ids with [] => [] | _ => [Ids ids] end),
               (fun h => mk_iovirt_table (num_blocks h) (num_smmus h) (num_pci_rcs h)
                  (num_named_components h) (u32 (num_its_groups h + 1)) (num_pmcgs h)), mk))
  else if type =? IOVIRT_NODE_NAMED_COMPONENT then
    ret (Some (num_map, DataNone, 0, [],
               (fun h => mk_iovirt_table (num_blocks h) (num_smmus h) (num_pci_rcs h)
                  (u32 (num_named_components h + 1)) (num_its_groups h) (num_pmcgs h)), mk))
  else if type =? IOVIRT_NODE_PCI_ROOT_COMPLEX then
    let rc := p_rc platform_node_type in
    ret (Some (num_map,
               DataRc (mk_rc (rc_segment rc) (rc_ats_attr rc) (rc_cca rc .& IOVIRT_CCA_MASK)), 0, [],
               (fun h => mk_iovirt_table (num_blocks h) (num_smmus h) (u32 (num_pci_rcs h + 1))
                  (num_named_components h) (num_its_groups h) (num_pmcgs h)), mk))
  else if type =? IOVIRT_NODE_SMMU then
    let! s := use (p_smmu platform_node_type !! Z.to_nat (cl_m x)) in
    let! d := smmu_ctx_int_distinct [context_interrupt_offset s] (u8 (context_interrupt_count s)) in
    ret (Some (num_map, DataSmmu (mk_smmu_info 2 (ps_base s)),
               (if truthy d then 0 else 1 << IOVIRT_FLAG_SMMU_CTX_INT_SHIFT), [],
               (fun h => mk_iovirt_table (num_blocks h) (u32 (num_smmus h + 1)) (num_pci_rcs h)
                  (num_named_components h) (num_its_groups h) (num_pmcgs h)),
               (cl_m x + 1, cl_k x)))
  else if type =? IOVIRT_NODE_SMMU_V3 then
    let! s := use (p_smmu platform_node_type !! Z.to_nat (cl_k x)) in
    ret (Some (num_map, DataSmmu (mk_smmu_info 3 (ps_base s)), 0, [],
               (fun h => mk_iovirt_table (num_blocks h) (u32 (num_smmus h + 1)) (num_pci_rcs h)
                  (num_named_components h) (num_its_groups h) (num_pmcgs h)),
               (cl_m x, cl_k x + 1)))
  else if type =? IOVIRT_NODE_PMCG then
    ret (Some (num_map, DataNone, 0, [],
               (fun h => mk_iovirt_table (num_blocks h) (num_smmus h) (num_pci_rcs h)
                  (num_named_components h) (num_its_groups h) (u32 (num_pmcgs h + 1))), mk))
  else ret None.

(** The reference of mapping [j]: the assignment for SMMUv3 is overwritten by
    the [else] of the next test. *)
Definition create_ref (type j z cfg_ref : Z) (node : list (option Z)) : O Z :=
  let node_at k := let! n := use (node !! Z.to_nat k) in use n in
  (when type =? IOVIRT_NODE_SMMU_V3 then (let! _ref := node_at z in ret tt)) ;;
  if type =? IOVIRT_NODE_PCI_ROOT_COMPLEX then node_at (j + NUM_ITS_COUNT) else ret cfg_ref.

(** The loop over the mappings of a node. *)
Fixpoint create_maps (type j z : Z) (pm : PLATFORM_OVERRIDE_NODE_DATA_MAP)
    (node : list (option Z)) (n : nat) : O (list NODE_DATA_MAP) :=
  match n with
  | 0%nat => ret []
  | S n' =>
      let! i := use (pm_input_base pm !! Z.to_nat j) in
      let! c := use (pm_id_count pm !! Z.to_nat j) in
      let! o := use (pm_output_base pm !! Z.to_nat j) in
      let! cfg_ref := use (pm_output_ref pm !! Z.to_nat j) in
      let! r := create_ref type j z cfg_ref node in
      let! l := create_maps type (j + 1) z pm node n' in
      ret (Map (mk_map i c o r) :: l)
  end.

(** One node. [inr] is the return for an unknown type. *)
Definition create_step (i : Z) (x : create_locals) : O (create_locals + unit) :=
  let! t := gets g_iovirt_info_table in
  let block := ALIGN_MEMORY (cl_block x) bound in
  let! type := use (p_type platform_iovirt_cfg !! Z.to_nat i) in
  let! num_map := use (p_num_map platform_iovirt_cfg !! Z.to_nat i) in
  let! d := create_data i type num_map x in
  match d with
  | None => ret (inr tt)
  | Some (num, data, fl, ids, count, (m, k)) =>
      modify (set_header count) ;;
      require (Z.to_nat i <? length (cl_node x))%nat ;;
      let node := <[Z.to_nat i := Some (u32 (block - t))]> (cl_node x) in
      let! maps := (if type =? IOVIRT_NODE_ITS_GROUP then ret ids
        else let! pm := use (p_map platform_iovirt_cfg !! Z.to_nat i) in
             create_maps type 0 (cl_z x) pm node (Z.to_nat num)) in
      let z := if type =? IOVIRT_NODE_ITS_GROUP then cl_z x else cl_z x + 1 in
      let b := mk_block type num data fl maps in
      modify (set_blocks (insert block b)) ;;
      modify (set_header (fun h => mk_iovirt_table (u32 (num_blocks h + 1)) (num_smmus h)
        (num_pci_rcs h) (num_named_components h) (num_its_groups h) (num_pmcgs h))) ;;
      ret (inl (mk_cl (IOVIRT_NEXT_BLOCK block b) m k z node))
  end.

Definition pal_iovirt_create_info_table : O unit :=
  let! t := gets g_iovirt_info_table in
  if t =? 0 then ret tt else
  modify (set_header (fun _ => mk_iovirt_table 0 0 0 0 0 0)) ;;
  if p_Address platform_iovirt_cfg =? 0 then ret tt else
  let! _r := for_acc (Z.to_nat (p_node_count platform_iovirt_cfg)) 0
    (mk_cl (t + blocks_offset) 0 0 0 (replicate (Z.to_nat IORT_NODE_COUNT) None)) create_step in
  ret tt.

Definition val_iovirt_create_info_table (iovirt_info_table : Z) : O unit :=
  if iovirt_info_table =? 0 then ret tt else
  modify (set_table iovirt_info_table) ;;
  pal_iovirt_create_info_table ;;
  let! n := val_iovirt_get_smmu_info SMMU_NUM_CTRL 0 in
  modify (set_num_smmus (u32 n)).
End code.

(** ** The configuration of the FVP (platform_override_fvp.h, platform_cfg_fvp.c) *)
Definition IOVIRT_ADDRESS : Z := 0xF280AC18.
Definition IOVIRT_SMMUV3_0_BASE_ADDRESS : Z := 0x2B400000.
Definition fvp_iovirt_cfg : PLATFORM_OVERRIDE_IOVIRT_INFO_TABLE :=
  mk_piovirt IOVIRT_ADDRESS IORT_NODE_COUNT
    [IOVIRT_NODE_ITS_GROUP; IOVIRT_NODE_SMMU_V3; IOVIRT_NODE_PCI_ROOT_COMPLEX] [0; 1; 1]
    [mk_pmap [0; 0] [0; 0] [0; 0] [0; 0];
     mk_pmap [0x0; 0] [0xFFFF; 0] [0x0; 0] [0x18; 0];
     mk_pmap [0x0; 0] [0xFFFF; 0] [0x0; 0] [0x250; 0]].
Definition fvp_node_type : PLATFORM_OVERRIDE_NODE_DATA :=
  mk_pnode 1 [mk_psmmu IOVIRT_SMMUV3_0_BASE_ADDRESS 0 0] (mk_rc 0x0 0x1 0x0).

(** The size RmeAcsMain.c allocates for the table. *)
Definition iovirt_table_alloc : Z :=
  blocks_offset + (NUM_ITS_COUNT + IOVIRT_SMMUV3_COUNT + IOVIRT_RC_COUNT) * sizeof_IOVIRT_BLOCK
  + IOVIRT_MAX_NUM_MAP * sizeof_NODE_DATA_MAP.
