(* ===== verification/IovirtSpec.v ===== *)
(** * IovirtSpec

    Theorems on Iovirt. [layout] gives the addresses of a list of blocks the way
    the walk visits them; [iort] is a table in memory whose blocks carry the data
    of their type and refer to blocks of the table. *)

From Stdlib Require Import ZArith Lia Bool List.
From stdpp Require Import base tactics numbers list gmap option.
From S2P Require Import Prelude Iovirt.

(** ** Specification *)

Fixpoint layout (bound a : Z) (bs : list IOVIRT_BLOCK) : list (Z * IOVIRT_BLOCK) :=
  match bs with
  | [] => []
  | b :: bs' =>
      let a := ALIGN_MEMORY a bound in
      (a, b) :: layout bound (IOVIRT_NEXT_BLOCK a b) bs'
  end.

(** The table at [t] has the blocks [bs]. *)
Record laid_out (bound t : Z) (bs : list IOVIRT_BLOCK) (s : iov) : Prop := {
  lo_table : g_iovirt_info_table s = t;
  lo_null : t <> 0;
  lo_count : num_blocks (io_table s) = Z.of_nat (length bs);
  lo_blocks : Forall (fun x => io_blocks s !! x.1 = Some x.2) (layout bound (t + blocks_offset) bs)
}.

(** A mapping that stays inside 32 bits. *)
Definition map_ok (m : ID_MAP) : Prop :=
  0 <= input_base m /\ 0 <= id_count m /\ 0 <= output_base m /\
  input_base m + id_count m < 2 ^ 32 /\ output_base m + id_count m < 2 ^ 32.
Definition is_map (m : NODE_DATA_MAP) : Prop :=
  match m with Map m => map_ok m | Ids _ => False end.

(** A block carries the data of its type. *)
Definition typed_block (b : IOVIRT_BLOCK) : Prop :=
  if b_type b =? IOVIRT_NODE_ITS_GROUP then
    exists i ids, data_map b !! 0%nat = Some (Ids (i :: ids))
  else
    Z.of_nat (length (data_map b)) = num_data_map b /\ Forall is_map (data_map b) /\
    (b_type b = IOVIRT_NODE_PCI_ROOT_COMPLEX -> exists r, b_data b = DataRc r) /\
    (is_smmu b = true -> exists r, b_data b = DataSmmu r).

Definition node_ref (bound t : Z) (bs : list IOVIRT_BLOCK) (oref : Z) : option IOVIRT_BLOCK :=
  snd <$> find (fun x => x.1 =? u64 (t + oref)) (layout bound (t + blocks_offset) bs).

(** References of a block that mapping look-ups follow. *)
Definition refs_ok (bound t : Z) (bs : list IOVIRT_BLOCK) (b : IOVIRT_BLOCK) : Prop :=
  Forall (fun m => match m with
                   | Map m => is_Some (node_ref bound t bs (output_ref m))
                   | Ids _ => True
                   end) (data_map b).

Record iort (bound t : Z) (bs : list IOVIRT_BLOCK) (s : iov) : Prop := {
  io_laid : laid_out bound t bs s;
  io_typed : Forall typed_block bs;
  io_refs : Forall (fun b => b_type b = IOVIRT_NODE_PCI_ROOT_COMPLEX \/ is_smmu b = true ->
                             refs_ok bound t bs b) bs
}.

(** The mapping of an identifier, in unbounded integers: the first range that
    holds it. *)
Fixpoint map_id (x : Z) (maps : list NODE_DATA_MAP) : option (Z * Z) :=
  match maps with
  | Map m :: maps' =>
      if (input_base m <=? x) && (x <=? input_base m + id_count m)
      then Some (x - input_base m + output_base m, output_ref m) else map_id x maps'
  | _ => None
  end.

(** What a block adds to the search for the root complex, and the search: the
    last root complex of the segment that maps the requester. *)
Definition rc_pick (rid segment : Z) (b : IOVIRT_BLOCK) (found : option (Z * Z)) : option (Z * Z) :=
  match b_data b with
  | DataRc r => if (b_type b =? IOVIRT_NODE_PCI_ROOT_COMPLEX) && (rc_segment r =? segment)
                then match map_id rid (data_map b) with Some x => Some x | None => found end
                else found
  | _ => found
  end.
Fixpoint rc_map (rid segment : Z) (bs : list IOVIRT_BLOCK) (found : option (Z * Z))
    : option (Z * Z) :=
  match bs with
  | [] => found
  | b :: bs' => rc_map rid segment bs' (rc_pick rid segment b found)
  end.
Definition its_of (b : IOVIRT_BLOCK) : Z :=
  match b_type b =? IOVIRT_NODE_ITS_GROUP, data_map b with
  | true, Ids (i :: _) :: _ => i
  | _, _ => 0
  end.

(** What the table says of a requester: through an ITS directly, or through an
    SMMU and then its ITS. *)
Definition iort_info (bound t : Z) (bs : list IOVIRT_BLOCK) (rid segment : Z) : option device_info :=
  '(id, oref) ← rc_map rid segment bs None;
  b ← node_ref bound t bs oref;
  if b_type b =? IOVIRT_NODE_ITS_GROUP then Some (mk_device_info id 0xFFFFFFFF (its_of b))
  else if is_smmu b then
    '(did, oref') ← map_id id (data_map b);
    b' ← node_ref bound t bs oref';
    Some (mk_device_info did id (its_of b'))
  else None.

(** ** The walk *)

(** What a walk computes when its body is a function of the block. *)
Fixpoint wfold {X R} (f : Z -> IOVIRT_BLOCK -> X -> X + R) (l : list (Z * IOVIRT_BLOCK)) (x : X)
    : X + R :=
  match l with
  | [] => inl x
  | (a, b) :: l' => match f a b x with inl x' => wfold f l' x' | inr r => inr r end
  end.

Section walk.
Context (bound t : Z) (bs : list IOVIRT_BLOCK) (s : iov).

Lemma walk_from {X R} (body : Z -> IOVIRT_BLOCK -> X -> O (X + R)) f l a i x :
  Forall (fun y => io_blocks s !! y.1 = Some y.2) (layout bound a l) ->
  (forall a b x, b ∈ l -> body a b x s = Done (f a b x) s) ->
  exists a', for_acc (length l) i (a, x) (fun _ => walk_step bound body) s =
    Done (match wfold f (layout bound a l) x with inl x' => inl (a', x') | inr r => inr r end) s.
Proof.
  revert a i x. induction l as [|b l IH]; intros a i x Hl Hb; [by exists a|].
  cbn [layout] in Hl. apply Forall_cons_1 in Hl as [Ha Hl]. cbn in Ha.
  cbn [length for_acc layout wfold]. unfold walk_step at 1, block_at, get, use, bind. cbn [fst snd].
  rewrite Ha. unfold ret. rewrite (Hb _ b x) by set_solver.
  destruct (f (ALIGN_MEMORY a bound) b x) as [x'|r]; [|by exists a].
  apply IH; [done|]. intros a1 b1 x1 Hin. apply Hb. set_solver.
Qed.

Hypothesis Hs : laid_out bound t bs s.

Lemma iovirt_walk_run {X R} (body : Z -> IOVIRT_BLOCK -> X -> O (X + R)) f x :
  (forall a b x, b ∈ bs -> body a b x s = Done (f a b x) s) ->
  walk bound body x s = Done (wfold f (layout bound (t + blocks_offset) bs) x) s.
Proof.
  intros Hb. destruct Hs as [Ht _ Hn Hbs]. unfold walk, gets, bind. rewrite Hn, Nat2Z.id, Ht.
  destruct (walk_from body f bs (t + blocks_offset) 0 x Hbs Hb) as [a' Hw]. rewrite Hw.
  unfold ret. by destruct (wfold _ _ _).
Qed.

Lemma node_ref_run oref b : node_ref bound t bs oref = Some b ->
  block_ref oref s = Done b s.
Proof.
  unfold node_ref, block_ref, gets, bind, block_at, get, use. destruct Hs as [Ht _ _ Hbs].
  intros H. apply fmap_Some in H as ([a b'] & Hf & ->). cbn.
  apply find_some in Hf as [Hin Ha]. apply Z.eqb_eq in Ha. cbn in Ha. rewrite Ht, <- Ha.
  rewrite list.Forall_forall in Hbs. apply list_elem_of_In in Hin. apply Hbs in Hin. cbn in Hin.
  by rewrite Hin.
Qed.

Lemma node_ref_in oref b : node_ref bound t bs oref = Some b -> b ∈ bs.
Proof.
  unfold node_ref. intros H. apply fmap_Some in H as ([a b'] & Hf & ->).
  apply find_some in Hf as [Hin _]. apply list_elem_of_In in Hin. cbn.
  revert Hin. generalize (t + blocks_offset). clear Hs. induction bs as [|b l IH]; intros c; cbn [layout].
  - by rewrite elem_of_nil.
  - rewrite elem_of_cons. intros [[= -> ->]|H]; [set_solver|].
    apply elem_of_cons. right. by apply (IH (IOVIRT_NEXT_BLOCK (ALIGN_MEMORY c bound) b)).
Qed.
End walk.

(** ** Identifier mapping *)

Lemma map_search_run x maps s : 0 <= x < 2 ^ 32 -> Forall is_map maps ->
  map_search x maps (length maps) s = Done (map_id x maps) s.
Proof.
  intros Hx. induction maps as [|m maps IH]; intros Hm; [done|].
  apply Forall_cons_1 in Hm as [Hm Hms]. destruct m as [ids|m]; [done|].
  destruct Hm as (H1 & H2 & H3 & H4 & H5).
  cbn [length map_search map_id map_of]. unfold ret at 1, bind.
  unfold u32 at 1. rewrite (wrap_small 32 (_ + _)) by lia.
  destruct (Z.leb_spec (input_base m) x); cbn [andb]; [|by apply IH].
  destruct (Z.leb_spec x (input_base m + id_count m)); [|by apply IH].
  unfold ret, u32. rewrite (wrap_small 32 (x - _)) by lia. by rewrite wrap_small by lia.
Qed.

Lemma map_id_range x maps y o : 0 <= x < 2 ^ 32 -> Forall is_map maps ->
  map_id x maps = Some (y, o) -> 0 <= y < 2 ^ 32.
Proof.
  intros Hx. induction maps as [|[ids|m] maps IH]; intros Hm H; [done|done|].
  apply Forall_cons_1 in Hm as [(H1 & H2 & H3 & H4 & H5) Hms]. cbn [map_id] in H.
  destruct (Z.leb_spec (input_base m) x); cbn [andb] in H; [|by apply IH].
  destruct (Z.leb_spec x (input_base m + id_count m)); [|by apply IH].
  injection H as <- <-. lia.
Qed.

Lemma map_id_ref x maps y o : map_id x maps = Some (y, o) ->
  exists m, Map m ∈ maps /\ output_ref m = o.
Proof.
  induction maps as [|[ids|m] maps IH]; cbn [map_id]; [done..|].
  destruct (_ && _).
  - intros [= <- <-]. exists m. split; [set_solver|done].
  - intros H. destruct (IH H) as (m' & Hm & Ho). exists m'. split; [set_solver|done].
Qed.

Lemma block_search_run x b s : 0 <= x < 2 ^ 32 -> typed_block b ->
  b_type b <> IOVIRT_NODE_ITS_GROUP -> block_search x b s = Done (map_id x (data_map b)) s.
Proof.
  intros Hx Ht Hi. unfold typed_block in Ht. apply Z.eqb_neq in Hi. rewrite Hi in Ht.
  destruct Ht as (Hn & Hm & _ & _). unfold block_search. rewrite <- Hn, Nat2Z.id.
  by apply map_search_run.
Qed.

(** A result of the search comes from a block of the table. *)
Lemma rc_map_from rid segment l found id oref : rc_map rid segment l found = Some (id, oref) ->
  found = Some (id, oref) \/
  exists b, b ∈ l /\ b_type b = IOVIRT_NODE_PCI_ROOT_COMPLEX /\
            map_id rid (data_map b) = Some (id, oref).
Proof.
  revert found. induction l as [|b l IH]; intros found H; [by left|].
  cbn [rc_map] in H. unfold rc_pick in H. destruct (IH _ H) as [H'|(b' & Hb & Ht & Hm)].
  - destruct (b_data b); try (by left). destruct (_ && _) eqn:E; [|by left].
    destruct (map_id rid (data_map b)) eqn:Em; [|by left]. right. exists b.
    apply andb_true_iff in E as [E _]. apply Z.eqb_eq in E.
    split; [set_solver|]. split; [done|]. by rewrite Em.
  - right. exists b'. split; [set_solver|done].
Qed.

Section info.
Context (bound t : Z) (bs : list IOVIRT_BLOCK) (s : iov) (Hs : iort bound t bs s).
Context (rid segment : Z) (Hrid : 0 <= rid < 2 ^ 32).

Lemma typed b : b ∈ bs -> typed_block b.
Proof. destruct Hs as [_ Ht _]. rewrite list.Forall_forall in Ht. auto. Qed.

Lemma rc_step_run a b found : b ∈ bs ->
  rc_step rid segment a b found s = Done (inl (rc_pick rid segment b found)) s.
Proof.
  intros Hb. pose proof (typed b Hb) as Ht. unfold rc_step, rc_pick.
  destruct (b_type b =? IOVIRT_NODE_PCI_ROOT_COMPLEX) eqn:E.
  2: { unfold ret. by destruct (b_data b). }
  apply Z.eqb_eq in E. assert (Hi : b_type b <> IOVIRT_NODE_ITS_GROUP) by (rewrite E; discriminate).
  assert (Ht' := Ht). unfold typed_block in Ht'. apply Z.eqb_neq in Hi. rewrite Hi in Ht'.
  destruct Ht' as (_ & _ & Hrc & _). destruct (Hrc E) as [r Hr]. unfold rc_of. rewrite Hr.
  apply Z.eqb_neq in Hi. unfold bind, ret. cbn [andb].
  destruct (rc_segment r =? segment); [|done]. by rewrite block_search_run.
Qed.

Lemma wfold_rc a l found :
  wfold (R := unit) (fun _ b x => inl (rc_pick rid segment b x)) (layout bound a l) found =
  inl (rc_map rid segment l found).
Proof.
  revert a found. induction l as [|b l IH]; intros a found; [done|].
  cbn [layout wfold]. by rewrite IH.
Qed.

Lemma rc_search_run : rc_search bound rid segment s = Done (rc_map rid segment bs None) s.
Proof.
  unfold rc_search, bind. rewrite (iovirt_walk_run bound t bs s (io_laid _ _ _ _ Hs) _
    (fun _ b x => inl (rc_pick rid segment b x)) None); [by rewrite wfold_rc|].
  intros a b x Hb. by apply rc_step_run.
Qed.

Lemma ref_resolves b x y o : b ∈ bs -> b_type b = IOVIRT_NODE_PCI_ROOT_COMPLEX \/ is_smmu b = true ->
  map_id x (data_map b) = Some (y, o) -> exists b', node_ref bound t bs o = Some b'.
Proof.
  intros Hb Hk Hm. destruct Hs as [_ _ Hr]. rewrite list.Forall_forall in Hr.
  pose proof (Hr b Hb Hk) as Hf. unfold refs_ok in Hf. rewrite list.Forall_forall in Hf.
  destruct (map_id_ref _ _ _ _ Hm) as (m & Hin & <-). exact (Hf _ Hin).
Qed.

Lemma first_id_run b : b ∈ bs -> b_type b = IOVIRT_NODE_ITS_GROUP ->
  first_id b s = Done (its_of b) s.
Proof.
  intros Hb Ht. pose proof (typed b Hb) as Hy. unfold typed_block in Hy. unfold its_of, first_id.
  apply Z.eqb_eq in Ht. rewrite Ht in *. destruct Hy as (i & ids & Hd).
  destruct (data_map b) as [|m l]; [done|]. cbn in Hd. injection Hd as ->. done.
Qed.
End info.

(** The look-up on a table in memory. *)
Lemma device_info_run bound t bs rid segment s :
  iort bound t bs s -> 0 <= rid < 2 ^ 32 ->
  val_iovirt_get_device_info bound rid segment s =
  Done (match iort_info bound t bs rid segment with
        | Some i => (0, Some i)
        | None => (ACS_STATUS_ERR, None)
        end) s.
Proof.
  intros Hs Hrid. unfold val_iovirt_get_device_info, gets at 1, bind at 1.
  destruct (io_laid _ _ _ _ Hs) as [Ht Hnull _ _]. rewrite Ht.
  apply Z.eqb_neq in Hnull. rewrite Hnull. unfold bind at 1.
  rewrite (rc_search_run bound t bs s Hs rid segment Hrid). unfold iort_info.
  destruct (rc_map rid segment bs None) as [[id oref]|] eqn:Erc; [|done]. cbn [mbind option_bind].
  assert (Erc' := Erc). apply rc_map_from in Erc' as [?|(b0 & Hb0 & Ht0 & Hm0)]; [done|].
  destruct (ref_resolves bound t bs s Hs b0 rid id oref Hb0 (or_introl Ht0) Hm0) as [b Hb].
  assert (Hid : 0 <= id < 2 ^ 32).
  { pose proof (typed bound t bs s Hs b0 Hb0) as Ht'. unfold typed_block in Ht'.
    rewrite Ht0 in Ht'. destruct Ht' as (_ & Hf & _).
    exact (map_id_range rid _ id oref Hrid Hf Hm0). }
  rewrite Hb. unfold bind at 1. rewrite (node_ref_run bound t bs s (io_laid _ _ _ _ Hs) _ _ Hb).
  pose proof (node_ref_in bound t bs oref b Hb) as Hin. cbn [mbind option_bind].
  destruct (Z.eqb_spec (b_type b) IOVIRT_NODE_ITS_GROUP) as [Ei|Ei].
  { unfold bind. by rewrite (first_id_run bound t bs s Hs b Hin Ei). }
  destruct (is_smmu b) eqn:Es; [|done].
  unfold bind at 1. rewrite (block_search_run id b s Hid (typed bound t bs s Hs b Hin) Ei).
  destruct (map_id id (data_map b)) as [[did oref']|] eqn:Em; cbn [mbind option_bind].
  - destruct (ref_resolves bound t bs s Hs b id did oref' Hin (or_intror Es) Em) as [b' Hb'].
    rewrite Hb'. cbn [mbind option_bind]. unfold bind at 1.
    rewrite (node_ref_run bound t bs s (io_laid _ _ _ _ Hs) _ _ Hb').
    pose proof (node_ref_in bound t bs oref' b' Hb') as Hin'.
    destruct (Z.eqb_spec (b_type b') IOVIRT_NODE_ITS_GROUP) as [Ei'|Ei'].
    + unfold bind. by rewrite (first_id_run bound t bs s Hs b' Hin' Ei').
    + unfold its_of. apply Z.eqb_neq in Ei'. by rewrite Ei'.
  - unfold bind at 1. rewrite (node_ref_run bound t bs s (io_laid _ _ _ _ Hs) _ _ Hb).
    apply Z.eqb_neq in Ei. by rewrite Ei.
Qed.

(** C15. On a table in memory the look-up of a requester returns what the table
    says: its identifiers at the ITS, with the stream identifier of the SMMU on
    the way, or the error status when no root complex or no SMMU maps it. *)
Theorem device_info_reference bound t bs rid segment s :
  iort bound t bs s -> 0 <= rid < 2 ^ 32 ->
  val_iovirt_get_device_info bound rid segment s =
  Done (match iort_info bound t bs rid segment with
        | Some i => (0, Some i)
        | None => (ACS_STATUS_ERR, None)
        end) s.
Proof. apply device_info_run. Qed.

(** ** Construction *)

Fixpoint count (p : Z -> bool) (l : list Z) : Z :=
  match l with [] => 0 | x :: l' => b2z (p x) + count p l' end.
Definition smmu_type (x : Z) : bool := (x =? IOVIRT_NODE_SMMU) || (x =? IOVIRT_NODE_SMMU_V3).

Lemma count_app p l l' : count p (l ++ l') = count p l + count p l'.
Proof. induction l as [|x l IH]; cbn [count app]; [done|]. rewrite IH. lia. Qed.
Lemma count_nonneg p l : 0 <= count p l <= Z.of_nat (length l).
Proof. induction l; cbn [count length]; [lia|]. destruct (p _); cbn [b2z]; lia. Qed.

(** The mappings a node of the description brings: inside 32 bits, and those of
    an SMMU refer to the first node. *)
Definition maps_ok (type num : Z) (pm : PLATFORM_OVERRIDE_NODE_DATA_MAP) : Prop :=
  forall j, 0 <= j < num -> exists a b c d,
    pm_input_base pm !! Z.to_nat j = Some a /\ pm_id_count pm !! Z.to_nat j = Some b /\
    pm_output_base pm !! Z.to_nat j = Some c /\ pm_output_ref pm !! Z.to_nat j = Some d /\
    map_ok (mk_map a b c d) /\ (smmu_type type = true -> d = blocks_offset).

(** A node of the description: known type, at most [IOVIRT_MAX_NUM_MAP]
    mappings; mapping [j] of a root complex refers to node [j + 1], which comes
    before it. *)
Definition node_ok (nt : PLATFORM_OVERRIDE_NODE_DATA) (i type num : Z)
    (pm : PLATFORM_OVERRIDE_NODE_DATA_MAP) : Prop :=
  (type = IOVIRT_NODE_ITS_GROUP /\ 1 <= p_its_count nt <= 4 - i) \/
  (IOVIRT_NODE_NAMED_COMPONENT <= type <= IOVIRT_NODE_PMCG /\
   0 <= num <= IOVIRT_MAX_NUM_MAP /\ maps_ok type num pm /\
   (type = IOVIRT_NODE_PCI_ROOT_COMPLEX -> num <= i)).

Record cfg_ok (cfg : PLATFORM_OVERRIDE_IOVIRT_INFO_TABLE) (nt : PLATFORM_OVERRIDE_NODE_DATA)
    : Prop := {
  ok_address : p_Address cfg <> 0;
  ok_count : p_node_count cfg = Z.of_nat (length (p_type cfg));
  ok_max : 0 < p_node_count cfg <= IORT_NODE_COUNT;
  ok_nodes : forall i type, p_type cfg !! i = Some type -> exists num pm,
    p_num_map cfg !! i = Some num /\ p_map cfg !! i = Some pm /\ node_ok nt (Z.of_nat i) type num pm;
  ok_v3 : count (Z.eqb IOVIRT_NODE_SMMU_V3) (p_type cfg) <= Z.of_nat (length (p_smmu nt));
  ok_v2 : count (Z.eqb IOVIRT_NODE_SMMU) (p_type cfg) <= Z.of_nat (length (p_smmu nt));
  ok_ctx : Forall (fun x => 0 <= context_interrupt_count x <= 1) (p_smmu nt)
}.

(** Where the blocks end. *)
Fixpoint layout_end (bound a : Z) (bs : list IOVIRT_BLOCK) : Z :=
  match bs with
  | [] => a
  | b :: bs' => layout_end bound (IOVIRT_NEXT_BLOCK (ALIGN_MEMORY a bound) b) bs'
  end.

Lemma layout_snoc bound a bs b :
  layout bound a (bs ++ [b]) =
  layout bound a bs ++ [(ALIGN_MEMORY (layout_end bound a bs) bound, b)].
Proof. revert a. induction bs as [|c bs IH]; intros a; cbn; [done|]. by rewrite IH. Qed.
Lemma layout_end_snoc bound a bs b :
  layout_end bound a (bs ++ [b]) =
  IOVIRT_NEXT_BLOCK (ALIGN_MEMORY (layout_end bound a bs) bound) b.
Proof. revert a. induction bs as [|c bs IH]; intros a; cbn; [done|]. by rewrite IH. Qed.
Lemma layout_length bound a bs : length (layout bound a bs) = length bs.
Proof. revert a. induction bs as [|c bs IH]; intros a; cbn; [done|]. by rewrite IH. Qed.

Lemma align_memory_bounds k a : 0 <= k <= 3 -> 0 <= a -> a + 8 <= 2 ^ 64 ->
  a <= ALIGN_MEMORY a (2 ^ k) <= a + 7.
Proof.
  intros Hk Ha Hb. assert (1 <= 2 ^ k <= 8).
  { split; [apply (Z.pow_le_mono_r 2 0 k)|apply (Z.pow_le_mono_r 2 k 3)]; lia. }
  unfold ALIGN_MEMORY, u64. rewrite wrap_small by lia. rewrite round_down by lia.
  pose proof (Z.mod_pos_bound (a + 2 ^ k - 1) (2 ^ k)). 
  destruct (Z.eq_dec ((a + 2 ^ k - 1) mod 2 ^ k) (2 ^ k)); lia.
Qed.

(** Blocks of at most two mappings stay inside 320 bytes each. *)
Definition small (b : IOVIRT_BLOCK) : Prop := 0 <= num_data_map b <= 2.

Lemma layout_bounds k a bs : 0 <= k <= 3 -> 0 <= a ->
  a + 320 * Z.of_nat (length bs) + 8 <= 2 ^ 64 -> Forall small bs ->
  a <= layout_end (2 ^ k) a bs <= a + 320 * Z.of_nat (length bs) /\
  Forall (fun x => a <= x.1 < layout_end (2 ^ k) a bs) (layout (2 ^ k) a bs).
Proof.
  intros Hk. revert a. induction bs as [|b bs IH]; intros a Ha Hb Hs; cbn [layout layout_end length].
  { split; [lia|constructor]. }
  apply Forall_cons_1 in Hs as [Hs Hbs]. unfold small in Hs. cbn [length] in Hb.
  pose proof (align_memory_bounds k a Hk Ha ltac:(lia)) as Hal.
  assert (Hn : IOVIRT_NEXT_BLOCK (ALIGN_MEMORY a (2 ^ k)) b =
    ALIGN_MEMORY a (2 ^ k) + 268 + num_data_map b * 16).
  { unfold IOVIRT_NEXT_BLOCK, u64, data_map_offset, sizeof_NODE_DATA_MAP. apply wrap_small. lia. }
  rewrite Hn. destruct (IH (ALIGN_MEMORY a (2 ^ k) + 268 + num_data_map b * 16)) as [He Hf];
    [lia|lia|done|].
  split; [lia|]. constructor; cbn [fst]; [lia|].
  eapply List.Forall_impl; [|exact Hf]. intros x Hx. cbn in *. lia.
Qed.

Section create.
Context (k t : Z) (cfg : PLATFORM_OVERRIDE_IOVIRT_INFO_TABLE) (nt : PLATFORM_OVERRIDE_NODE_DATA).
Context (Hk : 0 <= k <= 3) (Ht : 0 < t) (Htop : t + 2048 <= 2 ^ 64) (Hc : cfg_ok cfg nt).
Abbreviation a0 := (t + blocks_offset).

(** The entries of [node] for the blocks that are done. *)
Definition offsets (bs : list IOVIRT_BLOCK) : list (option Z) :=
  (fun y => Some (y.1 - t)) <$> layout (2 ^ k) a0 bs.

(** References of the finished part of the table. *)
Definition refers (bs : list IOVIRT_BLOCK) (o : Z) : Prop :=
  exists x, x ∈ layout (2 ^ k) a0 bs /\ o = x.1 - t.
Definition refers_all (bs : list IOVIRT_BLOCK) (b : IOVIRT_BLOCK) : Prop :=
  b_type b = IOVIRT_NODE_PCI_ROOT_COMPLEX \/ is_smmu b = true ->
  Forall (fun m => match m with Map m => refers bs (output_ref m) | Ids _ => True end) (data_map b).

(** The state between two turns of the loop over the nodes. *)
Record building (i : Z) (x : create_locals) (s : iov) (bs : list IOVIRT_BLOCK) : Prop := {
  bu_len : Z.of_nat (length bs) = i;
  bu_table : g_iovirt_info_table s = t;
  bu_count : num_blocks (io_table s) = i;
  bu_smmus : num_smmus (io_table s) = count smmu_type (take (length bs) (p_type cfg));
  bu_blocks : Forall (fun y => io_blocks s !! y.1 = Some y.2) (layout (2 ^ k) a0 bs);
  bu_end : cl_block x = layout_end (2 ^ k) a0 bs;
  bu_node : cl_node x = offsets bs ++
                        replicate (Z.to_nat (IORT_NODE_COUNT - i)) None;
  bu_types : b_type <$> bs = take (length bs) (p_type cfg);
  bu_typed : Forall typed_block bs;
  bu_small : Forall small bs;
  bu_refs : Forall (refers_all bs) bs;
  bu_m : cl_m x = count (Z.eqb IOVIRT_NODE_SMMU) (take (length bs) (p_type cfg));
  bu_k : cl_k x = count (Z.eqb IOVIRT_NODE_SMMU_V3) (take (length bs) (p_type cfg));
  bu_z : 0 <= cl_z x <= i
}.

Lemma count_step p i type : p_type cfg !! i = Some type ->
  count p (take (S i) (p_type cfg)) = count p (take i (p_type cfg)) + b2z (p type).
Proof.
  intros H. rewrite (list.take_S_r _ _ _ H), count_app. cbn [count]. lia.
Qed.
Lemma count_below p i type : p_type cfg !! i = Some type -> p type = true ->
  count p (take i (p_type cfg)) < count p (p_type cfg).
Proof.
  intros H Hp. rewrite <- (take_drop_middle _ _ _ H) at 2. rewrite count_app. cbn [count].
  rewrite Hp. pose proof (count_nonneg p (drop (S i) (p_type cfg))). cbn [b2z]. lia.
Qed.

(** The mappings of a node, when the references it takes are there. *)
Lemma create_maps_run type z pm node n s :
  (forall j, 0 <= j < n -> exists a b c d,
    pm_input_base pm !! Z.to_nat j = Some a /\ pm_id_count pm !! Z.to_nat j = Some b /\
    pm_output_base pm !! Z.to_nat j = Some c /\ pm_output_ref pm !! Z.to_nat j = Some d /\
    map_ok (mk_map a b c d) /\ (smmu_type type = true -> d = blocks_offset)) ->
  (type = IOVIRT_NODE_SMMU_V3 -> exists r, node !! Z.to_nat z = Some (Some r)) ->
  (type = IOVIRT_NODE_PCI_ROOT_COMPLEX -> forall j, 0 <= j < n ->
     exists r, node !! Z.to_nat (j + 1) = Some (Some r)) ->
  forall l j, j + Z.of_nat l = n -> 0 <= j ->
  exists maps, create_maps type j z pm node l s = Done maps s /\ length maps = l /\
    Forall is_map maps /\
    (type = IOVIRT_NODE_PCI_ROOT_COMPLEX -> Forall (fun m => match m with
       | Map m => exists i, 0 <= i < n /\ node !! Z.to_nat (i + 1) = Some (Some (output_ref m))
       | Ids _ => True end) maps) /\
    (smmu_type type = true -> Forall (fun m => match m with
       | Map m => output_ref m = blocks_offset | Ids _ => True end) maps).
Proof.
  intros Hpm Hv3 Hrc. induction l as [|l IH]; intros j Hj Hj0.
  { exists []. by repeat split; try constructor. }
  destruct (Hpm j ltac:(lia)) as (a & b & c & d & Ha & Hb & Hcc & Hd & Hok & Hs).
  destruct (IH (j + 1) ltac:(lia) ltac:(lia)) as (maps & Hrun & Hlen & Hm & Hr & Hsm).
  assert (exists r, create_ref type j z d node s = Done r s /\
    (type = IOVIRT_NODE_PCI_ROOT_COMPLEX -> node !! Z.to_nat (j + 1) = Some (Some r)) /\
    (smmu_type type = true -> r = blocks_offset)) as (r & Href & Hr1 & Hr2).
  { unfold create_ref, smmu_type in *. destruct (Z.eqb_spec type IOVIRT_NODE_SMMU_V3) as [->|Hn].
    - destruct (Hv3 eq_refl) as [r Hz]. exists d. unfold bind, use. rewrite Hz. cbn.
      split; [done|]. split; [done|]. by intros _; apply Hs.
    - destruct (Z.eqb_spec type IOVIRT_NODE_PCI_ROOT_COMPLEX) as [->|Hn'].
      + destruct (Hrc eq_refl j ltac:(lia)) as [r Hz]. exists r. unfold bind, use, NUM_ITS_COUNT.
        rewrite Hz. cbn. done.
      + exists d. split; [done|]. split; [done|]. exact Hs. }
  exists (Map (mk_map a b c r) :: maps).
  cbn [create_maps]. unfold bind, use. rewrite Ha, Hb, Hcc, Hd. unfold ret. rewrite Href, Hrun.
  split; [done|]. split; [cbn; lia|]. split; [by constructor|].
  split; intros E; constructor; auto. exists j. split; [lia|]. cbn. auto.
Qed.

Ltac fin := repeat split; intros; cbn in *; subst; try done; try lia; eauto.

(** The [switch] for a known type. *)
Lemma create_data_run i type num pm x s : p_type cfg !! i = Some type ->
  node_ok nt (Z.of_nat i) type num pm ->
  cl_m x = count (Z.eqb IOVIRT_NODE_SMMU) (take i (p_type cfg)) ->
  cl_k x = count (Z.eqb IOVIRT_NODE_SMMU_V3) (take i (p_type cfg)) ->
  exists num' data fl ids cnt,
    create_data nt (Z.of_nat i) type num x s =
      Done (Some (num', data, fl, ids, cnt,
                  (cl_m x + b2z (IOVIRT_NODE_SMMU =? type),
                   cl_k x + b2z (IOVIRT_NODE_SMMU_V3 =? type)))) s /\
    0 <= num' <= 2 /\
    (type <> IOVIRT_NODE_ITS_GROUP -> num' = num) /\
    (type = IOVIRT_NODE_ITS_GROUP -> exists y l, ids = [Ids (y :: l)]) /\
    (type = IOVIRT_NODE_PCI_ROOT_COMPLEX -> exists r, data = DataRc r) /\
    (smmu_type type = true -> exists r, data = DataSmmu r) /\
    (forall h, num_blocks (cnt h) = num_blocks h /\
       (0 <= num_smmus h < 8 -> num_smmus (cnt h) = num_smmus h + b2z (smmu_type type))).
Proof.
  intros Hi Hn Hm Hk'. destruct Hc as [_ _ Hmax _ Hv3 Hv2 Hctx].
  unfold create_data, smmu_type.
  destruct Hn as [[-> Hits]|(Hty & Hnum & Hmaps & Hrc)].
  { cbn [Z.eqb]. unfold bind, require. replace (Z.of_nat i + p_its_count nt <=? 4) with true by lia.
    cbn. unfold ret. assert (exists l, take (Z.to_nat (p_its_count nt)) (drop (Z.to_nat (Z.of_nat i)) [0; 1; 2; 3])
      = Z.of_nat i :: l) as [l Hl].
    { rewrite Nat2Z.id. destruct (Z.to_nat (p_its_count nt)) as [|n] eqn:E; [lia|].
      assert (i < 4)%nat as Hi4 by lia.
      destruct i as [|[|[|[|i]]]]; cbn; [eauto..|lia]. }
    rewrite Hl. do 5 eexists. rewrite !Z.add_0_r. split; [reflexivity|].
    assert (0 <= u32 (p_its_count nt + 3) / 4 <= 2).
    { unfold u32. rewrite wrap_small by lia. split; [apply Z.div_pos; lia|].
      apply Z.div_le_upper_bound; lia. }
    split; [done|]. split; [done|]. split; [by eauto|]. split; [done|]. split; [done|].
    intros h. cbn. split; [done|]. lia. }
  assert (Hsm : forall n ty, n = count (Z.eqb ty) (take i (p_type cfg)) ->
      count (Z.eqb ty) (p_type cfg) <= Z.of_nat (length (p_smmu nt)) -> type = ty ->
      exists y, p_smmu nt !! Z.to_nat n = Some y).
  { intros n ty -> Hle ->. apply lookup_lt_is_Some.
    pose proof (count_below (Z.eqb ty) i ty Hi (Z.eqb_refl _)).
    pose proof (count_nonneg (Z.eqb ty) (take i (p_type cfg))). lia. }
  unfold IOVIRT_NODE_NAMED_COMPONENT, IOVIRT_NODE_PMCG in Hty.
  assert (type = 1 \/ type = 2 \/ type = 3 \/ type = 4 \/ type = 5) as Hcases by lia.
  unfold IOVIRT_MAX_NUM_MAP in Hnum.
  assert (Hu : forall h n, 0 <= num_smmus h < 8 -> n = u32 (num_smmus h + 1) -> n = num_smmus h + 1).
  { intros h n Hh ->. unfold u32. apply wrap_small. lia. }
  destruct Hcases as [->|[->|[->|[->| ->]]]]; cbn [Z.eqb]; cbn -[u32 u8 smmu_ctx_int_distinct].
  - do 5 eexists. rewrite !Z.add_0_r. split; [reflexivity|]. fin.
  - do 5 eexists. rewrite !Z.add_0_r. split; [reflexivity|]. fin.
  - destruct (Hsm (cl_m x) _ Hm Hv2 eq_refl) as [y Hy]. unfold bind, use. rewrite Hy. unfold ret.
    rewrite list.Forall_forall in Hctx.
    assert (exists d, smmu_ctx_int_distinct [context_interrupt_offset y]
      (u8 (context_interrupt_count y)) s = Done d s) as [d Hd].
    { unfold smmu_ctx_int_distinct, u8.
      assert (0 <= context_interrupt_count y <= 1) by (apply Hctx; by eapply list_elem_of_lookup_2).
      rewrite wrap_small by lia.
      replace (Z.to_nat (context_interrupt_count y - 1)) with 0%nat by lia. by eexists. }
    rewrite Hd. do 5 eexists. rewrite !Z.add_0_r. split; [reflexivity|].
    fin.
  - destruct (Hsm (cl_k x) _ Hk' Hv3 eq_refl) as [y Hy]. unfold bind, use. rewrite Hy. unfold ret.
    do 5 eexists. rewrite !Z.add_0_r. split; [reflexivity|]. fin.
  - do 5 eexists. rewrite !Z.add_0_r. split; [reflexivity|]. fin.
Qed.

Context (Hal : t mod 8 = 0).

Lemma first_block b bs : exists bs', layout (2 ^ k) a0 (b :: bs) = (a0, b) :: bs'.
Proof.
  eexists. cbn [layout]. f_equal. f_equal. unfold ALIGN_MEMORY, u64, blocks_offset.
  assert (1 <= 2 ^ k <= 8).
  { split; [apply (Z.pow_le_mono_r 2 0 k)|apply (Z.pow_le_mono_r 2 k 3)]; lia. }
  rewrite wrap_small by lia. rewrite round_down by lia.
  assert ((t + 24) mod 2 ^ k = 0) as Hz.
  { assert ((8 | t)) as [q ->] by (apply Z.mod_divide; lia).
    assert (k = 0 \/ k = 1 \/ k = 2 \/ k = 3) as [->|[->|[->| ->]]] by lia; cbn; try apply Z.mod_1_r;
      apply Z.mod_divide; try lia.
    - exists (4 * q + 12). lia.
    - exists (2 * q + 6). lia.
    - exists (q + 3). lia. }
  replace (t + 24 + 2 ^ k - 1) with ((t + 24) + (2 ^ k - 1)) by lia.
  rewrite Z.add_mod, Hz, Z.add_0_l, Z.mod_mod by lia.
  rewrite Z.mod_small by lia. lia.
Qed.

Lemma refers_snoc bs b o : refers bs o -> refers (bs ++ [b]) o.
Proof. intros (x & Hx & ->). exists x. split; [|done]. rewrite layout_snoc. set_solver. Qed.
Lemma refers_all_snoc bs b c : refers_all bs c -> refers_all (bs ++ [b]) c.
Proof.
  intros H Hc'. specialize (H Hc'). eapply List.Forall_impl; [|exact H].
  intros [ids|m]; [done|]. apply refers_snoc.
Qed.
Lemma refers_first bs b : refers (bs ++ [b]) blocks_offset.
Proof.
  destruct bs as [|c bs]; [destruct (first_block b []) as [l Hl]|destruct (first_block c (bs ++ [b])) as [l Hl]].
  all: eexists; split; [cbn [app]; rewrite Hl; apply list_elem_of_here|]; cbn; lia.
Qed.

(** The entries of the array of node offsets. *)
Lemma node_snoc bs b i : Z.of_nat (length bs) = i -> i < IORT_NODE_COUNT ->
  <[Z.to_nat i := Some (ALIGN_MEMORY (layout_end (2 ^ k) a0 bs) (2 ^ k) - t)]>
    (offsets bs ++
     replicate (Z.to_nat (IORT_NODE_COUNT - i)) None) =
  offsets (bs ++ [b]) ++
    replicate (Z.to_nat (IORT_NODE_COUNT - (i + 1))) None.
Proof.
  intros Hi Hlt. replace (Z.to_nat i) with
    (length (offsets bs) + 0)%nat
    by (unfold offsets; rewrite length_fmap, layout_length; lia).
  rewrite insert_app_r. unfold offsets. rewrite layout_snoc, fmap_app, <- app_assoc. f_equal.
  replace (Z.to_nat (IORT_NODE_COUNT - i)) with (S (Z.to_nat (IORT_NODE_COUNT - (i + 1))))
    by (unfold IORT_NODE_COUNT in *; lia).
  done.
Qed.
Lemma node_refers bs n j o :
  (offsets bs ++ replicate n None) !! j = Some (Some o) ->
  refers bs o.
Proof.
  intros [H|[_ H]]%lookup_app_Some.
  - unfold offsets in H. rewrite list_lookup_fmap in H. apply fmap_Some in H as (y & Hy & [= ->]).
    exists y. split; [by eapply list_elem_of_lookup_2|done].
  - apply lookup_replicate in H as [? _]. done.
Qed.
Lemma node_set bs n j : (j < length bs)%nat -> exists o,
  (offsets bs ++ replicate n None) !! j = Some (Some o).
Proof.
  intros H. destruct (lookup_lt_is_Some_2 (layout (2 ^ k) a0 bs) j) as [y Hy].
  { by rewrite layout_length. }
  exists (y.1 - t). apply lookup_app_Some. left. unfold offsets. by rewrite list_lookup_fmap, Hy.
Qed.

(** The mappings a turn builds for its block. *)
Lemma step_maps i type num pm bs b x num' ids s : Z.of_nat (length bs) = i -> i < IORT_NODE_COUNT ->
  node_ok nt i type num pm -> 0 <= cl_z x <= i ->
  (type <> IOVIRT_NODE_ITS_GROUP -> num' = num) ->
  (type = IOVIRT_NODE_ITS_GROUP -> exists y l, ids = [Ids (y :: l)]) ->
  p_map cfg !! Z.to_nat i = Some pm ->
  let node := offsets (bs ++ [b]) ++ replicate (Z.to_nat (IORT_NODE_COUNT - (i + 1))) None in
  exists maps,
    (if type =? IOVIRT_NODE_ITS_GROUP then ret ids
     else let! pm := use (p_map cfg !! Z.to_nat i) in
          create_maps type 0 (cl_z x) pm node (Z.to_nat num')) s = Done maps s /\
    (type = IOVIRT_NODE_ITS_GROUP -> exists y l, maps = [Ids (y :: l)]) /\
    (type <> IOVIRT_NODE_ITS_GROUP ->
       Z.of_nat (length maps) = num' /\ Forall is_map maps) /\
    (type = IOVIRT_NODE_PCI_ROOT_COMPLEX \/ smmu_type type = true ->
       Forall (fun m => match m with Map m => refers (bs ++ [b]) (output_ref m) | Ids _ => True end) maps).
Proof.
  intros Hi Hlt Hn Hz Hnum Hids Hpm node.
  destruct (Z.eqb_spec type IOVIRT_NODE_ITS_GROUP) as [E|E].
  { destruct (Hids E) as (y & l & ->). exists [Ids (y :: l)]. split; [done|].
    split; [by eauto|]. split; [done|]. intros _. by repeat constructor. }
  destruct Hn as [[? _]|(Hty & Hr & Hmaps & Hrc)]; [done|]. rewrite (Hnum E).
  destruct (create_maps_run type (cl_z x) pm node num s Hmaps) with (l := Z.to_nat num) (j := 0)
    as (maps & Hrun & Hlen & Hm & Href & Hsm); [| |lia|lia|].
  - intros _. apply node_set. rewrite length_app. cbn. lia.
  - intros Et j Hj. apply node_set. specialize (Hrc Et). rewrite length_app. cbn. lia.
  - exists maps. rewrite Hpm. unfold use, bind, ret. rewrite Hrun. split; [done|].
    split; [done|]. split; [split; [lia|done]|]. intros [Et|Et].
    + eapply List.Forall_impl; [|exact (Href Et)]. intros [l|m]; [done|].
      intros (j & Hj & Hl). by eapply node_refers.
    + eapply List.Forall_impl; [|exact (Hsm Et)]. intros [l|m]; [done|]. intros ->.
      apply refers_first.
Qed.

(** What a turn adds keeps the shape of the table. *)
Lemma refers_any bs b c o : refers (bs ++ [b]) o -> refers (bs ++ [c]) o.
Proof.
  intros (x & Hx & ->). rewrite layout_snoc in Hx. apply elem_of_app in Hx as [Hx|Hx].
  - exists x. split; [|done]. rewrite layout_snoc. set_solver.
  - apply list_elem_of_singleton in Hx as ->.
    exists (ALIGN_MEMORY (layout_end (2 ^ k) a0 bs) (2 ^ k), c). split; [|done].
    rewrite layout_snoc. set_solver.
Qed.
Lemma grown i x s bs b cnt z : building i x s bs -> i < IORT_NODE_COUNT ->
  p_type cfg !! length bs = Some (b_type b) -> typed_block b -> small b ->
  refers_all (bs ++ [b]) b ->
  (forall h, num_blocks (cnt h) = num_blocks h /\
     (0 <= num_smmus h < 8 -> num_smmus (cnt h) = num_smmus h + b2z (smmu_type (b_type b)))) ->
  0 <= z <= i + 1 ->
  let a := ALIGN_MEMORY (layout_end (2 ^ k) a0 bs) (2 ^ k) in
  building (i + 1)
    (mk_cl (IOVIRT_NEXT_BLOCK a b) (cl_m x + b2z (IOVIRT_NODE_SMMU =? b_type b))
       (cl_k x + b2z (IOVIRT_NODE_SMMU_V3 =? b_type b)) z
       (offsets (bs ++ [b]) ++ replicate (Z.to_nat (IORT_NODE_COUNT - (i + 1))) None))
    (set_header (fun h => mk_iovirt_table (u32 (num_blocks h + 1)) (num_smmus h)
        (num_pci_rcs h) (num_named_components h) (num_its_groups h) (num_pmcgs h))
      (set_blocks (insert a b) (set_header cnt s))) (bs ++ [b]).
Proof.
  intros B Hlt Hty Htyped Hsmall Href Hcnt Hz a. destruct B. unfold IORT_NODE_COUNT in Hlt.
  destruct (Hcnt (io_table s)) as [Hcb Hcs]. rewrite bu_smmus0 in Hcs.
  destruct (layout_bounds k a0 bs Hk) as [_ Haddr];
    [unfold blocks_offset; lia|unfold blocks_offset; lia|done|].
  assert (layout_end (2 ^ k) a0 bs <= a).
  { apply align_memory_bounds; [done|..].
    all: destruct (layout_bounds k a0 bs Hk); unfold blocks_offset in *; try done; lia. }
  assert (Hlen : length (bs ++ [b]) = S (length bs)) by (rewrite length_app; cbn; lia).
  pose proof (count_nonneg smmu_type (take (length bs) (p_type cfg))) as Hcn.
  pose proof (firstn_le_length (length bs) (p_type cfg)).
  rewrite length_take in Hcn.
  constructor; rewrite ?Hlen, ?(count_step _ _ _ Hty); cbn; try done; try lia.
  - rewrite Hcb, bu_count0. unfold u32. apply wrap_small. lia.
  - rewrite layout_snoc. apply Forall_app. split.
    + rewrite list.Forall_forall in bu_blocks0, Haddr |- *. intros y Hy.
      rewrite lookup_insert_ne; [by apply bu_blocks0|]. pose proof (Haddr y Hy). lia.
    + constructor; [|constructor]. cbn. by rewrite lookup_insert_eq.
  - by rewrite layout_end_snoc.
  - rewrite fmap_app, bu_types0. by rewrite (take_S_r _ _ _ Hty).
  - apply Forall_app. split; [done|]. by constructor.
  - apply Forall_app. split; [done|]. by constructor.
  - apply Forall_app. split; [|by constructor].
    eapply List.Forall_impl; [|exact bu_refs0]. intros c. apply refers_all_snoc.
Qed.

Lemma create_step_ok i x s bs : building i x s bs -> i < p_node_count cfg ->
  wp (create_step (2 ^ k) cfg nt i x)
    (fun r s' => match r with
                 | inl x' => exists b, building (i + 1) x' s' (bs ++ [b])
                 | inr _ => False
                 end) s.
Proof.
  intros B Hlt. destruct (ok_max _ _ Hc) as [Hpos Hmax]. destruct B.
  assert (Hi : Z.to_nat i = length bs) by lia.
  destruct (lookup_lt_is_Some_2 (p_type cfg) (length bs)) as [type Hty].
  { pose proof (ok_count _ _ Hc). lia. }
  destruct (ok_nodes _ _ Hc _ _ Hty) as (num & pm & Hnum & Hpm & Hnode).
  destruct (create_data_run (length bs) type num pm x s Hty Hnode bu_m0 bu_k0)
    as (num' & data & fl & ids & cnt & Hrun & Hnr & Hnn & Hids & Hrc & Hsm & Hcnt).
  assert (Hil : i = Z.of_nat (length bs)) by lia. rewrite <- Hil in Hrun, Hnode.
  set (a := ALIGN_MEMORY (layout_end (2 ^ k) a0 bs) (2 ^ k)).
  destruct (layout_bounds k a0 bs Hk) as [Hend Haddr];
    [unfold blocks_offset; lia|unfold blocks_offset, IORT_NODE_COUNT in *; lia|done|].
  unfold IORT_NODE_COUNT in Hmax.
  assert (Ha : layout_end (2 ^ k) a0 bs <= a <= layout_end (2 ^ k) a0 bs + 7).
  { apply align_memory_bounds; [done|unfold blocks_offset in *; lia..]. }
  unfold create_step. apply wp_bind, wp_gets. rewrite bu_table0, bu_end0. fold a.
  apply wp_bind. rewrite Hi, Hty. apply wp_ret.
  apply wp_bind. rewrite Hnum. apply wp_ret.
  apply wp_bind. eapply wp_intro; [exact Hrun|]. cbn beta iota.
  apply wp_bind, wp_modify. apply wp_bind, wp_require.
  { rewrite bu_node0, length_app, length_replicate. unfold offsets.
    rewrite length_fmap, layout_length. apply Nat.ltb_lt. unfold IORT_NODE_COUNT. lia. }
  assert (Hnode' : <[length bs := Some (u32 (a - t))]> (cl_node x) =
    offsets (bs ++ [mk_block 0 0 DataNone 0 []]) ++ replicate (Z.to_nat (IORT_NODE_COUNT - (i + 1))) None).
  { rewrite <- (node_snoc bs _ i) by (unfold IORT_NODE_COUNT; lia). rewrite bu_node0, Hi.
    do 2 f_equal. unfold u32. apply wrap_small. unfold blocks_offset in *. lia. }
  rewrite Hnode'.
  destruct (step_maps i type num pm bs (mk_block 0 0 DataNone 0 []) x num' ids
    (set_header cnt s)) as (maps & Hmaps & Hm1 & Hm2 & Hm3);
    [lia|unfold IORT_NODE_COUNT; lia|done|lia|done|done|by rewrite Hi|].
  apply wp_bind. rewrite Hi in Hmaps. eapply wp_intro; [exact Hmaps|]. cbn beta.
  apply wp_bind, wp_modify. apply wp_bind, wp_modify. apply wp_ret.
  set (b := mk_block type num' data fl maps). exists b.
  replace (offsets (bs ++ [mk_block 0 0 DataNone 0 []])) with (offsets (bs ++ [b]))
    by (unfold offsets; rewrite !layout_snoc, !fmap_app; done).
  apply grown; [by constructor|unfold IORT_NODE_COUNT; lia|done| |done| |done|].
  - unfold typed_block. cbn. destruct (Z.eqb_spec type IOVIRT_NODE_ITS_GROUP) as [E|E].
    + destruct (Hm1 E) as (y & l & ->). by exists y, l.
    + destruct (Hm2 E). done.
  - intros Hr. eapply List.Forall_impl; [|apply Hm3, Hr]. intros [l|m]; [done|]. apply refers_any.
  - destruct (type =? IOVIRT_NODE_ITS_GROUP); lia.
Qed.

Lemma refers_node bs o : Forall small bs -> Z.of_nat (length bs) <= IORT_NODE_COUNT ->
  refers bs o -> is_Some (node_ref (2 ^ k) t bs o).
Proof.
  intros Hs Hl (x & Hx & ->). unfold node_ref, IORT_NODE_COUNT in *.
  destruct (layout_bounds k a0 bs Hk) as [_ Haddr];
    [unfold blocks_offset; lia|unfold blocks_offset; lia|done|].
  destruct (layout_bounds k a0 bs Hk) as [Hend _];
    [unfold blocks_offset; lia|unfold blocks_offset; lia|done|].
  rewrite list.Forall_forall in Haddr. pose proof (Haddr x Hx) as Hxa. unfold blocks_offset in *.
  replace (t + (x.1 - t)) with x.1 by lia. unfold u64. rewrite wrap_small by lia.
  destruct (find _ _) as [y|] eqn:E; [by eexists|].
  apply list_elem_of_In in Hx. pose proof (find_none _ _ E _ Hx) as Hn. cbn in Hn. lia.
Qed.

(** C28. The table built from a sound description is a well-typed one: block by
    block the types of the description, every block with the data of its type,
    every reference of a root complex or an SMMU to a block of the table; and
    the number of SMMUs is theirs. *)
Theorem created_table_typed s :
  wp (val_iovirt_create_info_table (2 ^ k) cfg nt t)
    (fun _ s' => exists bs, iort (2 ^ k) t bs s' /\ b_type <$> bs = p_type cfg /\
                            g_num_smmus s' = count smmu_type (p_type cfg)) s.
Proof.
  destruct (ok_max _ _ Hc) as [Hpos Hmax]. pose proof (ok_count _ _ Hc) as Hn.
  unfold val_iovirt_create_info_table. replace (t =? 0) with false by lia.
  apply wp_bind, wp_modify. apply wp_bind. unfold pal_iovirt_create_info_table.
  apply wp_bind, wp_gets. cbn. replace (t =? 0) with false by lia.
  apply wp_bind, wp_modify. destruct (Z.eqb_spec (p_Address cfg) 0) as [E|_]; [by destruct (ok_address _ _ Hc)|].
  apply wp_bind. eapply wp_mono; [|apply (wp_for_acc
    (fun i x s' => exists bs, building i x s' bs) (fun _ _ => False))].
  2: { intros i x s1 Hi [bs Hb]. eapply wp_mono; [|apply (create_step_ok i x s1 bs Hb); lia].
       intros [x'|[]] s2 H; [|done]. destruct H as [b Hb']. by exists (bs ++ [b]). }
  2: { exists []. by constructor. }
  intros [x|[]] s1 H; [|done]. destruct H as [bs B]. apply wp_ret.
  apply wp_bind. unfold val_iovirt_get_smmu_info. apply wp_bind, wp_gets.
  destruct B. rewrite bu_table0. replace (t =? 0) with false by lia.
  apply wp_bind, wp_gets. apply wp_ret, wp_modify. exists bs.
  assert (Hlen : length bs = length (p_type cfg)) by lia.
  rewrite Hlen, firstn_all in bu_types0, bu_smmus0.
  split; [|split; [done|]].
  - split; [split; cbn; try done; lia|done|].
    rewrite list.Forall_forall in bu_refs0 |- *. intros b Hb Hkind.
    eapply List.Forall_impl; [|exact (bu_refs0 b Hb Hkind)]. intros [l|m]; [done|].
    apply refers_node; [done|]. lia.
  - cbn. rewrite bu_smmus0. unfold u32. apply wrap_small.
    pose proof (count_nonneg smmu_type (p_type cfg)). unfold IORT_NODE_COUNT in Hmax. lia.
Qed.
End create.

(** ** The configuration of the FVP *)

Lemma fvp_ok : cfg_ok fvp_iovirt_cfg fvp_node_type.
Proof.
  split; try done; try (cbn; lia).
  - intros i type Hi. destruct i as [|[|[|i]]]; cbn in Hi; [injection Hi as <-..|done].
    all: do 2 eexists; split; [reflexivity|]; split; [reflexivity|].
    + left. cbn. lia.
    + right. split; [done|]. split; [done|]. split; [|done].
      intros j Hj. replace j with 0 by lia. do 4 eexists. by repeat (split; [reflexivity|]).
    + right. split; [done|]. split; [done|]. split; [|done].
      intros j Hj. replace j with 0 by lia. do 4 eexists. by repeat (split; [reflexivity|]).
  - repeat constructor; cbn; lia.
Qed.

Definition iov_empty : iov := mk_iov ∅ (mk_iovirt_table 0 0 0 0 0 0) 0 0.
Lemma created_table_typed_witness :
  wp (val_iovirt_create_info_table 8 fvp_iovirt_cfg fvp_node_type 0x8C200000)
    (fun _ s' => exists bs, iort 8 0x8C200000 bs s' /\ b_type <$> bs = [0; 4; 2] /\
                            g_num_smmus s' = 1) iov_empty.
Proof.
  exact (created_table_typed 3 0x8C200000 fvp_iovirt_cfg fvp_node_type ltac:(lia) ltac:(lia)
           ltac:(lia) fvp_ok eq_refl iov_empty).
Defined.

(** The table of the FVP, as the platform builds it at 0x8C200000. *)
Definition fvp_blocks : list IOVIRT_BLOCK :=
  [mk_block 0 1 (DataIts 1) 0 [Ids [0]];
   mk_block 4 1 (DataSmmu (mk_smmu_info 3 IOVIRT_SMMUV3_0_BASE_ADDRESS)) 0
     [Map (mk_map 0 0xFFFF 0 0x18)];
   mk_block 2 1 (DataRc (mk_rc 0 1 0)) 0 [Map (mk_map 0 0xFFFF 0 0x138)]].
Definition fvp_table : iov :=
  match val_iovirt_create_info_table 8 fvp_iovirt_cfg fvp_node_type 0x8C200000 iov_empty with
  | Done _ s => s
  | _ => iov_empty
  end.
Lemma fvp_iort : iort 8 0x8C200000 fvp_blocks fvp_table.
Proof.
  split; [split; [vm_compute; reflexivity|done|vm_compute; reflexivity|]| |].
  - repeat (constructor; [vm_compute; reflexivity|]). constructor.
  - constructor; [by exists 0, []|]. repeat apply List.Forall_cons; [..|constructor].
    all: split; [done|]; split; [by repeat constructor|]; split; by eauto.
  - repeat apply List.Forall_cons; [..|constructor]; intros _; (constructor; [|constructor]).
    all: first [exact I | eexists; vm_compute; reflexivity].
Qed.

Lemma device_info_reference_witness :
  val_iovirt_get_device_info 8 0x105 0 fvp_table = Done (0, Some (mk_device_info 0x105 0x105 0)) fvp_table.
Proof.
  refine (eq_trans (device_info_reference 8 0x8C200000 fvp_blocks 0x105 0 fvp_table fvp_iort _) _).
  - lia.
  - reflexivity.
Defined.

(** The blocks end 12 bytes behind the memory RmeAcsMain.c allocates for them:
    it counts the mappings of one node only. *)
Lemma fvp_table_overruns :
  layout_end 8 (0x8C200000 + blocks_offset) fvp_blocks = 0x8C200000 + iovirt_table_alloc + 12.
Proof. reflexivity. Qed.

(** ** SMMU blocks *)

Definition smmu_field (type : SMMU_INFO_e) (x : Z * IOVIRT_BLOCK) : Z :=
  match type, b_data x.2 with
  | SMMU_CTRL_ARCH_MAJOR_REV, DataSmmu m => arch_major_rev m
  | SMMU_CTRL_BASE, DataSmmu m => smmu_info_base m
  | SMMU_IOVIRT_BLOCK, _ => x.1
  | _, _ => 0
  end.
Definition smmu_blocks (bound t : Z) (bs : list IOVIRT_BLOCK) : list (Z * IOVIRT_BLOCK) :=
  List.filter (fun x => is_smmu x.2) (layout bound (t + blocks_offset) bs).

Lemma wfold_smmu type index l j : 0 <= j -> j + Z.of_nat (length l) < 2 ^ 32 -> j <= index ->
  wfold (fun a b j => if is_smmu b then
           if j =? index then inr (smmu_field type (a, b)) else inl (u32 (j + 1)) else inl j) l j =
  match List.filter (fun x => is_smmu x.2) l !! Z.to_nat (index - j) with
  | Some x => inr (smmu_field type x)
  | None => inl (j + Z.of_nat (length (List.filter (fun x => is_smmu x.2) l)))
  end.
Proof.
  revert j. induction l as [|[a b] l IH]; intros j Hj Hl Hi; cbn [wfold List.filter length snd].
  { rewrite lookup_nil. f_equal. cbn. lia. }
  cbn [length] in Hl. destruct (is_smmu b); [|by rewrite IH by lia].
  destruct (Z.eqb_spec j index) as [->|E].
  { by rewrite Z.sub_diag. }
  unfold u32. rewrite wrap_small by lia. rewrite IH by lia.
  replace (Z.to_nat (index - j)) with (S (Z.to_nat (index - (j + 1)))) by lia. cbn [lookup list_lookup length].
  destruct (_ !! _); [done|]. f_equal. lia.
Qed.

(** The information about SMMU [index] is that of the [index]-th SMMU block
    of the table, and 0 when there is none. *)
Theorem smmu_info_nth bound t bs type index s :
  iort bound t bs s -> Z.of_nat (length bs) < 2 ^ 31 -> 0 <= index < 2 ^ 32 ->
  type <> SMMU_NUM_CTRL ->
  val_iovirt_get_smmu_info bound type index s =
  Done (match smmu_blocks bound t bs !! Z.to_nat index with
        | Some x => smmu_field type x
        | None => 0
        end) s.
Proof.
  intros Hs Hlen Hidx Hty. unfold val_iovirt_get_smmu_info, gets at 1, bind at 1.
  destruct (io_laid _ _ _ _ Hs) as [Ht Hnull _ _]. rewrite Ht.
  apply Z.eqb_neq in Hnull. rewrite Hnull.
  assert (Hw : walk bound (smmu_info_step type index) 0 s =
    Done (wfold (fun a b j => if is_smmu b then
           if j =? index then inr (smmu_field type (a, b)) else inl (u32 (j + 1)) else inl j)
           (layout bound (t + blocks_offset) bs) 0) s).
  { apply (iovirt_walk_run bound t bs s (io_laid _ _ _ _ Hs)). intros a b j Hb.
    pose proof (typed bound t bs s Hs b Hb) as Htb. unfold smmu_info_step.
    destruct (is_smmu b) eqn:Es; [|done].
    destruct (j =? index); [|done]. unfold typed_block in Htb.
    destruct (b_type b =? IOVIRT_NODE_ITS_GROUP) eqn:Ei.
    { exfalso. unfold is_smmu in Es. apply Z.eqb_eq in Ei. by rewrite Ei in Es. }
    destruct Htb as (_ & _ & _ & Hd). destruct (Hd Es) as [m Hm].
    unfold smmu_field, smmu_of. cbn. rewrite Hm. by destruct type. }
  rewrite wfold_smmu in Hw by (rewrite ?layout_length; lia). rewrite Z.sub_0_r in Hw.
  fold (smmu_blocks bound t bs) in Hw.
  assert (Hle : Z.of_nat (length (smmu_blocks bound t bs)) <= Z.of_nat (length bs)).
  { rewrite <- (layout_length bound (t + blocks_offset) bs). unfold smmu_blocks.
    apply inj_le, filter_length_le. }
  destruct type; [done|..]; unfold bind; rewrite Hw; destruct (smmu_blocks bound t bs !! _) eqn:E;
    try done; unfold ret; do 2 f_equal; apply lookup_ge_None_1 in E; unfold u32;
    destruct (Z.eq_dec (Z.of_nat (length (smmu_blocks bound t bs))) 0) as [->|Hn];
    try (by destruct (_ <? _)); rewrite wrap_small by lia;
    by replace (0 + Z.of_nat (length (smmu_blocks bound t bs)) - 1 <? index) with true by lia.
Qed.

Lemma smmu_info_nth_witness :
  val_iovirt_get_smmu_info 8 SMMU_CTRL_BASE 0 fvp_table = Done IOVIRT_SMMUV3_0_BASE_ADDRESS fvp_table.
Proof.
  refine (eq_trans (smmu_info_nth 8 0x8C200000 fvp_blocks SMMU_CTRL_BASE 0 fvp_table fvp_iort _ _ _) _).
  - cbn. lia.
  - lia.
  - discriminate.
  - reflexivity.
Defined.
