(* ===== verification/SmmuVal.v ===== *)
(** * SmmuVal

    The non-secure SMMUv3 driver, val/sys_arch_src/smmu_v3/smmu_v3.c, with
    val/src/acs_smmu.c and the look-up of acs_iovirt.c that needs it. The
    structures of smmu_v3.h are those of val_el3/smmuv3_el3.h except for the
    device, which has no event queue. Objects the driver allocates live in one
    typed store per C type; tables the SMMU reads are bytes of memory. The
    allocator of the platform is the class [SmmuHeap]. *)

From Stdlib Require Import ZArith Lia Bool List.
From stdpp Require Import base tactics numbers list gmap option.
From S2P Require Import Prelude Memory El3State SmmuRealm BMRuntime ValPgt Pcie Gic Iovirt.

(** ** smmu_reg.h *)
Definition CMDQ_OP_CFGI_ALL : Z := 0x4.
Definition CMDQ_OP_TLBI_EL2_ALL : Z := 0x20.
Definition CMDQ_OP_TLBI_NSNH_ALL : Z := 0x30.
Definition CMDQ_OP_CMD_SYNC : Z := 0x46.
Definition CMDQ_CFGI_1_ALL_STES : Z := 31.
Definition CMDQ_DWORDS_PER_ENT : Z := 2.
Definition SMMU_CMDQ_POLL_TIMEOUT : Z := 0x100000.
Definition SMMU_IDR0_OFFSET : Z := 0x0.
Definition SMMU_IDR1_OFFSET : Z := 0x4.
Definition SMMU_IDR5_OFFSET : Z := 0x14.
Definition SMMU_CR0_OFFSET : Z := 0x20.
Definition SMMU_CR0ACK_OFFSET : Z := 0x24.
Definition SMMU_CR1_OFFSET : Z := 0x28.
Definition SMMU_CR2_OFFSET : Z := 0x2c.
Definition SMMU_GERROR_OFFSET : Z := 0x60.
Definition SMMU_STRTAB_BASE_OFFSET : Z := 0x80.
Definition SMMU_STRTAB_BASE_CFG_OFFSET : Z := 0x88.
Definition SMMU_CMDQ_BASE_OFFSET : Z := 0x90.
Definition SMMU_CMDQ_PROD_OFFSET : Z := 0x98.
Definition SMMU_CMDQ_CONS_OFFSET : Z := 0x9c.
Definition CR0_CMDQEN : Z := 1 << 3.
Definition CR0_SMMUEN : Z := 1 << 0.
Definition STRTAB_STE_0_CONFIG_ABORT : Z := 0.
Definition STRTAB_STE_DWORDS : Z := 8.
Definition STRTAB_L1_DESC_SIZE : Z := 8.
Definition BYTES_PER_DWORD : Z := 8.
Definition STRTAB_BASE_CFG_FMT_LINEAR : Z := 0.
Definition STRTAB_BASE_CFG_FMT_2LVL : Z := 1.
Definition ACS_INVALID_INDEX : Z := 0xFFFFFFFF.
Definition SMMU_V3_IDR1 : Z := 0x4.
Definition SMMU_V3_IDR1_PASID_SHIFT : Z := 6.
Definition SMMU_V3_IDR1_PASID_MASK : Z := 0x1f.

(** ** State *)

Record smmu_dev_t := mk_dev {
  base : Z; ias : Z; oas : Z; ssid_bits : Z; sid_bits : Z; cmdq : smmu_queue_type;
  v_strtab_cfg : smmu_strtab_config; v_supported : smmu_supported
}.
Definition zero_dev : smmu_dev_t :=
  mk_dev 0 0 0 0 0 zero_queue_type (mk_strtab 0 0 0 0 0 0 0) (mk_supp false false false false false).
Definition dev_base v d := mk_dev v (ias d) (oas d) (ssid_bits d) (sid_bits d) (cmdq d)
  (v_strtab_cfg d) (v_supported d).
Definition dev_ias v d := mk_dev (base d) v (oas d) (ssid_bits d) (sid_bits d) (cmdq d)
  (v_strtab_cfg d) (v_supported d).
Definition dev_oas v d := mk_dev (base d) (ias d) v (ssid_bits d) (sid_bits d) (cmdq d)
  (v_strtab_cfg d) (v_supported d).
Definition dev_sizes sid ssid d := mk_dev (base d) (ias d) (oas d) ssid sid (cmdq d)
  (v_strtab_cfg d) (v_supported d).
Definition dev_cmdq v d := mk_dev (base d) (ias d) (oas d) (ssid_bits d) (sid_bits d) v
  (v_strtab_cfg d) (v_supported d).
Definition dev_cfg f d := mk_dev (base d) (ias d) (oas d) (ssid_bits d) (sid_bits d) (cmdq d)
  (f (v_strtab_cfg d)) (v_supported d).
Definition dev_supp f d := mk_dev (base d) (ias d) (oas d) (ssid_bits d) (sid_bits d) (cmdq d)
  (v_strtab_cfg d) (f (v_supported d)).

(** The attributes a test passes to [val_smmu_map]. *)
Record smmu_master_attributes_t := mk_attributes {
  smmu_index : Z; streamid : Z; substreamid : Z; attr_ssid_bits : Z; attr_stage2 : Z
}.

(** [pgt_descriptor_t]; [tcr.sl] is a field no code of the repository sets. *)
Record pgt_descriptor_t := mk_pgtd { pgt : pgt_desc; tcr_sl : option Z }.

(** The allocator behind acs_memory.c: it returns an address, 0 for none. *)
Class SmmuHeap (H : Type) := {
  heap_malloc : Z -> H -> Z * H;
  heap_calloc : Z -> Z -> H -> Z * H;
  heap_free : Z -> H -> H;
  heap_virt_to_phys : Z -> Z
}.
(** The bare-metal platform. *)
#[export] Instance bm_heap : SmmuHeap bm := {|
  heap_malloc n b := match pal_mem_alloc n b with Done a b' => (a, b') | _ => (0, b) end;
  heap_calloc n m b := match pal_mem_calloc n m b with Done a b' => (a, b') | _ => (0, b) end;
  heap_free a b := match mem_free a b with Done _ b' => b' | _ => b end;
  heap_virt_to_phys := pal_mem_virt_to_phys
|}.

(** [m_smmu] of a master is the index of its SMMU in [g_smmu]. *)
Record smmu_vars := mk_vars {
  vg_smmu : option (list smmu_dev_t);
  vg_smmu_addr : Z;
  vl1_descs : gmap Z smmu_strtab_l1_desc;
  vcl1_descs : gmap Z cdtab_l1_desc;
  (* g_smmu_master_list_head: (node address, master address), head first *)
  vmaster_list : list (Z * Z);
  vmasters : gmap Z smmu_master
}.
Definition set_vg v g := mk_vars v (vg_smmu_addr g) (vl1_descs g) (vcl1_descs g)
  (vmaster_list g) (vmasters g).
Definition set_vg_addr v g := mk_vars (vg_smmu g) v (vl1_descs g) (vcl1_descs g)
  (vmaster_list g) (vmasters g).
Definition set_vl1 f g := mk_vars (vg_smmu g) (vg_smmu_addr g) (f (vl1_descs g)) (vcl1_descs g)
  (vmaster_list g) (vmasters g).
Definition set_vcl1 f g := mk_vars (vg_smmu g) (vg_smmu_addr g) (vl1_descs g) (f (vcl1_descs g))
  (vmaster_list g) (vmasters g).
Definition set_vlist v g := mk_vars (vg_smmu g) (vg_smmu_addr g) (vl1_descs g) (vcl1_descs g)
  v (vmasters g).
Definition set_vmasters f g := mk_vars (vg_smmu g) (vg_smmu_addr g) (vl1_descs g) (vcl1_descs g)
  (vmaster_list g) (f (vmasters g)).

Record sst (D H : Type) := mk_sst {
  s_pci : pst D; s_mem : mem; s_heap : H; s_iov : iov; s_vars : smmu_vars
}.
Arguments mk_sst {D H}. Arguments s_pci {D H}. Arguments s_mem {D H}. Arguments s_heap {D H}.
Arguments s_iov {D H}. Arguments s_vars {D H}.
Abbreviation V D H := (M (sst D H)).

Section code.
Context {D H : Type} {HW : Hw D} {HP : SmmuHeap H}.
(** The alignment of the blocks of the IO virtualisation table. *)
Variable bound : Z.

Definition dev {A} (m : P D A) : V D H A :=
  zoom s_pci (fun p s => mk_sst p (s_mem s) (s_heap s) (s_iov s) (s_vars s)) m.
Definition iovirt {A} (m : O A) : V D H A :=
  zoom s_iov (fun i s => mk_sst (s_pci s) (s_mem s) (s_heap s) i (s_vars s)) m.
Definition upd_vmem (f : mem -> mem) : V D H unit := modify (fun s =>
  mk_sst (s_pci s) (f (s_mem s)) (s_heap s) (s_iov s) (s_vars s)).
Definition upd_vars (f : smmu_vars -> smmu_vars) : V D H unit := modify (fun s =>
  mk_sst (s_pci s) (s_mem s) (s_heap s) (s_iov s) (f (s_vars s))).
Definition vars {A} (f : smmu_vars -> A) : V D H A := gets (fun s => f (s_vars s)).

Definition val_mmio_read (a : Z) : V D H Z := dev (pal_mmio_read (u64 a)).
Definition val_mmio_write (a v : Z) : V D H unit := dev (pal_mmio_write (u64 a) v).
Definition val_mmio_write64 (a v : Z) : V D H unit := dev (mmio_write_n 8 (u64 a) v).
Definition rd64 (a : Z) : V D H Z := gets (fun s => load 8 (s_mem s) a).
Definition wr64 (a v : Z) : V D H unit := upd_vmem (fun m => store 8 m a v).

(** Allocation through acs_memory.c, whose sizes are 32 bits wide. [calloc] of a
    table clears its bytes; objects of the typed stores are cleared by the code
    that enters them. *)
Definition heap_op {A} (f : H -> A * H) : V D H A := fun s =>
  let '(a, h) := f (s_heap s) in
  Done a (mk_sst (s_pci s) (s_mem s) h (s_iov s) (s_vars s)).
Definition val_memory_alloc (size : Z) : V D H Z := heap_op (heap_malloc (u32 size)).
Definition val_memory_calloc (num size : Z) : V D H Z :=
  heap_op (heap_calloc (u32 num) (u32 size)).
Definition calloc_table (num size : Z) : V D H Z :=
  let! p := val_memory_calloc num size in
  (when truthy p then upd_vmem (fun m => memset (Z.to_nat (u32 (u32 num * u32 size))) m p 0)) ;;
  ret p.
Definition val_memory_free (addr : Z) : V D H unit := heap_op (fun h => (tt, heap_free addr h)).
Definition val_memory_virt_to_phys (va : Z) : Z := heap_virt_to_phys va.

(** [g_smmu[i]] and the objects. *)
Definition smmu_at (i : nat) : V D H smmu_dev_t :=
  let! g := vars vg_smmu in use (match g with Some l => l !! i | None => None end).
Definition smmu_upd (i : nat) (f : smmu_dev_t -> smmu_dev_t) : V D H unit :=
  let! g := vars vg_smmu in
  match g with Some l => upd_vars (set_vg (Some (alter f i l))) | None => undef end.
Definition master_get (p : Z) : V D H smmu_master := let! m := vars vmasters in use (m !! p).
Definition master_upd (p : Z) (f : smmu_master -> smmu_master) : V D H unit :=
  upd_vars (set_vmasters (alter f p)).
Definition l1_get (p : Z) : V D H smmu_strtab_l1_desc := let! m := vars vl1_descs in use (m !! p).
Definition l1_put (p : Z) (d : smmu_strtab_l1_desc) : V D H unit := upd_vars (set_vl1 (insert p d)).
Definition cl1_get (p : Z) : V D H cdtab_l1_desc := let! m := vars vcl1_descs in use (m !! p).
Definition cl1_put (p : Z) (d : cdtab_l1_desc) : V D H unit := upd_vars (set_vcl1 (insert p d)).

(** ** Command queue *)

Definition smmu_cmdq_inc_prod (q : smmu_queue) : Z :=
  u32 ((q_prod q + 1) .& ((1 << (log2nent q + 1)) - 1)).
Definition smmu_queue_full (q : smmu_queue) : bool :=
  let index_mask := u32 ((1 << log2nent q) - 1) in
  let wrap_mask := u32 (1 << log2nent q) in
  ((q_prod q .& index_mask) =? (q_cons q .& index_mask)) &&
  negb ((q_prod q .& wrap_mask) =? (q_cons q .& wrap_mask)).
Definition smmu_queue_empty (q : smmu_queue) : bool :=
  let index_mask := u32 ((1 << log2nent q) - 1) in
  let wrap_mask := u32 (1 << log2nent q) in
  ((q_prod q .& index_mask) =? (q_cons q .& index_mask)) &&
  ((q_prod q .& wrap_mask) =? (q_cons q .& wrap_mask)).

(** The two doublewords of a command; [None] for an unsupported opcode. *)
Definition smmu_cmdq_build_cmd (opcode : Z) : option (Z * Z) :=
  let cmd0 := bf_set 7 0 opcode in
  if (opcode =? CMDQ_OP_TLBI_EL2_ALL) || (opcode =? CMDQ_OP_TLBI_NSNH_ALL) ||
     (opcode =? CMDQ_OP_CMD_SYNC) then Some (cmd0, 0)
  else if opcode =? CMDQ_OP_CFGI_ALL then Some (cmd0, bf_set 4 0 CMDQ_CFGI_1_ALL_STES)
  else None.

(** One turn of the wait for a free slot, on the software copy of the indices. *)
Definition wait_step (q : smmu_queue) (timeout : Z) : V D H (Z + Z) :=
  if smmu_queue_full q && truthy timeout then ret (inl (timeout - 1)) else ret (inr timeout).

Definition smmu_cmdq_write_cmd (fuel : nat) (i : nat) (cmd : Z * Z) : V D H Z :=
  let! smmu := smmu_at i in
  let q := cmdq smmu in
  let! timeout := loop fuel (wait_step (queue q)) SMMU_CMDQ_POLL_TIMEOUT in
  if timeout =? 0 then ret (-1) else
  let! prod := val_mmio_read (prod_reg q) in
  let q' := mk_queue prod 0 (log2nent (queue q)) in
  let cmd_dst := u64 (q_base q + (q_prod q' .& ((1 << log2nent q') - 1)) * entry_size q) in
  wr64 cmd_dst (fst cmd) ;;
  wr64 (cmd_dst + 8) (snd cmd) ;;
  val_mmio_write (prod_reg q) (smmu_cmdq_inc_prod q') ;;
  ret 0.

Definition smmu_cmdq_issue_cmd (fuel : nat) (i : nat) (opcode : Z) : V D H Z :=
  match smmu_cmdq_build_cmd opcode with
  | None => ret (-1)
  | Some cmd => smmu_cmdq_write_cmd fuel i cmd
  end.

(** One turn of the polling loop: (timeout, consumer index). *)
Definition poll_turn (q : smmu_queue_type) (prod : Z) (x : Z * Z) : V D H (Z * Z + Z) :=
  let '(timeout, cns) := x in
  if 0 <? timeout then
    if smmu_queue_empty (mk_queue prod cns (log2nent (queue q))) then ret (inr timeout)
    else let! cns' := val_mmio_read (cons_reg q) in ret (inl (timeout - 1, cns'))
  else ret (inr timeout).

Definition smmu_cmdq_poll_until_consumed (fuel : nat) (i : nat) : V D H unit :=
  let! smmu := smmu_at i in
  let q := cmdq smmu in
  let! prod := val_mmio_read (prod_reg q) in
  let! cns := val_mmio_read (cons_reg q) in
  let! timeout := loop fuel (poll_turn q prod) (SMMU_CMDQ_POLL_TIMEOUT, cns) in
  (* on a timeout the registers are read once more for the error report *)
  when timeout =? 0 then
    (let! _p := val_mmio_read (prod_reg q) in
     let! _c := val_mmio_read (cons_reg q) in
     let! _g := val_mmio_read (base smmu + SMMU_GERROR_OFFSET) in
     ret tt).

Definition smmu_tlbi_cfgi (fuel : nat) (i : nat) : V D H unit :=
  let! _r := smmu_cmdq_issue_cmd fuel i CMDQ_OP_CFGI_ALL in
  let! smmu := smmu_at i in
  (when hyp (v_supported smmu) then
     (let! _r := smmu_cmdq_issue_cmd fuel i CMDQ_OP_TLBI_EL2_ALL in ret tt)) ;;
  let! _r := smmu_cmdq_issue_cmd fuel i CMDQ_OP_TLBI_NSNH_ALL in
  let! _r := smmu_cmdq_issue_cmd fuel i CMDQ_OP_CMD_SYNC in
  smmu_cmdq_poll_until_consumed fuel i.

(** ** Stream table *)

(** The entry of no master: abort. *)
Definition write_abort_ste (ste : Z) : V D H unit :=
  wr64 ste (STRTAB_STE_0_V .| bf_set 3 1 STRTAB_STE_0_CONFIG_ABORT) ;;
  wr64 (ste + 8) (bf_set 45 44 STRTAB_STE_1_SHCFG_INCOMING) ;;
  wr64 (ste + 16) 0.

Definition smmu_strtab_write_ste (master : option smmu_master) (ste : Z) : V D H unit :=
  match master with
  | None => write_abort_ste ste
  | Some m =>
      match stage m with
      | SMMU_STAGE_BYPASS => ret tt
      | SMMU_STAGE_S2 =>
          let cfg := stage2 m in
          let! ste1 := rd64 (ste + 8) in
          wr64 (ste + 8) (ste1 .| (bf_set 31 30 0x2 .| bf_set 29 28 0x1)) ;;
          wr64 (ste + 16)
            (bf_set 15 0 (vmid cfg) .| bf_set 50 32 (vtcr cfg) .| STRTAB_STE_2_S2PTW .|
             STRTAB_STE_2_S2AA64 .| STRTAB_STE_2_S2R) ;;
          wr64 (ste + 24) (vttbr cfg .& bf_mask 51 4) ;;
          wr64 ste (STRTAB_STE_0_V .| bf_set 3 1 STRTAB_STE_0_CONFIG_S2_TRANS)
      | SMMU_STAGE_S1 =>
          let cfg := stage1 m in
          wr64 (ste + 8)
            (bf_set 1 0 STRTAB_STE_1_S1DSS_SSID0 .| bf_set 3 2 STRTAB_STE_1_S1C_CACHE_WBRA .|
             bf_set 5 4 STRTAB_STE_1_S1C_CACHE_WBRA .| bf_set 7 6 SMMU_SH_ISH .|
             bf_set 29 28 0x1) ;;
          wr64 ste
            (STRTAB_STE_0_V .|
             ((cdtab_phys (cdcfg cfg) .& (bf_mask 51 6 << 6)) .|
              bf_set 3 1 STRTAB_STE_0_CONFIG_S1_TRANS .|
              bf_set 63 59 (s1cdmax cfg) .| bf_set 5 4 (s1fmt cfg)))
      end
  end.

(** The loops over the entries of a table. *)
Definition write_abort_stes (n tab : Z) : V D H unit :=
  for_range 0 n (fun i => smmu_strtab_write_ste None (u64 (tab + 64 * i))).

Definition smmu_strtab_init_linear (i : nat) : V D H Z :=
  let! smmu := smmu_at i in
  (* int arithmetic: 1 << sid_bits times 64 must not overflow *)
  require (sid_bits smmu <=? 24) ;;
  let size := (1 << sid_bits smmu) * (STRTAB_STE_DWORDS << 3) in
  let! p := calloc_table 2 size in
  smmu_upd i (dev_cfg (cfg_ptr p)) ;;
  if p =? 0 then ret 0 else
  let tab := align_to_size p size in
  smmu_upd i (dev_cfg (cfg_tab tab (align_to_size (val_memory_virt_to_phys p) size))) ;;
  smmu_upd i (dev_cfg (cfg_count (1 << sid_bits smmu))) ;;
  smmu_upd i (dev_cfg (cfg_base_cfg
    (bf_set 17 16 STRTAB_BASE_CFG_FMT_LINEAR .| bf_set 5 0 (sid_bits smmu)))) ;;
  write_abort_stes (1 << sid_bits smmu) tab ;;
  ret 1.

Definition smmu_cmd_queue_init (i : nat) : V D H Z :=
  let! smmu := smmu_at i in
  let q := cmdq smmu in
  let l := log2nent (queue q) in
  (* int arithmetic: (1 << log2nent) * 2 << 3 must not overflow *)
  require (l <=? 26) ;;
  let size0 := ((1 << l) * CMDQ_DWORDS_PER_ENT) << 3 in
  let cmdq_size := if size0 <? 32 then 32 else size0 in
  let! p := calloc_table 2 cmdq_size in
  smmu_upd i (dev_cmdq (mk_queue_type (queue q) p (q_base q) (q_base_phys q) (queue_base q)
                          (entry_size q) (prod_reg q) (cons_reg q))) ;;
  if p =? 0 then ret 0 else
  let phys := align_to_size (val_memory_virt_to_phys p) cmdq_size in
  smmu_upd i (dev_cmdq (mk_queue_type (mk_queue 0 0 l) p (align_to_size p cmdq_size) phys
    (QUEUE_BASE_RWA .| (phys .& (bf_mask 51 5 << 5)) .| bf_set 4 0 l)
    (CMDQ_DWORDS_PER_ENT << 3) (u64 (base smmu + SMMU_CMDQ_PROD_OFFSET))
    (u64 (base smmu + SMMU_CMDQ_CONS_OFFSET)))) ;;
  ret 1.

Definition smmu_free_strtab (i : nat) : V D H unit :=
  let! smmu := smmu_at i in
  let cfg := v_strtab_cfg smmu in
  if strtab_ptr cfg =? 0 then ret tt else
  (when st_level_2lvl (v_supported smmu) && truthy (st_l1_desc cfg) then
    (for_range 0 (st_l1_ent_count cfg) (fun k =>
       let! d := l1_get (st_l1_desc cfg + sizeof_strtab_l1_desc * k) in
       when truthy (l1_l2ptr d) then val_memory_free (l1_l2ptr d)) ;;
     val_memory_free (st_l1_desc cfg))) ;;
  val_memory_free (strtab_ptr cfg).

Definition smmu_strtab_write_level1_desc (dst : Z) (desc : smmu_strtab_l1_desc) : V D H unit :=
  wr64 dst (l1_desc_val desc).

Definition smmu_strtab_init_level2 (i : nat) (sid : Z) : V D H Z :=
  let! smmu := smmu_at i in
  let cfg := v_strtab_cfg smmu in
  let dp := st_l1_desc cfg + sizeof_strtab_l1_desc * (sid >> STRTAB_SPLIT) in
  let! desc := l1_get dp in
  if truthy (l1_l2ptr desc) then ret 1 else
  let size := (1 << STRTAB_SPLIT) * STRTAB_STE_DWORDS * BYTES_PER_DWORD in
  let strtab := u64 (strtab64 cfg + 8 * ((sid >> STRTAB_SPLIT) * STRTAB_L1_DESC_DWORDS)) in
  let! p := calloc_table 2 size in
  l1_put dp (mk_l1 (STRTAB_SPLIT + 1) p (l1_l2desc64 desc) (l1_l2desc_phys desc)) ;;
  if p =? 0 then ret 0 else
  let desc' := mk_l1 (STRTAB_SPLIT + 1) p (align_to_size p size)
                 (align_to_size (val_memory_virt_to_phys p) size) in
  l1_put dp desc' ;;
  write_abort_stes (1 << STRTAB_SPLIT) (l1_l2desc64 desc') ;;
  smmu_strtab_write_level1_desc strtab desc' ;;
  ret 1.

Definition smmu_strtab_init_level1 (i : nat) : V D H Z :=
  let! smmu := smmu_at i in
  let n := st_l1_ent_count (v_strtab_cfg smmu) in
  let! p := val_memory_calloc n sizeof_strtab_l1_desc in
  smmu_upd i (dev_cfg (cfg_l1 p)) ;;
  if p =? 0 then ret 0 else
  for_range 0 n (fun k => l1_put (p + sizeof_strtab_l1_desc * k) zero_l1) ;;
  ret 1.

Definition smmu_strtab_init_2level (i : nat) : V D H Z :=
  let! smmu := smmu_at i in
  let log2size := u32 (sid_bits smmu - STRTAB_SPLIT) in
  require (log2size <? 31) ;;
  let count := 1 << log2size in
  smmu_upd i (dev_cfg (cfg_count count)) ;;
  let l1_tbl_size := u32 (count * STRTAB_L1_DESC_SIZE) in
  let! p := val_memory_alloc (u32 (2 * l1_tbl_size)) in
  smmu_upd i (dev_cfg (cfg_ptr p)) ;;
  if p =? 0 then ret 0 else
  smmu_upd i (dev_cfg (cfg_tab (align_to_size p l1_tbl_size)
                         (align_to_size (val_memory_virt_to_phys p) l1_tbl_size))) ;;
  smmu_upd i (dev_cfg (cfg_base_cfg (bf_set 17 16 STRTAB_BASE_CFG_FMT_2LVL .|
    bf_set 5 0 (log2size + STRTAB_SPLIT) .| bf_set 10 6 STRTAB_SPLIT))) ;;
  let! r := smmu_strtab_init_level1 i in
  if r =? 0 then val_memory_free p ;; ret 0 else ret 1.

Definition smmu_strtab_init (i : nat) : V D H Z :=
  let! smmu := smmu_at i in
  let! r := (if st_level_2lvl (v_supported smmu) then smmu_strtab_init_2level i
             else smmu_strtab_init_linear i) in
  if r =? 0 then ret r else
  let! smmu := smmu_at i in
  let data := strtab_phys (v_strtab_cfg smmu) .& (bf_mask 51 6 << 6) in
  smmu_upd i (dev_cfg (cfg_base (data .| STRTAB_BASE_RA))) ;;
  ret 1.

(** ** Registers *)

(** One turn of [while (timeout--)]. *)
Definition ack_step (ack val timeout : Z) : V D H (Z + Z) :=
  if timeout =? 0 then ret (inr 1) else
  let! reg := val_mmio_read ack in
  if reg =? val then ret (inr 0) else ret (inl (timeout - 1)).

Definition smmu_reg_write_sync (fuel : nat) (i : nat) (val reg_off ack_off : Z) : V D H Z :=
  let! smmu := smmu_at i in
  val_mmio_write (base smmu + reg_off) val ;;
  loop fuel (ack_step (base smmu + ack_off) val) 0x1000000.

Definition smmu_dev_disable (fuel : nat) (i : nat) : V D H Z :=
  smmu_reg_write_sync fuel i 0 SMMU_CR0_OFFSET SMMU_CR0ACK_OFFSET.

Definition smmu_reset (fuel : nat) (i : nat) : V D H Z :=
  let! smmu := smmu_at i in
  let sync v := smmu_reg_write_sync fuel i v SMMU_CR0_OFFSET SMMU_CR0ACK_OFFSET in
  let! r := sync 0 in
  if truthy r then ret r else
  val_mmio_write (base smmu + SMMU_CR1_OFFSET) reset_cr1 ;;
  val_mmio_write (base smmu + SMMU_CR2_OFFSET) 0 ;;
  val_mmio_write64 (base smmu + SMMU_STRTAB_BASE_OFFSET) (strtab_base (v_strtab_cfg smmu)) ;;
  val_mmio_write (base smmu + SMMU_STRTAB_BASE_CFG_OFFSET) (strtab_base_cfg (v_strtab_cfg smmu)) ;;
  val_mmio_write64 (base smmu + SMMU_CMDQ_BASE_OFFSET) (queue_base (cmdq smmu)) ;;
  val_mmio_write (base smmu + SMMU_CMDQ_PROD_OFFSET) (q_prod (queue (cmdq smmu))) ;;
  val_mmio_write (base smmu + SMMU_CMDQ_CONS_OFFSET) (q_cons (queue (cmdq smmu))) ;;
  let! r := sync CR0_CMDQEN in
  if truthy r then ret r else
  smmu_tlbi_cfgi fuel i ;;
  let! r := sync (CR0_CMDQEN .| CR0_SMMUEN) in
  if truthy r then ret r else
  ret 1.

Definition smmu_set_state (fuel : nat) (smmu_index en : Z) : V D H Z :=
  let! n := iovirt (gets g_num_smmus) in
  if n <=? smmu_index then ret 1 else
  let i := Z.to_nat smmu_index in
  let! smmu := smmu_at i in
  if base smmu =? 0 then ret 1 else
  let! cr0_val := val_mmio_read (base smmu + SMMU_CR0_OFFSET) in
  let cr0_val := if truthy en then cr0_val .| CR0_SMMUEN else cr0_val .& bnot 32 CR0_SMMUEN in
  let! r := smmu_reg_write_sync fuel i cr0_val SMMU_CR0_OFFSET SMMU_CR0ACK_OFFSET in
  if truthy r then ret r else ret 0.
Definition val_smmu_disable (fuel : nat) (smmu_index : Z) : V D H Z :=
  smmu_set_state fuel smmu_index 0.
Definition val_smmu_enable (fuel : nat) (smmu_index : Z) : V D H Z :=
  smmu_set_state fuel smmu_index 1.

Definition set_supp (i : nat) (f : smmu_supported -> smmu_supported) : V D H unit :=
  smmu_upd i (dev_supp f).

Definition smmu_probe (i : nat) : V D H Z :=
  let! smmu := smmu_at i in
  let base := base smmu in
  let! data := val_mmio_read (base + SMMU_IDR0_OFFSET) in
  (when bf_get 28 27 data =? IDR0_ST_LEVEL_2LVL then set_supp i (supp_2lvl true)) ;;
  (when truthy (data .& IDR0_CD2L) then set_supp i (supp_cd2l true)) ;;
  (when truthy (data .& IDR0_HYP) then set_supp i (supp_hyp true)) ;;
  (when truthy (data .& IDR0_S1P) then set_supp i (supp_s1p true)) ;;
  (when truthy (data .& IDR0_S2P) then set_supp i (supp_s2p true)) ;;
  if data .& (IDR0_S1P .| IDR0_S2P) =? 0 then ret 0 else
  let ttf := bf_get 3 2 data in
  if negb ((ttf =? IDR0_TTF_AARCH32_64) || (ttf =? IDR0_TTF_AARCH64)) then ret 0 else
  (when ttf =? IDR0_TTF_AARCH32_64 then smmu_upd i (dev_ias 40)) ;;
  let! data := val_mmio_read (base + SMMU_IDR1_OFFSET) in
  if truthy (data .& (IDR1_TABLES_PRESET .| IDR1_QUEUES_PRESET)) then ret 0 else
  smmu_upd i (fun d =>
    let c := cmdq d in
    dev_cmdq (mk_queue_type (mk_queue (q_prod (queue c)) (q_cons (queue c)) (bf_get 25 21 data))
      (q_base_ptr c) (q_base c) (q_base_phys c) (queue_base c) (entry_size c)
      (prod_reg c) (cons_reg c)) d) ;;
  smmu_upd i (dev_sizes (bf_get 5 0 data) (bf_get 10 6 data)) ;;
  (when bf_get 5 0 data <=? STRTAB_SPLIT then set_supp i (supp_2lvl false)) ;;
  let! data := val_mmio_read (base + SMMU_IDR5_OFFSET) in
  if SMMU_OAS_MAX_IDX <=? bf_get 2 0 data then ret 0 else
  let! o := use (smmu_oas !! Z.to_nat (bf_get 2 0 data)) in
  smmu_upd i (dev_oas o) ;;
  smmu_upd i (fun d => dev_ias (Z.max (ias d) (oas d)) d) ;;
  ret 1.

Definition smmu_strtab_get_ste_for_sid (i : nat) (sid : Z) : V D H Z :=
  let! smmu := smmu_at i in
  let cfg := v_strtab_cfg smmu in
  if negb (st_level_2lvl (v_supported smmu)) then
    ret (u64 (strtab64 cfg + 8 * u32 (sid * STRTAB_STE_DWORDS)))
  else
    let! l1 := l1_get (st_l1_desc cfg +
                       sizeof_strtab_l1_desc * ((sid >> STRTAB_SPLIT) * STRTAB_L1_DESC_DWORDS)) in
    ret (u64 (l1_l2desc64 l1 + 8 * ((sid .& ((1 << STRTAB_SPLIT) - 1)) * STRTAB_STE_DWORDS))).

(** ** Context descriptors *)

Definition smmu_cdtab_write_l1_desc (dst : Z) (l1_desc : cdtab_l1_desc) : V D H unit :=
  wr64 dst (cdtab_l1_val l1_desc).

(** [dp] is the address of the l1 descriptor. *)
Definition smmu_cdtab_alloc_leaf_table (dp : Z) : V D H Z :=
  let! d := cl1_get dp in
  let size := CDTAB_L2_ENTRY_COUNT * (CDTAB_CD_DWORDS << 3) in
  let! p := val_memory_alloc (size * 2) in
  cl1_put dp (mk_cl1 p (cl1_l2desc64 d) (cl1_l2desc_phys d)) ;;
  if p =? 0 then ret 1 else
  cl1_put dp (mk_cl1 p (align_to_size p size)
                (align_to_size (val_memory_virt_to_phys p) size)) ;;
  ret 0.

(** [mp] is the address of the master. *)
Definition smmu_cdtab_get_ctx_desc (mp : Z) : V D H Z :=
  let! m := master_get mp in
  let cdc := cdcfg (stage1 m) in
  if s1fmt (stage1 m) =? STRTAB_STE_0_S1FMT_LINEAR then
    ret (u64 (cdtab64 cdc + 8 * u32 (m_ssid m * CDTAB_CD_DWORDS)))
  else
    let idx := m_ssid m >> CDTAB_SPLIT in
    let dp := cd_l1_desc cdc + sizeof_cdtab_l1_desc * idx in
    let leaf := let! d := cl1_get dp in
                ret (u64 (cl1_l2desc64 d +
                  8 * ((m_ssid m .& (CDTAB_L2_ENTRY_COUNT - 1)) * CDTAB_CD_DWORDS))) in
    let! d := cl1_get dp in
    if cl1_l2ptr d =? 0 then
      let! r := smmu_cdtab_alloc_leaf_table dp in
      if truthy r then ret 0 else
      let! d := cl1_get dp in
      smmu_cdtab_write_l1_desc (u64 (cdtab64 cdc + 8 * (idx * CDTAB_L1_DESC_DWORDS))) d ;;
      leaf
    else leaf.

Definition smmu_cdtab_write_ctx_desc (mp ssid : Z) (cd : cdtab_ctx_desc) : V D H Z :=
  let! m := master_get mp in
  require (s1cdmax (stage1 m) <? 31) ;;
  if (1 << s1cdmax (stage1 m)) <=? s32 ssid then ret 0 else
  let! cdptr := smmu_cdtab_get_ctx_desc mp in
  if cdptr =? 0 then ret 0 else
  wr64 (cdptr + 8) (cd_ttbr cd .& (bf_mask 51 4)) ;;
  wr64 (cdptr + 16) 0 ;;
  wr64 (cdptr + 24) (cd_mair cd) ;;
  wr64 cdptr (ctx_desc_val cd) ;;
  ret 1.

(** [master->smmu->supported.cd2l]. *)
Definition master_cd2l (m : smmu_master) : V D H bool :=
  let! i := use (m_smmu m) in
  let! smmu := smmu_at i in
  ret (cd2l (v_supported smmu)).

Definition smmu_cdtab_free (mp : Z) : V D H unit :=
  let! m := master_get mp in
  let cfg := stage1 m in
  let cdc := cdcfg cfg in
  require (s1cdmax cfg <? 31) ;;
  let max_contexts := 1 << s1cdmax cfg in
  let! two := master_cd2l m in
  (when two && (CDTAB_L2_ENTRY_COUNT <? max_contexts) then
    (for_range 0 ((max_contexts + CDTAB_L2_ENTRY_COUNT - 1) / CDTAB_L2_ENTRY_COUNT) (fun k =>
       let! d := cl1_get (cd_l1_desc cdc + sizeof_cdtab_l1_desc * k) in
       when truthy (cl1_l2ptr d) then val_memory_free (cl1_l2ptr d)) ;;
     val_memory_free (cd_l1_desc cdc))) ;;
  val_memory_free (cdtab_ptr cdc) ;;
  master_upd mp (upd_s1 (upd_cdcfg (cd_with_ptr 0))).

(** The second half of [smmu_cdtab_alloc]: the table itself. *)
Definition cdtab_alloc_table (mp l1_tbl_size : Z) : V D H Z :=
  let! p := calloc_table 2 l1_tbl_size in
  master_upd mp (upd_s1 (upd_cdcfg (cd_with_ptr p))) ;;
  if p =? 0 then ret 0 else
  master_upd mp (upd_s1 (upd_cdcfg
    (cd_with_tab (align_to_size p l1_tbl_size)
       (align_to_size (val_memory_virt_to_phys p) l1_tbl_size)))) ;;
  ret 1.

Definition smmu_cdtab_alloc (mp : Z) : V D H Z :=
  let! m := master_get mp in
  require (s1cdmax (stage1 m) <? 31) ;;
  let cdmax := 1 << s1cdmax (stage1 m) in
  let! two := master_cd2l m in
  if two && (CDTAB_L2_ENTRY_COUNT <? cdmax) then
    master_upd mp (upd_s1 (s1_with_fmt STRTAB_STE_0_S1FMT_64K_L2)) ;;
    let n := (cdmax + CDTAB_L2_ENTRY_COUNT - 1) / CDTAB_L2_ENTRY_COUNT in
    master_upd mp (upd_s1 (upd_cdcfg (cd_with_count n))) ;;
    let! p := val_memory_calloc n sizeof_cdtab_l1_desc in
    master_upd mp (upd_s1 (upd_cdcfg (cd_with_l1 p))) ;;
    if p =? 0 then ret 0 else
    for_range 0 n (fun k => cl1_put (p + sizeof_cdtab_l1_desc * k) zero_cl1) ;;
    cdtab_alloc_table mp (n * (CDTAB_L1_DESC_DWORDS << 3))
  else
    master_upd mp (upd_s1 (s1_with_fmt STRTAB_STE_0_S1FMT_LINEAR)) ;;
    master_upd mp (upd_s1 (upd_cdcfg (cd_with_count (u32 cdmax)))) ;;
    cdtab_alloc_table mp (cdmax * (CDTAB_CD_DWORDS << 3)).

(** ** Masters *)

(** The [while (node != NULL)] search. *)
Fixpoint find_master (sid : Z) (nodes : list (Z * Z)) : V D H (option Z) :=
  match nodes with
  | [] => ret None
  | (_, mp) :: nodes' =>
      let! m := master_get mp in
      if m_sid m =? sid then ret (Some mp) else find_master sid nodes'
  end.

Definition smmu_master_at (sid : Z) : V D H Z :=
  let! nodes := vars vmaster_list in
  let! found := find_master sid nodes in
  match found with
  | Some mp => ret mp
  | None =>
      let! node := val_memory_alloc sizeof_master_node in
      if node =? 0 then ret 0 else
      let! mp := val_memory_calloc 1 sizeof_smmu_master in
      if mp =? 0 then val_memory_free node ;; ret 0 else
      upd_vars (set_vmasters (insert mp zero_master)) ;;
      upd_vars (set_vlist ((node, mp) :: nodes)) ;;
      ret mp
  end.

(** ** Map, unmap, init, stop *)

(** The choice of translation stage; [false] when the SMMU does not support it. *)
Definition choose_stage (a : smmu_master_attributes_t) (smmu : smmu_dev_t) (mp : Z) : V D H bool :=
  if truthy (attr_stage2 a) then
    if negb (s2p (v_supported smmu)) then ret false
    else master_upd mp (with_stage SMMU_STAGE_S2) ;; ret true
  else if negb (s1p (v_supported smmu)) then ret false
  else master_upd mp (with_stage SMMU_STAGE_S1) ;;
       master_upd mp (with_ssid (substreamid a)) ;;
       ret true.

Definition s2_vtcr (t : pe_tcr) (sl : Z) : Z :=
  bf_set 5 0 (t_tsz t) .| bf_set 7 6 sl .| bf_set 9 8 (t_irgn t) .|
  bf_set 11 10 (t_orgn t) .| bf_set 13 12 (t_sh t) .| bf_set 15 14 (t_tg t) .|
  bf_set 18 16 (t_ps t).
Definition s1_tcr (t : pe_tcr) : Z :=
  bf_set 5 0 (t_tsz t) .| bf_set 7 6 (t_tg t) .| bf_set 9 8 (t_irgn t) .|
  bf_set 11 10 (t_orgn t) .| bf_set 13 12 (t_sh t) .| bf_set 34 32 (t_ps t) .|
  CDTAB_CD_0_TCR_EPD1 .| CDTAB_CD_0_AA64.

(** The stage 2 configuration of the master. *)
Definition fill_stage2 (d : pgt_descriptor_t) (mp : Z) : V D H unit :=
  let! sl := use (tcr_sl d) in
  master_upd mp (with_stage2 (mk_s2 0 (pd_base (pgt d)) (s2_vtcr (pd_tcr (pgt d)) sl))).

(** The stage 1 configuration and its context descriptor; [false] on failure. *)
Definition fill_stage1 (d : pgt_descriptor_t) (mp : Z) : V D H bool :=
  master_upd mp (fun m => upd_s1 (s1_with_max (u8 (m_ssid_bits m))) m) ;;
  let! m := master_get mp in
  let! ok := (if cdtab_ptr (cdcfg (stage1 m)) =? 0 then smmu_cdtab_alloc mp else ret 1) in
  if ok =? 0 then ret false else
  let cd := mk_cd 0 (pd_base (pgt d)) (s1_tcr (pd_tcr (pgt d))) (pd_mair (pgt d)) in
  master_upd mp (upd_s1 (s1_with_cd cd)) ;;
  let! r := smmu_cdtab_write_ctx_desc mp (m_ssid m) cd in
  ret (truthy r).

Definition val_smmu_map (fuel : nat) (a : smmu_master_attributes_t) (d : pgt_descriptor_t)
    : V D H Z :=
  let! g := vars vg_smmu in
  match g with
  | None => ret 1
  | Some _ =>
    let! n := iovirt (gets g_num_smmus) in
    if n <=? smmu_index a then ret 1 else
    let i := Z.to_nat (smmu_index a) in
    let! smmu := smmu_at i in
    if base smmu =? 0 then ret 1 else
    let! mp := smmu_master_at (streamid a) in
    if mp =? 0 then ret 1 else
    let! m := master_get mp in
    (match m_smmu m with
     | None => master_upd mp (with_owner i (streamid a) (attr_ssid_bits a))
     | Some _ => ret tt
     end) ;;
    let! ok := choose_stage a smmu mp in
    if negb ok then ret 1 else
    if (1 << sid_bits smmu) <=? streamid a then ret 1 else
    let! m := master_get mp in
    let! r := (if st_level_2lvl (v_supported smmu) then smmu_strtab_init_level2 i (m_sid m)
               else ret 1) in
    if r =? 0 then ret 1 else
    let! ok := (if bool_decide (stage m = SMMU_STAGE_S2) then fill_stage2 d mp ;; ret true
                else fill_stage1 d mp) in
    if negb ok then ret 1 else
    let! m := master_get mp in
    let! ste := smmu_strtab_get_ste_for_sid i (m_sid m) in
    smmu_strtab_write_ste (Some m) ste ;;
    smmu_tlbi_cfgi fuel i ;;
    ret 0
  end.

Definition val_smmu_unmap (fuel : nat) (a : smmu_master_attributes_t) : V D H unit :=
  let! mp := smmu_master_at (streamid a) in
  if mp =? 0 then ret tt else
  let! m := master_get mp in
  match m_smmu m with
  | None => ret tt
  | Some j =>
      let! owner := smmu_at j in
      if (1 << sid_bits owner) <=? streamid a then ret tt else
      let strtab := u64 (strtab64 (v_strtab_cfg owner) +
                         8 * u32 (streamid a * STRTAB_STE_DWORDS)) in
      smmu_strtab_write_ste None strtab ;;
      smmu_cdtab_free mp ;;
      smmu_tlbi_cfgi fuel j ;;
      upd_vars (set_vmasters (insert mp zero_master))
  end.

Definition smmu_init (fuel : nat) (i : nat) : V D H Z :=
  let! smmu := smmu_at i in
  if base smmu =? 0 then ret Iovirt.ACS_STATUS_ERR else
  let! r := smmu_probe i in
  if r =? 0 then ret Iovirt.ACS_STATUS_ERR else
  let! r := smmu_cmd_queue_init i in
  if r =? 0 then ret Iovirt.ACS_STATUS_ERR else
  let! r := smmu_strtab_init i in
  if r =? 0 then ret Iovirt.ACS_STATUS_ERR else
  let! r := smmu_reset fuel i in
  if r =? 0 then ret Iovirt.ACS_STATUS_ERR else
  ret 0.

(** One SMMU of [val_smmu_stop]. *)
Definition stop_one (fuel : nat) (k : Z) : V D H unit :=
  let i := Z.to_nat k in
  let! smmu := smmu_at i in
  if base smmu =? 0 then ret tt else
  let! _r := smmu_dev_disable fuel i in
  (when truthy (q_base_ptr (cmdq smmu)) then val_memory_free (q_base_ptr (cmdq smmu))) ;;
  smmu_free_strtab i.
Definition val_smmu_stop (fuel : nat) : V D H unit :=
  let! n := iovirt (gets g_num_smmus) in
  for_range 0 n (stop_one fuel) ;;
  let! p := vars vg_smmu_addr in
  val_memory_free p.

Definition get_smmu_info (type : SMMU_INFO_e) (index : Z) : V D H Z :=
  iovirt (val_iovirt_get_smmu_info bound type index).

(** One turn of the scan loop of [val_smmu_init]. *)
Definition init_step (fuel : nat) (k : Z) (_u : unit) : V D H (unit + Z) :=
  let i := Z.to_nat k in
  let! rev := get_smmu_info SMMU_CTRL_ARCH_MAJOR_REV k in
  if negb (rev =? 3) then ret (inl tt) else
  let! b := get_smmu_info SMMU_CTRL_BASE k in
  smmu_upd i (dev_base b) ;;
  let! r := smmu_init fuel i in
  if truthy r then smmu_upd i (dev_base 0) ;; ret (inr Iovirt.ACS_STATUS_ERR) else ret (inl tt).

Definition sizeof_smmu_dev_t : Z := 168.
Definition val_smmu_init (fuel : nat) : V D H Z :=
  let! n := get_smmu_info SMMU_NUM_CTRL 0 in
  iovirt (modify (set_num_smmus (u32 n))) ;;
  let n := u32 n in
  if n =? 0 then ret Iovirt.ACS_STATUS_ERR else
  let! p := val_memory_calloc n sizeof_smmu_dev_t in
  upd_vars (set_vg_addr p) ;;
  if p =? 0 then upd_vars (set_vg None) ;; ret Iovirt.ACS_STATUS_ERR else
  upd_vars (set_vg (Some (replicate (Z.to_nat n) zero_dev))) ;;
  let! r := for_acc (Z.to_nat n) 0 tt (init_step fuel) in
  ret (match r with inl _ => 0 | inr v => v end).

Definition val_smmu_get_info (type : SMMU_INFO_e) (smmu_index : Z) : V D H Z :=
  let! n := iovirt (gets g_num_smmus) in
  if n <=? smmu_index then ret 0 else
  let field f := let! smmu := smmu_at (Z.to_nat smmu_index) in ret (f smmu) in
  match type with
  | SMMU_SSID_BITS => field ssid_bits
  | SMMU_IN_ADDR_SIZE => field ias
  | SMMU_OUT_ADDR_SIZE => field oas
  | _ => get_smmu_info type smmu_index
  end.

(** ** Clients (acs_smmu.c, acs_iovirt.c, pal_smmu.c) *)

Definition val_smmu_read_cfg (offset index : Z) : V D H Z :=
  let! ctrl_base := val_smmu_get_info SMMU_CTRL_BASE index in
  if ctrl_base =? 0 then ret 0 else val_mmio_read (ctrl_base + offset).

(** [while (num_smmu--)]: from the last SMMU down. *)
Fixpoint rc_index_search (smmu_base : Z) (n : nat) : V D H (option Z) :=
  match n with
  | 0%nat => ret None
  | S n' =>
      let! b := val_smmu_get_info SMMU_CTRL_BASE (Z.of_nat n') in
      if smmu_base =? b then ret (Some (Z.of_nat n')) else rc_index_search smmu_base n'
  end.
Definition val_iovirt_get_rc_smmu_index (rc_seg_num rid : Z) : V D H Z :=
  let! smmu_base := iovirt (pal_iovirt_get_rc_smmu_base bound rc_seg_num rid) in
  if smmu_base =? 0 then ret ACS_INVALID_INDEX else
  let! num_smmu := val_smmu_get_info SMMU_NUM_CTRL 0 in
  let! r := rc_index_search smmu_base (Z.to_nat (u32 num_smmu)) in
  ret (default ACS_INVALID_INDEX r).

Definition pal_smmu_max_pasids (smmu_base : Z) : V D H Z :=
  let! reg := dev (pal_mmio_read (u64 (smmu_base + SMMU_V3_IDR1))) in
  ret ((reg >> SMMU_V3_IDR1_PASID_SHIFT) .& SMMU_V3_IDR1_PASID_MASK).
End code.
