(* ===== verification/SmmuValSpec.v ===== *)
(** * SmmuValSpec

    Theorems on the non-secure SMMUv3 driver: what the SMMU reads in its tables
    and its command queue after [val_smmu_map] and [val_smmu_unmap]. *)

From Stdlib Require Import ZArith Lia Bool List.
From stdpp Require Import base tactics numbers list gmap option.
From S2P Require Import Prelude Memory El3State SmmuRealm BMRuntime ValPgt Pcie Gic Iovirt SmmuSpec SmmuVal.

(** ** What the SMMU reads *)

(** The commands of the architecture that the driver uses. *)
Inductive smmu_cmd := CFGI_ALL | TLBI_EL2_ALL | TLBI_NSNH_ALL | CMD_SYNC.
Definition decode_cmd (w0 w1 : Z) : option smmu_cmd :=
  let op := fld 0 8 w0 in
  if (op =? 0x4) && (fld 0 5 w1 =? 31) then Some CFGI_ALL
  else if op =? 0x20 then Some TLBI_EL2_ALL
  else if op =? 0x30 then Some TLBI_NSNH_ALL
  else if op =? 0x46 then Some CMD_SYNC else None.

(** A stream table entry as the SMMU interprets it. *)
Record s2_translation := mk_s2t {
  x_vmid : Z; x_ttb : Z; x_tsz : Z; x_sl : Z; x_irgn : Z; x_orgn : Z; x_sh : Z; x_tg : Z; x_ps : Z
}.
Inductive ste_view := STE_invalid | STE_abort | STE_bypass | STE_s1 | STE_s2 (x : s2_translation) | STE_other.
Definition decode_ste (m : mem) (a : Z) : ste_view :=
  let w0 := load 8 m a in
  let w2 := load 8 m (a + 16) in
  if fld 0 1 w0 =? 0 then STE_invalid
  else if fld 1 3 w0 =? 6 then
    STE_s2 (mk_s2t (fld 0 16 w2) (load 8 m (a + 24)) (fld 32 6 w2) (fld 38 2 w2) (fld 40 2 w2)
              (fld 42 2 w2) (fld 44 2 w2) (fld 46 2 w2) (fld 48 3 w2))
  else if fld 1 3 w0 =? 5 then STE_s1
  else if fld 1 3 w0 =? 4 then STE_bypass else if fld 1 3 w0 =? 0 then STE_abort else STE_other.

(** The slot of index [p] of a queue of [2 ^ l] entries, and [n] commands from
    index [p] on. *)
Definition slot (q l p : Z) : Z := q + 16 * (p mod 2 ^ l).
Definition cmd_at (m : mem) (q l p : Z) : option smmu_cmd :=
  decode_cmd (load 8 m (slot q l p)) (load 8 m (slot q l p + 8)).
Definition queue_cmds (m : mem) (q l p : Z) (n : nat) : list (option smmu_cmd) :=
  map (fun k => cmd_at m q l (p + Z.of_nat k)) (seq 0 n).

(** The producer register of the command queue: it has 20 bits, reads as
    written, and a read of any register leaves it alone. *)
Class ProdReg (D : Type) `{Hw D} (reg : Z) := {
  prod_of : D -> Z;
  prod_range : forall d, 0 <= prod_of d < 2 ^ 20;
  prod_read : forall d, fst (hw_read 4 d reg) = prod_of d;
  prod_stable : forall n d a, prod_of (snd (hw_read n d a)) = prod_of d;
  prod_write : forall d v, 0 <= v < 2 ^ 20 -> prod_of (hw_write 4 d reg v) = v
}.
Arguments prod_of {D _} reg {_}.

Section driver.
Context {D H : Type} {HW : Hw D} {HP : SmmuHeap H}.
Implicit Types s : sst D H.

Definition is_dev (i : nat) (d : smmu_dev_t) s : Prop :=
  exists l, vg_smmu (s_vars s) = Some l /\ l !! i = Some d.
Lemma wp_dev_at i d (Q : smmu_dev_t -> sst D H -> Prop) s :
  is_dev i d s -> Q d s -> wp (smmu_at i) Q s.
Proof.
  intros (l & Hl & Hi) HQ. unfold smmu_at, vars. apply wp_bind, wp_gets.
  rewrite Hl, Hi. by apply wp_ret.
Qed.

(** A command queue the driver has initialised: the software indices are zero. *)
Definition queue_ready (d : smmu_dev_t) : Prop :=
  queue (cmdq d) = mk_queue 0 0 (log2nent (queue (cmdq d))) /\
  2 <= log2nent (queue (cmdq d)) <= 19 /\ entry_size (cmdq d) = 16 /\
  0 <= q_base (cmdq d) /\ q_base (cmdq d) + 16 * 2 ^ log2nent (queue (cmdq d)) <= 2 ^ 64 /\
  aligned (prod_reg (cmdq d)) 4 /\ 0 <= prod_reg (cmdq d) < 2 ^ 64.
Definition in_queue (d : smmu_dev_t) (b : Z) : Prop :=
  q_base (cmdq d) <= b < q_base (cmdq d) + 16 * 2 ^ log2nent (queue (cmdq d)).

Section device.
Variable (i : nat) (d : smmu_dev_t).
Context {PR : ProdReg D (prod_reg (cmdq d))}.
Hypothesis (Hq : queue_ready d).
Let l := log2nent (queue (cmdq d)).
Let q := q_base (cmdq d).
Definition hw_prod s : Z := prod_of (prod_reg (cmdq d)) (p_dev (s_pci s)).

(** [s'] is [s] with the commands [cs] appended to the queue. *)
Definition pushed (cs : list smmu_cmd) s s' : Prop :=
  s_vars s' = s_vars s /\ s_iov s' = s_iov s /\ s_heap s' = s_heap s /\
  only_at (in_queue d) (s_mem s) (s_mem s') /\
  hw_prod s' mod (2 * 2 ^ l) = (hw_prod s + Z.of_nat (length cs)) mod (2 * 2 ^ l) /\
  forall k c, cs !! k = Some c -> cmd_at (s_mem s') q l (hw_prod s + Z.of_nat k) = Some c.

Lemma pushed_refl s : pushed [] s s.
Proof. split_and!; try done. cbn. by rewrite Z.add_0_r. Qed.

Lemma two_l : 0 < 2 ^ l <= 2 ^ 19.
Proof.
  destruct Hq as (_ & Hl & _). split; [apply Z.pow_pos_nonneg; lia|].
  apply Z.pow_le_mono_r; lia.
Qed.
Lemma mod_half x : (x mod (2 * 2 ^ l)) mod 2 ^ l = x mod 2 ^ l.
Proof.
  pose proof two_l. apply Z.mod_mod_divide. by exists 2.
Qed.

(** ** Register reads *)

(** A read leaves everything but the device's own state alone. *)
Definition looked s s' : Prop :=
  s_vars s' = s_vars s /\ s_iov s' = s_iov s /\ s_heap s' = s_heap s /\
  s_mem s' = s_mem s /\ hw_prod s' = hw_prod s.
Lemma looked_trans s1 s2 s3 : looked s1 s2 -> looked s2 s3 -> looked s1 s3.
Proof. unfold looked. intuition congruence. Qed.
Lemma wp_look a (Q : Z -> sst D H -> Prop) s :
  (forall v s', looked s s' -> Q v s') -> wp (val_mmio_read a) Q s.
Proof.
  intros HQ. unfold val_mmio_read, dev. apply wp_zoom. unfold pal_mmio_read, wp.
  destruct (hw_read 4 _ _) as [v d'] eqn:E. apply HQ. split_and!; try done.
  unfold hw_prod. cbn [s_pci p_dev]. change d' with (snd (v, d')). rewrite <- E. apply prod_stable.
Qed.
Lemma wp_read_prod (Q : Z -> sst D H -> Prop) s :
  (forall s', looked s s' -> Q (hw_prod s) s') -> wp (val_mmio_read (prod_reg (cmdq d))) Q s.
Proof.
  intros HQ. unfold val_mmio_read, dev. apply wp_zoom. unfold pal_mmio_read, wp.
  unfold u64. rewrite (wrap_small 64) by apply Hq.
  destruct (hw_read 4 _ _) as [v d'] eqn:E.
  assert (v = hw_prod s) as ->.
  { change v with (fst (v, d')). rewrite <- E. apply prod_read. }
  pose proof (prod_range (p_dev (s_pci s))) as Hr. fold (hw_prod s) in Hr.
  unfold u32. rewrite wrap_small by lia. apply HQ. split_and!; try done.
  unfold hw_prod. cbn [s_pci p_dev]. change d' with (snd (hw_prod s, d')).
  rewrite <- E. apply prod_stable.
Qed.
Lemma wp_write_prod v (Q : unit -> sst D H -> Prop) s : 0 <= v < 2 ^ 20 ->
  (forall s', s_vars s' = s_vars s -> s_iov s' = s_iov s -> s_heap s' = s_heap s ->
     s_mem s' = s_mem s -> hw_prod s' = v -> Q tt s') ->
  wp (val_mmio_write (prod_reg (cmdq d)) v) Q s.
Proof.
  intros Hv HQ. unfold val_mmio_write, dev. apply wp_zoom. unfold pal_mmio_write, mmio_store, wp.
  destruct Hq as (_ & _ & _ & _ & _ & Ha & Hr).
  unfold u64. rewrite (wrap_small 64) by done.
  assert (prod_reg (cmdq d) .& 3 = 0) as ->.
  { change 3 with (Z.ones 2). rewrite Z.land_ones by lia. exact Ha. }
  cbn [truthy Z.eqb negb]. apply HQ; try done.
  unfold hw_prod. cbn [s_pci p_dev]. unfold u32. rewrite wrap_small by lia. by apply prod_write.
Qed.

(** ** Commands *)

Lemma v_wait_done fuel timeout s : (0 < fuel)%nat ->
  loop fuel (wait_step (queue (cmdq d))) timeout s = Done timeout s.
Proof.
  intros Hf. destruct fuel; [lia|]. cbn [loop]. unfold bind, wait_step.
  destruct Hq as (Hz & Hl & _). rewrite Hz.
  assert (smmu_queue_full (mk_queue 0 0 (log2nent (queue (cmdq d)))) = false) as ->; [|done].
  unfold smmu_queue_full. cbn [q_prod q_cons log2nent]. by rewrite !Z.land_0_l.
Qed.

Lemma slot_in p : q <= slot q l p /\ slot q l p + 16 <= q + 16 * 2 ^ l.
Proof. unfold slot. pose proof two_l. pose proof (Z.mod_pos_bound p (2 ^ l)). lia. Qed.
Lemma slot_apart p k n : 0 <= k < n -> n < 2 ^ l ->
  disjoint_rng (slot q l (p + k)) 16 (slot q l (p + n)) 16.
Proof.
  intros Hk Hn. unfold slot, disjoint_rng. pose proof two_l.
  assert ((p + k) mod 2 ^ l <> (p + n) mod 2 ^ l); [|lia]. intros E.
  assert ((p + n - (p + k)) mod 2 ^ l = 0) as E'.
  { rewrite Zminus_mod, E, Z.sub_diag. apply Z.mod_0_l. lia. }
  rewrite Z.mod_small in E'; lia.
Qed.

(** Appending one command. *)
Lemma push_cmd fuel c0 c1 c cs s s1 : (0 < fuel)%nat ->
  is_dev i d s -> pushed cs s s1 -> Z.of_nat (length cs) < 2 ^ l ->
  0 <= c0 < 2 ^ 64 -> 0 <= c1 < 2 ^ 64 -> decode_cmd c0 c1 = Some c ->
  wp (smmu_cmdq_write_cmd fuel i (c0, c1))
    (fun r s' => r = 0 /\ pushed (cs ++ [c]) s s') s1.
Proof.
  intros Hf Hi (Hv & Hio & Hh & Hm & Hp & Hc) Hlen H0 H1 Hdec. pose proof two_l as H2.
  unfold smmu_cmdq_write_cmd. apply wp_bind, (wp_dev_at i d).
  { unfold is_dev. by rewrite Hv. }
  unfold wp. rewrite (bind_done _ _ s1 _ s1 (v_wait_done fuel SMMU_CMDQ_POLL_TIMEOUT s1 Hf)).
  change (SMMU_CMDQ_POLL_TIMEOUT =? 0) with false. cbv iota.
  apply wp_bind, wp_read_prod. intros s2 (Hv2 & Hio2 & Hh2 & Hm2 & Hp2).
  pose proof (prod_range (p_dev (s_pci s1))) as Hr. fold (hw_prod s1) in Hr.
  cbn [q_prod log2nent]. fold l q.
  assert (slot q l (hw_prod s1) = slot q l (hw_prod s + Z.of_nat (length cs))) as Eslot.
  { unfold slot. rewrite <- mod_half, Hp, mod_half. done. }
  assert (u64 (q + (hw_prod s1 .& ((1 << l) - 1)) * entry_size (cmdq d)) =
          slot q l (hw_prod s + Z.of_nat (length cs))) as ->.
  { rewrite <- Eslot. unfold slot. pose proof Hq as (_ & Hl & -> & Hb & He & _).
    rewrite shl1_sub1, Z.land_ones by (subst l; lia).
    fold l q in Hb, He. pose proof (Z.mod_pos_bound (hw_prod s1) (2 ^ l)).
    unfold u64. rewrite wrap_small; lia. }
  set (dst := slot q l (hw_prod s + Z.of_nat (length cs))).
  pose proof (slot_in (hw_prod s + Z.of_nat (length cs))) as Hin. fold dst in Hin.
  assert (smmu_cmdq_inc_prod (mk_queue (hw_prod s1) 0 l) = (hw_prod s1 + 1) mod (2 * 2 ^ l)) as ->.
  { unfold smmu_cmdq_inc_prod. cbn [q_prod log2nent]. pose proof Hq as (_ & Hl & _).
    rewrite shl1_sub1, Z.land_ones, Z.pow_add_r by (subst l; lia).
    change (2 ^ 1) with 2. rewrite (Z.mul_comm (2 ^ l)).
    pose proof (Z.mod_pos_bound (hw_prod s1 + 1) (2 * 2 ^ l) ltac:(lia)). apply wrap_small. lia. }
  pose proof (Z.mod_pos_bound (hw_prod s1 + 1) (2 * 2 ^ l) ltac:(lia)).
  apply wp_bind, wp_modify, wp_bind, wp_modify, wp_bind.
  apply wp_write_prod; [lia|]. cbn [s_vars s_iov s_heap s_mem fst snd].
  intros s3 Hv3 Hio3 Hh3 Hm3 Hp3. apply wp_ret. split; [done|].
  assert (only_at (fun b => dst <= b < dst + 16) (s_mem s1) (s_mem s3)) as Ho.
  { rewrite Hm3, Hm2. transitivity (store 8 (s_mem s1) dst c0);
      apply only_at_store; intros; lia. }
  split_and!; [congruence..| | |].
  - transitivity (s_mem s1); [done|]. eapply only_at_mono; [|exact Ho].
    cbn beta. intros b Hb. unfold in_queue. fold q l. lia.
  - rewrite Hp3, Z.mod_mod by lia. rewrite length_app. cbn [length].
    rewrite Nat2Z.inj_add, Z.add_assoc.
    rewrite <- (Zplus_mod_idemp_l (hw_prod s1)), Hp, Zplus_mod_idemp_l. done.
  - intros k c' Hk. unfold cmd_at.
    destruct (decide (k = length cs)) as [->|Hne].
    + rewrite list.list_lookup_middle in Hk by done. injection Hk as <-. fold dst.
      rewrite Hm3, Hm2.
      rewrite (load_store_eq' 8) by (change (2 ^ (8 * Z.of_nat 8)) with (2 ^ 64); lia).
      rewrite (load_store_ne 8 8) by (unfold disjoint_rng; lia).
      by rewrite (load_store_eq' 8) by (change (2 ^ (8 * Z.of_nat 8)) with (2 ^ 64); lia).
    + pose proof (list.lookup_lt_Some _ _ _ Hk) as Hlt. rewrite length_app in Hlt. cbn in Hlt.
      rewrite list.lookup_app_l in Hk by lia. rewrite <- (Hc k c' Hk). unfold cmd_at.
      pose proof (slot_apart (hw_prod s) (Z.of_nat k) (Z.of_nat (length cs)) ltac:(lia) Hlen) as Ha.
      fold dst in Ha. unfold disjoint_rng in Ha.
      f_equal; apply (only_at_load _ 8 _ _ _ Ho); intros b Hb; lia.
Qed.

Lemma build_cmd op c : (op, c) ∈ [(CMDQ_OP_CFGI_ALL, CFGI_ALL); (CMDQ_OP_TLBI_EL2_ALL, TLBI_EL2_ALL);
    (CMDQ_OP_TLBI_NSNH_ALL, TLBI_NSNH_ALL); (CMDQ_OP_CMD_SYNC, CMD_SYNC)] ->
  exists c0 c1, smmu_cmdq_build_cmd op = Some (c0, c1) /\ 0 <= c0 < 2 ^ 64 /\ 0 <= c1 < 2 ^ 64 /\
    decode_cmd c0 c1 = Some c.
Proof.
  intros Hin. repeat (apply list.elem_of_cons in Hin as [[= -> ->]|Hin];
    [do 2 eexists; split; [reflexivity|]; by vm_compute|]).
  by apply list.not_elem_of_nil in Hin.
Qed.

Lemma wp_push op c cs fuel s s1 (Q : Z -> sst D H -> Prop) : (0 < fuel)%nat -> is_dev i d s ->
  pushed cs s s1 -> Z.of_nat (length cs) < 2 ^ l ->
  (op, c) ∈ [(CMDQ_OP_CFGI_ALL, CFGI_ALL); (CMDQ_OP_TLBI_EL2_ALL, TLBI_EL2_ALL);
    (CMDQ_OP_TLBI_NSNH_ALL, TLBI_NSNH_ALL); (CMDQ_OP_CMD_SYNC, CMD_SYNC)] ->
  (forall r s', pushed (cs ++ [c]) s s' -> Q r s') -> wp (smmu_cmdq_issue_cmd fuel i op) Q s1.
Proof.
  intros Hf Hi Hp Hl Hop HQ. destruct (build_cmd op c Hop) as (c0 & c1 & E & H0 & H1 & Hd).
  unfold smmu_cmdq_issue_cmd. rewrite E.
  eapply wp_mono; [|by apply (push_cmd fuel c0 c1 c cs s s1)]. intros r s' [_ Hp']. by apply HQ.
Qed.

Lemma pushed_look cs s s1 s2 : pushed cs s s1 -> looked s1 s2 -> pushed cs s s2.
Proof.
  intros (? & ? & ? & Hm & Hp & Hc) (? & ? & ? & Em & Ep).
  split_and!; [congruence..| | |]; rewrite ?Em, ?Ep; done.
Qed.
Lemma pushed_dev cs s s1 : is_dev i d s -> pushed cs s s1 -> is_dev i d s1.
Proof. intros Hi (Hv & _). unfold is_dev. by rewrite Hv. Qed.

(** The poll of the consumer index ends and only looks. *)
Lemma poll_looks fuel prod timeout cns s : 0 <= timeout -> (Z.to_nat timeout < fuel)%nat ->
  wp (loop fuel (poll_turn (cmdq d) prod) (timeout, cns)) (fun _ s' => looked s s') s.
Proof.
  intros Ht Hf.
  apply (wp_loop (fun (n : nat) (x : Z * Z) s' => 0 <= fst x /\ n = Z.to_nat (fst x) /\ looked s s')
    (poll_turn (cmdq d) prod) (fun _ s' => looked s s')) with (n := Z.to_nat timeout);
    [|done|split_and!; [cbn; lia|done|split_and!; done]].
  clear fuel Hf Ht. intros n [t c] s1 (Ht & -> & Hl). cbn [fst] in *. unfold poll_turn.
  destruct (Z.ltb_spec 0 t); [|by apply wp_ret].
  destruct (smmu_queue_empty _); [by apply wp_ret|].
  apply wp_bind, wp_look. intros v s2 Hl2. apply wp_ret.
  exists (Z.to_nat (t - 1)). cbn [fst]. split; [lia|]. split; [lia|]. split; [done|].
  by eapply looked_trans.
Qed.
Lemma poll_until_looks fuel s : is_dev i d s -> (Z.to_nat 0x100000 < fuel)%nat ->
  wp (smmu_cmdq_poll_until_consumed fuel i) (fun _ s' => looked s s') s.
Proof.
  intros Hi Hf. unfold smmu_cmdq_poll_until_consumed. apply wp_bind, (wp_dev_at i d); [done|].
  apply wp_bind, wp_look. intros prod s1 L1. apply wp_bind, wp_look. intros cns s2 L2.
  pose proof (looked_trans _ _ _ L1 L2) as L12.
  apply wp_bind. eapply wp_mono; [|by apply poll_looks]. intros timeout s3 L3.
  pose proof (looked_trans _ _ _ L12 L3) as L13. destruct (timeout =? 0); [|by apply wp_ret].
  apply wp_bind, wp_look. intros ? s4 L4. apply wp_bind, wp_look. intros ? s5 L5.
  apply wp_bind, wp_look. intros ? s6 L6. apply wp_ret.
  exact (looked_trans _ _ _ L13 (looked_trans _ _ _ L4 (looked_trans _ _ _ L5 L6))).
Qed.

(** The commands of an invalidation. *)
Definition flush : list smmu_cmd :=
  [CFGI_ALL] ++ (if hyp (v_supported d) then [TLBI_EL2_ALL] else []) ++ [TLBI_NSNH_ALL; CMD_SYNC].
Lemma tlbi_cfgi_flushes fuel s : is_dev i d s -> (Z.to_nat 0x100000 < fuel)%nat ->
  wp (smmu_tlbi_cfgi fuel i) (fun _ s' => pushed flush s s') s.
Proof.
  intros Hi Hf. assert (4 <= 2 ^ l) as H4.
  { pose proof Hq as (_ & Hl & _). apply (Z.pow_le_mono_r 2 2 l); subst l; lia. }
  assert (0 < fuel)%nat by lia. unfold smmu_tlbi_cfgi.
  apply wp_bind, (wp_push _ CFGI_ALL [] _ s s); [done|done|apply pushed_refl|cbn; lia|apply list_elem_of_In; cbn; tauto|].
  intros ? s1 H1. apply wp_bind, (wp_dev_at i d); [eapply pushed_dev; eassumption|]. apply wp_bind.
  eapply (wp_mono _ (fun _ s2 =>
    pushed ([CFGI_ALL] ++ if hyp (v_supported d) then [TLBI_EL2_ALL] else []) s s2)).
  2:{ destruct (hyp (v_supported d)); [|by apply wp_ret].
      apply wp_bind, (wp_push _ TLBI_EL2_ALL [CFGI_ALL] _ s s1); 
        [done|done|done|cbn; lia|apply list_elem_of_In; cbn; tauto|]. intros ? s2 H2. by apply wp_ret. }
  intros ? s2 H2. cbn beta in H2.
  eapply wp_bind, (wp_push _ TLBI_NSNH_ALL); 
    [done|done|done|destruct (hyp _); cbn; lia|apply list_elem_of_In; cbn; tauto|].
  intros ? s3 H3. eapply wp_bind, (wp_push _ CMD_SYNC); 
    [done|done|done|destruct (hyp _); cbn; lia|apply list_elem_of_In; cbn; tauto|].
  intros ? s4 H4'.
  eapply wp_mono; [|apply (poll_until_looks fuel s4); [eapply pushed_dev; eassumption|done]].
  intros ? s5 H5. eapply pushed_look; [|exact H5].
  unfold flush. by rewrite <- !app_assoc in H4'.
Qed.
End device.

(** ** Stream table entries *)

Lemma decode_ext m m' a : only_at (fun b => b < a \/ a + 32 <= b) m m' ->
  decode_ste m' a = decode_ste m a.
Proof.
  intros Hm. unfold decode_ste.
  assert (forall o, 0 <= o <= 24 -> load 8 m' (a + o) = load 8 m (a + o)) as E.
  { intros o Ho. apply (only_at_load _ 8 _ _ _ Hm). cbn beta. lia. }
  pose proof (E 0 ltac:(lia)) as E0. rewrite !Z.add_0_r in E0. rewrite E0, !E by lia. done.
Qed.

(** The attributes fit in the fields of the entry. *)
Definition s2_fits (t : pgt_descriptor_t) (sl : Z) : Prop :=
  let c := pd_tcr (pgt t) in
  0 <= pd_base (pgt t) < 2 ^ 48 /\ 0 <= sl < 4 /\ 0 <= t_tsz c < 64 /\ 0 <= t_irgn c < 4 /\
  0 <= t_orgn c < 4 /\ 0 <= t_sh c < 4 /\ 0 <= t_tg c < 4 /\ 0 <= t_ps c < 8.
Definition s2_of (t : pgt_descriptor_t) (sl : Z) : s2_translation :=
  let c := pd_tcr (pgt t) in
  mk_s2t 0 (pd_base (pgt t)) (t_tsz c) sl (t_irgn c) (t_orgn c) (t_sh c) (t_tg c) (t_ps c).

Lemma bf_set_fits msb lsb v : 0 <= lsb <= msb -> 0 <= v < 2 ^ (msb - lsb + 1) ->
  bf_set msb lsb v = v << lsb.
Proof.
  intros Hl Hv. unfold bf_set, bf_mask. by rewrite shl1_sub1, Z.land_ones, Z.mod_small by lia.
Qed.
Lemma s2_vtcr_fits t sl : s2_fits t sl -> s2_vtcr (pd_tcr (pgt t)) sl =
  let c := pd_tcr (pgt t) in
  t_tsz c .| (sl << 6) .| (t_irgn c << 8) .| (t_orgn c << 10) .| (t_sh c << 12) .|
  (t_tg c << 14) .| (t_ps c << 16).
Proof.
  intros (Hb & Hs & H1 & H2 & H3 & H4 & H5 & H6). unfold s2_vtcr.
  rewrite !bf_set_fits by (cbn; lia). by rewrite Z.shiftl_0_r.
Qed.
Lemma s2_vtcr_range c sl : 0 <= s2_vtcr c sl < 2 ^ 19.
Proof.
  assert (0 <= s2_vtcr c sl) as H0.
  { unfold s2_vtcr, bf_set. rewrite !Z.lor_nonneg, !Z.shiftl_nonneg.
    repeat apply conj; apply Z.land_nonneg; right; vm_compute; discriminate. }
  split; [done|]. apply bits_lt; [lia|done|]. intros k Hk. unfold s2_vtcr.
  rewrite !Z.lor_spec, !testbit_bf_set by lia.
  repeat match goal with |- context [(?x <=? ?y)%Z] =>
    first [replace (x <=? y) with true by lia | replace (x <=? y) with false by lia] end.
  done.
Qed.
Lemma s2_word_vtcr k n vt : 0 <= k -> 0 <= n -> k + n <= 19 -> 0 <= vt < 2 ^ 19 ->
  fld (32 + k) n (s2_word 0 vt) = fld k n vt.
Proof.
  intros. apply Z.bits_inj'. intros j Hj. rewrite !testbit_fld, testbit_s2_word by lia.
  destruct (Z.ltb_spec j n); [|by rewrite !andb_false_r].
  replace (j + (32 + k) <=? 15) with false by lia. replace (32 <=? j + (32 + k)) with true by lia.
  replace (j + (32 + k) <=? 50) with true by lia.
  replace (j + (32 + k) =? 54) with false by lia. replace (j + (32 + k) =? 51) with false by lia.
  replace (j + (32 + k) =? 58) with false by lia. cbn [andb orb].
  rewrite !orb_false_r. do 2 f_equal. lia.
Qed.

Lemma fld_shl_out l n k x : 0 <= k <= l -> 0 <= n -> 0 <= x < 2 ^ (l - k) -> fld l n (x << k) = 0.
Proof.
  intros. apply fld_high; [lia..|]. rewrite Z.shiftl_mul_pow2 by lia.
  replace l with ((l - k) + k) by lia. rewrite Z.pow_add_r by lia.
  pose proof (Z.pow_pos_nonneg 2 k). nia.
Qed.
(** Evaluates a field of an or of shifted fields. *)
Ltac packed :=
  rewrite ?fld_lor by lia;
  repeat match goal with |- context [fld ?l ?n (?x << ?k)] =>
    first [rewrite (fld_shl_low l n k x) by lia | rewrite (fld_shl_out l n k x) by (cbn; lia)
          |rewrite (fld_shl l n x) by lia] end;
  rewrite ?fld_high by (cbn; lia); rewrite ?fld0_small by (cbn; lia);
  rewrite ?Z.lor_0_l, ?Z.lor_0_r.

(** The entry that [smmu_strtab_write_ste] makes for a stage 2 master. *)
Lemma write_ste_decodes m ste t sl w1 : s2_fits t sl ->
  let vt := s2_vtcr (pd_tcr (pgt t)) sl in
  decode_ste (store 8 (store 8 (store 8 (store 8 m (ste + 8) w1) (ste + 16) (s2_word 0 vt))
    (ste + 24) (pd_base (pgt t) .& bf_mask 51 4)) ste 13) ste = STE_s2 (s2_of t sl).
Proof.
  intros Hfit vt. pose proof (s2_vtcr_range (pd_tcr (pgt t)) sl) as Hvt. fold vt in Hvt.
  unfold decode_ste. rewrite (load_store_eq' 8) by (cbn; lia).
  change (fld 0 1 13 =? 0) with false. change (fld 1 3 13 =? 6) with true. cbv iota.
  rewrite !(load_store_ne 8 8 _ ste) by (unfold disjoint_rng; lia).
  rewrite (load_store_ne 8 8 _ (ste + 24) (ste + 16)) by (unfold disjoint_rng; lia).
  rewrite !(load_store_eq' 8) by apply s2_word_range.
  change (bf_mask 51 4) with (Z.ones 48). pose proof Hfit as (Hb & Hs & H1 & H2 & H3 & H4 & H5 & H6).
  rewrite Z.land_ones, (Z.mod_small (pd_base (pgt t))) by lia.
  rewrite (load_store_eq' 8) by (cbn; lia).
  unfold s2_of. f_equal. rewrite (proj1 (s2_word_fields 0 vt ltac:(lia) Hvt)).
  rewrite (s2_word_vtcr 0 6), (s2_word_vtcr 6 2), (s2_word_vtcr 8 2), (s2_word_vtcr 10 2),
    (s2_word_vtcr 12 2), (s2_word_vtcr 14 2), (s2_word_vtcr 16 3) by lia.
  unfold vt. rewrite s2_vtcr_fits by done. cbv zeta.
  f_equal; by packed.
Qed.

(** ** Masters *)

(** The list of masters is well formed; the allocator has room for one more. *)
Definition masters_ok s : Prop :=
  Forall (fun '(_, mp) => mp <> 0 /\ is_Some (vmasters (s_vars s) !! mp)) (vmaster_list (s_vars s)).
Definition heap_ok s : Prop :=
  let '(n, h) := heap_malloc sizeof_master_node (s_heap s) in
  n <> 0 /\ fst (heap_calloc 1 sizeof_smmu_master h) <> 0.

(** [s'] differs from [s] in the heap and the masters. *)
Definition other s s' : Prop :=
  s_pci s' = s_pci s /\ s_mem s' = s_mem s /\ s_iov s' = s_iov s /\
  vg_smmu (s_vars s') = vg_smmu (s_vars s).
Lemma other_dev i d s s' : other s s' -> is_dev i d s -> is_dev i d s'.
Proof. intros (_ & _ & _ & E). unfold is_dev. by rewrite E. Qed.
Lemma other_trans s1 s2 s3 : other s1 s2 -> other s2 s3 -> other s1 s3.
Proof. unfold other. intuition congruence. Qed.

Lemma wp_find sid nodes (Q : option Z -> sst D H -> Prop) s :
  Forall (fun '(_, mp) => mp <> 0 /\ is_Some (vmasters (s_vars s) !! mp)) nodes ->
  (forall mp m, mp <> 0 -> vmasters (s_vars s) !! mp = Some m -> m_sid m = sid -> Q (Some mp) s) ->
  Q None s -> wp (find_master sid nodes) Q s.
Proof.
  intros Hn HS HN. induction Hn as [|[a mp] nodes [H0 [m Hm]] _ IH]; cbn [find_master].
  { by apply wp_ret. }
  apply wp_bind. unfold master_get, vars. apply wp_bind, wp_gets. rewrite Hm. apply wp_ret.
  destruct (Z.eqb_spec (m_sid m) sid); [|done]. apply wp_ret. eauto.
Qed.

Lemma wp_master_at sid (Q : Z -> sst D H -> Prop) s : masters_ok s -> heap_ok s ->
  (forall mp m s', mp <> 0 -> other s s' -> vmasters (s_vars s') !! mp = Some m ->
     m_sid m = sid \/ m_smmu m = None -> Q mp s') ->
  wp (smmu_master_at sid) Q s.
Proof.
  intros Hm Hh HQ. unfold smmu_master_at, vars. apply wp_bind, wp_gets, wp_bind.
  apply wp_find; [exact Hm| |].
  { intros mp m H0 E Hs. apply wp_ret. eapply HQ; eauto. by split_and!. }
  unfold heap_ok in Hh.
  destruct (heap_malloc sizeof_master_node (s_heap s)) as [n h1] eqn:E1.
  destruct Hh as [Hn Hc].
  destruct (heap_calloc 1 sizeof_smmu_master h1) as [mp h2] eqn:E2. cbn [fst] in Hc.
  apply wp_bind. unfold val_memory_alloc, heap_op, wp.
  change (u32 sizeof_master_node) with sizeof_master_node. rewrite E1.
  destruct (Z.eqb_spec n 0) as [->|_]; [done|].
  unfold bind at 1. unfold val_memory_calloc, heap_op. change (u32 1) with 1.
  change (u32 sizeof_smmu_master) with sizeof_smmu_master. cbn [s_heap]. rewrite E2.
  destruct (Z.eqb_spec mp 0) as [->|_]; [done|].
  cbn. apply (HQ mp zero_master); [done|by split_and!| |by right].
  cbn. apply lookup_insert_eq.
Qed.

Lemma wp_master_get mp m (Q : smmu_master -> sst D H -> Prop) s :
  vmasters (s_vars s) !! mp = Some m -> Q m s -> wp (master_get mp) Q s.
Proof.
  intros E HQ. unfold master_get, vars. apply wp_bind, wp_gets. rewrite E. by apply wp_ret.
Qed.
Lemma wp_master_upd mp m f (Q : unit -> sst D H -> Prop) s :
  vmasters (s_vars s) !! mp = Some m ->
  (forall s', other s s' -> vmasters (s_vars s') !! mp = Some (f m) -> Q tt s') ->
  wp (master_upd mp f) Q s.
Proof.
  intros E HQ. unfold master_upd, upd_vars. apply wp_modify, HQ; [by split_and!|].
  cbn. by rewrite lookup_alter_eq, E.
Qed.

(** ** Map and unmap *)

(** A linear stream table next to the command queue. *)
Definition table (d : smmu_dev_t) : Z := strtab64 (v_strtab_cfg d).
Definition table_ok (d : smmu_dev_t) : Prop :=
  st_level_2lvl (v_supported d) = false /\ 0 <= sid_bits d <= 24 /\ 0 <= table d /\
  table d + 64 * 2 ^ sid_bits d <= 2 ^ 64 /\
  (forall b, table d <= b < table d + 64 * 2 ^ sid_bits d -> ~ in_queue d b).
(** What the SMMU makes of a stream. *)
Definition stream (m : mem) (d : smmu_dev_t) (sid : Z) : ste_view :=
  decode_ste m (table d + 64 * sid).
(** The commands that [s'] has in the queue behind those of [s]. *)
Definition commands (d : smmu_dev_t) (n : nat) (p : Z) (m : mem) : list (option smmu_cmd) :=
  queue_cmds m (q_base (cmdq d)) (log2nent (queue (cmdq d))) p n.

Lemma pushed_commands d (PR : ProdReg D (prod_reg (cmdq d))) cs s s' : pushed d cs s s' ->
  commands d (length cs) (hw_prod d s) (s_mem s') = map Some cs.
Proof.
  intros (_ & _ & _ & _ & _ & Hc). unfold commands, queue_cmds.
  apply list.list_eq. intros k. rewrite !list.list_lookup_fmap.
  destruct (cs !! k) as [c|] eqn:E; cbn.
  - pose proof (list.lookup_lt_Some _ _ _ E) as Hk.
    rewrite list.lookup_seq_lt by done. cbn. by rewrite (Hc k c E).
  - apply list.lookup_ge_None in E. by rewrite list.lookup_seq_ge.
Qed.

(** Writing 32 bytes into the entry of [sid] and then commands into the queue
    leaves the other entries as they were and the commands where they are. *)
Lemma stream_frame d (m m1 m2 : mem) sid sid' : table_ok d ->
  0 <= sid < 2 ^ sid_bits d -> 0 <= sid' < 2 ^ sid_bits d ->
  only_at (fun b => table d + 64 * sid <= b < table d + 64 * sid + 32) m m1 ->
  only_at (in_queue d) m1 m2 ->
  stream m2 d sid' = if sid' =? sid then stream m1 d sid else stream m d sid'.
Proof.
  intros (_ & Hb & HT & HT' & Hdis) Hs Hs' H1 H2. unfold stream.
  transitivity (decode_ste m1 (table d + 64 * sid')).
  - apply decode_ext. eapply only_at_mono; [|exact H2]. intros b Hin.
    destruct (Z.le_gt_cases (table d + 64 * sid' + 32) b); [by right|].
    destruct (Z.lt_ge_cases b (table d + 64 * sid')); [by left|]. exfalso.
    apply (Hdis b); [lia|done].
  - destruct (Z.eqb_spec sid' sid) as [->|Hne]; [done|]. apply decode_ext.
    eapply only_at_mono; [|exact H1]. cbn beta. intros b Hin. lia.
Qed.

Lemma strtab_entry d sid : table_ok d -> 0 <= sid < 2 ^ sid_bits d ->
  u64 (table d + 8 * u32 (sid * STRTAB_STE_DWORDS)) = table d + 64 * sid.
Proof.
  intros (_ & Hb & HT & HT' & _) Hs. unfold STRTAB_STE_DWORDS.
  pose proof (Z.pow_le_mono_r 2 (sid_bits d) 24 ltac:(lia) ltac:(lia)).
  unfold u32. rewrite wrap_small by lia. unfold u64. rewrite wrap_small; lia.
Qed.

(** The end of [val_smmu_map]: the entry is written, then the caches are flushed. *)
Lemma install_s2 fuel i d (PR : ProdReg D (prod_reg (cmdq d))) m sid t sl s s4 :
  other s s4 -> is_dev i d s -> queue_ready d -> table_ok d -> 0 <= sid < 2 ^ sid_bits d ->
  s2_fits t sl -> (Z.to_nat 0x100000 < fuel)%nat -> stage m = SMMU_STAGE_S2 ->
  stage2 m = mk_s2 0 (pd_base (pgt t)) (s2_vtcr (pd_tcr (pgt t)) sl) ->
  wp (smmu_strtab_write_ste (Some m) (table d + 64 * sid) ;; smmu_tlbi_cfgi fuel i ;; ret 0)
    (fun r s' => r = 0 /\
      (forall sid', 0 <= sid' < 2 ^ sid_bits d -> stream (s_mem s') d sid' =
         if sid' =? sid then STE_s2 (s2_of t sl) else stream (s_mem s) d sid') /\
      commands d (length (flush d)) (hw_prod d s) (s_mem s') = map Some (flush d) /\
      only_at (fun b => table d + 64 * sid <= b < table d + 64 * sid + 32 \/
                        in_queue d b) (s_mem s) (s_mem s')) s4.
Proof.
  intros (Op & Om & Oi & Ov) Hi Hq Ht Hsid Hfit Hf Hst2 Hs2. set (ste := table d + 64 * sid).
  apply wp_bind. unfold smmu_strtab_write_ste. rewrite Hst2, Hs2. cbn [vmid vtcr vttbr].
  apply wp_bind, wp_gets. do 3 apply wp_bind, wp_modify. apply wp_modify.
  match goal with |- wp _ _ ?x => set (s5 := x) end.
  assert (only_at (fun b => ste <= b < ste + 32) (s_mem s) (s_mem s5)) as Hm5.
  { subst s5. cbn [s_mem]. rewrite <- Om.
    repeat (etransitivity; [|apply only_at_store; intros; lia]). done. }
  assert (stream (s_mem s5) d sid = STE_s2 (s2_of t sl)) as Hst by
    exact (write_ste_decodes _ _ t sl _ Hfit).
  apply wp_bind. eapply wp_mono; [|apply (tlbi_cfgi_flushes i d Hq fuel s5); [|done]].
  2:{ unfold is_dev. cbn. rewrite Ov. exact Hi. }
  intros [] s6 Hp. apply wp_ret.
  assert (hw_prod d s5 = hw_prod d s) as Ehp by (unfold hw_prod; cbn; by rewrite Op).
  pose proof (pushed_commands d PR _ _ _ Hp) as Hcmd. rewrite Ehp in Hcmd.
  destruct Hp as (_ & _ & _ & Hm6 & _). split; [done|]. split.
  { intros sid' Hr. rewrite (stream_frame d (s_mem s) (s_mem s5) (s_mem s6) sid sid') by done.
    by rewrite Hst. }
  split; [exact Hcmd|]. transitivity (s_mem s5); (eapply only_at_mono; [|eassumption]); auto.
Qed.

(** C8. [val_smmu_map] of a stream for stage 2 on an SMMU with a linear stream
    table: with a descriptor whose fields fit, a stream ID in range and room in
    the heap it returns 0; the SMMU then translates that stream with VMID 0 and
    the descriptor's table and attributes, and reads every other entry as
    before; the commands that it finds behind the old producer index are the
    invalidations of the configuration and the TLBs followed by CMD_SYNC; and
    nothing else of memory changes. *)
Theorem val_smmu_map_s2 fuel i d (PR : ProdReg D (prod_reg (cmdq d))) a t sl s :
  is_dev i d s -> queue_ready d -> table_ok d -> base d <> 0 ->
  smmu_index a = Z.of_nat i -> smmu_index a < g_num_smmus (s_iov s) ->
  s2p (v_supported d) = true -> attr_stage2 a <> 0 -> 0 <= streamid a < 2 ^ sid_bits d ->
  tcr_sl t = Some sl -> s2_fits t sl -> masters_ok s -> heap_ok s ->
  (Z.to_nat 0x100000 < fuel)%nat ->
  wp (val_smmu_map fuel a t) (fun r s' => r = 0 /\
    (forall sid, 0 <= sid < 2 ^ sid_bits d -> stream (s_mem s') d sid =
       if sid =? streamid a then STE_s2 (s2_of t sl) else stream (s_mem s) d sid) /\
    commands d (length (flush d)) (hw_prod d s) (s_mem s') = map Some (flush d) /\
    only_at (fun b => table d + 64 * streamid a <= b < table d + 64 * streamid a + 32 \/
                      in_queue d b) (s_mem s) (s_mem s')) s.
Proof.
  intros Hi Hq Ht Hb Hx Hn Hs2 Ha Hsid Hsl Hfit Hm Hh Hf. unfold val_smmu_map.
  pose proof Hi as (ll & Hll & _). unfold vars at 1. apply wp_bind, wp_gets. rewrite Hll.
  apply wp_bind. unfold iovirt. apply wp_zoom, wp_gets.
  destruct (Z.leb_spec (g_num_smmus (s_iov s)) (smmu_index a)); [lia|].
  rewrite Hx, Nat2Z.id. apply wp_bind, (wp_dev_at i d); [exact Hi|].
  destruct (Z.eqb_spec (base d) 0); [done|].
  apply wp_bind, wp_master_at; [done..|]. intros mp m s1 Hmp O1 E1 Hown.
  destruct (Z.eqb_spec mp 0); [done|].
  apply wp_bind, (wp_master_get mp m); [exact E1|]. apply wp_bind.
  eapply (wp_mono _ (fun _ s2 => other s s2 /\
    exists m2, vmasters (s_vars s2) !! mp = Some m2 /\ m_sid m2 = streamid a)).
  2:{ destruct (m_smmu m) as [j|] eqn:Ej.
      - destruct Hown as [Hsm|]; [|done]. apply wp_ret. eauto.
      - apply (wp_master_upd mp m); [exact E1|]. intros s2 O2 E2.
        split; [by eapply other_trans|]. by eexists. }
  intros _ s2 (O2 & m2 & E2 & Hsm2). apply wp_bind. unfold choose_stage, truthy.
  destruct (Z.eqb_spec (attr_stage2 a) 0); [done|]. rewrite Hs2. cbn [negb].
  apply wp_bind, (wp_master_upd mp m2); [exact E2|]. intros s3 O3 E3.
  pose proof (other_trans _ _ _ O2 O3) as O13. apply wp_ret. cbn [negb].
  rewrite Z.shiftl_1_l. destruct (Z.leb_spec (2 ^ sid_bits d) (streamid a)); [lia|].
  apply wp_bind, (wp_master_get mp _ _ _ E3). apply wp_bind.
  rewrite (proj1 Ht). apply wp_ret. cbn [Z.eqb].
  rewrite bool_decide_eq_true_2 by done. apply wp_bind, wp_bind.
  unfold fill_stage2. apply wp_bind. rewrite Hsl. apply wp_ret.
  apply (wp_master_upd mp _ _ _ _ E3). intros s4 O4 E4.
  pose proof (other_trans _ _ _ O13 O4) as O14. apply wp_ret. cbn [negb].
  apply wp_bind, (wp_master_get mp _ _ _ E4). cbn [m_sid with_stage2 with_stage]. rewrite Hsm2.
  unfold smmu_strtab_get_ste_for_sid.
  apply wp_bind, wp_bind, (wp_dev_at i d); [by eapply other_dev|]. rewrite (proj1 Ht). cbn [negb].
  apply wp_ret. fold (table d). rewrite strtab_entry by done.
  by apply (install_s2 fuel i d PR _ (streamid a) t sl s s4).
Qed.

(** The stream has a master that [i] owns, and whose context descriptors, if
    any, are in one table. *)
Definition mapped (i : nat) (sid mp : Z) s : Prop :=
  find_master sid (vmaster_list (s_vars s)) s = Done (Some mp) s /\ mp <> 0 /\
  exists m, vmasters (s_vars s) !! mp = Some m /\ m_smmu m = Some i /\
    0 <= s1cdmax (stage1 m) <= 10.

Lemma cdtab_free_other i d mp m (Q : unit -> sst D H -> Prop) s :
  is_dev i d s -> vmasters (s_vars s) !! mp = Some m -> m_smmu m = Some i ->
  0 <= s1cdmax (stage1 m) <= 10 -> (forall s', other s s' -> Q tt s') -> wp (smmu_cdtab_free mp) Q s.
Proof.
  intros Hi Hm Ho Hc HQ. unfold smmu_cdtab_free. apply wp_bind, (wp_master_get mp m); [exact Hm|].
  apply wp_bind, wp_require; [lia|]. apply wp_bind. unfold master_cd2l.
  apply wp_bind. rewrite Ho. apply wp_ret, wp_bind, (wp_dev_at i d); [exact Hi|]. apply wp_ret.
  assert ((CDTAB_L2_ENTRY_COUNT <? (1 << s1cdmax (stage1 m))) = false) as ->.
  { rewrite Z.shiftl_1_l. apply Z.ltb_ge.
    exact (Z.pow_le_mono_r 2 (s1cdmax (stage1 m)) 10 ltac:(lia) ltac:(lia)). }
  rewrite andb_false_r. apply wp_bind, wp_ret, wp_bind.
  eapply wp_intro; [reflexivity|]. apply wp_modify, HQ. by split_and!.
Qed.

(** C37. [val_smmu_unmap] of a mapped stream on an SMMU with a linear stream
    table: the SMMU then aborts that stream and reads every other entry as
    before, is told to forget configuration and translations, and the
    stream's master is cleared for the next one. *)
Theorem val_smmu_unmap_aborts fuel i d (PR : ProdReg D (prod_reg (cmdq d))) a mp s :
  is_dev i d s -> queue_ready d -> table_ok d -> mapped i (streamid a) mp s ->
  0 <= streamid a < 2 ^ sid_bits d -> (Z.to_nat 0x100000 < fuel)%nat ->
  wp (val_smmu_unmap fuel a) (fun _ s' =>
    (forall sid, 0 <= sid < 2 ^ sid_bits d -> stream (s_mem s') d sid =
       if sid =? streamid a then STE_abort else stream (s_mem s) d sid) /\
    commands d (length (flush d)) (hw_prod d s) (s_mem s') = map Some (flush d) /\
    vmasters (s_vars s') !! mp = Some zero_master) s.
Proof.
  intros Hi Hq Ht (Hfind & Hmp & m & Hm & Ho & Hc) Hsid Hf. unfold val_smmu_unmap.
  apply wp_bind. unfold smmu_master_at, vars. apply wp_bind, wp_gets, wp_bind.
  eapply wp_intro; [exact Hfind|]. apply wp_ret. destruct (Z.eqb_spec mp 0); [done|].
  apply wp_bind, (wp_master_get mp m); [exact Hm|]. rewrite Ho.
  apply wp_bind, (wp_dev_at i d); [exact Hi|].
  rewrite Z.shiftl_1_l. destruct (Z.leb_spec (2 ^ sid_bits d) (streamid a)); [lia|].
  fold (table d). rewrite strtab_entry by done. set (ste := table d + 64 * streamid a).
  apply wp_bind. unfold smmu_strtab_write_ste, write_abort_ste.
  do 2 apply wp_bind, wp_modify. apply wp_modify.
  match goal with |- wp _ _ ?x => set (s1 := x) end.
  assert (only_at (fun b => ste <= b < ste + 32) (s_mem s) (s_mem s1)) as Hm1.
  { subst s1. cbn [s_mem]. repeat (etransitivity; [|apply only_at_store; intros; lia]). done. }
  assert (stream (s_mem s1) d (streamid a) = STE_abort) as Hst.
  { unfold stream, decode_ste. fold ste. subst s1. cbn [s_mem].
    rewrite !(load_store_ne 8 8 _ _ ste) by (unfold disjoint_rng; lia).
    change (STRTAB_STE_0_V .| bf_set 3 1 STRTAB_STE_0_CONFIG_ABORT) with 1.
    rewrite (load_store_eq' 8) by (cbn; lia). done. }
  apply wp_bind, (cdtab_free_other i d mp m); [done..|]. intros s2 (Op & Om & Oi & Ov).
  apply wp_bind. eapply wp_mono; [|apply (tlbi_cfgi_flushes i d Hq fuel s2); [|done]].
  2:{ unfold is_dev. rewrite Ov. exact Hi. }
  intros [] s3 Hp. apply wp_modify. cbn [s_mem s_vars].
  assert (hw_prod d s2 = hw_prod d s) as Ehp by (unfold hw_prod; by rewrite Op).
  pose proof (pushed_commands d PR _ _ _ Hp) as Hcmd. rewrite Ehp in Hcmd.
  destruct Hp as (_ & _ & _ & Hm3 & _). rewrite Om in Hm3. split; [|split; [exact Hcmd|]].
  - intros sid Hr. rewrite (stream_frame d (s_mem s) (s_mem s1) (s_mem s3) (streamid a) sid) by done.
    by rewrite Hst.
  - cbn. apply lookup_insert_eq.
Qed.
End driver.

(** ** An SMMU with 256 streams and a command queue of 256 entries

    The device keeps its producer index; the heap hands out rising addresses. *)
Definition prod_hw : Hw Z :=
  {| hw_read _ p _ := (p mod 2 ^ 20, p);
     hw_write _ p a v := if a =? 0x2b400098 then v else p;
     hw_at_s1e3w _ _ _ := 0 |}.
#[export] Instance demo_prod : @ProdReg Z prod_hw 0x2b400098.
Proof.
  refine {| prod_of p := p mod 2 ^ 20 |}; intros; cbn; try done.
  - by apply Z.mod_pos_bound.
  - by apply Z.mod_small.
Defined.
Definition rising : SmmuHeap Z :=
  {| heap_malloc n a := (a, a + n); heap_calloc n m a := (a, a + n * m);
     heap_free _ a := a; heap_virt_to_phys a := a |}.
Definition val_demo_dev : smmu_dev_t :=
  mk_dev 0x2b400000 48 48 0 8 demo_queue (mk_strtab 0 0x880410000 0x880410000 0 0 0 0)
    (mk_supp false false true true true).
Definition val_demo (masters : list (Z * Z)) (m : gmap Z smmu_master) : sst Z Z :=
  mk_sst (mk_pst 0 None None 0 []) ∅ 0x880500000
    (mk_iov ∅ (mk_iovirt_table 0 0 0 0 0 0) 0 1) (mk_vars (Some [val_demo_dev]) 0 ∅ ∅ masters m).
Definition demo_attributes : smmu_master_attributes_t := mk_attributes 0 5 0 0 1.
Definition demo_descriptor : pgt_descriptor_t :=
  mk_pgtd (mk_pd 0x880010000 48 48 0 2 (mk_pe_tcr 5 0 3 1 1 16 12)) (Some 2).

Lemma val_demo_dev_ok : queue_ready val_demo_dev /\ table_ok val_demo_dev.
Proof.
  split; [split_and!; try reflexivity; cbn; lia|].
  split_and!; try reflexivity; try (cbn; lia). intros b Hb. unfold in_queue, table in *. cbn in *. lia.
Qed.

Lemma val_smmu_map_s2_witness :
  wp (val_smmu_map (HW := prod_hw) (HP := rising) (S (Z.to_nat 0x100000)) demo_attributes
        demo_descriptor)
    (fun r s' => r = 0 /\
       stream (s_mem s') val_demo_dev 5 = STE_s2 (mk_s2t 0 0x880010000 16 2 1 1 3 0 5) /\
       commands val_demo_dev 4 0 (s_mem s') =
         map Some [CFGI_ALL; TLBI_EL2_ALL; TLBI_NSNH_ALL; CMD_SYNC]) (val_demo [] ∅).
Proof.
  eapply wp_mono; [|apply (val_smmu_map_s2 (HW := prod_hw) (HP := rising) _ 0 val_demo_dev demo_prod
    demo_attributes demo_descriptor 2);
    [by exists [val_demo_dev]|apply val_demo_dev_ok|apply val_demo_dev_ok|done|done|done|done|done
    |cbn; lia|done|unfold s2_fits; cbn; lia|by constructor|done|apply Nat.lt_succ_diag_r]].
  intros r s' (Hr & Hs & Hc & _). split; [exact Hr|]. split; [|exact Hc].
  exact (Hs 5 ltac:(cbn; lia)).
Defined.

Lemma val_smmu_unmap_aborts_witness :
  wp (val_smmu_unmap (HW := prod_hw) (HP := rising) (S (Z.to_nat 0x100000)) demo_attributes)
    (fun _ s' => stream (s_mem s') val_demo_dev 5 = STE_abort /\
       vmasters (s_vars s') !! 0x880500010 = Some zero_master)
    (val_demo [(0x880500000, 0x880500010)]
       {[0x880500010 := with_owner 0 5 0 (with_stage SMMU_STAGE_S2 zero_master)]}).
Proof.
  eapply wp_mono; [|apply (val_smmu_unmap_aborts (HW := prod_hw) (HP := rising) _ 0 val_demo_dev
    demo_prod demo_attributes 0x880500010);
    [by exists [val_demo_dev]|apply val_demo_dev_ok|apply val_demo_dev_ok| |cbn; lia
    |apply Nat.lt_succ_diag_r]].
  - intros r s' (Hs & _ & Hm). split; [|exact Hm]. exact (Hs 5 ltac:(cbn; lia)).
  - split; [vm_compute; reflexivity|]. split; [done|]. eexists. split; [reflexivity|].
    split; [reflexivity|]. cbn; lia.
Defined.
