(* ===== verification/Exerciser.v ===== *)
(** * Exerciser

    The PCIe stimulus generator: val/src/acs_exerciser.c and
    platform/pal_baremetal/src/pal_exerciser.c. A generator is a Function with
    control registers behind its BAR 0. *)

From Stdlib Require Import ZArith Lia Bool List.
From stdpp Require Import base tactics numbers list gmap option.
From S2P Require Import Prelude Memory El3State Pcie PcieEnum PciePal.

(** ** Constants (platform_override_fvp.h, rme_acs_exerciser.h) *)
Definition EXERCISER_ID : Z := 0xED0113B5.
Definition TEST_REG_COUNT : Z := 10.
Definition MAX_EXERCISER_CARDS : Z := 20.
Definition BUS_MEM_EN_MASK : Z := 0x06.
Definition PCIE_CAP_CTRL_OFFSET : Z := 0x4.
Definition INTXCTL : Z := 0x004.
Definition MSICTL : Z := 0x000.
Definition DMACTL1 : Z := 0x08.
Definition DMA_BUS_ADDR : Z := 0x010.
Definition DMA_LEN : Z := 0x018.
Definition DMASTATUS : Z := 0x01C.
Definition PASID_VAL : Z := 0x020.
Definition ATSCTL : Z := 0x024.
Definition ATS_ADDR : Z := 0x028.
Definition DVSEC_CTRL : Z := 0x8.
Definition PASID : Z := 0x1B.
Definition PCIE : Z := 0x1.
Definition DVSEC : Z := 0x0023.
Definition PCIE_NXT_CAP_PTR_MASK : Z := 0x0FFF.
Definition PCIE_CAP_ID_MASK : Z := 0xFFFF.
Definition PCI_CAP_ID_MASK : Z := 0x00FF.
Definition PCI_NXT_CAP_PTR_MASK : Z := 0x00FF.
Definition CAP_PTR_MASK : Z := 0x00FF.
Definition CLR_INTR_MASK : Z := 0xFFFFFFFE.
Definition PASID_TLP_STOP_MASK : Z := 0xFFFFFFBF.
Definition PASID_VAL_MASK : Z := (1 << 20) - 1.
Definition PASID_LEN_SHIFT : Z := 7.
Definition PASID_LEN_MASK : Z := 0x7.
Definition PASID_EN_SHIFT : Z := 6.
Definition DMA_TO_DEVICE_MASK : Z := 0xFFFFFFEF.
Definition SHIFT_4BIT : Z := 4.
Definition MASK_BIT : Z := 1.
Definition PREFETCHABLE_BIT_SHIFT : Z := 3.
Definition ERR_CODE_SHIFT : Z := 20.
Definition FATAL_SHIFT : Z := 31.
Definition ERROR_INJECT_BIT : Z := 17.
Definition PCI_CAP_PTR_OFFSET : Z := 8.
Definition PCIE_CAP_PTR_OFFSET : Z := 20.
(** [1 << 31] of type [int], converted to [uint32_t]. *)
Definition MSI_GENERATION_MASK : Z := 0x80000000.
Definition NO_SNOOP_START_MASK : Z := 0x20.
Definition NO_SNOOP_STOP_MASK : Z := 0xFFFFFFDF.
Definition PCIE_CAP_DIS_MASK : Z := 0xFFFEFFFF.
Definition PCIE_CAP_EN_MASK : Z := 1 << 16.
Definition CAP_PTR_OFFSET : Z := 0x34.
Definition PCIE_CAP_OFFSET : Z := 0x100.
Definition RID_CTL_REG : Z := 0x3C.
Definition RID_VALUE_MASK : Z := 0xFFFF.
Definition RID_VALID_MASK : Z := 1 << 31.
Definition RID_VALID : Z := 1.
Definition RID_NOT_VALID : Z := 0.
Definition ATS_TRIGGER : Z := 1.
Definition ATS_STATUS : Z := 1 << 7.
Definition BAR64_MASK : Z := 0xFFFFFFFFFFFFFFF0.
Definition RAS_OFFSET : Z := 0x10000.
Definition CTRL_OFFSET : Z := 0x08.
Definition TXN_REQ_ID : Z := 0x0.
Definition TXN_ADDR_TYPE : Z := 0x1.
Definition TXN_REQ_ID_VALID : Z := 0x2.
Definition AT_UNTRANSLATED : Z := 0x0.
Definition AT_TRANSLATED : Z := 0x2.
Definition AT_RESERVED : Z := 0x3.
Definition EDMA_NO_SUPPORT : Z := 0x0.
Definition EDMA_COHERENT : Z := 0x1.
Definition EDMA_NOT_COHERENT : Z := 0x2.
Definition EDMA_FROM_DEVICE : Z := 0x3.
Definition EDMA_TO_DEVICE : Z := 0x4.
Definition ACCESS_TYPE_RD : Z := 0x0.
Definition BAR_MIT_SHIFT : Z := 0.
Definition BAR_MIT_MASK : Z := 0x1.
Definition BAR_MDT_SHIFT : Z := 1.
Definition BAR_MDT_MASK : Z := 0x3.
Definition MMIO : Z := 0.
Definition BITS_64 : Z := 2.
Definition EXERCISER_ON : Z := 0x2.

Inductive EXERCISER_PARAM_TYPE :=
| SNOOP_ATTRIBUTES | LEGACY_IRQ | MSIX_ATTRIBUTES | DMA_ATTRIBUTES | P2P_ATTRIBUTES
| PASID_ATTRIBUTES | CFG_TXN_ATTRIBUTES | ATS_RES_ATTRIBUTES | TRANSACTION_TYPE
| NUM_TRANSACTIONS | ADDRESS_ATTRIBUTES | DATA_ATTRIBUTES | ERROR_INJECT_TYPE
| ENABLE_POISON_MODE | ENABLE_RAS_CTRL | DISABLE_POISON_MODE.
Inductive EXERCISER_OPS :=
| START_DMA | GENERATE_MSI | GENERATE_L_INTR | MEM_READ | MEM_WRITE | CLEAR_INTR
| PASID_TLP_START | PASID_TLP_STOP | TXN_NO_SNOOP_ENABLE | TXN_NO_SNOOP_DISABLE
| START_TXN_MONITOR | STOP_TXN_MONITOR | ATS_TXN_REQ | INJECT_ERROR.
Inductive EXERCISER_DATA_TYPE :=
| EXERCISER_DATA_CFG_SPACE | EXERCISER_DATA_BAR0_SPACE | EXERCISER_DATA_MMIO_SPACE.
Inductive BAR_MEM_TYPE := MMIO_PREFETCHABLE | MMIO_NON_PREFETCHABLE.

Inductive EXERCISER_ERROR_CODE :=
| CORR_RCVR_ERR | CORR_BAD_TLP | CORR_BAD_DLLP | CORR_RPL_NUM_ROLL | CORR_RPL_TMR_TIMEOUT
| CORR_ADV_NF_ERR | CORR_INT_ERR | CORR_HDR_LOG_OVRFL | UNCORR_DL_ERROR | UNCORR_SD_ERROR
| UNCORR_PTLP_REC | UNCORR_FL_CTRL_ERR | UNCORR_CMPT_TO | UNCORR_AMPT_ABORT | UNCORR_UNEXP_CMPT
| UNCORR_RCVR_ERR | UNCORR_MAL_TLP | UNCORR_ECRC_ERR | UNCORR_UR | UNCORR_ACS_VIOL
| UNCORR_INT_ERR | UNCORR_MC_BLK_TLP | UNCORR_ATOP_EGR_BLK | UNCORR_TLP_PFX_EGR_BLK
| UNCORR_PTLP_EGR_BLK | INVALID_CFG.
(** The bit of the error status registers, the [..._OFFSET] constants. *)
Definition val_get_exerciser_err_info (type : EXERCISER_ERROR_CODE) : Z :=
  match type with
  | CORR_RCVR_ERR => 0 | CORR_BAD_TLP => 6 | CORR_BAD_DLLP => 7 | CORR_RPL_NUM_ROLL => 8
  | CORR_RPL_TMR_TIMEOUT => 12 | CORR_ADV_NF_ERR => 13 | CORR_INT_ERR => 14
  | CORR_HDR_LOG_OVRFL => 15 | UNCORR_DL_ERROR => 4 | UNCORR_SD_ERROR => 5
  | UNCORR_PTLP_REC => 12 | UNCORR_FL_CTRL_ERR => 13 | UNCORR_CMPT_TO => 14
  | UNCORR_AMPT_ABORT => 15 | UNCORR_UNEXP_CMPT => 16 | UNCORR_RCVR_ERR => 17
  | UNCORR_MAL_TLP => 18 | UNCORR_ECRC_ERR => 19 | UNCORR_UR => 20 | UNCORR_ACS_VIOL => 21
  | UNCORR_INT_ERR => 22 | UNCORR_MC_BLK_TLP => 23 | UNCORR_ATOP_EGR_BLK => 24
  | UNCORR_TLP_PFX_EGR_BLK => 25 | UNCORR_PTLP_EGR_BLK => 26 | INVALID_CFG => 0
  end.

(** What [pal_exerciser_get_data] fills in: the members of the union. *)
Record ecam_reg_data := mk_reg_data { rd_offset : Z; rd_attribute : Z; rd_value : Z }.
Inductive exerciser_data_t :=
| cfg_space (reg : list ecam_reg_data)
| bar_space (base_addr : Z) (type : option BAR_MEM_TYPE).

(** The table of generators: [num_exerciser] and the used entries, a BDF with
    its [initialized]. *)
Record EXERCISER_INFO_TABLE := mk_exercisers { num_exerciser : Z; e_info : list (Z * Z) }.

Record xst (D : Type) := mk_xst { x_est : est D; g_exerciser_info_table : EXERCISER_INFO_TABLE }.
Arguments mk_xst {D}. Arguments x_est {D}. Arguments g_exerciser_info_table {D}.
Abbreviation X D := (M (xst D)).

Section code.
Context {D : Type} {HW : Hw D} {PAL : PciPal}.
Context (platform_pcie_cfg : list ecam_block).

(** ** The platform layer (pal_exerciser.c) *)

Definition pal_exerciser_get_ecam (bdf : Z) : P D Z :=
  let bus := PCIE_EXTRACT_BDF_BUS bdf in
  let! info := gets p_info in
  let! blocks := use info in
  ret (match List.find (fun b => (start_bus_num b <=? bus) && (bus <=? end_bus_num b)) blocks with
       | Some b => ecam_base b
       | None => 0
       end).

Definition pal_exerciser_get_ecsr_base (Bdf BarIndex : Z) : N D Z :=
  PcieEnum.pal_pcie_get_base platform_pcie_cfg Bdf BarIndex.

Definition pal_exerciser_get_pcie_config_offset (Bdf : Z) : Z :=
  u32 (PCIE_EXTRACT_BDF_BUS Bdf * PCIE_MAX_DEV * PCIE_MAX_FUNC * 4096 +
       PCIE_EXTRACT_BDF_DEV Bdf * PCIE_MAX_FUNC * 4096 + PCIE_EXTRACT_BDF_FUNC Bdf * 4096).

Definition pal_is_bdf_exerciser (bdf : Z) : P D Z :=
  let! Ecam := PciePal.pal_pcie_get_mcfg_ecam platform_pcie_cfg in
  let! vendor_dev_id := pal_mmio_read (u64 (Ecam + pal_exerciser_get_pcie_config_offset bdf)) in
  ret (if vendor_dev_id =? EXERCISER_ID then 1 else 0).

(** The walk over the capabilities: the offset of the one with the ID. *)
Definition find_step (Ecam ID Bdf IdMask PtrOffset PtrMask NxtPtr : Z) : P D (Z + option Z) :=
  if NxtPtr =? 0 then ret (inr None) else
  let! Data := pal_mmio_read (u64 (Ecam + pal_exerciser_get_pcie_config_offset Bdf + NxtPtr)) in
  if Data .& IdMask =? ID then ret (inr (Some NxtPtr))
  else ret (inl ((Data >> PtrOffset) .& PtrMask)).
(** The status and what is stored through [Offset]. *)
Definition pal_exerciser_find_pcie_capability (fuel : nat) (ID Bdf Value : Z)
    : P D (Z * option Z) :=
  let! Ecam := PciePal.pal_pcie_get_mcfg_ecam platform_pcie_cfg in
  let! r :=
    (if Value =? 1 then
       loop fuel (find_step Ecam ID Bdf PCIE_CAP_ID_MASK PCIE_CAP_PTR_OFFSET PCIE_NXT_CAP_PTR_MASK)
         PCIE_CAP_OFFSET
     else
       let! v := pal_mmio_read (u64 (Ecam + CAP_PTR_OFFSET +
                                     pal_exerciser_get_pcie_config_offset Bdf)) in
       loop fuel (find_step Ecam ID Bdf PCI_CAP_ID_MASK PCI_CAP_PTR_OFFSET PCI_NXT_CAP_PTR_MASK)
         (v .& CAP_PTR_MASK)) in
  ret (match r with Some o => (0, Some o) | None => (1, None) end).

(** A register behind a base. *)
Definition rd (base offset : Z) : N D Z := pci (pal_mmio_read (u64 (base + offset))).
Definition wr (base offset v : Z) : N D unit := pci (pal_mmio_write (u64 (base + offset)) v).
Definition update (base offset : Z) (f : Z -> Z) : N D unit :=
  let! v := rd base offset in wr base offset (f v).
(** A register of a capability in configuration space. *)
Definition cap_base (Ecam Bdf cap : Z) : Z := Ecam + pal_exerciser_get_pcie_config_offset Bdf + cap.
Definition find_cap (fuel : nat) (ID Bdf : Z) : N D (Z * option Z) :=
  pci (pal_exerciser_find_pcie_capability fuel ID Bdf PCIE).

(** [CFG_TXN_ATTRIBUTES]. *)
Definition set_txn_attribute (Base Value1 Value2 : Z) : N D Z :=
  if Value1 =? TXN_REQ_ID then
    wr Base RID_CTL_REG ((Value2 .& RID_VALUE_MASK) .| RID_VALID_MASK) ;; ret 0
  else if Value1 =? TXN_REQ_ID_VALID then
    if Value2 =? RID_VALID then
      update Base RID_CTL_REG (fun Data => Data .| RID_VALID_MASK) ;; ret 0
    else if Value2 =? RID_NOT_VALID then wr Base RID_CTL_REG 0 ;; ret 0
    else ret 0
  else if Value1 =? TXN_ADDR_TYPE then
    let change Data := update Base DMACTL1 (fun v => v .| (Data << 10)) in
    (if Value2 =? AT_UNTRANSLATED then change 0x1
     else if Value2 =? AT_TRANSLATED then change 0x2
     else if Value2 =? AT_RESERVED then change 0x3
     else ret tt) ;;
    ret 0
  else ret 1.

(** The control register of the DVSEC; the offset stays 0 when it is absent. *)
Definition dvsec_update (fuel : nat) (Ecam Bdf : Z) (f : Z -> Z) : N D unit :=
  let! '(_r, o) := find_cap fuel DVSEC Bdf in
  let base := cap_base Ecam Bdf (default 0 o) in
  let! Data := rd base DVSEC_CTRL in
  wr base DVSEC_CTRL (f Data).

Definition pal_exerciser_set_param (fuel : nat) (type : EXERCISER_PARAM_TYPE)
    (Value1 Value2 Bdf : Z) : N D Z :=
  let! Base := pal_exerciser_get_ecsr_base Bdf 0 in
  let! Ecam := pci (pal_exerciser_get_ecam Bdf) in
  match type with
  | SNOOP_ATTRIBUTES | LEGACY_IRQ | P2P_ATTRIBUTES | MSIX_ATTRIBUTES => ret 0
  | DMA_ATTRIBUTES => wr Base DMA_BUS_ADDR Value1 ;; wr Base DMA_LEN Value2 ;; ret 0
  | PASID_ATTRIBUTES =>
      update Base DMACTL1 (fun Data =>
        u32 ((Data .& bnot 64 (PASID_LEN_MASK << PASID_LEN_SHIFT)) .|
             ((u64 (Value1 - 16) .& PASID_LEN_MASK) << PASID_LEN_SHIFT))) ;;
      ret 0
  | CFG_TXN_ATTRIBUTES => set_txn_attribute Base Value1 Value2
  | ERROR_INJECT_TYPE =>
      (* what was read is overwritten *)
      dvsec_update fuel Ecam Bdf (fun _ =>
        u32 (u64 (Value1 << ERR_CODE_SHIFT) .| u64 (Value2 << FATAL_SHIFT))) ;;
      ret (if Value1 <=? 0x7 then 2 else 3)
  | ENABLE_POISON_MODE => dvsec_update fuel Ecam Bdf (fun Data => Data .| (1 << 18)) ;; ret 0
  | ENABLE_RAS_CTRL =>
      let! Base := pal_exerciser_get_ecsr_base (u32 Value2) 0 in
      wr (Base .& BAR64_MASK) (RAS_OFFSET + CTRL_OFFSET) 0x1 ;; ret 0
  | DISABLE_POISON_MODE => dvsec_update fuel Ecam Bdf (fun Data => Data .& (0 << 18)) ;; ret 0
  | ATS_RES_ATTRIBUTES | TRANSACTION_TYPE | NUM_TRANSACTIONS | ADDRESS_ATTRIBUTES
  | DATA_ATTRIBUTES => ret 1
  end.

Definition pal_exerciser_start_dma_direction (Base Direction : Z) : N D Z :=
  (when Direction =? EDMA_TO_DEVICE then
     update Base DMACTL1 (fun v => v .& DMA_TO_DEVICE_MASK)) ;;
  (when Direction =? EDMA_FROM_DEVICE then
     update Base DMACTL1 (fun v => v .| (MASK_BIT << SHIFT_4BIT))) ;;
  update Base DMACTL1 (fun v => v .| MASK_BIT) ;;
  let! v := rd Base DMASTATUS in
  ret (v .& ((MASK_BIT << 1) .| MASK_BIT)).

(** The status and what is stored through [Value1] and [Value2]. *)
Definition pal_exerciser_get_param (type : EXERCISER_PARAM_TYPE) (Bdf : Z)
    : N D (Z * option Z * option Z) :=
  let! Base := pal_exerciser_get_ecsr_base Bdf 0 in
  match type with
  | SNOOP_ATTRIBUTES | P2P_ATTRIBUTES => ret (0, None, None)
  | LEGACY_IRQ =>
      let! v := rd Base INTXCTL in
      let! s := rd Base INTXCTL in ret (s .| MASK_BIT, Some v, None)
  | DMA_ATTRIBUTES =>
      let! v1 := rd Base DMA_BUS_ADDR in
      let! v2 := rd Base DMA_LEN in
      let! Temp := rd Base DMASTATUS in ret (Temp .& MASK_BIT, Some v1, Some v2)
  | PASID_ATTRIBUTES =>
      let! v := rd Base DMACTL1 in
      ret (0, Some (((v >> PASID_LEN_SHIFT) .& PASID_LEN_MASK) + 16), None)
  | MSIX_ATTRIBUTES =>
      let! v := rd Base MSICTL in
      let! s := rd Base MSICTL in ret (s .| MASK_BIT, Some v, None)
  | ATS_RES_ATTRIBUTES => let! v := rd Base ATS_ADDR in ret (0, Some v, None)
  | _ => ret (1, None, None)
  end.

(** The control word of the PASID capability. *)
Definition pasid_control (fuel : nat) (Ecam Bdf : Z) (f : Z -> Z) : N D Z :=
  let! '(r, o) := find_cap fuel PASID Bdf in
  if r =? 0 then
    let! o := use o in
    update (cap_base Ecam Bdf o) PCIE_CAP_CTRL_OFFSET f ;; ret 0
  else ret 1.

Definition pal_exerciser_ops (fuel : nat) (Ops : EXERCISER_OPS) (Param Bdf : Z) : N D Z :=
  let! Base := pal_exerciser_get_ecsr_base Bdf 0 in
  let! Ecam := pci (pal_exerciser_get_ecam Bdf) in
  match Ops with
  | START_DMA =>
      if (Param =? EDMA_NO_SUPPORT) || (Param =? EDMA_COHERENT) || (Param =? EDMA_NOT_COHERENT)
      then ret 0
      else if (Param =? EDMA_FROM_DEVICE) || (Param =? EDMA_TO_DEVICE)
      then pal_exerciser_start_dma_direction Base Param
      else ret 1
  | GENERATE_MSI => update Base MSICTL (fun v => u32 (v .| MSI_GENERATION_MASK .| Param)) ;; ret 0
  | GENERATE_L_INTR => update Base INTXCTL (fun v => v .| MASK_BIT) ;; ret 0
  | MEM_READ | MEM_WRITE => ret 0
  | CLEAR_INTR => update Base INTXCTL (fun v => v .& CLR_INTR_MASK) ;; ret 0
  | PASID_TLP_START =>
      update Base DMACTL1 (fun v => v .| (MASK_BIT << PASID_EN_SHIFT)) ;;
      wr Base PASID_VAL (Param .& PASID_VAL_MASK) ;;
      pasid_control fuel Ecam Bdf (fun v => v .| PCIE_CAP_EN_MASK)
  | PASID_TLP_STOP =>
      update Base DMACTL1 (fun v => v .& PASID_TLP_STOP_MASK) ;;
      pasid_control fuel Ecam Bdf (fun v => v .& PCIE_CAP_DIS_MASK)
  | TXN_NO_SNOOP_ENABLE => update Base DMACTL1 (fun v => v .| NO_SNOOP_START_MASK) ;; ret 0
  | TXN_NO_SNOOP_DISABLE => update Base DMACTL1 (fun v => v .& NO_SNOOP_STOP_MASK) ;; ret 0
  | ATS_TXN_REQ =>
      wr Base DMA_BUS_ADDR Param ;;
      wr Base ATSCTL ATS_TRIGGER ;;
      let! v := rd Base ATSCTL in
      ret (if truthy (v .& ATS_STATUS) then 0 else 1)
  | INJECT_ERROR =>
      (* the offset is uninitialised when there is no DVSEC *)
      let! '(_r, o) := find_cap fuel DVSEC Bdf in
      let! o := use o in
      update (cap_base Ecam Bdf o) DVSEC_CTRL (fun data => data .| (1 << ERROR_INJECT_BIT)) ;;
      ret (u32 Param)
  | START_TXN_MONITOR | STOP_TXN_MONITOR => ret PCIE_CAP_NOT_FOUND
  end.

Definition pal_exerciser_get_state (_Bdf : Z) : Z * Z := (0, EXERCISER_ON).
Definition pal_exerciser_set_state (_State _Value _Instance : Z) : Z := 0.

Definition bar_type (bar : Z) : BAR_MEM_TYPE :=
  if ((bar >> PREFETCHABLE_BIT_SHIFT) .& MASK_BIT) =? 0x1 then MMIO_PREFETCHABLE
  else MMIO_NON_PREFETCHABLE.
Definition offset_table : list Z := [0x00; 0x08; 0x00; 0x08; 0x00; 0x08; 0x00; 0x08; 0x00; 0x08].
Fixpoint read_cfg_space (EcamBase Bdf : Z) (offsets : list Z) : N D (list ecam_reg_data) :=
  match offsets with
  | [] => ret []
  | o :: offsets' =>
      let! v := rd EcamBase o in
      let! l := read_cfg_space EcamBase Bdf offsets' in
      ret (mk_reg_data (u32 (o + pal_exerciser_get_pcie_config_offset Bdf)) ACCESS_TYPE_RD v :: l)
  end.
(** One turn of the search for a memory BAR. *)
Definition mmio_step (Bdf Index : Z) : N D (Z + option Z) :=
  if Index <? TYPE0_MAX_BARS then
    let! EcamBAR := pal_exerciser_get_ecsr_base Bdf (Index * 4) in
    if (EcamBAR >> BAR_MIT_SHIFT) .& BAR_MIT_MASK =? MMIO then ret (inr (Some EcamBAR))
    else
      let Index := if (EcamBAR >> BAR_MDT_SHIFT) .& BAR_MDT_MASK =? BITS_64 then Index + 1
                   else Index in
      ret (inl (Index + 1))
  else ret (inr None).
(** The status and the data that are filled in. *)
Definition pal_exerciser_get_data (type : EXERCISER_DATA_TYPE) (Bdf Ecam : Z)
    : N D (Z * exerciser_data_t) :=
  let EcamBase := u64 (Ecam + pal_exerciser_get_pcie_config_offset Bdf) in
  match type with
  | EXERCISER_DATA_CFG_SPACE =>
      let! l := read_cfg_space EcamBase Bdf offset_table in ret (0, cfg_space l)
  | EXERCISER_DATA_BAR0_SPACE =>
      let! EcamBAR0 := pal_exerciser_get_ecsr_base Bdf 0 in
      let! bar := pal_exerciser_get_ecsr_base Bdf 0 in
      ret (0, bar_space EcamBAR0 (Some (bar_type bar)))
  | EXERCISER_DATA_MMIO_SPACE =>
      let! r := loop 7 (mmio_step Bdf) 0 in
      ret (match r with
           | Some bar => (0, bar_space bar (Some (bar_type bar)))
           | None => (1, bar_space 0 None)
           end)
  end.

(** ** The VAL (acs_exerciser.c) *)

Definition est_op {A} (m : N D A) : X D A :=
  zoom x_est (fun e s => mk_xst e (g_exerciser_info_table s)) m.
Definition pcie {A} (m : P D A) : X D A := est_op (pci m).
Definition upd_table (f : EXERCISER_INFO_TABLE -> EXERCISER_INFO_TABLE) : X D unit :=
  modify (fun s => mk_xst (x_est s) (f (g_exerciser_info_table s))).
Definition info_at (instance : Z) : X D (Z * Z) :=
  let! t := gets g_exerciser_info_table in use (e_info t !! Z.to_nat instance).

(** From the last entry of the Function table down; [inr] is the early return. *)
Fixpoint create_from (bdfs : list Z) : X D unit :=
  match bdfs with
  | [] => ret tt
  | Bdf :: bdfs' =>
      let! '(r, _v) := pcie (val_pcie_read_cfg Bdf TYPE01_VIDR) in
      if r =? PCIE_NO_MAPPING then ret tt else
      let! e := pcie (pal_is_bdf_exerciser Bdf) in
      (when truthy e then
         (let! t := gets g_exerciser_info_table in
          require (num_exerciser t <? MAX_EXERCISER_CARDS) ;;
          upd_table (fun t => mk_exercisers (num_exerciser t + 1) (e_info t ++ [(Bdf, 0)])))) ;;
      create_from bdfs'
  end.
Definition val_exerciser_create_info_table : X D unit :=
  let! t := pcie (gets p_table) in
  let! table := use t in
  create_from (rev (map fst table)).

Definition val_exerciser_get_bdf (instance : Z) : X D Z :=
  let! b := info_at instance in ret (fst b).
Definition val_exerciser_num_cards : X D Z :=
  let! t := gets g_exerciser_info_table in ret (num_exerciser t).
Definition val_exerciser_set_param (fuel : nat) (type : EXERCISER_PARAM_TYPE)
    (value1 value2 instance : Z) : X D Z :=
  let! bdf := val_exerciser_get_bdf instance in
  est_op (pal_exerciser_set_param fuel type value1 value2 bdf).
Definition val_exerciser_get_param (type : EXERCISER_PARAM_TYPE) (instance : Z)
    : X D (Z * option Z * option Z) :=
  let! bdf := val_exerciser_get_bdf instance in est_op (pal_exerciser_get_param type bdf).
Definition val_exerciser_ops (fuel : nat) (ops : EXERCISER_OPS) (param instance : Z) : X D Z :=
  let! bdf := val_exerciser_get_bdf instance in est_op (pal_exerciser_ops fuel ops param bdf).
Definition val_exerciser_get_data (type : EXERCISER_DATA_TYPE) (instance : Z)
    : X D (Z * exerciser_data_t) :=
  let! bdf := val_exerciser_get_bdf instance in
  let! ecam := pcie (val_pcie_get_ecam_base bdf) in
  est_op (pal_exerciser_get_data type bdf ecam).
Definition val_exerciser_get_state (instance : Z) : X D (Z * Z) :=
  let! bdf := val_exerciser_get_bdf instance in ret (pal_exerciser_get_state bdf).
Definition val_exerciser_set_state (state value instance : Z) : X D Z :=
  let! bdf := val_exerciser_get_bdf instance in ret (pal_exerciser_set_state state value bdf).

Definition val_exerciser_init (instance : Z) : X D Z :=
  let! '(Bdf, initialized) := info_at instance in
  if negb (truthy initialized) then
    let '(r, state) := pal_exerciser_get_state Bdf in
    if truthy r || negb (state =? EXERCISER_ON) then ret 1 else
    let! Ecam := pcie (val_pcie_get_ecam_base Bdf) in
    let cmd := u64 (Ecam + pal_exerciser_get_pcie_config_offset Bdf + COMMAND_REG_OFFSET) in
    let! v := pcie (pal_mmio_read cmd) in
    pcie (pal_mmio_write cmd (v .| BUS_MEM_EN_MASK)) ;;
    upd_table (fun t => mk_exercisers (num_exerciser t)
                          (<[Z.to_nat instance := (Bdf, 1)]> (e_info t))) ;;
    ret 0
  else ret 0.
End code.
