(* ===== verification/El3Call.v ===== *)
(** * El3Call

    val/src/acs_el3.c: the VAL's calls into EL3. [UserCallSMC] raises an SMC
    that the firmware hands, by its function identifier, to the dispatcher of
    val_el3/plat_acs_smc_handler.c; a call is therefore a run of the dispatcher
    on the state of EL3. *)

From Stdlib Require Import ZArith Lia Bool List.
From stdpp Require Import base tactics numbers list gmap option.
From S2P Require Import Prelude Memory El3State PoolAlloc El3Pgt SmmuRealm El3Common El3Handler.

Definition ARM_ACS_SMC_FID : Z := 0xC2000060.

Section code.
Context {D : Type} {HW : Hw D}.
(** The vector table of the tests and the fuel of the services. *)
Variables (vec : Z) (fuel : nat).

(** Arguments travel in 64-bit registers; the firmware ignores other
    identifiers as far as this suite is concerned. *)
Definition UserCallSMC (fid services arg0 arg1 arg2 : Z) : E D unit :=
  if fid =? ARM_ACS_SMC_FID then
    plat_arm_acs_smc_handler vec fuel (u64 services) (u64 arg0) (u64 arg1) (u64 arg2)
  else ret tt.

Definition val_memory_set_el3 (address size value : Z) : E D unit :=
  UserCallSMC ARM_ACS_SMC_FID RME_MEM_SET address (u32 size) (u8 value).
Definition val_data_cache_ops_by_va_el3 (address type : Z) : E D unit :=
  UserCallSMC ARM_ACS_SMC_FID RME_DATA_CACHE_OPS address (u32 type) 0.
Definition val_add_mmu_entry_el3 (VA PA attr : Z) : E D unit :=
  UserCallSMC ARM_ACS_SMC_FID RME_ADD_MMU_ENTRY VA PA attr.
Definition val_add_gpt_entry_el3 (PA gpi : Z) : E D unit :=
  UserCallSMC ARM_ACS_SMC_FID RME_ADD_GPT_ENTRY PA gpi 0.
Definition val_pe_access_mut_el3 : E D unit :=
  UserCallSMC ARM_ACS_SMC_FID RME_ACCESS_MUT 0 0 0.
Definition val_data_cache_ops_by_pa_el3 (PA acc_pas : Z) : E D unit :=
  UserCallSMC ARM_ACS_SMC_FID RME_CMO_POPA PA acc_pas 0.
Definition val_rme_install_handler_el3 : E D unit :=
  UserCallSMC ARM_ACS_SMC_FID RME_INSTALL_HANDLER 0 0 0.
Definition val_enable_ns_encryption : E D unit :=
  UserCallSMC ARM_ACS_SMC_FID RME_NS_ENCRYPTION SET 0 0.
Definition val_disable_ns_encryption : E D unit :=
  UserCallSMC ARM_ACS_SMC_FID RME_NS_ENCRYPTION CLEAR 0 0.
Definition val_read_pe_regs_bfr_low_pwr_el3 : E D unit :=
  UserCallSMC ARM_ACS_SMC_FID RME_READ_AND_CMPR_REG_MSD CLEAR 0 0.
Definition val_cmpr_pe_regs_aftr_low_pwr_el3 : E D unit :=
  UserCallSMC ARM_ACS_SMC_FID RME_READ_AND_CMPR_REG_MSD SET 0 0.
(** The parameter is ignored: the service is always asked to enable. *)
Definition val_prog_legacy_tz (_enable : Z) : E D unit :=
  UserCallSMC ARM_ACS_SMC_FID LEGACY_TZ_ENABLE SET 0 0.
Definition val_wd_set_ws0_el3 (VA_RT_WDOG timeout counter_freq : Z) : E D unit :=
  UserCallSMC ARM_ACS_SMC_FID ROOT_WATCHDOG VA_RT_WDOG (u32 timeout) counter_freq.
Definition val_pas_filter_active_mode_el3 (enable : Z) : E D unit :=
  UserCallSMC ARM_ACS_SMC_FID PAS_FILTER_SERVICE (s32 enable) 0 0.
Definition val_smmu_access_disable : E D unit :=
  UserCallSMC ARM_ACS_SMC_FID SMMU_ROOT_SERVICE 0 0 0.
Definition val_change_security_state_el3 (sec_state : Z) : E D unit :=
  UserCallSMC ARM_ACS_SMC_FID SEC_STATE_CHANGE (s32 sec_state) 0 0.
Definition val_smmu_check_rmeda_el3 : E D unit :=
  UserCallSMC ARM_ACS_SMC_FID SMMU_CONFIG_SERVICE SMMU_ROOT_RME_IMPL_CHK 0 0.
Definition val_rlm_smmu_init (num_smmu : Z) : E D unit :=
  UserCallSMC ARM_ACS_SMC_FID SMMU_CONFIG_SERVICE SMMU_RLM_PGT_INIT (u32 num_smmu) 0.
Definition val_rlm_smmu_map (smmu_info : Z) : E D unit :=
  UserCallSMC ARM_ACS_SMC_FID SMMU_CONFIG_SERVICE SMMU_RLM_SMMU_MAP (u32 smmu_info) 0.
End code.
