(* ===== verification/TestModules.v ===== *)
(** * TestModules

    The entry points of the test modules beside the RME module: the device
    assignment tests (acs_da.c), GIC tests (acs_gic.c), SMMU tests (acs_smmu.c)
    and the legacy system tests (acs_legacy.c), which call into EL3, and what
    the status they return says. *)

From Stdlib Require Import ZArith Lia Bool List.
From stdpp Require Import base tactics numbers list gmap option.
From S2P Require Import Prelude Memory El3State El3Common El3Handler El3Call TestRun.

(** ** Constants (rme_acs_common.h, rme_acs_el32.h, pal_interface.h) *)
Definition ACS_GIC_TEST_NUM_BASE : Z := 200.
Definition ACS_SMMU_TEST_NUM_BASE : Z := 400.
Definition ACS_LEGACY_TEST_NUM_BASE : Z := 500.
Definition ACS_RME_DA_TEST_NUM_BASE : Z := 600.
Definition NSE_SHIFT : Z := 9.
Definition NS_SHIFT : Z := 3.
Definition PGT_SHAREABLITY_SHIFT : Z := 6.
Definition PGT_ENTRY_ACCESS : Z := 0x1 << 8.
Definition PGT_ENTRY_AP_RW : Z := 0x1 << 4.
Definition OUTER_SHAREABLE : Z := 0x2.
Definition SHAREABLE_ATTR (x : Z) : Z := x << PGT_SHAREABLITY_SHIFT.
Definition PAS_ATTR (x : Z) : Z := (NSE_SET x << NSE_SHIFT) .| (NS_SET x << NS_SHIFT).
Definition LOWER_ATTRS (x : Z) : Z := (x .& 0xFFF) << 2.

(** ** The checks the entry points begin with *)

(** The user skips the whole module. *)
Definition module_listed (g_skip_test_num : list Z) (base : Z) : bool :=
  existsb (fun n => n =? base) g_skip_test_num.
(** The user runs another module, and no single test of this one. *)
Definition other_module (g_single_test g_single_module base : Z) : bool :=
  negb (g_single_module =? SINGLE_MODULE_SENTINEL) && negb (g_single_module =? base) &&
  ((g_single_test =? SINGLE_MODULE_SENTINEL) ||
   ((100 <? u32 (g_single_test - base)) || (u32 (g_single_test - base) <=? 0))).

Section modules.
Context {W : Type} {PES : Pes W}.
(** The tests of a module by their number. *)
Variable entry : Z -> T W Z.
Variables (g_skip_test_num : list Z) (g_single_test g_single_module : Z).

Definition val_rme_da_execute_tests (reset_status : Z) : T W Z :=
  if module_listed g_skip_test_num ACS_RME_DA_TEST_NUM_BASE then ret ACS_STATUS_SKIP else
  if other_module g_single_test g_single_module ACS_RME_DA_TEST_NUM_BASE
  then ret ACS_STATUS_SKIP else
  if negb (reset_status =? RESET_TST12_FLAG) && negb (reset_status =? RESET_TST31_FLAG) &&
     negb (reset_status =? RESET_TST2_FLAG) && negb (reset_status =? RESET_LS_DISBL_FLAG) &&
     negb (reset_status =? RESET_LS_TEST3_FLAG)
  then
    run_from entry 1 [2; 3; 4; 5; 6; 7; 8; 9; 10; 11; 12; 13; 14; 15; 16; 17; 18; 19; 20]
  else undef. (* [status] was never assigned *)

Definition val_gic_execute_tests : T W Z :=
  if module_listed g_skip_test_num ACS_GIC_TEST_NUM_BASE then ret ACS_STATUS_SKIP else
  if other_module g_single_test g_single_module ACS_GIC_TEST_NUM_BASE
  then ret ACS_STATUS_SKIP else run_from entry 1 [].

(** [num_smmu] is what [val_iovirt_get_smmu_info(SMMU_NUM_CTRL, 0)] returns. *)
Definition val_smmu_execute_tests (num_smmu : Z) : T W Z :=
  if module_listed g_skip_test_num ACS_SMMU_TEST_NUM_BASE then ret ACS_STATUS_SKIP else
  if other_module g_single_test g_single_module ACS_SMMU_TEST_NUM_BASE
  then ret ACS_STATUS_SKIP else
  if num_smmu =? 0 then ret ACS_STATUS_SKIP else run_tests entry [1; 2] ACS_STATUS_PASS.
End modules.

(** ** Legacy system tests *)

(** The test runner, EL3 and the word that survives a reset. *)
Record lst (W D : Type) := mk_lst { l_run : tst W; l_el3 : el3 D; l_nvm : Z }.
Arguments mk_lst {W D}. Arguments l_run {W D}. Arguments l_el3 {W D}. Arguments l_nvm {W D}.

Section legacy.
Context {W D : Type} {PES : Pes W} {HW : Hw D}.
Variable entry : Z -> T W Z.
Variables (g_skip_test_num : list Z) (g_single_test g_single_module : Z).
(** [IS_LEGACY_TZ_ENABLED] of the platform, and what the calls into EL3 use. *)
Variables (IS_LEGACY_TZ_ENABLED : bool) (vec : Z) (fuel : nat).

Definition runner {A} (m : T W A) : M (lst W D) A :=
  zoom l_run (fun r s => mk_lst r (l_el3 s) (l_nvm s)) m.
Definition el3_call (m : E D unit) : M (lst W D) unit :=
  zoom l_el3 (fun e s => mk_lst (l_run s) e (l_nvm s)) m.
Definition val_read_reset_status : M (lst W D) Z := gets l_nvm.
Definition val_write_reset_status (status : Z) : M (lst W D) unit :=
  modify (fun s => mk_lst (l_run s) (l_el3 s) status).

Definition shared_attr : Z :=
  u32 (LOWER_ATTRS (PGT_ENTRY_ACCESS .| SHAREABLE_ATTR OUTER_SHAREABLE .| PGT_ENTRY_AP_RW)).
Definition ns_attr : Z := shared_attr .| LOWER_ATTRS (PAS_ATTR NONSECURE_PAS).
(** The RME module, which installs the handler, does not run. *)
Definition rme_skipped : bool :=
  other_module g_single_test g_single_module ACS_RME_TEST_NUM_BASE.
Definition install (sp_val : Z) : M (lst W D) unit :=
  el3_call (val_add_mmu_entry_el3 vec fuel SHARED_ADDRESS SHARED_ADDRESS ns_attr) ;;
  el3_call (val_add_mmu_entry_el3 vec fuel sp_val sp_val ns_attr) ;;
  el3_call (val_rme_install_handler_el3 vec fuel).

(** Label [reset_done_ls_dis], with the status so far, [None] when it was never
    assigned. *)
Definition reset_done_ls_dis (status : option Z) : M (lst W D) Z :=
  let! st := runner (entry 4) in
  let! status := use status in
  ret (status .| st).
(** Label [reset_done_ls3]. The system resets before the call of
    [val_system_reset] returns; what follows is what the code does when the
    reset request is refused. *)
Definition reset_done_ls3 : M (lst W D) Z :=
  let! status := runner (entry 3) in
  el3_call (val_prog_legacy_tz vec fuel CLEAR) ;;
  val_write_reset_status RESET_LS_DISBL_FLAG ;;
  runner val_system_reset ;;
  reset_done_ls_dis (Some status).

(** Both chains of jumps; the first asks for the flags in another order, which
    makes no difference as they are distinct. *)
Definition val_legacy_execute_tests (sp_val : Z) : M (lst W D) Z :=
  if module_listed g_skip_test_num ACS_LEGACY_TEST_NUM_BASE then ret ACS_STATUS_SKIP else
  if negb (g_single_module =? SINGLE_MODULE_SENTINEL) &&
     negb (g_single_module =? ACS_LEGACY_TEST_NUM_BASE) then ret ACS_STATUS_SKIP else
  if negb IS_LEGACY_TZ_ENABLED then ret ACS_STATUS_SKIP else
  (when rme_skipped then install sp_val) ;;
  let! reset_status := val_read_reset_status in
  if reset_status =? RESET_LS_TEST3_FLAG then reset_done_ls3
  else if reset_status =? RESET_LS_DISBL_FLAG then reset_done_ls_dis None
  else
    let! _status := runner (run_from entry 1 [2; 3]) in
    reset_done_ls3.
End legacy.

(** ** What the status of the legacy module says *)

Section legacy_status.
Context {W D : Type} {PES : Pes W} {HW : Hw D}.
Variable entry : Z -> T W Z.
Variables (skip : list Z) (single module : Z) (vec : Z) (fuel : nat).
Implicit Types s : lst W D.

Lemma runner_inv {A} (m : T W A) s a s' : runner m s = Done a s' ->
  m (l_run s) = Done a (l_run s') /\ l_el3 s' = l_el3 s /\ l_nvm s' = l_nvm s.
Proof. unfold runner, zoom. destruct (m (l_run s)) eqn:E; by intros [= <- <-]. Qed.

(** The argument is dropped on the way: EL3 is asked to enable. *)
Lemma legacy_tz_run enable s :
  el3_call (val_prog_legacy_tz vec fuel enable) s =
  Done tt (mk_lst (l_run s) (add_ev (EvLegacyTz SET) (l_el3 s)) (l_nvm s)).
Proof. reflexivity. Qed.

Lemma ls_dis_inv st s r s' : reset_done_ls_dis entry (Some st) s = Done r s' ->
  (exists (s4 : tst W) st4, entry 4 s4 = Done st4 (l_run s') /\ r = Z.lor st st4) /\
  l_el3 s' = l_el3 s /\ l_nvm s' = l_nvm s.
Proof.
  unfold reset_done_ls_dis. intros H. minv. cbn in Hr0. injection Hr0 as -> ->.
  destruct (runner_inv _ _ _ _ Hr) as (H4 & He & Hn). eauto 10.
Qed.

Lemma ls3_inv s r s' : reset_done_ls3 entry vec fuel s = Done r s' ->
  (exists (s3 t3 : tst W) st3 (s4 : tst W) st4, entry 3 s3 = Done st3 t3 /\
     entry 4 s4 = Done st4 (l_run s') /\ r = Z.lor st3 st4) /\
  e_trace (l_el3 s') = EvLegacyTz SET :: e_trace (l_el3 s) /\ l_nvm s' = RESET_LS_DISBL_FLAG.
Proof.
  unfold reset_done_ls3. intros H. minv. rewrite legacy_tz_run in Hr0. injection Hr0 as ? ?. subst.
  destruct (runner_inv _ _ _ _ Hr) as (H3 & He & Hn).
  destruct (runner_inv _ _ _ _ Hr2) as (_ & He2 & Hn2).
  destruct (ls_dis_inv _ _ _ _ H) as ((s4 & st4 & H4 & ->) & He4 & Hn4).
  injection Hr1 as ? ?. subst s2.
  split; [eauto 10|]. rewrite He4, He2. cbn. by rewrite He, Hn4, Hn2.
Qed.

(** Of the four legacy system tests only the second run of test 3 and test 4
    count: the results of tests 1 and 2, and of the first run of test 3, are
    dropped. Before the reset the module asks EL3 to disable the legacy tie-off,
    and what reaches EL3 is a request to enable it. When the module is entered
    again after that reset, its status was never assigned. *)
Theorem legacy_status_and_tieoff single_test sp s :
  (forall r s',
     val_legacy_execute_tests entry skip single_test module true vec fuel sp s = Done r s' ->
     (r = ACS_STATUS_SKIP /\ s' = s) \/
     (exists (s3 t3 : tst W) st3 (s4 : tst W) st4,
        entry 3 s3 = Done st3 t3 /\ entry 4 s4 = Done st4 (l_run s') /\ r = Z.lor st3 st4) /\
     (exists tr, e_trace (l_el3 s') = EvLegacyTz SET :: tr) /\ l_nvm s' = RESET_LS_DISBL_FLAG) /\
  (module_listed skip ACS_LEGACY_TEST_NUM_BASE = false -> module = SINGLE_MODULE_SENTINEL ->
   l_nvm s = RESET_LS_DISBL_FLAG -> (exists st t, entry 4 (l_run s) = Done st t) ->
   val_legacy_execute_tests entry skip single_test module true vec fuel sp s = Undef).
Proof.
  unfold val_legacy_execute_tests. cbn [negb]. split.
  - intros r s'. destruct (module_listed _ _); [intros [= <- <-]; by left|].
    destruct (_ && _); [intros [= <- <-]; by left|]. intros H. right.
    minv. repeat match type of H with (if ?b then _ else _) _ = _ => destruct b end; minv.
    + destruct (ls3_inv _ _ _ H) as (H1 & H2 & H3). eauto.
    + unfold reset_done_ls_dis in H. minv.
      by match goal with H : use None _ = Done _ _ |- _ => discriminate H end.
    + destruct (ls3_inv _ _ _ H) as (H1 & H2 & H3). eauto.
  - intros -> -> Hn (st & t & H4).
    unfold rme_skipped, other_module. rewrite Z.eqb_refl. cbn [negb andb].
    unfold val_read_reset_status, bind, gets. cbn [ret]. rewrite Hn. cbn.
    unfold reset_done_ls_dis, bind, runner, zoom. by rewrite H4.
Qed.
End legacy_status.

(** ** The other modules *)

Section other_modules.
Context {W : Type} {PES : Pes W}.
Variable entry : Z -> T W Z.
Implicit Types s : tst W.

Lemma run_tests_or tests st s r s' : run_tests entry tests st s = Done r s' ->
  exists sts, length sts = length tests /\ r = fold_left Z.lor sts st.
Proof.
  revert st s. induction tests as [|n tests IH]; intros st s H; cbn [run_tests] in H.
  { injection H as <- <-. by exists []. }
  minv. destruct (IH _ _ H) as (sts & Hl & ->). exists (a :: sts). split; [cbn; by rewrite Hl|done].
Qed.

(** The status of the device assignment module collects those of its 20 tests;
    after one of the resets it was never assigned. *)
Lemma da_status single_test s reset_status :
  (forall r s', val_rme_da_execute_tests entry [] single_test SINGLE_MODULE_SENTINEL
      reset_status s = Done r s' ->
     exists st sts, length sts = 19%nat /\ r = fold_left Z.lor sts st) /\
  (reset_status ∈ [RESET_TST12_FLAG; RESET_TST31_FLAG; RESET_TST2_FLAG; RESET_LS_DISBL_FLAG;
                   RESET_LS_TEST3_FLAG] ->
   val_rme_da_execute_tests entry [] single_test SINGLE_MODULE_SENTINEL reset_status s = Undef).
Proof.
  split.
  - intros r s' H. unfold val_rme_da_execute_tests, other_module in H.
    rewrite Z.eqb_refl in H. cbn -[run_tests run_from] in H.
    destruct (negb _ && _ && _ && _ && _); [|discriminate]. unfold run_from in H. minv.
    destruct (run_tests_or _ _ _ _ _ H) as (sts & Hl & ->). exists a, sts. by split.
  - intros H. repeat (apply list.elem_of_cons in H as [->|H]; [reflexivity|]).
    by apply list.elem_of_nil in H.
Qed.
End other_modules.


(** ** Examples *)

Definition still : tst unit := mk_tst tt [] None 0 0 0 0 0 1 0 [].
Definition still_lst (nvm : Z) : lst unit unit := mk_lst still (el3_init tt ∅) nvm.

Lemma legacy_status_and_tieoff_witness :
  @val_legacy_execute_tests unit unit quiet_hw (fun _ => ret ACS_STATUS_FAIL) []
    0 SINGLE_MODULE_SENTINEL true 0 10 0 (still_lst RESET_LS_DISBL_FLAG) = Undef.
Proof.
  apply (@legacy_status_and_tieoff unit unit quiet_hw (fun _ => ret ACS_STATUS_FAIL) []
           SINGLE_MODULE_SENTINEL 0 10 0 0 (still_lst RESET_LS_DISBL_FLAG)); [reflexivity..|].
  by exists ACS_STATUS_FAIL, still.
Defined.

(** Tests 1 and 2 fail and the module passes. *)
Example legacy_failures_dropped :
  match @val_legacy_execute_tests unit unit quiet_hw
      (fun n => ret (if n <=? 2 then ACS_STATUS_FAIL else ACS_STATUS_PASS)) []
      0 SINGLE_MODULE_SENTINEL true 0 10 0 (still_lst 0) with
  | Done r s' => (r, e_trace (l_el3 s'))
  | _ => (1, [])
  end = (ACS_STATUS_PASS, [EvLegacyTz SET]).
Proof. vm_compute. reflexivity. Qed.
