(* ===== verification/Da.v ===== *)
(** * Da

    Device assignment: the link encryption registers (IDE) and the interconnect
    check of val/src/acs_da.c, and the TDISP messages of
    platform/pal_baremetal/src/pal_tdisp_spdm.c, which travel through the data
    object exchange mailbox (DOE) of a Function. *)

From Stdlib Require Import ZArith Lia Bool List.
From stdpp Require Import base tactics numbers list gmap option.
From S2P Require Import Prelude Memory El3State El3Handler El3Call Pcie PcieEnum PciePal Exerciser.

(** ** Constants (rme_acs_pcie_spec.h, pal_common_support.h) *)
Definition ECID_IDE : Z := 0x0030.
Definition IDE_CAP_REG : Z := 0x4.
Definition IDE_CAP_REG_SIZE : Z := 0xC.
Definition LINK_IDE_BLK_SIZE : Z := 0x8.
Definition SEL_IDE_CAP_CNTRL_REG : Z := 0x4.
Definition SEL_IDE_CAP_STATUS_REG : Z := 0x8.
Definition SEL_IDE_CAP_REG_SIZE : Z := 0xC.
Definition RID_ADDR_REG1_SIZE : Z := 0x4.
Definition RID_ADDR_REG2_SIZE : Z := 0x4.
Definition IDE_ADDR_REG_BLK_SIZE : Z := 0xC.
Definition SEL_IDE_STATE_MASK : Z := 0xF.
Definition STREAM_STATE_SECURE : Z := 0x2.
Definition SEL_IDE_STR_MASK : Z := 0x2.
Definition SEL_IDE_STR_SHIFT : Z := 0x1.
Definition NUM_SEL_STR_MASK : Z := 0xFF0000.
Definition NUM_SEL_STR_SHIFT : Z := 16.
Definition NUM_TC_SUPP_MASK : Z := 0xE000.
Definition NUM_TC_SUPP_SHIFT : Z := 13.
Definition NUM_ADDR_ASSO_REG_MASK : Z := 0xF.
Definition NUM_ADDR_ASSO_REG_SHIFT : Z := 0.
Definition DOE_CAP_ID : Z := 0x002E.
Definition DOE_CTRL_REG : Z := 0x8.
Definition DOE_STATUS_REG : Z := 0xC.
Definition DOE_WRITE_DATA_MAILBOX_REG : Z := 0x10.
Definition DOE_READ_DATA_MAILBOX_REG : Z := 0x14.
Definition DOE_STATUS_REG_BUSY : Z := 0.
Definition DOE_STATUS_REG_ERROR : Z := 2.
Definition DOE_STATUS_REG_READY : Z := 31.
Definition TEST_DATA_1 : Z := 0xabababab.
Definition TEST_DATA_2 : Z := 0xcdcdcdcd.
Definition INTERCONNECT : Z := 1.
Definition RMSD_PROTECT : Z := 2.

Definition VAL_EXTRACT_BITS (data st en : Z) : Z := (data >> st) .& ((1 << (en - st + 1)) - 1).
Definition PCIE_CREATE_BDF_PACKED (bdf : Z) : Z :=
  PCIE_EXTRACT_BDF_FUNC bdf .| (PCIE_EXTRACT_BDF_DEV bdf << 3) .| (PCIE_EXTRACT_BDF_BUS bdf << 8).

Record REGISTER_INFO_TABLE := mk_register { r_type : Z; r_bdf : Z; r_address : Z; r_property : Z }.

(** The non-secure side of the bus: what a register access of the VAL does to
    the hardware that EL3 sees through [Hw]. *)
Class NsBus (D : Type) := {
  ns_read : D -> Z -> Z * D;
  ns_write : D -> Z -> Z -> D
}.

(** ** Selective IDE streams *)

Section ide.
Context {D : Type} {HW : Hw D} {PAL : PciPal}.

Definition num_sel (reg_value : Z) : Z := (reg_value .& NUM_SEL_STR_MASK) >> NUM_SEL_STR_SHIFT.
Definition num_tc (reg_value : Z) : Z := (reg_value .& NUM_TC_SUPP_MASK) >> NUM_TC_SUPP_SHIFT.
Definition num_addr (reg_value : Z) : Z :=
  (reg_value .& NUM_ADDR_ASSO_REG_MASK) >> NUM_ADDR_ASSO_REG_SHIFT.

(** The prologue the functions share: the IDE capability and its first
    register when selective streams are supported. *)
Definition ide_capability (fuel : nat) (bdf : Z) : P D (option (Z * Z)) :=
  let! '(status, o) := val_pcie_find_capability fuel bdf PCIE_ECAP ECID_IDE in
  if negb (status =? PCIE_SUCCESS) then ret None else
  let! ide_cap_base := use o in
  let! reg_value := cfg bdf (u32 (ide_cap_base + IDE_CAP_REG)) in
  let sel_ide_str_supported := (reg_value .& SEL_IDE_STR_MASK) >> SEL_IDE_STR_SHIFT in
  if sel_ide_str_supported =? 0 then ret None else ret (Some (ide_cap_base, reg_value)).

(** The first selective stream block, behind the link IDE blocks. *)
Definition first_block (ide_cap_base reg_value : Z) : Z :=
  u32 (u32 (ide_cap_base + IDE_CAP_REG_SIZE) + u32 ((num_tc reg_value + 1) * LINK_IDE_BLK_SIZE)).
Definition next_block (current_base_offset num_addr_asso_block : Z) : Z :=
  u32 (current_base_offset + SEL_IDE_CAP_REG_SIZE + RID_ADDR_REG1_SIZE + RID_ADDR_REG2_SIZE +
       num_addr_asso_block * IDE_ADDR_REG_BLK_SIZE).

(** One turn of the loop over the streams, [action] is done at the wanted one. *)
Definition stream_step (bdf str_cnt : Z) {R} (action : Z -> P D R)
    (count current_base_offset : Z) : P D (Z + R) :=
  let! reg_value := cfg bdf current_base_offset in
  if count =? str_cnt then let! r := action current_base_offset in ret (inr r)
  else ret (inl (next_block current_base_offset (num_addr reg_value))).
(** [count] runs from 1 to the number of streams; [None] stands for failure. *)
Definition with_stream (fuel : nat) (bdf str_cnt : Z) {R} (action : Z -> P D R)
    : P D (option R) :=
  let! cap := ide_capability fuel bdf in
  match cap with
  | None => ret None
  | Some (ide_cap_base, reg_value) =>
      let! r := for_acc (Z.to_nat (num_sel reg_value + 1)) 1 (first_block ide_cap_base reg_value)
                  (stream_step bdf str_cnt action) in
      ret (match r with inl _ => None | inr r => Some r end)
  end.
Definition status_of {R} (r : option R) : Z := match r with Some _ => 0 | None => 1 end.

Definition val_ide_set_sel_stream (fuel : nat) (bdf str_cnt enable : Z) : P D Z :=
  let! r := with_stream fuel bdf str_cnt (fun current_base_offset =>
    let cntrl := u32 (current_base_offset + SEL_IDE_CAP_CNTRL_REG) in
    let! reg_value := cfg bdf cntrl in
    val_pcie_write_cfg bdf cntrl (if truthy enable then reg_value .| 1 else 0)) in
  ret (status_of r).

Definition val_ide_program_stream_id (fuel : nat) (bdf str_cnt stream_id : Z) : P D Z :=
  let! r := with_stream fuel bdf str_cnt (fun current_base_offset =>
    val_pcie_write_cfg bdf (u32 (current_base_offset + SEL_IDE_CAP_CNTRL_REG))
      (u32 (stream_id << 24) .& 0xFF000000)) in
  ret (status_of r).

Definition val_ide_program_rid_base_limit_valid (fuel : nat) (bdf str_cnt base limit valid : Z)
    : P D Z :=
  let! r := with_stream fuel bdf str_cnt (fun current_base_offset =>
    let rid_asso_reg_1 := u32 (current_base_offset + SEL_IDE_CAP_REG_SIZE) in
    let rid_asso_reg_2 := u32 (rid_asso_reg_1 + RID_ADDR_REG1_SIZE) in
    val_pcie_write_cfg bdf rid_asso_reg_1 (u32 (limit << 8) .& 0xFFFF00) ;;
    val_pcie_write_cfg bdf rid_asso_reg_2 (u32 (base << 8) .& 0xFFFF00) ;;
    val_pcie_write_cfg bdf rid_asso_reg_2 valid) in
  ret (status_of r).

(** The status and what is stored through the pointer. *)
Definition val_ide_get_num_sel_str (fuel : nat) (bdf : Z) : P D (Z * option Z) :=
  let! cap := ide_capability fuel bdf in
  ret (match cap with
       | None => (1, None)
       | Some (_, reg_value) => (0, Some (num_sel reg_value + 1))
       end).
Definition val_get_sel_str_status (fuel : nat) (bdf str_cnt : Z) : P D (Z * option Z) :=
  let! r := with_stream fuel bdf str_cnt (fun current_base_offset =>
    let! reg_value := cfg bdf (u32 (current_base_offset + SEL_IDE_CAP_STATUS_REG)) in
    ret (reg_value .& SEL_IDE_STATE_MASK)) in
  ret (status_of r, r).

Definition val_ide_establish_stream (fuel : nat) (bdf count stream_id base_limit : Z) : P D Z :=
  let rid := PCIE_CREATE_BDF_PACKED base_limit in
  let! status := val_ide_program_rid_base_limit_valid fuel bdf count rid rid 1 in
  if truthy status then ret 1 else
  let! status := val_ide_program_stream_id fuel bdf count stream_id in
  if truthy status then ret 1 else
  let! status := val_ide_set_sel_stream fuel bdf count 1 in
  if truthy status then ret 1 else
  let! '(status, v) := val_get_sel_str_status fuel bdf count in
  if truthy status then ret 1 else
  let! reg_value := use v in
  ret (if reg_value =? STREAM_STATE_SECURE then 0 else 1).

(** [VAL_EXTRACT_BITS] is applied to the status of the read; the value the
    read stored is overwritten by the result. *)
Definition rid_field (bdf offset : Z) : P D Z :=
  let! '(status, _v) := val_pcie_read_cfg bdf offset in ret (VAL_EXTRACT_BITS status 8 23).

Record asso_block := mk_asso {
  num_sel_ide_stream_supp : Z; num_tc_supp : Z; asso_offset : Z; num_addr_asso_block : Z;
  rid_limit : Z; rid_base : Z
}.
(** What is stored through the pointers. *)
Definition val_da_get_addr_asso_block_base (current_base_offset bdf reg_value : Z) : P D asso_block :=
  let ns := num_sel reg_value in
  let nt := num_tc reg_value in
  let off := first_block current_base_offset reg_value in
  let! '(_r, v) := val_pcie_read_cfg bdf off in
  let reg_value := default reg_value v in
  let off := u32 (off + SEL_IDE_CAP_REG_SIZE) in
  let! limit := rid_field bdf off in
  let off := u32 (off + RID_ADDR_REG1_SIZE) in
  let! base := rid_field bdf off in
  ret (mk_asso ns nt (u32 (off + RID_ADDR_REG2_SIZE)) (num_addr reg_value) limit base).
(** The new offset and number of blocks, the limit and the base. *)
Definition val_da_get_next_rid_values (current_base_offset num_addr_asso_block bdf : Z)
    : P D (Z * Z * Z * Z) :=
  let off := u32 (current_base_offset + u32 (num_addr_asso_block * IDE_ADDR_REG_BLK_SIZE)) in
  let! reg_value := cfg bdf off in
  let off := u32 (off + SEL_IDE_CAP_REG_SIZE) in
  let! limit := rid_field bdf off in
  let off := u32 (off + RID_ADDR_REG1_SIZE) in
  let! base := rid_field bdf off in
  ret (off, num_addr reg_value, limit, base).
End ide.

(** ** Mailbox and TDISP messages *)

(** The state: the PCIe library's and the array [response] of 100 words. *)
Record dst (D : Type) := mk_dst { d_pci : pst D; response : list Z }.
Arguments mk_dst {D}. Arguments d_pci {D}. Arguments response {D}.
Abbreviation T D := (M (dst D)).
Definition response_init : list Z := replicate 100 0.

(** Little-endian words over bytes, and back. *)
Definition word_at (b : list Z) (i : nat) : option Z :=
  match b !! (4 * i)%nat, b !! (4 * i + 1)%nat, b !! (4 * i + 2)%nat, b !! (4 * i + 3)%nat with
  | Some x0, Some x1, Some x2, Some x3 => Some (x0 + (x1 << 8) + (x2 << 16) + (x3 << 24))
  | _, _, _, _ => None
  end.
Definition byte_of (words : list Z) (i : nat) : option Z :=
  option_map (fun w => u8 (w >> (8 * Z.of_nat (i mod 4)))) (words !! (i / 4)%nat).

(** The stores [request[i] = v] of a message, in order; [None] past the end. *)
Definition put_byte (b : option (list Z)) (x : Z * Z) : option (list Z) :=
  match b with
  | Some l => if decide (Z.to_nat (fst x) < length l)%nat then Some (<[Z.to_nat (fst x) := u8 (snd x)]> l) else None
  | None => None
  end.
Definition put_bytes (l : list Z) (stores : list (Z * Z)) : option (list Z) :=
  fold_left put_byte stores (Some l).

Definition spdm_header (payload : Z) : list (Z * Z) :=
  [(0, 0x12); (1, 0xFE); (2, 0x00); (3, 0x00); (4, 0x3); (5, 0x00); (6, 0x02); (7, 0x01);
   (8, 0x00); (9, payload); (10, 0x00)].
Definition tdisp_header (req_id type : Z) : list (Z * Z) :=
  [(11, 0x1); (12, 0x10); (13, type); (16, VAL_EXTRACT_BITS req_id 0 7);
   (17, VAL_EXTRACT_BITS req_id 8 15)].

(** The request after the call and [*req_length]. *)
Definition pal_form_get_version_msg (req_id : Z) (request : list Z) : option (list Z) * Z :=
  (put_bytes request (spdm_header 0x12 ++ tdisp_header req_id 0x81 ++
     [(18, 0); (19, 0); (28, 0x01); (29, 0x10)]), 0x1e).
Definition pal_form_tdisp_lock_msg (req_id : Z) (request : list Z) : option (list Z) * Z :=
  (put_bytes request (spdm_header 0x24 ++ tdisp_header req_id 0x83 ++
     [(28, 0x00); (29, 0x00); (30, 0x00); (31, 0x00)]), 0x30).
(** The nonce is taken from the response to the lock request. *)
Definition nonce_stores (resp : list Z) : list (Z * Z) :=
  map (fun k => (28 + Z.of_nat k, default 0 (byte_of resp (28 + k)))) (seq 0 32).
Definition pal_form_tdisp_run_msg (req_id : Z) (resp request : list Z) : option (list Z) * Z :=
  (put_bytes request (spdm_header 0x30 ++ tdisp_header req_id 0x86 ++ nonce_stores resp), 0x3c).
Definition pal_form_tdisp_get_state_msg (req_id : Z) (request : list Z) : option (list Z) * Z :=
  (put_bytes request (spdm_header 0x10 ++ tdisp_header req_id 0x85), 0x1c).

Section tdisp.
Context {D : Type} {HW : Hw D}.
Context (platform_pcie_cfg : list ecam_block).
(** Bounds the capability walks and the words of a response. *)
Variable fuel : nat.

Definition pci {A} (m : P D A) : T D A := zoom d_pci (fun p s => mk_dst p (response s)) m.
Definition set_response (f : list Z -> list Z) : T D unit :=
  modify (fun s => mk_dst (d_pci s) (f (response s))).

(** The base of the mailbox registers, [None] without the capability. *)
Definition doe_base (bdf : Z) : P D (option Z) :=
  let! Ecam := PciePal.pal_pcie_get_mcfg_ecam platform_pcie_cfg in
  let config_addr := pal_exerciser_get_pcie_config_offset bdf in
  let! '(status, o) := pal_exerciser_find_pcie_capability platform_pcie_cfg fuel DOE_CAP_ID bdf PCIE in
  ret (if truthy status then None else Some (Ecam + config_addr + default 0 o)).
Definition doe_read (base reg : Z) : P D Z := pal_mmio_read (u64 (base + reg)).
Definition doe_write (base reg v : Z) : P D unit := pal_mmio_write (u64 (base + reg)) v.
Definition status_bit (value bit : Z) : bool := truthy (VAL_EXTRACT_BITS value bit bit).

Fixpoint write_mailbox (base : Z) (words : list Z) : P D unit :=
  match words with
  | [] => ret tt
  | w :: words' => doe_write base DOE_WRITE_DATA_MAILBOX_REG w ;; write_mailbox base words'
  end.

(** [request] holds the words of the message. *)
Definition pal_write_doe_msgo_doe_mailbox (bdf : Z) (request : list Z) : P D Z :=
  let! b := doe_base bdf in
  match b with
  | None => ret 1
  | Some base =>
      let! value := doe_read base DOE_STATUS_REG in
      if status_bit value DOE_STATUS_REG_BUSY then ret 1 else
      let! value := doe_read base DOE_STATUS_REG in
      if status_bit value DOE_STATUS_REG_ERROR then ret 1 else
      doe_write base DOE_WRITE_DATA_MAILBOX_REG 0x10001 ;;
      doe_write base DOE_WRITE_DATA_MAILBOX_REG (u32 (Z.of_nat (length request) + 0x2)) ;;
      write_mailbox base request ;;
      doe_write base DOE_CTRL_REG 0x80000000 ;;
      ret 0
  end.

(** One word of the response; behind the array it is lost. *)
Definition recv_step (base len i : Z) : T D (Z + unit) :=
  if i <? len then
    let! value := pci (doe_read base DOE_READ_DATA_MAILBOX_REG) in
    pci (doe_write base DOE_READ_DATA_MAILBOX_REG 0) ;;
    let! r := gets response in
    require (Z.to_nat i <? length r)%nat ;;
    set_response (insert (Z.to_nat i) value) ;;
    ret (inl (i + 1))
  else ret (inr tt).
Definition pal_host_pcie_doe_recv_resp (bdf : Z) : T D Z :=
  let! b := pci (doe_base bdf) in
  match b with
  | None => ret 1
  | Some base =>
      let! value := pci (doe_read base DOE_STATUS_REG) in
      if negb (status_bit value DOE_STATUS_REG_READY) then ret 1 else
      let! value := pci (doe_read base DOE_STATUS_REG) in
      if status_bit value DOE_STATUS_REG_ERROR then ret 1 else
      let! _header := pci (doe_read base DOE_READ_DATA_MAILBOX_REG) in
      pci (doe_write base DOE_READ_DATA_MAILBOX_REG 0) ;;
      let! value := pci (doe_read base DOE_READ_DATA_MAILBOX_REG) in
      pci (doe_write base DOE_READ_DATA_MAILBOX_REG 0) ;;
      let! _r := loop fuel (recv_step base (u32 (value - 0x2))) 0 in
      let! value := pci (doe_read base DOE_STATUS_REG) in
      ret (if status_bit value DOE_STATUS_REG_READY then 1 else 0)
  end.
Definition pal_check_doe_response (bdf : Z) : T D Z :=
  let! r := pal_host_pcie_doe_recv_resp bdf in
  ret (if truthy r then 1 else 0).

(** The first [doe_length] words behind a buffer of bytes. *)
Definition words_of (b : list Z) (req_length : Z) : option (list Z) :=
  mapM (word_at b) (seq 0 (Z.to_nat (if truthy (req_length mod 4) then (req_length >> 2) + 1
                                      else req_length >> 2))).
(** One exchange: the results of both calls are ignored by the callers. *)
Definition exchange (bdf : Z) (msg : option (list Z) * Z) : T D unit :=
  let! b := use (fst msg) in
  let! words := use (words_of b (snd msg)) in
  let! _r := pci (pal_write_doe_msgo_doe_mailbox bdf words) in
  let! _r := pal_check_doe_response bdf in
  ret tt.

Definition pal_device_unlock (bdf : Z) : T D Z :=
  let req_id := wrap 16 (PCIE_CREATE_BDF_PACKED bdf) in
  let req_addr := replicate 50 0 in
  exchange bdf (put_bytes req_addr (spdm_header 0x10 ++ tdisp_header req_id 0x87), 0x1c) ;;
  exchange bdf (pal_form_tdisp_get_state_msg req_id req_addr) ;;
  ret 0.

(** [req_addr] is cleared before every message but the first, which finds it
    clear. *)
Definition pal_device_lock (bdf : Z) : T D Z :=
  let req_id := wrap 16 (PCIE_CREATE_BDF_PACKED bdf) in
  let req_addr := replicate 100 0 in
  exchange bdf (Some [0x10; 0x84; 0; 0], 0x4) ;;
  exchange bdf (pal_form_get_version_msg req_id req_addr) ;;
  exchange bdf (pal_form_tdisp_get_state_msg req_id req_addr) ;;
  exchange bdf (pal_form_tdisp_lock_msg req_id req_addr) ;;
  let! resp := gets response in
  exchange bdf (pal_form_tdisp_run_msg req_id resp req_addr) ;;
  exchange bdf (pal_form_tdisp_get_state_msg req_id req_addr) ;;
  ret 0.
Definition val_device_lock (bdf : Z) : T D Z := pal_device_lock bdf.
Definition val_device_unlock (bdf : Z) : T D Z := pal_device_unlock bdf.
End tdisp.

(** ** The table of registers (pal_register.c of the FVP, acs_da.c) *)

Definition rp_regs : list REGISTER_INFO_TABLE := [].
(** The copy into the table at [registerInfoTable], [None] behind its end. *)
Fixpoint copy_regs (regs : list REGISTER_INFO_TABLE) (index : nat)
    (registerInfoTable : list REGISTER_INFO_TABLE) : option (list REGISTER_INFO_TABLE) :=
  match regs with
  | [] => Some registerInfoTable
  | r :: regs' =>
      if decide (index < length registerInfoTable)%nat
      then copy_regs regs' (S index) (<[index := r]> registerInfoTable) else None
  end.
Definition pal_register_create_info_table (registerInfoTable : option (list REGISTER_INFO_TABLE))
    : option (option (list REGISTER_INFO_TABLE)) :=
  match registerInfoTable with
  | None => Some None
  | Some t => option_map Some (copy_regs rp_regs 0 t)
  end.
Definition pal_register_get_num_entries : Z := Z.of_nat (length rp_regs).
(** The new [g_register_info_table], a pointer to the table that is filled. *)
Definition val_register_create_info_table (register_info_table : option (list REGISTER_INFO_TABLE))
    : option (option (list REGISTER_INFO_TABLE)) :=
  pal_register_create_info_table register_info_table.
Definition val_register_get_num_entries : Z := pal_register_get_num_entries.

(** ** The interconnect check *)

Section check.
Context {D : Type} {HW : Hw D} {NB : NsBus D}.
Variables (vec : Z) (fuel : nat).

(** The VAL's register accesses of 32 bits. *)
Definition val_mmio_read (a : Z) : E D Z := fun s =>
  let '(v, d) := ns_read (e_dev s) a in Done (u32 v) (set_dev d s).
Definition val_mmio_write (a v : Z) : E D unit := modify (fun s =>
  set_dev (ns_write (e_dev s) a (u32 v)) s).

(** [shared_data->num_access = 1] and the fields of [shared_data_access[0]]. *)
Definition set_num_access (n : Z) (r : struct_sh_data) : struct_sh_data :=
  mk_shared (access_data r) (sh_elr_el3 r) (sh_spsr_el3 r) (exception_expected r)
    (exception_generated r) (sh_access_mut r) (esr_value r) (sh_arg0 r) (sh_arg1 r) n
    (pas_filter_flag r) (generic_flag r) (reg_info r) (sh_access r).
Definition set_access0 (a : shared_data_access) : E D unit :=
  let! l := sh sh_access in
  require (0 <? length l)%nat ;;
  modify (set_shared (fun r => set_sh_access (<[0%nat := a]> (sh_access r)) r)).
Definition access0 : E D shared_data_access :=
  let! l := sh sh_access in use (l !! 0%nat).
Definition prepare (type address : Z) (data : option Z) : E D unit :=
  modify (set_shared (set_num_access 1)) ;;
  let! a := access0 in
  set_access0 (mk_access type address (default (acc_data a) data)).

(** The accesses from Non-secure, and the restore of the original data. *)
Definition ns_accesses (address org_data : Z) : E D Z :=
  let! rd_data := val_mmio_read address in
  if rd_data =? TEST_DATA_1 then ret 1 else
  val_mmio_write address TEST_DATA_2 ;;
  let! rd_data := val_mmio_read address in
  if rd_data =? TEST_DATA_2 then ret 1 else
  prepare WRITE_DATA address (Some org_data) ;;
  val_pe_access_mut_el3 vec fuel ;;
  ret 0.
Definition val_intercnt_sec_prpty_check (e : REGISTER_INFO_TABLE) : E D Z :=
  if negb (r_type e =? INTERCONNECT) then ret 0 else
  if r_property e =? RMSD_PROTECT then
    (* the original data *)
    prepare READ_DATA (r_address e) None ;;
    val_pe_access_mut_el3 vec fuel ;;
    let! a := access0 in
    let org_data := u32 (acc_data a) in
    (* the write from root is prepared, but the call is missing *)
    prepare WRITE_DATA (r_address e) (Some TEST_DATA_1) ;;
    ns_accesses (r_address e) org_data
  else ret 1.
End check.
