(* ===== verification/DaSpec.v ===== *)
(** * DaSpec

    Properties of the device assignment code modelled in [Da]: the walk to a
    selective IDE stream and what the programming of a stream leaves in its
    registers, the exchange of messages through the DOE mailbox, and what the
    interconnect check detects. *)

From Stdlib Require Import ZArith Lia Bool List.
From stdpp Require Import base tactics numbers list gmap option.
From S2P Require Import Prelude Memory El3State El3Common El3Handler El3Call Pcie PcieSpec PcieEnum PciePal Exerciser Da.
Local Open Scope Z_scope.

(** ** The IDE capability in configuration space *)

(** The offset of the [k]-th selective stream block (from 0) of a capability at
    [cap] for [ntc + 1] traffic classes, when block [j] has [ns !! j] address
    association blocks: the sizes of the PCIe specification. *)
Definition block_size (n : Z) : Z := 20 + 12 * n.
Fixpoint sizes (ns : list Z) : Z :=
  match ns with [] => 0 | n :: ns' => block_size n + sizes ns' end.
Definition block_off (cap ntc : Z) (ns : list Z) (k : nat) : Z :=
  cap + 12 + 8 * (ntc + 1) + sizes (take k ns).

Lemma sizes_take_S ns k n : ns !! k = Some n ->
  sizes (take (S k) ns) = sizes (take k ns) + block_size n.
Proof.
  revert k. induction ns as [|m ns IH]; intros [|k] H; try done; cbn in *.
  - injection H as ->. rewrite firstn_O. cbn. lia.
  - specialize (IH k H). cbn in IH. lia.
Qed.
Lemma block_off_S cap ntc ns k n : ns !! k = Some n ->
  block_off cap ntc ns (S k) = block_off cap ntc ns k + block_size n.
Proof. intros H. unfold block_off. rewrite (sizes_take_S _ _ _ H). lia. Qed.

Section walk.
Context {D : Type} {HW : Hw D} {PAL : PciPal}.
Implicit Types s : pst D.
Variable regs : D -> Z -> Z.
Hypothesis static : forall d a, hw_read 4 d a = (regs d a, d).
Variables (bdf : Z) (b : ecam_block).
Hypothesis Hok : bdf_ok bdf.
Hypothesis Hbase : base_ok b.
Abbreviation creg := (creg regs bdf b).

(** Configuration space of a Function with the IDE capability at [cap]: [l] is
    its list of extended capabilities. *)
Record ide_layout (d : D) (cap ntc : Z) (ns l : list Z) : Prop := {
  lay_present : creg d TYPE01_CPR <> PCIE_UNKNOWN_RESPONSE;
  lay_chain : chain (fun o => hdr_next PCIE_ECAP (creg d o)) PCIE_ECAP_START l;
  lay_cap : List.find (fun o => hdr_id PCIE_ECAP (creg d o) =? ECID_IDE) l = Some cap;
  lay_nonneg : 0x100 <= cap;
  lay_aligned : aligned cap 4;
  lay_sel : (creg d (cap + IDE_CAP_REG) .& SEL_IDE_STR_MASK) >> SEL_IDE_STR_SHIFT <> 0;
  lay_tc : num_tc (creg d (cap + IDE_CAP_REG)) = ntc;
  lay_n : num_sel (creg d (cap + IDE_CAP_REG)) + 1 = Z.of_nat (length ns);
  lay_blocks : forall k n, ns !! k = Some n -> num_addr (creg d (block_off cap ntc ns k)) = n;
  lay_fits : block_off cap ntc ns (length ns) <= 4096;
  lay_apart : forall o, o ∈ l -> o <= cap \/ block_off cap ntc ns (length ns) <= o
}.

Lemma num_tc_range v : 0 <= num_tc v < 8.
Proof.
  unfold num_tc. change NUM_TC_SUPP_MASK with (Z.ones 3 << 13).
  rewrite fld_mask by (unfold NUM_TC_SUPP_SHIFT; lia). by apply (fld_range _ 3).
Qed.
Lemma num_addr_range v : 0 <= num_addr v < 16.
Proof.
  unfold num_addr. change NUM_ADDR_ASSO_REG_MASK with (Z.ones 4 << 0).
  rewrite fld_mask by (unfold NUM_ADDR_ASSO_REG_SHIFT; lia). by apply (fld_range _ 4).
Qed.

Section layout.
Context (d : D) (cap ntc : Z) (ns l : list Z).
Hypothesis lay : ide_layout d cap ntc ns l.

Lemma ns_range k n : ns !! k = Some n -> 0 <= n < 16.
Proof. intros H. rewrite <- (lay_blocks _ _ _ _ _ lay k n H). apply num_addr_range. Qed.

Lemma block_off_lt j k : (j < k <= length ns)%nat ->
  block_off cap ntc ns j + 20 <= block_off cap ntc ns k.
Proof.
  intros [Hjk Hk]. induction k as [|k IH]; [lia|].
  destruct (list.lookup_lt_is_Some_2 ns k ltac:(lia)) as [n Hn].
  pose proof (ns_range _ _ Hn). rewrite (block_off_S _ _ _ _ _ Hn). unfold block_size.
  destruct (decide (j = k)) as [->|]; [lia|]. specialize (IH ltac:(lia) ltac:(lia)). lia.
Qed.
Lemma block_off_bounds j : (j < length ns)%nat ->
  cap + 20 <= block_off cap ntc ns j /\
  block_off cap ntc ns j + 20 <= block_off cap ntc ns (length ns) <= 4096.
Proof.
  intros H. pose proof (block_off_lt j (length ns) ltac:(lia)).
  pose proof (lay_fits _ _ _ _ _ lay). pose proof (lay_tc _ _ _ _ _ lay) as Htc.
  pose proof (num_tc_range (creg d (cap + IDE_CAP_REG))).
  assert (block_off cap ntc ns 0 = cap + 12 + 8 * (ntc + 1)) as Hz.
  { unfold block_off. rewrite firstn_O. cbn. lia. }
  destruct j as [|j]; [lia|]. pose proof (block_off_lt 0 (S j) ltac:(lia)). lia.
Qed.

Lemma lay_bound : (0 < length ns)%nat /\ 0 <= ntc < 8 /\ 0x100 <= cap /\
  block_off cap ntc ns 0 = cap + 12 + 8 * (ntc + 1) /\ cap + 12 + 8 * (ntc + 1) + 20 <= 4096.
Proof.
  pose proof (lay_n _ _ _ _ _ lay) as Hn.
  assert (0 <= num_sel (creg d (cap + IDE_CAP_REG))) as Hs
    by (apply Z.shiftr_nonneg, Z.land_nonneg; by right).
  pose proof (num_tc_range (creg d (cap + IDE_CAP_REG))) as Ht.
  rewrite (lay_tc _ _ _ _ _ lay) in Ht. pose proof (lay_nonneg _ _ _ _ _ lay).
  assert (block_off cap ntc ns 0 = cap + 12 + 8 * (ntc + 1)) as Hz
    by (unfold block_off; rewrite firstn_O; cbn; lia).
  pose proof (block_off_bounds 0 ltac:(lia)). lia.
Qed.

(** The loop over the streams from stream [j] on. *)
Lemma stream_walk {R} (action : Z -> P D R) str_cnt : forall m j s,
  in_block bdf b s -> p_dev s = d -> (j + m = length ns)%nat ->
  exists s1, reads_only s s1 /\
    for_acc m (Z.of_nat j + 1) (block_off cap ntc ns j) (stream_step bdf str_cnt action) s =
    if (Z.of_nat j <? str_cnt) && (str_cnt <=? Z.of_nat (length ns))
    then bind (action (block_off cap ntc ns (Z.to_nat (str_cnt - 1)))) (fun r => ret (inr r)) s1
    else Done (inl (block_off cap ntc ns (length ns))) s1.
Proof.
  induction m as [|m IH]; intros j s Hin Hd Hlen; cbn [for_acc].
  { exists s. split; [by repeat split|]. replace ((_ <? _) && _) with false by zbool.
    by replace j with (length ns) by lia. }
  destruct (list.lookup_lt_is_Some_2 ns j ltac:(lia)) as [n Hn].
  destruct (cfg_run regs static bdf b Hok Hbase (block_off cap ntc ns j) s Hin) as (s1 & H1 & Hr1).
  unfold stream_step at 1. unfold bind at 1. rewrite (bind_done _ _ _ _ _ H1).
  destruct (Z.eqb_spec (Z.of_nat j + 1) str_cnt) as [<-|Hne].
  - exists s1. split; [done|]. replace ((_ <? _) && _) with true by zbool.
    replace (Z.to_nat (Z.of_nat j + 1 - 1)) with j by lia.
    unfold bind. by destruct (action _ s1).
  - cbn [ret]. rewrite Hd, (lay_blocks _ _ _ _ _ lay _ _ Hn).
    assert (next_block (block_off cap ntc ns j) n = block_off cap ntc ns (S j)) as ->.
    { rewrite (block_off_S _ _ _ _ _ Hn). pose proof (block_off_bounds j ltac:(lia)).
      pose proof (ns_range _ _ Hn). pose proof (lay_nonneg _ _ _ _ _ lay).
      unfold next_block, block_size, SEL_IDE_CAP_REG_SIZE, RID_ADDR_REG1_SIZE, RID_ADDR_REG2_SIZE,
        IDE_ADDR_REG_BLK_SIZE, u32. rewrite wrap_small; lia. }
    replace (Z.of_nat j + 1 + 1) with (Z.of_nat (S j) + 1) by lia.
    destruct (IH (S j) s1) as (s2 & Hr2 & ->);
      [by eapply in_block_frame|by rewrite (proj1 Hr1)|lia|].
    exists s2. split; [unfold reads_only in *; intuition congruence|].
    replace (Z.of_nat (S j) <? str_cnt) with (Z.of_nat j <? str_cnt) by zbool. done.
Qed.
End layout.

Lemma ide_capability_run fuel s cap ntc ns l :
  in_block bdf b s -> ide_layout (p_dev s) cap ntc ns l -> (length l < fuel)%nat ->
  exists s1, reads_only s s1 /\
    ide_capability fuel bdf s = Done (Some (cap, creg (p_dev s) (cap + IDE_CAP_REG))) s1.
Proof.
  intros Hin lay Hf. unfold ide_capability, val_pcie_find_capability.
  destruct (cap_loop regs static bdf b Hok Hbase PCIE_ECAP ECID_IDE (p_dev s) _ l
    (lay_chain _ _ _ _ _ lay) fuel s Hin eq_refl Hf) as (s1 & H1 & Hr1).
  rewrite (lay_cap _ _ _ _ _ lay) in H1.
  unfold bind at 1. rewrite (bind_done _ _ _ _ _ H1). cbn [ret].
  change (negb (PCIE_SUCCESS =? PCIE_SUCCESS)) with false. cbv iota. cbn [use]. rewrite bind_ret.
  assert (u32 (cap + IDE_CAP_REG) = cap + IDE_CAP_REG) as ->.
  { pose proof (lay_bound _ _ _ _ _ lay). unfold u32, IDE_CAP_REG. apply wrap_small. lia. }
  destruct (cfg_run regs static bdf b Hok Hbase (cap + IDE_CAP_REG) s1
    (in_block_frame _ _ _ _ Hin Hr1)) as (s2 & H2 & Hr2).
  rewrite (bind_done _ _ _ _ _ H2), (proj1 Hr1).
  pose proof (lay_sel _ _ _ _ _ lay) as Hsel. apply Z.eqb_neq in Hsel. rewrite Hsel.
  exists s2. split; [unfold reads_only in *; intuition congruence|done].
Qed.

(** The walk: the action is done at the block of the wanted stream, when there
    is one, after reads only. *)
Lemma with_stream_run {R} (action : Z -> P D R) fuel str_cnt s cap ntc ns l :
  in_block bdf b s -> ide_layout (p_dev s) cap ntc ns l -> (length l < fuel)%nat ->
  exists s1, reads_only s s1 /\
    with_stream fuel bdf str_cnt action s =
    if (0 <? str_cnt) && (str_cnt <=? Z.of_nat (length ns))
    then bind (action (block_off cap ntc ns (Z.to_nat (str_cnt - 1)))) (fun r => ret (Some r)) s1
    else Done None s1.
Proof.
  intros Hin lay Hf. unfold with_stream.
  destruct (ide_capability_run fuel s cap ntc ns l Hin lay Hf) as (s1 & Hr1 & H1).
  rewrite (bind_done _ _ _ _ _ H1). rewrite (lay_n _ _ _ _ _ lay), Nat2Z.id.
  assert (first_block cap (creg (p_dev s) (cap + IDE_CAP_REG)) = block_off cap ntc ns 0) as ->.
  { destruct (lay_bound _ _ _ _ _ lay) as (_ & Ht & Hc & -> & Hf').
    unfold first_block, IDE_CAP_REG_SIZE, LINK_IDE_BLK_SIZE, u32.
    rewrite (lay_tc _ _ _ _ _ lay). rewrite !wrap_small; rewrite ?wrap_small; lia. }
  destruct (stream_walk _ _ _ _ _ lay action str_cnt (length ns) 0 s1) as (s2 & Hr2 & H2);
    [by eapply in_block_frame|by rewrite (proj1 Hr1)|lia|].
  exists s2. split; [unfold reads_only in *; intuition congruence|].
  change (Z.of_nat 0 + 1) with 1 in H2. change (Z.of_nat 0) with 0 in H2. unfold bind at 1. rewrite H2.
  destruct (_ && _); [|done]. unfold bind. by destruct (action _ s2).
Qed.

(** ** Programming a stream *)

Definition wreg (d : D) (off v : Z) : D := hw_write 4 d (fn_window (ecam_base b) bdf + off) v.

(** The registers of a block other than its first one. *)
Definition own (x : Z) : Prop := x = 4 \/ x = 8 \/ x = 12 \/ x = 16.

Section stream.
Context (cap ntc : Z) (ns l : list Z) (k : nat).
Hypothesis Hk : (k < length ns)%nat.
Abbreviation at_ := (block_off cap ntc ns k).

Lemma own_bounds d x : ide_layout d cap ntc ns l -> own x ->
  cap + 20 < at_ + x /\ at_ + x < block_off cap ntc ns (length ns) <= 4096 /\ 0x100 <= cap /\
  aligned (at_ + x) 4.
Proof.
  intros lay Hx. pose proof (block_off_bounds _ _ _ _ _ lay k Hk) as (H1 & H2 & H3).
  pose proof (lay_nonneg _ _ _ _ _ lay). pose proof (lay_aligned _ _ _ _ _ lay) as Ha.
  assert (forall m, aligned (sizes m) 4) as Hs.
  { unfold aligned. induction m as [|n m IH]; [done|]. cbn [sizes]. unfold block_size.
    rewrite Z.add_mod, IH by lia. replace (20 + 12 * n) with ((5 + 3 * n) * 4) by lia.
    by rewrite Z.mod_mul. }
  unfold own in Hx. split; [lia|]. split; [lia|]. split; [lia|].
  unfold aligned, block_off in *. specialize (Hs (take k ns)).
  pose proof (Z.div_mod cap 4 ltac:(lia)). pose proof (Z.div_mod (sizes (take k ns)) 4 ltac:(lia)).
  assert (exists y, x = 4 * y) as [y ->]
    by (destruct Hx as [->|[->|[->| ->]]]; [exists 1|exists 2|exists 3|exists 4]; done).
  replace (cap + 12 + 8 * (ntc + 1) + sizes (take k ns) + 4 * y) with
    ((cap / 4 + 3 + 2 * (ntc + 1) + sizes (take k ns) / 4 + y) * 4) by lia.
  by apply Z.mod_mul.
Qed.

(** How the hardware takes the writes: the control register keeps the identifier
    and the enable bit, the association registers keep the requester IDs and the
    valid bit; a write to one of them leaves all other registers alone but the
    status register, which may change in any way. *)
Definition programmed (x : Z) : Prop := x = 4 \/ x = 12 \/ x = 16.
Record stream_registers : Prop := {
  sr_others : forall d x v off, programmed x -> 0 <= off < 4096 ->
    off <> at_ + x -> off <> at_ + 8 -> creg (wreg d (at_ + x) v) off = creg d off;
  sr_control : forall d v, let c := creg (wreg d (at_ + 4) v) (at_ + 4) in
    fld 24 8 c = fld 24 8 v /\ Z.testbit c 0 = Z.testbit v 0;
  sr_limit : forall d v, fld 8 16 (creg (wreg d (at_ + 12) v) (at_ + 12)) = fld 8 16 v;
  sr_base : forall d v, let c := creg (wreg d (at_ + 16) v) (at_ + 16) in
    fld 8 16 c = fld 8 16 v /\ Z.testbit c 0 = Z.testbit v 0
}.
Hypothesis Hregs : stream_registers.
Lemma programmed_own x : programmed x -> own x.
Proof. unfold programmed, own. tauto. Qed.

(** They are none of the registers the walk reads. *)
Lemma own_apart d x j : ide_layout d cap ntc ns l -> own x -> (j < length ns)%nat ->
  block_off cap ntc ns j <> at_ + x.
Proof.
  intros lay Hx Hj. unfold own in Hx. destruct (lt_eq_lt_dec j k) as [[H|H]|H].
  - pose proof (block_off_lt _ _ _ _ _ lay j k ltac:(lia)). lia.
  - rewrite H. lia.
  - pose proof (block_off_lt _ _ _ _ _ lay k j ltac:(lia)). lia.
Qed.

Lemma chain_low d o : ide_layout d cap ntc ns l -> o ∈ l -> 0 <= o < 4096.
Proof.
  intros lay Ho. pose proof (lay_chain _ _ _ _ _ lay) as Hc.
  assert (0 <= PCIE_ECAP_START < 4096) as H0 by (unfold PCIE_ECAP_START; lia).
  revert H0 Ho. generalize PCIE_ECAP_START Hc. clear. intros z Hc Hz Ho.
  induction Hc as [|y m Hy Hc IH]; [by apply list.elem_of_nil in Ho|].
  apply list.elem_of_cons in Ho as [->|Ho]; [done|]. apply IH; [|done].
  cbn. change 0xfff with (Z.ones 12). rewrite Z.land_ones by lia.
  apply (Z.mod_pos_bound _ (2 ^ 12)). lia.
Qed.

Lemma lay_wreg d x v : ide_layout d cap ntc ns l -> programmed x ->
  ide_layout (wreg d (at_ + x) v) cap ntc ns l.
Proof.
  intros lay Hp. pose proof (programmed_own x Hp) as Hx. pose proof (own_bounds d x lay Hx) as Hb.
  assert (own 8) as H8 by (right; by left). pose proof (own_bounds d 8 lay H8) as Hb8.
  pose proof (lay_bound _ _ _ _ _ lay) as (_ & Ht & Hc & _ & Hf).
  assert (forall o, 0 <= o < 4096 -> o <> at_ + x -> o <> at_ + 8 ->
    creg (wreg d (at_ + x) v) o = creg d o) as Hr by (intros; by apply (sr_others Hregs)).
  assert (forall o, o ∈ l -> creg (wreg d (at_ + x) v) o = creg d o) as Hl.
  { intros o Ho. pose proof (lay_apart _ _ _ _ _ lay o Ho).
    apply Hr; [by apply (chain_low d)|lia..]. }
  assert (creg (wreg d (at_ + x) v) (cap + IDE_CAP_REG) = creg d (cap + IDE_CAP_REG)) as Hcap
    by (apply Hr; unfold IDE_CAP_REG; lia).
  split; try (rewrite Hcap); try apply lay.
  - rewrite Hr; [apply lay|unfold TYPE01_CPR; lia..].
  - eapply chain_ext; [|apply lay]. intros o Ho. cbn. by rewrite Hl.
  - rewrite <- (lay_cap _ _ _ _ _ lay). apply find_ext. intros o Ho. by rewrite Hl.
  - intros j n Hn. pose proof (list.lookup_lt_Some _ _ _ Hn) as Hj.
    pose proof (block_off_bounds _ _ _ _ _ lay j Hj).
    rewrite Hr; [by apply (lay_blocks _ _ _ _ _ lay)|lia|..]; by apply (own_apart d).
Qed.

Lemma in_block_info s s' : p_info s' = p_info s -> in_block bdf b s -> in_block bdf b s'.
Proof. intros H (bs & Hi & Hf). exists bs. by rewrite H. Qed.

Lemma write_run off v s : in_block bdf b s -> 0 <= off < 4096 -> aligned off 4 ->
  exists s', val_pcie_write_cfg bdf off v s = Done tt s' /\
    p_dev s' = wreg (p_dev s) off (u32 v) /\ p_info s' = p_info s.
Proof. intros Hin Ho Ha. rewrite (write_cfg_run bdf b) by done. by eexists. Qed.

(** What the functions find at the block of stream [k + 1]: the state they
    start from, up to reads. *)
Definition ready (d : D) (info : option (list ecam_block)) s : Prop :=
  in_block bdf b s /\ p_dev s = d /\ p_info s = info /\ ide_layout d cap ntc ns l.

Lemma wp_write d info s x v Q : ready d info s -> programmed x ->
  (forall s', ready (wreg d (at_ + x) (u32 v)) info s' -> Q tt s') ->
  wp (val_pcie_write_cfg bdf (at_ + x) v) Q s.
Proof.
  intros (Hin & Hd & Hi & lay) Hx HQ.
  destruct (own_bounds d x lay (programmed_own x Hx)) as (H1 & H2 & H3 & Ha).
  destruct (write_run (at_ + x) v s Hin ltac:(lia) Ha) as (s' & Hs & Hd' & Hi').
  unfold wp. rewrite Hs. apply HQ. split; [by apply (in_block_info s)|].
  split; [by rewrite Hd', Hd|]. split; [by rewrite Hi'|]. by apply lay_wreg.
Qed.
Lemma wp_read d info s x Q : ready d info s -> own x ->
  (forall s', ready d info s' -> Q (creg d (at_ + x)) s') -> wp (cfg bdf (at_ + x)) Q s.
Proof.
  intros (Hin & Hd & Hi & lay) Hx HQ.
  destruct (cfg_run regs static bdf b Hok Hbase (at_ + x) s Hin) as (s' & Hs & Hr).
  unfold wp. rewrite Hs, Hd. apply HQ. split; [by eapply in_block_frame|].
  destruct Hr as (Hd' & Hi' & _). split; [by rewrite Hd'|]. split; [by rewrite Hi'|done].
Qed.

Lemma wp_stream {R} (action : Z -> P D R) d info fuel s Q : ready d info s ->
  (length l < fuel)%nat ->
  (forall s1, ready d info s1 -> wp (action at_) (fun r s2 => Q (Some r) s2) s1) ->
  wp (with_stream fuel bdf (Z.of_nat k + 1) action) Q s.
Proof.
  intros (Hin & Hd & Hi & lay) Hf Ha.
  destruct (with_stream_run action fuel (Z.of_nat k + 1) s cap ntc ns l Hin ltac:(by rewrite Hd) Hf)
    as (s1 & Hr & H1).
  replace ((0 <? _) && _) with true in H1 by zbool.
  replace (Z.to_nat (Z.of_nat k + 1 - 1)) with k in H1 by lia.
  unfold wp. rewrite H1. apply wp_bind. eapply wp_mono; [|apply Ha].
  { intros r s2 H. by apply wp_ret. }
  split; [by eapply in_block_frame|]. destruct Hr as (Hd' & Hi' & _).
  split; [by rewrite Hd'|]. split; [by rewrite Hi'|done].
Qed.

Lemma at_u32 d x : ide_layout d cap ntc ns l -> own x -> u32 (at_ + x) = at_ + x.
Proof. intros lay Hx. pose proof (own_bounds d x lay Hx). apply wrap_small. lia. Qed.
Lemma own_4 : own 4. Proof. by left. Qed.
Lemma own_8 : own 8. Proof. right. by left. Qed.
Lemma own_12 : own 12. Proof. do 2 right. by left. Qed.
Lemma own_16 : own 16. Proof. by do 3 right. Qed.
Lemma programmed_4 : programmed 4. Proof. by left. Qed.
Lemma programmed_12 : programmed 12. Proof. right. by left. Qed.
Lemma programmed_16 : programmed 16. Proof. by do 2 right. Qed.

Definition rid_word (rid : Z) : Z := u32 (rid << 8) .& 0xFFFF00.
Definition id_word (stream_id : Z) : Z := u32 (stream_id << 24) .& 0xFF000000.

Lemma id_word_field stream_id : 0 <= stream_id < 256 ->
  fld 24 8 (u32 (id_word stream_id)) = stream_id.
Proof.
  intros H. unfold id_word, u32. change 0xFF000000 with (Z.ones 8 << 24).
  fields. rewrite fld_masked by lia. by fields.
Qed.
Lemma rid_word_field rid : fld 8 16 (u32 (rid_word rid)) = fld 0 16 rid.
Proof.
  unfold rid_word, u32. change 0xFFFF00 with (Z.ones 16 << 8). fields.
  rewrite fld_masked by lia. by fields.
Qed.

(** Reduces a function on a stream to its action at the block. *)
Ltac on_stream x Hr Hf :=
  apply wp_bind; eapply (wp_stream _ _ _ _ _ _ Hr Hf);
  let s1 := fresh "s" in let H1 := fresh "Hr" in intros s1 H1; cbn beta;
  change SEL_IDE_CAP_REG_SIZE with 12; change RID_ADDR_REG1_SIZE with 4;
  change SEL_IDE_CAP_CNTRL_REG with 4; change SEL_IDE_CAP_STATUS_REG with 8;
  rewrite (at_u32 _ x (proj2 (proj2 (proj2 H1)))) by auto using own_4, own_8, own_12.

Lemma program_rid_run d info fuel base limit valid s : ready d info s -> (length l < fuel)%nat ->
  wp (val_ide_program_rid_base_limit_valid fuel bdf (Z.of_nat k + 1) base limit valid)
    (fun r s2 => r = 0 /\
      ready (wreg (wreg (wreg d (at_ + 12) (u32 (rid_word limit))) (at_ + 16) (u32 (rid_word base)))
               (at_ + 16) (u32 valid)) info s2) s.
Proof.
  intros Hr Hf. unfold val_ide_program_rid_base_limit_valid. on_stream 12 Hr Hf.
  replace (at_ + 12 + 4) with (at_ + 16) by lia.
  rewrite (at_u32 d 16 (proj2 (proj2 (proj2 Hr0))) own_16).
  apply wp_bind. eapply wp_write; [exact Hr0|apply programmed_12|]. intros s1 Hr1.
  apply wp_bind. eapply wp_write; [exact Hr1|apply programmed_16|]. intros s2 Hr2.
  eapply wp_write; [exact Hr2|apply programmed_16|]. intros s3 Hr3. by apply wp_ret.
Qed.
Lemma program_id_run d info fuel stream_id s : ready d info s -> (length l < fuel)%nat ->
  wp (val_ide_program_stream_id fuel bdf (Z.of_nat k + 1) stream_id) (fun r s2 => r = 0 /\
    ready (wreg d (at_ + 4) (u32 (id_word stream_id))) info s2) s.
Proof.
  intros Hr Hf. unfold val_ide_program_stream_id. on_stream 4 Hr Hf.
  eapply wp_write; [exact Hr0|apply programmed_4|]. intros s1 Hr1. by apply wp_ret.
Qed.
Lemma set_stream_run d info fuel s : ready d info s -> (length l < fuel)%nat ->
  wp (val_ide_set_sel_stream fuel bdf (Z.of_nat k + 1) 1) (fun r s2 => r = 0 /\
    ready (wreg d (at_ + 4) (u32 (creg d (at_ + 4) .| 1))) info s2) s.
Proof.
  intros Hr Hf. unfold val_ide_set_sel_stream. on_stream 4 Hr Hf.
  apply wp_bind. eapply wp_read; [exact Hr0|apply own_4|]. intros s1 Hr1. cbn [truthy].
  eapply wp_write; [exact Hr1|apply programmed_4|]. intros s2 Hr2. by apply wp_ret.
Qed.
Lemma status_run d info fuel s : ready d info s -> (length l < fuel)%nat ->
  wp (val_get_sel_str_status fuel bdf (Z.of_nat k + 1)) (fun r s2 =>
    r = (0, Some (creg d (at_ + 8) .& SEL_IDE_STATE_MASK)) /\ ready d info s2) s.
Proof.
  intros Hr Hf. unfold val_get_sel_str_status. on_stream 8 Hr Hf.
  apply wp_bind. eapply wp_read; [exact Hr0|apply own_8|]. intros s1 Hr1.
  apply wp_ret. by apply wp_ret.
Qed.

(** C17. Establishing a selective stream programs the block of that stream and no
    other register but the stream's status, which the hardware may change at any of
    the writes, and reports success exactly when the status it reads at the end
    shows the secure state. The block holds the stream's identifier with the enable
    bit and the limit of the requester IDs; the base is overwritten by the valid
    bit, so that the association begins at requester 0 instead of the wanted one. *)
Theorem ide_establish_registers fuel stream_id base_limit s :
  in_block bdf b s -> ide_layout (p_dev s) cap ntc ns l -> (length l < fuel)%nat ->
  0 <= stream_id < 256 ->
  wp (val_ide_establish_stream fuel bdf (Z.of_nat k + 1) stream_id base_limit) (fun r s' =>
    let rid := PCIE_CREATE_BDF_PACKED base_limit in
    let c := creg (p_dev s') in
    r = (if c (at_ + 8) .& SEL_IDE_STATE_MASK =? STREAM_STATE_SECURE then 0 else 1) /\
    (fld 24 8 (c (at_ + 4)) = stream_id /\ Z.testbit (c (at_ + 4)) 0 = true) /\
    fld 8 16 (c (at_ + 12)) = fld 0 16 rid /\
    (fld 8 16 (c (at_ + 16)) = 0 /\ Z.testbit (c (at_ + 16)) 0 = true) /\
    (forall off, 0 <= off < 4096 ->
       off <> at_ + 4 -> off <> at_ + 8 -> off <> at_ + 12 -> off <> at_ + 16 ->
       c off = creg (p_dev s) off)) s.
Proof.
  intros Hin lay Hf Hid. unfold val_ide_establish_stream.
  assert (ready (p_dev s) (p_info s) s) as Hr by done. set (d := p_dev s) in *.
  apply wp_bind. eapply wp_mono; [|by apply program_rid_run]. intros r1 s1 [-> Hr1].
  cbn [truthy]. apply wp_bind. eapply wp_mono; [|by apply program_id_run]. intros r2 s2 [-> Hr2].
  cbn [truthy]. apply wp_bind. eapply wp_mono; [|by apply set_stream_run]. intros r3 s3 [-> Hr3].
  cbn [truthy]. apply wp_bind. eapply wp_mono; [|by apply status_run]. intros r4 s4 [-> Hr4].
  destruct Hr4 as (_ & Hd4 & _). apply wp_ret.
  cbn beta zeta. rewrite Hd4. clear Hd4 Hr1 Hr2 Hr3.
  set (d1 := wreg d (at_ + 12) _). set (d2 := wreg d1 (at_ + 16) _). set (d3 := wreg d2 (at_ + 16) _).
  set (d4 := wreg d3 (at_ + 4) _). set (d5 := wreg d4 (at_ + 4) _).
  pose proof programmed_4. pose proof programmed_12. pose proof programmed_16.
  pose proof (own_bounds d 4 lay own_4). pose proof (own_bounds d 8 lay own_8).
  pose proof (own_bounds d 12 lay own_12). pose proof (own_bounds d 16 lay own_16).
  split; [|split; [|split; [|split]]].
  - by destruct (_ =? STREAM_STATE_SECURE).
  - unfold d5. destruct (sr_control Hregs d4 (u32 (creg d4 (at_ + 4) .| 1))) as [-> ->].
    destruct (sr_control Hregs d3 (u32 (id_word stream_id))) as [Hc _].
    fold d4 in Hc. unfold u32. rewrite !testbit_wrap, Z.lor_spec, orb_true_r by lia. split; [|done].
    fields. rewrite Hc. by apply id_word_field.
  - unfold d5, d4, d3, d2. rewrite !(sr_others Hregs) by (done || lia).
    unfold d1. rewrite (sr_limit Hregs). apply rid_word_field.
  - unfold d5, d4. rewrite !(sr_others Hregs) by (done || lia).
    unfold d3. destruct (sr_base Hregs d2 (u32 1)) as [-> ->]. by split.
  - intros off Ho N4 N8 N12 N16. unfold d5, d4, d3, d2, d1.
    by rewrite !(sr_others Hregs) by (done || lia).
Qed.
End stream.
End walk.

(** ** The interconnect check *)

Section interconnect.
Context {D : Type} {HW : Hw D} {NB : NsBus D}.
Variables (vec : Z) (fuel : nat).
(** What Root reads from a register; its reads have no effect. *)
Variable root : D -> Z -> Z.
Hypothesis root_read : forall d a, hw_read 4 d a = (root d a, d).
Implicit Types s : el3 D.

(** The first entry of the shared array, with one access to make. *)
Definition first_access (x : shared_data_access) s : Prop :=
  num_access (e_shared s) = 1 /\ exists rest, sh_access (e_shared s) = x :: rest.

Lemma wp_prepare type address data Q s :
  (exists x rest, sh_access (e_shared s) = x :: rest) ->
  (forall s' x, e_dev s' = e_dev s -> first_access (mk_access type address (default x data)) s' ->
     Q tt s') -> wp (prepare type address data) Q s.
Proof.
  intros (x & rest & Hx) H. unfold prepare, access0, set_access0, sh.
  apply wp_bind, wp_modify, wp_bind, wp_bind, wp_gets. cbn. rewrite Hx. apply wp_ret, wp_bind, wp_gets.
  cbn. rewrite Hx. apply wp_bind, wp_require; [done|]. apply wp_modify. cbn.
  eapply (H _ (acc_data x)); [done|]. split; [done|]. cbn. rewrite Hx. by exists rest.
Qed.

Lemma wp_access_mut Q x s : first_access x s ->
  wp (access_one 0) Q s -> wp (val_pe_access_mut_el3 vec fuel) Q s.
Proof.
  intros (Hn & _) H. change (wp access_mut Q s). unfold access_mut, sh.
  apply wp_bind, wp_gets. rewrite Hn. change (for_range 0 (u8 1) access_one) with
    (access_one 0 ;; @ret (el3 D) _ tt).
  apply wp_bind. eapply wp_mono; [|exact H]. by intros [] s'.
Qed.

Lemma wp_el3_read address v Q s : first_access (mk_access READ_DATA address v) s ->
  (forall s', e_dev s' = e_dev s ->
     first_access (mk_access READ_DATA address (u32 (root (e_dev s) address))) s' -> Q tt s') ->
  wp (val_pe_access_mut_el3 vec fuel) Q s.
Proof.
  intros Hf H. apply (wp_access_mut _ _ _ Hf). destruct Hf as (Hn & rest & Hx).
  unfold access_one, acc_at, sh. apply wp_bind, wp_bind, wp_gets. rewrite Hx. apply wp_ret.
  cbn [acc_addr access_type acc_data]. change (u8 READ_DATA =? READ_DATA) with true. cbv iota.
  apply wp_bind. unfold wp at 1, io_read. rewrite root_read. unfold put_acc_data, acc_at, sh.
  apply wp_bind, wp_bind, wp_gets. cbn. rewrite Hx. apply wp_ret, wp_modify.
  apply H; [done|]. split; [done|]. cbn. rewrite Hx. by exists rest.
Qed.

Lemma wp_el3_write address v Q s : first_access (mk_access WRITE_DATA address v) s ->
  (forall s', e_dev s' = hw_write 4 (e_dev s) address (u32 v) -> Q tt s') ->
  wp (val_pe_access_mut_el3 vec fuel) Q s.
Proof.
  intros Hf H. apply (wp_access_mut _ _ _ Hf). destruct Hf as (Hn & rest & Hx).
  unfold access_one, acc_at, sh. apply wp_bind, wp_bind, wp_gets. rewrite Hx. apply wp_ret.
  cbn [acc_addr access_type acc_data]. change (u8 WRITE_DATA =? READ_DATA) with false.
  change (u8 WRITE_DATA =? WRITE_DATA) with true. cbv iota. by apply H.
Qed.

Definition has_access s : Prop := exists x rest, sh_access (e_shared s) = x :: rest.
Lemma first_has x s : first_access x s -> has_access s.
Proof. intros (_ & rest & H). by exists x, rest. Qed.

(** The check of a protected register, up to the Non-secure accesses: Root has
    read the register, nothing else has happened to it. *)
Lemma wp_rmsd e Q s : has_access s -> r_type e = INTERCONNECT -> r_property e = RMSD_PROTECT ->
  (forall s', e_dev s' = e_dev s -> has_access s' ->
     wp (ns_accesses vec fuel (r_address e) (u32 (root (e_dev s) (r_address e)))) Q s') ->
  wp (val_intercnt_sec_prpty_check vec fuel e) Q s.
Proof.
  intros Hs Ht Hp H. unfold val_intercnt_sec_prpty_check. rewrite Ht, Hp.
  cbn [negb Z.eqb INTERCONNECT RMSD_PROTECT Pos.eqb].
  apply wp_bind, wp_prepare; [done|]. intros s1 x Hd1 Hf1.
  apply wp_bind. eapply wp_el3_read; [exact Hf1|]. intros s2 Hd2 Hf2.
  apply wp_bind. unfold access0, sh. apply wp_bind, wp_gets.
  pose proof (first_has _ _ Hf2). destruct Hf2 as (_ & rest & ->). apply wp_ret. cbn [acc_data].
  apply wp_bind, wp_prepare; [done|]. intros s3 y Hd3 Hf3.
  assert (u32 (u32 (root (e_dev s1) (r_address e))) = u32 (root (e_dev s) (r_address e))) as ->
    by (rewrite Hd1; apply wrap_idemp; lia).
  apply H; [congruence|by eapply first_has].
Qed.

(** The interconnect check of a register of the Realm manager never makes the
    write from Root it prepares. A register that Non-secure software can read
    passes the check, whatever it holds, unless that is the test pattern; only a
    register that Non-secure software can also write is found. A register of an
    unknown property fails, and entries of another kind pass. *)
Theorem intercnt_check_result e s :
  (exists x rest, sh_access (e_shared s) = x :: rest) ->
  let a := r_address e in
  (r_type e <> INTERCONNECT -> wp (val_intercnt_sec_prpty_check vec fuel e)
     (fun r s' => r = 0 /\ s' = s) s) /\
  (r_type e = INTERCONNECT -> r_property e <> RMSD_PROTECT ->
     wp (val_intercnt_sec_prpty_check vec fuel e) (fun r s' => r = 1 /\ s' = s) s) /\
  (r_type e = INTERCONNECT -> r_property e = RMSD_PROTECT ->
   (forall d, ns_read d a = (root d a, d)) -> u32 (root (e_dev s) a) <> TEST_DATA_1 ->
   ((forall d v, ns_write d a v = d) -> u32 (root (e_dev s) a) <> TEST_DATA_2 ->
    wp (val_intercnt_sec_prpty_check vec fuel e) (fun r s' => r = 0 /\
      e_dev s' = hw_write 4 (e_dev s) a (u32 (root (e_dev s) a))) s) /\
   ((forall d v, root (ns_write d a v) a = v) ->
    wp (val_intercnt_sec_prpty_check vec fuel e) (fun r s' => r = 1 /\
      u32 (root (e_dev s') a) = TEST_DATA_2) s)).
Proof.
  intros Hsh a. split; [|split].
  - intros Ht. apply Z.eqb_neq in Ht. unfold val_intercnt_sec_prpty_check. rewrite Ht. by apply wp_ret.
  - intros Ht Hp. apply Z.eqb_neq in Hp. unfold val_intercnt_sec_prpty_check. rewrite Ht, Hp.
    by apply wp_ret.
  - intros Ht Hp Hleak H1. apply Z.eqb_neq in H1.
    assert (forall (k : Z -> E D Z) Q s', wp (k (u32 (root (e_dev s') a))) Q s' ->
      wp (bind (val_mmio_read a) k) Q s') as Hread.
    { intros k Q s' H. apply wp_bind. unfold wp, val_mmio_read. rewrite Hleak. by destruct s'. }
    split.
    + intros Hblock H2. apply Z.eqb_neq in H2. apply wp_rmsd; [done..|]. intros s1 Hd1 Ha1. fold a.
      unfold ns_accesses. apply Hread. rewrite Hd1, H1.
      apply wp_bind, wp_modify. rewrite Hblock. apply Hread. cbn [e_dev set_dev]. rewrite ?Hd1, H2.
      apply wp_bind, wp_prepare; [exact Ha1|]. intros s2 x Hd2 Hf2.
      apply wp_bind. eapply wp_el3_write; [exact Hf2|]. intros s3 Hd3. apply wp_ret. split; [done|].
      rewrite Hd3, Hd2. cbn [e_dev set_dev default]. rewrite ?Hd1.
      f_equal. apply (wrap_idemp 32). lia.
    + intros Hwrite. apply wp_rmsd; [done..|]. intros s1 Hd1 Ha1. fold a.
      unfold ns_accesses. apply Hread. rewrite Hd1, H1.
      apply wp_bind, wp_modify. apply Hread. cbn [e_dev set_dev]. rewrite Hwrite.
      apply wp_ret. split; [done|]. cbn [e_dev set_dev]. by rewrite Hwrite.
Qed.
End interconnect.

(** ** A Function with two selective streams *)

#[local] Instance demo_pal : PciPal := PcieSpec.demo_pal.
(** Registers that keep what is written to them. *)
Definition file_hw : Hw (Z -> Z) :=
  {| hw_read _ d a := (d a, d); hw_write _ d a v := fun a' => if a' =? a then v else d a';
     hw_at_s1e3w _ _ _ := 1 |}.
(** An IDE capability whose stream 2, at 0x138, becomes secure when it is enabled
    and insecure when it is not; the other registers keep what is written. *)
Definition ide_hw : Hw (Z -> Z) :=
  {| hw_read _ d a := (d a, d);
     hw_write _ d a v := fun a' =>
       if a' =? a then v
       else if (a =? demo_win + 0x138) && (a' =? demo_win + 0x13C) then 2 * (v mod 2)
       else d a';
     hw_at_s1e3w _ _ _ := 1 |}.
(** The IDE capability at 0x100; stream 1 has one address association block,
    stream 2 none, and no stream is secure. *)
Definition ide_regs (a : Z) : Z :=
  if a =? demo_win + 0x100 then 0x30
  else if a =? demo_win + 0x104 then 0x10002
  else if a =? demo_win + 0x114 then 1
  else 0.
Definition ide_pst : pst (Z -> Z) := mk_pst ide_regs (Some [demo_block]) None 0 [].

Lemma ide_pst_layout :
  ide_layout (fun d => d) demo_bdf demo_block ide_regs 0x100 0 [1; 0] [0x100].
Proof.
  split; [vm_compute; discriminate| |vm_compute; reflexivity|lia|reflexivity
         |vm_compute; discriminate|vm_compute; reflexivity..| |vm_compute; discriminate|].
  - apply chain_node; [done|]. apply chain_end.
  - intros [|[|k]] n H; [injection H as <-; vm_compute; reflexivity..|done].
  - intros o H. apply list.elem_of_cons in H as [->|H]; [left; lia|by apply list.elem_of_nil in H].
Qed.

Lemma ide_stream_registers :
  stream_registers (HW := ide_hw) (fun d => d) demo_bdf demo_block 0x100 0 [1; 0] 1.
Proof.
  assert (forall d off v off', 0 <= off < 4096 -> 0 <= off' < 4096 ->
    creg (fun d => d) demo_bdf demo_block (wreg (HW := ide_hw) demo_bdf demo_block d off v) off' =
    if off' =? off then u32 v
    else if (off =? 0x138) && (off' =? 0x13C) then u32 (2 * (v mod 2))
    else creg (fun d => d) demo_bdf demo_block d off') as Hw.
  { intros d off v off' Ho Ho'. unfold creg, wreg. cbn.
    assert (forall o, 0 <= o < 4096 -> u64 (fn_window (ecam_base demo_block) demo_bdf + o) =
      demo_win + o) as Hu by (intros o H; apply wrap_small; unfold demo_win; cbn; lia).
    rewrite !Hu by lia. change (fn_window 0x40000000 demo_bdf) with demo_win.
    replace (demo_win + off' =? demo_win + off) with (off' =? off) by zbool.
    replace (demo_win + off =? demo_win + 0x138) with (off =? 0x138) by zbool.
    replace (demo_win + off' =? demo_win + 0x13C) with (off' =? 0x13C) by zbool.
    destruct (off' =? off); [done|]. by destruct (_ && _). }
  constructor; change (block_off 0x100 0 [1; 0] 1) with 0x134.
  - intros d x v off Hx Ho H1 H2. rewrite Hw by (destruct Hx as [->|[->| ->]]; lia).
    replace (off =? 0x134 + x) with false by zbool.
    by replace (off =? 0x13C) with false by zbool; rewrite andb_false_r.
  - intros d v. cbn zeta. rewrite Hw, Z.eqb_refl by lia. unfold u32. split; [by fields|].
    rewrite testbit_wrap by lia. apply andb_true_r.
  - intros d v. rewrite Hw, Z.eqb_refl by lia. unfold u32. by fields.
  - intros d v. cbn zeta. rewrite Hw, Z.eqb_refl by lia. unfold u32. split; [by fields|].
    rewrite testbit_wrap by lia. apply andb_true_r.
Qed.

Lemma ide_establish_registers_witness :
  wp (val_ide_establish_stream (HW := ide_hw) 2 demo_bdf 2 5 0x00010203) (fun r s' =>
    r = (if creg (fun d => d) demo_bdf demo_block (p_dev s') 0x13C .& SEL_IDE_STATE_MASK =?
            STREAM_STATE_SECURE then 0 else 1) /\
    fld 8 16 (creg (fun d => d) demo_bdf demo_block (p_dev s') 0x144) = 0) ide_pst.
Proof.
  eapply wp_mono; [|apply (ide_establish_registers (HW := ide_hw) (fun d => d)
    (fun d a => eq_refl) demo_bdf demo_block demo_bdf_ok demo_base_ok
    0x100 0 [1; 0] [0x100] 1 ltac:(cbn; lia) ide_stream_registers 2 5 0x00010203 ide_pst);
    [by exists [demo_block] | exact ide_pst_layout | cbn; lia | lia]].
  intros r s' (Hr & _ & _ & (Hb & _) & _). split; [exact Hr|exact Hb].
Defined.
(** On that hardware the stream ends up secure and the call succeeds. *)
Lemma ide_establish_secure :
  wp (val_ide_establish_stream (HW := ide_hw) 2 demo_bdf 2 5 0x00010203) (fun r _ => r = 0) ide_pst.
Proof. vm_compute. reflexivity. Qed.

(** A register that Non-secure software reads as Root does. *)
Definition leaky_bus : NsBus (Z -> Z) :=
  {| ns_read d a := (d a, d); ns_write d _ _ := d |}.
Definition shared_el3 : el3 (Z -> Z) :=
  set_shared (fun r => set_sh_access [mk_access 0 0 0] r) (el3_init (fun _ => 0x1234) ∅).

Lemma intercnt_check_result_witness :
  wp (val_intercnt_sec_prpty_check (HW := file_hw) (NB := leaky_bus) 0 10
        (mk_register INTERCONNECT 0 0x1000 RMSD_PROTECT)) (fun r _ => r = 0) shared_el3.
Proof.
  destruct (intercnt_check_result (HW := file_hw) (NB := leaky_bus) 0 10 (fun d => d)
    (fun d a => eq_refl) (mk_register INTERCONNECT 0 0x1000 RMSD_PROTECT) shared_el3
    ltac:(by exists (mk_access 0 0 0), [])) as (_ & _ & H).
  destruct (H eq_refl eq_refl (fun d => eq_refl) ltac:(vm_compute; discriminate)) as [H1 _].
  eapply wp_mono; [|apply (H1 (fun d v => eq_refl) ltac:(vm_compute; discriminate))].
  by intros r s' [-> _].
Defined.
