(* ===== verification/DoeSpec.v ===== *)
(** * DoeSpec

    The exchange of messages through the data object exchange mailbox (DOE),
    modelled in [Da], against a reference model of the mailbox with an arbitrary
    status: a request written by the host reaches the responder word for word, and
    its response reaches the array [response] when the mailbox shows Ready and no
    Error the moment the driver looks. *)

From Stdlib Require Import ZArith Lia Bool List.
From stdpp Require Import base tactics numbers list gmap option.
From S2P Require Import Prelude Memory El3State Pcie PcieSpec PcieEnum PciePal Exerciser Da.
Local Open Scope Z_scope.

(** ** The mailbox of a Function

    The words the host has written, those that wait for it, and the word its
    status register shows. *)
Record doe := mk_doe { inbox : list Z; outbox : list Z; stat : Z }.

(** The objects that travel: two header words, the second the length. *)
Definition object (words : list Z) : list Z :=
  0x10001 :: Z.of_nat (length words) + 2 :: words.
Definition word_ok (w : Z) : Prop := 0 <= w < 2 ^ 32.

(** ** Words and bytes *)

Lemma word_at_byte b j w : Forall (fun x => 0 <= x < 256) b -> word_at b j = Some w ->
  word_ok w /\ forall r, (r < 4)%nat -> Some (u8 (w >> (8 * Z.of_nat r))) = b !! (4 * j + r)%nat.
Proof.
  intros Hb H. unfold word_at in H.
  destruct (b !! (4 * j)%nat) as [x0|] eqn:E0; [|done].
  destruct (b !! (4 * j + 1)%nat) as [x1|] eqn:E1; [|done].
  destruct (b !! (4 * j + 2)%nat) as [x2|] eqn:E2; [|done].
  destruct (b !! (4 * j + 3)%nat) as [x3|] eqn:E3; [|done].
  pose proof (list.Forall_lookup_1 _ _ _ _ Hb E0) as R0.
  pose proof (list.Forall_lookup_1 _ _ _ _ Hb E1) as R1.
  pose proof (list.Forall_lookup_1 _ _ _ _ Hb E2) as R2.
  pose proof (list.Forall_lookup_1 _ _ _ _ Hb E3) as R3. cbn beta in *.
  injection H as <-. rewrite !Z.shiftl_mul_pow2 by lia. split; [unfold word_ok; lia|].
  intros r Hr. unfold u8, wrap. rewrite Z.shiftr_div_pow2 by lia.
  destruct r as [|[|[|[|r]]]]; [rewrite Nat.add_0_r, E0|rewrite E1|rewrite E2|rewrite E3|lia];
    f_equal; cbn; Z.to_euclidean_division_equations; lia.
Qed.

(** The words of a buffer spell its bytes. *)
Lemma words_of_bytes b len words : Forall (fun x => 0 <= x < 256) b -> 0 <= len ->
  words_of b len = Some words ->
  Forall word_ok words /\ len <= 4 * Z.of_nat (length words) < len + 4 /\
  forall i, Z.of_nat i < len -> byte_of words i = b !! i.
Proof.
  intros Hb Hlen H. unfold words_of in H. set (n := Z.to_nat _) in H.
  assert (Hn : len <= 4 * Z.of_nat n < len + 4).
  { unfold n, truthy. rewrite Z.shiftr_div_pow2 by lia. change (2 ^ 2) with 4.
    destruct (Z.eqb_spec (len mod 4) 0); cbn [negb]; Z.to_euclidean_division_equations; lia. }
  apply list.mapM_Some in H. clearbody n.
  assert (length words = n) as Hl by (rewrite <- (list.Forall2_length _ _ _ H); apply length_seq).
  assert (forall j w, words !! j = Some w -> word_at b j = Some w) as Hw.
  { intros j w Hj. pose proof (list.lookup_lt_Some _ _ _ Hj) as Hlt.
    destruct (list.Forall2_lookup_r _ _ _ _ _ H Hj) as (j' & Hj' & Hj'').
    apply list.lookup_seq in Hj' as [-> _]. exact Hj''. }
  split; [|split; [lia|]].
  - apply list.Forall_lookup_2. intros j w Hj. by apply (word_at_byte b j w Hb), Hw.
  - intros i Hi. unfold byte_of.
    pose proof (Nat.div_mod i 4 ltac:(lia)) as Hdm.
    pose proof (Nat.mod_upper_bound i 4 ltac:(lia)) as Hub.
    destruct (list.lookup_lt_is_Some_2 words (i / 4) ltac:(lia)) as [w Hj]. rewrite Hj. cbn [option_map].
    destruct (word_at_byte b (i / 4) w Hb (Hw _ _ Hj)) as [_ E]. rewrite (E (i mod 4)%nat Hub).
    f_equal. lia.
Qed.

(** ** Finding the mailbox *)

(** What reads of a register return when they have no effect. *)
Section find.
Context {D : Type} {HW : Hw D}.
Variable regs : D -> Z -> Z.
Hypothesis static : forall d a, hw_read 4 d a = (regs d a, d).
Variables (platform_pcie_cfg : list ecam_block) (blk : ecam_block) (bdf : Z).
Definition fn_base : Z := ecam_base blk + pal_exerciser_get_pcie_config_offset bdf.
Definition ext_at (d : D) (o : Z) : Z := u32 (regs d (fn_base + o)).
Definition is_doe (d : D) (o : Z) : bool := hdr_id PCIE_ECAP (ext_at d o) =? DOE_CAP_ID.
Hypothesis Hcfg : head platform_pcie_cfg = Some blk.
Hypothesis Hfn : 0 <= fn_base /\ fn_base + 4096 <= 2 ^ 64.
Implicit Types s : pst D.

Lemma wp_static_read a Q s :
  (forall s', p_dev s' = p_dev s -> Q (u32 (regs (p_dev s) a)) s') -> wp (pal_mmio_read a) Q s.
Proof. intros H. unfold wp, pal_mmio_read. rewrite static. by apply H. Qed.

Lemma find_run d : forall m o n s,
  chain (fun o => hdr_next PCIE_ECAP (ext_at d o)) o m -> p_dev s = d ->
  0 <= o < 4096 -> (length m < n)%nat ->
  wp (loop n (find_step (ecam_base blk) DOE_CAP_ID bdf PCIE_CAP_ID_MASK PCIE_CAP_PTR_OFFSET
                PCIE_NXT_CAP_PTR_MASK) o)
    (fun r s' => r = List.find (is_doe d) m /\ p_dev s' = d) s.
Proof.
  intros m o n s Hc. revert n s. induction Hc as [|o m Ho Hc IH]; intros n s Hd Hb Hn;
    (destruct n as [|n]; [cbn in Hn; lia|]); cbn [loop length] in *; unfold find_step at 1.
  { by apply wp_bind, wp_ret, wp_ret. }
  replace (o =? 0) with false by zbool. apply wp_bind, wp_bind. fold fn_base.
  assert (u64 (fn_base + o) = fn_base + o) as -> by (apply wrap_small; lia).
  apply wp_static_read. intros s1 Hs1. rewrite Hd in *. fold (ext_at d o).
  cbn [List.find]. change (ext_at d o .& PCIE_CAP_ID_MASK =? DOE_CAP_ID) with (is_doe d o).
  destruct (is_doe d o); [by apply wp_ret, wp_ret|].
  apply wp_ret. apply IH; [done| |lia].
  cbn. change 0xfff with (Z.ones 12). rewrite Z.land_ones by lia.
  apply (Z.mod_pos_bound _ (2 ^ 12)). lia.
Qed.

Lemma ecam_run s :
  PciePal.pal_pcie_get_mcfg_ecam platform_pcie_cfg s = Done (ecam_base blk) s.
Proof. unfold PciePal.pal_pcie_get_mcfg_ecam. by rewrite Hcfg. Qed.

Lemma wp_find_doe fuel l Q s :
  chain (fun o => hdr_next PCIE_ECAP (ext_at (p_dev s) o)) PCIE_ECAP_START l ->
  (length l < fuel)%nat ->
  (forall s', p_dev s' = p_dev s ->
     Q (option_map (fun cap => fn_base + cap) (List.find (is_doe (p_dev s)) l)) s') ->
  wp (doe_base platform_pcie_cfg fuel bdf) Q s.
Proof.
  intros Hc Hf H. unfold doe_base, pal_exerciser_find_pcie_capability.
  apply wp_bind, (wp_intro _ _ _ _ _ (ecam_run s)). cbn beta.
  apply wp_bind, wp_bind, (wp_intro _ _ _ _ _ (ecam_run s)). cbn beta.
  change (PCIE =? 1) with true. cbv iota. apply wp_bind.
  eapply wp_mono; [|apply (find_run (p_dev s) l PCIE_CAP_OFFSET fuel s Hc)];
    [|done|by unfold PCIE_CAP_OFFSET|done].
  intros r s' [-> Hs]. specialize (H s' Hs).
  destruct (List.find _ l); apply wp_ret, wp_ret; exact H.
Qed.
End find.

Section mailbox.
(** The address of the registers, the other registers, and the responder: what
    it answers to an object, and the word the status register shows once the object
    was handed over: Ready or not yet, Busy, or in Error. *)
Variables (base : Z) (cfgs : Z -> Z) (respond : list Z -> list Z) (after : list Z -> Z).

Definition doe_value (d : doe) (a : Z) : Z :=
  if a =? base + DOE_READ_DATA_MAILBOX_REG then hd 0 (outbox d)
  else if a =? base + DOE_STATUS_REG then stat d
  else cfgs a.
(** A write to the read register asks for the next word, the last one leaves the
    mailbox idle; bit 31 of the control register hands the object over to the
    responder. *)
Definition next_word (d : doe) : doe :=
  mk_doe (inbox d) (tl (outbox d)) (match tl (outbox d) with [] => 0 | _ => stat d end).
Definition doe_store (d : doe) (a v : Z) : doe :=
  if a =? base + DOE_WRITE_DATA_MAILBOX_REG then mk_doe (inbox d ++ [v]) (outbox d) (stat d)
  else if a =? base + DOE_READ_DATA_MAILBOX_REG then next_word d
  else if (a =? base + DOE_CTRL_REG) && Z.testbit v 31 then
    mk_doe [] (object (respond (inbox d))) (after (inbox d))
  else d.
#[local] Instance doe_hw : Hw doe :=
  {| hw_read _ d a := (doe_value d a, d); hw_write _ d a v := doe_store d a v;
     hw_at_s1e3w _ _ _ := 1 |}.

Hypothesis Hafter : forall inb, word_ok (after inb).
Hypothesis Hbase : 0 <= base /\ base + 0x18 <= 2 ^ 64 /\ aligned base 4.
Implicit Types s : pst doe.

Lemma wp_mmio_read a Q s :
  (forall s', p_dev s' = p_dev s -> Q (u32 (doe_value (p_dev s) a)) s') -> wp (pal_mmio_read a) Q s.
Proof. intros H. by apply H. Qed.
Lemma wp_mmio_write a v Q s : aligned a 4 ->
  (forall s', p_dev s' = doe_store (p_dev s) a (u32 v) -> Q tt s') -> wp (pal_mmio_write a v) Q s.
Proof.
  intros Ha H. unfold pal_mmio_write. assert (truthy (a .& 0x3) = false) as ->.
  { unfold truthy. change 0x3 with (2 ^ 2 - 1). by rewrite (proj2 (land_low_aligned 2 a ltac:(lia))). }
  by apply H.
Qed.

Lemma reg_address reg : In reg [DOE_CTRL_REG; DOE_STATUS_REG; DOE_WRITE_DATA_MAILBOX_REG;
    DOE_READ_DATA_MAILBOX_REG] ->
  u64 (base + reg) = base + reg /\ aligned (base + reg) 4.
Proof.
  intros H. assert (0 <= reg < 0x18 /\ reg mod 4 = 0) as [Hr Hm].
  { repeat (destruct H as [<-|H]; [vm_compute; intuition congruence|]). destruct H. }
  destruct Hbase as (H1 & H2 & H3). split; [apply wrap_small; lia|].
  unfold aligned in *. by rewrite Z.add_mod, H3, Hm by lia.
Qed.

(** The accesses of the driver. *)
Lemma status_bit_test v b : word_ok v -> 0 <= b < 32 -> status_bit v b = Z.testbit v b.
Proof.
  intros Hv Hb. unfold status_bit, VAL_EXTRACT_BITS. replace (b - b + 1) with 1 by lia.
  change ((1 << 1) - 1) with (1 << 0). by rewrite truthy_bit, testbit_shiftr by lia.
Qed.
Lemma wp_status Q s : word_ok (stat (p_dev s)) ->
  (forall s', p_dev s' = p_dev s -> Q (stat (p_dev s)) s') ->
  wp (doe_read base DOE_STATUS_REG) Q s.
Proof.
  intros Hw H. unfold doe_read. rewrite (proj1 (reg_address DOE_STATUS_REG ltac:(cbn; tauto))).
  apply wp_mmio_read. intros s' Hs. unfold doe_value.
  replace (base + DOE_STATUS_REG =? base + DOE_READ_DATA_MAILBOX_REG) with false
    by (unfold DOE_STATUS_REG, DOE_READ_DATA_MAILBOX_REG; zbool).
  rewrite Z.eqb_refl. unfold u32. rewrite wrap_small by exact Hw. by apply H.
Qed.
Lemma wp_head Q s :
  (forall s', p_dev s' = p_dev s -> Q (u32 (hd 0 (outbox (p_dev s)))) s') ->
  wp (doe_read base DOE_READ_DATA_MAILBOX_REG) Q s.
Proof.
  intros H. unfold doe_read.
  rewrite (proj1 (reg_address DOE_READ_DATA_MAILBOX_REG ltac:(cbn; tauto))).
  apply wp_mmio_read. intros s' Hs. unfold doe_value. rewrite Z.eqb_refl. by apply H.
Qed.
Lemma wp_store reg v d' Q s : In reg [DOE_CTRL_REG; DOE_STATUS_REG; DOE_WRITE_DATA_MAILBOX_REG;
    DOE_READ_DATA_MAILBOX_REG] -> doe_store (p_dev s) (base + reg) (u32 v) = d' ->
  (forall s', p_dev s' = d' -> Q tt s') -> wp (doe_write base reg v) Q s.
Proof.
  intros Hreg Hd H. unfold doe_write. destruct (reg_address reg Hreg) as [-> Ha].
  apply wp_mmio_write; [done|]. intros s' Hs. apply H. by rewrite Hs.
Qed.
Lemma store_word d v : doe_store d (base + DOE_WRITE_DATA_MAILBOX_REG) v =
  mk_doe (inbox d ++ [v]) (outbox d) (stat d).
Proof. unfold doe_store. by rewrite Z.eqb_refl. Qed.
Lemma store_next d v : doe_store d (base + DOE_READ_DATA_MAILBOX_REG) v = next_word d.
Proof.
  unfold doe_store. rewrite Z.eqb_refl.
  by replace (_ =? base + DOE_WRITE_DATA_MAILBOX_REG) with false
    by (unfold DOE_WRITE_DATA_MAILBOX_REG, DOE_READ_DATA_MAILBOX_REG; zbool).
Qed.
Lemma store_go d : doe_store d (base + DOE_CTRL_REG) 0x80000000 =
  mk_doe [] (object (respond (inbox d))) (after (inbox d)).
Proof.
  unfold doe_store. rewrite Z.eqb_refl.
  replace (base + DOE_CTRL_REG =? base + DOE_WRITE_DATA_MAILBOX_REG) with false
    by (unfold DOE_WRITE_DATA_MAILBOX_REG, DOE_CTRL_REG; zbool).
  by replace (base + DOE_CTRL_REG =? base + DOE_READ_DATA_MAILBOX_REG) with false
    by (unfold DOE_READ_DATA_MAILBOX_REG, DOE_CTRL_REG; zbool).
Qed.

Section driver.
Variables (platform_pcie_cfg : list ecam_block) (blk : ecam_block) (bdf cap : Z) (l : list Z).
Variable fuel : nat.
Abbreviation fn_base := (fn_base blk bdf).
(** The configuration registers, which the mailbox does not change. *)
Definition ext_reg (o : Z) : Z := u32 (cfgs (fn_base + o)).
Hypothesis Hcfg : head platform_pcie_cfg = Some blk.
Hypothesis Hfn : 0 <= fn_base /\ fn_base + 4096 <= 2 ^ 64.
Hypothesis Hchain : chain (fun o => hdr_next PCIE_ECAP (ext_reg o)) PCIE_ECAP_START l.
Hypothesis Hcap : List.find (fun o => hdr_id PCIE_ECAP (ext_reg o) =? DOE_CAP_ID) l = Some cap.
(** The capability is at [base]; no other capability lies in its registers. *)
Hypothesis Hat : base = fn_base + cap.
Hypothesis Hapart : forall o, o ∈ l -> o <= cap \/ cap + 0x18 <= o.
Hypothesis Hfuel : (length l < fuel)%nat.

Lemma ext_at_reg d o : o ∈ l -> ext_at doe_value blk bdf d o = ext_reg o.
Proof.
  intros Ho. unfold ext_at, ext_reg, doe_value. pose proof (Hapart o Ho). rewrite Hat.
  unfold DOE_READ_DATA_MAILBOX_REG, DOE_STATUS_REG.
  replace (fn_base + o =? fn_base + cap + 0x14) with false by zbool.
  by replace (fn_base + o =? fn_base + cap + 0xC) with false by zbool.
Qed.

Lemma wp_doe_base Q s : (forall s', p_dev s' = p_dev s -> Q (Some base) s') ->
  wp (doe_base platform_pcie_cfg fuel bdf) Q s.
Proof.
  intros H. apply (wp_find_doe (HW := doe_hw) doe_value (fun d a => eq_refl) platform_pcie_cfg blk bdf Hcfg Hfn
    fuel l); [|done|].
  - eapply chain_ext; [|exact Hchain]. intros o Ho. cbn beta. by rewrite ext_at_reg.
  - intros s' Hs. assert (List.find (is_doe doe_value blk bdf (p_dev s)) l = Some cap) as ->.
    { rewrite <- Hcap. apply find_ext. intros o Ho. unfold is_doe. by rewrite ext_at_reg. }
    cbn [option_map]. rewrite <- Hat. by apply H.
Qed.

(** ** The exchange *)

Lemma wp_write_mailbox words : forall s inb st, Forall word_ok words -> p_dev s = mk_doe inb [] st ->
  wp (write_mailbox base words) (fun _ s' => p_dev s' = mk_doe (inb ++ words) [] st) s.
Proof.
  induction words as [|w words IH]; intros s inb st Hw Hs; cbn [write_mailbox].
  { apply wp_ret. by rewrite app_nil_r. }
  apply list.Forall_cons in Hw as [Hw1 Hw]. apply wp_bind.
  eapply wp_store; [cbn; tauto|by rewrite store_word|]. intros s1 Hs1. rewrite Hs in Hs1.
  unfold u32 in Hs1. rewrite wrap_small in Hs1 by exact Hw1.
  eapply wp_mono; [|apply (IH s1 (inb ++ [w]) st); done]. intros r s' ->. by rewrite <- app_assoc.
Qed.

(** The mailbox of a run before the request. *)
Definition idle_doe (st : Z) : doe := mk_doe [] [] st.
Definition unwilling (st : Z) : bool := Z.testbit st DOE_STATUS_REG_BUSY || Z.testbit st DOE_STATUS_REG_ERROR.
(** The mailbox behind it. *)
Definition answered (words : list Z) : doe :=
  mk_doe [] (object (respond (object words))) (after (object words)).

Lemma wp_send words st s : p_dev s = idle_doe st -> word_ok st -> Forall word_ok words ->
  Z.of_nat (length words) + 2 < 2 ^ 32 ->
  wp (pal_write_doe_msgo_doe_mailbox platform_pcie_cfg fuel bdf words) (fun r s' =>
    if unwilling st then r = 1 /\ p_dev s' = idle_doe st
    else r = 0 /\ p_dev s' = answered words) s.
Proof.
  intros Hs Hst Hw Hl. unfold pal_write_doe_msgo_doe_mailbox, unwilling.
  apply wp_bind, wp_doe_base. intros s1 Hs1. rewrite Hs in Hs1.
  apply wp_bind, wp_status; rewrite Hs1; [done|]. intros s2 Hs2. cbn [stat idle_doe].
  rewrite (status_bit_test st) by (done || (unfold DOE_STATUS_REG_BUSY; lia)).
  destruct (Z.testbit st DOE_STATUS_REG_BUSY); [by apply wp_ret|]. cbn [orb].
  apply wp_bind, wp_status; rewrite Hs2; [done|]. intros s3 Hs3. cbn [stat idle_doe].
  rewrite (status_bit_test st) by (done || (unfold DOE_STATUS_REG_ERROR; lia)).
  destruct (Z.testbit st DOE_STATUS_REG_ERROR); [by apply wp_ret|].
  apply wp_bind. eapply wp_store; [cbn; tauto|by rewrite store_word|]. intros s4 Hs4.
  apply wp_bind. eapply wp_store; [cbn; tauto|by rewrite store_word|]. intros s5 Hs5.
  rewrite Hs4, Hs3 in Hs5. cbn [inbox outbox stat app idle_doe] in Hs5.
  apply wp_bind. eapply wp_mono; [|by apply (wp_write_mailbox words s5 _ _ Hw Hs5)].
  intros [] s6 Hs6. apply wp_bind.
  eapply wp_store; [cbn; tauto|change (u32 0x80000000) with 0x80000000; by rewrite store_go|].
  intros s7 Hs7. apply wp_ret. split; [done|]. rewrite Hs7, Hs6. unfold answered. cbn [inbox app].
  assert (u32 0x10001 :: u32 (u32 (Z.of_nat (length words) + 0x2)) :: words = object words) as ->; [|done].
  unfold object, u32. by rewrite !(wrap_small 32 (_ + _)) by lia.
Qed.

Implicit Types t : dst doe.

(** The state of the receiver after [i] words of the response. *)
Definition received (resp old : list Z) (i : Z) t : Prop :=
  0 <= i <= Z.of_nat (length resp) /\
  outbox (p_dev (d_pci t)) = drop (Z.to_nat i) resp /\ inbox (p_dev (d_pci t)) = [] /\
  (i = Z.of_nat (length resp) -> stat (p_dev (d_pci t)) = 0) /\
  response t = take (Z.to_nat i) resp ++ drop (Z.to_nat i) old.

Lemma wp_pci {A} (m : P doe A) Q t :
  wp m (fun a s' => Q a (mk_dst s' (response t))) (d_pci t) -> wp (Da.pci m) Q t.
Proof. intros H. apply wp_zoom. exact H. Qed.

Lemma recv_words resp old n t : Forall word_ok resp -> (length resp <= length old)%nat ->
  (length resp < n)%nat -> received resp old 0 t ->
  wp (loop n (recv_step base (Z.of_nat (length resp))) 0)
    (fun _ t' => received resp old (Z.of_nat (length resp)) t') t.
Proof.
  intros Hw Hl Hn Ht.
  apply (wp_loop (fun m i t => received resp old i t /\ m = (length resp - Z.to_nat i)%nat))
    with (n := length resp); [|lia|split; [done|lia]].
  clear n Hn t Ht. intros n i t [(Hi & Hd & Hin & Hst & Hr) ->]. unfold recv_step.
  destruct (Z.ltb_spec i (Z.of_nat (length resp))) as [Hlt|Hge].
  2: { apply wp_ret. replace i with (Z.of_nat (length resp)) in * by lia. by split. }
  destruct (list.lookup_lt_is_Some_2 resp (Z.to_nat i) ltac:(lia)) as [w Hwi].
  rewrite (list.drop_S _ _ _ Hwi) in Hd.
  apply wp_bind, wp_pci, wp_head. intros s1 Hs1. rewrite Hd. cbn [hd outbox].
  apply wp_bind, wp_pci. eapply wp_store; [cbn; tauto|by rewrite store_next|].
  intros s2 Hs2. cbn [d_pci response] in *. rewrite Hs1 in Hs2.
  apply wp_bind, wp_gets. cbn [response].
  apply wp_bind, wp_require.
  { rewrite Hr, length_app, length_take, length_drop. apply Nat.ltb_lt. lia. }
  apply wp_bind, wp_modify. cbn [d_pci response]. apply wp_ret. exists (length resp - Z.to_nat (i + 1))%nat.
  split; [lia|]. split; [|done]. unfold received. cbn [d_pci response].
  replace (Z.to_nat (i + 1)) with (S (Z.to_nat i)) by lia.
  split; [lia|]. rewrite Hs2. unfold next_word. cbn [inbox outbox stat]. rewrite Hd. cbn [tl].
  split; [done|]. split; [done|]. split.
  { intros E. by rewrite list.drop_ge by lia. }
  rewrite Hr.
  assert (u32 w = w) as -> by (apply wrap_small; by apply (list.Forall_lookup_1 _ _ _ _ Hw Hwi)).
  rewrite list.insert_app_r_alt by (rewrite length_take; lia).
  rewrite length_take, Nat.min_l by lia. rewrite Nat.sub_diag.
  destruct (list.lookup_lt_is_Some_2 old (Z.to_nat i) ltac:(lia)) as [o Ho].
  rewrite (list.drop_S _ _ _ Ho). cbn [insert list.list_insert].
  rewrite (list.take_S_r _ _ _ Hwi), <- app_assoc. done.
Qed.

(** What the driver does with an answer that stands in the mailbox: it looks at
    the status once. *)
Definition accepted (st : Z) : bool :=
  Z.testbit st DOE_STATUS_REG_READY && negb (Z.testbit st DOE_STATUS_REG_ERROR).

Lemma wp_refused t : word_ok (stat (p_dev (d_pci t))) -> accepted (stat (p_dev (d_pci t))) = false ->
  wp (pal_host_pcie_doe_recv_resp platform_pcie_cfg fuel bdf) (fun r t' => r = 1 /\
    p_dev (d_pci t') = p_dev (d_pci t) /\ response t' = response t) t.
Proof.
  intros Hst Hacc. unfold pal_host_pcie_doe_recv_resp.
  apply wp_bind, wp_pci, wp_doe_base. intros s1 Hs1.
  apply wp_bind, wp_pci, wp_status; cbn [d_pci response]; rewrite Hs1; [done|]. intros s2 Hs2.
  rewrite status_bit_test by (done || (unfold DOE_STATUS_REG_READY; lia)).
  unfold accepted in Hacc. destruct (Z.testbit _ DOE_STATUS_REG_READY); cbn [negb andb] in *;
    [|by apply wp_ret].
  apply wp_bind, wp_pci, wp_status; cbn [d_pci response]; rewrite Hs2, ?Hs1; [done|]. intros s3 Hs3.
  rewrite status_bit_test by (done || (unfold DOE_STATUS_REG_ERROR; lia)).
  apply negb_false_iff in Hacc. rewrite Hacc. apply wp_ret. cbn [d_pci response].
  split; [done|]. split; [congruence|done].
Qed.

Lemma wp_receive resp st t : p_dev (d_pci t) = mk_doe [] (object resp) st -> word_ok st ->
  accepted st = true -> Forall word_ok resp ->
  (length resp <= length (response t))%nat -> (length resp < fuel)%nat ->
  Z.of_nat (length resp) + 2 < 2 ^ 32 ->
  wp (pal_host_pcie_doe_recv_resp platform_pcie_cfg fuel bdf) (fun r t' => r = 0 /\
    received resp (response t) (Z.of_nat (length resp)) t') t.
Proof.
  intros Hd Hst [Hrdy Herr%negb_true_iff]%andb_true_iff Hw Hl Hf Hs. unfold pal_host_pcie_doe_recv_resp.
  apply wp_bind, wp_pci, wp_doe_base. intros s1 Hs1. rewrite Hd in Hs1.
  apply wp_bind, wp_pci, wp_status; cbn [d_pci response]; rewrite Hs1; [done|]. intros s2 Hs2.
  cbn [stat]. rewrite status_bit_test, Hrdy by (done || (unfold DOE_STATUS_REG_READY; lia)).
  cbn [negb]. apply wp_bind, wp_pci, wp_status; cbn [d_pci response]; rewrite Hs2; [done|]. intros s3 Hs3.
  cbn [stat]. rewrite status_bit_test, Herr by (done || (unfold DOE_STATUS_REG_ERROR; lia)).
  apply wp_bind, wp_pci, wp_head. intros s4 Hs4. cbn [d_pci response] in *.
  apply wp_bind, wp_pci. eapply wp_store; [cbn; tauto|by rewrite store_next|]. intros s5 Hs5.
  cbn [d_pci response] in *. rewrite Hs4, Hs3 in Hs5.
  apply wp_bind, wp_pci, wp_head. intros s6 Hs6. cbn [d_pci response] in *. rewrite Hs5 in *.
  cbn [hd tl outbox object next_word].
  apply wp_bind, wp_pci. eapply wp_store; [cbn; tauto|by rewrite store_next|]. intros s7 Hs7.
  cbn [d_pci response] in *. rewrite Hs6 in Hs7.
  assert (u32 (u32 (Z.of_nat (length resp) + 2) - 0x2) = Z.of_nat (length resp)) as ->
    by (unfold u32; rewrite !wrap_small; rewrite ?wrap_small; lia).
  apply wp_bind. eapply wp_mono; [|apply (recv_words resp (response t) fuel); [done..|]].
  2: { unfold received. cbn [d_pci response]. rewrite Hs7. split; [lia|]. split; [done|].
       split; [done|]. split; [|done]. intros E. destruct resp; [done|cbn in E; lia]. }
  intros [] t8 Ht8. cbn beta. pose proof Ht8 as (_ & Ho8 & Hi8 & Hs8 & Hr8).
  apply wp_bind, wp_pci, wp_status; rewrite Hs8 by done; [unfold word_ok; lia|]. intros s9 Hs9.
  change (status_bit 0 DOE_STATUS_REG_READY) with false. apply wp_ret. split; [done|].
  unfold received in *. cbn [d_pci response]. by rewrite Hs9.
Qed.

(** C9. An exchange over the mailbox, which is idle with an arbitrary status word
    [st] before and shows an arbitrary status word once it has the object.
    - Busy or in Error at the start: nothing is sent and nothing received.
    - Ready and without Error when the driver looks after Go: the object that
      reached the responder carries exactly the bytes of the message, the array
      [response] begins with the words of its answer, the mailbox is idle again.
    - Not yet Ready then, or in Error: the driver looks once and does not wait; the
      object reached the responder, but its answer stays in the mailbox unread and
      the array keeps what it held, of which the callers learn nothing. *)
Theorem doe_exchange_roundtrip b len words st t :
  Forall (fun x => 0 <= x < 256) b -> 0 <= len < 2 ^ 31 -> words_of b len = Some words ->
  p_dev (d_pci t) = idle_doe st -> word_ok st -> Z.testbit st DOE_STATUS_REG_READY = false ->
  let resp := respond (object words) in
  let shown := after (object words) in
  Forall word_ok resp -> (length resp <= length (response t))%nat -> (length resp < fuel)%nat ->
  Z.of_nat (length (response t)) < 2 ^ 31 ->
  (forall i, Z.of_nat i < len -> byte_of words i = b !! i) /\
  wp (exchange platform_pcie_cfg fuel bdf (Some b, len)) (fun _ t' =>
    if unwilling st then response t' = response t /\ p_dev (d_pci t') = idle_doe st
    else if accepted shown then
      response t' = resp ++ drop (length resp) (response t) /\ p_dev (d_pci t') = idle_doe 0
    else response t' = response t /\ p_dev (d_pci t') = mk_doe [] (object resp) shown) t.
Proof.
  intros Hb Hlen Hwords Hidle Hst Hnr resp shown Hr Hl Hf Hs.
  destruct (words_of_bytes b len words Hb ltac:(lia) Hwords) as (Hok & Hwl & Hbytes).
  split; [exact Hbytes|]. unfold exchange. cbn [fst snd].
  apply wp_bind, wp_ret. rewrite Hwords. apply wp_bind, wp_ret, wp_bind, wp_pci.
  eapply wp_mono; [|apply (wp_send words st); [done|done|done|lia]]. intros r s1 Hs1. cbn beta.
  apply wp_bind. unfold pal_check_doe_response. apply wp_bind.
  destruct (unwilling st) eqn:Hun; [|destruct (accepted shown) eqn:Hacc]; destruct Hs1 as [_ Hs1].
  - eapply wp_mono; [|apply wp_refused; cbn [d_pci]; rewrite Hs1; cbn [stat idle_doe]; [done|]].
    2: { unfold accepted. by rewrite Hnr. }
    intros r2 t2 (-> & Hd & Hresp). apply wp_ret, wp_ret. cbn [d_pci response] in *.
    split; [done|]. by rewrite Hd.
  - eapply wp_mono; [|apply (wp_receive resp shown); [exact Hs1|apply Hafter|done..|cbn [response]; lia]].
    intros r2 t2 [-> (_ & Ho & Hi & H0 & Hresp)]. rewrite Nat2Z.id in *.
    rewrite list.drop_all in Ho. apply wp_ret, wp_ret. split.
    + rewrite Hresp. by rewrite list.take_ge by lia.
    + specialize (H0 eq_refl). destruct (p_dev (d_pci t2)). cbn in *. by subst.
  - eapply wp_mono; [|apply wp_refused; cbn [d_pci]; rewrite Hs1; [apply Hafter|done]].
    intros r2 t2 (-> & Hd & Hresp). apply wp_ret, wp_ret. cbn [d_pci response] in *.
    split; [done|]. by rewrite Hd.
Qed.
End driver.
End mailbox.

(** ** The messages *)

Lemma put_bytes_cons l x stores : put_bytes l (x :: stores) =
  if decide (Z.to_nat (fst x) < length l)%nat
  then put_bytes (<[Z.to_nat (fst x) := u8 (snd x)]> l) stores
  else fold_left put_byte stores None.
Proof. unfold put_bytes. cbn [fold_left put_byte]. by case_decide. Qed.

(** Stores inside the buffer succeed and keep its length. *)
Lemma put_bytes_ok stores : forall l, Forall (fun x => (Z.to_nat (fst x) < length l)%nat) stores ->
  exists l', put_bytes l stores = Some l' /\ length l' = length l.
Proof.
  induction stores as [|x stores IH]; intros l H; [by exists l|].
  apply list.Forall_cons in H as [Hx H]. rewrite put_bytes_cons, decide_True by done.
  destruct (IH (<[Z.to_nat (fst x) := u8 (snd x)]> l)) as (l' & H' & Hl).
  { by rewrite list.length_insert. }
  exists l'. split; [done|]. by rewrite Hl, list.length_insert.
Qed.

(** A byte that is stored once is there at the end, one that is not is kept. *)
Lemma put_bytes_other stores : forall l l' i, put_bytes l stores = Some l' ->
  Forall (fun x => Z.to_nat (fst x) <> i) stores -> l' !! i = l !! i.
Proof.
  induction stores as [|x stores IH]; intros l l' i H Hi; [by injection H as <-|].
  apply list.Forall_cons in Hi as [Hx Hi]. rewrite put_bytes_cons in H. case_decide.
  - rewrite (IH _ _ _ H Hi). by apply list.list_lookup_insert_ne.
  - exfalso. clear -H. induction stores; [done|]. by apply IHstores.
Qed.
Lemma put_bytes_stored pre x post l l' : put_bytes l (pre ++ x :: post) = Some l' ->
  Forall (fun y => Z.to_nat (fst y) <> Z.to_nat (fst x)) post ->
  l' !! Z.to_nat (fst x) = Some (u8 (snd x)).
Proof.
  intros H Hpost. unfold put_bytes in H. rewrite fold_left_app in H.
  destruct (fold_left put_byte pre (Some l)) as [l1|] eqn:E.
  - cbn [fold_left put_byte] in H. case_decide as Hx.
    + rewrite (put_bytes_other post _ l' (Z.to_nat (fst x)) H Hpost).
      by apply list.list_lookup_insert_eq.
    + exfalso. clear -H. induction post; [done|]. by apply IHpost.
  - exfalso. cbn in H. clear -H. induction post; [done|]. by apply IHpost.
Qed.

Lemma words_of_ok b len : 0 <= len -> len + 3 < Z.of_nat (length b) ->
  exists words, words_of b len = Some words.
Proof.
  intros Hl Hb. unfold words_of. set (n := Z.to_nat _).
  assert (4 * Z.of_nat n < len + 4) as Hn.
  { unfold n, truthy. rewrite Z.shiftr_div_pow2 by lia. change (2 ^ 2) with 4.
    destruct (Z.eqb_spec (len mod 4) 0); cbn [negb]; Z.to_euclidean_division_equations; lia. }
  apply list.mapM_is_Some. apply list.Forall_lookup_2. intros i j Hij.
  apply list.lookup_seq in Hij as [-> Hi]. cbn. unfold word_at.
  repeat match goal with
  | |- context [b !! ?k] => let H := fresh in
      destruct (list.lookup_lt_is_Some_2 b k ltac:(lia)) as [? H]; rewrite H; clear H
  end. by eexists.
Qed.

(** The run request carries the nonce of the response to the lock request,
    byte for byte, behind the header of a start request of the interface. *)
Theorem run_msg_nonce req_id resp request msg len :
  pal_form_tdisp_run_msg req_id resp request = (Some msg, len) ->
  length resp = 100%nat -> 0 <= req_id < 2 ^ 16 ->
  len = 0x3c /\ msg !! 13%nat = Some 0x86 /\
  (exists lo hi, msg !! 16%nat = Some lo /\ msg !! 17%nat = Some hi /\ req_id = lo + 256 * hi) /\
  forall k, (k < 32)%nat -> msg !! (28 + k)%nat = byte_of resp (28 + k).
Proof.
  intros [H <-]%pair_eq Hr Hid. split; [done|].
  assert (forall a, (a < 28)%nat -> Forall (fun y => Z.to_nat (fst y) <> a) (nonce_stores resp)) as Hn.
  { intros a Ha. apply List.Forall_map, list.Forall_seq. intros j Hj. cbn. lia. }
  unfold tdisp_header in H. split; [|split].
  - apply (put_bytes_stored (spdm_header 0x30 ++ [(11, 0x1); (12, 0x10)]) (13, 0x86)
      ([(16, VAL_EXTRACT_BITS req_id 0 7); (17, VAL_EXTRACT_BITS req_id 8 15)] ++ nonce_stores resp)
      request msg H).
    cbn [app]. do 2 (apply list.Forall_cons; split; [done|]). apply Hn. cbn. lia.
  - exists (u8 (VAL_EXTRACT_BITS req_id 0 7)), (u8 (VAL_EXTRACT_BITS req_id 8 15)).
    split; [|split].
    + apply (put_bytes_stored (spdm_header 0x30 ++ [(11, 0x1); (12, 0x10); (13, 0x86)]) (16, _)
        ([(17, VAL_EXTRACT_BITS req_id 8 15)] ++ nonce_stores resp) request msg H).
      cbn [app]. apply list.Forall_cons; split; [done|]. apply Hn. cbn. lia.
    + apply (put_bytes_stored (spdm_header 0x30 ++ [(11, 0x1); (12, 0x10); (13, 0x86); (16, _)])
        (17, _) (nonce_stores resp) request msg H). apply Hn. cbn. lia.
    + unfold VAL_EXTRACT_BITS, u8, wrap. cbn [Z.sub Z.add Z.opp Z.pos_sub Pos.pred_double Pos.sub].
      change (1 << (7 - 0 + 1)) with (2 ^ 8). change (1 << (15 - 8 + 1)) with (2 ^ 8).
      change (2 ^ 8 - 1) with (Z.ones 8). rewrite !Z.land_ones, !Z.shiftr_div_pow2 by lia.
      change (2 ^ 8) with 256. change (2 ^ 0) with 1. Z.to_euclidean_division_equations. lia.
  - intros k Hk. assert (nonce_stores resp =
      map (fun k => (28 + Z.of_nat k, default 0 (byte_of resp (28 + k)))) (seq 0 k) ++
      (28 + Z.of_nat k, default 0 (byte_of resp (28 + k))) ::
      map (fun k => (28 + Z.of_nat k, default 0 (byte_of resp (28 + k)))) (seq (S k) (31 - k))) as E.
    { unfold nonce_stores. replace 32%nat with (k + S (31 - k))%nat by lia.
      rewrite seq_app, map_app. by cbn [seq map Nat.add]. }
    rewrite E, !app_assoc in H.
    pose proof (put_bytes_stored _ (28 + Z.of_nat k, _) _ _ _ H) as Hs. cbn [fst snd] in Hs.
    replace (Z.to_nat (28 + Z.of_nat k)) with (28 + k)%nat in Hs by lia. rewrite Hs.
    + unfold byte_of. pose proof (Nat.Div0.div_lt_upper_bound (28 + k) 4 100 ltac:(lia)).
      destruct (list.lookup_lt_is_Some_2 resp ((28 + k) / 4) ltac:(lia)) as [w ->].
      cbn. f_equal. apply (wrap_idemp 8). lia.
    + apply List.Forall_map, list.Forall_seq. intros j Hj. cbn. lia.
Qed.

(** ** A Function without a mailbox *)

Section no_mailbox.
Context {D : Type} {HW : Hw D}.
Variable regs : D -> Z -> Z.
Hypothesis static : forall d a, hw_read 4 d a = (regs d a, d).
Variables (platform_pcie_cfg : list ecam_block) (blk : ecam_block) (bdf : Z) (l : list Z).
Variable fuel : nat.
Hypothesis Hcfg : head platform_pcie_cfg = Some blk.
Hypothesis Hfn : 0 <= fn_base blk bdf /\ fn_base blk bdf + 4096 <= 2 ^ 64.
Hypothesis Hfuel : (length l < fuel)%nat.
Implicit Types t : dst D.

(** Nothing was sent and nothing was received. *)
Definition untouched t t' : Prop := p_dev (d_pci t') = p_dev (d_pci t) /\ response t' = response t.
Definition no_doe t : Prop :=
  chain (fun o => hdr_next PCIE_ECAP (ext_at regs blk bdf (p_dev (d_pci t)) o)) PCIE_ECAP_START l /\
  List.find (is_doe regs blk bdf (p_dev (d_pci t))) l = None.

Lemma wp_no_base t Q : no_doe t ->
  (forall t', untouched t t' -> Q None t') ->
  wp (Da.pci (doe_base platform_pcie_cfg fuel bdf)) Q t.
Proof.
  intros [Hc Hn] H. apply wp_zoom.
  apply (wp_find_doe regs static platform_pcie_cfg blk bdf Hcfg Hfn fuel l); [done|done|].
  intros s' Hs. rewrite Hn. cbn [option_map]. by apply H.
Qed.

Lemma exchange_lost msg t b words : no_doe t -> fst msg = Some b -> words_of b (snd msg) = Some words ->
  wp (exchange platform_pcie_cfg fuel bdf msg) (fun _ t' => untouched t t') t.
Proof.
  intros Hno Hb Hw. unfold exchange. rewrite Hb. apply wp_bind, wp_ret. rewrite Hw.
  apply wp_bind, wp_ret. apply wp_bind.
  assert (wp (Da.pci (pal_write_doe_msgo_doe_mailbox platform_pcie_cfg fuel bdf words))
    (fun _ t' => untouched t t') t) as H1.
  { apply wp_zoom. unfold pal_write_doe_msgo_doe_mailbox. apply wp_bind.
    apply (wp_find_doe regs static platform_pcie_cfg blk bdf Hcfg Hfn fuel l); [apply Hno|done|].
    intros s' Hs. rewrite (proj2 Hno). by apply wp_ret. }
  eapply wp_mono; [|exact H1]. intros _ t1 [Hd Hr]. cbn beta.
  unfold pal_check_doe_response, pal_host_pcie_doe_recv_resp. do 3 apply wp_bind.
  apply wp_no_base; [by unfold no_doe; rewrite Hd|]. intros t2 [Hd2 Hr2].
  apply wp_ret, wp_ret, wp_ret. split; congruence.
Qed.

(** The message of a call, when the stores fit in a buffer with some room. *)
Lemma message_ok n stores len :
  forallb (fun x => (Z.to_nat (fst x) <? n)%nat) stores = true ->
  0 <= len -> len + 3 < Z.of_nat n ->
  exists b words, put_bytes (replicate n 0) stores = Some b /\ words_of b len = Some words.
Proof.
  intros Hs Hl Hn. destruct (put_bytes_ok stores (replicate n 0)) as (b & Hb & Hlen).
  { rewrite list.length_replicate. apply list.Forall_forall. intros x Hx.
    rewrite forallb_forall in Hs. apply Nat.ltb_lt, Hs. by apply list_elem_of_In. }
  rewrite list.length_replicate in Hlen.
  destruct (words_of_ok b len Hl ltac:(lia)) as [words Hw]. by exists b, words.
Qed.

(** A message that is sent in vain, and what follows. *)
Lemma wp_lost {A} m (k : T D A) Q t t1 : no_doe t -> untouched t t1 ->
  (exists b words, fst m = Some b /\ words_of b (snd m) = Some words) ->
  (forall t2, untouched t t2 -> wp k Q t2) ->
  wp (exchange platform_pcie_cfg fuel bdf m ;; k) Q t1.
Proof.
  intros Hno [Hd1 Hr1] (b & words & Hb & Hw) Hk. apply wp_bind.
  eapply wp_mono; [|apply (exchange_lost m t1 b words); [by unfold no_doe; rewrite Hd1|done..]].
  intros _ t2 [Hd Hr]. apply Hk. split; congruence.
Qed.

(** [val_device_lock] drops the results of its exchanges: on a Function that
    has no mailbox, so that not a single message was sent, it reports success,
    and so does [val_device_unlock]. *)
Theorem device_lock_without_mailbox t : no_doe t ->
  wp (val_device_lock platform_pcie_cfg fuel bdf) (fun r t' => r = 0 /\ untouched t t') t /\
  wp (val_device_unlock platform_pcie_cfg fuel bdf) (fun r t' => r = 0 /\ untouched t t') t.
Proof.
  intros Hno. assert (untouched t t) as H0 by done. split.
  - unfold val_device_lock, pal_device_lock.
    eapply wp_lost; [done..|by eexists _, _|intros t1 H1].
    do 3 (eapply wp_lost; [done..|apply (message_ok 100); [reflexivity|cbn; lia..]|intros ? ?]).
    apply wp_bind, wp_gets.
    do 2 (eapply wp_lost; [done..|apply (message_ok 100); [reflexivity|cbn; lia..]|intros ? ?]).
    by apply wp_ret.
  - unfold val_device_unlock, pal_device_unlock.
    do 2 (eapply wp_lost; [done..|apply (message_ok 50); [reflexivity|cbn; lia..]|intros ? ?]).
    by apply wp_ret.
Qed.
End no_mailbox.

(** ** Examples *)

Definition demo_cfg : list ecam_block := [mk_ecam 0x40000000 0 0 255].
Definition demo_fn : Z := 0x00010203.
Definition demo_address : Z := 0x40000000 + 4096 * (256 * 1 + 8 * 2 + 3) + 0x100.
Definition demo_cfgs (a : Z) : Z := if a =? demo_address then 0x2E else 0.
Definition demo_respond (_ : list Z) : list Z := [7; 9].
(** A mailbox that is Ready at once, and one whose answer takes its time. *)
Definition demo_ready (_ : list Z) : Z := 2 ^ 31.
Definition demo_slow (_ : list Z) : Z := 1.
Definition demo_dst : dst doe := mk_dst (mk_pst (idle_doe 0) None None 0 []) response_init.

Lemma demo_fn_ok : 0 <= fn_base (mk_ecam 0x40000000 0 0 255) demo_fn /\
  fn_base (mk_ecam 0x40000000 0 0 255) demo_fn + 4096 <= 2 ^ 64.
Proof. vm_compute. split; discriminate. Qed.
Lemma doe_demo_apart (cap : Z) : forall o, o ∈ [cap] -> o <= cap \/ cap + 0x18 <= o.
Proof.
  intros o H. apply list.elem_of_cons in H as [->|H]; [left; lia|by apply list.elem_of_nil in H].
Qed.

Lemma doe_demo_chain : chain (fun o => hdr_next PCIE_ECAP
  (ext_reg demo_cfgs (mk_ecam 0x40000000 0 0 255) demo_fn o)) PCIE_ECAP_START [0x100].
Proof. apply chain_node; [done|apply chain_end]. Qed.
Lemma doe_exchange_roundtrip_witness :
  wp (exchange (HW := doe_hw demo_address demo_cfgs demo_respond demo_ready) demo_cfg 3 demo_fn
        (Some [0x10; 0x84; 0; 0], 4))
    (fun _ t' => take 3 (response t') = [7; 9; 0]) demo_dst /\
  wp (exchange (HW := doe_hw demo_address demo_cfgs demo_respond demo_slow) demo_cfg 3 demo_fn
        (Some [0x10; 0x84; 0; 0], 4))
    (fun _ t' => take 3 (response t') = [0; 0; 0]) demo_dst.
Proof.
  assert (forall after, (forall inb, word_ok (after inb)) -> wp (exchange (HW := doe_hw demo_address demo_cfgs demo_respond after) demo_cfg 3 demo_fn
    (Some [0x10; 0x84; 0; 0], 4)) (fun _ t' => response t' =
      if accepted (after (object [0x8410])) then [7; 9] ++ drop 2 response_init else response_init) demo_dst) as H.
  { intros after Hafter.
    destruct (doe_exchange_roundtrip demo_address demo_cfgs demo_respond after Hafter ltac:(done)
      demo_cfg (mk_ecam 0x40000000 0 0 255) demo_fn 0x100 [0x100] 3 eq_refl demo_fn_ok
      doe_demo_chain ltac:(vm_compute; reflexivity)
      ltac:(vm_compute; reflexivity) (doe_demo_apart 0x100) ltac:(cbn; lia)
      [0x10; 0x84; 0; 0] 4 [0x8410] 0 demo_dst
      ltac:(repeat (apply list.Forall_cons; split; [lia|]); by apply list.Forall_nil)
      ltac:(lia) ltac:(vm_compute; reflexivity) eq_refl ltac:(unfold word_ok; lia) eq_refl
      ltac:(repeat (apply list.Forall_cons; split; [unfold word_ok; lia|]); by apply list.Forall_nil)
      ltac:(cbn; lia) ltac:(cbn; lia) ltac:(vm_compute; reflexivity)) as [_ H].
    eapply wp_mono; [|exact H]. intros x t' Hr. change (unwilling 0) with false in Hr. cbv iota in Hr.
    destruct (accepted _); exact (proj1 Hr). }
  split.
  - eapply wp_mono; [|apply (H demo_ready); intros; unfold word_ok, demo_ready; lia].
    intros x t' Ht. rewrite Ht. vm_compute. reflexivity.
  - eapply wp_mono; [|apply (H demo_slow); intros; unfold word_ok, demo_slow; lia].
    intros x t' Ht. rewrite Ht. vm_compute. reflexivity.
Defined.

Lemma run_msg_nonce_witness :
  exists msg, pal_form_tdisp_run_msg 0x0102 (replicate 100 0x01020304) (replicate 100 0) = (Some msg, 0x3c) /\
    msg !! 29%nat = Some 3.
Proof.
  assert (exists msg, pal_form_tdisp_run_msg 0x0102 (replicate 100 0x01020304) (replicate 100 0) =
    (Some msg, 0x3c)) as [msg H] by (eexists; vm_compute; reflexivity).
  exists msg. split; [exact H|].
  destruct (run_msg_nonce 0x0102 (replicate 100 0x01020304) (replicate 100 0) msg 0x3c H eq_refl
    ltac:(lia)) as (_ & _ & _ & Hn).
  specialize (Hn 1%nat ltac:(lia)). cbn [Nat.add] in Hn. rewrite Hn. vm_compute. reflexivity.
Defined.

Lemma device_lock_without_mailbox_witness :
  wp (val_device_lock (HW := PcieSpec.static_hw (fun _ => 0)) demo_cfg 3 demo_fn)
    (fun r _ => r = 0) (mk_dst (mk_pst tt None None 0 []) response_init).
Proof.
  destruct (device_lock_without_mailbox (HW := PcieSpec.static_hw (fun _ => 0))
    (fun _ _ => 0) (fun d a => eq_refl) demo_cfg (mk_ecam 0x40000000 0 0 255) demo_fn [0x100] 3
    eq_refl demo_fn_ok ltac:(cbn; lia) (mk_dst (mk_pst tt None None 0 []) response_init)) as [H _].
  { split; [|reflexivity]. apply chain_node; [done|]. apply chain_end. }
  eapply wp_mono; [|exact H]. by intros r t' [-> _].
Defined.
