(* ===== verification/PcieDa.v ===== *)
(** * PcieDa

    The rest of val/src/acs_pcie.c: the queries it hands to the platform, the
    report of the devices found, and the checks of the device assignment tests
    (TDISP enable, write detection, root port security properties), which use
    EL3, the shared structure and configuration space together. *)

From Stdlib Require Import ZArith Lia Bool List.
From stdpp Require Import base tactics numbers list gmap option.
From S2P Require Import Prelude Memory El3State El3Handler El3Call Pcie PcieEnum PciePal TestRun TestModules Exerciser Da.

(** ** Constants (rme_acs_pcie_spec.h, rme_acs_pe.h, rme_acs_el32.h, pal_interface.h) *)
Definition UP : Z := 1 << 5.
Definition DP : Z := 1 << 6.
Definition PCIE_PCI : Z := 1 << 7.
Definition PCI_PCIE : Z := 1 << 8.
Definition TYPE01_HTR_SHIFT : Z := 16.
Definition TYPE01_HTR_MASK : Z := 0xff.
Definition HTR_MFD_SHIFT : Z := 7.
Definition HTR_MFD_MASK : Z := 0x1.
Definition RMEDA_CTL1 : Z := 0xC.
Definition STREAM_STATE_INSECURE : Z := 0x0.
Definition RMSD_WRITE_PROTECT : Z := 0.
Definition RMSD_FULL_PROTECT : Z := 1.
Definition PCIE_RP : Z := 0.
Definition RME_MIN_TG4_SHIFT : Z := 28.
Definition RME_MIN_TG16_SHIFT : Z := 24.
Definition SIZE_4K : Z := 4 * 1024.
Definition SIZE_16K : Z := 16 * 1024.
Definition SIZE_64K : Z := 64 * 1024.
Definition MAIR_REG_VAL_EL3 : Z := 0x4404ff.
Definition DEV_MEM_nGnRnE : Z := 0.

Definition EXTRACT_ATTR_IND (x : Z) : Z := (MAIR_REG_VAL_EL3 >> (x * 8)) .& 0xFF.
(** The index is not assigned when no attribute matches. *)
Definition GET_ATTR_INDEX (x : Z) : option Z :=
  List.find (fun i => EXTRACT_ATTR_IND i =? x) (zseq 0 8).

(** [val_get_min_tg], from the value of ID_AA64MMFR0_EL1. *)
Definition val_get_min_tg (mmfr0 : Z) : Z :=
  if (mmfr0 .& (0xf << RME_MIN_TG4_SHIFT)) >> RME_MIN_TG4_SHIFT =? 0 then SIZE_4K
  else if (mmfr0 .& (0xf << RME_MIN_TG16_SHIFT)) >> RME_MIN_TG16_SHIFT =? 0 then SIZE_16K
  else SIZE_64K.

(** ** Queries answered by the platform *)

Section queries.
Context {D : Type} {HW : Hw D}.
Context (platform_pcie_cfg : list ecam_block) (platform_root_pcie_cfg : list (list root_info))
        (platform_pcie_device_hierarchy : list PCIE_READ_BLOCK).
Variable fuel : nat.

(** A question about a Function by segment, bus, device and function. *)
Definition by_bdf {R} (f : Z -> Z -> Z -> Z -> R) (bdf : Z) : R :=
  f (PCIE_EXTRACT_BDF_SEG bdf) (PCIE_EXTRACT_BDF_BUS bdf) (PCIE_EXTRACT_BDF_DEV bdf)
    (PCIE_EXTRACT_BDF_FUNC bdf).

Definition val_pcie_io_read_cfg (bdf offset : Z) : Z * option Z :=
  pal_pcie_io_read_cfg platform_pcie_device_hierarchy bdf offset.
Definition val_pcie_io_write_cfg (bdf offset data : Z) : P D unit :=
  pal_pcie_io_write_cfg platform_pcie_cfg bdf offset data.
Definition val_pcie_bar_mem_write (bdf offset data : Z) : P D Z :=
  pal_pcie_bar_mem_write bdf offset data.
Definition val_pcie_bar_mem_read (bdf offset : Z) : P D (Z * Z) := pal_pcie_bar_mem_read bdf offset.
Definition val_pcie_enumerate : N D unit :=
  pal_pcie_enumerate platform_pcie_cfg platform_root_pcie_cfg fuel.
Definition val_get_msi_vectors : Z -> Z := by_bdf pal_get_msi_vectors.
Definition val_pci_get_legacy_irq_map : Z -> Z * option (list (list Z * Z)) :=
  by_bdf (pal_pcie_get_legacy_irq_map platform_pcie_device_hierarchy).
Definition val_pcie_is_device_behind_smmu : Z -> Z :=
  by_bdf (pal_pcie_is_device_behind_smmu platform_pcie_device_hierarchy).
Definition val_pcie_is_devicedma_64bit : Z -> Z :=
  by_bdf (pal_pcie_is_devicedma_64bit platform_pcie_device_hierarchy).
Definition val_pcie_device_driver_present : Z -> Z := by_bdf pal_pcie_device_driver_present.
Definition val_pcie_scan_bridge_devices_and_check_memtype : Z -> P D Z :=
  by_bdf (pal_pcie_scan_bridge_devices_and_check_memtype platform_pcie_cfg).
(** The status and the new value of [*bdf]. *)
Definition val_pcie_get_root_port_bdf (bdf : Z) : P D (Z * Z) :=
  let! '(status, (seg, bus, dev, func)) :=
    by_bdf (pal_pcie_get_root_port_bdf platform_pcie_cfg fuel) bdf in
  ret (status, if truthy status then bdf else PCIE_CREATE_BDF seg bus dev func).
Definition val_pcie_get_device_type : Z -> P D Z :=
  by_bdf (pal_pcie_get_device_type platform_pcie_cfg).
Definition val_pcie_p2p_support : Z := pal_pcie_p2p_support.
Definition val_pcie_dev_p2p_support : Z -> Z :=
  by_bdf (pal_pcie_dev_p2p_support platform_pcie_device_hierarchy).
Definition val_pcie_get_pcie_type : Z -> P D Z :=
  by_bdf (pal_pcie_get_pcie_type platform_pcie_cfg fuel).
Definition val_pcie_get_snoop_bit : Z -> P D Z :=
  by_bdf (pal_pcie_get_snoop_bit platform_pcie_cfg fuel).
Definition val_pcie_get_dma_support : Z -> Z :=
  by_bdf (pal_pcie_get_dma_support platform_pcie_device_hierarchy).
Definition val_pcie_get_dma_coherent : Z -> Z :=
  by_bdf (pal_pcie_get_dma_coherent platform_pcie_device_hierarchy).
Definition val_pcie_get_bdf (class_code start_bdf : Z) : N D Z :=
  pal_pcie_get_bdf_wrapper platform_pcie_cfg class_code start_bdf.
(** What is stored through [val]; the offset and the word have 8 and 16 bits. *)
Definition val_pcie_read_ext_cap_word (bdf ext_cap_id offset : Z) : P D (option Z) :=
  by_bdf (fun seg bus dev fn =>
    pal_pcie_read_ext_cap_word platform_pcie_cfg fuel seg bus dev fn ext_cap_id (u8 offset)) bdf.
Definition val_pcie_is_onchip_peripheral (bdf : Z) : Z := PciePal.pal_pcie_is_onchip_peripheral bdf.
Definition val_pcie_get_rp_transaction_frwd_support : Z -> Z :=
  by_bdf pal_pcie_get_rp_transaction_frwd_support.
End queries.

(** ** Functions of configuration space *)

Section functions.
Context {D : Type} {HW : Hw D} {PAL : PciPal}.
Variable fuel : nat.

(** The pointer to the table of Functions. *)
Definition val_pcie_bdf_table_ptr : P D (option (list (Z * Z))) := gets p_table.

Definition val_pcie_multifunction_support (bdf : Z) : P D Z :=
  let! reg_data := cfg bdf TYPE01_CLSR in
  let reg_data := (reg_data >> TYPE01_HTR_SHIFT) .& TYPE01_HTR_MASK in
  ret (b2z (negb (truthy ((reg_data >> HTR_MFD_SHIFT) .& HTR_MFD_MASK)))).

(** The cases of the [switch], in its order, with a counter each. *)
Definition port_types : list Z :=
  [RCiEP; RCEC; EP; RP; iEP_EP; iEP_RP; UP; DP; PCI_PCIE; PCIE_PCI].
Definition bump (dp_type : Z) (counts : list Z) : list Z :=
  zip_with (fun t n => if dp_type =? t then u32 (n + 1) else n) port_types counts.
Fixpoint count_types (devs : list (Z * Z)) (counts : list Z) : P D (list Z) :=
  match devs with
  | [] => ret counts
  | (bdf, _) :: devs' =>
      let! dp_type := val_pcie_device_port_type fuel bdf in
      count_types devs' (bump dp_type counts)
  end.

(** The Functions shown for one ECAM region. *)
Fixpoint devices_of (ecam_base ecam_start_bus ecam_end_bus : Z) (devs : list (Z * Z))
    : P D (list Z) :=
  match devs with
  | [] => ret []
  | (bdf, _) :: devs' =>
      let bus_num := PCIE_EXTRACT_BDF_BUS bdf in
      let! _reg_value := cfg bdf TYPE01_VIDR in
      let! dev_ecam_base := val_pcie_get_ecam_base bdf in
      let! l := devices_of ecam_base ecam_start_bus ecam_end_bus devs' in
      ret (if (ecam_base =? dev_ecam_base) && (ecam_start_bus <=? bus_num) &&
              (bus_num <=? ecam_end_bus)
           then by_bdf PCIE_CREATE_BDF bdf :: l else l)
  end.
Definition ecam_region (devs : list (Z * Z)) (x : Z * list (list Z))
    : P D (Z * list (list Z) + list (list Z)) :=
  let '(ecam_index, shown) := x in
  let! n := val_pcie_get_info PCIE_INFO_NUM_ECAM 0 in
  if n <=? ecam_index then ret (inr shown) else
  let! ecam_base := val_pcie_get_info PCIE_INFO_ECAM ecam_index in
  let! ecam_start_bus := val_pcie_get_info PCIE_INFO_START_BUS ecam_index in
  let! ecam_end_bus := val_pcie_get_info PCIE_INFO_END_BUS ecam_index in
  let! l := devices_of ecam_base ecam_start_bus ecam_end_bus devs in
  ret (inl (u32 (ecam_index + 1), shown ++ [l])).
(** What is reported: the counters and the Functions of every region, nothing
    for an empty table. *)
Definition val_pcie_print_device_info : P D (option (list Z * list (list Z))) :=
  let! devs := bdf_table in
  if (length devs =? 0)%nat then ret None else
  let! counts := count_types devs (replicate 10 0) in
  let! shown := loop fuel (ecam_region devs) (0, []) in
  ret (Some (counts, shown)).

(** ** Write detection *)

Definition val_pcie_write_detect_bitfield_check (bdf : Z) (e : bitfield_entry)
    (ide_sel_str_cnt : Z) : P D Z :=
  let alignment_byte_cnt := bf_offset e .& 0x3 in
  let reg_offset := bf_offset e - alignment_byte_cnt in
  let! '(status, base) := bf_cap_base fuel bdf e in
  if negb (status =? PCIE_SUCCESS) then ret status else
  let! cap_base := use base in
  let off := u32 (cap_base + reg_offset) in
  let! reg_value := cfg bdf off in
  val_pcie_write_cfg bdf off reg_value ;;
  let! reg_value := cfg bdf off in
  match bf_attr e with
  | WRITE_DETECT =>
      require ((bf_start e <? 32) && (bf_end e <? 63) &&
               (REG_SHIFT alignment_byte_cnt (bf_start e) <? 32)) ;;
      let temp_reg_value := reg_value in
      let shift := REG_SHIFT alignment_byte_cnt (bf_start e) in
      val_pcie_write_cfg bdf off
        (u32 (reg_value .^ u64 (REG_MASK (bf_end e) (bf_start e) << shift))) ;;
      (* the status is not looked at *)
      let! '(_status, reg_overwrite_value) := val_get_sel_str_status fuel bdf ide_sel_str_cnt in
      val_pcie_write_cfg bdf off temp_reg_value ;;
      let! reg_overwrite_value := use reg_overwrite_value in
      if negb (reg_overwrite_value =? STREAM_STATE_INSECURE)
      then ret (if is_warning (err_str2 e) then 0 else 1)
      else ret 0
  | _ => ret 1
  end.
End functions.

(** ** The VAL and EL3 together *)

(** The test runner (free addresses), EL3, and the PCIe tables of the VAL. The
    hardware is the one in the state of EL3. *)
Record sys (W D : Type) := mk_sys {
  y_run : tst W; y_el3 : el3 D; y_info : option (list ecam_block);
  y_table : option (list (Z * Z)); y_flag : Z; y_trace : list ev
}.
Arguments mk_sys {W D}. Arguments y_run {W D}. Arguments y_el3 {W D}. Arguments y_info {W D}.
Arguments y_table {W D}. Arguments y_flag {W D}. Arguments y_trace {W D}.
Abbreviation Y W D := (M (sys W D)).

(** The Non-secure view of the bus, for the code that runs below EL3. *)
Definition ns_hw {D} {NB : NsBus D} : Hw D := {|
  hw_read _ := ns_read;
  hw_write _ := ns_write;
  hw_at_s1e3w _ _ _ := 1
|}.

Section together.
Context {W D : Type} {HW : Hw D} {NB : NsBus D} {PAL : PciPal}.
Variables (vec : Z) (fuel : nat) (mmfr0 : Z).

Definition runs {A} (m : TestRun.T W A) : Y W D A :=
  zoom y_run (fun r s => mk_sys r (y_el3 s) (y_info s) (y_table s) (y_flag s) (y_trace s)) m.
Definition at_el3 {A} (m : E D A) : Y W D A :=
  zoom y_el3 (fun e s => mk_sys (y_run s) e (y_info s) (y_table s) (y_flag s) (y_trace s)) m.
Definition pci_of (s : sys W D) : pst D :=
  mk_pst (e_dev (y_el3 s)) (y_info s) (y_table s) (y_flag s) (y_trace s).
Definition put_pci (p : pst D) (s : sys W D) : sys W D :=
  mk_sys (y_run s) (set_dev (p_dev p) (y_el3 s)) (p_info p) (p_table p) (p_list_flag p) (p_trace p).
Definition on_pci {A} (m : P D A) : Y W D A := zoom pci_of put_pci m.

(** The attributes of the mappings, in 32 bits. *)
Definition device_attr : Y W D Z :=
  let! i := use (GET_ATTR_INDEX DEV_MEM_nGnRnE) in
  ret (u32 (LOWER_ATTRS (PGT_ENTRY_ACCESS .| SHAREABLE_ATTR OUTER_SHAREABLE .| i .|
                         PGT_ENTRY_AP_RW))).

(** A write of EL3 through the first entry of the shared array. *)
Definition root_write (address data : Z) : E D unit :=
  prepare WRITE_DATA address (Some data) ;; val_pe_access_mut_el3 vec fuel.
(** The rest of both functions: the configuration space of the Function is
    mapped in EL3 and [data] written to the control register. The address of
    the configuration space is kept in 32 bits. *)
Definition write_tdisp_control (bdf cap_base va data : Z) : Y W D unit :=
  let! cfg_addr := on_pci (val_pcie_get_bdf_config_addr bdf) in
  let cfg_addr := u32 cfg_addr in
  let! attr := device_attr in
  at_el3 (val_add_mmu_entry_el3 vec fuel va cfg_addr
            (attr .| LOWER_ATTRS (PAS_ATTR El3State.ROOT_PAS))) ;;
  at_el3 (root_write (u64 (va + cap_base + 0xC)) data).

Definition da_capability (bdf : Z) : Y W D (option Z) :=
  let! '(status, o) := on_pci (val_pcie_find_da_capability (HW := ns_hw) fuel bdf) in
  if negb (status =? PCIE_SUCCESS) then ret None else
  let! cap_base := use o in ret (Some cap_base).

Definition val_pcie_enable_tdisp (bdf : Z) : Y W D Z :=
  let! o := da_capability bdf in
  match o with
  | None => ret 1
  | Some cap_base =>
      let! va := runs (val_get_free_va (val_get_min_tg mmfr0)) in
      let! _r := on_pci (val_pcie_read_cfg (HW := ns_hw) bdf (u32 (cap_base + RMEDA_CTL1))) in
      write_tdisp_control bdf cap_base va 1 ;;
      let! _r := on_pci (val_pcie_read_cfg (HW := ns_hw) bdf (u32 (cap_base + RMEDA_CTL1))) in
      ret 0
  end.

Definition val_pcie_disable_tdisp (bdf : Z) : Y W D Z :=
  let! o := da_capability bdf in
  match o with
  | None => ret 1
  | Some cap_base =>
      let! va := runs (val_get_free_va (val_get_min_tg mmfr0)) in
      write_tdisp_control bdf cap_base va 0 ;;
      ret 0
  end.

(** The two cases of [val_pcie_rp_sec_prpty_check]. *)
Definition write_protect_check (address : Z) : E D Z :=
  let! org_data := val_mmio_read address in
  root_write address TEST_DATA_1 ;;
  let! rd_data := val_mmio_read address in
  if negb (rd_data =? TEST_DATA_1) then ret 1 else
  val_mmio_write address TEST_DATA_2 ;;
  let! rd_data := val_mmio_read address in
  if rd_data =? TEST_DATA_1 then ret 1 else
  root_write address org_data ;;
  ret 0.
Definition full_protect_check (address : Z) : E D Z :=
  prepare READ_DATA address None ;;
  val_pe_access_mut_el3 vec fuel ;;
  let! a := access0 in
  let org_data := u32 (acc_data a) in
  (* the write from root is prepared, but the call is missing *)
  prepare WRITE_DATA address (Some TEST_DATA_1) ;;
  ns_accesses vec fuel address org_data.
Definition val_pcie_rp_sec_prpty_check (e : REGISTER_INFO_TABLE) : Y W D Z :=
  if negb (r_type e =? PCIE_RP) then ret 0 else
  let! status := val_pcie_enable_tdisp (r_bdf e) in
  if truthy status then ret 1 else
  if r_property e =? RMSD_WRITE_PROTECT then at_el3 (write_protect_check (r_address e))
  else if r_property e =? RMSD_FULL_PROTECT then at_el3 (full_protect_check (r_address e))
  else ret 1.
End together.
