(* ===== verification/PcieDaSpec.v ===== *)
(** * PcieDaSpec

    Properties of the checks of [PcieDa]: what enabling TDISP does to EL3's
    tables and to the Function, and which registers of a root port the security
    property check passes. *)

From Stdlib Require Import ZArith Lia Bool List.
From stdpp Require Import base tactics numbers list gmap option.
From S2P Require Import Prelude Memory El3State El3Pgt El3Common El3Handler El3Call Pcie PcieSpec PcieEnum PciePal TestRun TestModules Exerciser Da DaSpec PcieDa.
Local Open Scope Z_scope.

Lemma set_dev_same {D} (e : el3 D) : set_dev (e_dev e) e = e.
Proof. by destruct e. Qed.

Section together.
Context {W D : Type} {HW : Hw D} {NB : NsBus D} {PAL : PciPal}.
Variables (vec : Z) (fuel : nat) (mmfr0 : Z).
Implicit Types s : sys W D.

Lemma wp_runs {A} (m : TestRun.T W A) Q s :
  wp m (fun a r => Q a (mk_sys r (y_el3 s) (y_info s) (y_table s) (y_flag s) (y_trace s))) (y_run s) ->
  wp (runs m) Q s.
Proof. intros H. apply wp_zoom. exact H. Qed.
Lemma wp_at_el3 {A} (m : E D A) Q s :
  wp m (fun a e => Q a (mk_sys (y_run s) e (y_info s) (y_table s) (y_flag s) (y_trace s))) (y_el3 s) ->
  wp (at_el3 m) Q s.
Proof. intros H. apply wp_zoom. exact H. Qed.

(** What a computation on configuration space that only reads leaves. *)
Definition quiet s s' : Prop :=
  y_run s' = y_run s /\ y_el3 s' = y_el3 s /\ y_info s' = y_info s /\ y_table s' = y_table s.
Lemma wp_on_pci {A} (m : P D A) (Q : A -> sys W D -> Prop) s a p :
  m (pci_of s) = Done a p -> reads_only (pci_of s) p -> (forall s', quiet s s' -> Q a s') ->
  wp (on_pci m) Q s.
Proof.
  intros Hm (Hd & Hi & Ht & _) H. apply wp_zoom. unfold wp. rewrite Hm. apply H. cbn in *.
  unfold quiet, put_pci. cbn. by rewrite Hd, Hi, Ht, set_dev_same.
Qed.

(** A write of EL3 asked for through the shared structure. *)
Lemma root_write_run address data (e : el3 D) : has_access e ->
  exists e', root_write vec fuel address data e = Done tt e' /\ has_access e' /\
    e_mem e' = e_mem e /\ e_dev e' = hw_write 4 (e_dev e) address (u32 data).
Proof.
  intros (x & rest & Hx). unfold root_write, prepare, access0, set_access0, sh.
  destruct e as [m d sy [] tr fp fl sm]. cbn in Hx. subst.
  eexists. split; [reflexivity|]. split; [eexists _, _; reflexivity|]. done.
Qed.

(** The mapping service. *)
Lemma add_mmu_call va pa attr (e e1 : el3 D) :
  0 <= va < 2 ^ 64 -> 0 <= pa < 2 ^ 64 -> 0 <= attr < 2 ^ 64 ->
  add_mmu_entry fuel va pa attr e = Done tt e1 ->
  val_add_mmu_entry_el3 vec fuel va pa attr e = Done tt (add_ev (EvTlbiVae3 va) e1).
Proof.
  intros Hva Hpa Hat H.
  change ((add_mmu_entry fuel (u64 va) (u64 pa) (u64 attr) ;; emit (EvTlbiVae3 (u64 va))) e =
          Done tt (add_ev (EvTlbiVae3 va) e1)).
  unfold u64. rewrite !wrap_small by done. by rewrite (bind_done _ _ _ _ _ H).
Qed.

(** ** Enabling TDISP *)

Section tdisp.
Variable regs : D -> Z -> Z.
Hypothesis ns_static : forall d a, ns_read d a = (regs d a, d).
Variables (bdf : Z) (b : ecam_block).
Hypothesis Hok : bdf_ok bdf.
Hypothesis Hbase : base_ok b.

(** The Function's first extended capability is the RME one. *)
Definition da_first (d : D) : Prop :=
  hdr_id PCIE_ECAP (creg regs bdf b d PCIE_ECAP_START) = ECID_DVSEC /\
  creg regs bdf b d (PCIE_ECAP_START + RMEDA_HEAD2) .& 0xFFFF = RMEDA_HEAD2_DVSEC_ID.

Lemma find_da_run (p : pst D) : in_block bdf b p -> da_first (p_dev p) -> (0 < fuel)%nat ->
  exists p', val_pcie_find_da_capability (HW := ns_hw) fuel bdf p =
             Done (PCIE_SUCCESS, Some PCIE_ECAP_START) p' /\ reads_only p p'.
Proof.
  intros Hin (Hid & Hh2) Hf. unfold val_pcie_find_da_capability.
  destruct (cfg_run (HW := ns_hw) regs ns_static bdf b Hok Hbase PCIE_ECAP_START p Hin) as (p1 & H1 & R1).
  destruct (cfg_run (HW := ns_hw) regs ns_static bdf b Hok Hbase (PCIE_ECAP_START + RMEDA_HEAD2) p1
    (in_block_frame _ _ _ _ Hin R1)) as (p2 & H2 & R2).
  destruct fuel as [|n]; [lia|]. exists p2. split.
  - cbn [loop]. unfold da_step at 1. change (PCIE_ECAP_START =? 0) with false. cbv iota.
    unfold bind at 1, bind at 1. rewrite (bind_done _ _ _ _ _ H1).
    unfold hdr_id in Hid. rewrite Hid. change (ECID_DVSEC =? ECID_DVSEC) with true. cbv iota.
    rewrite (bind_done _ _ _ _ _ H2), (proj1 R1), Hh2. done.
  - unfold reads_only in *. intuition congruence.
Qed.

Lemma tdisp_block_info s s' : y_info s' = y_info s -> in_block bdf b (pci_of s) -> in_block bdf b (pci_of s').
Proof. intros Hi (blocks & H & Hf). exists blocks. cbn in *. by rewrite Hi. Qed.
Lemma wp_ns_read off Q s : in_block bdf b (pci_of s) -> (forall v s', quiet s s' -> Q v s') ->
  wp (on_pci (val_pcie_read_cfg (HW := ns_hw) bdf off)) Q s.
Proof.
  intros Hin H.
  destruct (read_cfg_run (HW := ns_hw) regs ns_static bdf b Hok Hbase off _ Hin) as (p & Hp & Hr).
  eapply wp_on_pci; [exact Hp|exact Hr|]. apply H.
Qed.
Lemma wp_config_addr Q s : in_block bdf b (pci_of s) ->
  (forall s', quiet s s' -> Q (fn_window (ecam_base b) bdf) s') ->
  wp (on_pci (val_pcie_get_bdf_config_addr bdf)) Q s.
Proof.
  intros Hin H. eapply wp_on_pci; [|repeat split|exact H].
  unfold val_pcie_get_bdf_config_addr. by rewrite (bind_done _ _ _ _ _ (cfg_address_ok _ _ _ Hok Hin Hbase)).
Qed.

(** The attributes of the mapping: device memory of Root, read and write. *)
Definition tdisp_attr : Z := 0xE4C.
Lemma write_control_run cap va data s e1 :
  in_block bdf b (pci_of s) -> 0 <= cap < 0x1000 -> 0 <= va < 2 ^ 64 - 0x2000 ->
  add_mmu_entry fuel va (u32 (fn_window (ecam_base b) bdf)) tdisp_attr (y_el3 s) = Done tt e1 ->
  has_access e1 ->
  wp (write_tdisp_control vec fuel bdf cap va data) (fun _ s' =>
    y_run s' = y_run s /\ y_info s' = y_info s /\ e_mem (y_el3 s') = e_mem e1 /\
    e_dev (y_el3 s') = hw_write 4 (e_dev e1) (va + cap + 0xC) (u32 data)) s.
Proof.
  intros Hin Hcap Hva Hmap Hacc. unfold write_tdisp_control.
  apply wp_bind, wp_config_addr; [done|]. intros s1 (Q1 & Q2 & Q3 & Q4).
  apply wp_bind. unfold device_attr. change (GET_ATTR_INDEX DEV_MEM_nGnRnE) with (Some 3).
  apply wp_bind, wp_ret, wp_ret.
  match goal with |- wp (at_el3 (val_add_mmu_entry_el3 _ _ _ _ ?x) ;; _) _ _ =>
    replace x with tdisp_attr by reflexivity end.
  set (pa := u32 _) in *.
  assert (0 <= pa < 2 ^ 32) by (apply wrap_range; lia).
  apply wp_bind, wp_at_el3. rewrite Q2. eapply wp_intro.
  { apply add_mmu_call; [lia|lia|unfold tdisp_attr; lia|exact Hmap]. }
  apply wp_at_el3. cbn [y_el3].
  destruct (root_write_run (u64 (va + cap + 0xC)) data (add_ev (EvTlbiVae3 va) e1) Hacc)
    as (e2 & H2 & _ & Hm & Hd).
  eapply wp_intro; [exact H2|]. cbn. rewrite Hm, Hd. unfold u64. rewrite wrap_small by lia. done.
Qed.

(** Enabling TDISP of a Function that has the RME capability succeeds. In EL3
    one fresh virtual address is mapped, and 1 is written to the control register
    of the capability through it; but the physical page that is mapped is the low
    32 bits of the address of the Function's configuration space: with an ECAM
    above 4GB another page is mapped, and the write does not reach the Function. *)
Theorem enable_tdisp_low_address s e1 :
  in_block bdf b (pci_of s) -> da_first (e_dev (y_el3 s)) -> (0 < fuel)%nat ->
  let va := free_mem_var_va (y_run s) in
  let window := fn_window (ecam_base b) bdf in
  0 <= va < 2 ^ 64 - 0x2000 ->
  add_mmu_entry fuel va (u32 window) tdisp_attr (y_el3 s) = Done tt e1 -> has_access e1 ->
  wp (val_pcie_enable_tdisp vec fuel mmfr0 bdf) (fun r s' =>
    r = 0 /\ e_mem (y_el3 s') = e_mem e1 /\
    e_dev (y_el3 s') = hw_write 4 (e_dev e1) (va + PCIE_ECAP_START + RMEDA_CTL1) 1 /\
    free_mem_var_va (y_run s') = u64 (va + val_get_min_tg mmfr0)) s /\
  (2 ^ 32 <= window -> u32 window <> window).
Proof.
  intros Hin Hda Hf va window Hva Hmap Hacc. split.
  2:{ intros Hw E. assert (0 <= u32 window < 2 ^ 32) by (apply wrap_range; lia). lia. }
  destruct (find_da_run (pci_of s) Hin Hda Hf) as (p0 & H0 & R0).
  unfold val_pcie_enable_tdisp, da_capability.
  apply wp_bind, wp_bind. eapply wp_on_pci; [exact H0|exact R0|]. intros s1 (Q1 & Q2 & Q3 & Q4).
  cbn [negb Z.eqb PCIE_SUCCESS use]. apply wp_bind, wp_ret, wp_ret.
  apply wp_bind, wp_runs. unfold val_get_free_va. apply wp_bind, wp_gets. rewrite Q1. fold va.
  apply wp_bind, wp_modify, wp_ret.
  match goal with |- wp _ _ ?x => set (s2 := x) end.
  assert (in_block bdf b (pci_of s2)) as Hin2
    by by apply (tdisp_block_info s1), (tdisp_block_info s).
  apply wp_bind, wp_ns_read; [done|]. intros _ s3 (S1 & S2 & S3 & S4).
  apply wp_bind. eapply wp_mono; [|apply (write_control_run _ _ _ _ e1);
    [by apply (tdisp_block_info s2)|unfold PCIE_ECAP_START; lia|lia|rewrite S2; cbn; rewrite Q2; exact Hmap|done]].
  intros _ s4 (T1 & T2 & T3 & T4).
  apply wp_bind, wp_ns_read.
  { by apply (tdisp_block_info s3), (tdisp_block_info s2). }
  intros _ s5 (U1 & U2 & U3 & U4). apply wp_ret.
  rewrite U2, T3, T4. rewrite U1, T1, S1. done.
Qed.
End tdisp.

(** ** The security property check of a root port *)

Section security.
(** What Root reads from a register; Non-secure software reads the same. *)
Variable root : D -> Z -> Z.
Hypothesis ns_reads : forall d a, ns_read d a = (root d a, d).

Lemma wp_ns_mmio_read {A} (k : Z -> E D A) a Q (e : el3 D) : wp (k (u32 (root (e_dev e) a))) Q e ->
  wp (bind (val_mmio_read a) k) Q e.
Proof.
  intros H. apply wp_bind. unfold wp, val_mmio_read. rewrite ns_reads. by rewrite set_dev_same.
Qed.

(** The check of a write-protected register of a root port is inverted, once
    TDISP is enabled. A register whose Non-secure writes are ignored fails the
    check, and keeps the test pattern of Root in place of its contents. A register
    that Non-secure software can write passes it, with its contents restored. *)
Theorem write_protect_inverted e s s1 :
  r_type e = PCIE_RP -> r_property e = RMSD_WRITE_PROTECT ->
  val_pcie_enable_tdisp vec fuel mmfr0 (r_bdf e) s = Done 0 s1 -> has_access (y_el3 s1) ->
  let a := r_address e in
  (forall d v, root (hw_write 4 d a v) a = v) ->
  ((forall d v, ns_write d a v = d) ->
   wp (val_pcie_rp_sec_prpty_check vec fuel mmfr0 e) (fun r s' =>
     r = 1 /\ root (e_dev (y_el3 s')) a = TEST_DATA_1) s) /\
  ((forall d v, root (ns_write d a v) a = v) ->
   wp (val_pcie_rp_sec_prpty_check vec fuel mmfr0 e) (fun r s' =>
     r = 0 /\ root (e_dev (y_el3 s')) a = u32 (root (e_dev (y_el3 s1)) a)) s).
Proof.
  intros Ht Hp Hen Hacc a Hrw.
  assert (forall Q, wp (write_protect_check vec fuel a) (fun r x =>
    Q r (mk_sys (y_run s1) x (y_info s1) (y_table s1) (y_flag s1) (y_trace s1))) (y_el3 s1) ->
    wp (val_pcie_rp_sec_prpty_check vec fuel mmfr0 e) Q s) as Hstart.
  { intros Q H. unfold val_pcie_rp_sec_prpty_check. rewrite Ht, Hp.
    change (negb (PCIE_RP =? PCIE_RP)) with false. cbv iota.
    apply wp_bind. eapply wp_intro; [exact Hen|]. by apply wp_at_el3. }
  (* up to the write from Non-secure *)
  assert (forall Q, (forall e1, has_access e1 -> root (e_dev e1) a = TEST_DATA_1 ->
    wp (val_mmio_write a TEST_DATA_2 ;;
        let! rd_data := val_mmio_read a in
        if rd_data =? TEST_DATA_1 then ret 1 else
        root_write vec fuel a (u32 (root (e_dev (y_el3 s1)) a)) ;; ret 0) Q e1) ->
    wp (write_protect_check vec fuel a) Q (y_el3 s1)) as Hmid.
  { intros Q H. unfold write_protect_check. apply wp_ns_mmio_read.
    destruct (root_write_run a TEST_DATA_1 _ Hacc) as (e1 & H1 & Ha1 & _ & Hd1).
    apply wp_bind. eapply wp_intro; [exact H1|]. apply wp_ns_mmio_read. rewrite Hd1, Hrw.
    change (negb (u32 (u32 TEST_DATA_1) =? TEST_DATA_1)) with false. cbv iota.
    apply H; [done|]. by rewrite Hd1, Hrw. }
  split; intros Hw; apply Hstart, Hmid; intros e1 Ha1 Hr1;
    apply wp_bind, wp_modify; rewrite Hw || idtac; apply wp_ns_mmio_read; cbn [e_dev set_dev].
  - rewrite Hr1. change (u32 TEST_DATA_1 =? TEST_DATA_1) with true. by apply wp_ret.
  - rewrite Hw. change (u32 (u32 TEST_DATA_2) =? TEST_DATA_1) with false. cbv iota.
    match goal with |- wp _ _ ?x => set (e2 := x) end.
    destruct (root_write_run a (u32 (root (e_dev (y_el3 s1)) a)) e2 Ha1) as (e3 & H3 & _ & _ & Hd3).
    apply wp_bind. eapply wp_intro; [exact H3|]. apply wp_ret. split; [done|]. cbn [y_el3].
    rewrite Hd3, Hrw. apply (wrap_idemp 32). lia.
Qed.
End security.
End together.

(** ** A root port behind an ECAM above 4GB *)

#[local] Instance high_pal : PciPal := PcieSpec.demo_pal.
(** Registers that keep what EL3 writes; the pages of EL3's pool are mapped. *)
Definition mapped_file_hw : Hw (Z -> Z) :=
  {| hw_read _ d a := (d a, d); hw_write _ d a v := fun a' => if a' =? a then v else d a';
     hw_at_s1e3w _ _ _ := 0 |}.
Definition read_only_bus : NsBus (Z -> Z) := {| ns_read d a := (d a, d); ns_write d _ _ := d |}.
Definition high_block : ecam_block := mk_ecam 0x200000000 0 0 255.
Definition high_regs (a : Z) : Z :=
  if a =? fn_window 0x200000000 demo_bdf + 0x100 then 0x23
  else if a =? fn_window 0x200000000 demo_bdf + 0x108 then 0xFF01
  else 0.
Definition high_el3 : el3 (Z -> Z) :=
  mk_el3 ∅ high_regs (mk_sysregs 0 0 25 0x10000 0 0 0 0 0 0 0 0 0)
    (set_sh_access [mk_access 0 0 0] zero_shared) [] FREE_MEM_START 0 zero_globals.
Definition high_sys : sys unit (Z -> Z) :=
  mk_sys (mk_tst tt [] None 0 0 0 0 0x880200000 1 0 []) high_el3 (Some [high_block]) None 0 [].
Definition has_entry (e : el3 (Z -> Z)) : bool :=
  match sh_access (e_shared e) with [] => false | _ => true end.
Lemma has_entry_access e : has_entry e = true -> has_access e.
Proof. unfold has_entry, has_access. destruct (sh_access _) as [|x l]; [done|]. by exists x, l. Qed.

Lemma enable_tdisp_low_address_witness :
  wp (val_pcie_enable_tdisp (HW := mapped_file_hw) (NB := read_only_bus) 0 10 0 demo_bdf)
    (fun r s' => r = 0 /\ free_mem_var_va (y_run s') = 0x880201000) high_sys /\
  u32 (fn_window 0x200000000 demo_bdf) <> fn_window 0x200000000 demo_bdf.
Proof.
  assert (match add_mmu_entry (HW := mapped_file_hw) 10 0x880200000
            (u32 (fn_window 0x200000000 demo_bdf)) tdisp_attr high_el3 with
          | Done tt e1 => has_entry e1 | _ => false end = true) as H by (vm_compute; reflexivity).
  destruct (add_mmu_entry _ _ _ _ _) as [[] e1| |] eqn:E; [|discriminate..].
  destruct (enable_tdisp_low_address (W := unit) (HW := mapped_file_hw) (NB := read_only_bus) 0 10 0
    (fun d => d) (fun d a => eq_refl) demo_bdf high_block demo_bdf_ok
    ltac:(repeat split; vm_compute; first [reflexivity|discriminate]) high_sys e1
    ltac:(by exists [high_block]) (conj eq_refl eq_refl) ltac:(lia)
    ltac:(split; vm_compute; congruence) E (has_entry_access _ H)) as [Hw Hne].
  split; [|apply Hne; vm_compute; discriminate].
  eapply wp_mono; [|exact Hw]. intros r s' (Hr & _ & _ & Hv). split; [exact Hr|].
  etransitivity; [exact Hv|reflexivity].
Defined.

Lemma write_protect_inverted_witness :
  wp (val_pcie_rp_sec_prpty_check (HW := mapped_file_hw) (NB := read_only_bus) 0 10 0
        (mk_register PCIE_RP demo_bdf 0x1000 RMSD_WRITE_PROTECT)) (fun r _ => r = 1) high_sys.
Proof.
  assert (match val_pcie_enable_tdisp (HW := mapped_file_hw) (NB := read_only_bus) 0 10 0 demo_bdf
            high_sys with
          | Done r s1 => (r =? 0) && has_entry (y_el3 s1) | _ => false end = true) as H
    by (vm_compute; reflexivity).
  destruct (val_pcie_enable_tdisp _ _ _ _ _) as [r s1| |] eqn:E; [|discriminate..].
  apply andb_true_iff in H as [Hr Ha]. apply Z.eqb_eq in Hr. subst r.
  destruct (write_protect_inverted (W := unit) (HW := mapped_file_hw) (NB := read_only_bus) 0 10 0
    (fun d => d) (fun d a => eq_refl) (mk_register PCIE_RP demo_bdf 0x1000 RMSD_WRITE_PROTECT)
    high_sys s1 eq_refl eq_refl E (has_entry_access _ Ha)) as [H1 _].
  { intros d v. reflexivity. }
  eapply wp_mono; [|exact (H1 (fun d v => eq_refl))]. by intros r s' [Hr _].
Defined.
