(* ===== verification/Timer.v ===== *)
(** * Timer

    Timers: val/src/acs_timer.c, acs_timer_support.c and acs_wd.c, on the table
    that platform/pal_baremetal/src/pal_timer_wd.c fills. The generic timer's
    registers are the class [ArchTimer]. *)

From Stdlib Require Import ZArith Lia Bool List.
From stdpp Require Import base tactics numbers list option.
From S2P Require Import Prelude Memory El3State.
Local Open Scope Z_scope.

(** ** Registers (rme_acs_timer_support.h, rme_acs_timer.h) *)

Inductive ARM_ARCH_TIMER_REGS :=
| CntFrq | CntPct | CntkCtl | CntpTval | CntpCtl | CntvTval | CntvCtl | CntvCt | CntpCval
| CntvCval | CntvOff | CnthCtl | CnthpTval | CnthpCtl | CnthpCval | CnthvTval | CnthvCtl
| CnthvCval.
#[global] Instance timer_reg_eq_dec : EqDecision ARM_ARCH_TIMER_REGS.
Proof. solve_decision. Defined.

Definition ARM_ARCH_TIMER_ENABLE : Z := 1 << 0.
Definition ARM_ARCH_TIMER_IMASK : Z := 1 << 1.
Definition TIMER_SKIP : Z := 0x10000000.

Class ArchTimer (D : Type) := {
  tr_read : ARM_ARCH_TIMER_REGS -> D -> Z;
  tr_write : ARM_ARCH_TIMER_REGS -> Z -> D -> D
}.

(** ** Tables (pal_interface.h) *)

Record TIMER_INFO_HDR := mk_timer_hdr {
  s_el1_timer_flag : Z; ns_el1_timer_flag : Z; el2_timer_flag : Z; el2_virt_timer_flag : Z;
  s_el1_timer_gsiv : Z; ns_el1_timer_gsiv : Z; el2_timer_gsiv : Z;
  virtual_timer_flag : Z; virtual_timer_gsiv : Z; el2_virt_timer_gsiv : Z;
  num_platform_timer : Z; num_watchdog : Z; sys_timer_status : Z
}.
(** A block of system timers; the arrays have eight elements. *)
Record TIMER_INFO_GTBLOCK := mk_gtblock {
  gt_type : Z; timer_count : Z; block_cntl_base : Z; frame_num : list Z;
  GtCntBase : list Z; GtCntEl0Base : list Z; gsiv : list Z; virt_gsiv : list Z; gt_flags : list Z
}.
Record TIMER_INFO_TABLE := mk_timer_table {
  t_header : TIMER_INFO_HDR; gt_info : list TIMER_INFO_GTBLOCK
}.
(** The platform's description; its arrays have [PLATFORM_OVERRIDE_TIMER_COUNT]
    elements, and it has no frame numbers. *)
Record PLATFORM_TIMER := mk_platform_timer { cfg_header : TIMER_INFO_HDR; cfg_gt : TIMER_INFO_GTBLOCK }.

Inductive TIMER_INFO_e :=
| TIMER_INFO_CNTFREQ | TIMER_INFO_PHY_EL1_INTID | TIMER_INFO_PHY_EL1_FLAGS
| TIMER_INFO_VIR_EL1_INTID | TIMER_INFO_VIR_EL1_FLAGS | TIMER_INFO_PHY_EL2_INTID
| TIMER_INFO_PHY_EL2_FLAGS | TIMER_INFO_VIR_EL2_INTID | TIMER_INFO_VIR_EL2_FLAGS
| TIMER_INFO_NUM_PLATFORM_TIMERS
| TIMER_INFO_IS_PLATFORM_TIMER_SECURE | TIMER_INFO_SYS_CNTL_BASE | TIMER_INFO_SYS_CNT_BASE_N
| TIMER_INFO_FRAME_NUM | TIMER_INFO_SYS_INTID | TIMER_INFO_SYS_TIMER_STATUS.

(** [g_timer_info_table] and the hardware. *)
Record tmr (D : Type) := mk_tmr { m_dev : D; g_timer_info_table : option TIMER_INFO_TABLE }.
Arguments mk_tmr {D}. Arguments m_dev {D}. Arguments g_timer_info_table {D}.
Abbreviation TM D := (M (tmr D)).

(** ** The platform's table *)

(** [t] is what the memory of the table holds before; its first block is
    filled, and what the platform does not give keeps its old value. *)
Definition fill_frame (c b : TIMER_INFO_GTBLOCK) (i : nat) : option TIMER_INFO_GTBLOCK :=
  cb ← GtCntBase c !! i; el0 ← GtCntEl0Base c !! i; g ← gsiv c !! i; v ← virt_gsiv c !! i;
  f ← gt_flags c !! i; _ ← GtCntBase b !! i;
  Some (mk_gtblock (gt_type b) (timer_count b) (block_cntl_base b) (frame_num b)
          (<[i := cb]> (GtCntBase b)) (<[i := el0]> (GtCntEl0Base b)) (<[i := g]> (gsiv b))
          (<[i := v]> (virt_gsiv b)) (<[i := f]> (gt_flags b))).
Fixpoint fill_frames (c : TIMER_INFO_GTBLOCK) (l : list nat) (b : TIMER_INFO_GTBLOCK)
    : option TIMER_INFO_GTBLOCK :=
  match l with [] => Some b | i :: l' => b' ← fill_frame c b i; fill_frames c l' b' end.

Definition pal_timer_create_info_table (platform_timer_cfg : PLATFORM_TIMER) (t : TIMER_INFO_TABLE)
    : option TIMER_INFO_TABLE :=
  let h := cfg_header platform_timer_cfg in
  let c := cfg_gt platform_timer_cfg in
  let old := t_header t in
  b ← gt_info t !! 0%nat;
  let b := mk_gtblock (gt_type c) (timer_count c) (block_cntl_base c) (frame_num b)
             (GtCntBase b) (GtCntEl0Base b) (gsiv b) (virt_gsiv b) (gt_flags b) in
  let n := Z.to_nat (timer_count c) in
  b ← fill_frames c (seq 0 n) b;
  Some (mk_timer_table
    (mk_timer_hdr (s_el1_timer_flag h) (ns_el1_timer_flag h) (el2_timer_flag h)
       (el2_virt_timer_flag old) (s_el1_timer_gsiv h) (ns_el1_timer_gsiv h) (el2_timer_gsiv h)
       (virtual_timer_flag h) (virtual_timer_gsiv h) (el2_virt_timer_gsiv h)
       (Z.of_nat n) (num_watchdog old) (sys_timer_status old))
    (<[0%nat := b]> (gt_info t))).
(** [PLATFORM_OVERRIDE_TIMER_CNTFRQ]. *)
Definition pal_timer_get_counter_frequency : Z := 0.

Section code.
Context {D : Type} {AT : ArchTimer D} {HW : Hw D}.

(** ** Timer registers *)

(** The registers the functions name; the others read as all ones in 32 bits
    and ignore writes. *)
Definition readable (r : ARM_ARCH_TIMER_REGS) : bool :=
  match r with CnthCtl | CnthpCval | CnthvCval => false | _ => true end.
Definition writable (r : ARM_ARCH_TIMER_REGS) : bool :=
  match r with CntFrq | CntPct | CntvCt | CnthCtl | CnthpCval | CnthvCval => false | _ => true end.
Definition ArmArchTimerReadReg (r : ARM_ARCH_TIMER_REGS) : TM D Z :=
  gets (fun s => if readable r then tr_read r (m_dev s) else 0xFFFFFFFF).
Definition ArmArchTimerWriteReg (r : ARM_ARCH_TIMER_REGS) (data : Z) : TM D unit :=
  when writable r then
    modify (fun s => mk_tmr (tr_write r data (m_dev s)) (g_timer_info_table s)).

Definition ArmGenericTimerEnableTimer (reg : ARM_ARCH_TIMER_REGS) : TM D unit :=
  let! timer_ctrl_reg := ArmArchTimerReadReg reg in
  ArmArchTimerWriteReg reg ((timer_ctrl_reg .& bnot 64 ARM_ARCH_TIMER_IMASK)
                              .| ARM_ARCH_TIMER_ENABLE).
Definition ArmGenericTimerDisableTimer (reg : ARM_ARCH_TIMER_REGS) : TM D unit :=
  let! timer_ctrl_reg := ArmArchTimerReadReg reg in
  ArmArchTimerWriteReg reg ((timer_ctrl_reg .| ARM_ARCH_TIMER_IMASK)
                              .& bnot 64 ARM_ARCH_TIMER_ENABLE).

(** The four timers have the same body. *)
Definition set_timer (ctl tval : ARM_ARCH_TIMER_REGS) (timeout : Z) : TM D unit :=
  if negb (timeout =? 0) then
    ArmGenericTimerDisableTimer ctl ;;
    ArmArchTimerWriteReg tval timeout ;;
    ArmGenericTimerEnableTimer ctl
  else ArmGenericTimerDisableTimer ctl.
Definition val_timer_set_phy_el1 : Z -> TM D unit := set_timer CntpCtl CntpTval.
Definition val_timer_set_vir_el1 : Z -> TM D unit := set_timer CntvCtl CntvTval.
Definition val_timer_set_phy_el2 : Z -> TM D unit := set_timer CnthpCtl CnthpTval.
Definition val_timer_set_vir_el2 : Z -> TM D unit := set_timer CnthvCtl CnthvTval.

(** ** Look-ups *)

(** The [while] over the blocks; past the last block the table is read out of
    its bounds. *)
Fixpoint entry_from (blocks : list TIMER_INFO_GTBLOCK) (instance block index : Z)
    : option (Z * Z) :=
  match blocks with
  | [] => None
  | b :: blocks' =>
      if timer_count b <? instance then
        let instance := instance - timer_count b in
        entry_from blocks' instance (u32 (block + 1)) (u32 instance)
      else Some (block, index)
  end.
Definition timer_table : TM D TIMER_INFO_TABLE := let! t := gets g_timer_info_table in use t.
(** [*index] is not assigned when [*block] is 0xFFFF. *)
Definition val_platform_timer_get_entry_index (instance : Z) : TM D (Z * option Z) :=
  let! t := timer_table in
  if num_platform_timer (t_header t) <? instance then ret (0xFFFF, None) else
  let! '(block, index) := use (entry_from (gt_info t) instance 0 (u32 instance)) in
  ret (block, Some index).

(** A field of the entry of an instance, 0 when there is none. *)
Definition entry_field (t : TIMER_INFO_TABLE) (instance : Z)
    (f : TIMER_INFO_GTBLOCK -> nat -> option Z) : TM D Z :=
  let! '(block_num, block_index) := val_platform_timer_get_entry_index instance in
  if negb (block_num =? 0xFFFF) then
    let! i := use block_index in
    let! b := use (gt_info t !! Z.to_nat block_num) in
    use (f b (Z.to_nat i))
  else ret 0.

Definition val_timer_get_info (info_type : TIMER_INFO_e) (instance : Z) : TM D Z :=
  let! o := gets g_timer_info_table in
  match o with
  | None => ret 0
  | Some t =>
      let h := t_header t in
      match info_type with
      | TIMER_INFO_CNTFREQ => ArmArchTimerReadReg CntFrq
      | TIMER_INFO_PHY_EL1_INTID => ret (ns_el1_timer_gsiv h)
      | TIMER_INFO_VIR_EL1_INTID => ret (virtual_timer_gsiv h)
      | TIMER_INFO_PHY_EL2_INTID => ret (el2_timer_gsiv h)
      | TIMER_INFO_VIR_EL2_INTID => ret (el2_virt_timer_gsiv h)
      | TIMER_INFO_NUM_PLATFORM_TIMERS => ret (num_platform_timer h)
      | TIMER_INFO_IS_PLATFORM_TIMER_SECURE =>
          entry_field t instance (fun b i => f ← gt_flags b !! i; Some ((f >> 16) .& 1))
      | TIMER_INFO_SYS_CNTL_BASE => entry_field t instance (fun b _ => Some (block_cntl_base b))
      | TIMER_INFO_SYS_CNT_BASE_N => entry_field t instance (fun b i => GtCntBase b !! i)
      | TIMER_INFO_FRAME_NUM => entry_field t instance (fun b i => frame_num b !! i)
      | TIMER_INFO_SYS_INTID => entry_field t instance (fun b i => gsiv b !! i)
      | TIMER_INFO_PHY_EL1_FLAGS => ret (ns_el1_timer_flag h)
      | TIMER_INFO_VIR_EL1_FLAGS => ret (virtual_timer_flag h)
      | TIMER_INFO_PHY_EL2_FLAGS => ret (el2_timer_flag h)
      | TIMER_INFO_SYS_TIMER_STATUS => ret (sys_timer_status h)
      | TIMER_INFO_VIR_EL2_FLAGS => ret 0
      end
  end.

(** [None] for a NULL argument. *)
Definition val_timer_create_info_table (cfg : PLATFORM_TIMER)
    (timer_info_table : option TIMER_INFO_TABLE) : TM D unit :=
  match timer_info_table with
  | None => ret tt
  | Some t =>
      let! t := use (pal_timer_create_info_table cfg t) in
      modify (fun s => mk_tmr (m_dev s) (Some t)) ;;
      val_timer_set_phy_el1 0
  end.

(** ** System timers and the counter *)

Definition mmio_read (a : Z) : TM D Z := fun s =>
  let '(v, d) := hw_read 4 (m_dev s) a in Done (u32 v) (mk_tmr d (g_timer_info_table s)).
Definition mmio_write (a v : Z) : TM D unit :=
  modify (fun s => mk_tmr (hw_write 4 (m_dev s) a (u32 v)) (g_timer_info_table s)).

Definition val_timer_set_system_timer (cnt_base_n timeout : Z) : TM D unit :=
  mmio_write (u64 (cnt_base_n + 0x28)) timeout ;;
  mmio_write (u64 (cnt_base_n + 0x2C)) 1.
Definition val_timer_disable_system_timer (cnt_base_n : Z) : TM D unit :=
  mmio_write (u64 (cnt_base_n + 0x2C)) 0.

Definition val_timer_skip_if_cntbase_access_not_allowed (index : Z) : TM D Z :=
  let! cnt_ctl_base := val_timer_get_info TIMER_INFO_SYS_CNTL_BASE index in
  let! frame_num := val_timer_get_info TIMER_INFO_FRAME_NUM index in
  let reg := u64 (cnt_ctl_base + 0x40 + u32 (u32 frame_num * 4)) in
  if truthy cnt_ctl_base then
    let! data := mmio_read reg in
    if data .& 0x1 =? 0x1 then ret 0 else
    mmio_write reg (data .| 0x1) ;;
    let! data := mmio_read reg in
    if data .& 0x1 =? 1 then ret 0 else ret TIMER_SKIP
  else ret TIMER_SKIP.

Definition val_get_counter_frequency : TM D Z :=
  let counter_freq := pal_timer_get_counter_frequency in
  if counter_freq =? 0 then val_timer_get_info TIMER_INFO_CNTFREQ 0 else ret counter_freq.
End code.

(** ** Look-ups of system timers *)

Section lookup.
Context {D : Type}.
Implicit Types s : tmr D.

(** The block and the index in it of the [i]-th timer, counted from 0. *)
Fixpoint timer_at (counts : list Z) (i block : Z) : option (Z * Z) :=
  match counts with
  | [] => None
  | c :: counts' => if i <? c then Some (block, i) else timer_at counts' (i - c) (block + 1)
  end.
Definition total (counts : list Z) : Z := foldr Z.add 0 counts.

Lemma total_nonneg counts : Forall (fun c => 0 <= c) counts -> 0 <= total counts.
Proof. induction 1; unfold total in *; cbn; lia. Qed.

Lemma entry_from_next blocks : forall i block,
  Forall (fun c => 0 <= c) (map timer_count blocks) -> 0 <= i < total (map timer_count blocks) ->
  i + 1 < 2 ^ 32 -> 0 <= block -> block + Z.of_nat (length blocks) < 2 ^ 32 ->
  exists k j, timer_at (map timer_count blocks) i block = Some (k, j) /\ 0 <= k < 2 ^ 32 /\ 0 <= j /\
    entry_from blocks (i + 1) block (i + 1) = Some (k, j + 1).
Proof.
  unfold total. induction blocks as [|b blocks IH]; intros i block Hc Hi Hmax Hb Hlen; cbn in *; [lia|].
  apply list.Forall_cons in Hc as [Hc0 Hc].
  destruct (Z.ltb_spec i (timer_count b)) as [Hlt|Hge].
  - replace (timer_count b <? i + 1) with false by zbool. exists block, i.
    split; [done|]. split; [lia|]. by split; [lia|].
  - replace (timer_count b <? i + 1) with true by zbool.
    replace (i + 1 - timer_count b) with (i - timer_count b + 1) by lia.
    unfold u32. rewrite !wrap_small by lia.
    apply (IH (i - timer_count b) (block + 1) Hc); lia.
Qed.

(** The instance of a system timer is counted from 1 in the look-up of its
    entry, apart from instance 0: instance [i + 1] is found one place behind the
    [i]-th timer. Behind the last timer of a block that is past the end of the
    block, and the number of timers itself is accepted as an instance. *)
Theorem timer_index_off_by_one t s i :
  g_timer_info_table s = Some t ->
  let counts := map timer_count (gt_info t) in
  Forall (fun c => 0 <= c) counts -> num_platform_timer (t_header t) = total counts ->
  total counts < 2 ^ 32 -> Z.of_nat (length counts) < 2 ^ 32 -> 0 <= i < total counts ->
  wp (val_platform_timer_get_entry_index (i + 1)) (fun r s' => s' = s /\
    exists k j, timer_at counts i 0 = Some (k, j) /\ r = (k, Some (j + 1))) s /\
  wp (val_platform_timer_get_entry_index 0) (fun r s' => s' = s /\ r = (0, Some 0)) s.
Proof.
  intros Ht counts Hc Hn Hmax Hlen Hi. unfold val_platform_timer_get_entry_index, timer_table.
  pose proof (total_nonneg _ Hc) as H0. split.
  - apply wp_bind, wp_bind, wp_gets. rewrite Ht. apply wp_ret. rewrite Hn.
    replace (total counts <? i + 1) with false by zbool.
    destruct (entry_from_next (gt_info t) i 0 Hc Hi ltac:(lia) ltac:(lia)) as (k & j & Ha & _ & _ & He).
    { unfold counts in Hlen. rewrite length_map in Hlen. lia. }
    unfold u32. rewrite wrap_small by lia. rewrite He. apply wp_bind, wp_ret, wp_ret. split; [done|].
    by exists k, j.
  - apply wp_bind, wp_bind, wp_gets. rewrite Ht. apply wp_ret. rewrite Hn.
    replace (total counts <? 0) with false by zbool.
    destruct (gt_info t) as [|b bs] eqn:E; [cbn in *; lia|]. cbn [entry_from].
    cbn in Hc. apply list.Forall_cons in Hc as [Hb _].
    replace (timer_count b <? 0) with false by zbool. by apply wp_bind, wp_ret, wp_ret.
Qed.
End lookup.

(** ** From the platform's description to the look-ups *)

(** The arrays of a block hold at least [n] entries. *)
Definition block_room (n : nat) (b : TIMER_INFO_GTBLOCK) : Prop :=
  (n <= length (GtCntBase b) /\ n <= length (GtCntEl0Base b) /\ n <= length (gsiv b) /\
   n <= length (virt_gsiv b) /\ n <= length (gt_flags b))%nat.

Lemma fill_frames_run c n : block_room n c -> forall m k b, (k + m <= n)%nat -> block_room n b ->
  exists b', fill_frames c (seq k m) b = Some b' /\ frame_num b' = frame_num b /\
    timer_count b' = timer_count b /\ block_cntl_base b' = block_cntl_base b /\
    (forall j, (k <= j < k + m)%nat -> GtCntBase b' !! j = GtCntBase c !! j /\
       gsiv b' !! j = gsiv c !! j /\ gt_flags b' !! j = gt_flags c !! j) /\
    (forall j, (j < k)%nat -> GtCntBase b' !! j = GtCntBase b !! j /\
       gsiv b' !! j = gsiv b !! j /\ gt_flags b' !! j = gt_flags b !! j).
Proof.
  intros (C1 & C2 & C3 & C4 & C5). induction m as [|m IH]; intros k b Hk Hb.
  { exists b. cbn. repeat split; lia. }
  destruct Hb as (B1 & B2 & B3 & B4 & B5). cbn [seq fill_frames]. unfold fill_frame.
  destruct (list.lookup_lt_is_Some_2 (GtCntBase c) k ltac:(lia)) as [x1 E1].
  destruct (list.lookup_lt_is_Some_2 (GtCntEl0Base c) k ltac:(lia)) as [x2 E2].
  destruct (list.lookup_lt_is_Some_2 (gsiv c) k ltac:(lia)) as [x3 E3].
  destruct (list.lookup_lt_is_Some_2 (virt_gsiv c) k ltac:(lia)) as [x4 E4].
  destruct (list.lookup_lt_is_Some_2 (gt_flags c) k ltac:(lia)) as [x5 E5].
  destruct (list.lookup_lt_is_Some_2 (GtCntBase b) k ltac:(lia)) as [x6 E6].
  rewrite E1, E2, E3, E4, E5, E6. cbn [mbind option_bind].
  match goal with |- context [fill_frames _ _ ?x] => set (b1 := x) end.
  destruct (IH (S k) b1 ltac:(lia)) as (b' & H & Hf & Ht & Hcb & Hin & Hout).
  { unfold block_room, b1. cbn. rewrite !list.length_insert. auto 10. }
  exists b'. split; [exact H|]. split; [exact Hf|]. split; [exact Ht|]. split; [exact Hcb|]. split.
  - intros j Hj. destruct (decide (j = k)) as [->|Hne]; [|apply Hin; lia].
    destruct (Hout k ltac:(lia)) as (-> & -> & ->). unfold b1. cbn.
    rewrite !list.list_lookup_insert_eq by lia. by rewrite E1, E3, E5.
  - intros j Hj. destruct (Hout j ltac:(lia)) as (-> & -> & ->). unfold b1. cbn.
    by rewrite !list.list_lookup_insert_ne by lia.
Qed.

Section platform.
Context {D : Type} {AT : ArchTimer D} {HW : Hw D}.
Implicit Types s : tmr D.

(** The entry of an instance in the first block. *)
Lemma first_block_field t b rest i f v s : g_timer_info_table s = Some t ->
  gt_info t = b :: rest -> num_platform_timer (t_header t) = timer_count b ->
  Z.of_nat i < timer_count b < 2 ^ 32 -> f b i = Some v ->
  entry_field t (Z.of_nat i) f s = Done v s.
Proof.
  intros Ht Hg Hn Hi Hf. unfold entry_field, val_platform_timer_get_entry_index, timer_table.
  unfold bind, gets. rewrite Ht. cbn [use ret]. unfold ret. rewrite Hn.
  replace (timer_count b <? Z.of_nat i) with false by zbool.
  rewrite Hg. cbn [entry_from]. replace (timer_count b <? Z.of_nat i) with false by zbool.
  cbn [use]. unfold ret. change (negb (0 =? 0xFFFF)) with true. cbv iota. cbn [use].
  unfold ret, u32. change (Z.to_nat 0) with 0%nat. cbn [lookup list_lookup].
  rewrite wrap_small by lia. rewrite Nat2Z.id. cbn [use]. unfold ret. by rewrite Hf.
Qed.

(** What a query about an instance answers. *)
Definition answer (info : TIMER_INFO_e) (i : nat) s : option Z :=
  match val_timer_get_info info (Z.of_nat i) s with Done v _ => Some v | _ => None end.

(** C33. The table made from the platform's description gives, for every system
    timer of the description, the frame, interrupt and security flag described;
    but the frame number, which the description lacks, is whatever the memory of
    the table held. *)
Theorem platform_timers cfg t b0 rest n s :
  gt_info t = b0 :: rest -> timer_count (cfg_gt cfg) = Z.of_nat n -> Z.of_nat n < 2 ^ 32 ->
  block_room n (cfg_gt cfg) -> block_room n b0 -> (n <= length (frame_num b0))%nat ->
  wp (val_timer_create_info_table cfg (Some t)) (fun _ s' => forall i, (i < n)%nat ->
    answer TIMER_INFO_SYS_CNT_BASE_N i s' = GtCntBase (cfg_gt cfg) !! i /\
    answer TIMER_INFO_SYS_INTID i s' = gsiv (cfg_gt cfg) !! i /\
    answer TIMER_INFO_IS_PLATFORM_TIMER_SECURE i s' =
      option_map (fun f => (f >> 16) .& 1) (gt_flags (cfg_gt cfg) !! i) /\
    answer TIMER_INFO_FRAME_NUM i s' = frame_num b0 !! i) s.
Proof.
  intros Hg Hn Hmax Hc Hb Hfr. unfold val_timer_create_info_table, pal_timer_create_info_table.
  rewrite Hg. cbn [lookup list_lookup mbind option_bind]. rewrite Hn, Nat2Z.id.
  match goal with |- context [fill_frames _ _ ?x] => set (b1 := x) end.
  destruct (fill_frames_run (cfg_gt cfg) n Hc n 0 b1 ltac:(lia) Hb) as (b2 & H & Hf & Ht & _ & Hin & _).
  rewrite H. cbn [mbind option_bind use list_insert insert]. apply wp_bind, wp_ret, wp_bind, wp_modify.
  match goal with |- context [mk_timer_table ?h ?l] => set (t' := mk_timer_table h l) end.
  apply wp_mono with (P := fun _ s' => g_timer_info_table s' = Some t').
  2:{ unfold val_timer_set_phy_el1, set_timer. cbn [Z.eqb negb].
      unfold ArmGenericTimerDisableTimer. apply wp_bind, wp_gets, wp_modify. done. }
  intros [] s' Hs i Hi. destruct (Hin i ltac:(lia)) as (I1 & I2 & I3).
  assert (timer_count b2 = Z.of_nat n) as Hb2 by exact Ht.
  assert (forall f v, f b2 i = Some v -> entry_field t' (Z.of_nat i) f s' = Done v s') as He.
  { intros f v Hv. apply (first_block_field t' b2 rest); [done|done|by rewrite Hb2|lia|done]. }
  assert (forall l, (n <= length l)%nat -> exists v : Z, l !! i = Some v) as Hsome.
  { intros l Hl. destruct (list.lookup_lt_is_Some_2 l i ltac:(lia)) as [v Hv]. by exists v. }
  destruct Hc as (C1 & _ & C3 & _ & C5).
  destruct (Hsome _ C1) as [v1 V1], (Hsome _ C3) as [v2 V2], (Hsome _ C5) as [v3 V3], (Hsome _ Hfr) as [v4 V4].
  unfold answer, val_timer_get_info, bind at 1 2 3 4, gets. rewrite Hs.
  rewrite (He _ v1), (He _ v2), (He _ ((v3 >> 16) .& 1)), (He _ v4);
    [|by rewrite Hf|by rewrite I3, V3|by rewrite I2|by rewrite I1].
  by rewrite V1, V2, V3, V4.
Qed.

(** Programming a timer with a time-out leaves it enabled and unmasked, and
    the value is written while the timer is disabled and masked, so that no
    interrupt comes from the old setting; without a time-out the timer is left
    disabled and masked. *)
Theorem timer_armed ctl tval timeout s :
  In (ctl, tval) [(CntpCtl, CntpTval); (CntvCtl, CntvTval); (CnthpCtl, CnthpTval); (CnthvCtl, CnthvTval)] ->
  let off v := Z.testbit v 0 = false /\ Z.testbit v 1 = true in
  wp (set_timer ctl tval timeout) (fun _ s' => g_timer_info_table s' = g_timer_info_table s /\
    exists v1, off v1 /\ (timeout = 0 -> m_dev s' = tr_write ctl v1 (m_dev s)) /\
      (timeout <> 0 -> exists v2, Z.testbit v2 0 = true /\ Z.testbit v2 1 = false /\
         m_dev s' = tr_write ctl v2 (tr_write tval timeout (tr_write ctl v1 (m_dev s))))) s.
Proof.
  intros Hin off.
  assert (readable ctl = true /\ writable ctl = true /\ writable tval = true) as (Hr & Hw & Hv).
  { repeat destruct Hin as [[= <- <-]|Hin]; done. }
  assert (forall v, off ((v .| ARM_ARCH_TIMER_IMASK) .& bnot 64 ARM_ARCH_TIMER_ENABLE)) as Hoff.
  { intros v. unfold off. rewrite !Z.land_spec, !Z.lor_spec.
    change (Z.testbit (bnot 64 ARM_ARCH_TIMER_ENABLE) 0) with false.
    change (Z.testbit (bnot 64 ARM_ARCH_TIMER_ENABLE) 1) with true.
    change (Z.testbit ARM_ARCH_TIMER_IMASK 1) with true. by rewrite andb_false_r, orb_true_r. }
  unfold set_timer, ArmGenericTimerDisableTimer, ArmGenericTimerEnableTimer, ArmArchTimerReadReg,
    ArmArchTimerWriteReg. rewrite Hr, Hw, Hv.
  destruct (Z.eqb_spec timeout 0) as [->|Hne]; cbn [negb].
  - apply wp_bind, wp_gets, wp_modify. split; [done|]. eexists. split; [apply Hoff|]. by split.
  - apply wp_bind, wp_bind, wp_gets, wp_modify. apply wp_bind, wp_modify.
    apply wp_bind, wp_gets, wp_modify. split; [done|]. eexists. split; [apply Hoff|]. split; [done|].
    intros _. eexists. split; [|split; [|reflexivity]].
    + rewrite Z.lor_spec. change (Z.testbit ARM_ARCH_TIMER_ENABLE 0) with true. apply orb_true_r.
    + rewrite Z.lor_spec, Z.land_spec. change (Z.testbit ARM_ARCH_TIMER_ENABLE 1) with false.
      change (Z.testbit (bnot 64 ARM_ARCH_TIMER_IMASK) 1) with false. by rewrite andb_false_r.
Qed.
End platform.

(** ** The platform of the FVP: one block of two timers *)

Definition fvp_header : TIMER_INFO_HDR :=
  mk_timer_hdr 2 2 2 0 0x1D 0x1E 0x1A 2 0x1B 0 2 0 0.
Definition fvp_timers : PLATFORM_TIMER :=
  mk_platform_timer fvp_header
    (mk_gtblock 0x2001 2 0x2A810000 [] [0x2A820000; 0x2A830000]
       [0xFFFFFFFFFFFFFFFF; 0xFFFFFFFFFFFFFFFF] [0x39; 0x3A] [0; 0] [0x30000; 0x20000]).
Definition raw8 : list Z := replicate 8 0xAA.
Definition raw_block : TIMER_INFO_GTBLOCK := mk_gtblock 0 0 0 raw8 raw8 raw8 raw8 raw8 raw8.
Definition raw_table : TIMER_INFO_TABLE :=
  mk_timer_table fvp_header [raw_block].
Definition reg_file : ArchTimer (ARM_ARCH_TIMER_REGS -> Z) :=
  {| tr_read r d := d r; tr_write r v d := fun r' => if decide (r' = r) then v else d r' |}.
Definition fvp_tmr : tmr (ARM_ARCH_TIMER_REGS -> Z) := mk_tmr (fun _ => 0) None.

Lemma platform_timers_witness :
  wp (val_timer_create_info_table (AT := reg_file) fvp_timers (Some raw_table)) (fun _ s' =>
    answer (AT := reg_file) TIMER_INFO_FRAME_NUM 1 s' = Some 0xAA) fvp_tmr.
Proof.
  eapply wp_mono; [|apply (platform_timers (AT := reg_file) fvp_timers raw_table raw_block [] 2 fvp_tmr);
    [done|done|done|repeat split; cbn; lia|repeat split; cbn; lia|cbn; lia]].
  intros [] s' H. destruct (H 1%nat ltac:(lia)) as (_ & _ & _ & H4). exact H4.
Defined.

Lemma timer_armed_witness :
  wp (set_timer (AT := reg_file) CntpCtl CntpTval 100) (fun _ s' => Z.testbit (m_dev s' CntpCtl) 0 = true)
    fvp_tmr.
Proof.
  eapply wp_mono; [|apply (timer_armed (AT := reg_file) CntpCtl CntpTval 100 fvp_tmr); by left].
  intros [] s' (_ & v1 & _ & _ & H). destruct (H ltac:(lia)) as (v2 & Hb & _ & ->). exact Hb.
Defined.

(** Two blocks of one timer each: instance 1 is one place past the first block. *)
Definition one_timer (base : Z) : TIMER_INFO_GTBLOCK :=
  mk_gtblock 0x2001 1 base [0] [base] [base] [0x39] [0] [0].
Definition two_blocks : tmr (ARM_ARCH_TIMER_REGS -> Z) :=
  mk_tmr (fun _ => 0) (Some (mk_timer_table fvp_header [one_timer 0x1000; one_timer 0x2000])).
Lemma timer_index_off_by_one_witness :
  wp (val_platform_timer_get_entry_index 1) (fun r _ => r = (0, Some 1)) two_blocks.
Proof.
  destruct (timer_index_off_by_one (mk_timer_table fvp_header [one_timer 0x1000; one_timer 0x2000])
    two_blocks 0 eq_refl ltac:(repeat apply list.Forall_cons_2; try apply list.Forall_nil_2; cbn; lia) eq_refl ltac:(cbn; lia) ltac:(cbn; lia)
    ltac:(cbn; lia)) as [H _].
  eapply wp_mono; [|exact H]. intros r s' (_ & k & j & Ha & ->). by injection Ha as <- <-.
Defined.
