(* ===== verification/Periph.v ===== *)
(** * Periph

    Peripherals: val/src/acs_peripherals.c and its table, which
    platform/pal_baremetal/src/pal_peripherals.c fills from the PCIe hierarchy
    and the platform's description of the UART. *)

From Stdlib Require Import ZArith Lia Bool List.
From stdpp Require Import base tactics numbers list option.
From S2P Require Import Prelude Memory El3State Pcie PcieSpec PcieEnum PciePal.
Local Open Scope Z_scope.

(** ** Data (pal_interface.h, pal_peripherals.c) *)
Definition PERIPHERAL_TYPE_USB : Z := 0x2000.
Definition PERIPHERAL_TYPE_SATA : Z := 0x2001.
Definition PERIPHERAL_TYPE_UART : Z := 0x2002.
Definition PERIPHERAL_TYPE_NONE : Z := 0x2004.
Definition USB_CLASSCODE : Z := 0x0C0300.
Definition SATA_CLASSCODE : Z := 0x010600.
Definition END_OF_TABLE : Z := 0xFF.

Record PERIPHERAL_INFO_BLOCK := mk_per {
  per_type : Z; per_bdf : Z; base0 : Z; base1 : Z; per_irq : Z; per_flags : Z;
  per_msi : Z; per_msix : Z; max_pasids : Z
}.
(** [info] is the memory behind the header, as many blocks as were allocated. *)
Record PERIPHERAL_INFO_TABLE := mk_per_table {
  num_usb : Z; num_sata : Z; num_uart : Z; num_all : Z; info : list PERIPHERAL_INFO_BLOCK
}.
Record UART_INFO := mk_uart { uart_Address : Z; BaseAddress : Z; GlobalSystemInterrupt : Z }.

Inductive PERIPHERAL_INFO_e :=
| NUM_USB | NUM_SATA | NUM_UART | NUM_ALL | USB_BASE0 | USB_FLAGS | USB_GSIV | USB_BDF
| SATA_BASE0 | SATA_BASE1 | SATA_FLAGS | SATA_GSIV | SATA_BDF | UART_BASE0 | UART_GSIV
| UART_FLAGS | ANY_FLAGS | ANY_GSIV | ANY_BDF | MAX_PASIDS.

(** ** The table of the VAL *)

(** [val_peripheral_get_entry_index], from entry [i] on; [None] when the table
    has no end mark. *)
Fixpoint entry_index_from (type instance i : Z) (l : list PERIPHERAL_INFO_BLOCK) : option Z :=
  match l with
  | [] => None
  | b :: l' =>
      if per_type b =? END_OF_TABLE then Some 0xFFFF
      else if (type =? PERIPHERAL_TYPE_NONE) || (per_type b =? type) then
        if instance =? 0 then Some i else entry_index_from type (instance - 1) (u32 (i + 1)) l'
      else entry_index_from type instance (u32 (i + 1)) l'
  end.
Definition val_peripheral_get_entry_index (t : PERIPHERAL_INFO_TABLE) (type instance : Z) : option Z :=
  entry_index_from type instance 0 (info t).

(** A field of an entry, 0 when there is none. *)
Definition per_field (t : PERIPHERAL_INFO_TABLE) (type instance : Z)
    (f : PERIPHERAL_INFO_BLOCK -> Z) : option Z :=
  i ← val_peripheral_get_entry_index t type instance;
  if negb (i =? 0xFFFF) then b ← info t !! Z.to_nat i; Some (f b) else Some 0.

(** The argument [None] is the NULL table. *)
Definition val_peripheral_get_info (o : option PERIPHERAL_INFO_TABLE) (info_type : PERIPHERAL_INFO_e)
    (instance : Z) : option Z :=
  match o with
  | None => Some 0
  | Some t =>
      let usb := per_field t PERIPHERAL_TYPE_USB instance in
      let sata := per_field t PERIPHERAL_TYPE_SATA instance in
      let uart := per_field t PERIPHERAL_TYPE_UART instance in
      let any := per_field t PERIPHERAL_TYPE_NONE instance in
      match info_type with
      | NUM_USB => Some (num_usb t) | NUM_SATA => Some (num_sata t)
      | NUM_UART => Some (num_uart t) | NUM_ALL => Some (num_all t)
      | USB_BASE0 => usb base0 | USB_FLAGS => usb per_flags | USB_GSIV => usb per_irq
      | USB_BDF => usb per_bdf
      | SATA_BASE0 => sata base0 | SATA_BASE1 => sata base1 | SATA_FLAGS => sata per_flags
      | SATA_BDF => sata per_bdf | SATA_GSIV => sata per_irq
      | UART_BASE0 => uart base0 | UART_GSIV => uart per_irq | UART_FLAGS => uart per_flags
      | ANY_FLAGS => any per_flags | ANY_GSIV => any per_irq | ANY_BDF => any per_bdf
      | MAX_PASIDS => any max_pasids
      end
  end.

(** ** The platform's table *)

Section code.
Context {D : Type} {HW : Hw D}.
Context (platform_pcie_cfg : list ecam_block).

(** Stores through [per_info], which points to entry [i] of the table. *)
Definition at_entry (i : nat) (f : PERIPHERAL_INFO_BLOCK -> PERIPHERAL_INFO_BLOCK)
    (l : list PERIPHERAL_INFO_BLOCK) : N D (list PERIPHERAL_INFO_BLOCK) :=
  require (i <? length l)%nat ;; ret (alter f i l).
Definition set_base0 (v : Z) (b : PERIPHERAL_INFO_BLOCK) : PERIPHERAL_INFO_BLOCK :=
  mk_per (per_type b) (per_bdf b) v (base1 b) (per_irq b) (per_flags b) (per_msi b) (per_msix b)
    (max_pasids b).
Definition set_controller (type bdf base : Z) (b : PERIPHERAL_INFO_BLOCK) : PERIPHERAL_INFO_BLOCK :=
  mk_per type bdf base (base1 b) (per_irq b) (per_flags b) (per_msi b) (per_msix b) (max_pasids b).
Definition set_uart (base irq : Z) (b : PERIPHERAL_INFO_BLOCK) : PERIPHERAL_INFO_BLOCK :=
  mk_per PERIPHERAL_TYPE_UART (per_bdf b) base (base1 b) irq (per_flags b) (per_msi b) (per_msix b)
    (max_pasids b).
Definition set_type (v : Z) (b : PERIPHERAL_INFO_BLOCK) : PERIPHERAL_INFO_BLOCK :=
  mk_per v (per_bdf b) (base0 b) (base1 b) (per_irq b) (per_flags b) (per_msi b) (per_msix b)
    (max_pasids b).

(** The first BAR that is not 0; the last one read when all are. *)
Definition bar_step (DeviceBdf bar_index _base : Z) : N D (Z + Z) :=
  let! base := pal_pcie_get_base platform_pcie_cfg DeviceBdf bar_index in
  if negb (base =? 0) then ret (inr base) else ret (inl base).
Definition first_bar (DeviceBdf : Z) : N D Z :=
  let! r := for_acc (Z.to_nat TYPE0_MAX_BARS) 0 0 (bar_step DeviceBdf) in
  ret (match r with inl base => base | inr base => base end).

(** One turn of a search loop: the next start, the number of controllers found
    and the table; the entry to fill is number [first + found]. *)
Definition controller_step (class_code type : Z) (first : nat)
    (x : Z * nat * list PERIPHERAL_INFO_BLOCK)
    : N D (Z * nat * list PERIPHERAL_INFO_BLOCK + nat * list PERIPHERAL_INFO_BLOCK) :=
  let '(StartBdf, found, l) := x in
  let! DeviceBdf := pal_pcie_get_bdf platform_pcie_cfg class_code StartBdf in
  if negb (DeviceBdf =? 0) then
    let! base := first_bar DeviceBdf in
    let! l := at_entry (first + found) (set_controller type DeviceBdf base) l in
    ret (inl (pal_increment_bus_dev DeviceBdf, S found, l))
  else ret (inr (found, l)).
Definition find_controllers (fuel : nat) (class_code type : Z) (first : nat)
    (l : list PERIPHERAL_INFO_BLOCK) : N D (nat * list PERIPHERAL_INFO_BLOCK) :=
  loop fuel (controller_step class_code type first) (0, 0%nat, l).

(** [blocks] is the memory of the table. *)
Definition pal_peripheral_create_info_table (fuel : nat) (platform_uart_cfg : UART_INFO)
    (blocks : list PERIPHERAL_INFO_BLOCK) : N D PERIPHERAL_INFO_TABLE :=
  let! l := at_entry 0 (set_base0 0) blocks in
  let! '(usb, l) := find_controllers fuel USB_CLASSCODE PERIPHERAL_TYPE_USB 0 l in
  let! '(sata, l) := find_controllers fuel SATA_CLASSCODE PERIPHERAL_TYPE_SATA usb l in
  let n := (usb + sata)%nat in
  if truthy (uart_Address platform_uart_cfg) then
    let! l := at_entry n (set_uart (BaseAddress platform_uart_cfg)
                            (GlobalSystemInterrupt platform_uart_cfg)) l in
    let! l := at_entry (S n) (set_type END_OF_TABLE) l in
    ret (mk_per_table (Z.of_nat usb) (Z.of_nat sata) 1 (Z.of_nat (S n)) l)
  else
    let! l := at_entry n (set_type END_OF_TABLE) l in
    ret (mk_per_table (Z.of_nat usb) (Z.of_nat sata) 0 (Z.of_nat n) l).

Definition val_peripheral_create_info_table (fuel : nat) (platform_uart_cfg : UART_INFO)
    (blocks : list PERIPHERAL_INFO_BLOCK) : N D PERIPHERAL_INFO_TABLE :=
  pal_peripheral_create_info_table fuel platform_uart_cfg blocks.

(** The walk over the capabilities. *)
Definition pal_peripheral_is_pcie (fuel : nat) (seg bus dev fn : Z) : P D Z :=
  pcie_cap_walk platform_pcie_cfg fuel seg bus dev fn 0 (fun _ _ => ret 1).
Definition val_peripheral_is_pcie (fuel : nat) (bdf : Z) : P D Z :=
  pal_peripheral_is_pcie fuel (PCIE_EXTRACT_BDF_SEG bdf) (PCIE_EXTRACT_BDF_BUS bdf)
    (PCIE_EXTRACT_BDF_DEV bdf) (PCIE_EXTRACT_BDF_FUNC bdf).
Definition pal_memory_ioremap (ptr _size _attr : Z) : Z := ptr.
End code.
