(* ===== verification/PeriphSpec.v ===== *)
(** * PeriphSpec

    Properties of [Periph]: the look-up of a peripheral is the look-up in the
    list of entries of its type; the table made from the PCIe hierarchy is found
    again by the look-ups, on any hardware; and which controllers the search of
    the platform cannot find. *)

From Stdlib Require Import ZArith Lia Bool List Sorted.
From stdpp Require Import base tactics numbers list option.
From S2P Require Import Prelude Memory El3State Pcie PcieSpec PcieEnum PciePal Periph.
Local Open Scope Z_scope.

(** ** Look-ups *)

(** The entries up to the end mark, with their numbers. *)
Fixpoint listed (k : Z) (l : list PERIPHERAL_INFO_BLOCK) : list (Z * PERIPHERAL_INFO_BLOCK) :=
  match l with
  | [] => []
  | b :: l' => if per_type b =? END_OF_TABLE then [] else (k, b) :: listed (k + 1) l'
  end.
Definition of_type (type : Z) (x : Z * PERIPHERAL_INFO_BLOCK) : bool :=
  (type =? PERIPHERAL_TYPE_NONE) || (per_type (snd x) =? type).
Definition numbers_of (type : Z) (l : list PERIPHERAL_INFO_BLOCK) : list Z :=
  map fst (List.filter (of_type type) (listed 0 l)).

Lemma entry_index_run type l : forall inst k,
  (exists b, In b l /\ per_type b = END_OF_TABLE) -> 0 <= k -> k + Z.of_nat (length l) < 2 ^ 32 ->
  entry_index_from type (Z.of_nat inst) k l =
  Some (nth inst (map fst (List.filter (of_type type) (listed k l))) 0xFFFF).
Proof.
  induction l as [|b l IH]; intros inst k (e & He & Hend) Hk Hlen; [done|]. cbn [entry_index_from listed].
  destruct (Z.eqb_spec (per_type b) END_OF_TABLE) as [E|E]; [by destruct inst|].
  cbn [length] in Hlen. unfold u32. rewrite wrap_small by lia.
  assert (exists b, In b l /\ per_type b = END_OF_TABLE) as Hex.
  { destruct He as [->|He]; [done|]. by exists e. }
  cbn [List.filter]. unfold of_type at 1. cbn [snd].
  destruct (_ || _) eqn:Et; [|by apply IH; [|lia..]].
  destruct inst as [|inst]; [done|]. replace (Z.of_nat (S inst) =? 0) with false by zbool.
  replace (Z.of_nat (S inst) - 1) with (Z.of_nat inst) by lia. cbn [map fst nth].
  apply IH; [done|lia..].
Qed.

(** The look-up of an instance of a peripheral type is the one in the list of
    the entries of that type, in the order of the table; 0xFFFF stands for none.
    It ends at the end mark. *)
Theorem peripheral_lookup_reference t type inst :
  (exists b, In b (info t) /\ per_type b = END_OF_TABLE) ->
  Z.of_nat (length (info t)) < 2 ^ 32 ->
  val_peripheral_get_entry_index t type (Z.of_nat inst) =
  Some (nth inst (numbers_of type (info t)) 0xFFFF).
Proof. intros He Hl. by apply entry_index_run. Qed.

(** The numbers depend on the types only. *)
Fixpoint nums (type k : Z) (ts : list Z) : list Z :=
  match ts with
  | [] => []
  | t :: ts' =>
      if t =? END_OF_TABLE then []
      else if (type =? PERIPHERAL_TYPE_NONE) || (t =? type) then k :: nums type (k + 1) ts'
      else nums type (k + 1) ts'
  end.
Lemma numbers_of_types type l k :
  map fst (List.filter (of_type type) (listed k l)) = nums type k (map per_type l).
Proof.
  revert k. induction l as [|b l IH]; intros k; [done|]. cbn [listed map nums].
  destruct (per_type b =? END_OF_TABLE); [done|]. cbn [List.filter]. unfold of_type at 1. cbn [snd].
  destruct (_ || _); [|apply IH]. cbn [map fst]. by rewrite IH.
Qed.
Lemma nums_replicate type t n k ts : t <> END_OF_TABLE ->
  nums type k (replicate n t ++ ts) =
  (if (type =? PERIPHERAL_TYPE_NONE) || (t =? type) then zseq k (k + Z.of_nat n) else []) ++
  nums type (k + Z.of_nat n) ts.
Proof.
  intros Ht. apply Z.eqb_neq in Ht. revert k. induction n as [|n IH]; intros k.
  - replace (k + Z.of_nat 0) with k by lia. unfold zseq. rewrite Z.sub_diag. by destruct (_ || _).
  - cbn [replicate app nums]. rewrite Ht, IH. replace (k + 1 + Z.of_nat n) with (k + Z.of_nat (S n)) by lia.
    destruct (_ || _); [|done]. cbn [app]. f_equal. unfold zseq.
    replace (Z.to_nat (k + Z.of_nat (S n) - k)) with (S n) by lia.
    replace (Z.to_nat (k + Z.of_nat (S n) - (k + 1))) with n by lia.
    cbn [seq map app]. f_equal; [lia|]. f_equal. rewrite <- seq_shift, map_map.
    apply map_ext. intros i. lia.
Qed.
Lemma nums_end type k ts : nums type k (END_OF_TABLE :: ts) = [].
Proof. done. Qed.
Lemma zseq_app a b c : a <= b <= c -> zseq a b ++ zseq b c = zseq a c.
Proof.
  intros H. unfold zseq. replace (Z.to_nat (c - a)) with (Z.to_nat (b - a) + Z.to_nat (c - b))%nat by lia.
  rewrite seq_app, map_app. f_equal. rewrite <- (Nat.add_0_r (0 + _)), <- fmap_add_seq, map_map.
  apply map_ext. intros i. lia.
Qed.

(** ** The search of the platform *)

Section search.
Context {D : Type} {HW : Hw D}.
Context (cfg : list ecam_block).
Implicit Types s : est D.

(** [m] ends and reads the configuration space as [Q] says of the result and the
    reads, the first one first. *)
Definition trace s : list ev := p_trace (e_pci s).
Definition reads {A} (m : N D A) (Q : A -> list ev -> Prop) s : Prop :=
  wp m (fun a s' => exists evs, trace s' = rev evs ++ trace s /\ Q a evs) s.
Lemma observed_ret {A} (a : A) (Q : A -> list ev -> Prop) s : Q a [] -> reads (ret a) Q s.
Proof. intros H. by exists []. Qed.
Lemma observed_mono {A} (m : N D A) (P Q : A -> list ev -> Prop) s :
  reads m P s -> (forall a evs, P a evs -> Q a evs) -> reads m Q s.
Proof. intros H HPQ. eapply wp_mono; [|exact H]. intros a s' (evs & ? & ?). exists evs. auto. Qed.
Lemma observed_bind {A B} (m : N D A) (f : A -> N D B) P Q s : reads m P s ->
  (forall a evs s', P a evs -> reads (f a) (fun b evs' => Q b (evs ++ evs')) s') ->
  reads (bind m f) Q s.
Proof.
  intros Hm Hf. apply wp_bind. eapply wp_mono; [|exact Hm]. intros a s1 (evs & Ht & Ha).
  eapply wp_mono; [|apply (Hf a evs s1 Ha)]. intros b s2 (evs' & Ht' & Hb).
  exists (evs ++ evs'). split; [|done]. by rewrite Ht', Ht, rev_app_distr, app_assoc.
Qed.

(** A register of a Function, and a read of it. *)
Definition reg (bdf off : Z) : Z :=
  pal_cfg_addr cfg (PCIE_EXTRACT_BDF_SEG bdf) (PCIE_EXTRACT_BDF_BUS bdf)
    (PCIE_EXTRACT_BDF_DEV bdf) (PCIE_EXTRACT_BDF_FUNC bdf) off.
Definition got (bdf off w : Z) : ev := EvRead 4 (reg bdf off) w.
Lemma observed_cfg seg bus dev func off s :
  reads (pal_pci_cfg_read cfg seg bus dev func off) (fun v evs => 0 <= v < 2 ^ 32 /\
    evs = [EvRead 4 (pal_cfg_addr cfg seg bus dev func off) v]) s.
Proof.
  unfold reads, pal_pci_cfg_read, pci. apply wp_zoom. unfold wp, pal_mmio_read.
  destruct (hw_read _ _ _). eexists [_]. split; [done|]. split; [|done]. apply wrap_range. lia.
Qed.

Lemma byte_small x : 0 <= x < 256 -> x .& 0xFF = x.
Proof. intros H. change 0xFF with (Z.ones 8). rewrite Z.land_ones by lia. by apply Z.mod_small. Qed.
Lemma pack_bdf seg bus dev func : 0 <= seg < 256 -> 0 <= bus < 256 -> 0 <= dev < 256 ->
  u32 (seg << 24) .| u32 (bus << 16) .| u32 (dev << 8) .| func = PCIE_CREATE_BDF seg bus dev func.
Proof.
  intros Hs Hb Hd. unfold PCIE_CREATE_BDF. rewrite !byte_small by done.
  unfold u32. rewrite (wrap_small 32 (bus << 16)), (wrap_small 32 (dev << 8)); [done| |];
    rewrite Z.shiftl_mul_pow2; lia.
Qed.

Lemma extract_range f x : 0 <= (x >> f) .& 0xFF < 256.
Proof. rewrite low_byte. pose proof (fld_range 0 8 (x >> f) ltac:(lia)). lia. Qed.

(** The Functions that a search from [start] reads, in its order: the buses
    from the start's on and, on each of them, the devices and Functions from the
    start's on. *)
Definition candidates (start : Z) : list Z :=
  flat_map (fun bus => flat_map (fun dev => flat_map (fun func =>
      [PCIE_CREATE_BDF (PCIE_EXTRACT_BDF_SEG start) bus dev func])
    (zseq (PCIE_EXTRACT_BDF_FUNC start) 8))
    (zseq (PCIE_EXTRACT_BDF_DEV start) 32)) (zseq (PCIE_EXTRACT_BDF_BUS start) 18).

(** The class code of a Function was read and does, or does not, show the class
    and subclass. *)
Definition shows (class bdf : Z) (e : ev) : Prop :=
  exists w, e = got bdf TYPE01_RIDR w /\ w >> 16 = class >> 8.
Definition misses (class bdf : Z) (e : ev) : Prop :=
  exists w, e = got bdf TYPE01_RIDR w /\ w >> 16 <> class >> 8.
(** The Functions [l] are read up to the first one that shows the class. *)
Definition scan (class : Z) (l : list Z) (r : unit + Z) (evs : list ev) : Prop :=
  match r with
  | inl _ => Forall2 (misses class) l evs
  | inr bdf => exists pre post evs' e, l = pre ++ bdf :: post /\ evs = evs' ++ [e] /\
      Forall2 (misses class) pre evs' /\ shows class bdf e
  end.
Lemma scan_miss class l1 l2 r evs1 evs2 : Forall2 (misses class) l1 evs1 ->
  scan class l2 r evs2 -> scan class (l1 ++ l2) r (evs1 ++ evs2).
Proof.
  intros H1. destruct r as [[]|bdf]; [by apply Forall2_app|].
  intros (pre & post & evs' & e & -> & -> & H2 & He).
  exists (l1 ++ pre), post, (evs1 ++ evs'), e. rewrite !app_assoc. split_and!; try done.
  by apply Forall2_app.
Qed.
Lemma scan_hit class l1 l2 bdf evs : scan class l1 (inr bdf) evs ->
  scan class (l1 ++ l2) (inr bdf) evs.
Proof.
  intros (pre & post & evs' & e & -> & -> & H2 & He).
  exists pre, (post ++ l2), evs', e. by rewrite <- app_assoc.
Qed.

(** A loop over numbers each of which stands for some Functions. *)
Lemma scan_for class n a (body : Z -> unit -> N D (unit + Z)) (f : Z -> list Z) s :
  (forall i s, a <= i < a + Z.of_nat n -> reads (body i tt) (scan class (f i)) s) ->
  reads (for_acc n a tt body) (scan class (flat_map f (zseq a (a + Z.of_nat n)))) s.
Proof.
  revert a s. induction n as [|n IH]; intros a s H.
  { rewrite Z.add_0_r. unfold zseq. rewrite Z.sub_diag. apply observed_ret. constructor. }
  replace (zseq a (a + Z.of_nat (S n))) with (a :: zseq (a + 1) (a + 1 + Z.of_nat n)).
  2:{ unfold zseq. replace (Z.to_nat (a + Z.of_nat (S n) - a)) with (S n) by lia.
      replace (Z.to_nat (a + 1 + Z.of_nat n - (a + 1))) with n by lia. cbn [seq map].
      f_equal; [lia|]. rewrite <- seq_shift, map_map. apply map_ext. intros i. lia. }
  cbn [for_acc flat_map]. eapply observed_bind; [apply H; lia|]. intros [[]|bdf] evs s1 Hb.
  - eapply observed_mono; [apply IH; intros; apply H; lia|]. intros r evs'. by apply scan_miss.
  - apply observed_ret. rewrite app_nil_r. by apply scan_hit.
Qed.
Lemma class_scan class seg bus dev func s : 0 <= seg < 256 -> 0 <= bus < 256 ->
  0 <= dev < 256 -> 0 <= func < 256 ->
  reads (class_step cfg class seg bus dev func tt)
    (scan class [PCIE_CREATE_BDF seg bus dev func]) s.
Proof.
  intros Hs Hb Hd Hf. unfold class_step. eapply observed_bind; [apply observed_cfg|].
  intros w evs s1 [Hw ->]. unfold CC_BASE_SHIFT, CC_SUB_SHIFT.
  assert ((EvRead 4 (pal_cfg_addr cfg seg bus dev func TYPE01_RIDR) w) =
    got (PCIE_CREATE_BDF seg bus dev func) TYPE01_RIDR w) as ->.
  { unfold got, reg. by destruct (bdf_fields seg bus dev func Hs Hb Hd Hf) as (-> & -> & -> & ->). }
  destruct (Z.eqb_spec (w >> 16) (class >> 8)) as [E|E].
  - replace (w >> 24 =? class >> 16) with true.
    2:{ symmetry. apply Z.eqb_eq. change 24 with (16 + 8). change 16 with (8 + 8) at 2.
        rewrite <- !Z.shiftr_shiftr by lia. by rewrite E. }
    cbn [andb]. rewrite pack_bdf by done. apply observed_ret. cbn [app].
    eexists [], [], [], _. split_and!; [done..|]. by eexists.
  - rewrite andb_false_r. apply observed_ret. cbn [app]. constructor; [|constructor]. by eexists.
Qed.
Lemma get_bdf_scan class start s :
  reads (pal_pcie_get_bdf cfg class start) (fun r evs =>
    scan class (candidates start) (inl tt) evs /\ r = 0 \/
    scan class (candidates start) (inr r) evs) s.
Proof.
  assert (0 <= PCIE_EXTRACT_BDF_SEG start < 256) as Hseg by apply extract_range.
  assert (0 <= PCIE_EXTRACT_BDF_BUS start < 256) as Hbus by apply extract_range.
  assert (0 <= PCIE_EXTRACT_BDF_DEV start < 256) as Hdev by apply extract_range.
  assert (0 <= PCIE_EXTRACT_BDF_FUNC start < 256) as Hfn by (pose proof (extract_range 0 start); done).
  assert (forall a b, zseq a b = zseq a (a + Z.of_nat (Z.to_nat (b - a)))) as Hz.
  { intros a b. unfold zseq. do 2 f_equal. lia. }
  unfold pal_pcie_get_bdf, PLATFORM_BM_OVERRIDE_PCIE_MAX_BUS, PCIE_MAX_DEV, PCIE_MAX_FUNC.
  eapply observed_bind with (P := scan class (candidates start)).
  - unfold candidates. rewrite (Hz _ 18). apply scan_for. intros bus s1 Hb.
    rewrite (Hz _ 32). apply scan_for. intros dev s2 Hd.
    rewrite (Hz _ 8). apply scan_for. intros func s3 Hf. apply class_scan; lia.
  - intros [[]|r] evs s1 Hsc; apply observed_ret; rewrite app_nil_r; auto.
Qed.

(** What the search finds lies, in every coordinate, at or behind its start. *)
Definition behind (start r : Z) : Prop :=
  exists bus dev func, r = PCIE_CREATE_BDF (PCIE_EXTRACT_BDF_SEG start) bus dev func /\
    PCIE_EXTRACT_BDF_BUS start <= bus < 18 /\ PCIE_EXTRACT_BDF_DEV start <= dev < 32 /\
    PCIE_EXTRACT_BDF_FUNC start <= func < 8.
Lemma in_zseq x a b : In x (zseq a b) -> a <= x < b.
Proof. unfold zseq. rewrite in_map_iff. intros (i & <- & Hi). apply in_seq in Hi. lia. Qed.
Lemma candidates_behind start pre r post : candidates start = pre ++ r :: post -> behind start r.
Proof.
  intros H. assert (In r (candidates start)) as Hr by (rewrite H; apply in_elt). revert Hr.
  unfold candidates. rewrite in_flat_map. intros (bus & Hb & Hr). apply in_flat_map in Hr as (dev & Hd & Hr).
  apply in_flat_map in Hr as (func & Hf & [<-|[]]).
  apply in_zseq in Hb, Hd, Hf. by exists bus, dev, func.
Qed.
Lemma get_bdf_behind class start s :
  wp (pal_pcie_get_bdf cfg class start) (fun r _ => r = 0 \/ behind start r) s.
Proof.
  eapply wp_mono; [|apply get_bdf_scan]. intros r s' (evs & _ & [[_ ->]|H]); [by left|right].
  destruct H as (pre & post & evs' & e & H & _). by eapply candidates_behind.
Qed.

(** The number of a (bus, device) pair in the order of the search. *)
Definition slot (bdf : Z) : Z := 32 * PCIE_EXTRACT_BDF_BUS bdf + PCIE_EXTRACT_BDF_DEV bdf.
Definition in_range (bdf : Z) : Prop :=
  0 <= PCIE_EXTRACT_BDF_BUS bdf <= 18 /\ 0 <= PCIE_EXTRACT_BDF_DEV bdf < 32 /\ slot bdf <= 576.

Lemma next_slot start r : in_range start -> behind start r ->
  in_range (pal_increment_bus_dev r) /\
  slot start <= slot r < slot (pal_increment_bus_dev r).
Proof.
  intros (Hb & Hd & Hs) (bus & dev & func & -> & Hb' & Hd' & Hf').
  assert (0 <= PCIE_EXTRACT_BDF_SEG start < 256) as Hseg by apply extract_range.
  assert (0 <= PCIE_EXTRACT_BDF_FUNC start < 256) as Hfn by (pose proof (extract_range 0 start); done).
  destruct (bdf_fields (PCIE_EXTRACT_BDF_SEG start) bus dev func ltac:(lia) ltac:(lia) ltac:(lia) ltac:(lia))
    as (E1 & E2 & E3 & _).
  unfold pal_increment_bus_dev. rewrite E1, E2, E3. unfold PCIE_MAX_DEV.
  set (seg := PCIE_EXTRACT_BDF_SEG start) in *.
  destruct (Z.eqb_spec dev (32 - 1)) as [->|Hne]; cbn [negb].
  - pose proof (pack_bdf seg (bus + 1) 0 0 ltac:(lia) ltac:(lia) ltac:(lia)) as Hp.
    change (u32 (0 << 8)) with 0 in Hp. rewrite !Z.lor_0_r in Hp. rewrite Hp.
    destruct (bdf_fields seg (bus + 1) 0 0 ltac:(lia) ltac:(lia) ltac:(lia) ltac:(lia)) as (_ & F2 & F3 & _).
    unfold in_range, slot in *. rewrite E2, E3, F2, F3. lia.
  - pose proof (pack_bdf seg bus (dev + 1) 0 ltac:(lia) ltac:(lia) ltac:(lia)) as Hp.
    rewrite Z.lor_0_r in Hp. rewrite Hp.
    destruct (bdf_fields seg bus (dev + 1) 0 ltac:(lia) ltac:(lia) ltac:(lia) ltac:(lia)) as (_ & F2 & F3 & _).
    unfold in_range, slot in *. rewrite E2, E3, F2, F3. lia.
Qed.

(** After a controller in a device below 31 of a bus, the search goes on at
    the next device number, on every later bus too: whatever the hardware, the
    next controller it finds has a larger device number, so that a controller on a
    later bus in a device that is not larger is never found. *)
Theorem next_controller_device class start r s :
  behind start r -> PCIE_EXTRACT_BDF_DEV r < 31 ->
  wp (pal_pcie_get_bdf cfg class (pal_increment_bus_dev r)) (fun r' _ =>
    r' = 0 \/ PCIE_EXTRACT_BDF_DEV r < PCIE_EXTRACT_BDF_DEV r') s.
Proof.
  intros (bus & dev & func & -> & Hb & Hd & Hf) Hlt.
  assert (0 <= PCIE_EXTRACT_BDF_SEG start < 256) as Hseg by apply extract_range.
  assert (0 <= PCIE_EXTRACT_BDF_BUS start < 256) as Hb0 by apply extract_range.
  assert (0 <= PCIE_EXTRACT_BDF_DEV start < 256) as Hd0 by apply extract_range.
  assert (0 <= PCIE_EXTRACT_BDF_FUNC start < 256) as Hfn by (pose proof (extract_range 0 start); done).
  set (seg := PCIE_EXTRACT_BDF_SEG start) in *.
  destruct (bdf_fields seg bus dev func ltac:(lia) ltac:(lia) ltac:(lia) ltac:(lia)) as (E1 & E2 & E3 & _).
  rewrite E3 in Hlt |- *.
  eapply wp_mono; [|apply get_bdf_behind]. intros r' s' [->|(bus' & dev' & func' & -> & Hb' & Hd' & Hf')];
    [by left|right].
  unfold pal_increment_bus_dev in Hb', Hd', Hf' |- *. rewrite E1, E2, E3 in *. unfold PCIE_MAX_DEV in *.
  replace (dev =? 32 - 1) with false in * by zbool. cbn [negb] in *.
  pose proof (pack_bdf seg bus (dev + 1) 0 ltac:(lia) ltac:(lia) ltac:(lia)) as Hp.
  rewrite Z.lor_0_r in Hp. rewrite Hp in *.
  destruct (bdf_fields seg bus (dev + 1) 0 ltac:(lia) ltac:(lia) ltac:(lia) ltac:(lia)) as (G1 & G2 & G3 & G4).
  rewrite G1, G2, G3, G4 in *.
  destruct (bdf_fields seg bus' dev' func' ltac:(lia) ltac:(lia) ltac:(lia) ltac:(lia)) as (_ & _ & -> & _). lia.
Qed.

(** ** The table that is made *)

Lemma at_entry_run pre b suf f (Q : list PERIPHERAL_INFO_BLOCK -> est D -> Prop) s :
  Q (pre ++ f b :: suf) s -> wp (at_entry (length pre) f (pre ++ b :: suf)) Q s.
Proof.
  intros H. unfold at_entry. apply wp_bind, wp_require.
  - apply Nat.ltb_lt. rewrite length_app. cbn. lia.
  - apply wp_ret. rewrite list.alter_app_r_alt by lia. by rewrite Nat.sub_diag.
Qed.

(** The read of BAR [i], of 32 or 64 bits, gave the address [v]. *)
Definition bar_read (bdf i : Z) (evs : list ev) (v : Z) : Prop :=
  let off := u32 (0x10 + 4 * i) in
  exists lo, (fld 2 1 lo = 0 /\ evs = [got bdf off lo] /\ v = lo .& 0xFFFFFFF0) \/
    exists hi, fld 2 1 lo = 1 /\ evs = [got bdf off lo; got bdf (u32 (off + 4)) hi] /\
      v = (lo .& 0xFFFFFFF0) .| (hi << 32).
(** From BAR [i] on they are read up to the first address that is not 0; the
    last one is taken as it is. *)
Inductive base_read (bdf : Z) : Z -> list ev -> Z -> Prop :=
| base_here i evs v : bar_read bdf i evs v -> v <> 0 \/ i = 5 -> base_read bdf i evs v
| base_next i evs evs' v : bar_read bdf i evs 0 -> i < 5 -> base_read bdf (i + 1) evs' v ->
    base_read bdf i (evs ++ evs') v.
Lemma get_base_reads bdf i s : reads (pal_pcie_get_base cfg bdf i)
  (fun v evs => bar_read bdf i evs v) s.
Proof.
  unfold pal_pcie_get_base, BAR0_OFFSET, BAR_MASK, BAR_64_BIT.
  eapply observed_bind; [apply observed_cfg|]. intros lo evs s1 [Hlo ->].
  assert (BAR_REG lo = fld 2 1 lo) as -> by done.
  pose proof (fld_range 2 1 lo ltac:(lia)). destruct (Z.eqb_spec (fld 2 1 lo) 1).
  - eapply observed_bind; [apply observed_cfg|]. intros hi evs s2 [Hhi ->]. apply observed_ret.
    exists lo. right. by exists hi.
  - apply observed_ret. exists lo. left. split_and!; [lia|done..].
Qed.
Lemma first_bar_reads bdf s : reads (first_bar cfg bdf) (fun v evs => base_read bdf 0 evs v) s.
Proof.
  assert (forall n i x s, (0 < n)%nat -> i + Z.of_nat n = 6 ->
    reads (for_acc n i x (bar_step cfg bdf)) (fun r evs =>
      match r with inl v | inr v => base_read bdf i evs v end) s) as H.
  { induction n as [|n IH]; intros i x s1 Hn Hi; [lia|]. cbn [for_acc]. eapply observed_bind.
    { unfold bar_step. eapply observed_bind; [apply get_base_reads|]. intros v evs s2 Hv.
      instantiate (1 := fun r evs => exists v, (r = inr v /\ v <> 0 \/ r = inl v /\ v = 0) /\
        bar_read bdf i evs v).
      destruct (Z.eqb_spec v 0); cbn [negb]; apply observed_ret; exists v; rewrite app_nil_r; auto. }
    intros r evs s2 (v & [[-> Hv]|[-> ->]] & Hb).
    - apply observed_ret. rewrite app_nil_r. apply base_here; auto.
    - destruct n as [|n].
      + apply observed_ret. rewrite app_nil_r. apply base_here; [done|right; lia].
      + eapply observed_mono; [apply IH; lia|]. intros r evs' Hr.
        destruct r; (apply base_next; [done|lia|done]). }
  unfold first_bar. eapply observed_bind; [apply H; [by apply Nat.ltb_lt|done]|].
  intros [v|v] evs s1 Hv; apply observed_ret; by rewrite app_nil_r.
Qed.

(** What the reads of the search from [start] for a class find: the Function
    and its address, for one controller after the other. The search goes on in
    the next device number; it ends when no candidate shows the class, and
    also at a controller at 0:00:00.0, whose number stands for none. *)
Inductive found (class : Z) : Z -> list ev -> list (Z * Z) -> Prop :=
| found_none start evs : scan class (candidates start) (inl tt) evs -> found class start evs []
| found_zero start evs : scan class (candidates start) (inr 0) evs -> found class start evs []
| found_one start bdf base evs evs' evs'' l :
    scan class (candidates start) (inr bdf) evs -> bdf <> 0 -> base_read bdf 0 evs' base ->
    found class (pal_increment_bus_dev bdf) evs'' l ->
    found class start (evs ++ evs' ++ evs'') ((bdf, base) :: l).
(** Controllers in the order of their (bus, device) pairs, one of each. *)
Definition increasing (l : list (Z * Z)) : Prop := StronglySorted Z.lt (map slot (map fst l)).

Lemma sorted_snoc l x : StronglySorted Z.lt l -> Forall (fun y => y < x) l ->
  StronglySorted Z.lt (l ++ [x]).
Proof.
  induction 1 as [|y l Hs IH Hy]; intros Hx; cbn [app]; [by repeat constructor|].
  inversion Hx; subst. constructor; [auto|]. apply Forall_app. by split; [|repeat constructor].
Qed.

(** The entry that keeps a controller. *)
Definition keeps (type : Z) (x : Z * Z) (b : PERIPHERAL_INFO_BLOCK) : Prop :=
  per_type b = type /\ per_bdf b = fst x /\ base0 b = snd x.
Lemma keeps_types type l new : Forall2 (keeps type) l new ->
  map per_type new = replicate (length l) type.
Proof. induction 1 as [|x b l new [H _]]; [done|]. cbn. by f_equal. Qed.

(** The new entries of a search are behind those before it and keep what the
    search found. *)
Lemma find_controllers_run class type pre suf fuel s : (576 < fuel)%nat -> (576 <= length suf)%nat ->
  reads (find_controllers cfg fuel class type (length pre) (pre ++ suf)) (fun r evs =>
    exists l new suf', found class 0 evs l /\ increasing l /\ fst r = length l /\
      (fst r <= 576)%nat /\ snd r = pre ++ new ++ suf' /\ Forall2 (keeps type) l new /\
      (length suf' + fst r = length suf)%nat) s.
Proof.
  intros Hfuel Hroom. unfold find_controllers, reads.
  apply (wp_loop (fun m x s' => exists evs l new suf',
    trace s' = rev evs ++ trace s /\
    (forall evs' l', found class (fst (fst x)) evs' l' -> found class 0 (evs ++ evs') (l ++ l')) /\
    increasing l /\ Forall (fun y => y < slot (fst (fst x))) (map slot (map fst l)) /\
    snd (fst x) = length l /\ snd x = pre ++ new ++ suf' /\ Forall2 (keeps type) l new /\
    (length suf' + length l = length suf)%nat /\ in_range (fst (fst x)) /\
    Z.of_nat (length l) <= slot (fst (fst x)) /\ m = Z.to_nat (576 - slot (fst (fst x)))))
    with (n := 576%nat); [|done|].
  2:{ exists [], [], [], suf. cbn. split_and!; try done; try constructor; lia. }
  intros m [[start n] tbl] s1 (evs & l & new & suf' & Ht & Hf & Hinc & Hlt & Hn & Htbl & Hk & Hs & Hr & Hc & Hm).
  cbn [fst snd] in *. subst n tbl. pose proof (proj2 (proj2 Hr)) as Hmax.
  unfold controller_step. apply wp_bind. eapply wp_mono; [|apply get_bdf_scan].
  intros r s2 (evs1 & Ht1 & Hsc).
  assert (found class start evs1 [] -> exists evs0, trace s2 = rev evs0 ++ trace s /\
    exists l0 new0 suf'0, found class 0 evs0 l0 /\ increasing l0 /\
      length l = length l0 /\ (length l <= 576)%nat /\ pre ++ new ++ suf' = pre ++ new0 ++ suf'0 /\
      Forall2 (keeps type) l0 new0 /\ (length suf'0 + length l = length suf)%nat) as Hend.
  { intros H. exists (evs ++ evs1). split; [by rewrite Ht1, Ht, rev_app_distr, app_assoc|].
    exists l, new, suf'. split_and!; try done; [|lia]. rewrite <- (app_nil_r l). auto. }
  destruct (Z.eqb_spec r 0) as [->|Hne]; cbn [negb].
  { apply wp_ret. cbn [fst snd].
    destruct Hend as (evs0 & H0 & l0 & new0 & suf0 & H1 & H2 & H3 & H4 & H5 & H6 & H7).
    { destruct Hsc as [[Hsc _]|Hsc]; [by apply found_none|by apply found_zero]. }
    exists evs0. split; [exact H0|]. exists l0, new0, suf0. by split_and!. }
  destruct Hsc as [[_ ?]|Hsc]; [done|].
  assert (behind start r) as Hb by (destruct Hsc as (? & ? & ? & ? & ? & _); by eapply candidates_behind).
  destruct (next_slot start r Hr Hb) as [Hr' Hsl]. pose proof (proj2 (proj2 Hr')) as H2.
  apply wp_bind. eapply wp_mono; [|apply first_bar_reads]. intros base s3 (evs2 & Ht2 & Hbase).
  destruct suf' as [|b suf']; [cbn in Hs; lia|].
  rewrite app_assoc. apply wp_bind.
  replace (length pre + length l)%nat with (length (pre ++ new))
    by (rewrite length_app; f_equal; symmetry; by eapply Forall2_length).
  apply at_entry_run, wp_ret. exists (Z.to_nat (576 - slot (pal_increment_bus_dev r))).
  split; [lia|]. exists (evs ++ evs1 ++ evs2), (l ++ [(r, base)]), (new ++ [set_controller type r base b]), suf'.
  cbn [fst snd]. rewrite map_app, map_app. cbn [map fst].
  assert (length (l ++ [(r, base)]) = S (length l)) as Hlen by (rewrite length_app; cbn; lia).
  split_and!; try done; try apply Hr'; try (cbn in Hs; lia).
  - by rewrite Ht2, Ht1, Ht, !rev_app_distr, <- !app_assoc.
  - intros evs' l' H. rewrite <- !app_assoc. apply Hf. by apply found_one.
  - unfold increasing. rewrite !map_app. cbn [map fst]. apply sorted_snoc; [done|].
    eapply Forall_impl; [|exact Hlt]. cbn. lia.
  - apply Forall_app. split; [|by repeat constructor; lia].
    eapply Forall_impl; [|exact Hlt]. cbn. lia.
  - by rewrite <- !app_assoc.
  - apply Forall2_app; [done|]. by repeat constructor.
Qed.

(** The comparisons of types. *)
Ltac simplify_types :=
  cbn [PERIPHERAL_TYPE_USB PERIPHERAL_TYPE_SATA PERIPHERAL_TYPE_UART PERIPHERAL_TYPE_NONE
       Z.eqb Pos.eqb orb app].

(** A field of an instance of a type whose entries are those behind [pre]. *)
Lemma per_field_range t type f pre mid suf inst : info t = pre ++ mid ++ suf ->
  (exists b, In b (info t) /\ per_type b = END_OF_TABLE) ->
  Z.of_nat (length (info t)) < 2 ^ 32 -> Z.of_nat (length pre + length mid) < 0xFFFF ->
  numbers_of type (info t) = zseq (Z.of_nat (length pre)) (Z.of_nat (length pre + length mid)) ->
  per_field t type (Z.of_nat inst) f = Some (nth inst (map f mid) 0).
Proof.
  intros Hi He Hl Hsmall Hn. unfold per_field, val_peripheral_get_entry_index.
  rewrite entry_index_run by (done || lia). cbn [mbind option_bind].
  unfold numbers_of in Hn. rewrite Hn. unfold zseq.
  replace (Z.to_nat _) with (length mid) by lia.
  destruct (decide (inst < length mid)%nat) as [Hlt|Hge].
  - rewrite (nth_indep _ _ (Z.of_nat (length pre) + Z.of_nat 0))
      by (rewrite length_map, length_seq; lia).
    rewrite (map_nth (fun k => Z.of_nat (length pre) + Z.of_nat k)), seq_nth by lia.
    replace (_ =? 0xFFFF) with false by zbool. cbn [negb].
    rewrite Hi. replace (Z.to_nat _) with (length pre + inst)%nat by lia.
    rewrite lookup_app_r by lia. replace (length pre + inst - length pre)%nat with inst by lia.
    rewrite lookup_app_l by lia. destruct (lookup_lt_is_Some_2 mid inst Hlt) as [b Hb].
    rewrite Hb. cbn [mbind option_bind]. f_equal. symmetry.
    rewrite nth_lookup. change (map f mid) with (f <$> mid). by rewrite list_lookup_fmap, Hb.
  - rewrite nth_overflow by (rewrite length_map, length_seq; lia).
    by rewrite (nth_overflow (map f mid)) by (rewrite length_map; lia).
Qed.
Lemma keeps_fields type l new : Forall2 (keeps type) l new ->
  map per_bdf new = map fst l /\ map base0 new = map snd l.
Proof. induction 1 as [|x b l new (_ & H1 & H2) _ [IH1 IH2]]; [done|]. cbn. split; by f_equal. Qed.

(** What the VAL is told of the controllers and the UART. *)
Definition told (uart : UART_INFO) (usb sata : list (Z * Z)) (t : PERIPHERAL_INFO_TABLE) : Prop :=
  let q x (i : nat) := val_peripheral_get_info (Some t) x (Z.of_nat i) in
  let has := truthy (uart_Address uart) in
  let there (v : Z) := if has then [v] else [] in
  (forall i, q NUM_USB i = Some (Z.of_nat (length usb)) /\
             q NUM_SATA i = Some (Z.of_nat (length sata)) /\ q NUM_UART i = Some (b2z has) /\
             q NUM_ALL i = Some (Z.of_nat (length usb + length sata) + b2z has)) /\
  (forall i, q USB_BDF i = Some (nth i (map fst usb) 0) /\
             q USB_BASE0 i = Some (nth i (map snd usb) 0) /\
             q SATA_BDF i = Some (nth i (map fst sata) 0) /\
             q SATA_BASE0 i = Some (nth i (map snd sata) 0)) /\
  (forall i, q UART_BASE0 i = Some (nth i (there (BaseAddress uart)) 0) /\
             q UART_GSIV i = Some (nth i (there (GlobalSystemInterrupt uart)) 0)) /\
  (forall i, (i < length usb + length sata)%nat ->
             q ANY_BDF i = Some (nth i (map fst (usb ++ sata)) 0)).

(** A table of these entries answers so. *)
Lemma told_table uart usb sata n1 n2 u e rest t :
  Forall2 (keeps PERIPHERAL_TYPE_USB) usb n1 -> Forall2 (keeps PERIPHERAL_TYPE_SATA) sata n2 ->
  (if truthy (uart_Address uart)
   then exists b, u = [set_uart (BaseAddress uart) (GlobalSystemInterrupt uart) b] else u = []) ->
  per_type e = END_OF_TABLE -> (length usb <= 576)%nat -> (length sata <= 576)%nat ->
  Z.of_nat (length rest) < 2 ^ 31 ->
  t = mk_per_table (Z.of_nat (length usb)) (Z.of_nat (length sata)) (Z.of_nat (length u))
        (Z.of_nat (length usb + length sata + length u)) (n1 ++ n2 ++ u ++ e :: rest) ->
  told uart usb sata t.
Proof.
  intros H1 H2 Hu He L1 L2 Lr Ht.
  pose proof (Forall2_length H1) as E1. pose proof (Forall2_length H2) as E2.
  destruct (keeps_fields _ _ _ H1) as [B1 A1]. destruct (keeps_fields _ _ _ H2) as [B2 A2].
  assert (length u = Z.to_nat (b2z (truthy (uart_Address uart))) /\
    map per_type u = replicate (length u) PERIPHERAL_TYPE_UART /\
    map base0 u = (if truthy (uart_Address uart) then [BaseAddress uart] else []) /\
    map per_irq u = (if truthy (uart_Address uart) then [GlobalSystemInterrupt uart] else []))
    as (Lu & Tu & Bu & Iu).
  { destruct (truthy _); [destruct Hu as [b ->]|subst u]; done. }
  assert (info t = n1 ++ n2 ++ u ++ e :: rest) as Hi by by rewrite Ht.
  assert (exists b, In b (info t) /\ per_type b = END_OF_TABLE) as Hend.
  { exists e. split; [|done]. rewrite Hi, !in_app_iff. right; right; right. by left. }
  assert (length u <= 1)%nat as Lu' by (rewrite Lu; destruct (truthy _); cbn; lia).
  assert (Z.of_nat (length (info t)) < 2 ^ 32) as Hlen.
  { rewrite Hi, !length_app. cbn [length]. lia. }
  assert (forall type, numbers_of type (info t) = nums type 0
    (replicate (length n1) PERIPHERAL_TYPE_USB ++ replicate (length n2) PERIPHERAL_TYPE_SATA ++
     replicate (length u) PERIPHERAL_TYPE_UART ++ END_OF_TABLE :: map per_type rest)) as Hn.
  { intros type. unfold numbers_of. rewrite numbers_of_types, Hi, !map_app.
    rewrite (keeps_types _ _ _ H1), (keeps_types _ _ _ H2), Tu, E1, E2. cbn [map]. by rewrite He. }
  assert (forall f i, per_field t PERIPHERAL_TYPE_USB (Z.of_nat i) f =
    Some (nth i (map f n1) 0)) as F1.
  { intros f i. eapply (per_field_range t _ f [] n1); [exact Hi|done|done|cbn [length]; lia|].
    rewrite Hn, !nums_replicate by done. rewrite nums_end, !app_nil_r. simplify_types.
    cbn [length]; f_equal; lia. }
  assert (forall f i, per_field t PERIPHERAL_TYPE_SATA (Z.of_nat i) f =
    Some (nth i (map f n2) 0)) as F2.
  { intros f i. eapply (per_field_range t _ f n1 n2); [exact Hi|done|done|lia|].
    rewrite Hn, !nums_replicate by done. rewrite nums_end, !app_nil_r. simplify_types.
    rewrite ?app_nil_r. f_equal; lia. }
  assert (forall f i, per_field t PERIPHERAL_TYPE_UART (Z.of_nat i) f =
    Some (nth i (map f u) 0)) as F3.
  { intros f i. eapply (per_field_range t _ f (n1 ++ n2) u); [by rewrite Hi, <- app_assoc|done|done| |].
    - rewrite length_app. lia.
    - rewrite Hn, !nums_replicate by done. rewrite nums_end, !app_nil_r. simplify_types.
      rewrite length_app. f_equal; lia. }
  assert (forall f i, per_field t PERIPHERAL_TYPE_NONE (Z.of_nat i) f =
    Some (nth i (map f (n1 ++ n2 ++ u)) 0)) as F4.
  { intros f i. eapply (per_field_range t _ f [] (n1 ++ n2 ++ u)); [by rewrite Hi, <- !app_assoc|done|done| |].
    - cbn [length]. rewrite !length_app. lia.
    - rewrite Hn, !nums_replicate by done. rewrite nums_end, app_nil_r. simplify_types.
      rewrite !zseq_app by lia. cbn [length]. rewrite !length_app. f_equal; lia. }
  unfold told. cbn [val_peripheral_get_info]. split_and!.
  - intros i. rewrite Ht. cbn [num_usb num_sata num_uart num_all].
    split_and!; f_equal; (destruct (truthy _); cbn [b2z] in *; lia).
  - intros i. rewrite !F1, !F2, B1, A1, B2, A2. by split_and!.
  - intros i. by rewrite !F3, Bu, Iu.
  - intros i Hlt. rewrite F4, !map_app, B1, B2, app_assoc.
    f_equal. rewrite app_nth1; [done|]. rewrite length_app, !length_map. lia.
Qed.

(** C27. Whatever the hardware, the table of peripherals is made in a bounded number
    of turns (577, one more than pairs of bus and device), and its queries tell
    the VAL what the reads of the configuration space showed: the bus, device and
    Function and the first address of each USB controller, then of each SATA
    controller, 0 behind the last one, the counts, and the address and interrupt
    of the UART if the platform has one. The run reads the class codes of all
    candidates up to a Function that shows the class, then its BARs up to the
    first address that is not 0, then goes on in the next device number; the
    controllers are in the order of their (bus, device) pairs, at most one of
    each. The candidates are those of the code, which leave out Functions on
    later buses, and a controller at 0:00:00.0 ends its search. The memory of the
    table must hold 1154 blocks, one per controller that can be found, the UART and the end. *)
Theorem peripheral_table_ranges uart blocks fuel s :
  (576 < fuel)%nat -> 2 * 576 + 2 <= Z.of_nat (length blocks) < 2 ^ 31 ->
  wp (pal_peripheral_create_info_table cfg fuel uart blocks) (fun t s' =>
    exists usb sata evs evs', trace s' = rev (evs ++ evs') ++ trace s /\
      found USB_CLASSCODE 0 evs usb /\ increasing usb /\
      found SATA_CLASSCODE 0 evs' sata /\ increasing sata /\
      told uart usb sata t) s.
Proof.
  intros Hfuel Hroom. unfold pal_peripheral_create_info_table.
  destruct blocks as [|b0 blocks]; [cbn in Hroom; lia|]. cbn [length] in Hroom.
  apply wp_bind, (at_entry_run [] b0 blocks). cbn [app].
  apply wp_bind. eapply wp_mono;
    [|apply (find_controllers_run USB_CLASSCODE PERIPHERAL_TYPE_USB [] (set_base0 0 b0 :: blocks));
      [done|cbn; lia]].
  intros [n1 l] s1 (evs & T1 & usb & new1 & suf1 & F1 & I1 & L1 & M1 & E1 & K1 & R1).
  cbn [fst snd app length] in *. subst l n1.
  pose proof (Forall2_length K1) as N1. rewrite N1.
  apply wp_bind. eapply wp_mono;
    [|apply (find_controllers_run SATA_CLASSCODE PERIPHERAL_TYPE_SATA new1 suf1); [done|lia]].
  intros [n2 l] s2 (evs' & T2 & sata & new2 & suf2 & F2 & I2 & L2 & M2 & E2 & K2 & R2).
  cbn [fst snd] in *. subst l n2. pose proof (Forall2_length K2) as N2. rewrite N2, app_assoc.
  assert (trace s2 = rev (evs ++ evs') ++ trace s) as HT.
  { by rewrite T2, T1, rev_app_distr, app_assoc. }
  replace (length new1 + length new2)%nat with (length (new1 ++ new2)) by apply length_app.
  destruct suf2 as [|b1 [|b2 suf2]]; [cbn in R2; lia..|]. cbn [length] in R2.
  destruct (truthy (uart_Address uart)) eqn:Hu.
  - apply wp_bind, at_entry_run. set (u := set_uart _ _ b1).
    replace ((new1 ++ new2) ++ u :: b2 :: suf2) with (((new1 ++ new2) ++ [u]) ++ b2 :: suf2)
      by by rewrite <- app_assoc.
    replace (S (length (new1 ++ new2))) with (length ((new1 ++ new2) ++ [u]))
      by (rewrite (length_app (new1 ++ new2)); cbn; lia).
    apply wp_bind, at_entry_run, wp_ret. exists usb, sata, evs, evs'. split_and!; try done.
    apply (told_table uart usb sata new1 new2 [u] (set_type END_OF_TABLE b2) suf2); try done;
      [rewrite Hu; by exists b1|lia|].
    rewrite !length_app, <- !app_assoc. cbn [length app]. f_equal; lia.
  - apply wp_bind, at_entry_run, wp_ret. exists usb, sata, evs, evs'. split_and!; try done.
    apply (told_table uart usb sata new1 new2 [] (set_type END_OF_TABLE b1) (b2 :: suf2)); try done;
      [by rewrite Hu|cbn [length]; lia|].
    rewrite !length_app, <- !app_assoc. cbn [length app]. f_equal; lia.
Qed.
End search.

(** ** Witnesses *)

Definition silent_hw : Hw unit :=
  {| hw_read _ d _ := (0xFFFFFFFF, d); hw_write _ d _ _ := d; hw_at_s1e3w _ _ _ := 1 |}.
Definition per_state : est unit := mk_est (mk_pst tt None None 0 []) vars_init.
Definition raw_entry : PERIPHERAL_INFO_BLOCK := mk_per 0 0 0 0 0 0 0 0 0.
Definition fvp_uart : UART_INFO := mk_uart 0xF9750000 0xF9750000 0x25.
(** Two USB controllers and the UART. *)
Definition per_table : PERIPHERAL_INFO_TABLE :=
  mk_per_table 2 0 1 3 (map (fun t => set_type t raw_entry)
    [PERIPHERAL_TYPE_USB; PERIPHERAL_TYPE_USB; PERIPHERAL_TYPE_UART; END_OF_TABLE]).

Lemma peripheral_lookup_reference_witness :
  val_peripheral_get_entry_index per_table PERIPHERAL_TYPE_UART 0 = Some 2.
Proof.
  etransitivity; [apply (peripheral_lookup_reference per_table PERIPHERAL_TYPE_UART 0)|reflexivity].
  - exists (set_type END_OF_TABLE raw_entry). split; [|reflexivity]. cbn. auto.
  - cbn. lia.
Defined.

(** A USB controller at 0:03.0, whose first BAR is not used, and a SATA
    controller at 1:05.2 with a BAR of 64 bits. *)
Definition two_hw : Hw unit := {|
  hw_read _ d a :=
    let usb := 0x40000000 + 4096 * (8 * 3) in
    let sata := 0x40000000 + 4096 * (256 + 8 * 5 + 2) in
    ((if a =? usb + 8 then 0x0C033001 else if a =? usb + 0x10 then 0
      else if a =? usb + 0x14 then 0xC0000000
      else if a =? sata + 8 then 0x01060101 else if a =? sata + 0x10 then 0xC0100004
      else if a =? sata + 0x14 then 0x8 else 0xFFFFFFFF), d);
  hw_write _ d _ _ := d; hw_at_s1e3w _ _ _ := 1 |}.

Lemma peripheral_table_ranges_witness :
  wp (pal_peripheral_create_info_table (HW := two_hw) [PcieSpec.demo_block] 577 fvp_uart
        (replicate 1154 raw_entry))
    (fun t s' => exists usb sata evs evs', trace s' = rev (evs ++ evs') ++ [] /\
      found [PcieSpec.demo_block] USB_CLASSCODE 0 evs usb /\ increasing usb /\
      found [PcieSpec.demo_block] SATA_CLASSCODE 0 evs' sata /\ increasing sata /\
      told fvp_uart usb sata t) per_state /\
  wp (pal_peripheral_create_info_table (HW := two_hw) [PcieSpec.demo_block] 577 fvp_uart
        (replicate 1154 raw_entry))
    (fun t _ => let q x := val_peripheral_get_info (Some t) x 0 in
      q USB_BDF = Some 0x300 /\ q USB_BASE0 = Some 0xC0000000 /\
      q SATA_BDF = Some 0x10502 /\ q SATA_BASE0 = Some 0x8C0100000 /\
      q UART_BASE0 = Some 0xF9750000) per_state.
Proof.
  split; [|vm_compute; repeat split].
  apply (peripheral_table_ranges (HW := two_hw) [PcieSpec.demo_block] fvp_uart
    (replicate 1154 raw_entry) 577 per_state ltac:(lia)).
  rewrite length_replicate. lia.
Defined.

Lemma next_controller_device_witness :
  wp (pal_pcie_get_bdf (HW := silent_hw) [PcieSpec.demo_block] USB_CLASSCODE
        (pal_increment_bus_dev (PCIE_CREATE_BDF 0 1 5 0))) (fun r' _ =>
    r' = 0 \/ 5 < PCIE_EXTRACT_BDF_DEV r') per_state.
Proof.
  apply (next_controller_device (HW := silent_hw) [PcieSpec.demo_block] USB_CLASSCODE 0
    (PCIE_CREATE_BDF 0 1 5 0) per_state); [|reflexivity].
  exists 1, 5, 0. split; [reflexivity|]. change (PCIE_EXTRACT_BDF_BUS 0) with 0.
  change (PCIE_EXTRACT_BDF_DEV 0) with 0. change (PCIE_EXTRACT_BDF_FUNC 0) with 0. lia.
Defined.
