(* ===== verification/MemMap.v ===== *)
(** * MemMap

    The memory map of the bare-metal image: the regions that
    platform/pal_baremetal/src/pal_memory.c lists for [val_setup_mmu] (ValPgt),
    and how val/src/acs_memory.c turns the MMU on. *)

From Stdlib Require Import ZArith Lia Bool List.
From stdpp Require Import base tactics numbers list option.
From S2P Require Import Prelude Memory El3State BMRuntime ValPgt.
Local Open Scope Z_scope.

(** ** Attributes and addresses (pal_common_support.h, platform_override_fvp.h) *)
Definition MEM_SIZE_64K : Z := 0x10000.
Definition ATTR_S1_WB_WA_RA : Z := 0x1 << 2.
Definition ATTR_DEVICE : Z := 0x2 << 2.
Definition ATTR_NS : Z := 0x1 << 5.
Definition ATTR_USER_RW : Z := 0x1 << 6.
Definition ATTR_USER_RO : Z := 0x3 << 6.
Definition ATTR_INNER_SHARED : Z := 0x3 << 8.
Definition ATTR_AF : Z := 0x1 << 10.
Definition ATTR_PXN : Z := 0x1 << 53.
Definition ATTR_UXN : Z := 0x1 << 54.
Definition ATTR_CODE : Z := ATTR_S1_WB_WA_RA .| ATTR_USER_RO .| ATTR_AF .| ATTR_INNER_SHARED .| ATTR_NS.
Definition ATTR_RO_DATA : Z :=
  ATTR_S1_WB_WA_RA .| ATTR_USER_RO .| ATTR_UXN .| ATTR_PXN .| ATTR_AF .| ATTR_INNER_SHARED .| ATTR_NS.
Definition ATTR_RW_DATA : Z :=
  ATTR_S1_WB_WA_RA .| ATTR_USER_RW .| ATTR_UXN .| ATTR_PXN .| ATTR_AF .| ATTR_INNER_SHARED .| ATTR_NS.
Definition ATTR_DEVICE_RW : Z :=
  ATTR_DEVICE .| ATTR_USER_RW .| ATTR_UXN .| ATTR_PXN .| ATTR_AF .| ATTR_INNER_SHARED .| ATTR_NS.
Definition MAX_MMAP_REGION_COUNT : nat := 75.
Definition ECAM0_EP_BAR64 : Z := 0x4000100000.
Definition ECAM0_RP_BAR64 : Z := 0x4000000000.
Definition ECAM0_EP_NPBAR32 : Z := 0x50400000.
Definition ECAM0_EP_PBAR32 : Z := 0x50000000.
Definition ECAM0_RP_BAR32 : Z := 0x50800000.
Definition MAP_FREE_MEM_START : Z := 0x880000000.
Definition MEM_FREE_VA_TEST : Z := 0x880200000.
Definition MEM_FREE_PA_TEST : Z := 0x880200000.
Definition MAP_SHARED_ADDRESS : Z := 0xE0000000.
Definition RME_NVM_MEM : Z := 0x82800000.

(** The sections of the image, from the linker, and the platform's tables. *)
Record image := mk_image {
  TEXT_START : Z; TEXT_END : Z; RODATA_START : Z; RODATA_END : Z;
  DATA_START : Z; DATA_END : Z; BSS_START : Z; BSS_END : Z
}.
Record devices := mk_devices {
  uart_base : Z; timer_cntl_base : Z; timer_bases : list Z; timer_count : Z;
  gicc_base : list Z; num_gicc : Z; gicd_base : list Z; num_gicd : Z;
  gicrd_base : list Z; num_gicrd : Z; gich_base : list Z; num_gich : Z;
  gicits_base : list Z; num_gicits : Z; smmu_bases : list Z; smmu_count : Z;
  ecam_bases : list Z; num_ecam : Z
}.

(** ** The list of regions

    The list so far is [mmap_region_list] up to [mmap_list_curr_index]; [None]
    is an access out of the bounds of an array. *)
Definition map_region (va pa length attr : Z) (l : list memory_region) : option (list memory_region) :=
  if (List.length l <? MAX_MMAP_REGION_COUNT)%nat
  then Some (l ++ [mk_region pa va (u64 length) attr]) else None.
Definition identity (base length attr : Z) : list memory_region -> option (list memory_region) :=
  map_region base base length attr.
(** [for (i = 0; i < count; i++)] over an array of bases; [i] has 8 bits, which
    do not run out because the list is shorter. *)
Fixpoint map_bases (bases : list Z) (ks : list nat) (length attr : Z) (l : list memory_region)
    : option (list memory_region) :=
  match ks with
  | [] => Some l
  | i :: ks' => base ← bases !! i; l ← identity base length attr l; map_bases bases ks' length attr l
  end.
Definition map_each (bases : list Z) (count length attr : Z) : list memory_region -> option (list memory_region) :=
  map_bases bases (seq 0 (Z.to_nat count)) length attr.

Definition map_text_region (im : image) :=
  identity (TEXT_START im) (TEXT_END im - TEXT_START im) ATTR_CODE.
Definition map_rodata_region (im : image) :=
  identity (RODATA_START im) (RODATA_END im - RODATA_START im) ATTR_RO_DATA.
Definition map_data_region (im : image) :=
  identity (DATA_START im) (DATA_END im - DATA_START im) ATTR_RW_DATA.
Definition map_bss_region (im : image) :=
  identity (BSS_START im) (BSS_END im - BSS_START im) ATTR_RW_DATA.
Definition map_mem_pool_region :=
  identity (PLATFORM_NORMAL_WORLD_IMAGE_BASE + PLATFORM_NORMAL_WORLD_IMAGE_SIZE)
    PLATFORM_MEMORY_POOL_SIZE ATTR_RW_DATA.
Definition map_uart_device_region (dv : devices) (length attr : Z) := identity (uart_base dv) length attr.
Definition map_timer_device_region (dv : devices) (num_timer length attr : Z)
    (l : list memory_region) : option (list memory_region) :=
  l ← identity (timer_cntl_base dv) length attr l;
  map_each (timer_bases dv) num_timer length attr l.
Definition map_gic_device_region (dv : devices) (gicc gicd gicrd gich its length attr : Z)
    (l : list memory_region) : option (list memory_region) :=
  l ← map_each (gicc_base dv) gicc (0x4 * length) attr l;
  l ← map_each (gicd_base dv) gicd (20 * length) attr l;
  l ← map_each (gicrd_base dv) gicrd (0x4 * length) attr l;
  l ← map_each (gich_base dv) gich (0x4 * length) attr l;
  map_each (gicits_base dv) its (0x2 * length) attr l.
Definition map_smmu_device_region (dv : devices) (num_smmu length attr : Z) :=
  map_each (smmu_bases dv) num_smmu (0x5 * length) attr.
Definition map_pcie_ecam_bar_region (dv : devices) (n length attr : Z) (l : list memory_region)
    : option (list memory_region) :=
  l ← map_each (ecam_bases dv) n (0x1000 * length) attr l;
  if truthy n then
    l ← identity ECAM0_EP_BAR64 (0x10 * length) attr l;
    l ← identity ECAM0_RP_BAR64 (0x10 * length) attr l;
    l ← identity ECAM0_EP_NPBAR32 (0x60 * length) attr l;
    l ← identity ECAM0_EP_PBAR32 (0x100 * length) attr l;
    identity ECAM0_RP_BAR32 (0x20 * length) attr l
  else Some l.
(** Both parameters are [uint32_t]. *)
Definition map_test_mem_region (length attr : Z) (l : list memory_region)
    : option (list memory_region) :=
  let length := u32 length in let attr := u32 attr in
  let size := u32 (0x20 * length) in
  l ← identity MAP_FREE_MEM_START size attr l;
  l ← map_region MEM_FREE_VA_TEST MEM_FREE_PA_TEST size attr l;
  l ← identity RME_NVM_MEM size attr l;
  identity MAP_SHARED_ADDRESS size attr l.

Definition add_regions (im : image) (dv : devices) (l : list memory_region)
    : option (list memory_region) :=
  l ← map_text_region im l;
  l ← map_rodata_region im l;
  l ← map_data_region im l;
  l ← map_bss_region im l;
  l ← map_mem_pool_region l;
  l ← map_uart_device_region dv MEM_SIZE_64K ATTR_DEVICE_RW l;
  l ← map_timer_device_region dv (timer_count dv) MEM_SIZE_64K ATTR_DEVICE_RW l;
  l ← map_gic_device_region dv (num_gicc dv) (num_gicd dv) (num_gicrd dv) (num_gich dv)
        (num_gicits dv) MEM_SIZE_64K ATTR_DEVICE_RW l;
  l ← map_smmu_device_region dv (smmu_count dv) MEM_SIZE_64K ATTR_DEVICE_RW l;
  l ← map_pcie_ecam_bar_region dv (num_ecam dv) MEM_SIZE_64K ATTR_DEVICE_RW l;
  map_test_mem_region MEM_SIZE_64K ATTR_RW_DATA l.
(** [mmap_list_curr_index] starts at 0. *)
Definition pal_mmu_add_mmap (im : image) (dv : devices) : option (list memory_region) :=
  add_regions im dv [].
Definition pal_mmu_get_mapping_count (l : list memory_region) : Z := Z.of_nat (List.length l).

(** ** Turning the MMU on *)

(** The registers of one exception level. *)
Record mmu_regs := mk_mmu_regs { r_mair : Z; r_ttbr0 : Z; r_tcr : Z; r_sctlr : Z }.
Definition VAL_TG0_4K : Z := 0x0.
(** [currentel] is the register; [tcr] is assigned for EL2 only. *)
Definition val_enable_mmu (currentel tt_l0_base : Z) : M mmu_regs Z :=
  let currentEL := u32 ((currentel .& 0xc) >> 2) in
  modify (fun r => mk_mmu_regs 0x00FF44 (r_ttbr0 r) (r_tcr r) (r_sctlr r)) ;;
  modify (fun r => mk_mmu_regs (r_mair r) tt_l0_base (r_tcr r) (r_sctlr r)) ;;
  let! tcr := use (if currentEL =? 0x02 then
                     Some ((1 << 20) .| (5 << 16) .| (VAL_TG0_4K << 14) .| (3 << 12) .| (1 << 10) .|
                           (1 << 8) .| (64 - MMU_PGT_IAS))
                   else None) in
  modify (fun r => mk_mmu_regs (r_mair r) (r_ttbr0 r) tcr (r_sctlr r)) ;;
  modify (fun r => mk_mmu_regs (r_mair r) (r_ttbr0 r) (r_tcr r)
                     ((1 << 0) .| (1 << 2) .| (1 << 12) .| r_sctlr r)) ;;
  ret 0.
