(* ===== verification/MemMapSpec.v ===== *)
(** * MemMapSpec

    Properties of [MemMap]: the list of regions as a function of the platform's
    description, how many regions it can take, which regions are executable, and
    the registers that turn the MMU on. *)

From Stdlib Require Import ZArith Lia Bool List.
From stdpp Require Import base tactics numbers list option.
From S2P Require Import Prelude Memory El3State BMRuntime ValPgt MemMap.
Local Open Scope Z_scope.

(** ** The regions of a platform *)

Definition region (attr length base : Z) : memory_region := mk_region base base (u64 length) attr.
Definition regions_of (attr length : Z) (bases : list Z) (count : Z) : list memory_region :=
  map (region attr length) (take (Z.to_nat count) bases).
Definition image_regions (im : image) : list memory_region :=
  [region ATTR_CODE (TEXT_END im - TEXT_START im) (TEXT_START im);
   region ATTR_RO_DATA (RODATA_END im - RODATA_START im) (RODATA_START im);
   region ATTR_RW_DATA (DATA_END im - DATA_START im) (DATA_START im);
   region ATTR_RW_DATA (BSS_END im - BSS_START im) (BSS_START im);
   region ATTR_RW_DATA PLATFORM_MEMORY_POOL_SIZE
     (PLATFORM_NORMAL_WORLD_IMAGE_BASE + PLATFORM_NORMAL_WORLD_IMAGE_SIZE)].
Definition bar_regions : list memory_region :=
  let r n := region ATTR_DEVICE_RW (n * MEM_SIZE_64K) in
  [r 0x10 ECAM0_EP_BAR64; r 0x10 ECAM0_RP_BAR64; r 0x60 ECAM0_EP_NPBAR32; r 0x100 ECAM0_EP_PBAR32;
   r 0x20 ECAM0_RP_BAR32].
Definition timer_regions (dv : devices) : list memory_region :=
  region ATTR_DEVICE_RW MEM_SIZE_64K (timer_cntl_base dv) ::
  regions_of ATTR_DEVICE_RW MEM_SIZE_64K (timer_bases dv) (timer_count dv).
Definition gic_regions (dv : devices) : list memory_region :=
  let r n := regions_of ATTR_DEVICE_RW (n * MEM_SIZE_64K) in
  r 4 (gicc_base dv) (num_gicc dv) ++ r 20 (gicd_base dv) (num_gicd dv) ++
  r 4 (gicrd_base dv) (num_gicrd dv) ++ r 4 (gich_base dv) (num_gich dv) ++
  r 2 (gicits_base dv) (num_gicits dv).
Definition pcie_regions (dv : devices) : list memory_region :=
  regions_of ATTR_DEVICE_RW (0x1000 * MEM_SIZE_64K) (ecam_bases dv) (num_ecam dv) ++
  (if truthy (num_ecam dv) then bar_regions else []).
Definition device_regions (dv : devices) : list memory_region :=
  region ATTR_DEVICE_RW MEM_SIZE_64K (uart_base dv) :: timer_regions dv ++ gic_regions dv ++
  regions_of ATTR_DEVICE_RW (5 * MEM_SIZE_64K) (smmu_bases dv) (smmu_count dv) ++ pcie_regions dv.
Definition test_regions : list memory_region :=
  map (region (u32 ATTR_RW_DATA) (0x20 * MEM_SIZE_64K))
    [MAP_FREE_MEM_START; MEM_FREE_VA_TEST; RME_NVM_MEM; MAP_SHARED_ADDRESS].
Definition all_regions (im : image) (dv : devices) : list memory_region :=
  image_regions im ++ device_regions dv ++ test_regions.

(** Every count is within its array. *)
Definition counts_ok (dv : devices) : Prop :=
  let ok (n : Z) (l : list Z) := (Z.to_nat n <= length l)%nat in
  ok (timer_count dv) (timer_bases dv) /\ ok (num_gicc dv) (gicc_base dv) /\
  ok (num_gicd dv) (gicd_base dv) /\ ok (num_gicrd dv) (gicrd_base dv) /\
  ok (num_gich dv) (gich_base dv) /\ ok (num_gicits dv) (gicits_base dv) /\
  ok (smmu_count dv) (smmu_bases dv) /\ ok (num_ecam dv) (ecam_bases dv).

(** ** Appending to the table *)

Definition extend (new l : list memory_region) : option (list memory_region) :=
  if (length l + length new <=? MAX_MMAP_REGION_COUNT)%nat then Some (l ++ new) else None.

Lemma extend_bind new1 new2 l : (x ← extend new1 l; extend new2 x) = extend (new1 ++ new2) l.
Proof.
  unfold extend. rewrite length_app.
  destruct (Nat.leb_spec (length l + length new1) MAX_MMAP_REGION_COUNT) as [H1|H1]; cbn [mbind option_bind].
  - rewrite length_app, <- app_assoc. by replace (length l + (length new1 + length new2))%nat with
      (length l + length new1 + length new2)%nat by lia.
  - destruct (Nat.leb_spec (length l + (length new1 + length new2)) MAX_MMAP_REGION_COUNT); [lia|done].
Qed.
Lemma identity_extend base length attr l :
  identity base length attr l = extend [region attr length base] l.
Proof.
  unfold identity, map_region, extend. cbn [List.length].
  destruct (Nat.ltb_spec (List.length l) MAX_MMAP_REGION_COUNT), (Nat.leb_spec (List.length l + 1) MAX_MMAP_REGION_COUNT);
    done || lia.
Qed.
Lemma map_bases_extend bases length attr n : forall k l, (k + n <= List.length bases)%nat ->
  (List.length l <= MAX_MMAP_REGION_COUNT)%nat ->
  map_bases bases (seq k n) length attr l = extend (map (region attr length) (take n (drop k bases))) l.
Proof.
  induction n as [|n IH]; intros k l Hk Hl.
  - cbn. unfold extend. rewrite Nat.add_0_r, app_nil_r. by replace (_ <=? _)%nat with true by (symmetry; by apply Nat.leb_le).
  - cbn [seq map_bases]. destruct (list.lookup_lt_is_Some_2 bases k ltac:(lia)) as [b Hb].
    rewrite Hb. cbn [mbind option_bind]. rewrite identity_extend.
    rewrite (list.drop_S _ _ _ Hb). cbn [firstn map take].
    change (region attr length b :: map (region attr length) (take n (drop (S k) bases))) with
      ([region attr length b] ++ map (region attr length) (take n (drop (S k) bases))).
    rewrite <- extend_bind. unfold extend at 1 3.
    destruct (Nat.leb_spec (List.length l + List.length [region attr length b]) MAX_MMAP_REGION_COUNT); [|done].
    cbn [mbind option_bind]. apply IH; [lia|]. rewrite length_app. done.
Qed.

(** [f] appends the regions [new] to a table that is not too long. *)
Definition appends (f : list memory_region -> option (list memory_region)) (new : list memory_region) : Prop :=
  forall l, (List.length l <= MAX_MMAP_REGION_COUNT)%nat -> f l = extend new l.

Lemma appends_bind f g new1 new2 : appends f new1 -> appends g new2 ->
  appends (fun l => x ← f l; g x) (new1 ++ new2).
Proof.
  intros Hf Hg l Hl. rewrite Hf, <- extend_bind by done. unfold extend at 1 3.
  destruct (Nat.leb_spec (List.length l + List.length new1) MAX_MMAP_REGION_COUNT); [|done].
  cbn [mbind option_bind]. apply Hg. by rewrite length_app.
Qed.
Lemma appends_identity base length attr : appends (identity base length attr) [region attr length base].
Proof. intros l _. apply identity_extend. Qed.
Lemma appends_each bases count length attr : (Z.to_nat count <= List.length bases)%nat ->
  appends (map_each bases count length attr) (regions_of attr length bases count).
Proof. intros H l Hl. unfold map_each, regions_of. rewrite map_bases_extend by lia. by rewrite list.drop_0. Qed.

Lemma appends_bars (dv : devices) : (Z.to_nat (num_ecam dv) <= List.length (ecam_bases dv))%nat ->
  appends (map_pcie_ecam_bar_region dv (num_ecam dv) MEM_SIZE_64K ATTR_DEVICE_RW)
    (regions_of ATTR_DEVICE_RW (0x1000 * MEM_SIZE_64K) (ecam_bases dv) (num_ecam dv) ++
     (if truthy (num_ecam dv) then bar_regions else [])).
Proof.
  intros H. apply appends_bind; [by apply appends_each|].
  destruct (truthy (num_ecam dv)).
  - apply (appends_bind _ _ [_]); [apply appends_identity|].
    apply (appends_bind _ _ [_]); [apply appends_identity|].
    apply (appends_bind _ _ [_]); [apply appends_identity|].
    apply (appends_bind _ _ [_]); apply appends_identity.
  - intros l Hl. unfold extend. rewrite Nat.add_0_r, app_nil_r.
    by replace (_ <=? _)%nat with true by (symmetry; by apply Nat.leb_le).
Qed.
Lemma appends_test : appends (map_test_mem_region MEM_SIZE_64K ATTR_RW_DATA) test_regions.
Proof.
  unfold map_test_mem_region, test_regions. cbn [map].
  apply (appends_bind _ _ [_]); [apply appends_identity|].
  apply (appends_bind _ _ [_]); [apply appends_identity|].
  apply (appends_bind _ _ [_]); apply appends_identity.
Qed.

Lemma appends_gic dv : counts_ok dv ->
  appends (map_gic_device_region dv (num_gicc dv) (num_gicd dv) (num_gicrd dv) (num_gich dv)
             (num_gicits dv) MEM_SIZE_64K ATTR_DEVICE_RW) (gic_regions dv).
Proof.
  intros (_ & C2 & C3 & C4 & C5 & C6 & _).
  do 4 (apply appends_bind; [by apply appends_each|]). by apply appends_each.
Qed.
Lemma appends_all im dv : counts_ok dv -> appends (add_regions im dv) (all_regions im dv).
Proof.
  intros C. pose proof (appends_gic dv C) as Hgic. destruct C as (C1 & _ & _ & _ & _ & _ & C7 & C8).
  unfold all_regions, device_regions, image_regions. cbn [app]. rewrite <- !app_assoc.
  do 6 (apply (appends_bind _ _ [_]); [apply appends_identity|]).
  apply appends_bind; [apply (appends_bind _ _ [_]); [apply appends_identity|by apply appends_each]|].
  apply appends_bind; [done|]. apply appends_bind; [by apply appends_each|].
  apply appends_bind; [by apply appends_bars|apply appends_test].
Qed.

(** C32. The list of regions of the bare-metal image is the one of the platform's
    description, in order, as long as it fits the table of 75 regions; a platform
    with more overruns the table. *)
Theorem mmap_list_regions im dv : counts_ok dv ->
  pal_mmu_add_mmap im dv =
  if (List.length (all_regions im dv) <=? 75)%nat then Some (all_regions im dv) else None.
Proof. intros C. unfold pal_mmu_add_mmap. by rewrite appends_all by (done || cbn; lia). Qed.

(** ** What may be executed *)

Definition execute_never (r : memory_region) : bool :=
  Z.testbit (attributes r) 53 && Z.testbit (attributes r) 54.
Definition writable_region (r : memory_region) : bool := negb (Z.testbit (attributes r) 7).

Lemma region_xn attr length base : execute_never (region attr length base) = Z.testbit attr 53 && Z.testbit attr 54.
Proof. done. Qed.
Lemma regions_of_xn length bases count :
  Forall (fun r => execute_never r = true) (regions_of ATTR_DEVICE_RW length bases count).
Proof. apply Forall_map. by apply list.Forall_true. Qed.

(** Every region but the code of the image is mapped as execute-never, apart
    from the four regions of test memory, that the attributes reach as 32 bits:
    free memory, test addresses, non-volatile memory and the memory shared with
    EL3 are writable and executable. Every region is mapped to itself. *)
Theorem test_memory_executable im dv l : counts_ok dv -> pal_mmu_add_mmap im dv = Some l ->
  exists code others tests, l = code :: others ++ tests /\
    physical_address code = TEXT_START im /\ writable_region code = false /\
    Forall (fun r => execute_never r = true) others /\
    map physical_address tests = [MAP_FREE_MEM_START; MEM_FREE_VA_TEST; RME_NVM_MEM; MAP_SHARED_ADDRESS] /\
    Forall (fun r => execute_never r = false /\ writable_region r = true) tests /\
    Forall (fun r => virtual_address r = physical_address r) l.
Proof.
  intros C H. unfold pal_mmu_add_mmap in H. rewrite appends_all in H by (done || cbn; lia).
  unfold extend in H. destruct (_ <=? _)%nat; [|done]. injection H as <-. cbn [app].
  exists (region ATTR_CODE (TEXT_END im - TEXT_START im) (TEXT_START im)).
  exists (tail (image_regions im) ++ device_regions dv), test_regions.
  assert (forall attr length bases count,
    Forall (fun r => virtual_address r = physical_address r) (regions_of attr length bases count)) as Hid.
  { intros. apply Forall_map. by apply list.Forall_true. }
  split; [done|]. split; [done|]. split; [done|]. split; [|split; [done|split]].
  - unfold image_regions, device_regions, timer_regions, gic_regions, pcie_regions. cbn [tail app].
    destruct (truthy _); repeat (apply list.Forall_cons; split; [done|]);
    repeat (apply list.Forall_app; split); try apply regions_of_xn; 
    repeat (apply list.Forall_cons; split; [done|]); try apply list.Forall_nil; try done;
    try apply regions_of_xn.
  - repeat (apply list.Forall_cons; split; [done|]). by apply list.Forall_nil.
  - unfold all_regions, image_regions, device_regions, timer_regions, gic_regions, pcie_regions.
    destruct (truthy _); cbn [app]; repeat (apply list.Forall_cons; split; [done|]).
    all: repeat (apply list.Forall_app; split); try apply Hid.
    all: try (repeat (apply list.Forall_cons; split; [done|]); try apply list.Forall_nil; try done; try apply Hid).
Qed.

(** ** Turning the MMU on *)

(** At EL2 the MMU and the caches are turned on over the root table, with the
    input and output address sizes the tables were built for (48 bits), 4KB
    granules and inner-shareable, write-back walks, and the other bits of SCTLR
    kept; at another exception level the value written to TCR was never assigned. *)
Theorem enable_mmu_registers currentel tt r :
  ((currentel .& 0xc) >> 2 = 2 ->
   wp (val_enable_mmu currentel tt) (fun st r' => st = 0 /\
     r_ttbr0 r' = tt /\ 64 - fld 0 6 (r_tcr r') = MMU_PGT_IAS /\ fld 14 2 (r_tcr r') = VAL_TG0_4K /\
     fld 16 3 (r_tcr r') = 5 /\ fld 12 2 (r_tcr r') = 3 /\ fld 10 2 (r_tcr r') = 1 /\
     fld 8 2 (r_tcr r') = 1 /\ fld 8 8 (r_mair r') = 0xFF /\ fld 16 8 (r_mair r') = 0 /\
     (forall i, 0 <= i -> Z.testbit (r_sctlr r') i =
        bool_decide (i = 0 \/ i = 2 \/ i = 12) || Z.testbit (r_sctlr r) i)) r) /\
  ((currentel .& 0xc) >> 2 <> 2 -> 0 <= currentel -> val_enable_mmu currentel tt r = Undef).
Proof.
  split.
  - intros Hel. unfold val_enable_mmu. rewrite Hel. change (u32 2 =? 2) with true. cbv iota.
    apply wp_bind, wp_modify, wp_bind, wp_modify, wp_bind, wp_ret, wp_bind, wp_modify, wp_bind, wp_modify, wp_ret.
    cbn [r_ttbr0 r_tcr r_mair r_sctlr]. do 10 (split; [reflexivity|]).
    intros i Hi. rewrite !Z.lor_spec. f_equal.
    change ((1 << 0)) with (2 ^ 0). change ((1 << 2)) with (2 ^ 2). change ((1 << 12)) with (2 ^ 12).
    rewrite !Z.pow2_bits_eqb by lia.
    destruct (bool_decide_reflect (i = 0 \/ i = 2 \/ i = 12)) as [[->|[->| ->]]|Hne]; [done..|].
    destruct (Z.eqb_spec 0 i), (Z.eqb_spec 2 i), (Z.eqb_spec 12 i); cbn; try done; exfalso; apply Hne; auto.
  - intros Hel H0. unfold val_enable_mmu.
    assert (0 <= (currentel .& 0xc) >> 2 < 2 ^ 32) as Hr.
    { change 0xc with (Z.ones 2 << 2). split; [apply Z.shiftr_nonneg, Z.land_nonneg; by left|].
      rewrite Z.shiftr_land, Z.shiftr_shiftl_l, Z.sub_diag, Z.shiftl_0_r, Z.land_ones by lia.
      pose proof (Z.mod_pos_bound (currentel >> 2) (2 ^ 2) ltac:(lia)). lia. }
    unfold u32. rewrite wrap_small by done.
    replace ((currentel .& 0xc) >> 2 =? 2) with false by zbool. done.
Qed.

(** ** The FVP *)

Definition fvp_image : image := mk_image 0x88000000 0x88040000 0x88040000 0x88060000 0x88060000
  0x88080000 0x88080000 0x88100000.
Definition fvp_devices : devices :=
  mk_devices 0xF9750000 0x2A810000 [0x2A820000; 0x2A830000] 2 (replicate 8 0x2C000000) 8
    [0x2F000000] 1 [0x2F100000] 1 [] 0 [0x2F020000] 1 [0x2B400000] 1 [0x40000000] 1.

Lemma fvp_counts : counts_ok fvp_devices.
Proof. repeat split; cbn; lia. Qed.
Lemma mmap_list_regions_witness : option_map (fun l => Z.of_nat (List.length l))
  (pal_mmu_add_mmap fvp_image fvp_devices) = Some 31.
Proof. rewrite (mmap_list_regions fvp_image fvp_devices fvp_counts). reflexivity. Defined.
Lemma test_memory_executable_witness :
  exists l, pal_mmu_add_mmap fvp_image fvp_devices = Some l /\
    exists code others tests, l = code :: others ++ tests /\
      Forall (fun r => execute_never r = false /\ writable_region r = true) tests.
Proof.
  assert (exists l, pal_mmu_add_mmap fvp_image fvp_devices = Some l) as [l H]
    by (eexists; vm_compute; reflexivity).
  exists l. split; [exact H|].
  destruct (test_memory_executable fvp_image fvp_devices l fvp_counts H)
    as (code & others & tests & Hl & _ & _ & _ & _ & Ht & _).
  by exists code, others, tests.
Defined.
Lemma enable_mmu_registers_witness :
  wp (val_enable_mmu 8 0x88200000) (fun st r' => st = 0 /\ r_ttbr0 r' = 0x88200000)
    (mk_mmu_regs 0 0 0 0x30C50830) /\
  val_enable_mmu 4 0x88200000 (mk_mmu_regs 0 0 0 0x30C50830) = Undef.
Proof.
  destruct (enable_mmu_registers 8 0x88200000 (mk_mmu_regs 0 0 0 0x30C50830)) as [H _].
  destruct (enable_mmu_registers 4 0x88200000 (mk_mmu_regs 0 0 0 0x30C50830)) as [_ H'].
  split; [|apply H'; [discriminate|lia]].
  eapply wp_mono; [|exact (H eq_refl)]. intros st r' (H1 & H2 & _). by split.
Defined.
