(* ===== verification/PePal.v ===== *)
(** * PePal

    Processing elements: the system registers of val/src/acs_pe.c, the low power
    entry of acs_wakeup.c, the table and the secondary stacks that
    platform/pal_baremetal/src/pal_pe.c makes, and the entry point of a PE that
    is started (src/AArch64/ModuleEntryPoint.S). *)

From Stdlib Require Import ZArith Lia Bool List.
From stdpp Require Import base tactics numbers list option.
From S2P Require Import Prelude Memory BMRuntime TestRun.
Local Open Scope Z_scope.

(** ** System registers (rme_acs_pe.h) *)

Inductive RME_ACS_PE_REGS :=
| MPIDR_EL1 | ID_AA64PFR0_EL1 | ID_AA64PFR1_EL1 | ID_AA64MMFR0_EL1 | ID_AA64MMFR1_EL1
| ID_AA64MMFR2_EL1 | ID_AA64DFR0_EL1 | ID_AA64DFR1_EL1 | CTR_EL0 | ID_AA64ISAR0_EL1
| ID_AA64ISAR1_EL1 | SCTLR_EL3 | SCTLR_EL2 | SCTLR_EL1 | PMCR_EL0 | PMOVSSET_EL0 | PMOVSCLR_EL0
| PMINTENSET_EL1 | PMINTENCLR_EL1 | CurrentEL | MDCR_EL2 | VBAR_EL2 | CCSIDR_EL1 | CSSELR_EL1
| CLIDR_EL1 | ID_DFR0_EL1 | ID_ISAR0_EL1 | ID_ISAR1_EL1 | ID_ISAR2_EL1 | ID_ISAR3_EL1
| ID_ISAR4_EL1 | ID_ISAR5_EL1 | ID_MMFR0_EL1 | ID_MMFR1_EL1 | ID_MMFR2_EL1 | ID_MMFR3_EL1
| ID_MMFR4_EL1 | ID_PFR0_EL1 | ID_PFR1_EL1 | MIDR_EL1 | MVFR0_EL1 | MVFR1_EL1 | MVFR2_EL1
| PMCEID0_EL0 | PMCEID1_EL0 | VMPIDR_EL2 | VPIDR_EL2 | PMBIDR_EL1 | PMSIDR_EL1 | LORID_EL1
| ERRIDR_EL1 | ERR0FR_EL1 | ERR1FR_EL1 | ERR2FR_EL1 | ERR3FR_EL1 | PMSIRR_EL1 | PMSCR_EL2
| PMSFCR_EL1 | PMBPTR_EL1 | PMBLIMITR_EL1 | ESR_EL2 | FAR_EL2 | RDVL | MAIR_ELx | TCR_ELx
| TTBR_ELx.
Definition AARCH64_EL1 : Z := 0x4.
Definition AARCH64_EL2 : Z := 0x8.
Definition ARM_SMC_ID_PSCI_FEATURES : Z := 0x8400000A.
Definition ARM_SMC_ID_PSCI_VERSION : Z := 0x84000000.
Definition ARM_SMC_ID_PSCI_CPU_SUSPEND_AARCH64 : Z := 0xc4000001.
Definition ARM_SMC_ID_PSCI_POWER_STATE_FMT_ORIGINAL : Z := 0.

(** The registers of the PE that runs, by exception level where a name has
    [_ELx], the firmware's answer to a call (a list of up to four arguments), and
    the wait for an interrupt. *)
Class PeCore (W : Type) := {
  pe_reg : RME_ACS_PE_REGS -> W -> Z;
  pe_reg_el : RME_ACS_PE_REGS -> Z -> W -> Z;
  pe_set_reg : RME_ACS_PE_REGS -> Z -> W -> W;
  pe_smc : list Z -> W -> Z * W;
  pe_wfi : W -> W
}.

Section registers.
Context {W : Type} {PES : Pes W} {PE : PeCore W}.

Definition world {A} (f : W -> A * W) : T W A := fun s =>
  let '(a, w) := f (t_world s) in Done a (upd_world w (t_shared s) s).

(** The registers without a case in the [switch]. *)
Definition no_read (r : RME_ACS_PE_REGS) : bool :=
  match r with
  | PMOVSSET_EL0 | PMOVSCLR_EL0 | PMINTENSET_EL1 | PMINTENCLR_EL1 | PMSIRR_EL1 | PMSCR_EL2
  | PMSFCR_EL1 | PMBPTR_EL1 | PMBLIMITR_EL1 | TTBR_ELx => true
  | _ => false
  end.
Definition has_write (r : RME_ACS_PE_REGS) : bool :=
  match r with
  | CSSELR_EL1 | PMCR_EL0 | PMOVSSET_EL0 | PMOVSCLR_EL0 | PMINTENSET_EL1 | PMINTENCLR_EL1
  | MDCR_EL2 | VBAR_EL2 | PMSIRR_EL1 | PMSCR_EL2 | PMSFCR_EL1 | PMBPTR_EL1 | PMBLIMITR_EL1
  | SCTLR_EL1 => true
  | _ => false
  end.
Definition unsupported : T W unit :=
  let! my := my_index in val_report_status my (RESULT_FAIL 0 0x78).

Definition val_pe_reg_read (r : RME_ACS_PE_REGS) : T W Z :=
  let! w := gets t_world in
  match r with
  | MAIR_ELx | TCR_ELx =>
      let el := pe_reg CurrentEL w in
      ret (if (el =? AARCH64_EL1) || (el =? AARCH64_EL2) then pe_reg_el r el w else 0)
  | _ => if no_read r then unsupported ;; ret 0 else ret (pe_reg r w)
  end.
Definition val_pe_reg_write (r : RME_ACS_PE_REGS) (write_data : Z) : T W unit :=
  if has_write r then world (fun w => (tt, pe_set_reg r write_data w)) else unsupported.

Definition val_is_el3_enabled : T W Z :=
  let! data := val_pe_reg_read ID_AA64PFR0_EL1 in ret (u8 ((data >> 12) .& 0xF)).
Definition val_is_el2_enabled : T W Z :=
  let! data := val_pe_reg_read ID_AA64PFR0_EL1 in ret (u8 ((data >> 8) .& 0xF)).

Definition val_pe_get_pmu_gsiv (index : Z) : T W Z :=
  let! t := gets t_pes in
  let! l := use t in
  if Z.of_nat (length l) <? index then
    val_report_status index (RESULT_FAIL 0 0xFF) ;; ret 0xFFFFFF
  else
    let! e := use (l !! Z.to_nat index) in ret (pmu_gsiv e).

(** ** acs_wakeup.c *)

Definition val_get_psci_ver : T W Z :=
  let! r := world (pe_smc [ARM_SMC_ID_PSCI_VERSION]) in ret (u32 r).
Definition val_get_psci_features (psci_func_id : Z) : T W Z :=
  let! r := world (pe_smc [ARM_SMC_ID_PSCI_FEATURES; psci_func_id]) in ret (u32 r).
Definition val_suspend_pe (entry context_id : Z) : T W Z :=
  let! ver := val_get_psci_ver in
  let psci_major_ver := ver >> 16 in
  let! power_state :=
    (if psci_major_ver <? 1 then ret 0 else
     let! f := val_get_psci_features ARM_SMC_ID_PSCI_CPU_SUSPEND_AARCH64 in
     let pwr_state_fmt := f >> 1 in
     ret (if pwr_state_fmt =? ARM_SMC_ID_PSCI_POWER_STATE_FMT_ORIGINAL then 0 else 1)) in
  let! r := world (pe_smc [ARM_SMC_ID_PSCI_CPU_SUSPEND_AARCH64; power_state; entry; context_id]) in
  ret (to_int r).
(** [RME_POWER_SEM_B] is 1; the other semantics do nothing. *)
Definition val_power_enter_semantic (semantic : Z) : T W Z :=
  (when semantic =? 1 then world (fun w => (tt, pe_wfi w))) ;; ret 0.
End registers.

(** ** The table of PEs and the stacks of the secondaries (pal_pe.c) *)

Definition SIZE_STACK_SECONDARY_PE : Z := 0x100.
Definition AFF_MASKS : list Z := [0xff; 0xff00; 0xff0000; 0xff00000000].
Definition UPDATE_AFF_MAX (src dest mask : Z) : Z :=
  if src .& mask <? dest .& mask then dest .& mask else src .& mask.

Record pal_pe := mk_pal_pe { pe_heap : bm; gMpidrMax : Z; gSecondaryPeStack : Z }.
Abbreviation PP := (M pal_pe).

Definition PalGetSecondaryStackBase : PP Z := gets gSecondaryPeStack.
Definition PalGetMaxMpidr : PP Z := gets gMpidrMax.

Definition Aff0 (mpidr : Z) : Z := u32 ((mpidr .& 0xff) >> 0).
Definition Aff1 (mpidr : Z) : Z := u32 ((mpidr .& 0xff00) >> 8).
Definition Aff2 (mpidr : Z) : Z := u32 ((mpidr .& 0xff0000) >> 16).
Definition Aff3 (mpidr : Z) : Z := u32 ((mpidr .& 0xff00000000) >> 32).
Definition NumPe (mpidr : Z) : Z :=
  u32 ((Aff3 mpidr + 1) * (Aff2 mpidr + 1) * (Aff1 mpidr + 1) * (Aff0 mpidr + 1)).
(** The cache maintenance on the variables has no effect on this state. *)
Definition PalAllocateSecondaryStack (mpidr : Z) : PP unit :=
  let! st := gets gSecondaryPeStack in
  if st =? 0 then
    let! p := zoom pe_heap (fun h s => mk_pal_pe h (gMpidrMax s) (gSecondaryPeStack s))
                (pal_mem_alloc (u32 (NumPe mpidr * SIZE_STACK_SECONDARY_PE))) in
    modify (fun s => mk_pal_pe (pe_heap s) (gMpidrMax s) p)
  else ret tt.

(** The loop over the platform's PEs: the table and the four running maxima. *)
Definition max_step (m : Z) (maxima : list Z) : list Z :=
  zip_with (fun src mask => UPDATE_AFF_MAX src m mask) maxima AFF_MASKS.
Definition affinity_max (cfg : list pe_entry) : list Z :=
  fold_left (fun maxima e => max_step (mpidr e) maxima) cfg [0; 0; 0; 0].
(** The table written, [None] when the platform has no PE (only the count is
    written then). *)
Definition pal_pe_create_info_table (platform_pe_cfg : list pe_entry) : PP (option (list pe_entry)) :=
  if (length platform_pe_cfg =? 0)%nat then ret None else
  let pe_info := imap (fun i e => mk_pe (Z.of_nat i) (mpidr e) (pmu_gsiv e)) platform_pe_cfg in
  let mx := fold_left Z.lor (affinity_max platform_pe_cfg) 0 in
  modify (fun s => mk_pal_pe (pe_heap s) mx (gSecondaryPeStack s)) ;;
  PalAllocateSecondaryStack mx ;;
  ret (Some pe_info).

Definition pal_pe_install_esr : Z := 1.
Definition pal_psci_get_conduit : Z := CONDUIT_NONE.
Definition pal_pe_get_num (g_pe_info_table : option (list pe_entry)) : Z :=
  match g_pe_info_table with None => 0 | Some l => Z.of_nat (length l) end.

(** ** The entry point of a secondary PE

    The position of the PE, the multiplications of the assembly, and the stack
    pointer it starts with. *)
Definition core_pos (mpidr max : Z) : Z :=
  let x1 := mpidr .& 0xFF in
  let x2 := (mpidr .& 0xFF00) >> 8 in
  let x3 := (mpidr .& 0xFF0000) >> 16 in
  let x4 := (mpidr .& 0xFF00000000) >> 32 in
  let x5 := u64 ((max .& 0xFF) + 1) in
  let x6 := u64 (((max .& 0xFF00) >> 8) + 1) in
  let x7 := u64 (((max .& 0xFF0000) >> 16) + 1) in
  let x0 := u64 (x2 * x5 + x1) in
  let x5 := u64 (x5 * x6) in
  let x0 := u64 (x3 * x5 + x0) in
  let x5 := u64 (x5 * x7) in
  u64 (x4 * x5 + x0).
Definition ModuleEntryPoint (mpidr : Z) : PP Z :=
  let! max := PalGetMaxMpidr in
  let x3 := u64 (SIZE_STACK_SECONDARY_PE * core_pos mpidr max) in
  let! x0 := PalGetSecondaryStackBase in
  ret (u64 (x0 + x3)).
