(* ===== verification/PePalSpec.v ===== *)
(** * PePalSpec

    Properties of [PePal]: the stacks that started PEs run on. *)

From Stdlib Require Import ZArith Lia Bool List.
From stdpp Require Import base tactics numbers list option.
From S2P Require Import Prelude Memory BMRuntime TestRun PePal.
Local Open Scope Z_scope.

(** ** Affinity fields *)

(** Field [k] of an MPIDR, and its largest value over the PEs. *)
Definition aff_shift (k : nat) : Z := nth k [0; 8; 16; 32] 0.
Definition aff (k : nat) (m : Z) : Z := (m .& (0xff << aff_shift k)) >> aff_shift k.
Definition affinity (m : Z) : list Z := map (fun k => aff k m) [0; 1; 2; 3]%nat.
Definition amax (cfg : list pe_entry) (k : nat) : Z := foldr Z.max 0 (map (fun e => aff k (mpidr e)) cfg).
(** The number of places for stacks, and the place of a PE: the affinity fields
    as digits of a mixed radix. *)
Definition places (cfg : list pe_entry) : Z :=
  (amax cfg 0 + 1) * ((amax cfg 1 + 1) * ((amax cfg 2 + 1) * (amax cfg 3 + 1))).
Definition place (cfg : list pe_entry) (m : Z) : Z :=
  aff 0 m + (amax cfg 0 + 1) * (aff 1 m + (amax cfg 1 + 1) * (aff 2 m + (amax cfg 2 + 1) * aff 3 m)).

Lemma aff_range k m : 0 <= aff k m < 256.
Proof.
  unfold aff. assert (0 <= aff_shift k) as H by (do 4 (destruct k as [|k]; [done|]); cbn; by destruct k).
  rewrite Z.shiftr_land, Z.shiftr_shiftl_l, Z.sub_diag, Z.shiftl_0_r by done.
  change 0xff with (Z.ones 8). rewrite Z.land_ones by lia. apply Z.mod_pos_bound. lia.
Qed.
Lemma amax_range cfg k : 0 <= amax cfg k < 256.
Proof.
  unfold amax. induction cfg as [|e cfg IH]; cbn; [lia|]. pose proof (aff_range k (mpidr e)). lia.
Qed.
Lemma aff_le_amax cfg k e : e ∈ cfg -> aff k (mpidr e) <= amax cfg k.
Proof.
  unfold amax. induction cfg as [|x cfg IH]; intros H; [by apply list.elem_of_nil in H|]. cbn.
  apply list.elem_of_cons in H as [->|H]; [lia|]. specialize (IH H). lia.
Qed.

Lemma digit_range x y b c : 0 <= x < b -> 0 <= y < c -> 0 <= x + b * y < b * c.
Proof. nia. Qed.
Lemma digit_inj x y x' y' b : 0 <= x < b -> 0 <= x' < b -> x + b * y = x' + b * y' -> x = x' /\ y = y'.
Proof.
  intros Hx Hx' H. assert (y = y') as ->; [|lia].
  destruct (Z.lt_trichotomy y y') as [Hy|[Hy|Hy]]; [nia|done|nia].
Qed.

Section places.
Context (cfg : list pe_entry).

Lemma place_range e : e ∈ cfg -> 0 <= place cfg (mpidr e) < places cfg.
Proof.
  intros He. unfold place, places.
  repeat apply digit_range; split; try apply aff_range;
    pose proof (aff_le_amax cfg 0 e He); pose proof (aff_le_amax cfg 1 e He);
    pose proof (aff_le_amax cfg 2 e He); pose proof (aff_le_amax cfg 3 e He); lia.
Qed.
Lemma place_inj e1 e2 : e1 ∈ cfg -> e2 ∈ cfg -> place cfg (mpidr e1) = place cfg (mpidr e2) ->
  affinity (mpidr e1) = affinity (mpidr e2).
Proof.
  intros H1 H2 H. unfold place in H.
  assert (forall k, 0 <= aff k (mpidr e1) < amax cfg k + 1 /\ 0 <= aff k (mpidr e2) < amax cfg k + 1) as Hr.
  { intros k. pose proof (aff_range k (mpidr e1)). pose proof (aff_range k (mpidr e2)).
    pose proof (aff_le_amax cfg k _ H1). pose proof (aff_le_amax cfg k _ H2). lia. }
  destruct (digit_inj _ _ _ _ _ (proj1 (Hr 0%nat)) (proj2 (Hr 0%nat)) H) as [E0 H'].
  destruct (digit_inj _ _ _ _ _ (proj1 (Hr 1%nat)) (proj2 (Hr 1%nat)) H') as [E1 H''].
  destruct (digit_inj _ _ _ _ _ (proj1 (Hr 2%nat)) (proj2 (Hr 2%nat)) H'') as [E2 E3].
  unfold affinity. cbn. by rewrite E0, E1, E2, E3.
Qed.
Lemma place_zero e : e ∈ cfg -> place cfg (mpidr e) = 0 <-> affinity (mpidr e) = [0; 0; 0; 0].
Proof.
  intros He. unfold place, affinity. cbn [map]. pose proof (amax_range cfg 0). pose proof (amax_range cfg 1).
  pose proof (amax_range cfg 2).
  pose proof (aff_range 0 (mpidr e)). pose proof (aff_range 1 (mpidr e)).
  pose proof (aff_range 2 (mpidr e)). pose proof (aff_range 3 (mpidr e)). split.
  - intros H7. assert (aff 0 (mpidr e) = 0 /\ aff 1 (mpidr e) = 0 /\ aff 2 (mpidr e) = 0 /\ aff 3 (mpidr e) = 0)
      as (-> & -> & -> & ->) by nia. done.
  - intros [= -> -> -> ->]. lia.
Qed.
End places.

(** ** The maxima of the platform *)

Definition mask_max (mask : Z) (cfg : list pe_entry) (a : Z) : Z :=
  fold_left (fun a e => UPDATE_AFF_MAX a (mpidr e) mask) cfg a.
Lemma affinity_max_masks cfg : affinity_max cfg = map (fun mask => mask_max mask cfg 0) AFF_MASKS.
Proof.
  unfold affinity_max, AFF_MASKS. cbn [map].
  enough (forall a0 a1 a2 a3, fold_left (fun maxima e => max_step (mpidr e) maxima) cfg [a0; a1; a2; a3] =
    [mask_max 0xff cfg a0; mask_max 0xff00 cfg a1; mask_max 0xff0000 cfg a2;
     mask_max 0xff00000000 cfg a3]) as H by apply H.
  induction cfg as [|e cfg IH]; intros; [done|]. cbn [fold_left]. unfold max_step at 2. cbn [zip_with AFF_MASKS].
  apply IH.
Qed.

Lemma shift_nonneg k : 0 <= aff_shift k.
Proof. do 4 (destruct k as [|k]; [done|]). cbn. by destruct k. Qed.
Lemma masked k m : m .& (0xff << aff_shift k) = aff k m << aff_shift k.
Proof.
  pose proof (shift_nonneg k) as Hs. unfold aff.
  rewrite Z.shiftr_land, Z.shiftr_shiftl_l, Z.sub_diag, Z.shiftl_0_r by done.
  rewrite Z.shiftl_land. apply Z.bits_inj'. intros n Hn. rewrite !Z.land_spec, !Z.shiftl_spec by done.
  destruct (Z.ltb_spec n (aff_shift k)) as [H|H].
  - rewrite !(Z.testbit_neg_r _ (n - aff_shift k)) by lia. by rewrite !andb_false_r.
  - f_equal. rewrite Z.shiftr_spec by lia. f_equal. lia.
Qed.
Lemma aff_shifted k x : 0 <= x < 256 -> aff k (x << aff_shift k) = x.
Proof.
  intros Hx. pose proof (shift_nonneg k) as Hs. unfold aff. rewrite <- Z.shiftl_land.
  rewrite Z.shiftr_shiftl_l, Z.sub_diag, Z.shiftl_0_r by done.
  change 0xff with (Z.ones 8). rewrite Z.land_ones by lia. apply Z.mod_small. lia.
Qed.

Lemma update_max k x m : 0 <= x < 256 ->
  UPDATE_AFF_MAX (x << aff_shift k) m (0xff << aff_shift k) = Z.max x (aff k m) << aff_shift k.
Proof.
  intros Hx. pose proof (shift_nonneg k) as Hs. unfold UPDATE_AFF_MAX.
  rewrite !masked, aff_shifted by done. pose proof (aff_range k m) as Ha.
  rewrite !Z.shiftl_mul_pow2 by done. pose proof (Z.pow_pos_nonneg 2 (aff_shift k) ltac:(lia) Hs).
  destruct (Z.ltb_spec (x * 2 ^ aff_shift k) (aff k m * 2 ^ aff_shift k)).
  - rewrite Z.max_r; [done|nia].
  - rewrite Z.max_l; [done|nia].
Qed.
Lemma mask_max_amax k cfg : forall x, 0 <= x < 256 ->
  mask_max (0xff << aff_shift k) cfg (x << aff_shift k) = Z.max x (amax cfg k) << aff_shift k.
Proof.
  induction cfg as [|e cfg IH]; intros x Hx; unfold mask_max, amax in *; cbn [fold_left map foldr].
  - by rewrite Z.max_l by lia.
  - rewrite update_max by done. pose proof (aff_range k (mpidr e)). rewrite IH by lia. f_equal. lia.
Qed.

(** Four bytes at the positions of the affinity fields. *)
Definition pack (a b c d : Z) : Z := ((0 .| a << 0) .| b << 8) .| c << 16 .| d << 32.
Lemma byte_bits x n : 0 <= x < 256 -> 8 <= n -> Z.testbit x n = false.
Proof.
  intros Hx Hn. rewrite <- (Z.mod_small x (2 ^ 8)) by lia. apply Z.mod_pow2_bits_high. lia.
Qed.
Lemma field_land x i j : 0 <= x < 256 -> 0 <= i -> 0 <= j -> i + 8 <= j \/ j + 8 <= i ->
  (x << i) .& (0xff << j) = 0.
Proof.
  intros Hx Hi Hj H. apply Z.bits_inj'. intros n Hn.
  rewrite Z.land_spec, !Z.shiftl_spec, Z.bits_0 by done.
  destruct (Z.ltb_spec n i); [by rewrite (Z.testbit_neg_r x) by lia|].
  destruct (Z.ltb_spec n j); [by rewrite (Z.testbit_neg_r 255), andb_false_r by lia|].
  destruct H.
  - by rewrite (byte_bits x) by lia.
  - by rewrite (byte_bits 255), andb_false_r by lia.
Qed.
Lemma aff_pack a b c d k : (k < 4)%nat -> 0 <= a < 256 -> 0 <= b < 256 -> 0 <= c < 256 -> 0 <= d < 256 ->
  aff k (pack a b c d) = nth k [a; b; c; d] 0.
Proof.
  intros Hk Ha Hb Hc Hd. unfold aff, pack. rewrite !Z.land_lor_distr_l, Z.land_0_l, Z.lor_0_l.
  do 4 (destruct k as [|k]; [cbn [aff_shift nth]; 
    rewrite ?(field_land a), ?(field_land b), ?(field_land c), ?(field_land d), ?Z.lor_0_r, ?Z.lor_0_l by lia; shelve|]).
  lia.
  Unshelve.
  - by apply (aff_shifted 0).
  - by apply (aff_shifted 1).
  - by apply (aff_shifted 2).
  - by apply (aff_shifted 3).
Qed.

Definition max_mpidr (cfg : list pe_entry) : Z := fold_left Z.lor (affinity_max cfg) 0.
Lemma max_mpidr_pack cfg : max_mpidr cfg = pack (amax cfg 0) (amax cfg 1) (amax cfg 2) (amax cfg 3).
Proof.
  assert (forall k, mask_max (0xff << aff_shift k) cfg 0 = amax cfg k << aff_shift k) as Hm.
  { intros k. pose proof (mask_max_amax k cfg 0 ltac:(lia)) as H. rewrite Z.shiftl_0_l in H.
    rewrite H. pose proof (amax_range cfg k). by rewrite Z.max_r by lia. }
  unfold max_mpidr, pack. rewrite affinity_max_masks. unfold AFF_MASKS. cbn [map fold_left].
  by rewrite (Hm 0%nat : mask_max 0xff cfg 0 = _), (Hm 1%nat : mask_max 0xff00 cfg 0 = _),
    (Hm 2%nat : mask_max 0xff0000 cfg 0 = _), (Hm 3%nat : mask_max 0xff00000000 cfg 0 = _).
Qed.
Lemma aff_max k cfg : (k < 4)%nat -> aff k (max_mpidr cfg) = amax cfg k.
Proof.
  intros Hk. rewrite max_mpidr_pack, aff_pack by (done || apply amax_range).
  do 4 (destruct k as [|k]; [done|]). lia.
Qed.

(** ** The places *)

Lemma aff_u32 k m : u32 (aff k m) = aff k m.
Proof. apply Z.mod_small. pose proof (aff_range k m). lia. Qed.
Lemma NumPe_places cfg : places cfg < 2 ^ 32 -> NumPe (max_mpidr cfg) = places cfg.
Proof.
  intros H. unfold NumPe, Aff0, Aff1, Aff2, Aff3.
  change ((?m .& 0xff) >> 0) with (aff 0 m). change ((?m .& 0xff00) >> 8) with (aff 1 m).
  change ((?m .& 0xff0000) >> 16) with (aff 2 m). change ((?m .& 0xff00000000) >> 32) with (aff 3 m).
  rewrite !aff_u32, !aff_max by lia. unfold places in *.
  pose proof (amax_range cfg 0). pose proof (amax_range cfg 1). pose proof (amax_range cfg 2). pose proof (amax_range cfg 3).
  unfold u32, wrap. rewrite Z.mod_small; [lia|]. split; [nia|]. lia.
Qed.
Lemma core_pos_place cfg m : core_pos m (max_mpidr cfg) = place cfg m.
Proof.
  unfold core_pos. cbv zeta.
  change (?x .& 0xFF) with (aff 0 x). change ((?x .& 0xFF00) >> 8) with (aff 1 x).
  change ((?x .& 0xFF0000) >> 16) with (aff 2 x). change ((?x .& 0xFF00000000) >> 32) with (aff 3 x).
  rewrite !aff_max by lia. unfold place.
  pose proof (aff_range 0 m). pose proof (aff_range 1 m). pose proof (aff_range 2 m). pose proof (aff_range 3 m).
  pose proof (amax_range cfg 0). pose proof (amax_range cfg 1). pose proof (amax_range cfg 2).
  assert (forall x y b c, 0 <= x < b -> 0 <= y <= c -> 0 <= y * x <= c * b) as Hb by nia.
  assert (0 <= (amax cfg 0 + 1) * (amax cfg 1 + 1) <= 2 ^ 16) by nia.
  assert (0 <= (amax cfg 0 + 1) * (amax cfg 1 + 1) * (amax cfg 2 + 1) <= 2 ^ 24) by nia.
  assert (0 <= aff 1 m * (amax cfg 0 + 1) <= 2 ^ 16) by nia.
  assert (0 <= aff 2 m * ((amax cfg 0 + 1) * (amax cfg 1 + 1)) <= 2 ^ 24) by nia.
  assert (0 <= aff 3 m * ((amax cfg 0 + 1) * (amax cfg 1 + 1) * (amax cfg 2 + 1)) <= 2 ^ 32) by nia.
  unfold u64, wrap. rewrite !(Z.mod_small (amax cfg _ + 1)) by lia.
  rewrite !(Z.mod_small ((amax cfg 0 + 1) * _)) by lia.
  rewrite !(Z.mod_small (aff 1 m * _ + _)) by lia.
  rewrite !(Z.mod_small ((amax cfg 0 + 1) * _ * _)) by lia.
  rewrite !(Z.mod_small (aff 2 m * _ + _)) by lia.
  rewrite Z.mod_small by lia. ring.
Qed.

Lemma alloc_run base h st mx :
  NumPe mx * SIZE_STACK_SECONDARY_PE < 2 ^ 32 -> 0 <= NumPe mx ->
  gSecondaryPeStack st = 0 ->
  pal_mem_alloc (NumPe mx * SIZE_STACK_SECONDARY_PE) (pe_heap st) = Done base h ->
  PalAllocateSecondaryStack mx st = Done tt (mk_pal_pe h (gMpidrMax st) base).
Proof.
  intros Hs Hn H0 Ha. unfold PalAllocateSecondaryStack, bind, gets. rewrite H0. cbn [Z.eqb].
  unfold zoom. replace (u32 _) with (NumPe mx * SIZE_STACK_SECONDARY_PE).
  - by rewrite Ha.
  - symmetry. apply Z.mod_small. unfold SIZE_STACK_SECONDARY_PE in *. lia.
Qed.
Lemma places_pos cfg : 0 < places cfg.
Proof.
  unfold places. pose proof (amax_range cfg 0). pose proof (amax_range cfg 1). pose proof (amax_range cfg 2).
  pose proof (amax_range cfg 3). repeat apply Z.mul_pos_pos; lia.
Qed.
Lemma info_table_run cfg base h st : cfg <> [] -> places cfg * SIZE_STACK_SECONDARY_PE < 2 ^ 32 ->
  gSecondaryPeStack st = 0 ->
  pal_mem_alloc (places cfg * SIZE_STACK_SECONDARY_PE) (pe_heap st) = Done base h ->
  pal_pe_create_info_table cfg st =
    Done (Some (imap (fun i e => mk_pe (Z.of_nat i) (mpidr e) (pmu_gsiv e)) cfg)) (mk_pal_pe h (max_mpidr cfg) base).
Proof.
  intros Hc Hs H0 Ha. unfold pal_pe_create_info_table. destruct cfg as [|e cfg]; [done|].
  set (c := e :: cfg) in *. change (length c =? 0)%nat with false. cbv zeta iota.
  change (fold_left Z.lor (affinity_max c) 0) with (max_mpidr c). unfold bind at 1. unfold modify.
  pose proof (places_pos c). unfold SIZE_STACK_SECONDARY_PE in Hs.
  assert (NumPe (max_mpidr c) = places c) as HN by (apply NumPe_places; lia).
  unfold bind at 1. erewrite alloc_run; rewrite ?HN; try done. lia.
Qed.

(** ** Secondary stacks *)

(** When the stacks of all places fit in 32 bits and the heap gives the
    memory, the table is made for every PE and each PE of the table starts with
    the stack pointer that its place, the affinity fields read as a mixed radix
    number, gives. PEs of different affinity get stacks of 256 bytes that do not
    overlap, and the stack of a PE whose affinity is not 0.0.0.0 lies in the
    allocation. The PE of affinity 0.0.0.0 starts with the base of the allocation,
    and stacks grow down: its stack is the memory below. *)
Theorem secondary_stacks cfg base h st (Hne : cfg <> [])
  (Hsize : places cfg * SIZE_STACK_SECONDARY_PE < 2 ^ 32) (Hfirst : gSecondaryPeStack st = 0)
  (Halloc : pal_mem_alloc (places cfg * SIZE_STACK_SECONDARY_PE) (pe_heap st) = Done base h)
  (Hbase : 0 <= base /\ base + places cfg * SIZE_STACK_SECONDARY_PE <= 2 ^ 64) :
  exists st', pal_pe_create_info_table cfg st =
      Done (Some (imap (fun i e => mk_pe (Z.of_nat i) (mpidr e) (pmu_gsiv e)) cfg)) st' /\
    pe_heap st' = h /\
    forall e, e ∈ cfg -> exists sp, ModuleEntryPoint (mpidr e) st' = Done sp st' /\
      (affinity (mpidr e) <> [0; 0; 0; 0] ->
        base <= sp - 0x100 /\ sp <= base + places cfg * SIZE_STACK_SECONDARY_PE) /\
      (affinity (mpidr e) = [0; 0; 0; 0] -> sp = base) /\
      forall e2, e2 ∈ cfg -> affinity (mpidr e2) <> affinity (mpidr e) ->
        exists sp2, ModuleEntryPoint (mpidr e2) st' = Done sp2 st' /\ (sp2 <= sp - 0x100 \/ sp <= sp2 - 0x100).
Proof.
  exists (mk_pal_pe h (max_mpidr cfg) base). split; [by apply info_table_run|]. split; [done|].
  unfold SIZE_STACK_SECONDARY_PE in *.
  assert (forall e, e ∈ cfg -> ModuleEntryPoint (mpidr e) (mk_pal_pe h (max_mpidr cfg) base) =
    Done (base + 0x100 * place cfg (mpidr e)) (mk_pal_pe h (max_mpidr cfg) base)) as Hrun.
  { intros e He. unfold ModuleEntryPoint, bind, PalGetMaxMpidr, PalGetSecondaryStackBase, gets, ret.
    cbn [gMpidrMax gSecondaryPeStack]. rewrite core_pos_place. unfold SIZE_STACK_SECONDARY_PE.
    pose proof (place_range cfg e He). f_equal. unfold u64, wrap. rewrite (Z.mod_small (_ * _)) by lia. apply Z.mod_small. lia. }
  intros e He. exists (base + 0x100 * place cfg (mpidr e)). pose proof (place_range cfg e He) as Hr.
  split; [by apply Hrun|]. split; [|split].
  - intros Ha. assert (place cfg (mpidr e) <> 0) by (by rewrite place_zero). lia.
  - intros Ha. apply (place_zero cfg e He) in Ha. lia.
  - intros e2 He2 Ha. eexists. split; [by apply Hrun|].
    assert (place cfg (mpidr e2) <> place cfg (mpidr e)) by (intros Hp; by apply Ha, (place_inj cfg)). lia.
Qed.

(** The PEs of the reference platform: two clusters of four. *)
Definition fvp_pes : list pe_entry :=
  map (fun m => mk_pe 0 m 0) [0x0; 0x100; 0x200; 0x300; 0x10000; 0x10100; 0x10200; 0x10300].
Definition fvp_pe_state : pal_pe := mk_pal_pe bm_init 0 0.
Definition fvp_alloc : Z * bm :=
  match pal_mem_alloc (places fvp_pes * SIZE_STACK_SECONDARY_PE) bm_init with
  | Done base h => (base, h) | _ => (0, bm_init)
  end.
Lemma secondary_stacks_witness :
  exists st', pal_pe_create_info_table fvp_pes fvp_pe_state =
      Done (Some (imap (fun i e => mk_pe (Z.of_nat i) (mpidr e) (pmu_gsiv e)) fvp_pes)) st' /\
    pe_heap st' = snd fvp_alloc /\ fst fvp_alloc <> 0.
Proof.
  destruct (secondary_stacks fvp_pes (fst fvp_alloc) (snd fvp_alloc) fvp_pe_state) as (st' & H & Hh & _).
  - discriminate.
  - vm_compute. reflexivity.
  - reflexivity.
  - vm_compute. reflexivity.
  - vm_compute. split; discriminate.
  - exists st'. split; [exact H|]. split; [exact Hh|]. vm_compute. discriminate.
Defined.
