(* ===== verification/El3Smc.v ===== *)
(** * El3Smc

    How the VAL reaches EL3 once the tests' exception handler is installed: an
    SMC is an exception like any other, so it enters the vector table of
    val_el3/aarch64/ack_helper_functions.S and [ack_handler_el3] first, which
    hands it to the firmware's dispatcher or makes the access a test asked for.
    That access may fault, which is a second exception. *)

From Stdlib Require Import ZArith Lia Bool List.
From stdpp Require Import base tactics numbers list gmap option.
From S2P Require Import Prelude Memory El3State El3Common El3Handler El3Spec.

(** Whether an access of EL3 faults, and the syndrome. *)
Class El3Bus (D : Type) := { el3_fault : bool -> el3 D -> Z -> option Z }.

(** The syndrome of an SMC, and the entries of the vector table for an exception
    taken from EL3 on its own stack and for one from a lower level. *)
Definition ESR_SMC : Z := 0x5E000000.
Definition VECTOR_CURRENT_SPX : Z := 0x200.
Definition VECTOR_LOWER : Z := 0x400.

(** Addresses in the image: the vector table [exception_handler_user], the
    instructions of [acs_str], [acs_ldr_pas_filter] and [ack_handler_el3] that
    access the tested address, the instruction behind the SMC of [UserCallSMC];
    and the processor states the exceptions save. *)
Record el3_image := mk_image {
  vector_at : Z; str_at : Z; ldr_at : Z; load_at : Z; smc_return : Z;
  ns_pstate : Z; el3_pstate : Z
}.

Section machine.
Context {D : Type} {HW : Hw D} {BUS : El3Bus D}.
Variable im : el3_image.

Definition with_esr (v : Z) (r : sysregs) : sysregs :=
  mk_sysregs (gpccr_el3 r) (gptbr_el3 r) (tcr_el3 r) (ttbr_el3 r) (scr_el3 r) (sctlr_el3 r)
    (sctlr_el2 r) (mair_el3 r) (elr_el3 r) (spsr_el3 r) v (far_el3 r) (vbar_el3 r).

(** The exception and the entry of the table: [save_firmware_handler_entry_addr]
    computes the firmware's handler from its vector table. *)
Definition exception_entry (offset esr pc pstate : Z) : E D unit :=
  modify (set_sys (fun r => with_spsr pstate (with_elr pc (with_esr esr r)))) ;;
  let! base := rd 8 armtf_handler in
  wr 8 (armtf_handler + 8) (u64 (base + offset)).

(** An instruction of the handler that makes [access] to [a]. After a fault the
    run goes on behind it if the handler returns there; in the firmware's
    handler for exceptions of EL3 it ends. *)
Definition el3_insn (write : bool) (a at_ : Z) (access : E D unit) : E D unit :=
  let! f := gets (fun s => el3_fault write s a) in
  match f with
  | None => access
  | Some esr =>
      exception_entry VECTOR_CURRENT_SPX esr at_ (el3_pstate im) ;;
      let! x := ack_handler_el3 in
      match x with
      | ExitEret => let! elr := sysreg elr_el3 in require (elr =? u64 (at_ + 4))
      | _ => undef
      end
  end.
Definition mut_store (a v : Z) : E D el3_exit :=
  el3_insn true a (str_at im) (io_write 8 a v) ;; eret_shared.
Definition mut_filter (a : Z) : E D el3_exit :=
  el3_insn false a (ldr_at im) (let! _v := io_read 8 a in ret tt) ;; eret_shared.
Definition mut_load (a : Z) : E D unit :=
  el3_insn false a (load_at im) (let! _v := io_read 8 a in ret tt).
Definition ack_handler : E D el3_exit := ack_handler_with mut_store mut_filter mut_load.

(** [UserCallSMC], when the firmware's dispatcher would do [service]. If EL3
    returns anywhere but behind the SMC, the registers that [UserCallSMC] pops
    there are lost. *)
Definition smc (service : E D unit) : E D unit :=
  let! vbar := sysreg vbar_el3 in
  if negb (vbar =? vector_at im) then service else
  exception_entry VECTOR_LOWER ESR_SMC (smc_return im) (ns_pstate im) ;;
  let! x := ack_handler in
  match x with
  | ExitBranch _ => service
  | _ => let! elr := sysreg elr_el3 in require (elr =? smc_return im)
  end.
End machine.

(** ** What a run of the machine leaves alone *)

(** The word where the entry of the table keeps the firmware's handler. *)
Definition handler_slot (b : Z) : Prop := armtf_handler + 8 <= b < armtf_handler + 16.

Section runs.
Context {D : Type} {HW : Hw D} {BUS : El3Bus D}.
Variable im : el3_image.
Implicit Types e : el3 D.

(** The registers of the granule protection and of EL3's own configuration. *)
Definition controls (r : sysregs) : Z * Z * Z * Z * Z :=
  (gpccr_el3 r, gptbr_el3 r, scr_el3 r, sctlr_el3 r, mair_el3 r).
Record kept (e e' : el3 D) : Prop := {
  kept_mem : only_at handler_slot (e_mem e) (e_mem e');
  kept_vbar : vbar_el3 (e_sys e') = vbar_el3 (e_sys e);
  kept_ttbr : ttbr_el3 (e_sys e') = ttbr_el3 (e_sys e);
  kept_tcr : tcr_el3 (e_sys e') = tcr_el3 (e_sys e);
  kept_controls : controls (e_sys e') = controls (e_sys e);
  kept_free_pa : e_free_pa e' = e_free_pa e
}.
#[export] Instance kept_refl : Reflexive kept.
Proof. intros e. by constructor. Qed.
#[export] Instance kept_trans : Transitive kept.
Proof.
  intros e1 e2 e3 [A1 A2 A3 A4 A5 A6] [B1 B2 B3 B4 B5 B6].
  constructor; [by etrans|congruence..].
Qed.

(** The shared structure after an access: the fault reported or not, the
    announcement, the request served; the inputs of the test as they were. *)
Record served (generated expected : Z) (r r' : struct_sh_data) : Prop := {
  served_generated : exception_generated r' = generated;
  served_expected : exception_expected r' = expected;
  served_mut : sh_access_mut r' = CLEAR;
  served_filter : pas_filter_flag r' = pas_filter_flag r;
  served_flag : generic_flag r' = generic_flag r;
  served_arg0 : sh_arg0 r' = sh_arg0 r;
  served_access : sh_access r' = sh_access r
}.

Definition idle e : Prop :=
  sh_access_mut (e_shared e) <> SET /\ exception_expected (e_shared e) <> SET.

(** The entry of the table. *)
Lemma entry_run offset esr pc pstate e :
  exists e1, exception_entry offset esr pc pstate e = Done tt e1 /\ kept e e1 /\
    e_shared e1 = e_shared e /\ e_dev e1 = e_dev e /\ esr_el3 (e_sys e1) = esr /\
    elr_el3 (e_sys e1) = pc.
Proof.
  unfold exception_entry. el3_run. eexists. split; [reflexivity|].
  split; [|done]. constructor; [|done..]. cbn. by apply only_at_store.
Qed.

(** A faulting instruction while the test waits for a fault. *)
Lemma insn_fault write a at_ access e esr : armed e ->
  el3_fault write e a = Some esr ->
  wp (el3_insn im write a at_ access) (fun _ e' => kept e e' /\ e_dev e' = e_dev e /\
    e_shared e' = after_fault esr (e_shared e)) e.
Proof.
  intros Ha Hf. unfold el3_insn. apply wp_bind, wp_gets. rewrite Hf.
  destruct (entry_run VECTOR_CURRENT_SPX esr at_ (el3_pstate im) e) as (e1 & H1 & K & Hs & Hd & He & Hl).
  apply wp_bind. eapply wp_intro; [exact H1|]. apply wp_bind.
  assert (armed e1) as Ha1 by (unfold armed; by rewrite Hs).
  eapply wp_intro; [by apply handler_armed|].
  apply wp_bind, wp_gets. apply wp_require; [cbn; by rewrite Hl, Z.eqb_refl|].
  split; [|split].
  - etrans; [exact K|]. by constructor.
  - done.
  - cbn. by rewrite He, Hs.
Qed.
Lemma insn_quiet write a at_ access Q e : el3_fault write e a = None -> wp access Q e ->
  wp (el3_insn im write a at_ access) Q e.
Proof. intros Hf H. unfold el3_insn. apply wp_bind, wp_gets. by rewrite Hf. Qed.
(** A fault nobody announced: the firmware's own handler, and no way back. *)
Lemma insn_panic write a at_ access e esr : idle e -> el3_fault write e a = Some esr ->
  el3_insn im write a at_ access e = Undef.
Proof.
  intros [Hm He] Hf. unfold el3_insn, bind at 1, gets. rewrite Hf.
  destruct (entry_run VECTOR_CURRENT_SPX esr at_ (el3_pstate im) e) as (e1 & H1 & K & Hs & _).
  unfold bind at 1. rewrite H1. unfold bind. by rewrite handler_idle by (by rewrite Hs).
Qed.

(** ** Calls *)

(** While no test access is pending and no fault announced, a call through
    the tests' handler is the firmware's dispatch of the call: the service runs
    on a state that differs in ELR, SPSR and ESR, the trace and the word of the
    handler's address only. *)
Lemma smc_idle service Q e : idle e ->
  (forall e1, kept e e1 -> e_shared e1 = e_shared e -> e_dev e1 = e_dev e -> wp service Q e1) ->
  wp (smc im service) Q e.
Proof.
  intros Hi Hserv. unfold smc. apply wp_bind, wp_gets.
  destruct (negb _); [by apply Hserv|].
  destruct (entry_run VECTOR_LOWER ESR_SMC (smc_return im) (ns_pstate im) e) as (e1 & H1 & K & Hs & Hd & _).
  apply wp_bind. eapply wp_intro; [exact H1|]. apply wp_bind.
  assert (ack_handler im e1 = ack_handler_el3 e1) as Hh.
  { unfold ack_handler, ack_handler_el3, ack_handler_with, fault_expected. el3_run. rewrite Hs.
    destruct Hi as [Hm He]. replace (exception_expected (e_shared e) =? SET) with false by zbool.
    cbn [andb]. by replace (sh_access_mut (e_shared e) =? SET) with false by zbool. }
  eapply wp_intro; [rewrite Hh; apply handler_idle; rewrite Hs; apply Hi|].
  apply Hserv; [|done|done]. etrans; [exact K|]. by constructor.
Qed.

(** A call while a fault is announced and no access is pending is taken for
    that fault: EL3 returns one instruction too far, whatever the service. *)
Lemma smc_lost service e : vbar_el3 (e_sys e) = vector_at im -> armed e ->
  0 <= smc_return im < 2 ^ 64 -> smc im service e = Undef.
Proof.
  intros Hv Ha Hr. unfold smc, bind at 1, sysreg, gets. rewrite Hv, Z.eqb_refl. cbn [negb].
  destruct (entry_run VECTOR_LOWER ESR_SMC (smc_return im) (ns_pstate im) e) as (e1 & H1 & K & Hs & _ & _ & Hl).
  unfold bind at 1. rewrite H1.
  assert (armed e1) as Ha1 by (unfold armed; by rewrite Hs).
  assert (ack_handler im e1 = ack_handler_el3 e1) as Hh.
  { destruct Ha1 as [He Hm]. unfold ack_handler, ack_handler_el3, ack_handler_with, fault_expected.
    el3_run. rewrite He, Hm. done. }
  unfold bind. rewrite Hh, handler_armed by done. cbn [elr_el3 e_sys with_elr add_ev set_sys set_shared].
  rewrite Hl. unfold require.
  replace (u64 (smc_return im + 4) =? smc_return im) with false; [done|]. symmetry.
  apply Z.eqb_neq. unfold u64, wrap. destruct (Z.ltb_spec (smc_return im + 4) (2 ^ 64)).
  - rewrite Z.mod_small; lia.
  - replace (smc_return im + 4) with (smc_return im + 4 - 2 ^ 64 + 1 * 2 ^ 64) by lia.
    rewrite Z.mod_add, Z.mod_small by lia. lia.
Qed.

(** The handler up to the access. *)
Definition serving (r : sysregs) : struct_sh_data -> struct_sh_data :=
  fun x => set_spsr (spsr_el3 r) (set_elr (elr_el3 r) (set_access_mut CLEAR x)).
Lemma handler_access e : sh_access_mut (e_shared e) = SET ->
  ack_handler im e =
  let e1 := set_shared (serving (e_sys e)) e in
  let a := sh_arg1 (e_shared e) in
  (if pas_filter_flag (e_shared e) =? SET then set_daif ;; let! _a := acc_at 0 in mut_filter im a
   else if exception_expected (e_shared e) =? SET then mut_store im a TEST_DATA
   else mut_load im a ;;
     let! elr := sh sh_elr_el3 in modify (set_sys (with_elr elr)) ;;
     let! spsr := sh sh_spsr_el3 in modify (set_sys (with_spsr spsr)) ;; asm_eret_smc) e1.
Proof.
  intros Ha. unfold ack_handler, ack_handler_with, fault_expected, set_sh. el3_run. rewrite Ha.
  change (SET =? CLEAR) with false. rewrite andb_false_r. change (SET =? SET) with true. cbv iota zeta.
  unfold serving. cbn [pas_filter_flag exception_expected sh_arg1 set_spsr set_elr set_access_mut].
  destruct e as [m d r x tr fp fl sm]. reflexivity.
Qed.

(** The way back. *)
Lemma eret_shared_run e : exists e', eret_shared e = Done ExitEret e' /\ kept e e' /\
  e_dev e' = e_dev e /\ e_shared e' = e_shared e /\ elr_el3 (e_sys e') = sh_elr_el3 (e_shared e).
Proof. unfold eret_shared. el3_run. eexists. split; [reflexivity|]. by split. Qed.

(** The devices after an access that did not fault, and the shared structure
    after either outcome. *)
Definition store_dev (d : D) (a : Z) : D := hw_write 8 d a TEST_DATA.
Definition load_dev (d : D) (a : Z) : D := snd (hw_read 8 d a).
Definition outcome (fault : option Z) (d d' : D) (r r' : struct_sh_data) (moved : D) : Prop :=
  match fault with
  | None => d' = moved /\ served (exception_generated r) (exception_expected r) r r'
  | Some esr => d' = d /\ served (if is_gpf esr then SET else exception_generated r) CLEAR r r'
  end.

(** Both accesses in assembly, while a fault is announced. *)
Lemma access_insn write a at_ access moved fault e :
  armed e -> el3_fault write e a = fault ->
  wp access (fun _ e' => kept e e' /\ e_dev e' = moved /\ e_shared e' = e_shared e) e ->
  wp (bind (el3_insn im write a at_ access) (fun _ => eret_shared)) (fun x e' => x = ExitEret /\
    kept e e' /\ elr_el3 (e_sys e') = sh_elr_el3 (e_shared e) /\
    outcome fault (e_dev e) (e_dev e') (e_shared e) (e_shared e') moved) e.
Proof.
  intros Ha Hf Hacc. apply wp_bind. destruct fault as [esr|].
  - eapply wp_mono; [|by apply insn_fault]. intros [] e1 (K & Hd & Hs).
    destruct (eret_shared_run e1) as (e2 & H2 & K2 & Hd2 & Hs2 & Hl). eapply wp_intro; [exact H2|].
    split; [done|]. split; [by etrans|]. rewrite Hl, Hs. unfold after_fault in *.
    split; [by destruct (is_gpf esr)|]. split; [by rewrite Hd2|]. rewrite Hs2, Hs.
    destruct Ha as [_ Hm]. by destruct (is_gpf esr); constructor.
  - eapply wp_mono; [|by apply insn_quiet, Hacc]. intros [] e1 (K & Hd & Hs).
    destruct (eret_shared_run e1) as (e2 & H2 & K2 & Hd2 & Hs2 & Hl). eapply wp_intro; [exact H2|].
    split; [done|]. split; [by etrans|]. rewrite Hl, Hs. split; [done|]. split; [by rewrite Hd2|].
    rewrite Hs2, Hs. destruct Ha as [_ Hm]. by constructor.
Qed.

Lemma outcome_serving f rr d d' r r' moved :
  outcome f d d' (serving rr r) r' moved -> outcome f d d' r r' moved.
Proof. destruct f; intros [H [? ? ? ? ? ? ?]]; (split; [done|by constructor]). Qed.

(** The state of the test when it asks for an access that may fault. *)
Definition asked e : Prop :=
  vbar_el3 (e_sys e) = vector_at im /\ sh_access_mut (e_shared e) = SET /\
  exception_expected (e_shared e) = SET.
Definition filtered e : bool := pas_filter_flag (e_shared e) =? SET.

(** What the caller sees of an access to the address in [arg1]. *)
Definition access_result (fault : option Z) e e' : Prop :=
  kept e e' /\
  outcome fault (e_dev e) (e_dev e') (e_shared e) (e_shared e')
    (if filtered e then load_dev (e_dev e) (sh_arg1 (e_shared e))
     else store_dev (e_dev e) (sh_arg1 (e_shared e))).

(** A test that announces a fault and asks for an access gets it: the call
    returns behind the SMC whether the access faults or not. A granule protection
    fault is reported and withdraws the announcement, and the devices are
    untouched; an access that goes through is a store of the test data, or for
    the PAS filter a load whose value is dropped, and the announcement stays.
    The inputs of the test are as before. *)
Lemma smc_access service fault e : asked e ->
  (filtered e = true -> sh_access (e_shared e) <> []) ->
  (forall e1, kept e e1 -> el3_fault (negb (filtered e)) e1 (sh_arg1 (e_shared e)) = fault) ->
  wp (smc im service) (fun _ e' => access_result fault e e') e.
Proof.
  intros (Hv & Hm & Hx) Hl Hf. unfold smc. apply wp_bind, wp_gets. rewrite Hv, Z.eqb_refl. cbn [negb].
  destruct (entry_run VECTOR_LOWER ESR_SMC (smc_return im) (ns_pstate im) e)
    as (e1 & H1 & K & Hs & Hd & He & Hr).
  apply wp_bind. eapply wp_intro; [exact H1|]. apply wp_bind.
  unfold wp at 1. rewrite handler_access by (by rewrite Hs). cbv zeta.
  set (e2 := set_shared (serving (e_sys e1)) e1). set (a := sh_arg1 (e_shared e)) in *.
  assert (kept e e2) as K2 by (etrans; [exact K|by constructor]).
  assert (armed e2) as Ha2.
  { split; cbn; [by rewrite Hs|done]. }
  rewrite Hs. fold (filtered e). fold a.
  match goal with |- match ?m _ with _ => _ end => change (wp m (fun x e' =>
    wp (match x with ExitBranch _ => service | _ => let! elr := sysreg elr_el3 in
          require (elr =? smc_return im) end) (fun _ e' => access_result fault e e') e') e2) end.
  assert (forall x e', x = ExitEret -> kept e e' -> elr_el3 (e_sys e') = smc_return im ->
    access_result fault e e' ->
    wp (match x with ExitBranch _ => service | _ => let! elr := sysreg elr_el3 in
          require (elr =? smc_return im) end) (fun _ e' => access_result fault e e') e') as Hret.
  { intros x e' -> Ke Hl' Hacc. apply wp_bind, wp_gets. apply wp_require; [by rewrite Hl', Z.eqb_refl|done]. }
  assert (sh_access (e_shared e2) = sh_access (e_shared e)) as Hacc2 by (cbn; by rewrite Hs).
  assert (forall moved e', kept e2 e' -> elr_el3 (e_sys e') = sh_elr_el3 (e_shared e2) ->
    outcome fault (e_dev e2) (e_dev e') (e_shared e2) (e_shared e') moved ->
    elr_el3 (e_sys e') = smc_return im /\ kept e e' /\
    outcome fault (e_dev e) (e_dev e') (e_shared e) (e_shared e') moved) as Hout.
  { intros moved e' Ke Hl' Ho. split; [rewrite Hl'; by cbn|]. split; [by etrans|].
    cbn in Ho. rewrite Hd, Hs in Ho. by apply (outcome_serving _ (e_sys e1)). }
  destruct (filtered e) eqn:Efl; cbn [negb] in Hf.
  - apply wp_bind, wp_modify. set (e3 := add_ev EvDaif e2).
    destruct (sh_access (e_shared e)) as [|acc0 accs] eqn:El; [by destruct (Hl eq_refl)|].
    assert (acc_at 0 e3 = Done acc0 e3) as Hacc0.
    { unfold acc_at, bind, sh, gets. cbv beta iota.
      change (sh_access (e_shared e3)) with (sh_access (e_shared e2)). by rewrite Hacc2. }
    apply wp_bind. eapply wp_intro; [exact Hacc0|].
    eapply wp_mono; [|apply (access_insn false a (ldr_at im) _ (load_dev (e_dev e) a) fault e3 Ha2)].
    + intros x e' (Hx' & Ke & Hl' & Ho).
      assert (kept e2 e') as Ke2 by (etrans; [|exact Ke]; by constructor).
      destruct (Hout _ _ Ke2 Hl' Ho) as (? & ? & ?).
      apply Hret; [done..|]. split; [done|]. by rewrite Efl.
    + apply Hf. etrans; [exact K2|by constructor].
    + unfold io_read, wp, bind. cbn. unfold load_dev. rewrite Hd.
      destruct (hw_read 8 (e_dev e) a). by split; [constructor|].
  - rewrite Hx. change (SET =? SET) with true. cbv iota.
    eapply wp_mono; [|apply (access_insn true a (str_at im) _ (store_dev (e_dev e) a) fault e2 Ha2)].
    + intros x e' (Hx' & Ke & Hl' & Ho). destruct (Hout _ _ Ke Hl' Ho) as (? & ? & ?).
      apply Hret; [done..|]. split; [done|]. by rewrite Efl.
    + by apply Hf.
    + unfold io_write, wp. cbn. unfold store_dev. rewrite Hd. by split; [constructor|].
Qed.

(** ** An access that must not fault *)

Definition plain e : Prop :=
  vbar_el3 (e_sys e) = vector_at im /\ sh_access_mut (e_shared e) = SET /\
  exception_expected (e_shared e) <> SET /\ pas_filter_flag (e_shared e) <> SET.
Lemma smc_plain service e : plain e ->
  (forall e1, kept e e1 -> el3_fault false e1 (sh_arg1 (e_shared e)) = None) ->
  wp (smc im service) (fun _ e' => kept e e' /\ e_dev e' = load_dev (e_dev e) (sh_arg1 (e_shared e)) /\
    served (exception_generated (e_shared e)) (exception_expected (e_shared e)) (e_shared e) (e_shared e')) e.
Proof.
  intros (Hv & Hm & Hx & Hp) Hf. unfold smc. apply wp_bind, wp_gets. rewrite Hv, Z.eqb_refl. cbn [negb].
  destruct (entry_run VECTOR_LOWER ESR_SMC (smc_return im) (ns_pstate im) e)
    as (e1 & H1 & K & Hs & Hd & He & Hr).
  apply wp_bind. eapply wp_intro; [exact H1|]. apply wp_bind.
  unfold wp at 1. rewrite handler_access by (by rewrite Hs). cbv zeta. rewrite Hs.
  replace (pas_filter_flag (e_shared e) =? SET) with false by zbool.
  replace (exception_expected (e_shared e) =? SET) with false by zbool.
  set (e2 := set_shared (serving (e_sys e1)) e1).
  assert (kept e e2) as K2 by (etrans; [exact K|by constructor]).
  match goal with |- match ?m _ with _ => _ end => change (wp m (fun x e' =>
    wp (match x with ExitBranch _ => service | _ => let! elr := sysreg elr_el3 in
          require (elr =? smc_return im) end) (fun _ e' => kept e e' /\
            e_dev e' = load_dev (e_dev e) (sh_arg1 (e_shared e)) /\
    served (exception_generated (e_shared e)) (exception_expected (e_shared e)) (e_shared e) (e_shared e')) e') e2) end.
  apply wp_bind. apply insn_quiet; [by apply Hf|].
  unfold io_read, wp, bind. cbn. rewrite Hd. unfold load_dev.
  destruct (hw_read 8 (e_dev e) (sh_arg1 (e_shared e))) as [v d]. cbn. rewrite Hr, Z.eqb_refl.
  split; [|split; [done|]].
  - etrans; [exact K2|by constructor].
  - unfold e2. cbn. rewrite Hs. by constructor.
Qed.
(** When it does fault, the run ends in the firmware. *)
Lemma smc_plain_fault service e esr : plain e ->
  (forall e1, kept e e1 -> el3_fault false e1 (sh_arg1 (e_shared e)) = Some esr) ->
  smc im service e = Undef.
Proof.
  intros (Hv & Hm & Hx & Hp) Hf. unfold smc, bind at 1, sysreg, gets. rewrite Hv, Z.eqb_refl. cbn [negb].
  destruct (entry_run VECTOR_LOWER ESR_SMC (smc_return im) (ns_pstate im) e)
    as (e1 & H1 & K & Hs & Hd & He & Hr).
  unfold bind at 1. rewrite H1. unfold bind at 1.
  rewrite handler_access by (by rewrite Hs). cbv zeta. rewrite Hs.
  replace (pas_filter_flag (e_shared e) =? SET) with false by zbool.
  replace (exception_expected (e_shared e) =? SET) with false by zbool.
  unfold bind at 1, mut_load. erewrite insn_panic; [done| |].
  - split; cbn; [done|by rewrite Hs].
  - apply Hf. etrans; [exact K|by constructor].
Qed.
End runs.
