(* ===== verification/El3Map.v ===== *)
(** * El3Map

    What the tests rely on when they ask EL3 to map a page, as an interface, and
    the proof that the service of val_el3/pgt_common.c provides it. *)

From Stdlib Require Import ZArith Lia Bool List.
From stdpp Require Import base tactics numbers list gmap option.
From S2P Require Import Prelude Memory El3State El3Pgt El3Mmu El3Common El3Handler El3Spec El3Call El3Smc.

(** [room n]: [n] more pages can be mapped; [mapped va pa attr]: the walk from
    the root table takes [va] to the page of [pa] with the attributes. Entering
    the handler of the tests changes neither. [area]: the bytes where mappings
    keep their tables; the service writes nowhere else. *)
Class El3Map (D : Type) `{HW : Hw D} (vec : Z) (fuel : nat) := {
  room : nat -> el3 D -> Prop;
  mapped : Z -> Z -> Z -> el3 D -> Prop;
  area : Z -> Prop;
  room_kept n e e' : kept e e' -> room n e -> room n e';
  mapped_kept va pa attr e e' : kept e e' -> mapped va pa attr e -> mapped va pa attr e';
  map_page n va pa attr e : room (S n) e ->
    0 <= va < 2 ^ 64 -> 0 <= pa < 2 ^ 64 -> 0 <= attr < 2 ^ 64 ->
    wp (val_add_mmu_entry_el3 vec fuel va pa attr) (fun _ e' =>
      room n e' /\ mapped va pa attr e' /\ quiet_run e e' /\
      only_at area (e_mem e) (e_mem e')) e
}.

(** ** Tables under changes elsewhere in memory *)

Section ext.
Variables (tab : tables) (m m' : mem).
Hypothesis same : forall r t i, tab r t -> 0 <= i < 512 ->
  load64 m' (t + 8 * i) = load64 m (t + 8 * i).

Lemma tables_ok_ext : tables_ok tab m -> tables_ok tab m'.
Proof.
  intros Hok. split; [apply Hok|apply Hok|]. intros r t i Ht Hi.
  rewrite (same (S r)) by done. by apply Hok.
Qed.

Lemma mmu_slot_ext r t nb va : tables_ok tab m -> tab r t -> 0 <= nb <= 9 ->
  mmu_slot m' r t nb va = mmu_slot m r t nb va.
Proof.
  intros Hok. revert t nb. induction r as [|r IH]; intros t nb Ht Hnb; cbn [mmu_slot]; [done|].
  pose proof (slot_index (S r) nb va Hnb) as Hi.
  unfold slot_addr. rewrite (same (S r)) by done.
  destruct (table_entry _) eqn:E; [|done]. apply IH; [|lia].
  destruct (tok_next _ _ Hok r t _ Ht Hi) as [Hf|[_ Hn]]; [|done].
  unfold table_entry in E. by rewrite Hf in E.
Qed.
End ext.

(** ** The tables of [add_mmu_entry] *)

Section tables.
Context {D : Type} {HW : Hw D}.
(** The bytes of the tables and of the pool; enough fuel for the calls that map
    the pages of the pool to themselves. *)
Variables (vec : Z) (fuel : nat) (table_area : Z -> Prop).
Hypothesis Hfuel : (3 < fuel)%nat.
Implicit Types e : el3 D.

Abbreviation top e := (top_layer (input_size e)).

(** The shared page, where the entry of the vector table writes, holds no table. *)
Record tables_in (tab : tables) e : Prop := {
  ti_ok : tables_ok tab (e_mem e);
  ti_root : tab (top e) (root_table e);
  ti_aside : forall r, ~ tab r SHARED_ADDRESS;
  ti_granule : fld 14 2 (tcr_el3 (e_sys e)) = 0;
  ti_size : 25 <= input_size e <= 48
}.
(** Each mapping takes at most a page per level for itself and one per level for
    the pool, which lies in one 2MB block. *)
Record room_in (tab : tables) (P : Z) (k : nat) e : Prop := {
  ri_in : tables_in tab e;
  ri_above : SHARED_ADDRESS < e_free_pa e;
  ri_pool : pool_free tab (e_mem e) (e_free_pa e) k;
  ri_block : pool_in_block P (e_free_pa e) k;
  ri_area : forall b, in_tables tab b \/ e_free_pa e <= b < e_free_pa e + 4096 * Z.of_nat k ->
    table_area b
}.
Definition tables_room (n : nat) e : Prop :=
  exists tab P k, (2 * top e * n <= k)%nat /\ room_in tab P k e.
Definition tables_map (va pa attr : Z) e : Prop :=
  exists tab a, tables_in tab e /\
    mmu_slot (e_mem e) (top e) (root_table e) (top_bits (input_size e)) va = Some a /\
    load64 (e_mem e) a = page_desc pa attr.

(** A page other than the shared one. *)
Lemma page_aside t i m m' : only_at handler_slot m m' -> aligned t 4096 -> t <> SHARED_ADDRESS ->
  0 <= i < 512 -> load64 m' (t + 8 * i) = load64 m (t + 8 * i).
Proof.
  intros Hm Ht Hne Hi. apply (only_at_load _ 8 _ _ _ Hm). intros b Hb Hs. apply Hne.
  unfold handler_slot, armtf_handler, ARM_TF_SHARED_ADDRESS, SIZE_4KB, SHARED_ADDRESS in *.
  unfold aligned in Ht. pose proof (Z.div_mod t 4096 ltac:(lia)). lia.
Qed.
Lemma kept_input e e' : kept e e' -> input_size e' = input_size e /\ root_table e' = root_table e.
Proof. intros [_ _ H1 H2 _]. unfold input_size, root_table. by rewrite H1, H2. Qed.

Lemma tables_page tab e e' r t i : kept e e' -> tables_in tab e -> tab r t -> 0 <= i < 512 ->
  load64 (e_mem e') (t + 8 * i) = load64 (e_mem e) (t + 8 * i).
Proof.
  intros K H Ht Hi. apply page_aside; [apply K|by eapply tok_page; [apply H|]| |done].
  intros ->. by apply (ti_aside _ _ H) in Ht.
Qed.
Lemma tables_in_kept tab e e' : kept e e' -> tables_in tab e -> tables_in tab e'.
Proof.
  intros K H. destruct (kept_input _ _ K) as [E1 E2]. constructor; rewrite ?E1, ?E2; try apply H.
  - eapply tables_ok_ext; [|apply H]. intros r t i. by apply tables_page.
  - rewrite (kept_tcr _ _ K). apply H.
Qed.

Lemma tables_room_kept n e e' : kept e e' -> tables_room n e -> tables_room n e'.
Proof.
  intros K (tab & P & k & Hk & [H Hfp (Ha & H0 & Hmax & Hp) Hb Har]).
  destruct (kept_input _ _ K) as [E1 _].
  exists tab, P, k. rewrite E1. split; [done|]. pose proof (kept_free_pa _ _ K) as Ef.
  constructor; rewrite ?Ef; [by eapply tables_in_kept|done| |done|done].
  split; [done|]. split; [done|]. split; [done|]. intros j Hj.
  destruct (Hp j Hj) as [Hnt Hz]. split; [done|]. intros i Hi.
  rewrite (page_aside _ i (e_mem e)); [by apply Hz|apply K| |lia|done].
  unfold aligned in *. by rewrite Z.add_mod, Ha, (Z.mul_comm 4096), Z.mod_mul by lia.
Qed.
Lemma tables_map_kept va pa attr e e' : kept e e' -> tables_map va pa attr e ->
  tables_map va pa attr e'.
Proof.
  intros K (tab & a & H & Hs & Hl). destruct (kept_input _ _ K) as [E1 E2].
  destruct (top_range (input_size e) (ti_size _ _ H)) as [_ Hnb]. exists tab, a. rewrite E1, E2.
  split; [by eapply tables_in_kept|]. split.
  - rewrite (mmu_slot_ext tab (e_mem e)); try apply H; try done.
    intros r t i. by apply tables_page.
  - destruct (mmu_slot_leaf tab (e_mem e) _ _ _ _ _ (ti_ok _ _ H) (ti_root _ _ H) Hnb Hs)
      as (t & i & Ht & Hi & ->).
    by rewrite (tables_page tab e e' 0%nat) by done.
Qed.

(** A run of the service that maps pages. *)
Lemma room_after tab tab' P c k va pa attr a e s0 : room_in tab P (c + k) e ->
  run (top e) (root_table e) (top_bits (input_size e)) (eq a) tab tab' c k e s0 ->
  mmu_slot (e_mem s0) (top e) (root_table e) (top_bits (input_size e)) va = Some a ->
  load64 (e_mem s0) a = page_desc pa attr ->
  room_in tab' P k s0 /\ tables_map va pa attr s0 /\ only_at table_area (e_mem e) (e_mem s0).
Proof.
  intros [H Hfp Hp Hb Ha] [G _ _] Hs Hl. pose proof (gr_free _ _ _ _ _ _ _ G) as F.
  destruct (gr_quiet _ _ _ _ _ _ _ G) as (Q & _).
  assert (input_size s0 = input_size e /\ root_table s0 = root_table e) as [E1 E2]
    by (unfold input_size, root_table; by rewrite Q).
  assert (forall b, in_tables tab' b -> table_area b) as Ha'.
  { intros b (q & x & Hx & Hbx). apply Ha.
    destruct (gr_new _ _ _ _ _ _ _ G _ _ Hx) as [?|Hr]; [left; by exists q, x|right].
    destruct (tok_page _ _ (gr_ok _ _ _ _ _ _ _ G) _ _ Hx) as [Hxa _].
    destruct Hp as (Hfa & _). unfold aligned in *.
    pose proof (Z.div_mod x 4096 ltac:(lia)). pose proof (Z.div_mod (e_free_pa e) 4096 ltac:(lia)).
    lia. }
  assert (tables_in tab' s0) as H'.
  { constructor; rewrite ?E1, ?E2.
    - apply G.
    - apply (gr_sub _ _ _ _ _ _ _ G), H.
    - intros r Hr. destruct (gr_new _ _ _ _ _ _ _ G _ _ Hr) as [Hr'|?]; [|lia].
      by apply (ti_aside _ _ H) in Hr'.
    - rewrite Q. apply H.
    - apply H. }
  split; [|split; [exists tab', a; by rewrite E1, E2|]].
  - constructor; [done|lia|apply G|rewrite F; by eapply pool_in_block_sub; [exact Hb|lia]|].
    intros b [?|Hr]; [by apply Ha'|]. apply Ha. right. lia.
  - eapply only_at_mono; [|apply G]. exact Ha'.
Qed.

Lemma add_mmu_run n va pa attr e : tables_room (S n) e ->
  0 <= pa < 2 ^ 64 -> 0 <= attr < 2 ^ 64 ->
  wp (add_mmu_entry (S fuel) va pa attr) (fun _ e' =>
    tables_room n e' /\ tables_map va pa attr e' /\ quiet_run e e' /\
    only_at table_area (e_mem e) (e_mem e')) e.
Proof.
  intros (tab & P & k & Hk & Hrm) Hpa Hattr. pose proof Hrm as [H Hfp Hp Hb Ha].
  destruct (top_range (input_size e) (ti_size _ _ H)) as [HR _].
  set (mv := missing_tables e va). set (mp := missing_tables e (e_free_pa e)).
  assert (mv <= top e /\ mp <= top e)%nat as [Hmv Hmp] by (split; apply missing_le).
  assert (block (e_free_pa e) = P) as EP by (apply Hb; lia).
  eapply wp_mono; [|apply (call_enough (e_sys e) (ti_granule _ _ H) (ti_size _ _ H) P fuel tab va pa
    attr (mv + mp) k e)]; try done; [|by split; [apply H|split; [apply H|]]|lia|].
  2:{ right. rewrite <- (pool_lacks_block _ _ _ P _ (e_free_pa e)) by done. unfold mv, mp in *.
      change (missing _ _ _ _ (e_free_pa e)) with (missing_tables e (e_free_pa e)).
      change (missing _ _ _ _ va) with (missing_tables e va). lia. }
  intros [] e' (a & s0 & (c & k' & tab' & -> & Hc & Hs & Hl & Hrun) & ->).
  destruct (room_after _ _ _ _ _ _ _ _ _ _ _ Hrm Hrun Hs Hl) as (R1 & R2 & R3).
  destruct (run_grows _ _ _ _ _ _ _ _ _ _ Hrun) as [_ _ _ _ _ _ _ _ Q].
  split; [|split; [|by split]].
  2:{ destruct R2 as (tab2 & a2 & [] & ?). exists tab2, a2. by split. }
  exists tab', P, k'. split; [|by destruct R1 as [[]]].
  change (input_size (add_ev (EvCleanInv a) s0)) with (input_size s0).
  assert (input_size s0 = input_size e) as -> by (unfold input_size; by rewrite (proj1 Q)).
  lia.
Qed.

Lemma tables_emit n va pa attr ev e : tables_room n e -> tables_map va pa attr e ->
  tables_room n (add_ev ev e) /\ tables_map va pa attr (add_ev ev e).
Proof.
  intros Hr Hm. assert (kept e (add_ev ev e)) by done.
  split; [by eapply tables_room_kept|by eapply tables_map_kept].
Qed.

Lemma tables_service n va pa attr e : tables_room (S n) e ->
  0 <= va < 2 ^ 64 -> 0 <= pa < 2 ^ 64 -> 0 <= attr < 2 ^ 64 ->
  wp (val_add_mmu_entry_el3 vec (S fuel) va pa attr) (fun _ e' =>
    tables_room n e' /\ tables_map va pa attr e' /\ quiet_run e e' /\
    only_at table_area (e_mem e) (e_mem e')) e.
Proof.
  intros Hr Hva Hpa Hattr.
  change (wp (add_mmu_entry (S fuel) (u64 va) (u64 pa) (u64 attr) ;; emit (EvTlbiVae3 (u64 va)))
    (fun _ e' => tables_room n e' /\ tables_map va pa attr e' /\ quiet_run e e' /\
       only_at table_area (e_mem e) (e_mem e')) e).
  unfold u64. rewrite !wrap_small by done. apply wp_bind.
  eapply wp_mono; [|by apply (add_mmu_run n)]. intros [] e1 (H1 & H2 & H3 & H4).
  apply wp_modify. destruct (tables_emit _ _ _ _ (EvTlbiVae3 va) _ H1 H2) as [H1' H2']. done.
Qed.

Definition tables_el3map : El3Map D vec (S fuel) := {|
  room := tables_room; mapped := tables_map; area := table_area;
  room_kept := tables_room_kept; mapped_kept := tables_map_kept;
  map_page := tables_service |}.
End tables.
