(* ===== verification/TestPas.v ===== *)
(** * TestPas

    The tests of test_pool/rme/ that access a location from every physical
    address space and compare what the exception handler reports with the space
    the location belongs to: test_rme004.c, 009, 011, 016, 017, 021, 025, 026
    and 029. They run on the state of the test runner and of EL3, whose services
    they reach through the exception handler ([El3Smc]). *)

From Stdlib Require Import ZArith Lia Bool List.
From stdpp Require Import base tactics numbers list gmap option.
From S2P Require Import Prelude Memory El3State El3Pgt El3Handler El3Call El3Smc Pcie TestRun TestModules Da PcieDa.

(** ** Constants (rme_acs_el32.h, rme_acs_common.h) *)
Definition INIT_DATA : Z := 0x11.
Definition NON_SHAREABLE : Z := 0x0.
Definition NUM_PAS : Z := 4.
Definition NUM_MTE_RGN : Z := 3.
Definition NUM_SMEM_REGN : Z := 2.

(** ** The regions of the platform (sys_config.h) *)
Record MEM_REGN_INFO_ENTRY := mk_regn { base_addr : Z; regn_size : Z; resourse_pas : Z }.
Record MEM_REGN_INFO_TABLE := mk_regns {
  num_of_regn_gpc : Z; num_of_regn_pas_filter : Z; regn_info : list MEM_REGN_INFO_ENTRY
}.

(** The tables of sys_config.c, with the values of platform_overrride_fvp.h. A
    member no initialiser names is zero. *)
Definition mem_region_cfg : MEM_REGN_INFO_TABLE := mk_regns 4 0
  [mk_regn 0xFFC00000 0x300000 2; mk_regn 0xFDC00000 0x2000000 3;
   mk_regn 0xFC000000 0x1C00000 0; mk_regn 0x80000000 0x7C000000 1].
Definition mem_region_pas_filter_cfg : MEM_REGN_INFO_TABLE := mk_regns 0 4
  [mk_regn 0xFFC00000 0x3000000 2; mk_regn 0xFDC00000 0x2000000 3;
   mk_regn 0xFC000000 0x1C00000 0; mk_regn 0x80000000 0x7C00000 1].

(** [for (x : l)] with the variables the body assigns. *)
Fixpoint for_list {S A X} (l : list A) (x : X) (body : A -> X -> M S X) : M S X :=
  match l with
  | [] => ret x
  | a :: l' => let! x' := body a x in for_list l' x' body
  end.

(** Fields of the shared structure the tests assign. *)
Definition set_arg0 (v : Z) (r : struct_sh_data) : struct_sh_data :=
  mk_shared (access_data r) (sh_elr_el3 r) (sh_spsr_el3 r) (exception_expected r)
    (exception_generated r) (sh_access_mut r) (esr_value r) v (sh_arg1 r) (num_access r)
    (pas_filter_flag r) (generic_flag r) (reg_info r) (sh_access r).
Definition set_arg1 (v : Z) (r : struct_sh_data) : struct_sh_data :=
  mk_shared (access_data r) (sh_elr_el3 r) (sh_spsr_el3 r) (exception_expected r)
    (exception_generated r) (sh_access_mut r) (esr_value r) (sh_arg0 r) v (num_access r)
    (pas_filter_flag r) (generic_flag r) (reg_info r) (sh_access r).
Definition set_filter (v : Z) (r : struct_sh_data) : struct_sh_data :=
  mk_shared (access_data r) (sh_elr_el3 r) (sh_spsr_el3 r) (exception_expected r)
    (exception_generated r) (sh_access_mut r) (esr_value r) (sh_arg0 r) (sh_arg1 r)
    (num_access r) v (generic_flag r) (reg_info r) (sh_access r).

Section pas.
Context {W D : Type} {PES : Pes W} {HW : Hw D} {BUS : El3Bus D}.
(** The image, the fuel of EL3 and the value of ID_AA64MMFR0_EL1. *)
Variables (im : el3_image) (fuel : nat) (mmfr0 : Z).
Abbreviation P := (M (lst W D)).

(** ** What the tests do *)

(** A call into EL3 through the SMC of [UserCallSMC]. *)
Definition call (m : E D unit) : P unit := el3_call (smc im m).
Definition map_page_el3 (VA PA attr : Z) : P unit :=
  call (val_add_mmu_entry_el3 (vector_at im) fuel VA PA attr).
Definition access_mut_el3 : P unit := call (val_pe_access_mut_el3 (vector_at im) fuel).
(** Reads and writes of the shared structure. *)
Definition shd {A} (f : struct_sh_data -> A) : P A := gets (fun s => f (e_shared (l_el3 s))).
Definition upd (f : struct_sh_data -> struct_sh_data) : P unit :=
  el3_call (modify (set_shared f)).
Definition shared_access (i : nat) : P shared_data_access :=
  let! l := shd sh_access in use (l !! i).
Definition upd_access (i : nat) (f : shared_data_access -> shared_data_access) : P unit :=
  let! a := shared_access i in
  upd (fun r => set_sh_access (<[i := f a]> (sh_access r)) r).
Definition upd_data (v : Z) (a : shared_data_access) : shared_data_access :=
  mk_access (access_type a) (acc_addr a) v.

Definition free_va (size : Z) : P Z := runner (val_get_free_va size).
Definition min_tg : Z := val_get_min_tg mmfr0.
Definition page_attr : Z :=
  u32 (LOWER_ATTRS (PGT_ENTRY_ACCESS .| SHAREABLE_ATTR NON_SHAREABLE .| PGT_ENTRY_AP_RW)).
Definition attr_for (pas : Z) : Z := page_attr .| LOWER_ATTRS (PAS_ATTR pas).

(** [status_fail_cnt] has 8 bits. *)
Definition report_count (index test_num cnt : Z) : P unit :=
  if 1 <=? cnt then runner (val_set_status index (RESULT_FAIL test_num 1))
  else runner (val_set_status index (RESULT_PASS test_num 1)).

(** An access to [VA] that must not fault. *)
Definition own_access (VA : Z) : P bool :=
  upd (set_exc_expected CLEAR) ;; upd (set_access_mut SET) ;; upd (set_arg1 VA) ;;
  access_mut_el3 ;;
  let! g := shd exception_generated in
  ret (g =? SET).
(** An access to [VA] that must fault: the store of [acs_str]. *)
Definition other_access (VA : Z) : P bool :=
  upd (set_exc_expected SET) ;; upd (set_access_mut SET) ;; upd (set_arg1 VA) ;;
  access_mut_el3 ;;
  let! g := shd exception_generated in
  upd (set_exc_generated CLEAR) ;;
  ret (g =? CLEAR).
(** The load of [acs_ldr_pas_filter]; [withdraw] is what the test does with the
    announcement. It counts as a miss when there was no fault and the data of
    the first entry changed. *)
Definition filter_access (withdraw : P unit) (VA : Z) : P bool :=
  upd (set_exc_expected SET) ;; upd (set_access_mut SET) ;; upd (set_filter SET) ;;
  upd (set_arg1 VA) ;;
  access_mut_el3 ;;
  let! a := shared_access 0 in
  let rd_data := acc_data a in
  upd (set_filter CLEAR) ;;
  withdraw ;;
  let! g := shd exception_generated in
  upd (set_exc_generated CLEAR) ;;
  ret ((g =? CLEAR) && negb (rd_data =? INIT_DATA)).
Definition count (cnt : Z) (miss : bool) : Z := if miss then u8 (cnt + 1) else cnt.

(** ** Regions behind the granule protection check and the PAS filters *)

(** The loop of tests 4 and 11 over the regions and the PAS list. *)
Definition region_loop (own other : Z -> P bool) (cfg : MEM_REGN_INFO_TABLE)
    (pas_list : list Z) (num_regn : Z) (x : Z * Z) : P (Z * Z) :=
  for_list (zseq 0 num_regn) x (fun regn_cnt x =>
    let! r := use (regn_info cfg !! Z.to_nat regn_cnt) in
    upd (set_arg0 (base_addr r)) ;;
    let security_state := u32 (resourse_pas r) in
    for_list pas_list x (fun pas x =>
      let '(cnt, VA) := x in
      upd (set_arg1 pas) ;;
      let! a0 := shd sh_arg0 in
      let! a1 := shd sh_arg1 in
      map_page_el3 VA a0 (attr_for a1) ;;
      let! miss := if security_state =? pas then own VA else other VA in
      ret (count cnt miss, u64 (VA + min_tg)))).

Definition rme004_payload (cfg : MEM_REGN_INFO_TABLE) : P unit :=
  let! index := runner my_index in
  let num_regn := num_of_regn_gpc cfg in
  let! VA := free_va (u64 (u32 (num_regn * NUM_PAS) * min_tg)) in
  let! '(cnt, _) := region_loop own_access other_access cfg
    [REALM_PAS; NONSECURE_PAS; SECURE_PAS; ROOT_PAS] num_regn (0, VA) in
  report_count index (ACS_RME_TEST_NUM_BASE + 4) cnt.

(** Test 11 also masks the interrupts of its PE. *)
Definition rme011_payload (cfg : MEM_REGN_INFO_TABLE) : P unit :=
  let! index := runner my_index in
  upd_access 0 (upd_data INIT_DATA) ;;
  let num_regn := num_of_regn_pas_filter cfg in
  let! VA := free_va (u64 (u32 (num_regn * NUM_PAS) * min_tg)) in
  let! '(cnt, _) := region_loop own_access (filter_access (upd (set_exc_expected CLEAR)))
    cfg [ROOT_PAS; REALM_PAS; SECURE_PAS; NONSECURE_PAS] num_regn (0, VA) in
  report_count index (ACS_RME_TEST_NUM_BASE + 11) cnt.

(** Test 29 when the mode of the PAS filter is programmable. The number of
    regions is that of the other table. *)
Definition rme029_payload (IS_PAS_FILTER_MODE_PROGRAMMABLE : bool)
    (cfg : MEM_REGN_INFO_TABLE) : P unit :=
  let! index := runner my_index in
  if negb IS_PAS_FILTER_MODE_PROGRAMMABLE then
    runner (val_set_status index (RESULT_SKIP (ACS_RME_TEST_NUM_BASE + 29) 1)) else
  call (val_pas_filter_active_mode_el3 (vector_at im) fuel CLEAR) ;;
  upd_access 0 (upd_data INIT_DATA) ;;
  let num_regn := num_of_regn_gpc cfg in
  let! VA := free_va (u64 (num_regn * min_tg)) in
  let! '(cnt, _) := for_list (zseq 0 num_regn) (0, VA) (fun regn_cnt x =>
    let '(cnt, VA) := x in
    let! r := use (regn_info cfg !! Z.to_nat regn_cnt) in
    upd (set_arg0 (base_addr r)) ;;
    let security_state := u32 (resourse_pas r) in
    let! a0 := shd sh_arg0 in
    map_page_el3 VA a0 (attr_for security_state) ;;
    upd (set_exc_expected CLEAR) ;; upd (set_access_mut SET) ;; upd (set_filter SET) ;;
    upd (set_arg1 VA) ;;
    access_mut_el3 ;;
    let! a := shared_access 0 in
    upd (set_filter CLEAR) ;;
    ret (count cnt (negb (acc_data a =? INIT_DATA)), u64 (VA + min_tg))) in
  report_count index (ACS_RME_TEST_NUM_BASE + 29) cnt.

(** ** Locations of one PAS *)

(** The loop of tests 16, 17, 25 and 26 over the PAS list; [offsets] are the
    accesses made through each mapping. *)
Definition location_loop (security_state PA : Z) (offsets pas_list : list Z) (x : Z * Z)
    : P (Z * Z) :=
  for_list pas_list x (fun pas x =>
    let '(cnt, VA) := x in
    map_page_el3 VA PA (attr_for pas) ;;
    let! cnt := for_list offsets cnt (fun off cnt =>
      let! miss := if security_state =? pas then own_access (u64 (VA + off))
                   else filter_access (ret tt) (u64 (VA + off)) in
      ret (count cnt miss)) in
    ret (cnt, u64 (VA + min_tg))).
Definition location_payload (test_num security_state PA va_size : Z) (offsets pas_list : list Z)
    : P unit :=
  let! index := runner my_index in
  upd_access 0 (upd_data INIT_DATA) ;;
  let! VA := free_va va_size in
  let! '(cnt, _) := location_loop security_state PA offsets pas_list (0, VA) in
  report_count index test_num cnt.

Definition rme016_payload (ROOT_SMEM_BASE : Z) : P unit :=
  location_payload (ACS_RME_TEST_NUM_BASE + 16) ROOT_PAS ROOT_SMEM_BASE
    (u64 (NUM_PAS * NUM_SMEM_REGN * min_tg)) [0; min_tg - 8]
    [ROOT_PAS; REALM_PAS; NONSECURE_PAS; SECURE_PAS].
Definition rme017_payload (REALM_SMEM_BASE : Z) : P unit :=
  location_payload (ACS_RME_TEST_NUM_BASE + 17) REALM_PAS REALM_SMEM_BASE
    (u64 (NUM_PAS * NUM_SMEM_REGN * min_tg)) [0; min_tg - 8]
    [REALM_PAS; NONSECURE_PAS; SECURE_PAS; ROOT_PAS].
Definition rme025_payload (MSD_SAVE_RESTORE_MEM : Z) : P unit :=
  location_payload (ACS_RME_TEST_NUM_BASE + 25) ROOT_PAS MSD_SAVE_RESTORE_MEM
    (u64 (NUM_PAS * min_tg)) [0] [ROOT_PAS; REALM_PAS; NONSECURE_PAS; SECURE_PAS].
Definition rme026_payload (RME_RNVS_MAILBOX_MEM : Z) : P unit :=
  location_payload (ACS_RME_TEST_NUM_BASE + 26) ROOT_PAS RME_RNVS_MAILBOX_MEM
    (u64 (NUM_PAS * min_tg)) [0] [ROOT_PAS; REALM_PAS; NONSECURE_PAS; SECURE_PAS].

(** Test 9 visits three addresses of the MTE carve-out with each PAS. Its
    counter is not initialised. *)
Definition count_from (cnt : option Z) (miss : bool) : P (option Z) :=
  if miss then let! c := use cnt in ret (Some (u8 (c + 1))) else ret cnt.
Definition rme009_payload (BASE MID END : Z) : P unit :=
  let! index := runner my_index in
  let! VA := free_va (u64 (NUM_MTE_RGN * NUM_PAS * min_tg)) in
  let! '(cnt, _) := for_list [REALM_PAS; NONSECURE_PAS; SECURE_PAS; ROOT_PAS] (None, VA)
    (fun pas x => for_list [BASE; MID; END] x (fun PA x =>
      let '(cnt, VA) := x in
      map_page_el3 VA PA (attr_for pas) ;;
      let! miss := if pas =? ROOT_PAS then own_access VA else other_access VA in
      let! cnt := count_from cnt miss in
      ret (cnt, u64 (VA + min_tg)))) in
  let! cnt := use cnt in
  report_count index (ACS_RME_TEST_NUM_BASE + 9) cnt.

(** Test 21 changes the GPT entry of a page between two accesses. *)
Definition rme021_payload : P unit :=
  let! index := runner my_index in
  let! PA := runner (val_get_free_pa min_tg min_tg) in
  let! VA := free_va min_tg in
  call (val_add_gpt_entry_el3 (vector_at im) fuel PA GPT_SECURE) ;;
  map_page_el3 VA PA (attr_for SECURE_PAS) ;;
  upd (set_num_access 1) ;;
  upd_access 0 (fun a => mk_access READ_DATA VA (acc_data a)) ;;
  access_mut_el3 ;;
  call (val_add_gpt_entry_el3 (vector_at im) fuel PA GPT_NONSECURE) ;;
  upd (set_exc_expected SET) ;; upd (set_access_mut SET) ;; upd (set_arg1 VA) ;;
  access_mut_el3 ;;
  let! g := shd exception_generated in
  if g =? CLEAR then
    runner (val_set_status index (RESULT_FAIL (ACS_RME_TEST_NUM_BASE + 21) 1))
  else
    runner (val_set_status index (RESULT_PASS (ACS_RME_TEST_NUM_BASE + 21) 1)) ;;
    upd (set_exc_generated CLEAR).
(** The entry function of each test: [val_run_test_payload] for one PE runs
    the payload and returns. *)
Section entry.
Variables (g_skip_test_num : list Z) (g_single_test g_single_module : Z).
Definition rme_entry (test_num : Z) (payload : P unit) : P Z :=
  let num_pe := 1 in
  let! status := runner (val_initialize_test g_skip_test_num g_single_test g_single_module
                           test_num num_pe) in
  (when negb (status =? ACS_STATUS_SKIP) then (let! _my := runner my_index in payload)) ;;
  let! status := runner (val_check_for_error num_pe) in
  runner (val_report_status 0 (RME_ACS_END test_num)) ;;
  ret status.

Definition rme004_entry (cfg : MEM_REGN_INFO_TABLE) : P Z :=
  rme_entry (ACS_RME_TEST_NUM_BASE + 4) (rme004_payload cfg).
Definition rme009_entry (BASE MID END : Z) : P Z :=
  rme_entry (ACS_RME_TEST_NUM_BASE + 9) (rme009_payload BASE MID END).
Definition rme011_entry (cfg : MEM_REGN_INFO_TABLE) : P Z :=
  rme_entry (ACS_RME_TEST_NUM_BASE + 11) (rme011_payload cfg).
Definition rme016_entry (ROOT_SMEM_BASE : Z) : P Z :=
  rme_entry (ACS_RME_TEST_NUM_BASE + 16) (rme016_payload ROOT_SMEM_BASE).
Definition rme017_entry (REALM_SMEM_BASE : Z) : P Z :=
  rme_entry (ACS_RME_TEST_NUM_BASE + 17) (rme017_payload REALM_SMEM_BASE).
Definition rme021_entry : P Z := rme_entry (ACS_RME_TEST_NUM_BASE + 21) rme021_payload.
Definition rme025_entry (MSD_SAVE_RESTORE_MEM : Z) : P Z :=
  rme_entry (ACS_RME_TEST_NUM_BASE + 25) (rme025_payload MSD_SAVE_RESTORE_MEM).
Definition rme026_entry (RME_RNVS_MAILBOX_MEM : Z) : P Z :=
  rme_entry (ACS_RME_TEST_NUM_BASE + 26) (rme026_payload RME_RNVS_MAILBOX_MEM).
Definition rme029_entry (IS_PAS_FILTER_MODE_PROGRAMMABLE : bool) (cfg : MEM_REGN_INFO_TABLE) : P Z :=
  rme_entry (ACS_RME_TEST_NUM_BASE + 29) (rme029_payload IS_PAS_FILTER_MODE_PROGRAMMABLE cfg).
End entry.
End pas.
