(* ===== verification/TestPasSpec.v ===== *)
(** * TestPasSpec

    What the tests of [TestPas] establish about the granule protection check and
    the PAS filters, against the interface [El3Map] of the page mappings and an
    oracle of the protection. *)

From Stdlib Require Import ZArith Lia Bool List.
From stdpp Require Import base tactics numbers list gmap option.
From S2P Require Import Prelude Memory El3State El3Mmu El3Common El3Handler El3Spec El3Call El3Smc El3Map Pcie TestRun TestRunSpec TestModules Da PcieDa TestPas.

(** ** Runs with a verdict

    [runs m s v Q]: [m] ends in a state [Q] allows, which depends on the verdict;
    without a verdict the run of the program is lost. *)
Definition runs {S A V} (m : M S A) (s : S) (v : option V) (Q : V -> A -> S -> Prop) : Prop :=
  match v with None => m s = Undef | Some x => wp m (Q x) s end.

Fixpoint foldM {Y A} (step : Y -> A -> option Y) (y : Y) (l : list A) : option Y :=
  match l with
  | [] => Some y
  | a :: l' => match step y a with None => None | Some y' => foldM step y' l' end
  end.

Section runs.
Context {S : Type}.

Lemma runs_bind {A B V V'} (m : M S A) (f : A -> M S B) s (v : option V) (g : V -> option V') Q R :
  runs m s v Q -> (forall x a s', Q x a s' -> runs (f a) s' (g x) R) ->
  runs (bind m f) s (match v with None => None | Some x => g x end) R.
Proof.
  unfold runs, bind, wp. intros H1 H2. destruct v as [x|]; [|by rewrite H1].
  destruct (m s) as [a s'| |]; [|done..]. specialize (H2 x a s' H1). by destruct (g x).
Qed.
Lemma runs_wp {A B V} (m : M S A) (f : A -> M S B) s (v : option V) P Q :
  wp m P s -> (forall a s', P a s' -> runs (f a) s' v Q) -> runs (bind m f) s v Q.
Proof.
  intros H1 H2. apply (runs_bind m f s (Some tt) (fun _ => v) (fun _ => P) Q H1). auto.
Qed.
Lemma runs_undef {A B V} (m : M S A) (f : A -> M S B) s (Q : V -> B -> S -> Prop) :
  m s = Undef -> runs (bind m f) s None Q.
Proof. unfold runs, bind. by intros ->. Qed.
Lemma runs_mono {A V} (m : M S A) s (v : option V) (P Q : V -> A -> S -> Prop) :
  (forall x a s', P x a s' -> Q x a s') -> runs m s v P -> runs m s v Q.
Proof. unfold runs. destruct v; [|done]. intros H. apply wp_mono, H. Qed.

(** The loop of the tests against the fold of the verdicts; [I k] holds with [k]
    turns to go. *)
Lemma runs_for_list {A X Y} (I : nat -> Y -> X -> S -> Prop) (step : Y -> A -> option Y)
    (body : A -> X -> M S X) l y x s :
  (forall k a y x s, a ∈ l -> I (Datatypes.S k) y x s -> runs (body a x) s (step y a) (I k)) ->
  I (length l) y x s -> runs (for_list l x body) s (foldM step y l) (I 0%nat).
Proof.
  revert y x s. induction l as [|a l IH]; intros y x s Hb HI; cbn [for_list foldM]; [done|].
  apply (runs_bind _ _ _ _ (fun y' => foldM step y' l) (I (length l))).
  - apply Hb; [apply list.elem_of_cons; by left|done].
  - intros y' x' s' H. apply IH; [|done]. intros k b y1 x1 s1 Hin. apply Hb.
    apply list.elem_of_cons. by right.
Qed.
End runs.

(** A loop over the indices of an array. *)
Lemma for_list_index {S A X} (l : list A) n (x : X) (body : A -> X -> M S X) s :
  0 <= n <= Z.of_nat (length l) ->
  for_list (zseq 0 n) x (fun i x => let! a := use (l !! Z.to_nat i) in body a x) s =
  for_list (take (Z.to_nat n) l) x body s.
Proof.
  intros Hn. unfold zseq. rewrite Z.sub_0_r.
  assert (forall k j x s, (j + k <= length l)%nat ->
    for_list (map (fun k => 0 + Z.of_nat k) (seq j k)) x
      (fun i x => let! a := use (l !! Z.to_nat i) in body a x) s =
    for_list (take k (drop j l)) x body s) as H.
  { induction k as [|k IH]; intros j y t Hk; [done|].
    destruct (lookup_lt_is_Some_2 l j) as [a Ha]; [lia|].
    rewrite (drop_S _ _ _ Ha). cbn [seq map for_list take].
    replace (Z.to_nat (0 + Z.of_nat j)) with j by lia. rewrite Ha. cbn [use].
    unfold bind, ret. destruct (body a y t); [|done..]. apply IH. lia. }
  by rewrite H by lia.
Qed.

(** ** The protection *)

(** The PAS in the descriptor of a mapping. *)
Definition desc_pas (attr : Z) : Z := 2 * b2z (Z.testbit attr 11) + b2z (Z.testbit attr 5).
Definition is_pas (pas : Z) : Prop := pas ∈ [SECURE_PAS; NONSECURE_PAS; ROOT_PAS; REALM_PAS].

Lemma attr_for_pas pas : is_pas pas -> desc_pas (attr_for pas) = pas /\ 0 <= attr_for pas < 2 ^ 64.
Proof.
  intros H. repeat (apply list.elem_of_cons in H as [->|H]; [by vm_compute|]).
  by apply list.elem_of_nil in H.
Qed.

(** The states a test goes through from [e0]: the configuration of the granule
    protection and of the translation as it was, memory changed at most where EL3
    keeps its tables and the word of the handler's address. *)
Section like.
Context {D : Type} {HW : Hw D} {vec : Z} {fuel : nat} {MAP : El3Map D vec fuel}.
Record like (e0 e : el3 D) : Prop := {
  like_controls : controls (e_sys e) = controls (e_sys e0);
  like_ttbr : ttbr_el3 (e_sys e) = ttbr_el3 (e_sys e0);
  like_tcr : tcr_el3 (e_sys e) = tcr_el3 (e_sys e0);
  like_mem : only_at (fun b => handler_slot b \/ area b) (e_mem e0) (e_mem e)
}.
Lemma like_refl e : like e e.
Proof. by constructor. Qed.
Lemma like_kept e0 e e' : like e0 e -> kept e e' -> like e0 e'.
Proof.
  intros [A1 A2 A3 A4] K. constructor.
  - by rewrite (kept_controls _ _ K).
  - by rewrite (kept_ttbr _ _ K).
  - by rewrite (kept_tcr _ _ K).
  - etrans; [exact A4|]. eapply only_at_mono; [|apply K]. by left.
Qed.
Lemma like_mapping e0 e e' : like e0 e -> quiet_run e e' -> only_at area (e_mem e) (e_mem e') ->
  like e0 e'.
Proof.
  intros [A1 A2 A3 A4] (Q & _) H. constructor; rewrite ?Q; try done.
  etrans; [exact A4|]. eapply only_at_mono; [|exact H]. by right.
Qed.
End like.

(** Where a test stands between two accesses: nothing announced, or a fault
    announced that did not come. *)
Inductive phase := Ready | Armed.
Definition announced (ph : phase) : Z := match ph with Ready => CLEAR | Armed => SET end.

Section tests.
Context {W D : Type} {PES : Pes W} {HW : Hw D} {BUS : El3Bus D}.
Context (im : el3_image) (fuel : nat) (mmfr0 : Z).
Context {MAP : El3Map D (vector_at im) fuel}.
(** [denies pa pas]: with the protection as configured in [e0], an access to the
    physical address through a mapping of the PAS takes a granule protection fault,
    and no other access of such a page faults. *)
Context (denies : Z -> Z -> bool) (e0 : el3 D).
Hypothesis gpc : forall write va off pa pas e, is_pas pas -> like e0 e ->
  mapped va pa (attr_for pas) e -> 0 <= off -> va mod 4096 + off < 4096 ->
  el3_fault write e (va + off) =
  if denies pa pas then Some (if write then GPF_ESR_WRITE else GPF_ESR_READ) else None.
Hypothesis return_range : 0 <= smc_return im < 2 ^ 64.
(** The runner, the word that survives a reset, the array of accesses. *)
Context (r : tst W) (nv : Z) (l : list shared_data_access).
Hypothesis some_access : l <> [].

(** The shared structure between two accesses. *)
Record settled_in (ph : phase) (a0 : Z) (x : struct_sh_data) : Prop := {
  si_mut : sh_access_mut x = CLEAR;
  si_expected : exception_expected x = announced ph;
  si_generated : exception_generated x = CLEAR;
  si_filter : pas_filter_flag x = CLEAR;
  si_access : sh_access x = l;
  si_arg0 : sh_arg0 x = a0
}.
Record at_ (ph : phase) (n : nat) (a0 : Z) (s : lst W D) : Prop := {
  at_run : l_run s = r;
  at_nvm : l_nvm s = nv;
  at_vbar : vbar_el3 (e_sys (l_el3 s)) = vector_at im;
  at_room : room n (l_el3 s);
  at_like : like e0 (l_el3 s);
  at_shared : settled_in ph a0 (e_shared (l_el3 s))
}.
Lemma at_after ph ph' n a0 a1 s e : at_ ph n a0 s -> kept (l_el3 s) e ->
  settled_in ph' a1 (e_shared e) -> at_ ph' n a1 (mk_lst (l_run s) e (l_nvm s)).
Proof.
  intros [H1 H2 H3 H4 H5 H6] K H. constructor; try done; cbn [l_el3].
  - by rewrite (kept_vbar _ _ K).
  - by eapply room_kept.
  - by eapply like_kept.
Qed.

Lemma shared_kept f (e : el3 D) : kept e (set_shared f e).
Proof. by constructor. Qed.

Lemma wp_el3_call (m : E D unit) (Q : unit -> lst W D -> Prop) s :
  wp m (fun _ e => Q tt (mk_lst (l_run s) e (l_nvm s))) (l_el3 s) -> wp (el3_call m) Q s.
Proof. intros H. apply wp_zoom. eapply wp_mono; [|exact H]. by intros []. Qed.
Lemma el3_call_undef (m : E D unit) (s : lst W D) : m (l_el3 s) = Undef -> el3_call m s = Undef.
Proof. unfold el3_call, zoom. by intros ->. Qed.

(** Mapping a page; with a fault still announced the call is lost. *)
Lemma map_runs ph n a0 VA PA attr s : at_ ph (S n) a0 s ->
  0 <= VA < 2 ^ 64 -> 0 <= PA < 2 ^ 64 -> 0 <= attr < 2 ^ 64 ->
  runs (map_page_el3 im fuel VA PA attr) s (match ph with Ready => Some tt | Armed => None end)
    (fun _ _ s' => at_ Ready n a0 s' /\ mapped VA PA attr (l_el3 s')).
Proof.
  intros [Hr Hn Hv Hroom Hlike [X1 X2 X3 X4 X5 X6]] HVA HPA Hattr.
  unfold map_page_el3, call. destruct ph; cbn [runs announced] in *.
  - apply wp_el3_call, smc_idle; [by split; rewrite ?X1, ?X2|].
    intros e1 K Hs Hd. eapply wp_mono; [|apply (map_page n); try done; by eapply room_kept].
    intros [] e' (Hroom' & Hmap & (Q1 & Q2 & Q3) & Hon). split; [|done].
    constructor; try done; cbn [l_el3].
    + by rewrite Q1, (kept_vbar _ _ K).
    + eapply like_mapping; [by eapply like_kept|done|done].
    + by rewrite Q2, Hs.
  - by apply el3_call_undef, smc_lost.
Qed.

(** Accesses. The stores before a request change the shared structure only. *)
Abbreviation accessed VA PA pas n a0 := (fun ph' miss s' =>
  at_ ph' n a0 s' /\ mapped VA PA (attr_for pas) (l_el3 s')).

Section access.
Variables (ph : phase) (n : nat) (a0 VA off PA pas : Z) (s : lst W D).
Hypothesis Hat : at_ ph n a0 s.
Hypothesis Hpas : is_pas pas.
Hypothesis Hmap : mapped VA PA (attr_for pas) (l_el3 s).
Hypothesis Hoff : 0 <= off /\ VA mod 4096 + off < 4096.

Lemma access_fault write e : kept (l_el3 s) e ->
  el3_fault write e (VA + off) =
  if denies PA pas then Some (if write then GPF_ESR_WRITE else GPF_ESR_READ) else None.
Proof.
  intros K. apply gpc; try apply Hoff; [done| |by eapply mapped_kept].
  eapply like_kept; [apply Hat|done].
Qed.

Lemma own_runs :
  runs (own_access im fuel (VA + off)) s (if denies PA pas then None else Some Ready)
    (fun ph' miss s' => miss = false /\ at_ ph' n a0 s' /\ mapped VA PA (attr_for pas) (l_el3 s')).
Proof.
  pose proof (at_shared _ _ _ _ Hat) as [X1 X2 X3 X4 X5 X6].
  set (e := set_shared (set_arg1 (VA + off)) (set_shared (set_access_mut SET)
             (set_shared (set_exc_expected CLEAR) (l_el3 s)))).
  assert (kept (l_el3 s) e) as K by by constructor.
  assert (plain im e) as Hp.
  { split; [apply Hat|]. split; [done|]. split; [done|]. cbn. by rewrite X4. }
  assert (forall e1, kept e e1 -> el3_fault false e1 (sh_arg1 (e_shared e)) =
    if denies PA pas then Some GPF_ESR_READ else None) as Hf.
  { intros e1 K1. apply access_fault. by etrans. }
  change (runs (access_mut_el3 im fuel ;; let! g := shd exception_generated in ret (g =? SET))
    (mk_lst (l_run s) e (l_nvm s)) (if denies PA pas then None else Some Ready)
    (fun ph' miss s' => miss = false /\ at_ ph' n a0 s' /\ mapped VA PA (attr_for pas) (l_el3 s'))).
  destruct (denies PA pas) eqn:Hden.
  - apply runs_undef, el3_call_undef. by eapply smc_plain_fault.
  - cbn [runs]. apply wp_bind, wp_el3_call.
    eapply wp_mono; [|apply smc_plain; [done|exact Hf]].
    intros [] e' (K' & _ & [Y1 Y2 Y3 Y4 Y5 Y6 Y7]). apply wp_bind, wp_gets, wp_ret. cbn [l_el3].
    assert (kept (l_el3 s) e') as K2 by by etrans.
    split; [rewrite Y1; cbn; by rewrite X3|]. split; [|by eapply mapped_kept].
    apply (at_after ph _ n a0 a0 s); [done|done|].
    exact (Build_settled_in Ready a0 _ Y3 Y2 (eq_trans Y1 X3) (eq_trans Y4 X4) (eq_trans Y7 X5)
             (eq_trans Y6 X6)).
Qed.

(** What an access that may fault leaves, once the report is withdrawn. *)
Definition after_other : phase := if denies PA pas then Ready else Armed.

(** The call of both tests, from the structure they set up. *)
Lemma asked_run flag e : kept (l_el3 s) e -> vbar_el3 (e_sys e) = vector_at im ->
  e_shared e = set_arg1 (VA + off) (set_filter flag (set_access_mut SET
    (set_exc_expected SET (e_shared (l_el3 s))))) ->
  wp (smc im (val_pe_access_mut_el3 (vector_at im) fuel)) (fun _ e' =>
    kept (l_el3 s) e' /\ sh_access_mut (e_shared e') = CLEAR /\
    exception_expected (e_shared e') = announced after_other /\
    exception_generated (e_shared e') = (if denies PA pas then SET else CLEAR) /\
    pas_filter_flag (e_shared e') = flag /\ sh_access (e_shared e') = l /\
    sh_arg0 (e_shared e') = a0) e.
Proof.
  intros K Hv He. pose proof (at_shared _ _ _ _ Hat) as [X1 X2 X3 X4 X5 X6].
  eapply wp_mono; [|eapply (smc_access im _ (if denies PA pas then
    Some (if negb (filtered e) then GPF_ESR_WRITE else GPF_ESR_READ) else None))].
  - intros [] e' (K' & Hout). split; [by etrans|]. unfold after_other, outcome in *.
    rewrite He in Hout. destruct (denies PA pas).
    + destruct Hout as [_ [Y1 Y2 Y3 Y4 Y5 Y6 Y7]]. split; [exact Y3|]. split; [exact Y2|].
      split; [rewrite Y1; by destruct (negb _)|]. split; [exact Y4|].
      split; [exact (eq_trans Y7 X5)|exact (eq_trans Y6 X6)].
    + destruct Hout as [_ [Y1 Y2 Y3 Y4 Y5 Y6 Y7]]. split; [exact Y3|]. split; [exact Y2|].
      split; [exact (eq_trans Y1 X3)|]. split; [exact Y4|].
      split; [exact (eq_trans Y7 X5)|exact (eq_trans Y6 X6)].
  - unfold asked. rewrite He. done.
  - intros _. rewrite He. cbn. by rewrite X5.
  - intros e1 K1. rewrite He. cbn [sh_arg1 set_arg1]. apply access_fault. by etrans.
Qed.

Lemma other_runs :
  runs (other_access im fuel (VA + off)) s (Some after_other)
    (fun ph' miss s' => miss = negb (denies PA pas) /\ at_ ph' n a0 s' /\
       mapped VA PA (attr_for pas) (l_el3 s')).
Proof.
  pose proof (at_shared _ _ _ _ Hat) as [X1 X2 X3 X4 X5 X6].
  set (e := set_shared (set_arg1 (VA + off)) (set_shared (set_access_mut SET)
             (set_shared (set_exc_expected SET) (l_el3 s)))).
  cbn [runs].
  change (wp (access_mut_el3 im fuel ;; let! g := shd exception_generated in
      upd (set_exc_generated CLEAR) ;; ret (g =? CLEAR))
    (fun miss s' => miss = negb (denies PA pas) /\ at_ after_other n a0 s' /\
       mapped VA PA (attr_for pas) (l_el3 s')) (mk_lst (l_run s) e (l_nvm s))).
  apply wp_bind, wp_el3_call. eapply wp_mono; [|apply (asked_run CLEAR)].
  - intros [] e' (K & Y1 & Y2 & Y3 & Y4 & Y5 & Y6).
    apply wp_bind, wp_gets, wp_bind, wp_el3_call, wp_modify, wp_ret. cbn [l_el3].
    split; [rewrite Y3; by destruct (denies PA pas)|].
    assert (kept (l_el3 s) (set_shared (set_exc_generated CLEAR) e')) as K2 by (etrans; [exact K|done]).
    split; [|by eapply mapped_kept]. by apply (at_after ph _ n a0 a0 s).
  - by constructor.
  - apply Hat.
  - unfold e. cbn. rewrite <- X4. by destruct (e_shared (l_el3 s)).
Qed.

(** The first entry still holds the initial data, so the load is no miss
    whether it faulted or not; the announcement stays unless it is withdrawn. *)
Definition withdraw (b : bool) : M (lst W D) unit :=
  if b then upd (set_exc_expected CLEAR) else ret tt.
Definition after_filter (b : bool) : phase := if b then Ready else after_other.
Lemma filter_runs b a l' : l = a :: l' -> acc_data a = INIT_DATA ->
  runs (filter_access im fuel (withdraw b) (VA + off)) s (Some (after_filter b))
    (fun ph' miss s' => miss = false /\ at_ ph' n a0 s' /\ mapped VA PA (attr_for pas) (l_el3 s')).
Proof.
  intros Hl Hdata. pose proof (at_shared _ _ _ _ Hat) as [X1 X2 X3 X4 X5 X6].
  set (e := set_shared (set_arg1 (VA + off)) (set_shared (set_filter SET)
             (set_shared (set_access_mut SET) (set_shared (set_exc_expected SET) (l_el3 s))))).
  set (tail := let! a := shared_access 0 in
    upd (set_filter CLEAR) ;; withdraw b ;;
    let! g := shd exception_generated in
    upd (set_exc_generated CLEAR) ;;
    ret ((g =? CLEAR) && negb (acc_data a =? INIT_DATA))).
  cbn [runs].
  change (wp (access_mut_el3 im fuel ;; tail)
    (fun miss s' => miss = false /\ at_ (after_filter b) n a0 s' /\
       mapped VA PA (attr_for pas) (l_el3 s')) (mk_lst (l_run s) e (l_nvm s))).
  apply wp_bind, wp_el3_call. eapply wp_mono; [|apply (asked_run SET)].
  - intros [] e' (K & Y1 & Y2 & Y3 & Y4 & Y5 & Y6).
    unfold tail, shared_access. apply wp_bind, wp_bind, wp_gets. cbn [l_el3]. rewrite Y5, Hl. cbn [use lookup list_lookup].
    apply wp_ret, wp_bind, wp_el3_call, wp_modify, wp_bind. cbn [l_el3].
    assert (forall e2, kept e' e2 -> e_shared e2 = (if b then set_exc_expected CLEAR else fun x => x)
      (set_filter CLEAR (e_shared e')) ->
      wp (let! g := shd exception_generated in upd (set_exc_generated CLEAR) ;;
          ret ((g =? CLEAR) && negb (acc_data a =? INIT_DATA)))
        (fun miss s' => miss = false /\ at_ (after_filter b) n a0 s' /\
           mapped VA PA (attr_for pas) (l_el3 s')) (mk_lst (l_run s) e2 (l_nvm s))) as Hend.
    { intros e2 K2 He2. apply wp_bind, wp_gets, wp_bind, wp_el3_call, wp_modify, wp_ret. cbn [l_el3].
      rewrite Hdata, Z.eqb_refl, andb_false_r. split; [done|].
      assert (kept (l_el3 s) (set_shared (set_exc_generated CLEAR) e2)) as K3
        by (etrans; [exact K|]; etrans; [exact K2|done]).
      split; [|by eapply mapped_kept]. apply (at_after ph _ n a0 a0 s); [done|done|].
      cbn [e_shared set_shared]. rewrite He2. by destruct b. }
    destruct b; cbn [withdraw].
    + apply wp_el3_call, wp_modify. by apply Hend.
    + apply wp_ret. by apply Hend.
  - by constructor.
  - apply Hat.
  - done.
Qed.
End access.

(** ** The loops over the PAS list and the regions *)

(** What one turn does to the phase and the count: [own] tells the PAS of the
    location, [other] what an access from another PAS leaves. *)
Definition visit (other : Z -> Z -> phase * bool) (own : Z -> bool) (PA : Z) (y : phase * Z)
    (pas : Z) : option (phase * Z) :=
  match fst y with
  | Armed => None
  | Ready =>
      if own pas then if denies PA pas then None else Some (Ready, snd y)
      else Some (fst (other PA pas), count (snd y) (snd (other PA pas)))
  end.
Definition region_visit other (pas_list : list Z) (y : phase * Z) (rg : MEM_REGN_INFO_ENTRY) :=
  foldM (visit other (fun pas => u32 (resourse_pas rg) =? pas) (base_addr rg)) y pas_list.

(** An access from another PAS as the loops use it. *)
Definition visits (other_m : Z -> M (lst W D) bool) (other : Z -> Z -> phase * bool) : Prop :=
  forall ph n a0 VA PA pas s, at_ ph n a0 s -> is_pas pas -> mapped VA PA (attr_for pas) (l_el3 s) ->
  runs (other_m VA) s (Some (fst (other PA pas))) (fun ph' miss s' =>
    miss = snd (other PA pas) /\ at_ ph' n a0 s').

Section regions.
Variables (other_m : Z -> M (lst W D) bool) (other : Z -> Z -> phase * bool) (pas_list : list Z).
Hypothesis Hother : visits other_m other.
Hypothesis Hlist : forall pas, pas ∈ pas_list -> is_pas pas.

Lemma own_visits ph n a0 VA PA pas s : at_ ph n a0 s -> is_pas pas ->
  mapped VA PA (attr_for pas) (l_el3 s) ->
  runs (own_access im fuel VA) s (if denies PA pas then None else Some Ready)
    (fun ph' miss s' => miss = false /\ at_ ph' n a0 s').
Proof.
  intros Hat Hpas Hm. pose proof (Z.mod_pos_bound VA 4096 ltac:(lia)).
  pose proof (own_runs ph n a0 VA 0 PA pas s Hat Hpas Hm ltac:(lia)) as H1.
  rewrite Z.add_0_r in H1. eapply runs_mono; [|exact H1]. by intros ? ? ? (? & ? & _).
Qed.

Definition loop_at (m k : nat) (a0 : Z) (y : phase * Z) (x : Z * Z) (s : lst W D) : Prop :=
  fst x = snd y /\ 0 <= snd x < 2 ^ 64 /\ at_ (fst y) (m + k) a0 s.

Lemma visit_runs rg m k y x s pas : 0 <= base_addr rg < 2 ^ 64 -> is_pas pas ->
  loop_at m (S k) (base_addr rg) y x s ->
  runs (let '(cnt, VA) := x in
      upd (set_arg1 pas) ;;
      let! a0 := shd sh_arg0 in
      let! a1 := shd sh_arg1 in
      map_page_el3 im fuel VA a0 (attr_for a1) ;;
      let! miss := if u32 (resourse_pas rg) =? pas then own_access im fuel VA else other_m VA in
      ret (count cnt miss, u64 (VA + min_tg mmfr0))) s
    (visit other (fun pas => u32 (resourse_pas rg) =? pas) (base_addr rg) y pas)
    (loop_at m k (base_addr rg)).
Proof.
  destruct y as [ph cnt], x as [cnt' VA]. intros Hb Hpas (Hc & HVA & Hat). cbn [fst snd] in *. subst cnt'.
  set (s1 := mk_lst (l_run s) (set_shared (set_arg1 pas) (l_el3 s)) (l_nvm s)).
  assert (at_ ph (S (m + k)) (base_addr rg) s1) as Hat1.
  { replace (S (m + k)) with (m + S k)%nat by lia.
    apply (at_after ph _ _ (base_addr rg)); [done|by constructor|].
    by destruct (at_shared _ _ _ _ Hat) as [? ? ? ? ? ?]. }
  change (runs (map_page_el3 im fuel VA (sh_arg0 (e_shared (l_el3 s))) (attr_for pas) ;;
      let! miss := if u32 (resourse_pas rg) =? pas then own_access im fuel VA else other_m VA in
      ret (count cnt miss, u64 (VA + min_tg mmfr0))) s1
    (visit other (fun pas => u32 (resourse_pas rg) =? pas) (base_addr rg) (ph, cnt) pas)
    (loop_at m k (base_addr rg))).
  rewrite (si_arg0 _ _ _ (at_shared _ _ _ _ Hat)). destruct (attr_for_pas pas Hpas) as [_ Hattr].
  pose proof (map_runs ph (m + k) (base_addr rg) VA (base_addr rg) (attr_for pas) s1 Hat1 HVA Hb Hattr) as Hm.
  destruct ph; cbn [fst snd visit] in *; [|by apply runs_undef].
  eapply runs_wp; [exact Hm|]. intros _ s2 (Hat2 & Hm2). cbn beta.
  assert (forall s' miss ph', at_ ph' (m + k) (base_addr rg) s' ->
    wp (ret (count cnt miss, u64 (VA + min_tg mmfr0)))
      (loop_at m k (base_addr rg) (ph', count cnt miss)) s') as Hend.
  { intros s' miss ph' H. apply wp_ret. split; [done|]. split; [by apply wrap_range|done]. }
  destruct (u32 (resourse_pas rg) =? pas).
  - pose proof (own_visits _ _ _ _ _ _ _ Hat2 Hpas Hm2) as H1.
    destruct (denies (base_addr rg) pas); [by apply runs_undef|].
    eapply runs_wp; [exact H1|]. intros miss s' (-> & H). by apply (Hend s' false).
  - eapply runs_wp; [exact (Hother _ _ _ _ _ _ _ Hat2 Hpas Hm2)|].
    intros miss s' (-> & H). by apply Hend.
Qed.

Definition outer_at (m : nat) (y : phase * Z) (x : Z * Z) (s : lst W D) : Prop :=
  exists a0, loop_at (m * length pas_list) 0 a0 y x s.

Lemma region_runs cfg num VA a0 s : 0 <= num <= Z.of_nat (length (regn_info cfg)) ->
  (forall i rg, regn_info cfg !! i = Some rg -> 0 <= base_addr rg < 2 ^ 64) -> 0 <= VA < 2 ^ 64 ->
  at_ Ready (Z.to_nat num * length pas_list) a0 s ->
  runs (region_loop im fuel mmfr0 (own_access im fuel) other_m cfg pas_list num (0, VA)) s
    (foldM (region_visit other pas_list) (Ready, 0) (take (Z.to_nat num) (regn_info cfg)))
    (outer_at 0).
Proof.
  intros Hn Hcfg HVA Hat. unfold region_loop, runs, wp.
  rewrite (for_list_index (regn_info cfg) num (0, VA) (fun rg x => _)) by done.
  set (regions := take (Z.to_nat num) (regn_info cfg)).
  match goal with |- match ?v with Some _ => match ?m _ with _ => _ end | None => _ end =>
    change (runs m s v (outer_at 0)) end.
  apply (runs_for_list outer_at).
  - intros k rg y x s1 Hrg (a1 & Hc & HV & Hat1).
    apply list.elem_of_take in Hrg as (i & Hi & _). specialize (Hcfg _ _ Hi).
    set (s2 := mk_lst (l_run s1) (set_shared (set_arg0 (base_addr rg)) (l_el3 s1)) (l_nvm s1)).
    assert (loop_at (k * length pas_list) (length pas_list) (base_addr rg) y x s2) as H2.
    { split; [done|]. split; [done|]. rewrite Nat.add_0_r in Hat1.
      replace (k * length pas_list + length pas_list)%nat with (S k * length pas_list)%nat by lia.
      apply (at_after (fst y) _ _ a1); [done|by constructor|].
      by destruct (at_shared _ _ _ _ Hat1) as [? ? ? ? ? ?]. }
    eapply runs_mono; [|apply (runs_for_list (fun j => loop_at (k * length pas_list) j (base_addr rg))
      (visit other (fun pas => u32 (resourse_pas rg) =? pas) (base_addr rg)) _ pas_list y x s2); [|exact H2]].
    + intros y' x' s' H. by exists (base_addr rg).
    + intros j pas y' x' s' Hpas H. apply (visit_runs rg); [done|by apply Hlist|done].
  - exists a0. split; [done|]. split; [done|]. rewrite Nat.add_0_r. unfold regions.
    rewrite length_take. by replace (Z.to_nat num `min` length (regn_info cfg))%nat with (Z.to_nat num) by lia.
Qed.
End regions.
End tests.

(** ** Folds of verdicts *)

Lemma foldM_app {A Y} (step : Y -> A -> option Y) l l' y :
  foldM step y (l ++ l') = match foldM step y l with None => None | Some y' => foldM step y' l' end.
Proof.
  revert y. induction l as [|a l IH]; intros y; cbn [foldM app]; [done|].
  destruct (step y a); [apply IH|done].
Qed.

Section folds.
Context {A : Type}.
Implicit Types (step : phase * Z -> A -> option (phase * Z)).

(** A fold in which a turn goes on quietly where [good] holds, and a turn after
    a missing fault is lost. *)
Lemma fold_sound step (good : A -> Prop) l c y :
  (forall a c y, step (Ready, c) a = Some y -> (y = (Ready, c) /\ good a) \/ y = (Armed, u8 (c + 1))) ->
  (forall a c, step (Armed, c) a = None) ->
  foldM step (Ready, c) l = Some y ->
  (y = (Ready, c) /\ Forall good l) \/ y = (Armed, u8 (c + 1)).
Proof.
  intros H1 H2. induction l as [|a l IH]; cbn [foldM].
  { intros [= <-]. by left. }
  destruct (step (Ready, c) a) as [y1|] eqn:E; [|done].
  destruct (H1 _ _ _ E) as [[-> Hg]| ->]; intros H.
  - destruct (IH H) as [[-> Hl]| ->]; [left; split; [done|by constructor]|by right].
  - destruct l as [|b l]; cbn [foldM] in H; [injection H as <-; by right|]. by rewrite H2 in H.
Qed.
Lemma fold_good step l c : (forall a, a ∈ l -> step (Ready, c) a = Some (Ready, c)) ->
  foldM step (Ready, c) l = Some (Ready, c).
Proof.
  induction l as [|a l IH]; intros H; cbn [foldM]; [done|].
  rewrite H by (apply list.elem_of_cons; by left). apply IH. intros b Hb. apply H.
  apply list.elem_of_cons. by right.
Qed.
End folds.

(** ** The protection the tests are about *)

(** The orders in which tests 4 and 11 take the PASes. *)
Definition all_pas : list Z := [REALM_PAS; NONSECURE_PAS; SECURE_PAS; ROOT_PAS].
Definition pas_order : list Z := [ROOT_PAS; REALM_PAS; SECURE_PAS; NONSECURE_PAS].
Lemma all_is_pas pas : pas ∈ all_pas -> is_pas pas.
Proof. unfold is_pas, all_pas. rewrite !list.elem_of_cons. tauto. Qed.
Lemma order_is_pas pas : pas ∈ pas_order -> is_pas pas.
Proof. unfold is_pas, pas_order. rewrite !list.elem_of_cons. tauto. Qed.

Section protection.
Variable denies : Z -> Z -> bool.
Definition owner (rg : MEM_REGN_INFO_ENTRY) : Z := u32 (resourse_pas rg).
(** Exactly the PAS of the region has access. *)
Definition owned_by (rg : MEM_REGN_INFO_ENTRY) : Prop :=
  forall pas, pas ∈ all_pas -> denies (base_addr rg) pas = negb (owner rg =? pas).

(** Test 4: an access from another PAS must fault. *)
Definition store_other (PA pas : Z) : phase * bool :=
  if denies PA pas then (Ready, false) else (Armed, true).
(** Test 11: it may do either. *)
Definition filter_other (_PA _pas : Z) : phase * bool := (Ready, false).

(** Root, not the owner, has access, and the other PASes are as they should. *)
Definition open_to_root (rg : MEM_REGN_INFO_ENTRY) : Prop :=
  (forall pas, pas ∈ [REALM_PAS; NONSECURE_PAS; SECURE_PAS] ->
     denies (base_addr rg) pas = negb (owner rg =? pas)) /\
  owner rg <> ROOT_PAS /\ denies (base_addr rg) ROOT_PAS = false.

Abbreviation store_region := (region_visit denies store_other all_pas).

(** The PASes one by one. *)
Definition sees (rg : MEM_REGN_INFO_ENTRY) (pas : Z) : bool :=
  Bool.eqb (denies (base_addr rg) pas) (negb (owner rg =? pas)).
Lemma store_visit rg c pas :
  visit denies store_other (fun pas => owner rg =? pas) (base_addr rg) (Ready, c) pas =
  if sees rg pas then Some (Ready, c)
  else if owner rg =? pas then None else Some (Armed, u8 (c + 1)).
Proof.
  unfold visit, store_other, sees. cbn [fst snd].
  by destruct (owner rg =? pas), (denies (base_addr rg) pas).
Qed.
Lemma sees_iff rg l : forallb (sees rg) l = true <->
  forall pas, pas ∈ l -> denies (base_addr rg) pas = negb (owner rg =? pas).
Proof.
  rewrite forallb_forall. unfold sees.
  split; intros H pas Hp; [apply eqb_prop, H, list_elem_of_In, Hp|].
  apply list_elem_of_In in Hp. rewrite H by done. apply eqb_reflx.
Qed.

Lemma store_region_cases rg c : store_region (Ready, c) rg =
  if forallb (sees rg) all_pas then Some (Ready, c)
  else if forallb (sees rg) [REALM_PAS; NONSECURE_PAS; SECURE_PAS] && negb (owner rg =? ROOT_PAS)
  then Some (Armed, u8 (c + 1)) else None.
Proof.
  unfold region_visit. change (fun pas => u32 (resourse_pas rg) =? pas) with (fun pas => owner rg =? pas).
  unfold all_pas. cbn [foldM forallb].
  do 3 (rewrite store_visit; destruct (sees rg _); [|by destruct (owner rg =? _)]).
  rewrite store_visit. destruct (sees rg _); [done|]. by destruct (owner rg =? _).
Qed.
Lemma store_region_exact rg c : owned_by rg -> store_region (Ready, c) rg = Some (Ready, c).
Proof. intros H. by rewrite store_region_cases, (proj2 (sees_iff rg all_pas) H). Qed.
Lemma open_spec rg : open_to_root rg <->
  forallb (sees rg) all_pas = false /\
  forallb (sees rg) [REALM_PAS; NONSECURE_PAS; SECURE_PAS] && negb (owner rg =? ROOT_PAS) = true.
Proof.
  unfold open_to_root. rewrite <- sees_iff, andb_true_iff, negb_true_iff, Z.eqb_neq.
  assert (forallb (sees rg) all_pas =
    forallb (sees rg) [REALM_PAS; NONSECURE_PAS; SECURE_PAS] && sees rg ROOT_PAS) as ->.
  { unfold all_pas. cbn [forallb]. by rewrite !andb_true_r, !andb_assoc. }
  split.
  - intros (H1 & H2 & H3). rewrite H1. split; [|done]. unfold sees. rewrite H3.
    by replace (owner rg =? ROOT_PAS) with false by zbool.
  - intros (H1 & H2 & H3). rewrite H2 in H1. split; [done|]. split; [done|]. revert H1. unfold sees.
    replace (owner rg =? ROOT_PAS) with false by zbool. by destruct (denies _ _).
Qed.
Lemma store_region_last rg c : open_to_root rg -> store_region (Ready, c) rg = Some (Armed, u8 (c + 1)).
Proof. intros [H1 H2]%open_spec. by rewrite store_region_cases, H1, H2. Qed.

(** The regions one after the other. *)
Lemma store_owned l c : Forall owned_by l -> foldM store_region (Ready, c) l = Some (Ready, c).
Proof.
  intros H. apply fold_good. intros rg Hrg. apply store_region_exact.
  rewrite list.Forall_forall in H. by apply H.
Qed.
Lemma store_lost l c : ~ Forall owned_by l ->
  ~ (exists rs rg, l = rs ++ [rg] /\ Forall owned_by rs /\ open_to_root rg) ->
  foldM store_region (Ready, c) l = None.
Proof.
  induction l as [|rg l IH]; intros H1 H2; [by destruct H1|]. cbn [foldM].
  destruct (forallb (sees rg) all_pas) eqn:E1.
  - assert (owned_by rg) as Ho by exact (proj1 (sees_iff rg all_pas) E1).
    rewrite store_region_exact by done. apply IH.
    + intros H. apply H1. by constructor.
    + intros (rs & rg' & -> & Hrs & Hrg). apply H2. exists (rg :: rs), rg'.
      split; [done|]. split; [by constructor|done].
  - rewrite store_region_cases, E1.
    destruct (_ && _) eqn:E2; [|done]. destruct l as [|rg' l]; [|done].
    exfalso. apply H2. exists [], rg. split; [done|]. split; [done|]. by apply open_spec.
Qed.
End protection.

(** ** The runner around a payload *)

Section entry.
Context {W D : Type} {PES : Pes W} {HW : Hw D} {BUS : El3Bus D}.
(** The PEs that do not run the test leave the shared array alone. *)
Hypothesis alone : forall w k, snd (others w k) = k.
Context (pes : list pe_entry).
Definition me : Z :=
  match List.find (fun e => mpidr e =? (my_mpidr .& MPIDR_AFF_MASK)) pes with
  | Some e => pe_num e | None => 0 end.

(** The table of PEs, and an array with room for PE 0 and for this one. *)
Record on_pe (t : tst W) : Prop := {
  op_pes : t_pes t = Some pes;
  op_room : (0 < length (t_shared t))%nat /\ (Z.to_nat me < length (t_shared t))%nat
}.
Definition has_status (st : Z) (t : tst W) : Prop :=
  exists m, t_shared t !! Z.to_nat me = Some m /\ sh_status m = st.

Lemma my_index_reads t : on_pe t -> my_index t = Done me t.
Proof. intros [H _]. unfold my_index, val_pe_get_mpid, val_pe_get_index_mpid, bind, ret, gets. by rewrite H. Qed.

Lemma others_alone t : exists w, run_others t = Done tt (upd_world w (t_shared t) t).
Proof.
  unfold run_others, modify. pose proof (alone (t_world t) (t_shared t)) as H.
  destruct (others _ _) as [w k]. cbn in H. subst k. by exists w.
Qed.
Lemma set_status_run i st t : on_pe t -> (Z.to_nat i < length (t_shared t))%nat ->
  wp (val_set_status i st) (fun _ t' => on_pe t' /\ free_mem_var_va t' = free_mem_var_va t /\
    exists m, t_shared t' !! Z.to_nat i = Some m /\ sh_status m = st) t.
Proof.
  intros [Hp [H0 H1]] Hi. destruct (lookup_lt_is_Some_2 _ _ Hi) as [m Hm].
  destruct (others_alone t) as [w Hw]. unfold val_set_status, shared_write. apply wp_bind.
  eapply wp_intro; [exact Hw|]. apply wp_bind, wp_gets, wp_bind. cbn. rewrite Hm. cbn.
  split; [constructor; cbn; by rewrite ?length_insert|]. split; [done|].
  eexists. split; [by apply list_lookup_insert_eq|done].
Qed.
Lemma get_status_run st t : on_pe t -> has_status st t ->
  wp (val_get_status me) (fun x t' => x = st /\ on_pe t' /\ has_status st t') t.
Proof.
  intros Hon (m & Hm & Hst). destruct (others_alone t) as [w Hw].
  unfold val_get_status, shared_read. do 2 apply wp_bind. eapply wp_intro; [exact Hw|].
  apply wp_bind, wp_gets. cbn. rewrite Hm. cbn. split; [done|].
  split; [by destruct Hon; constructor|]. by exists m.
Qed.

Lemma wp_runner {A} (m : M (tst W) A) (Q : A -> lst W D -> Prop) s :
  wp m (fun a t => Q a (mk_lst t (l_el3 s) (l_nvm s))) (l_run s) -> wp (runner m) Q s.
Proof. intros H. apply wp_zoom, H. Qed.

(** The status word a finished test leaves and what its entry returns. *)
Definition verdict_of (st : Z) : Z :=
  if IS_TEST_PASS st then ACS_STATUS_PASS
  else if IS_TEST_SKIP st then ACS_STATUS_SKIP else ACS_STATUS_FAIL.

Section run.
Variables (skip : list Z) (single_test single_module test_num : Z).
Hypothesis not_skipped : existsb (Z.eqb test_num) skip = false.
Hypothesis selected : single_test = SINGLE_TEST_SENTINEL \/ test_num = single_test.

Lemma initialize_run t : on_pe t ->
  wp (val_initialize_test skip single_test single_module test_num 1)
    (fun st t' => st = ACS_STATUS_PASS /\ on_pe t' /\ free_mem_var_va t' = free_mem_var_va t) t.
Proof.
  intros Hon. unfold val_initialize_test. apply wp_bind.
  eapply wp_intro; [by apply my_index_reads|]. apply wp_bind, wp_modify, wp_bind, wp_modify.
  cbn [for_range]. apply wp_bind.
  eapply wp_mono with (P := fun _ t' => on_pe t' /\ free_mem_var_va t' = free_mem_var_va t).
  - intros [] t' Hon'. rewrite not_skipped.
    replace (negb (single_test =? SINGLE_TEST_SENTINEL) && negb (test_num =? single_test)) with false.
    2:{ symmetry. destruct selected as [-> | ->]; rewrite Z.eqb_refl; [done|by rewrite andb_false_r]. }
    by apply wp_ret.
  - unfold for_range. cbn [Z.to_nat Z.sub for_n]. apply wp_bind.
    eapply wp_mono; [|apply set_status_run].
    + intros [] t' (H1 & H2 & _). by apply wp_ret.
    + by destruct Hon; constructor.
    + apply Hon.
Qed.

(** The entry returns what the payload's status word says, and is lost when
    the payload is. *)
Lemma entry_runs (payload : M (lst W D) unit) s (v : option Z) : on_pe (l_run s) ->
  (forall s1, on_pe (l_run s1) -> free_mem_var_va (l_run s1) = free_mem_var_va (l_run s) ->
     l_el3 s1 = l_el3 s -> l_nvm s1 = l_nvm s ->
     runs payload s1 v (fun st _ s' => on_pe (l_run s') /\ has_status st (l_run s'))) ->
  runs (rme_entry skip single_test single_module test_num payload) s v
    (fun st x s' => x = verdict_of st).
Proof.
  intros Hon Hpay. unfold rme_entry.
  apply (runs_wp _ _ _ _ (fun st s1 => st = ACS_STATUS_PASS /\ on_pe (l_run s1) /\
    free_mem_var_va (l_run s1) = free_mem_var_va (l_run s) /\
    l_el3 s1 = l_el3 s /\ l_nvm s1 = l_nvm s)).
  { apply wp_runner. eapply wp_mono; [|by apply initialize_run]. by intros ? ? (? & ? & ?). }
  intros st s1 (-> & Hon1 & Hva & He & Hn).
  change (negb (ACS_STATUS_PASS =? ACS_STATUS_SKIP)) with true. cbv iota.
  pose proof (Hpay s1 Hon1 Hva He Hn) as Hrun.
  assert (runs (let! _my := runner my_index in payload) s1 v
    (fun st _ s' => on_pe (l_run s') /\ has_status st (l_run s'))) as Hrun'.
  { apply (runs_wp _ _ _ _ (fun _ s' => s' = s1)); [|by intros ? ? ->].
    apply wp_runner. eapply wp_intro; [by apply my_index_reads|]. by destruct s1. }
  destruct v as [st|]; [|by apply runs_undef].
  cbn [runs] in *. apply wp_bind. eapply wp_mono; [|exact Hrun']. clear Hpay Hrun Hrun'.
  intros [] s2 (Hon2 & Hst). apply wp_bind, wp_runner.
  eapply wp_mono with (P := fun x t => x = verdict_of st).
  - intros x t ->. apply wp_bind, wp_runner, wp_modify. cbn. by apply wp_ret.
  - unfold val_check_for_error. apply wp_bind. eapply wp_intro; [by apply my_index_reads|].
    apply wp_bind. eapply wp_mono; [|by apply (get_status_run st)].
    intros x t (-> & _ & _). apply wp_bind, wp_modify. unfold count_result, verdict_of.
    destruct (IS_TEST_PASS st); [apply wp_bind, wp_modify, wp_ret; done|].
    destruct (IS_TEST_SKIP st); [by apply wp_ret|]. by apply wp_bind, wp_modify, wp_ret.
Qed.
End run.
End entry.

(** ** The tests *)

Section theorems.
Context {W D : Type} {PES : Pes W} {HW : Hw D} {BUS : El3Bus D}.
Context (im : el3_image) (fuel : nat) (mmfr0 : Z).
Context {MAP : El3Map D (vector_at im) fuel}.
Context (denies : Z -> Z -> bool) (pes : list pe_entry).
Context (skip : list Z) (single_test single_module : Z).

(** What the hardware and the platform provide: the granule protection check as
    the tables stand at the start of the test, in state [e0]; the image below 2^64;
    one running PE. *)
Record setting (e0 : el3 D) : Prop := {
  set_gpc : forall write va off pa pas e, is_pas pas -> like e0 e ->
    mapped va pa (attr_for pas) e -> 0 <= off -> va mod 4096 + off < 4096 ->
    el3_fault write e (va + off) =
    if denies pa pas then Some (if write then GPF_ESR_WRITE else GPF_ESR_READ) else None;
  set_return : 0 <= smc_return im < 2 ^ 64;
  set_alone : forall w k, snd (others w k) = k
}.
(** The test is selected. *)
Definition chosen (test_num : Z) : Prop :=
  existsb (Z.eqb test_num) skip = false /\
  (single_test = SINGLE_TEST_SENTINEL \/ test_num = single_test).
(** The state a test starts in: the handler installed, nothing announced, room
    for [n] mappings. *)
Record start (n : nat) (s : lst W D) : Prop := {
  st_on : on_pe pes (l_run s);
  st_va : 0 <= free_mem_var_va (l_run s) < 2 ^ 64;
  st_vbar : vbar_el3 (e_sys (l_el3 s)) = vector_at im;
  st_mut : sh_access_mut (e_shared (l_el3 s)) = CLEAR;
  st_expected : exception_expected (e_shared (l_el3 s)) = CLEAR;
  st_generated : exception_generated (e_shared (l_el3 s)) = CLEAR;
  st_filter : pas_filter_flag (e_shared (l_el3 s)) = CLEAR;
  st_access : sh_access (e_shared (l_el3 s)) <> [];
  st_room : room n (l_el3 s)
}.
Definition good_regions (num : Z) (cfg : MEM_REGN_INFO_TABLE) : Prop :=
  0 <= num <= Z.of_nat (length (regn_info cfg)) /\
  forall i rg, regn_info cfg !! i = Some rg -> 0 <= base_addr rg < 2 ^ 32.

(** The status word [report_count] leaves. *)
Definition count_word (test_num cnt : Z) : Z :=
  if 1 <=? cnt then RESULT_FAIL test_num 1 else RESULT_PASS test_num 1.

Lemma report_runs {e0} test_num cnt (s : lst W D) : setting e0 -> on_pe pes (l_run s) ->
  wp (report_count (me pes) test_num cnt) (fun _ s' =>
    on_pe pes (l_run s') /\ has_status pes (count_word test_num cnt) (l_run s')) s.
Proof.
  intros [_ _ Hal] Hon. unfold report_count, count_word.
  destruct (1 <=? cnt); apply wp_runner; (eapply wp_mono; [|apply (set_status_run Hal pes); [done|apply Hon]]);
    intros [] t' (H1 & _ & H2); done.
Qed.
Lemma free_va_runs size (s : lst W D) : on_pe pes (l_run s) ->
  wp (free_va size) (fun VA s' => VA = free_mem_var_va (l_run s) /\ on_pe pes (l_run s') /\
    l_el3 s' = l_el3 s) s.
Proof.
  intros [H1 H2]. apply wp_runner. unfold val_get_free_va.
  by apply wp_bind, wp_gets, wp_bind, wp_modify, wp_ret.
Qed.

(** What tests 4 and 11 do behind their first statements. *)
Lemma region_test_runs {e0} other_m other pas_list cfg num test_num size (s : lst W D) :
  setting e0 -> like e0 (l_el3 s) -> good_regions num cfg -> start (Z.to_nat num * length pas_list) s ->
  (forall r nv, visits im fuel e0 r nv (sh_access (e_shared (l_el3 s))) other_m other) ->
  (forall pas, pas ∈ pas_list -> is_pas pas) ->
  runs (let! VA := free_va size in
        let! '(cnt, _) := region_loop im fuel mmfr0 (own_access im fuel) other_m cfg pas_list num (0, VA) in
        report_count (me pes) test_num cnt) s
    (match foldM (region_visit denies other pas_list) (Ready, 0) (take (Z.to_nat num) (regn_info cfg)) with
     | Some y => Some (count_word test_num (snd y)) | None => None end)
    (fun st _ s' => on_pe pes (l_run s') /\ has_status pes st (l_run s')).
Proof.
  intros Hset Hlike [Hn Hcfg] Hst Hother Hlist. destruct Hset as [Hgpc Hret Hal] eqn:Eset.
  eapply runs_wp; [apply free_va_runs, Hst|]. intros VA s1 (-> & Hon & He).
  eapply runs_bind.
  - apply (region_runs im fuel mmfr0 denies e0 Hgpc Hret (l_run s1) (l_nvm s1)
      (sh_access (e_shared (l_el3 s))) other_m other pas_list (Hother _ _) Hlist cfg num (free_mem_var_va (l_run s))
      (sh_arg0 (e_shared (l_el3 s1)))); [done| |apply Hst|].
    + intros i rg Hi. specialize (Hcfg _ _ Hi). lia.
    + by destruct Hst; constructor; rewrite ?He.
  - intros [ph cnt] [cnt' VA'] s2 (a0 & Hc & _ & Hat). cbn [fst snd] in *. subst cnt'.
    cbn [runs]. apply (report_runs (e0 := e0)); [done|]. by rewrite (at_run _ _ _ _ _ _ _ _ _ _ Hat).
Qed.

Lemma start_moved n s s1 : start n s -> on_pe pes (l_run s1) ->
  free_mem_var_va (l_run s1) = free_mem_var_va (l_run s) -> l_el3 s1 = l_el3 s -> start n s1.
Proof. intros [] Hon Hva He. constructor; by rewrite ?Hva, ?He. Qed.

(** ** Test 4 *)

Definition regions_of (num : Z) (cfg : MEM_REGN_INFO_TABLE) : list MEM_REGN_INFO_ENTRY :=
  take (Z.to_nat num) (regn_info cfg).
Definition store_verdict (regions : list MEM_REGN_INFO_ENTRY) : option (phase * Z) :=
  foldM (region_visit denies (store_other denies) all_pas) (Ready, 0) regions.
Abbreviation rme004 := (rme004_entry im fuel mmfr0 skip single_test single_module).

Lemma store_visits {e0} (r : tst W) nv l : setting e0 -> l <> [] ->
  visits im fuel e0 r nv l (other_access im fuel) (store_other denies).
Proof.
  intros Hset Hl ph n a0 VA PA pas s Hat Hpas Hm.
  pose proof (Z.mod_pos_bound VA 4096 ltac:(lia)).
  pose proof (other_runs im fuel denies e0 (set_gpc _ Hset) r nv l Hl ph n a0 VA 0 PA pas s Hat Hpas Hm
    ltac:(lia)) as H1. rewrite Z.add_0_r in H1. unfold store_other, after_other in *.
  destruct (denies PA pas); (eapply runs_mono; [|exact H1]); by intros ? ? ? (? & ? & _).
Qed.

Lemma rme004_runs cfg s : setting (l_el3 s) -> chosen 4 -> good_regions (num_of_regn_gpc cfg) cfg ->
  start (Z.to_nat (num_of_regn_gpc cfg) * 4) s ->
  runs (rme004 cfg) s
    (match store_verdict (regions_of (num_of_regn_gpc cfg) cfg) with
     | Some y => Some (count_word 4 (snd y)) | None => None end)
    (fun st x _ => x = verdict_of st).
Proof.
  intros Hset [Hc1 Hc2] Hcfg Hst. unfold rme004_entry. apply (entry_runs (set_alone _ Hset) pes); try done; [apply Hst|].
  intros s1 Hon Hva He Hn. pose proof (start_moved _ _ _ Hst Hon Hva He) as Hst1.
  unfold rme004_payload. eapply runs_wp with (P := fun i s' => i = me pes /\ s' = s1).
  { apply wp_runner. eapply wp_intro; [by apply my_index_reads|]. by destruct s1. }
  intros i s' [-> ->]. apply (region_test_runs (e0 := l_el3 s)); try done.
  - rewrite He. apply like_refl.
  - intros r nv. apply store_visits; [done|apply Hst1].
  - apply all_is_pas.
Qed.

(** C13. Test 4 (access from every PAS to every region), region by region and PAS
    by PAS in the order Realm, Non-secure, Secure, Root.  Where exactly the PAS of
    each region has access, it passes.  It fails in one case only: the regions
    before the last one are protected like that, and the last one too as far as
    Realm, Non-secure and Secure go, but Root, another PAS than its own, has
    access, so that the missing fault is that of the very last access.  In every
    other case the run is lost: an access from another PAS that goes through leaves
    the fault announced and the next call into EL3 is taken for it, and an access
    from the region's own PAS that faults ends in the firmware.  The protection is
    an oracle of address and PAS, which the hardware follows for the mappings of
    the four PASes while the tables and registers of the protection stay as they
    were at the start. *)
Theorem rme004_verdict cfg s : setting (l_el3 s) -> chosen 4 ->
  good_regions (num_of_regn_gpc cfg) cfg -> start (Z.to_nat (num_of_regn_gpc cfg) * 4) s ->
  let regions := regions_of (num_of_regn_gpc cfg) cfg in
  (Forall (owned_by denies) regions -> wp (rme004 cfg) (fun st _ => st = ACS_STATUS_PASS) s) /\
  (forall rs rg, regions = rs ++ [rg] -> Forall (owned_by denies) rs -> open_to_root denies rg ->
     wp (rme004 cfg) (fun st _ => st = ACS_STATUS_FAIL) s) /\
  (~ Forall (owned_by denies) regions ->
   ~ (exists rs rg, regions = rs ++ [rg] /\ Forall (owned_by denies) rs /\ open_to_root denies rg) ->
   rme004 cfg s = Undef).
Proof.
  intros Hset Hc Hcfg Hst regions. pose proof (rme004_runs cfg s Hset Hc Hcfg Hst) as Hrun.
  fold regions in Hrun. split; [|split].
  - intros H. unfold store_verdict in Hrun. by rewrite store_owned in Hrun.
  - intros rs rg -> H Hrg. unfold store_verdict in Hrun. rewrite foldM_app, store_owned in Hrun by done.
    cbn [foldM] in Hrun. by rewrite store_region_last in Hrun.
  - intros H1 H2. unfold store_verdict in Hrun. by rewrite store_lost in Hrun.
Qed.

(** ** Test 11 *)


Lemma filter_visits {e0} (r : tst W) nv a l' : setting e0 -> acc_data a = INIT_DATA ->
  visits im fuel e0 r nv (a :: l') (filter_access im fuel (upd (set_exc_expected CLEAR))) filter_other.
Proof.
  intros Hset Ha ph n a0 VA PA pas s Hat Hpas Hm.
  pose proof (Z.mod_pos_bound VA 4096 ltac:(lia)).
  pose proof (filter_runs im fuel denies e0 (set_gpc _ Hset) r nv (a :: l') ltac:(done) ph n a0 VA 0 PA pas s
    Hat Hpas Hm ltac:(lia) true a l' eq_refl Ha) as H1. rewrite Z.add_0_r in H1.
  eapply runs_mono; [|exact H1]. by intros ? ? ? (? & ? & _).
Qed.

(** The first entry of the array is set before the loop. *)
Lemma init_data_runs n s : start n s ->
  wp (upd_access 0 (upd_data INIT_DATA)) (fun _ s' => start n s' /\ l_run s' = l_run s /\
    kept (l_el3 s) (l_el3 s') /\
    exists a l', sh_access (e_shared (l_el3 s')) = a :: l' /\ acc_data a = INIT_DATA) s.
Proof.
  intros []. unfold upd_access, shared_access. apply wp_bind, wp_bind, wp_gets.
  destruct (sh_access (e_shared (l_el3 s))) as [|a l'] eqn:El; [done|]. apply wp_ret.
  apply wp_el3_call, wp_modify. split; [|split; [done|split; [by constructor|]]].
  - constructor; try done; cbn; [by rewrite El|]. by apply (room_kept _ (l_el3 s)).
  - exists (upd_data INIT_DATA a), l'. cbn. by rewrite El.
Qed.

(** C39. Test 11 (PAS filters) never fails: whenever the PAS of each region has
    access to it the test passes, whatever the other PASes see there. The load
    behind the filter drops what it read, so the data the test compares with is
    the data it stored itself. *)
Theorem rme011_never_fails cfg s : setting (l_el3 s) -> chosen 11 ->
  good_regions (num_of_regn_pas_filter cfg) cfg ->
  start (Z.to_nat (num_of_regn_pas_filter cfg) * 4) s ->
  (forall rg, rg ∈ regions_of (num_of_regn_pas_filter cfg) cfg ->
     denies (base_addr rg) (owner rg) = false) ->
  wp (rme011_entry im fuel mmfr0 skip single_test single_module cfg)
    (fun st _ => st = ACS_STATUS_PASS) s.
Proof.
  intros Hset [Hc1 Hc2] Hcfg Hst Hown. unfold rme011_entry.
  apply (entry_runs (set_alone _ Hset) pes skip single_test single_module 11 Hc1 Hc2 _ _
    (Some (count_word 11 0))); [apply Hst|].
  intros s1 Hon Hva He Hn. pose proof (start_moved _ _ _ Hst Hon Hva He) as Hst1.
  unfold rme011_payload. eapply runs_wp with (P := fun i s' => i = me pes /\ s' = s1).
  { apply wp_runner. eapply wp_intro; [by apply my_index_reads|]. by destruct s1. }
  intros i s' [-> ->]. eapply runs_wp; [by apply init_data_runs|].
  intros [] s2 (Hst2 & _ & K & a & l' & El & Ha).
  assert (like (l_el3 s) (l_el3 s2)) as Hlike by (eapply like_kept; [apply like_refl|by rewrite <- He]).
  assert (foldM (region_visit denies filter_other pas_order) (Ready, 0)
    (take (Z.to_nat (num_of_regn_pas_filter cfg)) (regn_info cfg)) = Some (Ready, 0)) as Hv.
  { apply fold_good. intros rg Hrg. apply fold_good. intros pas Hpas. unfold visit. cbn [fst snd].
    fold (owner rg). destruct (Z.eqb_spec (owner rg) pas) as [<-|_]; [|done]. by rewrite Hown. }
  pose proof (region_test_runs (filter_access im fuel (upd (set_exc_expected CLEAR))) filter_other
    pas_order cfg (num_of_regn_pas_filter cfg) 11
    (u64 (u32 (num_of_regn_pas_filter cfg * NUM_PAS) * min_tg mmfr0)) s2 Hset Hlike Hcfg Hst2) as H.
  rewrite Hv in H. apply H; [|apply order_is_pas].
  intros r nv. rewrite El. by apply filter_visits.
Qed.

(** ** Tests 16, 17, 25 and 26 *)

(** A turn of the inner loop; both addresses lie in one page. *)
Definition off_visit (own PA pas : Z) (_ph : phase) (_off : Z) : option phase :=
  if own =? pas then if denies PA pas then None else Some Ready
  else Some (after_other denies PA pas).
Definition loc_visit (own PA : Z) (offsets : list Z) (ph : phase) (pas : Z) : option phase :=
  match ph with Armed => None | Ready => foldM (off_visit own PA pas) Ready offsets end.
Lemma off_visits own PA pas offsets ph : offsets <> [] ->
  foldM (off_visit own PA pas) ph offsets = off_visit own PA pas ph 0.
Proof.
  revert ph. induction offsets as [|o l IH]; intros ph H; [done|]. cbn [foldM].
  change (off_visit own PA pas ph o) with (off_visit own PA pas ph 0).
  destruct (off_visit own PA pas ph 0) as [ph'|] eqn:E; [|done].
  destruct l as [|o' l]; [done|]. rewrite IH by done. exact E.
Qed.

(** Where an address of a mapping stays in its page. *)
Definition fits (offsets : list Z) (VA : Z) : Prop :=
  0 <= VA < 2 ^ 64 /\ forall off, off ∈ offsets ->
    0 <= off /\ VA mod 4096 + off < 4096 /\ VA + off < 2 ^ 64.

Section location.
Variables (own PA : Z) (offsets pas_list : list Z) (r : tst W) (nv : Z) (a : shared_data_access)
          (l' : list shared_data_access).
Variable e0 : el3 D.
Hypothesis Hset : setting e0.
Hypothesis Ha : acc_data a = INIT_DATA.
Hypothesis HPA : 0 <= PA < 2 ^ 64.
Hypothesis Hlist : forall pas, pas ∈ pas_list -> is_pas pas.
Hypothesis Hfits : forall VA, fits offsets VA -> fits offsets (u64 (VA + min_tg mmfr0)).
Abbreviation at_loc := (at_ im fuel e0 r nv (a :: l')).
Definition loc_at (k : nat) (ph : phase) (x : Z * Z) (s : lst W D) : Prop :=
  fst x = 0 /\ fits offsets (snd x) /\ exists a0, at_loc ph k a0 s.
Definition off_at (k : nat) (VA pas : Z) (_j : nat) (ph : phase) (cnt : Z) (s : lst W D) : Prop :=
  cnt = 0 /\ (exists a0, at_loc ph k a0 s) /\ mapped VA PA (attr_for pas) (l_el3 s).

Lemma off_runs k VA pas off j ph cnt s : is_pas pas -> fits offsets VA -> off ∈ offsets ->
  off_at k VA pas j ph cnt s ->
  runs (let! miss := if own =? pas then own_access im fuel (u64 (VA + off))
                     else filter_access im fuel (ret tt) (u64 (VA + off)) in
        ret (count cnt miss)) s
    (off_visit own PA pas ph off) (off_at k VA pas j).
Proof.
  intros Hpas [HVA Hf] Hoff (-> & (a0 & Hat) & Hm). destruct (Hf _ Hoff) as (Ho1 & Ho2 & Ho3).
  unfold u64 at 1 2. rewrite wrap_small by lia. unfold off_visit. destruct (own =? pas).
  - pose proof (own_runs im fuel denies e0 (set_gpc _ Hset) r nv (a :: l') ph k a0 VA off PA pas s Hat
      Hpas Hm ltac:(lia)) as H1.
    destruct (denies PA pas); [by apply runs_undef|].
    eapply runs_wp; [exact H1|]. intros miss s' (-> & Hat' & Hm'). apply wp_ret.
    split; [done|]. split; [by exists a0|done].
  - eapply runs_wp; [exact (filter_runs im fuel denies e0 (set_gpc _ Hset) r nv (a :: l') ltac:(done)
      ph k a0 VA off PA pas s Hat Hpas Hm ltac:(lia) false a l' eq_refl Ha)|].
    intros miss s' (-> & Hat' & Hm'). apply wp_ret. split; [done|]. split; [by exists a0|done].
Qed.

Lemma location_runs x s : loc_at (length pas_list) Ready x s ->
  runs (location_loop im fuel mmfr0 own PA offsets pas_list x) s
    (foldM (loc_visit own PA offsets) Ready pas_list) (loc_at 0).
Proof.
  intros H. apply (runs_for_list loc_at); [|exact H]. clear x s H.
  intros k pas ph [cnt VA] s Hpas (Hc & Hf & a0 & Hat). cbn [fst snd] in *. subst cnt.
  specialize (Hlist _ Hpas). destruct (attr_for_pas pas Hlist) as [_ Hattr].
  pose proof (map_runs im fuel e0 (set_return _ Hset) r nv (a :: l') ph k a0 VA PA (attr_for pas) s Hat
    (proj1 Hf) HPA Hattr) as Hm.
  destruct ph; cbn [loc_visit]; [|by apply runs_undef].
  eapply runs_wp; [exact Hm|]. intros [] s1 (Hat1 & Hm1).
  assert (runs (for_list offsets 0 (fun off cnt =>
      let! miss := if own =? pas then own_access im fuel (u64 (VA + off))
                   else filter_access im fuel (ret tt) (u64 (VA + off)) in
      ret (count cnt miss))) s1 (foldM (off_visit own PA pas) Ready offsets) (off_at k VA pas 0)) as H.
  { apply (runs_for_list (off_at k VA pas)); [|by split; [done|split; [exists a0|]]].
    intros j off ph' cnt' s' Hoff. by apply (off_runs k VA pas off j). }
  destruct (foldM _ Ready offsets) as [ph'|]; [|by apply runs_undef].
  eapply runs_wp; [exact H|]. intros cnt' s2 (-> & Hat2 & _). apply wp_ret.
  split; [done|]. split; [by apply Hfits|done].
Qed.
End location.

Lemma fits_intro offsets VA : 0 <= VA < 2 ^ 64 ->
  (forall off, off ∈ offsets -> 0 <= off /\ VA mod 4096 + off < 4096) -> fits offsets VA.
Proof.
  intros H Hf. split; [done|]. intros off Hoff. destruct (Hf off Hoff) as [H1 H2].
  split; [done|]. split; [done|]. pose proof (Z.div_mod VA 4096 ltac:(lia)).
  assert (VA / 4096 < 2 ^ 52) by (apply Z.div_lt_upper_bound; lia).
  change (2 ^ 64) with (4096 * 2 ^ 52). lia.
Qed.
Lemma fits_step offsets VA : fits offsets VA -> fits offsets (u64 (VA + min_tg mmfr0)).
Proof.
  intros [_ Hf]. apply fits_intro; [by apply wrap_range|]. intros off Hoff.
  destruct (Hf off Hoff) as (H1 & H2 & _). split; [done|].
  assert (u64 (VA + min_tg mmfr0) mod 4096 = VA mod 4096) as ->; [|done].
  unfold u64, wrap. assert (exists k, min_tg mmfr0 = 4096 * k) as [k ->].
  { unfold min_tg, val_get_min_tg. destruct (_ =? 0); [by exists 1|].
    destruct (_ =? 0); [by exists 4|by exists 16]. }
  rewrite Z.mod_mod_divide by (by exists (2 ^ 52)).
  by rewrite (Z.mul_comm 4096), Z.mod_add.
Qed.

(** The test passes or is lost. *)
Lemma location_test_runs test_num own PA size offsets pas_list (s : lst W D) :
  setting (l_el3 s) -> chosen test_num -> 0 <= PA < 2 ^ 64 -> (forall pas, pas ∈ pas_list -> is_pas pas) ->
  start (length pas_list) s -> fits offsets (free_mem_var_va (l_run s)) ->
  runs (rme_entry skip single_test single_module test_num
          (location_payload im fuel mmfr0 test_num own PA size offsets pas_list)) s
    (match foldM (loc_visit own PA offsets) Ready pas_list with
     | Some _ => Some (RESULT_PASS test_num 1) | None => None end)
    (fun st x _ => x = verdict_of st).
Proof.
  intros Hset [Hc1 Hc2] HPA Hlist Hst Hfit. apply (entry_runs (set_alone _ Hset) pes); try done; [apply Hst|].
  intros s1 Hon Hva He Hn. pose proof (start_moved _ _ _ Hst Hon Hva He) as Hst1. rewrite <- Hva in Hfit.
  unfold location_payload. eapply runs_wp with (P := fun i s' => i = me pes /\ s' = s1).
  { apply wp_runner. eapply wp_intro; [by apply my_index_reads|]. by destruct s1. }
  intros i s' [-> ->]. eapply runs_wp; [by apply init_data_runs|].
  intros [] s2 (Hst2 & Hr2 & K & a & l' & El & Ha). rewrite <- Hr2 in Hfit.
  eapply runs_wp; [apply free_va_runs, Hst2|]. intros VA s3 (-> & Hon3 & He3).
  eapply runs_bind.
  - apply (location_runs own PA offsets pas_list (l_run s3) (l_nvm s3) a l' (l_el3 s) Hset Ha HPA Hlist (fits_step offsets)).
    split; [done|]. split; [done|]. exists (sh_arg0 (e_shared (l_el3 s3))).
    destruct Hst2; constructor; rewrite ?He3; try done.
    eapply like_kept; [apply like_refl|by rewrite <- He].
  - intros ph [cnt VA] s4 (Hc & _ & a0 & Hat). cbn [fst snd] in *. subst cnt.
    apply (report_runs (e0 := l_el3 s) test_num 0); [done|]. by rewrite (at_run _ _ _ _ _ _ _ _ _ _ Hat).
Qed.

(** Nobody but the owner has access, as far as the PASes before the last go. *)
Lemma location_folds own PA offsets mid last : offsets <> [] -> last <> own ->
  (forall pas, pas ∈ mid -> pas <> own) ->
  let v := foldM (loc_visit own PA offsets) Ready (own :: mid ++ [last]) in
  (denies PA own = false /\ (forall pas, pas ∈ mid -> denies PA pas = true) -> v <> None) /\
  (~ (denies PA own = false /\ (forall pas, pas ∈ mid -> denies PA pas = true)) -> v = None).
Proof.
  intros Ho Hlast Hmid.
  assert (forall pas, loc_visit own PA offsets Ready pas = off_visit own PA pas Ready 0) as Hv
    by (intros pas; by apply off_visits).
  assert (forall pas, pas <> own -> off_visit own PA pas Ready 0 = Some (after_other denies PA pas)) as Hother.
  { intros pas Hp. unfold off_visit. by replace (own =? pas) with false by zbool. }
  cbn [foldM]. rewrite Hv. unfold off_visit. rewrite Z.eqb_refl.
  cbv zeta. destruct (denies PA own); [split; [by intros [? _]|done]|]. cbv iota. rewrite foldM_app.
  assert ((forall pas, pas ∈ mid -> denies PA pas = true) /\
      foldM (loc_visit own PA offsets) Ready mid = Some Ready \/
    ~ (forall pas, pas ∈ mid -> denies PA pas = true) /\
      match foldM (loc_visit own PA offsets) Ready mid with Some Ready => False | _ => True end)
    as [[Hd ->]|[Hd Hm]].
  { clear last Hlast. induction mid as [|pas mid IH]; cbn [foldM].
    { left. split; [|done]. by intros pas ?%list.elem_of_nil. }
    rewrite Hv, Hother by (apply Hmid, list.elem_of_cons; by left).
    unfold after_other. destruct (denies PA pas) eqn:E.
    - destruct IH as [[H1 H2]|[H1 H2]].
      + intros p Hp. apply Hmid, list.elem_of_cons. by right.
      + left. split; [|done]. intros p [->|Hp]%list.elem_of_cons; [done|by apply H1].
      + right. split; [|done]. intros H. apply H1. intros p Hp. apply H, list.elem_of_cons. by right.
    - right. split; [|by destruct mid]. intros H. rewrite H in E; [done|]. apply list.elem_of_cons. by left. }
  - cbn [foldM]. rewrite Hv, Hother by done. split; [done|]. intros H. by destruct H.
  - split; [by intros [_ ?]|]. intros _. by destruct (foldM _ Ready mid) as [[]|].
Qed.

(** The four tests on a location: number, payload, the PAS it belongs to, and the
    others in the order the test takes them, the last one apart. *)
Definition location_tests (PA : Z) : list (Z * M (lst W D) unit * Z * list Z * Z) :=
  [(16, rme016_payload im fuel mmfr0 PA, ROOT_PAS, [REALM_PAS; NONSECURE_PAS], SECURE_PAS);
   (17, rme017_payload im fuel mmfr0 PA, REALM_PAS, [NONSECURE_PAS; SECURE_PAS], ROOT_PAS);
   (25, rme025_payload im fuel mmfr0 PA, ROOT_PAS, [REALM_PAS; NONSECURE_PAS], SECURE_PAS);
   (26, rme026_payload im fuel mmfr0 PA, ROOT_PAS, [REALM_PAS; NONSECURE_PAS], SECURE_PAS)].

Lemma location_entry_runs test_num own PA size offsets mid last (s : lst W D) :
  setting (l_el3 s) -> chosen test_num -> 0 <= test_num < 2 ^ 16 -> 0 <= PA < 2 ^ 64 ->
  (forall pas, pas ∈ own :: mid ++ [last] -> is_pas pas) -> last <> own ->
  (forall pas, pas ∈ mid -> pas <> own) -> offsets <> [] ->
  start (length (own :: mid ++ [last])) s -> fits offsets (free_mem_var_va (l_run s)) ->
  let run := rme_entry skip single_test single_module test_num
    (location_payload im fuel mmfr0 test_num own PA size offsets (own :: mid ++ [last])) in
  let guarded := denies PA own = false /\ (forall pas, pas ∈ mid -> denies PA pas = true) in
  (guarded -> wp run (fun st _ => st = ACS_STATUS_PASS) s) /\ (~ guarded -> run s = Undef).
Proof.
  intros Hset Hc Htn HPA Hlist Hlast Hmid Ho Hst Hfit run guarded.
  pose proof (location_test_runs test_num own PA size offsets _ s Hset Hc HPA Hlist Hst Hfit) as Hrun.
  destruct (location_folds own PA offsets mid last Ho Hlast Hmid) as [H1 H2].
  fold run in Hrun. split; intros Hg.
  - destruct (foldM _ _ _); [|by destruct (H1 Hg)]. cbn [runs] in Hrun. eapply wp_mono; [|exact Hrun].
    intros st s' ->. unfold verdict_of, IS_TEST_PASS, RESULT_PASS. by rewrite state_of_result.
  - by rewrite (H2 Hg) in Hrun.
Qed.

(** A property of the members of a given list of PASes. *)
Ltac each_pas :=
  let p := fresh "p" in let Hp := fresh "Hp" in
  intros p Hp; repeat (apply list.elem_of_cons in Hp as [->|Hp];
                       [by first [vm_compute; discriminate | unfold is_pas; rewrite !list.elem_of_cons; auto]|]);
  by apply list.elem_of_nil in Hp.

(** C38. Tests 16, 17, 25 and 26 (a location only Root or Realm may access) pass
    or are lost, they never fail: the test passes when the owner has access and
    every other PAS but the last one takes a fault, whatever the last one sees;
    in all other cases the run of the suite ends. *)
Theorem location_tests_verdict PA s : setting (l_el3 s) -> 0 <= PA < 2 ^ 64 ->
  start 4 s -> aligned (free_mem_var_va (l_run s)) 4096 -> min_tg mmfr0 = 4096 ->
  forall test_num payload own mid last, In (test_num, payload, own, mid, last) (location_tests PA) ->
  chosen test_num ->
  let run := rme_entry skip single_test single_module test_num payload in
  let guarded := denies PA own = false /\ (forall pas, pas ∈ mid -> denies PA pas = true) in
  (guarded -> wp run (fun st _ => st = ACS_STATUS_PASS) s) /\ (~ guarded -> run s = Undef).
Proof.
  intros Hset HPA Hst Hal Htg test_num payload own mid last Hin Hc.
  assert (forall offsets, (forall off, off ∈ offsets -> 0 <= off < 4096) ->
    fits offsets (free_mem_var_va (l_run s))) as Hfit.
  { intros offsets Ho. apply fits_intro; [apply Hst|]. intros off Hoff. unfold aligned in Hal.
    specialize (Ho _ Hoff). lia. }
  assert (forall off, off ∈ [0; min_tg mmfr0 - 8] -> 0 <= off < 4096) as Hoffs.
  { rewrite Htg. intros off Hoff. repeat (apply list.elem_of_cons in Hoff as [->|Hoff]; [lia|]).
    by apply list.elem_of_nil in Hoff. }
  assert (forall off, off ∈ [0] -> 0 <= off < 4096) as Hoff1.
  { intros off [->|Hoff]%list.elem_of_cons; [lia|]. by apply list.elem_of_nil in Hoff. }
  assert (start (length (own :: mid ++ [last])) s /\ last <> own /\
    (forall pas, pas ∈ own :: mid ++ [last] -> is_pas pas) /\ (forall pas, pas ∈ mid -> pas <> own) /\
    0 <= test_num < 2 ^ 16 /\
    exists size offsets, offsets <> [] /\ (forall off, off ∈ offsets -> 0 <= off < 4096) /\
      payload = location_payload im fuel mmfr0 test_num own PA size offsets (own :: mid ++ [last]))
    as (Hst4 & Hlast & Hlist & Hmid & Htn & size & offsets & Ho & Hoff & ->).
  { unfold location_tests in Hin. cbn [In] in Hin.
    repeat destruct Hin as [[= <- <- <- <- <-]|Hin]; [..|done];
      (split; [done|]; split; [done|]; split; [each_pas|]; split; [each_pas|]; split; [lia|];
       eexists _, _; split; [|split; [|reflexivity]]; done). }
  by apply location_entry_runs; [..|apply Hfit].
Qed.

(** Test 29 (inactive PAS filters) takes the number of regions from the
    member of the table that counts the regions of the granule protection check,
    which the table of the filters leaves at zero: it passes without an access. *)
Theorem rme029_vacuous s : (forall w k, snd (others w k) = k) -> start 0 s ->
  wp (rme029_payload im fuel mmfr0 true mem_region_pas_filter_cfg) (fun _ s' =>
    has_status pes (RESULT_PASS 29 1) (l_run s') /\ e_dev (l_el3 s') = e_dev (l_el3 s)) s.
Proof.
  intros Hal Hst. unfold rme029_payload. cbn [negb]. apply wp_bind.
  apply wp_runner. eapply wp_intro; [apply my_index_reads, Hst|]. cbv iota.
  apply wp_bind, wp_el3_call, smc_idle.
  { split; cbn; rewrite ?(st_mut _ _ Hst), ?(st_expected _ _ Hst); done. }
  intros e1 K Hs Hd. change (wp (modify (add_ev (EvPasFilter CLEAR))) (fun _ e =>
    wp (upd_access 0 (upd_data INIT_DATA) ;;
      let! VA := free_va (u64 (0 * min_tg mmfr0)) in
      report_count (me pes) 29 0) (fun _ s' =>
      has_status pes (RESULT_PASS 29 1) (l_run s') /\ e_dev (l_el3 s') = e_dev (l_el3 s))
    (mk_lst (l_run s) e (l_nvm s))) e1).
  apply wp_modify, wp_bind. unfold upd_access, shared_access. apply wp_bind, wp_bind, wp_gets.
  cbn [l_el3 e_shared add_ev] in *. rewrite Hs.
  destruct (sh_access (e_shared (l_el3 s))) as [|a l'] eqn:El; [by destruct (st_access _ _ Hst)|].
  apply wp_ret, wp_el3_call, wp_modify, wp_bind. cbn [l_run l_el3 l_nvm].
  eapply wp_mono; [|apply free_va_runs; apply Hst].
  intros VA s1 (_ & Hon & He). change (report_count (me pes) 29 0) with
    (@runner W D unit (val_set_status (me pes) (RESULT_PASS 29 1))).
  apply wp_runner. eapply wp_mono; [|apply (set_status_run Hal pes); [done|apply Hon]].
  intros [] t (_ & _ & H). split; [exact H|]. cbn. rewrite He. cbn. by rewrite Hd.
Qed.
End theorems.

(** ** Examples *)

(** One PE, with a table of its own; nobody else runs. *)
Definition one_pe : Pes unit := {| others w k := (w, k); cpu_on _ w := (0, w); my_mpidr := 0 |}.
Definition pe_table : list pe_entry := [mk_pe 0 0 0].
Definition demo_image : el3_image := mk_image 0x4000 0x4100 0x4200 0x4300 0x5000 0x3c9 0x3cd.

(** Machines that walk the tables of [add_mmu_entry] and ask an oracle of the
    PAS; on the first only Root may access what they map. *)
Definition root_only (_pa pas : Z) : bool := negb (pas =? ROOT_PAS).
Definition walk (e : el3 unit) (va : Z) : option Z :=
  mmu_slot (e_mem e) (top_layer (input_size e)) (root_table e) (top_bits (input_size e)) va.
Definition oracle_bus (den : Z -> Z -> bool) : El3Bus unit := {| el3_fault write e a :=
  match walk e a with
  | Some slot => if den 0 (desc_pas (load64 (e_mem e) slot))
                 then Some (if write then GPF_ESR_WRITE else GPF_ESR_READ) else None
  | None => Some 0
  end |}.
Definition demo_bus : El3Bus unit := oracle_bus root_only.
Definition demo_area (b : Z) : Prop :=
  0x10000 <= b < 0x11000 \/ FREE_MEM_START <= b < FREE_MEM_START + 4096 * 64.
Definition demo_map : El3Map (HW := quiet_hw) unit (vector_at demo_image) 5 :=
  tables_el3map (HW := quiet_hw) (vector_at demo_image) 4 demo_area ltac:(lia).

(** Addresses of one page reach the same slot. *)
Lemma mmu_slot_page m r t nb va off : 0 <= off -> va mod 4096 + off < 4096 ->
  mmu_slot m r t nb (va + off) = mmu_slot m r t nb va.
Proof.
  intros H0 H1.
  assert ((va + off) >> 12 = va >> 12) as Hp.
  { rewrite !Z.shiftr_div_pow2 by lia. change (2 ^ 12) with 4096.
    symmetry. pose proof (Z.div_mod va 4096 ltac:(lia)).
    apply (Z.div_unique _ _ _ (va mod 4096 + off)); [|lia].
    left. pose proof (Z.mod_pos_bound va 4096 ltac:(lia)). lia. }
  assert (forall r t nb, slot_addr r t nb (va + off) = slot_addr r t nb va) as Hs.
  { intros q x n. unfold slot_addr, fld. do 3 f_equal.
    by rewrite <- !Z.shiftr_shiftr, Hp by lia. }
  revert t nb. induction r as [|r IH]; intros t nb; cbn [mmu_slot]; rewrite Hs; [done|].
  destruct (table_entry _); [apply IH|done].
Qed.

Lemma page_desc_pas pa attr : desc_pas (page_desc pa attr) = desc_pas attr.
Proof.
  unfold page_desc, desc_pas.
  assert (forall i, 2 <= i < 12 -> Z.testbit (3 .| (pa .& bnot 64 4095) .| attr) i = Z.testbit attr i) as H.
  { intros i Hi. rewrite !Z.lor_spec, Z.land_spec. unfold bnot.
    rewrite (testbit_high 2 3), testbit_wrap, Z.lnot_spec by lia. change 4095 with (Z.ones 12).
    rewrite Z.testbit_ones by lia. replace (0 <=? i) with true by lia. replace (i <? 12) with true by lia.
    by rewrite andb_false_r. }
  by rewrite !H by lia.
Qed.

Lemma oracle_setting den e0 : (forall pa pas, den pa pas = den 0 pas) ->
  @setting unit unit one_pe quiet_hw (oracle_bus den) demo_image 5 demo_map den e0.
Proof.
  intros Hden. split; [|by vm_compute|done].
  intros write va off pa pas e Hpas _ (tab & a & _ & Hs & Hl) Ho1 Ho2.
  cbn. unfold walk. rewrite mmu_slot_page by done.
  by rewrite Hs, Hl, page_desc_pas, (proj1 (attr_for_pas pas Hpas)), <- (Hden pa).
Qed.
Lemma demo_setting e0 :
  @setting unit unit one_pe quiet_hw demo_bus demo_image 5 demo_map root_only e0.
Proof. by apply oracle_setting. Qed.

(** Empty tables, and the handler of the tests installed. *)
Definition demo_el3 : el3 unit :=
  mk_el3 ∅ tt (mk_sysregs 0 0 25 0x10000 0 0 0 0 0 0 0 0 0x4000)
    (set_sh_access [mk_access 0 0 0] zero_shared) [] FREE_MEM_START 0 zero_globals.
Definition demo_run : tst unit :=
  mk_tst tt [mk_shmem 0 0 0] (Some pe_table) 0 0 0 FREE_PA_TEST FREE_VA_TEST 0 0 [].
Definition demo_state : lst unit unit := mk_lst demo_run demo_el3 0.

Lemma demo_room n : (n <= 16)%nat -> tables_room demo_area n demo_el3.
Proof.
  intros Hn. exists demo_tab, 0x4400, 64%nat.
  change (top_layer (input_size demo_el3)) with 2%nat. split; [lia|].
  constructor; cbn [e_free_pa e_mem demo_el3]; unfold FREE_MEM_START.
  - constructor; [exact demo_tab_ok|done|by intros r [_ E]|done|by vm_compute].
  - done.
  - split; [done|]. split; [done|]. split; [lia|]. intros j Hj. split.
    + intros r [-> E]. lia.
    + intros i Hi. apply load64_empty.
  - intros p Hp. unfold block. symmetry. apply (Z.div_unique _ _ _ (p - 0x880000000)); [left|]; lia.
  - intros b [(r & t & [-> ->] & Hb)|Hb]; [left; lia|right; unfold FREE_MEM_START; lia].
Qed.
Lemma demo_start n : (n <= 16)%nat ->
  @start unit unit one_pe quiet_hw demo_image 5 demo_map pe_table n demo_state.
Proof.
  intros Hn. constructor; try done.
  - constructor; [done|]. split; vm_compute; lia.
  - by apply demo_room.
Qed.
(** One region, of Root. *)
Definition demo_cfg : MEM_REGN_INFO_TABLE := mk_regns 1 1 [mk_regn 0x88000000 0x1000 ROOT_PAS].
Lemma demo_good : good_regions 1 demo_cfg.
Proof. split; [vm_compute; split; discriminate|]. intros [|i] rg; [intros [= <-]; done|done]. Qed.

Lemma demo_chosen n : chosen [] SINGLE_TEST_SENTINEL n.
Proof. split; [done|by left]. Qed.

(** A region of Realm to which Root has access too, and one nobody guards. *)
Definition realm_and_root (_pa pas : Z) : bool := negb ((pas =? REALM_PAS) || (pas =? ROOT_PAS)).
Definition unguarded (_pa _pas : Z) : bool := false.
Definition demo_cfg_realm : MEM_REGN_INFO_TABLE := mk_regns 1 1 [mk_regn 0x88000000 0x1000 REALM_PAS].
Lemma demo_good_realm : good_regions 1 demo_cfg_realm.
Proof. split; [vm_compute; split; discriminate|]. intros [|i] rg; [intros [= <-]; done|done]. Qed.
Lemma demo_open : open_to_root realm_and_root (mk_regn 0x88000000 0x1000 REALM_PAS).
Proof.
  split; [|split; [discriminate|reflexivity]]. intros pas Hpas.
  repeat (apply list.elem_of_cons in Hpas as [->|Hpas]; [reflexivity|]).
  destruct (proj1 (list.elem_of_nil _) Hpas).
Qed.
(** Nobody is kept out, so the region would have to belong to every PAS. *)
Lemma unguarded_owner rg l : Forall (fun pas => unguarded 0 pas = negb (owner rg =? pas)) l ->
  Forall (fun pas => owner rg = pas) l.
Proof. apply List.Forall_impl. intros pas H. by apply Z.eqb_eq, negb_false_iff. Qed.
Lemma unguarded_not_owned rg : ~ owned_by unguarded rg.
Proof.
  intros H. assert (Forall (fun pas => owner rg = pas) all_pas) as F
    by (by apply unguarded_owner, list.Forall_forall).
  pose proof (Forall_inv F) as E1. pose proof (Forall_inv (Forall_inv_tail F)) as E2.
  rewrite E1 in E2. discriminate.
Qed.
Lemma unguarded_not_open rg : ~ open_to_root unguarded rg.
Proof.
  intros [H _].
  assert (Forall (fun pas => owner rg = pas) [REALM_PAS; NONSECURE_PAS; SECURE_PAS]) as F
    by (by apply unguarded_owner, list.Forall_forall).
  pose proof (Forall_inv F) as E1. pose proof (Forall_inv (Forall_inv_tail F)) as E2.
  rewrite E1 in E2. discriminate.
Qed.

Lemma rme004_verdict_witness :
  wp (@rme004_entry unit unit one_pe quiet_hw demo_bus demo_image 5 0 [] SINGLE_TEST_SENTINEL 0 demo_cfg)
    (fun st _ => st = ACS_STATUS_PASS) demo_state /\
  wp (@rme004_entry unit unit one_pe quiet_hw (oracle_bus realm_and_root) demo_image 5 0
        [] SINGLE_TEST_SENTINEL 0 demo_cfg_realm) (fun st _ => st = ACS_STATUS_FAIL) demo_state /\
  @rme004_entry unit unit one_pe quiet_hw (oracle_bus unguarded) demo_image 5 0
        [] SINGLE_TEST_SENTINEL 0 demo_cfg_realm demo_state = Undef.
Proof.
  split; [|split].
  - destruct (@rme004_verdict unit unit one_pe quiet_hw demo_bus demo_image 5 0 demo_map root_only pe_table
      [] SINGLE_TEST_SENTINEL 0 demo_cfg demo_state (demo_setting _) (demo_chosen 4) demo_good
      (demo_start 4 ltac:(lia))) as [H _].
    apply H. constructor; [|constructor]. intros pas Hpas. unfold all_pas in Hpas.
    repeat (apply list.elem_of_cons in Hpas as [->|Hpas]; [reflexivity|]).
    destruct (proj1 (list.elem_of_nil _) Hpas).
  - destruct (@rme004_verdict unit unit one_pe quiet_hw (oracle_bus realm_and_root) demo_image 5 0
      demo_map realm_and_root pe_table [] SINGLE_TEST_SENTINEL 0 demo_cfg_realm demo_state
      (oracle_setting realm_and_root _ (fun _ _ => eq_refl)) (demo_chosen 4) demo_good_realm
      (demo_start 4 ltac:(lia))) as (_ & H & _).
    exact (H [] _ eq_refl (Forall_nil_2 _) demo_open).
  - destruct (@rme004_verdict unit unit one_pe quiet_hw (oracle_bus unguarded) demo_image 5 0
      demo_map unguarded pe_table [] SINGLE_TEST_SENTINEL 0 demo_cfg_realm demo_state
      (oracle_setting unguarded _ (fun _ _ => eq_refl)) (demo_chosen 4) demo_good_realm
      (demo_start 4 ltac:(lia))) as (_ & _ & H).
    apply H.
    + intros F. apply (unguarded_not_owned _ (Forall_inv F)).
    + intros (rs & rg & _ & _ & F). apply (unguarded_not_open _ F).
Defined.

Lemma rme011_never_fails_witness :
  wp (@rme011_entry unit unit one_pe quiet_hw demo_bus demo_image 5 0 [] SINGLE_TEST_SENTINEL 0 demo_cfg)
    (fun st _ => st = ACS_STATUS_PASS) demo_state.
Proof.
  refine (@rme011_never_fails unit unit one_pe quiet_hw demo_bus demo_image 5 0 demo_map root_only pe_table
    [] SINGLE_TEST_SENTINEL 0 demo_cfg demo_state (demo_setting _) (demo_chosen 11) demo_good
    (demo_start 4 ltac:(lia)) _).
  intros rg Hrg. apply list.elem_of_cons in Hrg as [->|Hrg]; [reflexivity|].
  destruct (proj1 (list.elem_of_nil _) Hrg).
Defined.

Lemma location_tests_verdict_witness :
  wp (@rme_entry unit unit one_pe [] SINGLE_TEST_SENTINEL 0 25
        (@rme025_payload unit unit one_pe quiet_hw demo_bus demo_image 5 0 0xFFC00000))
    (fun st _ => st = ACS_STATUS_PASS) demo_state.
Proof.
  destruct (@location_tests_verdict unit unit one_pe quiet_hw demo_bus demo_image 5 0 demo_map root_only
    pe_table [] SINGLE_TEST_SENTINEL 0 0xFFC00000 demo_state (demo_setting _) ltac:(lia)
    (demo_start 4 ltac:(lia)) eq_refl eq_refl 25
    (@rme025_payload unit unit one_pe quiet_hw demo_bus demo_image 5 0 0xFFC00000)
    ROOT_PAS [REALM_PAS; NONSECURE_PAS] SECURE_PAS
    (or_intror (or_intror (or_introl eq_refl))) (demo_chosen 25)) as [H _].
  apply H. split; [reflexivity|]. intros pas Hpas.
  repeat (apply list.elem_of_cons in Hpas as [->|Hpas]; [reflexivity|]).
  destruct (proj1 (list.elem_of_nil _) Hpas).
Defined.

Lemma rme029_vacuous_witness :
  wp (@rme029_payload unit unit one_pe quiet_hw demo_bus demo_image 5 0 true mem_region_pas_filter_cfg)
    (fun _ s' => has_status (PES := one_pe) pe_table (RESULT_PASS 29 1) (l_run s')) demo_state.
Proof.
  refine (wp_mono _ _ _ _ _ (@rme029_vacuous unit unit one_pe quiet_hw demo_bus demo_image 5 0 demo_map
    pe_table demo_state (fun _ _ => eq_refl) (demo_start 0 ltac:(lia)))).
  intros [] s' [H _]. exact H.
Defined.
