(* ===== verification/TestMem.v ===== *)
(** * TestMem

    The tests of test_pool/rme/ about memory encryption, caches and the point of
    physical aliasing: test_rme005.c, 010, 014, 015, 019, 020 and 022. They let
    EL3 make a list of accesses to pages mapped for several physical address
    spaces and compare the data. *)

From Stdlib Require Import ZArith Lia Bool List.
From stdpp Require Import base tactics numbers list gmap option.
From S2P Require Import Prelude Memory El3State El3Pgt El3Common El3Handler El3Call El3Smc TestRun TestModules Da PcieDa TestPas.

(** ** Constants (rme_acs_el32.h) *)
Definition RANDOM_DATA_1 : Z := 0x99.
Definition RANDOM_DATA_2 : Z := 0x77.
Definition INNER_SHAREABLE : Z := 0x3.
Definition WRITE_BACK_NT : Z := 0xFF.
Definition NON_CACHEABLE : Z := 0x44.

Section mem.
Context {W D : Type} {PES : Pes W} {HW : Hw D} {BUS : El3Bus D} {NS : NsBus D}.
Variables (im : el3_image) (fuel : nat) (mmfr0 : Z).
Abbreviation P := (M (lst W D)).
Abbreviation size := (min_tg mmfr0).

Definition put_read (i : nat) (VA : Z) : P unit :=
  upd_access i (fun a => mk_access READ_DATA VA (acc_data a)).
Definition put_write (i : nat) (VA data : Z) : P unit :=
  upd_access i (fun _ => mk_access WRITE_DATA VA data).
Definition data_at (i : nat) : P Z := let! a := shared_access i in ret (acc_data a).
(** [val_pe_access_mut_el3] for a list of [n] accesses. *)
Definition run_accesses (n : Z) (prepare : P unit) : P unit :=
  upd (set_num_access n) ;; prepare ;; access_mut_el3 im fuel.
Definition gpt_el3 (PA gpi : Z) : P unit :=
  call im (val_add_gpt_entry_el3 (vector_at im) fuel PA gpi).
Definition cmo_el3 (PA pas : Z) : P unit :=
  call im (val_data_cache_ops_by_pa_el3 (vector_at im) fuel PA pas).
(** A store of the test itself, not through EL3. *)
Definition direct_store (PA v : Z) : P unit :=
  el3_call (modify (fun s => set_dev (ns_write (e_dev s) PA v) s)).
Definition set_result (index test_num : Z) (pass : bool) : P unit :=
  runner (val_set_status index
    (if pass then RESULT_PASS test_num 1 else RESULT_FAIL test_num 1)).

(** Attributes with a memory type. *)
Definition typed_attr (shareability type pas : Z) : P Z :=
  let! i := use (GET_ATTR_INDEX type) in
  ret (LOWER_ATTRS (PGT_ENTRY_ACCESS .| SHAREABLE_ATTR shareability .| i .| PGT_ENTRY_AP_RW .|
                    PAS_ATTR pas)).

(** What tests 5 and 19 do once the attributes are chosen. *)
Definition popa_sequence (index test_num PA VA_S VA_NS attr_sec attr_ns wt_data_s : Z) : P unit :=
  map_page_el3 im fuel VA_S PA attr_sec ;;
  map_page_el3 im fuel VA_NS PA attr_ns ;;
  run_accesses 3 (put_read 0 VA_S ;; put_read 1 VA_NS ;; put_write 2 VA_S wt_data_s) ;;
  let! rd_data_s := data_at 0 in
  let! rd_data_ns := data_at 1 in
  cmo_el3 PA SECURE_PAS ;;
  cmo_el3 PA NONSECURE_PAS ;;
  run_accesses 1 (put_read 0 VA_NS) ;;
  let! ns_data_popa := data_at 0 in
  set_result index test_num (negb (ns_data_popa =? rd_data_ns) &&
    negb (ns_data_popa =? wt_data_s) && negb (ns_data_popa =? rd_data_s)).

Definition rme005_payload : P unit :=
  let! index := runner my_index in
  let! PA := runner (val_get_free_pa size size) in
  let! VA_S := free_va size in
  let! VA_NS := free_va size in
  gpt_el3 PA GPT_ANY ;;
  direct_store PA INIT_DATA ;;
  popa_sequence index (ACS_RME_TEST_NUM_BASE + 5) PA VA_S VA_NS (attr_for SECURE_PAS)
    (attr_for NONSECURE_PAS) RANDOM_DATA_2.

Definition rme019_payload : P unit :=
  let! index := runner my_index in
  let! PA := runner (val_get_free_pa size size) in
  let! VA_S := free_va size in
  let! VA_NS := free_va size in
  gpt_el3 PA GPT_ANY ;;
  direct_store PA INIT_DATA ;;
  let! attr_sec := typed_attr OUTER_SHAREABLE NON_CACHEABLE SECURE_PAS in
  let! attr_ns := typed_attr OUTER_SHAREABLE NON_CACHEABLE NONSECURE_PAS in
  popa_sequence index (ACS_RME_TEST_NUM_BASE + 19) PA VA_S VA_NS attr_sec attr_ns RANDOM_DATA_1.

Definition rme010_payload : P unit :=
  let! index := runner my_index in
  let! PA := runner (val_get_free_pa size size) in
  let! VA_NS := free_va size in
  let! VA_RT := free_va size in
  let! VA_RL := free_va size in
  let! VA_S := free_va size in
  gpt_el3 PA GPT_ANY ;;
  map_page_el3 im fuel VA_NS PA (attr_for NONSECURE_PAS) ;;
  map_page_el3 im fuel VA_RT PA (attr_for ROOT_PAS) ;;
  map_page_el3 im fuel VA_RL PA (attr_for REALM_PAS) ;;
  map_page_el3 im fuel VA_S PA (attr_for SECURE_PAS) ;;
  let wt_data_ns := RANDOM_DATA_1 in
  run_accesses 1 (put_write 0 VA_NS wt_data_ns) ;;
  call im (val_data_cache_ops_by_va_el3 (vector_at im) fuel VA_NS CLEAN_AND_INVALIDATE) ;;
  run_accesses 3 (put_read 0 VA_RT ;; put_read 1 VA_RL ;; put_read 2 VA_S) ;;
  let! data_rt := data_at 0 in
  let! data_rl := data_at 1 in
  let! data_s := data_at 2 in
  set_result index (ACS_RME_TEST_NUM_BASE + 10)
    (negb (data_rt =? wt_data_ns) && negb (data_rt =? data_rl) && negb (data_rt =? data_s) &&
     negb (data_rl =? wt_data_ns) && negb (data_rl =? data_s) && negb (data_s =? wt_data_ns)).

(** Some of the nested conditions of test 14 have no [else]: the status stays
    pending. *)
Definition rme014_payload : P unit :=
  let! index := runner my_index in
  let! PA := runner (val_get_free_pa size size) in
  let! VA_RL := free_va size in
  let! VA_RT := free_va size in
  let! VA_S := free_va size in
  let! VA_NS := free_va size in
  gpt_el3 PA GPT_ANY ;;
  map_page_el3 im fuel VA_RL PA (attr_for REALM_PAS) ;;
  map_page_el3 im fuel VA_RT PA (attr_for ROOT_PAS) ;;
  map_page_el3 im fuel VA_S PA (attr_for SECURE_PAS) ;;
  map_page_el3 im fuel VA_NS PA (attr_for NONSECURE_PAS) ;;
  let data_wt_rt := RANDOM_DATA_1 in
  run_accesses 1 (put_write 0 VA_RT data_wt_rt) ;;
  cmo_el3 PA SECURE_PAS ;;
  cmo_el3 PA NONSECURE_PAS ;;
  cmo_el3 PA REALM_PAS ;;
  cmo_el3 PA ROOT_PAS ;;
  run_accesses 3 (put_read 0 VA_RL ;; put_read 1 VA_S ;; put_read 2 VA_NS) ;;
  let! data_rd_rl := data_at 0 in
  let! data_rd_s := data_at 1 in
  let! data_rd_ns := data_at 2 in
  let test_num := ACS_RME_TEST_NUM_BASE + 14 in
  if negb (data_rd_rl =? data_wt_rt) && negb (data_rd_rl =? data_rd_s) &&
     negb (data_rd_rl =? data_rd_ns) then
    when negb (data_rd_s =? data_wt_rt) && negb (data_rd_s =? data_rd_ns) &&
         negb (data_rd_ns =? data_wt_rt)
    then set_result index test_num true
  else set_result index test_num false.

(** The blocks of test 15; [PA_NXT_BLK] is the address it maps for the second. *)
Definition rme015_run (index PA PA_NXT_BLK VA_S VA_S_NXT_BLK VA_NS VA_NS_NXT_BLK : Z) : P unit :=
  map_page_el3 im fuel VA_S PA (attr_for SECURE_PAS) ;;
  map_page_el3 im fuel VA_S_NXT_BLK PA_NXT_BLK (attr_for SECURE_PAS) ;;
  map_page_el3 im fuel VA_NS PA (attr_for NONSECURE_PAS) ;;
  map_page_el3 im fuel VA_NS_NXT_BLK PA_NXT_BLK (attr_for NONSECURE_PAS) ;;
  run_accesses 1 (put_write 0 VA_S RANDOM_DATA_1) ;;
  run_accesses 1 (put_write 0 VA_S_NXT_BLK RANDOM_DATA_1) ;;
  cmo_el3 PA SECURE_PAS ;;
  cmo_el3 (u64 (PA + 16)) SECURE_PAS ;;
  cmo_el3 PA NONSECURE_PAS ;;
  cmo_el3 (u64 (PA + 16)) NONSECURE_PAS ;;
  run_accesses 2 (put_read 0 VA_NS ;; put_read 1 VA_NS_NXT_BLK) ;;
  let! data_rd_ns := data_at 0 in
  let! data_rd_ns_nxt_blk := data_at 1 in
  set_result index (ACS_RME_TEST_NUM_BASE + 15) (negb (data_rd_ns_nxt_blk =? data_rd_ns)).
Definition rme015_with (next_block : Z -> Z) : P unit :=
  let! index := runner my_index in
  let! PA := runner (val_get_free_pa size size) in
  let! VA_S := free_va size in
  let! VA_S_NXT_BLK := free_va size in
  let! VA_NS := free_va size in
  let! VA_NS_NXT_BLK := free_va size in
  rme015_run index PA (next_block PA) VA_S VA_S_NXT_BLK VA_NS VA_NS_NXT_BLK.
Definition rme015_payload : P unit := rme015_with (fun PA => u64 (PA + 16)).

Definition rme020_payload : P unit :=
  let! index := runner my_index in
  let! PA := runner (val_get_free_pa size size) in
  let! VA_NS := free_va size in
  let! attr_ns := typed_attr INNER_SHAREABLE WRITE_BACK_NT NONSECURE_PAS in
  let! VA_RT := free_va size in
  let! attr_rt := typed_attr INNER_SHAREABLE WRITE_BACK_NT ROOT_PAS in
  let! VA_RL := free_va size in
  let! attr_rl := typed_attr INNER_SHAREABLE WRITE_BACK_NT REALM_PAS in
  let! VA_S := free_va size in
  let! attr_s := typed_attr INNER_SHAREABLE WRITE_BACK_NT SECURE_PAS in
  gpt_el3 PA GPT_ANY ;;
  map_page_el3 im fuel VA_NS PA attr_ns ;;
  map_page_el3 im fuel VA_RT PA attr_rt ;;
  map_page_el3 im fuel VA_RL PA attr_rl ;;
  map_page_el3 im fuel VA_S PA attr_s ;;
  run_accesses 1 (put_write 0 VA_NS INIT_DATA) ;;
  cmo_el3 PA NONSECURE_PAS ;;
  run_accesses 1 (put_read 0 VA_NS) ;;
  let wt_data_ns := RANDOM_DATA_1 in
  run_accesses 4 (put_write 0 VA_NS wt_data_ns ;; put_read 1 VA_RT ;; put_read 2 VA_RL ;;
                  put_read 3 VA_S) ;;
  let! data_rt := data_at 1 in
  let! data_rl := data_at 2 in
  let! data_s := data_at 3 in
  set_result index (ACS_RME_TEST_NUM_BASE + 20)
    (negb (data_rt =? wt_data_ns) && negb (data_rl =? wt_data_ns) && negb (data_s =? wt_data_ns)).

(** The last condition of test 22 sets the status on both branches. *)
Definition rme022_payload (IS_NS_ENCRYPTION_PROGRAMMABLE : Z) : P unit :=
  let! index := runner my_index in
  let test_num := ACS_RME_TEST_NUM_BASE + 22 in
  if IS_NS_ENCRYPTION_PROGRAMMABLE =? CLEAR then
    runner (val_set_status index (RESULT_SKIP test_num 1)) else
  let! PA := runner (val_get_free_pa size size) in
  let! VA_NS := free_va size in
  map_page_el3 im fuel VA_NS PA (attr_for NONSECURE_PAS) ;;
  let wt_ns_data := RANDOM_DATA_1 in
  run_accesses 2 (put_write 0 VA_NS wt_ns_data ;; put_read 1 VA_NS) ;;
  cmo_el3 PA NONSECURE_PAS ;;
  call im (El3Call.val_enable_ns_encryption (vector_at im) fuel) ;;
  cmo_el3 PA NONSECURE_PAS ;;
  run_accesses 1 (put_read 0 VA_NS) ;;
  let! rd_data_encrpt_enbl := data_at 0 in
  call im (El3Call.val_disable_ns_encryption (vector_at im) fuel) ;;
  cmo_el3 PA NONSECURE_PAS ;;
  run_accesses 1 (put_read 0 VA_NS) ;;
  let! rd_data_encrpt_disbl := data_at 0 in
  (when wt_ns_data =? rd_data_encrpt_enbl then set_result index test_num false) ;;
  set_result index test_num (rd_data_encrpt_enbl =? rd_data_encrpt_disbl).

(** The entry function of each test. *)
Section entry.
Variables (g_skip_test_num : list Z) (g_single_test g_single_module : Z).
Definition mem_entry (n : Z) : P unit -> P Z :=
  rme_entry g_skip_test_num g_single_test g_single_module (ACS_RME_TEST_NUM_BASE + n).
Definition rme005_entry : P Z := mem_entry 5 rme005_payload.
Definition rme010_entry : P Z := mem_entry 10 rme010_payload.
Definition rme014_entry : P Z := mem_entry 14 rme014_payload.
Definition rme015_entry : P Z := mem_entry 15 rme015_payload.
Definition rme019_entry : P Z := mem_entry 19 rme019_payload.
Definition rme020_entry : P Z := mem_entry 20 rme020_payload.
Definition rme022_entry (IS_NS_ENCRYPTION_PROGRAMMABLE : Z) : P Z :=
  mem_entry 22 (rme022_payload IS_NS_ENCRYPTION_PROGRAMMABLE).
End entry.
End mem.
