(* ===== verification/TestMemSpec.v ===== *)
(** * TestMemSpec

    What the tests of [TestMem] can and cannot tell: test 15 compares a location
    with itself, test 22 passes where nothing is encrypted. *)

From Stdlib Require Import ZArith Lia Bool List.
From stdpp Require Import base tactics numbers list gmap option.
From S2P Require Import Prelude Memory El3State El3Pgt El3Mmu El3Common El3Handler El3Spec El3Call El3Smc El3Map TestRun TestRunSpec TestModules Da PcieDa TestPas TestPasSpec TestMem.

(** ** Equal runs *)

Lemma bind_run {S A B} (m : M S A) (f g : A -> M S B) s :
  (forall a s', m s = Done a s' -> f a s' = g a s') -> bind m f s = bind m g s.
Proof. intros H. unfold bind. destruct (m s) as [a s'| |] eqn:E; [by apply H|done..]. Qed.
Lemma bind_cong {S A B} (m m' : M S A) (f g : A -> M S B) s :
  m s = m' s -> (forall a s', f a s' = g a s') -> bind m f s = bind m' g s.
Proof. intros Hm H. unfold bind. rewrite Hm. by destruct (m' s). Qed.

(** ** Both blocks of test 15 *)

Lemma loop_ext {S X R} (b b' : X -> M S (X + R)) fuel x s :
  (forall x s, b x s = b' x s) -> loop fuel b x s = loop fuel b' x s.
Proof.
  intros H. revert x s. induction fuel as [|n IH]; intros x s; cbn [loop]; [done|].
  unfold bind. rewrite H. destruct (b' x s) as [[y|v] s'| |]; [apply IH|done..].
Qed.

(** The offset in the page of a physical address does not reach the tables. *)
Section page.
Context {D : Type} {HW : Hw D}.
Variables (pa off : Z).
Hypothesis Hpa : aligned pa 4096 /\ 0 <= pa < 2 ^ 64.
Hypothesis Hoff : 0 <= off < 4096.

Lemma page_part k : 12 <= k <= 16 -> (pa + off) .& bnot 64 (2 ^ k - 1) = pa .& bnot 64 (2 ^ k - 1).
Proof.
  intros Hk. destruct Hpa as [Ha Hr]. unfold aligned in Ha.
  pose proof (Z.div_mod pa 4096 ltac:(lia)) as Hd.
  assert (pa / 4096 < 2 ^ 52) by (apply Z.div_lt_upper_bound; lia).
  assert (pa + off < 2 ^ 64) by (change (2 ^ 64) with (4096 * 2 ^ 52); lia).
  rewrite !round_down by lia.
  assert (2 ^ k = 4096 * 2 ^ (k - 12)) as Hp by (change 4096 with (2 ^ 12); rewrite <- Z.pow_add_r by lia; f_equal; lia).
  assert (0 < 2 ^ (k - 12)) by (apply Z.pow_pos_nonneg; lia).
  assert ((pa + off) mod 2 ^ k = pa mod 2 ^ k + off) as ->; [|lia].
  symmetry. pose proof (Z.mod_pos_bound (pa / 4096) (2 ^ (k - 12)) ltac:(lia)) as Hm.
  assert (pa mod 2 ^ k = 4096 * ((pa / 4096) mod 2 ^ (k - 12))) as ->.
  { rewrite Hp, Z.mul_comm, <- Z.mul_mod_distr_l by lia. f_equal; lia. }
  apply Z.mod_unique with (pa / 2 ^ k); [left; nia|].
  pose proof (Z.div_mod pa (2 ^ k) ltac:(lia)). 
  assert (pa mod 2 ^ k = 4096 * ((pa / 4096) mod 2 ^ (k - 12))) as E; [|lia].
  rewrite Hp, Z.mul_comm, <- Z.mul_mod_distr_l by lia. f_equal; lia.
Qed.

Lemma page_mask ps : ps ∈ tg_arr -> (pa + off) .& bnot 64 (ps - 1) = pa .& bnot 64 (ps - 1).
Proof.
  unfold tg_arr. rewrite !list.elem_of_cons. intros [->|[->|[->|H]]].
  - by apply (page_part 12).
  - by apply (page_part 14).
  - by apply (page_part 16).
  - by apply list.elem_of_nil in H.
Qed.

Lemma mmu_step_page rec va attr ps l2 bpl n w (s : el3 D) : ps ∈ tg_arr ->
  mmu_step rec va (pa + off) attr ps l2 bpl n w s = mmu_step rec va pa attr ps l2 bpl n w s.
Proof.
  intros Hps. unfold mmu_step. destruct w as [[[tb lev] br] bl].
  apply bind_ext. intros hi s1. apply bind_ext. intros one s2.
  destruct (lev =? u32 (n - 1)).
  - apply bind_ext. intros [] s3. apply bind_ext. intros v s4. by rewrite page_mask.
  - apply bind_ext. intros v s3.
    destruct ((v =? 0) || IS_PGT_ENTRY_BLOCK v || (v .& 15 =? 15)) eqn:E; [done|].
    apply orb_false_iff in E as [[_ ->]%orb_false_iff _]. done.
Qed.

Lemma geometry_page tcr (s : el3 D) g s' : mmu_geometry tcr s = Done g s' ->
  fst (fst (fst (fst g))) ∈ tg_arr.
Proof.
  unfold mmu_geometry. intros H. minv. cbn [fst].
  unfold nth_chk in Hr0. destruct (if tcr_tg tcr <? 0 then None else _) as [p|] eqn:E; [|done].
  injection Hr0 as -> ->. destruct (tcr_tg tcr <? 0); [done|].
  apply list.list_elem_of_lookup_2 with (Z.to_nat (tcr_tg tcr)). rewrite <- E.
  generalize (Z.to_nat (tcr_tg tcr)), tg_arr. clear. intros n l. revert n.
  induction l as [|a l IH]; intros [|n]; try done. apply IH.
Qed.

Lemma add_mmu_entry_page fuel va attr (s : el3 D) :
  add_mmu_entry fuel va (pa + off) attr s = add_mmu_entry fuel va pa attr s.
Proof.
  destruct fuel as [|n]; [done|]. cbn [add_mmu_entry].
  apply bind_ext. intros tcr s1. apply bind_ext. intros ttbr s2.
  unfold bind at 1 3. destruct (mmu_geometry tcr s2) as [g s3| |] eqn:E; [|done..].
  apply geometry_page in E. destruct g as [[[[ps l2] bpl] np] ias]. cbn [fst] in E.
  unfold bind. erewrite loop_ext; [reflexivity|]. intros x s4. by apply mmu_step_page.
Qed.

Lemma service_page vec fuel va attr (s : el3 D) :
  val_add_mmu_entry_el3 vec fuel va (pa + off) attr s = val_add_mmu_entry_el3 vec fuel va pa attr s.
Proof.
  change (bind (add_mmu_entry fuel (u64 va) (u64 (pa + off)) (u64 attr)) (fun _ => emit (EvTlbiVae3 (u64 va))) s =
          bind (add_mmu_entry fuel (u64 va) (u64 pa) (u64 attr)) (fun _ => emit (EvTlbiVae3 (u64 va))) s).
  assert (u64 (pa + off) = pa + off) as ->.
  { destruct Hpa as [Ha Hr]. unfold aligned in Ha. pose proof (Z.div_mod pa 4096 ltac:(lia)).
    assert (pa / 4096 < 2 ^ 52) by (apply Z.div_lt_upper_bound; lia).
    apply wrap_small. change (2 ^ 64) with (4096 * 2 ^ 52). lia. }
  assert (u64 pa = pa) as -> by (apply wrap_small, Hpa).
  unfold bind. by rewrite add_mmu_entry_page.
Qed.
End page.

Section calls.
Context {W D : Type} {PES : Pes W} {HW : Hw D} {BUS : El3Bus D}.
Variables (im : el3_image) (fuel : nat) (mmfr0 : Z).

Lemma smc_ext (m m' : E D unit) e : (forall e, m e = m' e) -> smc im m e = smc im m' e.
Proof.
  intros H. unfold smc. apply bind_ext. intros v e1. destruct (negb _); [apply H|].
  apply bind_ext. intros [] e2. apply bind_ext. intros [| |a] e3; [done..|apply H].
Qed.
Lemma map_page_page pa off va attr (s : lst W D) :
  aligned pa 4096 /\ 0 <= pa < 2 ^ 64 -> 0 <= off < 4096 ->
  map_page_el3 im fuel va (pa + off) attr s = map_page_el3 im fuel va pa attr s.
Proof.
  intros Hpa Hoff. unfold map_page_el3, call, el3_call, zoom.
  rewrite (smc_ext _ (val_add_mmu_entry_el3 (vector_at im) fuel va pa attr)); [reflexivity|].
  intros e. exact (service_page pa off Hpa Hoff (vector_at im) fuel va attr e).
Qed.

Lemma free_pa_value size al (t t' : tst W) PA : val_get_free_pa size al t = Done PA t' ->
  PA = free_mem_var_pa t .& bnot 64 (al - 1).
Proof. unfold val_get_free_pa, bind, gets, modify, ret. by intros [= <- _]. Qed.

(** Free physical addresses are aligned to the granule. *)
Lemma free_pa_page (s : lst W D) PA s' :
  0 <= free_mem_var_pa (l_run s) < 2 ^ 64 ->
  runner (val_get_free_pa (min_tg mmfr0) (min_tg mmfr0)) s = Done PA s' ->
  aligned PA 4096 /\ 0 <= PA /\ PA + 16 < 2 ^ 64.
Proof.
  intros Hx H. apply runner_inv in H as [H _]. apply free_pa_value in H as ->.
  set (x := free_mem_var_pa (l_run s)) in *.
  assert (exists k, 12 <= k <= 16 /\ min_tg mmfr0 = 2 ^ k) as (k & Hk & ->).
  { unfold min_tg, val_get_min_tg. destruct (_ =? 0); [by exists 12|].
    destruct (_ =? 0); [by exists 14|by exists 16]. }
  assert (aligned (x .& bnot 64 (2 ^ k - 1)) 4096) as Ha.
  { change 4096 with (2 ^ 12). apply land_low_aligned; [lia|]. apply Z.bits_inj'. intros i Hi.
    rewrite !Z.land_spec, Z.bits_0. unfold bnot. rewrite testbit_wrap, Z.lnot_spec by lia.
    change (2 ^ 12 - 1) with (Z.ones 12). replace (2 ^ k - 1) with (Z.ones k) by (rewrite Z.ones_equiv; lia).
    rewrite !Z.testbit_ones by lia. replace (0 <=? i) with true by lia.
    destruct (Z.ltb_spec i 12); [|by rewrite andb_false_r].
    replace (i <? k) with true by lia. cbn. by rewrite andb_false_r. }
  assert (0 <= x .& bnot 64 (2 ^ k - 1) < 2 ^ 64) as Hr.
  { apply land_range; [lia| |done]. apply wrap_range. lia. }
  split; [done|]. split; [lia|]. unfold aligned in Ha.
  pose proof (Z.div_mod (x .& bnot 64 (2 ^ k - 1)) 4096 ltac:(lia)).
  assert ((x .& bnot 64 (2 ^ k - 1)) / 4096 < 2 ^ 52) by (apply Z.div_lt_upper_bound; lia).
  change (2 ^ 64) with (4096 * 2 ^ 52). lia.
Qed.
End calls.
(** Test 15 (a different tweak in each 16-byte block) maps the second block
    at the next address, but the offset in the page does not reach the tables of
    EL3: the run of the test is the run in which both blocks are mapped at the
    same address, so it compares the first block with itself. *)
Theorem rme015_same_block {W D} {PES : Pes W} {HW : Hw D} {BUS : El3Bus D} (im : el3_image) fuel mmfr0
    (s : lst W D) : 0 <= free_mem_var_pa (l_run s) < 2 ^ 64 ->
  rme015_payload im fuel mmfr0 s = rme015_with im fuel mmfr0 (fun PA => PA) s.
Proof.
  intros Hpa. unfold rme015_payload, rme015_with. apply bind_run. intros i s1 E.
  assert (0 <= free_mem_var_pa (l_run s1) < 2 ^ 64) as Hpa1.
  { apply runner_inv in E as [E _]. unfold my_index, val_pe_get_mpid, val_pe_get_index_mpid in E. minv.
    destruct (t_pes (l_run s)); [by injection Hr1 as -> <-|done]. }
  apply bind_run. intros PA s2 E1.
  destruct (free_pa_page mmfr0 s1 PA s2 Hpa1 E1) as (Ha & H0 & H1).
  assert (aligned PA 4096 /\ 0 <= PA < 2 ^ 64) as Hb by (split; [done|lia]).
  do 4 (apply bind_ext; intros ? ?). unfold rme015_run.
  assert (u64 (PA + 16) = PA + 16) as -> by (apply wrap_small; lia).
  apply bind_ext. intros [] s3. apply bind_cong; [by apply map_page_page|]. intros [] s4.
  apply bind_ext. intros [] s5. apply bind_cong; [by apply map_page_page|]. done.
Qed.

(** On the machine of the tests of [TestPasSpec]. *)
Lemma rme015_same_block_witness :
  0 <= free_mem_var_pa (l_run demo_state) < 2 ^ 64 /\
  @rme015_payload unit unit one_pe quiet_hw demo_bus demo_image 5 0 demo_state =
  @rme015_with unit unit one_pe quiet_hw demo_bus demo_image 5 0 (fun PA => PA) demo_state.
Proof.
  split; [by split|].
  refine (@rme015_same_block unit unit one_pe quiet_hw demo_bus demo_image 5 0 demo_state _).
  by split.
Defined.
