(* ===== verification/TestDa.v ===== *)
(** * TestDa

    The device assignment tests of test_pool/da/: test_da001.c to 007, 009 to
    012 and 016 to 020. They run on the state of the test runner, of EL3 and of
    the PCIe library ([PcieDa.sys]), with the response buffer of the TDISP
    messages and the table of exercisers. *)

From Stdlib Require Import ZArith Lia Bool List String.
From stdpp Require Import base tactics numbers list gmap option.
From S2P Require Import Prelude Memory El3State El3Handler El3Call Pcie PcieEnum PciePal TestRun TestModules Exerciser Da PcieDa TestPas.

(** ** Constants (rme_acs_pcie_spec.h, rme_acs_el32.h) *)
Definition DCAPR_OFFSET : Z := 0x4.
Definition DCAPR_TEE_SHIFT : Z := 30.
Definition DCAPR_TEE_MASK : Z := 1.
Definition TEE_LIM_STR_SUPP_MASK : Z := 0x1000000.
Definition TEE_LIM_STR_SUPP_SHIFT : Z := 24.
Definition RMEDA_ECH : Z := 0x0.
Definition RMEDA_HEAD1 : Z := 0x4.
Definition RMEDA_CTL2 : Z := 0x10.
Definition RMEDA_ECH_ID : Z := 0x0023.
Definition ECID_AER : Z := 0x0001.
Definition ECID_MC : Z := 0x0012.
Definition ECID_RBAR : Z := 0x0015.
Definition ECID_DCAP3 : Z := 0x0027.
Definition CID_EA : Z := 0x14.
Definition DSTS_SHIFT : Z := 16.
Definition DS_UNCORR_MASK : Z := 0x6.
Definition SEL_STR_LOCK_VALID_MAX : Z := 0xFFFFFFFF.
Definition SEL_STR_LOCK_VALID_MASK (x : Z) : Z := u32 (u32 (1 << x) - 1).
Definition WRITE_DATA_CTL1 : Z := 0x1.
Definition WRITE_DATA_CTL1_REV : Z := 0x0.
Definition WRITE_DATA_CTL2 : Z := 0xFFFFFFFF.
Definition TEST_DATA_DA : Z := 0xABCD.
(** The enumerator [UNCORR_INT_ERR] (rme_acs_exerciser.h). *)
Definition UNCORR_INT_ERR_code : Z := 0x14.

(** ** Bit-field tables (test_da001_data.h, test_da018_data.h) *)

Definition da001_field (offset st en value : Z) (attr : attr_type) (err1 err2 : string)
    : bitfield_entry :=
  mk_bf PCIE_ECAP 0 RMEDA_ECH_ID offset RP st en value attr err1 err2.
Definition bf_info_table : list bitfield_entry :=
  [da001_field RMEDA_ECH 0 15 0x0023 READ_ONLY
     "ERROR ECH_ID mismatch" "ERROR ECH_ID attribute mismatch";
   da001_field RMEDA_ECH 16 19 0x1 READ_ONLY
     "ERROR Capability version mismatch" "ERROR Capability version attribute mismatch";
   da001_field RMEDA_HEAD1 0 15 0x13B5 READ_ONLY
     "ERROR DVSEC Vendor ID mismatch" "ERROR DVSEC Vendor ID attribute mismatch";
   da001_field RMEDA_HEAD1 16 19 0x0 READ_ONLY
     "ERROR DVSEC_REVISION value mismatch" "ERROR DVSEC REVISIOn attribute mismatch";
   da001_field RMEDA_HEAD1 20 31 0x014 READ_ONLY
     "ERROR DVSEC_LENGTH value mismatch" "ERROR DVSEC_LENGTH attribute mismatch";
   da001_field RMEDA_HEAD2 0 15 0xFF01 READ_ONLY
     "ERROR DVSEC_ID value mismatch" "ERROR DVSEC_ID attribute mismatch";
   da001_field RMEDA_CTL1 1 31 0 RSVDP_RO
     "ERROR UnIMP bits are Not RES0" "ERROR UnIMP Bits attribute mismatch"].

Definition detect (type : reg_type) (cap ecap offset st en value : Z) (err2 : string)
    : bitfield_entry :=
  mk_bf type cap ecap offset RP st en value WRITE_DETECT "WARNING" err2.
Definition bf_info_table18 : list bitfield_entry :=
  [detect HEADER 0 0 0x04 1 1 0 "ERROR Write-detect failed for Memory Space/Bus Master";
   detect HEADER 0 0 0x04 2 2 0 "ERROR Write-detect failed for Memory Space/Bus Master";
   detect HEADER 0 0 0x0C 6 6 0 "ERROR Write-detect failed for BIST Register";
   detect HEADER 0 0 0x10 31 0 0xFFFFFFFF "ERROR Write-detect failed for Base Address Registers";
   detect HEADER 0 0 0x18 0 7 0 "ERROR Write-detect failed for Primary Bus Number";
   detect HEADER 0 0 0x18 8 15 0 "ERROR Write-detect failed for Secondary Bus Number";
   detect HEADER 0 0 0x18 16 23 0 "ERROR Write-detect failed for Subordinate Bus Number";
   detect HEADER 0 0 0x20 4 15 0 "ERROR Write-detect failed for Memory Base/Memory Limit";
   detect HEADER 0 0 0x20 20 31 0 "ERROR Write-detect failed for Memory Base/Memory Limit";
   detect HEADER 0 0 0x24 0 31 0 "ERROR Write-detect failed for Prefetchable Memory Base/Limit";
   detect PCIE_CAP CID_PCIECS 0 0x10 4 4 0 "ERROR Write-detect failed for Link Disable";
   detect PCIE_CAP CID_PCIECS 0 0x08 8 8 0 "ERROR Write-detect failed for Extended Tag Field Enable";
   detect PCIE_CAP CID_PCIECS 0 0x28 12 12 0 "ERROR Write-detect failed for 10-Bit Tag Requester Enable";
   detect PCIE_ECAP 0 ECID_DCAP3 0x08 6 6 0 "ERROR Write-detect failed for 14-Bit Tag Requester Enable";
   detect PCIE_CAP CID_EA 0 0x00 16 21 0 "ERROR Write-detect failed for Enhanced Allocation";
   detect PCIE_ECAP 0 ECID_MC 0x04 31 31 0 "ERROR Write-detect failed for MC_Enable";
   detect PCIE_ECAP 0 ECID_RBAR 0x08 8 13 0 "ERROR Write-detect failed for BAR Size"].

(** ** The state *)

Record dsys (W D : Type) := mk_dsys {
  z_sys : sys W D; z_response : list Z; z_vars : gvar -> Z; z_cards : EXERCISER_INFO_TABLE
}.
Arguments mk_dsys {W D}. Arguments z_sys {W D}. Arguments z_response {W D}.
Arguments z_vars {W D}. Arguments z_cards {W D}.
Abbreviation Z_ W D := (M (dsys W D)).

Section da.
Context {W D : Type} {PES : Pes W} {HW : Hw D} {NB : NsBus D} {PAL : PciPal}.
Context (platform_pcie_cfg : list ecam_block).
(** The vector table, the fuel and the value of ID_AA64MMFR0_EL1. *)
Variables (vec : Z) (fuel : nat) (mmfr0 : Z).
Abbreviation DA := (Z_ W D).

Definition sysm {A} (m : M (sys W D) A) : DA A :=
  zoom z_sys (fun y s => mk_dsys y (z_response s) (z_vars s) (z_cards s)) m.
Definition run_ {A} (m : TestRun.T W A) : DA A := sysm (runs m).
Definition root_ {A} (m : E D A) : DA A := sysm (at_el3 m).
(** Below EL3 the bus is the Non-secure one ([ns_hw]). *)
Definition ns {A} (m : P D A) : DA A := sysm (on_pci m).
Definition tdisp {A} (m : Da.T D A) : DA A :=
  zoom (fun s => mk_dst (pci_of (z_sys s)) (z_response s))
    (fun t s => mk_dsys (put_pci (d_pci t) (z_sys s)) (response t) (z_vars s) (z_cards s)) m.
Definition card {A} (m : X D A) : DA A :=
  zoom (fun s => mk_xst (mk_est (pci_of (z_sys s)) (z_vars s)) (z_cards s))
    (fun x s => mk_dsys (put_pci (e_pci (x_est x)) (z_sys s)) (z_response s)
                  (e_vars (x_est x)) (g_exerciser_info_table x)) m.

Definition cfg_ (bdf off : Z) : DA Z := ns (cfg (HW := ns_hw) bdf (u32 off)).
Definition port_type_ (bdf : Z) : DA Z := ns (val_pcie_device_port_type (HW := ns_hw) fuel bdf).
(** The base of a capability, [None] when the call does not return success. *)
Definition capability_ (bdf : Z) (type : reg_type) (cid : Z) : DA (option Z) :=
  let! '(status, o) := ns (val_pcie_find_capability (HW := ns_hw) fuel bdf type cid) in
  if negb (status =? PCIE_SUCCESS) then ret None else let! o := use o in ret (Some o).
(** Whether it does, where the base is not used. *)
Definition present_ (bdf : Z) (type : reg_type) (cid : Z) : DA bool :=
  let! '(status, _o) := ns (val_pcie_find_capability (HW := ns_hw) fuel bdf type cid) in
  ret (status =? PCIE_SUCCESS).
Definition rootport_ (bdf : Z) : DA (Z * Z) := ns (val_pcie_get_rootport (HW := ns_hw) fuel bdf).
Definition bdfs_ : DA (list Z) := let! t := ns bdf_table in ret (map fst t).
Definition enable_tdisp_ (bdf : Z) : DA Z := sysm (val_pcie_enable_tdisp vec fuel mmfr0 bdf).
Definition disable_tdisp_ (bdf : Z) : DA Z := sysm (val_pcie_disable_tdisp vec fuel mmfr0 bdf).
Definition establish_ (bdf count stream_id base_limit : Z) : DA Z :=
  ns (val_ide_establish_stream (HW := ns_hw) fuel bdf count stream_id base_limit).
Definition lock_ (bdf : Z) : DA Z :=
  tdisp (val_device_lock (HW := ns_hw) platform_pcie_cfg fuel bdf).
Definition unlock_ (bdf : Z) : DA Z :=
  tdisp (val_device_unlock (HW := ns_hw) platform_pcie_cfg fuel bdf).
Definition stream_ : DA Z := run_ val_generate_stream_id.
Definition status_ (index v : Z) : DA unit := run_ (val_set_status index v).
Definition free_va_ : DA Z := run_ (val_get_free_va (val_get_min_tg mmfr0)).

(** The attributes of a device mapping for a physical address space. *)
Definition mapping_attr (pas : Z) : DA Z :=
  let! i := use (GET_ATTR_INDEX DEV_MEM_nGnRnE) in
  ret (u32 (LOWER_ATTRS (PGT_ENTRY_ACCESS .| SHAREABLE_ATTR OUTER_SHAREABLE .| i .|
                         PGT_ENTRY_AP_RW .| PAS_ATTR pas))).
(** A free virtual address that EL3 maps to [PA]. *)
Definition map_for (pas : Z) (PA : DA Z) : DA Z :=
  let! va := free_va_ in
  let! PA := PA in
  let! attr := mapping_attr pas in
  root_ (val_add_mmu_entry_el3 vec fuel va PA attr) ;;
  ret va.
(** [cfg_addr] has 32 bits. *)
Definition map_config_root (bdf : Z) : DA Z :=
  map_for El3State.ROOT_PAS
    (let! a := ns (val_pcie_get_bdf_config_addr bdf) in ret (u32 a)).
Definition write_from_root (addr data : Z) : DA unit := root_ (root_write vec fuel (u64 addr) (u32 data)).
(** A read of EL3 through the first entry of the shared array. *)
Definition read_from_root (addr : Z) : DA Z :=
  root_ (prepare READ_DATA (u64 addr) None ;; val_pe_access_mut_el3 vec fuel ;;
       let! a := access0 in ret (u32 (acc_data a))).

(** How a test ends: skipped, failed with [code], or passed. *)
Definition finish (index test_num : Z) (skip : bool) (fails code : Z) : DA unit :=
  status_ index
    (if skip then RESULT_SKIP test_num 1
     else if truthy fails then RESULT_FAIL test_num code else RESULT_PASS test_num 1).
Definition more (fails : Z) : Z := u32 (fails + 1).
Definition TEST_NUM (n : Z) : Z := ACS_RME_DA_TEST_NUM_BASE + n.

(** ** Tests of registers *)

Definition da001_payload : DA unit :=
  let! pe_index := run_ my_index in
  let! r := ns (val_pcie_register_bitfields_check (HW := ns_hw) fuel bf_info_table) in
  status_ pe_index (if truthy r then RESULT_FAIL (TEST_NUM 1) 1 else RESULT_PASS (TEST_NUM 1) 1).

(** [val_smmu_get_info] answers from a table that does not change:
    [num_smmu] controllers, [arch_rev] their architecture. The controllers are
    visited from the last one down; EL3 looks at the same one every time. *)
Fixpoint da002_from (index : Z) (arch_rev : Z -> Z) (n : nat) : DA unit :=
  match n with
  | 0%nat => status_ index (RESULT_PASS (TEST_NUM 2) 1)
  | S n' =>
      if arch_rev (Z.of_nat n') =? 2 then status_ index (RESULT_SKIP (TEST_NUM 2) 2) else
      root_ (val_smmu_check_rmeda_el3 vec fuel) ;;
      let! a := root_ access0 in
      let root_impl_smmu := VAL_EXTRACT_BITS (acc_data a) 0 0 in
      if root_impl_smmu =? 0 then status_ index (RESULT_FAIL (TEST_NUM 2) 1) else
      let rme_impl_smmu := VAL_EXTRACT_BITS (acc_data a) 3 3 in
      if rme_impl_smmu =? 0 then status_ index (RESULT_FAIL (TEST_NUM 2) 1) else
      da002_from index arch_rev n'
  end.
Definition da002_payload (num_smmu : Z) (arch_rev : Z -> Z) : DA unit :=
  let! index := run_ my_index in
  if num_smmu =? 0 then status_ index (RESULT_SKIP (TEST_NUM 2) 1)
  else da002_from index arch_rev (Z.to_nat num_smmu).

Definition da003_step (bdf test_fails : Z) : DA Z :=
  let! dp_type := port_type_ bdf in
  if negb (dp_type =? RP) then ret test_fails else
  let! o := capability_ bdf PCIE_CAP CID_PCIECS in
  match o with
  | None => ret (more test_fails)
  | Some cap_base =>
      let! reg_value := cfg_ bdf (cap_base + DCAPR_OFFSET) in
      let tee_io := (reg_value >> DCAPR_TEE_SHIFT) .& DCAPR_TEE_MASK in
      ret (if negb (tee_io =? 1) then more test_fails else test_fails)
  end.
Definition da003_payload : DA unit :=
  let! pe_index := run_ my_index in
  let! bdfs := bdfs_ in
  let! test_fails := for_list bdfs 0 da003_step in
  finish pe_index (TEST_NUM 3) false test_fails test_fails.

(** One selective stream: the offset of the next turn and the failures. The
    link blocks are stepped over for every stream. *)
Definition da004_stream (bdf num_tc_supp _count : Z) (x : Z * Z) : DA (Z * Z) :=
  let '(current_base_offset, test_fails) := x in
  let current_base_offset := u32 (current_base_offset + (num_tc_supp + 1) * LINK_IDE_BLK_SIZE) in
  let! reg_value := cfg_ bdf current_base_offset in
  let num_addr_asso_block := num_addr reg_value in
  let current_base_offset :=
    u32 (current_base_offset + SEL_IDE_CAP_REG_SIZE + RID_ADDR_REG1_SIZE + RID_ADDR_REG2_SIZE) in
  ret (if num_addr_asso_block <? 3 then (current_base_offset, more test_fails)
       else (u32 (current_base_offset + num_addr_asso_block * IDE_ADDR_REG_BLK_SIZE), test_fails)).
Definition da004_step (bdf test_fails : Z) : DA Z :=
  let! dp_type := port_type_ bdf in
  if negb (dp_type =? RP) then ret test_fails else
  let! o := capability_ bdf PCIE_ECAP ECID_IDE in
  match o with
  | None => ret test_fails
  | Some cap_base =>
      let! reg_value := cfg_ bdf (cap_base + IDE_CAP_REG) in
      if negb ((reg_value .& SEL_IDE_STR_MASK) >> SEL_IDE_STR_SHIFT =? 0x1)
      then ret (more test_fails) else
      let test_fails :=
        if negb ((reg_value .& TEE_LIM_STR_SUPP_MASK) >> TEE_LIM_STR_SUPP_SHIFT =? 1)
        then more test_fails else test_fails in
      let! '(_off, test_fails) :=
        for_list (zseq 0 (num_sel reg_value + 1)) (u32 (cap_base + IDE_CAP_REG_SIZE), test_fails)
          (da004_stream bdf (num_tc reg_value)) in
      ret test_fails
  end.
Definition da004_payload : DA unit :=
  let! pe_index := run_ my_index in
  let! bdfs := bdfs_ in
  let! test_fails := for_list bdfs 0 da004_step in
  finish pe_index (TEST_NUM 4) false test_fails test_fails.

(** The check of [RMEDA_CTL2]; [ctl2] is its address for EL3. When all 32 bits
    are in use the value is not read again before the comparison. *)
Definition da005_ctl2 (bdf da_cap_base ide_cap_base va test_fails : Z) : DA Z :=
  let ctl2 := va + da_cap_base + RMEDA_CTL2 in
  let! original_reg_val := cfg_ bdf (da_cap_base + RMEDA_CTL2) in
  let reg_value := original_reg_val in
  let! ide_reg_value := cfg_ bdf (ide_cap_base + IDE_CAP_REG) in
  let num_sel_ide_stream_supp := num_sel ide_reg_value + 1 in
  if num_sel_ide_stream_supp <? 32 then
    write_from_root ctl2 reg_value ;;
    let reg_value := reg_value >> num_sel_ide_stream_supp in
    let test_fails := if negb (reg_value =? 0) then more test_fails else test_fails in
    let write_val := u32 (reg_value .^ REG_MASK (num_sel_ide_stream_supp - 1) 0) in
    write_from_root ctl2 write_val ;;
    let! reg_value := cfg_ bdf (da_cap_base + RMEDA_CTL2) in
    write_from_root ctl2 original_reg_val ;;
    ret (if negb (reg_value =? write_val) then more test_fails else test_fails)
  else
    let write_val := bnot 32 reg_value in
    write_from_root ctl2 write_val ;;
    write_from_root ctl2 original_reg_val ;;
    ret (if negb (reg_value =? write_val) then more test_fails else test_fails).
Definition da005_step (bdf test_fails : Z) : DA Z :=
  let! dp_type := port_type_ bdf in
  if negb (dp_type =? RP) then ret test_fails else
  let! da := sysm (da_capability fuel bdf) in
  match da with
  | None => ret test_fails
  | Some da_cap_base =>
      let! ide := capability_ bdf PCIE_ECAP ECID_IDE in
      match ide with
      | None => ret test_fails
      | Some ide_cap_base =>
          let! va := map_config_root bdf in
          let! original_reg_val := cfg_ bdf (da_cap_base + RMEDA_CTL1) in
          let write_val := if original_reg_val =? 0x1 then 0x0 else 0x1 in
          write_from_root (va + da_cap_base + RMEDA_CTL1) write_val ;;
          let! reg_value := cfg_ bdf (da_cap_base + RMEDA_CTL1) in
          let test_fails := if negb (reg_value =? write_val) then more test_fails else test_fails in
          write_from_root (va + da_cap_base + RMEDA_CTL1) original_reg_val ;;
          da005_ctl2 bdf da_cap_base ide_cap_base va test_fails
      end
  end.
Definition da005_payload : DA unit :=
  let! pe_index := run_ my_index in
  let! bdfs := bdfs_ in
  let! test_fails := for_list bdfs 0 da005_step in
  finish pe_index (TEST_NUM 5) false test_fails test_fails.

(** The low word of the BAR. [bar_base] has 32 bits: the upper word that
    [val_pcie_get_mmio_bar] stores behind it is taken to fall on nothing that is
    read again. *)
Definition bar_word (bdf : Z) : DA Z :=
  let! v := ns (val_pcie_get_mmio_bar (HW := ns_hw) bdf 0) in ret (u32 v).
Definition da007_step (bdf : Z) (x : bool * Z) : DA (bool * Z) :=
  let '(test_skip, test_fails) := x in
  let! h := ns (val_pcie_function_header_type (HW := ns_hw) bdf) in
  let! dsf_bdf := (if h =? TYPE1_HEADER
                   then ns (val_pcie_get_downstream_function (HW := ns_hw) bdf) else ret None) in
  let! bar_base := bar_word (default bdf dsf_bdf) in
  if bar_base =? 0 then ret x else
  let! r := enable_tdisp_ bdf in
  if truthy r then ret x else
  let! va := map_for El3State.ROOT_PAS (ret bar_base) in
  let! data := read_from_root va in
  let! _r := disable_tdisp_ bdf in
  ret (false, if negb (data =? PCIE_UNKNOWN_RESPONSE) then more test_fails else test_fails).
Definition da007_payload : DA unit :=
  let! pe_index := run_ my_index in
  let! bdfs := bdfs_ in
  let! '(test_skip, test_fails) := for_list bdfs (true, 0) da007_step in
  finish pe_index (TEST_NUM 7) test_skip test_fails test_fails.

(** One address space of [check_rmsd_protect]: what is written is [data], which
    becomes what was read. *)
Definition rmsd_access (pa_offset orgn_val cfg_addr pas : Z) (x : Z * Z) : DA (Z * Z) :=
  let '(data, check_fails) := x in
  let! VA := free_va_ in
  let! attr := sysm device_attr in
  root_ (val_add_mmu_entry_el3 vec fuel VA cfg_addr (attr .| LOWER_ATTRS (PAS_ATTR pas))) ;;
  write_from_root (VA + pa_offset) data ;;
  let! data := read_from_root (VA + pa_offset) in
  let rmsd := (pas =? El3State.REALM_PAS) || (pas =? El3State.ROOT_PAS) in
  let check_fails := if Bool.eqb rmsd (data =? orgn_val) then more check_fails else check_fails in
  write_from_root (VA + pa_offset) orgn_val ;;
  ret (data, check_fails).
Definition check_rmsd_protect (pa_offset data orgn_val bdf : Z) : DA Z :=
  let! cfg_addr := ns (val_pcie_get_bdf_config_addr bdf) in
  let! '(_data, check_fails) :=
    for_list [El3State.ROOT_PAS; El3State.REALM_PAS; El3State.NONSECURE_PAS; El3State.SECURE_PAS]
      (data, 0) (rmsd_access pa_offset orgn_val cfg_addr) in
  ret check_fails.
(** The pattern for [RMEDA_CTL2]. *)
Definition ctl2_pattern (num_sel_ide_stream_supp reg_ctl2 : Z) : Z :=
  let write_val :=
    if num_sel_ide_stream_supp <? 32 then
      let write_val := SEL_STR_LOCK_VALID_MASK num_sel_ide_stream_supp .& SEL_STR_LOCK_VALID_MAX in
      if reg_ctl2 =? write_val
      then bnot 32 write_val .& SEL_STR_LOCK_VALID_MASK num_sel_ide_stream_supp else write_val
    else WRITE_DATA_CTL2 in
  if reg_ctl2 =? write_val then bnot 32 write_val else write_val.
Definition da009_step (bdf : Z) (x : bool * Z) : DA (bool * Z) :=
  let '(test_skip, test_fails) := x in
  let! dp_type := port_type_ bdf in
  if negb (dp_type =? RP) then ret x else
  let! da := sysm (da_capability fuel bdf) in
  match da with
  | None => ret x
  | Some da_cap_base =>
      let! ide := capability_ bdf PCIE_ECAP ECID_IDE in
      match ide with
      | None => ret x
      | Some ide_cap_base =>
          let! reg_ctl1 := cfg_ bdf (da_cap_base + RMEDA_CTL1) in
          let! reg_ctl2 := cfg_ bdf (da_cap_base + RMEDA_CTL2) in
          let write_val := if reg_ctl1 =? WRITE_DATA_CTL1 then WRITE_DATA_CTL1_REV
                           else WRITE_DATA_CTL1 in
          ns (val_pcie_write_cfg (HW := ns_hw) bdf (u32 (da_cap_base + RMEDA_CTL1)) WRITE_DATA_CTL1) ;;
          let! r := check_rmsd_protect (da_cap_base + RMEDA_CTL1) write_val reg_ctl1 bdf in
          let test_fails := if truthy r then more test_fails else test_fails in
          let! reg_value := cfg_ bdf (ide_cap_base + IDE_CAP_REG) in
          let write_val := ctl2_pattern (num_sel reg_value + 1) reg_ctl2 in
          let! r := check_rmsd_protect (da_cap_base + RMEDA_CTL2) write_val reg_ctl2 bdf in
          ret (false, if truthy r then more test_fails else test_fails)
      end
  end.
Definition da009_payload : DA unit :=
  let! pe_index := run_ my_index in
  let! bdfs := bdfs_ in
  let! '(test_skip, test_fails) := for_list bdfs (true, 0) da009_step in
  finish pe_index (TEST_NUM 9) test_skip test_fails test_fails.

(** ** Tests of streams *)

(** The end of a turn over the streams: the stream must be insecure. With
    [clear] it is disabled and its RID association removed. *)
Definition insecure_stream (bdf count : Z) (clear : bool) (fails : Z) : DA Z :=
  let! '(status, v) := ns (val_get_sel_str_status (HW := ns_hw) fuel bdf count) in
  if truthy status then ret (more fails) else
  let! reg_value := use v in
  if negb (reg_value =? STREAM_STATE_INSECURE) then ret (more fails) else
  if negb clear then ret fails else
  let! status := ns (val_ide_set_sel_stream (HW := ns_hw) fuel bdf count 0) in
  if truthy status then ret (more fails) else
  let! _r := ns (val_ide_program_rid_base_limit_valid (HW := ns_hw) fuel bdf count 0 0 0) in
  ret fails.

Definition inject_error (e_bdf instance : Z) : DA Z :=
  let! _r := card (val_exerciser_set_param (HW := ns_hw) platform_pcie_cfg fuel
                     ERROR_INJECT_TYPE UNCORR_INT_ERR_code 0 instance) in
  let! _r := card (val_exerciser_ops (HW := ns_hw) platform_pcie_cfg fuel
                     INJECT_ERROR UNCORR_INT_ERR_code instance) in
  let! '(_status, o) := ns (val_pcie_find_capability (HW := ns_hw) fuel e_bdf PCIE_CAP CID_PCIECS) in
  let! pciecs_base := use o in
  let! reg_value := cfg_ e_bdf (pciecs_base + DCTLR_OFFSET) in
  ret (if (reg_value >> DSTS_SHIFT) .& DS_UNCORR_MASK =? 0 then 1 else 0).
Definition da010_stream (e_bdf erp_bdf instance count test_fails : Z) : DA Z :=
  let! id := stream_ in
  let! status := establish_ erp_bdf count id (PCIE_CREATE_BDF_PACKED erp_bdf) in
  if truthy status then ret (more test_fails) else
  let! r := inject_error e_bdf instance in
  if truthy r then ret (more test_fails) else
  insecure_stream erp_bdf count true test_fails.
(** The part of a turn behind the checks of the capabilities. *)
Definition da010_streams (e_bdf erp_bdf instance test_fails : Z) : DA Z :=
  let! '(status, n) := ns (val_ide_get_num_sel_str (HW := ns_hw) fuel erp_bdf) in
  if truthy status then ret (more test_fails) else
  let! num_sel_ide_stream_supp := use n in
  let! _r := enable_tdisp_ erp_bdf in
  let! test_fails := for_list (zseq 1 (num_sel_ide_stream_supp + 1)) test_fails
                       (da010_stream e_bdf erp_bdf instance) in
  let! _r := disable_tdisp_ erp_bdf in
  ns (val_pcie_disable_eru (HW := ns_hw) fuel e_bdf) ;;
  ns (val_pcie_disable_eru (HW := ns_hw) fuel erp_bdf) ;;
  ns (val_pcie_clear_urd (HW := ns_hw) fuel erp_bdf) ;;
  ret test_fails.
(** [inr] is the early return. *)
Definition da010_step (pe_index n i : Z) (x : bool * Z) : DA (bool * Z + unit) :=
  let '(test_skip, test_fails) := x in
  let instance := n - 1 - i in
  let! r := card (val_exerciser_init (HW := ns_hw) instance) in
  if truthy r then ret (inl x) else
  let! e_bdf := card (val_exerciser_get_bdf instance) in
  ns (val_pcie_enable_eru (HW := ns_hw) fuel e_bdf) ;;
  let! '(r, erp_bdf) := rootport_ e_bdf in
  if truthy r then ret (inl x) else
  ns (val_pcie_enable_eru (HW := ns_hw) fuel erp_bdf) ;;
  let! aer := present_ e_bdf PCIE_ECAP ECID_AER in
  if negb aer then ret (inl x) else
  let! aer := present_ erp_bdf PCIE_ECAP ECID_AER in
  if negb aer then status_ pe_index (RESULT_FAIL (TEST_NUM 10) 1) ;; ret (inr tt) else
  let! '(da, _o) := ns (val_pcie_find_da_capability (HW := ns_hw) fuel erp_bdf) in
  if negb (da =? PCIE_SUCCESS) then ret (inl (false, test_fails)) else
  let! ide := present_ erp_bdf PCIE_ECAP ECID_IDE in
  if negb ide then ret (inl (false, test_fails)) else
  let! test_fails := da010_streams e_bdf erp_bdf instance test_fails in
  ret (inl (false, test_fails)).
Definition da010_payload : DA unit :=
  let! pe_index := run_ my_index in
  let! n := card val_exerciser_num_cards in
  let! r := for_acc (Z.to_nat n) 0 (true, 0) (da010_step pe_index n) in
  match r with
  | inl (test_skip, test_fails) => finish pe_index (TEST_NUM 10) test_skip test_fails 1
  | inr _ => ret tt
  end.

(** TDISP is enabled before the first stream only. *)
Definition da011_stream (bdf count test_fail : Z) : DA Z :=
  let! id := stream_ in
  let! status := establish_ bdf count id (PCIE_CREATE_BDF_PACKED bdf) in
  if truthy status then ret (more test_fail) else
  let! _r := disable_tdisp_ bdf in
  insecure_stream bdf count true test_fail.
Definition da011_step (bdf : Z) (x : bool * Z) : DA (bool * Z) :=
  let '(test_skip, test_fail) := x in
  let! dp_type := port_type_ bdf in
  if negb (dp_type =? RP) then ret x else
  let! '(status, n) := ns (val_ide_get_num_sel_str (HW := ns_hw) fuel bdf) in
  if truthy status then ret (false, more test_fail) else
  let! num_sel_str := use n in
  let! _r := enable_tdisp_ bdf in
  let! test_fail := for_list (zseq 1 (num_sel_str + 1)) test_fail (da011_stream bdf) in
  let! _r := disable_tdisp_ bdf in
  ret (false, test_fail).
Definition da011_payload : DA unit :=
  let! pe_index := run_ my_index in
  let! bdfs := bdfs_ in
  let! '(test_skip, test_fail) := for_list bdfs (true, 0) da011_step in
  finish pe_index (TEST_NUM 11) test_skip test_fail 1.

Definition da012_stream (bdf da_cap_base va count test_fail : Z) : DA Z :=
  let! _id := stream_ in
  let! id := stream_ in
  let! status := establish_ bdf count id (PCIE_CREATE_BDF_PACKED bdf) in
  if truthy status then ret (more test_fail) else
  let! _r := ns (val_pcie_read_cfg (HW := ns_hw) bdf (u32 (da_cap_base + RMEDA_CTL2))) in
  let sel_str_lock_bit := u32 (1 << ((count - 1) mod 32)) in
  write_from_root (va + da_cap_base + RMEDA_CTL2) sel_str_lock_bit ;;
  let! _r := ns (val_pcie_read_cfg (HW := ns_hw) bdf (u32 (da_cap_base + RMEDA_CTL2))) in
  let! id := stream_ in
  let! status := ns (val_ide_program_stream_id (HW := ns_hw) fuel bdf count id) in
  if truthy status then ret (more test_fail) else
  insecure_stream bdf count false test_fail.
(** At the end TDISP is enabled again, not disabled. *)
Definition da012_step (bdf : Z) (x : bool * Z) : DA (bool * Z) :=
  let '(test_skip, test_fail) := x in
  let! dp_type := port_type_ bdf in
  if negb (dp_type =? RP) then ret x else
  let! da := sysm (da_capability fuel bdf) in
  match da with
  | None => ret (false, test_fail)
  | Some da_cap_base =>
      let! va := map_config_root bdf in
      let! '(status, n) := ns (val_ide_get_num_sel_str (HW := ns_hw) fuel bdf) in
      if truthy status then ret (false, more test_fail) else
      let! num_sel_str := use n in
      let! _r := enable_tdisp_ bdf in
      let! test_fail := for_list (zseq 1 (num_sel_str + 1)) test_fail
                          (da012_stream bdf da_cap_base va) in
      let! _r := enable_tdisp_ bdf in
      ret (false, test_fail)
  end.
Definition da012_payload : DA unit :=
  let! pe_index := run_ my_index in
  let! bdfs := bdfs_ in
  let! '(test_skip, test_fail) := for_list bdfs (true, 0) da012_step in
  finish pe_index (TEST_NUM 12) test_skip test_fail 1.

(** ** Tests of requests of EL3 to a BAR *)

(** Write [TEST_DATA] and read it back in one call; what is compared is the data
    of the first entry, the write. *)
Definition write_and_read (va : Z) : DA Z :=
  root_ (modify (set_shared (set_num_access 2)) ;;
         set_access0 (mk_access WRITE_DATA va TEST_DATA_DA) ;;
         let! l := sh sh_access in
         let! a := use (l !! 1%nat) in
         modify (set_shared (fun r =>
           set_sh_access (<[1%nat := mk_access READ_DATA va (acc_data a)]> (sh_access r)) r)) ;;
         val_pe_access_mut_el3 vec fuel ;;
         let! a := access0 in
         ret (u32 (acc_data a))).
(** The prologue of tests 16 and 17: an endpoint with a BAR below a root port
    whose TDISP is enabled; [test] gets the BAR and the root port. *)
Definition endpoint_step (bdf : Z) (x : bool * Z) (test : Z -> Z -> Z -> DA Z) : DA (bool * Z) :=
  let '(test_skip, test_fail) := x in
  let! dp_type := port_type_ bdf in
  if negb (dp_type =? EP) then ret x else
  let! bar_base := bar_word bdf in
  if bar_base =? 0 then ret x else
  let! '(r, rp_bdf) := rootport_ bdf in
  if truthy r then ret x else
  let! r := enable_tdisp_ rp_bdf in
  if truthy r then ret x else
  let! test_fail := test bar_base rp_bdf test_fail in
  ret (false, test_fail).
Definition compare_data (va test_fail : Z) : DA Z :=
  let! data := write_and_read va in
  ret (if negb (data =? TEST_DATA_DA) then more test_fail else test_fail).

Definition da016_step (bdf : Z) (x : bool * Z) : DA (bool * Z) :=
  endpoint_step bdf x (fun bar_base rp_bdf test_fail =>
    let! va := map_for El3State.REALM_PAS (ret bar_base) in
    let! stream_id := stream_ in
    let! status := establish_ bdf 1 stream_id (PCIE_CREATE_BDF_PACKED bdf) in
    if truthy status then ret (more test_fail) else
    let! status := establish_ rp_bdf 1 stream_id (PCIE_CREATE_BDF_PACKED bdf) in
    if truthy status then ret (more test_fail) else
    let! r := lock_ bdf in
    if truthy r then ret (more test_fail) else
    compare_data va test_fail).
Definition da017_step (bdf : Z) (x : bool * Z) : DA (bool * Z) :=
  endpoint_step bdf x (fun bar_base rp_bdf test_fail =>
    let! va := map_for El3State.NONSECURE_PAS (ret bar_base) in
    compare_data va test_fail).
Definition over_table (n : Z) (step : Z -> bool * Z -> DA (bool * Z)) : DA unit :=
  let! pe_index := run_ my_index in
  let! bdfs := bdfs_ in
  let! '(test_skip, test_fail) := for_list bdfs (true, 0) step in
  finish pe_index (TEST_NUM n) test_skip test_fail test_fail.
Definition da016_payload : DA unit := over_table 16 da016_step.
Definition da017_payload : DA unit := over_table 17 da017_step.

(** ** Tests of protected registers *)

(** The search for an endpoint below [bdf]: the last Function looked at and the
    last root port found, as the variables keep them; [inr] is the [break]. *)
Fixpoint da018_endpoint (bdf : Z) (bdfs : list Z) (ep_bdf rp_bdf : option Z)
    : DA (option Z * option Z) :=
  match bdfs with
  | [] => ret (ep_bdf, rp_bdf)
  | d :: bdfs' =>
      let! dp_type := port_type_ d in
      if negb (dp_type =? EP) then da018_endpoint bdf bdfs' (Some d) rp_bdf else
      let! '(_r, rp) := rootport_ d in
      if bdf =? rp then ret (Some d, Some rp)
      else da018_endpoint bdf bdfs' (Some d) (Some rp)
  end.
Definition da018_entry_check (ep_bdf rp_bdf stream_id : Z) (e : bitfield_entry) (test_fail : Z)
    : DA Z :=
  let! status := establish_ ep_bdf 1 stream_id (PCIE_CREATE_BDF_PACKED ep_bdf) in
  if truthy status then ret (more test_fail) else
  let! status := establish_ rp_bdf 1 stream_id (PCIE_CREATE_BDF_PACKED ep_bdf) in
  if truthy status then ret (more test_fail) else
  let! status := lock_ ep_bdf in
  if truthy status then ret (more test_fail) else
  let! status := ns (val_pcie_write_detect_bitfield_check (HW := ns_hw) fuel rp_bdf e 1) in
  ret (if truthy status && negb (status =? PCIE_CAP_NOT_FOUND) then more test_fail else test_fail).
(** [ep_bdf] and [rp_bdf] live as long as the payload. *)
Definition da018_step (bdfs : list Z) (bdf : Z) (x : bool * Z * option Z * option Z)
    : DA (bool * Z * option Z * option Z) :=
  let '(test_skip, test_fail, ep_bdf, rp_bdf) := x in
  let! dp_type := port_type_ bdf in
  if negb (dp_type =? RP) then ret x else
  let! ide := capability_ bdf PCIE_ECAP ECID_IDE in
  match ide with
  | None => ret (test_skip, more test_fail, ep_bdf, rp_bdf)
  | Some ide_cap_base =>
      let! reg_value := cfg_ bdf (ide_cap_base + IDE_CAP_REG) in
      if (reg_value .& SEL_IDE_STR_MASK) >> SEL_IDE_STR_SHIFT =? 0
      then ret (test_skip, more test_fail, ep_bdf, rp_bdf) else
      let! '(ep_bdf, rp_bdf) := da018_endpoint bdf bdfs ep_bdf rp_bdf in
      let! ep := use ep_bdf in
      let! ide := present_ ep PCIE_ECAP ECID_IDE in
      if negb ide then ret (test_skip, more test_fail, ep_bdf, rp_bdf) else
      let! stream_id := stream_ in
      let! rp := use rp_bdf in
      let! _r := enable_tdisp_ rp in
      let! test_fail := for_list bf_info_table18 test_fail (da018_entry_check ep rp stream_id) in
      let! _r := disable_tdisp_ rp in
      let! _r := unlock_ ep in
      ret (false, test_fail, ep_bdf, rp_bdf)
  end.
Definition da018_payload : DA unit :=
  let! pe_index := run_ my_index in
  let! bdfs := bdfs_ in
  let! '(test_skip, test_fail, _ep, _rp) := for_list bdfs (true, 0, None, None) (da018_step bdfs) in
  finish pe_index (TEST_NUM 18) test_skip test_fail 1.

(** Tests 19 and 20 check every entry of the table of registers, which the
    pointer walks through; [table] is what it points to. *)
Definition register_tests (n : Z) (check : REGISTER_INFO_TABLE -> DA Z)
    (table : list REGISTER_INFO_TABLE) : DA unit :=
  let! pe_index := run_ my_index in
  let! '(test_skip, test_fail) := for_list (zseq 0 val_register_get_num_entries) (true, 0)
    (fun index x =>
       let! e := use (table !! Z.to_nat index) in
       let! r := check e in
       ret (false, if truthy r then more (snd x) else snd x)) in
  finish pe_index (TEST_NUM n) test_skip test_fail 1.
Definition da019_payload : list REGISTER_INFO_TABLE -> DA unit :=
  register_tests 19 (fun e => sysm (val_pcie_rp_sec_prpty_check vec fuel mmfr0 e)).
Definition da020_payload : list REGISTER_INFO_TABLE -> DA unit :=
  register_tests 20 (fun e => root_ (val_intercnt_sec_prpty_check vec fuel e)).

(** ** Peer-to-peer traffic *)

(** [get_target_exer_bdf]: an exerciser below another root port of the same ECAM
    region, its root port and its BAR. [bar_base] is what the caller's variable
    holds; it is cleared when none is found. *)
Fixpoint target_from (req_rp_bdf : Z) (n : nat) (bar_base : Z) : DA (option (Z * Z) * Z) :=
  match n with
  | 0%nat => ret (None, 0)
  | S n' =>
      let instance := Z.of_nat n' in
      let! r := card (val_exerciser_init (HW := ns_hw) instance) in
      if truthy r then target_from req_rp_bdf n' bar_base else
      let! e_bdf := card (val_exerciser_get_bdf instance) in
      let! bar_base := ns (val_pcie_get_mmio_bar (HW := ns_hw) e_bdf bar_base) in
      if bar_base =? 0 then target_from req_rp_bdf n' bar_base else
      let! '(r, erp_bdf) := rootport_ e_bdf in
      if truthy r then target_from req_rp_bdf n' bar_base else
      if req_rp_bdf =? erp_bdf then target_from req_rp_bdf n' bar_base else
      let! i := ns (val_pcie_get_ecam_index req_rp_bdf) in
      match i with
      | None => ret (None, 0)
      | Some req_rp_ecam_index =>
          let! i := ns (val_pcie_get_ecam_index erp_bdf) in
          match i with
          | None => ret (None, 0)
          | Some erp_ecam_index =>
              if negb (req_rp_ecam_index =? erp_ecam_index)
              then target_from req_rp_bdf n' bar_base else
              ns (val_pcie_enable_bme (HW := ns_hw) e_bdf) ;;
              ns (val_pcie_enable_msa (HW := ns_hw) e_bdf) ;;
              ret (Some (e_bdf, erp_bdf), bar_base)
          end
      end
  end.
Definition get_target_exer_bdf (req_rp_bdf bar_base : Z) : DA (option (Z * Z) * Z) :=
  let! n := card val_exerciser_num_cards in target_from req_rp_bdf (Z.to_nat n) bar_base.
(** The result of the operation is dropped. *)
Definition check_p2p_transaction (req_instance bar_base : Z) : DA Z :=
  let! _r := card (val_exerciser_set_param (HW := ns_hw) platform_pcie_cfg fuel
                     DMA_ATTRIBUTES bar_base 1 req_instance) in
  let! _r := card (val_exerciser_ops (HW := ns_hw) platform_pcie_cfg fuel
                     START_DMA EDMA_TO_DEVICE req_instance) in
  ret ACS_STATUS_PASS.
(** Label [test_clean]. *)
Definition p2p_clean (req_e_bdf req_rp_bdf tgt_e_bdf tgt_rp_bdf : Z) : DA unit :=
  let! _r := unlock_ req_e_bdf in
  let! _r := unlock_ tgt_e_bdf in
  let! _r := disable_tdisp_ req_rp_bdf in
  let! _r := disable_tdisp_ tgt_rp_bdf in
  ns (val_pcie_clear_device_status_error (HW := ns_hw) fuel req_rp_bdf) ;;
  ns (val_pcie_clear_sig_target_abort (HW := ns_hw) req_rp_bdf).
(** The locks and the transaction: [true] is the early return with FAIL. *)
Definition p2p_check (index instance req_e_bdf req_rp_bdf tgt_e_bdf tgt_rp_bdf bar_base : Z)
    : DA bool :=
  let! r := lock_ req_e_bdf in
  if truthy r then ret false else
  let! r := lock_ tgt_e_bdf in
  if truthy r then ret false else
  let! status := check_p2p_transaction instance bar_base in
  if negb (truthy status) then ret false else
  let! _r := unlock_ req_e_bdf in
  let! _r := disable_tdisp_ req_rp_bdf in
  let! _r := unlock_ tgt_e_bdf in
  let! _r := disable_tdisp_ tgt_rp_bdf in
  status_ index (RESULT_FAIL (TEST_NUM 6) 1) ;;
  ret true.
Definition da006_step (index n i : Z) (x : bool * Z) : DA (bool * Z + unit) :=
  let '(test_skip, bar_base) := x in
  let instance := n - 1 - i in
  let! r := card (val_exerciser_init (HW := ns_hw) instance) in
  if truthy r then ret (inl x) else
  let! req_e_bdf := card (val_exerciser_get_bdf instance) in
  let! '(r, req_rp_bdf) := rootport_ req_e_bdf in
  if truthy r then ret (inl x) else
  let! '(target, bar_base) := get_target_exer_bdf req_rp_bdf bar_base in
  match target with
  | None => ret (inl (test_skip, bar_base))
  | Some (tgt_e_bdf, tgt_rp_bdf) =>
      let! _r := enable_tdisp_ req_rp_bdf in
      let! _r := enable_tdisp_ tgt_rp_bdf in
      let! failed := p2p_check index instance req_e_bdf req_rp_bdf tgt_e_bdf tgt_rp_bdf bar_base in
      if failed : bool then ret (inr tt) else
      p2p_clean req_e_bdf req_rp_bdf tgt_e_bdf tgt_rp_bdf ;;
      ret (inl (false, bar_base))
  end.
(** [bar0] is what the uninitialised [bar_base] holds; a BAR of a reserved type
    keeps its upper word. *)
Definition da006_payload (bar0 : Z) : DA unit :=
  let! index := run_ my_index in
  let! n := card val_exerciser_num_cards in
  if val_pcie_p2p_support =? 0 then status_ index (RESULT_SKIP (TEST_NUM 6) 1) else
  let! r := for_acc (Z.to_nat n) 0 (true, bar0) (da006_step index n) in
  match r with
  | inl (test_skip, _) =>
      status_ index (if test_skip then RESULT_SKIP (TEST_NUM 6) 2 else RESULT_PASS (TEST_NUM 6) 1)
  | inr _ => ret tt
  end.

(** ** Entry functions *)

Section entry.
Variables (g_skip_test_num : list Z) (g_single_test g_single_module : Z).
Definition da_entry (n : Z) (payload : DA unit) : DA Z :=
  let num_pe := 1 in
  let! status := run_ (val_initialize_test g_skip_test_num g_single_test g_single_module
                         (TEST_NUM n) num_pe) in
  (when negb (status =? ACS_STATUS_SKIP) then (let! _my := run_ my_index in payload)) ;;
  let! status := run_ (val_check_for_error num_pe) in
  run_ (val_report_status 0 (RME_ACS_END (TEST_NUM n))) ;;
  ret status.

Definition da001_entry : DA Z := da_entry 1 da001_payload.
Definition da002_entry (num_smmu : Z) (arch_rev : Z -> Z) : DA Z :=
  da_entry 2 (da002_payload num_smmu arch_rev).
Definition da003_entry : DA Z := da_entry 3 da003_payload.
Definition da004_entry : DA Z := da_entry 4 da004_payload.
Definition da005_entry : DA Z := da_entry 5 da005_payload.
Definition da006_entry (bar0 : Z) : DA Z := da_entry 6 (da006_payload bar0).
Definition da007_entry : DA Z := da_entry 7 da007_payload.
Definition da009_entry : DA Z := da_entry 9 da009_payload.
Definition da010_entry : DA Z := da_entry 10 da010_payload.
Definition da011_entry : DA Z := da_entry 11 da011_payload.
Definition da012_entry : DA Z := da_entry 12 da012_payload.
Definition da016_entry : DA Z := da_entry 16 da016_payload.
Definition da017_entry : DA Z := da_entry 17 da017_payload.
Definition da018_entry : DA Z := da_entry 18 da018_payload.
Definition da019_entry (table : list REGISTER_INFO_TABLE) : DA Z := da_entry 19 (da019_payload table).
Definition da020_entry (table : list REGISTER_INFO_TABLE) : DA Z := da_entry 20 (da020_payload table).
End entry.
End da.
