(* ===== verification/TestDaSpec.v ===== *)
(** * TestDaSpec

    What the device assignment tests of [TestDa] can report: tests 6 and 17
    never fail, test 5 always does on a root port with 32 selective streams,
    test 3 tells whether every root port has the TEE-I/O bit. *)

From Stdlib Require Import ZArith Lia Bool List.
From stdpp Require Import base tactics numbers list gmap option.
From S2P Require Import Prelude Memory El3State El3Pgt El3Common El3Handler El3Call Pcie PcieSpec PcieEnum PciePal TestRun TestModules Exerciser Da DaSpec PcieDa PcieDaSpec TestPas TestPasSpec TestDa.

(** ** Finished runs *)

Lemma zoom_inv {S T A} (get : S -> T) (put : T -> S -> S) (m : M T A) s a s' :
  zoom get put m s = Done a s' -> exists t, m (get s) = Done a t /\ s' = put t s.
Proof. unfold zoom. destruct (m (get s)) as [x t| |]; [intros [= <- <-]; eauto|done..]. Qed.

(** A property of the variables of a loop that every turn keeps. *)
Lemma for_list_inv {S A X} (I : X -> Prop) (body : A -> X -> M S X) l x s x' s' :
  (forall a x s x' s', I x -> body a x s = Done x' s' -> I x') ->
  I x -> for_list l x body s = Done x' s' -> I x'.
Proof.
  intros Hb. revert x s. induction l as [|a l IH]; intros x s Hx H; cbn [for_list] in H; minv; [done|].
  eapply IH; [|exact H]. by eapply Hb.
Qed.
Lemma for_acc_inv {S X R} (I : X -> Prop) (J : R -> Prop) (body : Z -> X -> M S (X + R)) n a x s r s' :
  (forall i x s r s', I x -> body i x s = Done r s' ->
     match r with inl x' => I x' | inr v => J v end) ->
  I x -> for_acc n a x body s = Done r s' -> match r with inl x' => I x' | inr v => J v end.
Proof.
  intros Hb. revert a x s. induction n as [|n IH]; intros a x s Hx H; cbn [for_acc] in H; minv; [done|].
  pose proof (Hb _ _ _ _ _ Hx Hr) as Hr'. destruct a0 as [x'|v]; [by eapply IH|]. by minv.
Qed.

Section da.
Context {W D : Type} {PES : Pes W} {HW : Hw D} {NB : NsBus D} {PAL : PciPal}.
Context (cfgs : list ecam_block).
Variables (vec : Z) (fuel : nat) (mmfr0 : Z).
Implicit Types s : dsys W D.

(** The status word of a PE. *)
Definition word_of s (index : Z) : option Z :=
  option_map sh_status (t_shared (y_run (z_sys s)) !! Z.to_nat index).

Lemma status_word index v s s' : status_ index v s = Done tt s' -> word_of s' index = Some v.
Proof.
  intros H. apply zoom_inv in H as (y & H & ->). apply zoom_inv in H as (r & H & ->).
  unfold val_set_status, shared_write in H. apply bind_inv in H as (u & r1 & _ & H).
  minv. unfold word_of. cbn in *.
  destruct (_ !! _) as [m|] eqn:E in Hr0; [|done]. injection Hr0 as <- <-.
  injection H as <-. cbn.
  rewrite list.list_lookup_insert_eq; [done|]. by eapply list.lookup_lt_Some.
Qed.
Lemma finish_run index n skip fails code s s' :
  finish index n skip fails code s = Done tt s' ->
  word_of s' index = Some (if skip then RESULT_SKIP n 1
                           else if truthy fails then RESULT_FAIL n code else RESULT_PASS n 1).
Proof. apply status_word. Qed.

(** ** Test 17 *)

Lemma acc_at_run i (e : el3 D) w : 0 <= i -> nth_error (sh_access (e_shared e)) (Z.to_nat i) = Some w ->
  acc_at i e = Done w e.
Proof. intros Hi H. unfold acc_at, bind, sh, gets, nth_chk. replace (i <? 0) with false by lia. by rewrite H. Qed.
Lemma access_write i (e : el3 D) w : 0 <= i -> nth_error (sh_access (e_shared e)) (Z.to_nat i) = Some w ->
  u8 (access_type w) = WRITE_DATA ->
  exists e', access_one i e = Done tt e' /\ e_shared e' = e_shared e /\
    e_dev e' = hw_write 4 (e_dev e) (acc_addr w) (u32 (acc_data w)).
Proof.
  intros Hi H Hw. unfold access_one. rewrite (bind_done _ _ _ _ _ (acc_at_run i e w Hi H)), Hw. by eexists.
Qed.
Lemma access_read i (e : el3 D) r : 0 <= i -> nth_error (sh_access (e_shared e)) (Z.to_nat i) = Some r ->
  u8 (access_type r) = READ_DATA ->
  exists e', access_one i e = Done tt e' /\
    sh_access (e_shared e') =
      set_acc_data (Z.to_nat i) (u32 (fst (hw_read 4 (e_dev e) (acc_addr r)))) (sh_access (e_shared e)) /\
    e_dev e' = snd (hw_read 4 (e_dev e) (acc_addr r)).
Proof.
  intros Hi H Hr. unfold access_one. rewrite (bind_done _ _ _ _ _ (acc_at_run i e r Hi H)), Hr.
  change (READ_DATA =? READ_DATA) with true. cbv iota. unfold bind at 1, io_read.
  destruct (hw_read _ _ _) as [v d]. unfold put_acc_data.
  match goal with |- context [bind _ _ ?e1] => assert (acc_at i e1 = Done r e1) as H1 by by apply acc_at_run end.
  rewrite (bind_done _ _ _ _ _ H1). eexists. split; [reflexivity|]. split; reflexivity.
Qed.
(** Two accesses: a write and a read. The first entry is as it was, the second
    one gets what the read gave. *)
Lemma access_mut_two (e : el3 D) w r rest : sh_access (e_shared e) = w :: r :: rest ->
  num_access (e_shared e) = 2 -> u8 (access_type w) = WRITE_DATA -> u8 (access_type r) = READ_DATA ->
  let x := hw_read 4 (hw_write 4 (e_dev e) (acc_addr w) (u32 (acc_data w))) (acc_addr r) in
  exists e', val_pe_access_mut_el3 vec fuel e = Done tt e' /\ e_dev e' = snd x /\
    sh_access (e_shared e') = w :: mk_access (access_type r) (acc_addr r) (u32 (fst x)) :: rest.
Proof.
  intros Hl Hn Hw Hr x. change (val_pe_access_mut_el3 vec fuel) with (access_mut (D := D)).
  unfold access_mut, sh, gets, bind. rewrite Hn. change (for_range 0 (u8 2) access_one)
    with (access_one 0 ;; access_one 1 ;; ret tt : E D unit).
  destruct (access_write 0 e w) as (e1 & H1 & Hs1 & Hd1); [lia|by rewrite Hl|done|].
  rewrite (bind_done _ _ _ _ _ H1).
  destruct (access_read 1 e1 r) as (e2 & H2 & Hs2 & Hd2); [lia|by rewrite Hs1, Hl|done|].
  rewrite (bind_done _ _ _ _ _ H2). eexists. split; [reflexivity|].
  by rewrite Hd2, Hs2, Hs1, Hl, Hd1.
Qed.

(** What is read back is the data of the write, whatever the Function does. *)
Lemma write_and_read_run va s v s' : write_and_read vec fuel va s = Done v s' -> v = TEST_DATA_DA.
Proof.
  intros H. apply zoom_inv in H as (y & H & _). apply zoom_inv in H as (e & H & _).
  unfold set_access0, access0, sh in H. minv. cbn -[val_pe_access_mut_el3] in *.
  destruct (sh_access _) as [|x [|x' l]] eqn:El; [done| |]; injection Hr8 as _ <-; cbn in El; cbn in Hr2; rewrite El in Hr2;
    [discriminate Hr2|]. injection Hr2 as <- <-.
  edestruct (access_mut_two) as (e2 & H2 & _ & Hs2); [| | | |rewrite H2 in Hr4].
  { cbn. rewrite El. reflexivity. } { done. } { done. } { done. }
  injection Hr4 as _ <-. rewrite Hs2 in Hr5. by injection Hr5 as <- _.
Qed.

(** In any state with two entries it ends. *)
Lemma write_and_read_total va s w r rest :
  sh_access (e_shared (y_el3 (z_sys s))) = w :: r :: rest ->
  let x := hw_read 4 (hw_write 4 (e_dev (y_el3 (z_sys s))) va TEST_DATA_DA) va in
  exists s', write_and_read vec fuel va s = Done TEST_DATA_DA s' /\
    sh_access (e_shared (y_el3 (z_sys s'))) =
      mk_access WRITE_DATA va TEST_DATA_DA :: mk_access READ_DATA va (u32 (fst x)) :: rest /\
    e_dev (y_el3 (z_sys s')) = snd x.
Proof.
  intros Hl x. set (e := y_el3 (z_sys s)) in *.
  set (e1 := set_shared (set_num_access 2) e).
  set (wr := mk_access WRITE_DATA va TEST_DATA_DA).
  set (e2 := set_shared (fun q => set_sh_access (<[0%nat := wr]> (sh_access q)) q) e1).
  set (rd := mk_access READ_DATA va (acc_data r)).
  set (e3 := set_shared (fun q => set_sh_access (<[1%nat := rd]> (sh_access q)) q) e2).
  assert (sh_access (e_shared e1) = w :: r :: rest) as L1 by exact Hl.
  assert (sh_access (e_shared e2) = wr :: r :: rest) as L2.
  { cbn. change (sh_access (e_shared e)) with (sh_access (e_shared e1)). by rewrite L1. }
  assert (sh_access (e_shared e3) = wr :: rd :: rest) as L3.
  { unfold e3. cbn [set_shared e_shared sh_access set_sh_access]. by rewrite L2. }
  destruct (access_mut_two e3 wr rd rest L3 eq_refl eq_refl eq_refl) as (e4 & H4 & Hd & Hs).
  unfold write_and_read, root_, sysm, at_el3, zoom. fold e.
  unfold bind at 1, modify at 1. fold e1.
  assert (set_access0 wr e1 = Done tt e2) as H1.
  { unfold set_access0, sh, bind, gets, require. rewrite L1. reflexivity. }
  fold wr. rewrite (bind_done _ _ _ _ _ H1).
  unfold bind at 1, sh at 1, gets at 1. rewrite L2.
  unfold bind at 1. cbn [lookup list_lookup use]. unfold ret at 1. fold rd.
  unfold bind at 1, modify at 1. fold e3.
  rewrite (bind_done _ _ _ _ _ H4). unfold access0, sh, bind, gets. rewrite Hs.
  cbn [lookup list_lookup use]. unfold ret. eexists. split; [reflexivity|]. cbn [z_sys y_el3].
  split; [exact Hs|exact Hd].
Qed.

Lemma compare_data_run va f s f' s' : compare_data vec fuel va f s = Done f' s' -> f' = f.
Proof.
  unfold compare_data. intros H. minv. by rewrite (write_and_read_run _ _ _ _ Hr).
Qed.
(** A turn of test 17 leaves the number of failures as it was. *)
Lemma da017_turn bdf x s x' s' : snd x = 0 -> da017_step vec fuel mmfr0 bdf x s = Done x' s' -> snd x' = 0.
Proof.
  intros Hx H. unfold da017_step, endpoint_step in H. destruct x as [skip f]. cbn in Hx. subst f.
  repeat first [progress minv|progress case_match|done].
  by eapply compare_data_run.
Qed.


(** A run of test 17 that ends skips or passes, whatever the hardware does. *)
Theorem da017_never_fails s s' :
  da017_payload vec fuel mmfr0 s = Done tt s' ->
  exists i s1, run_ my_index s = Done i s1 /\
    (word_of s' i = Some (RESULT_SKIP (TEST_NUM 17) 1) \/
     word_of s' i = Some (RESULT_PASS (TEST_NUM 17) 1)).
Proof.
  unfold da017_payload, over_table. intros H. minv. destruct a1 as [skip f].
  assert (snd (skip, f) = 0) as Hf
    by exact (for_list_inv (fun x => snd x = 0) _ _ (true, 0) _ _ _ da017_turn eq_refl Hr1).
  cbn in Hf. subst f. eexists _, _. split; [exact Hr|].
  rewrite (finish_run _ _ _ _ _ _ _ H). destruct skip; eauto.
Qed.

(** ** Test 6 *)

(** The transaction is never found to fail: the early return is not taken. *)
Lemma p2p_check_passes index instance re rr te tr bar s b s' :
  p2p_check cfgs vec fuel mmfr0 index instance re rr te tr bar s = Done b s' -> b = false.
Proof.
  unfold p2p_check, check_p2p_transaction. intros H.
  repeat first [progress minv|progress case_match|done].
Qed.
Lemma da006_turn index n i x s r s' :
  da006_step cfgs vec fuel mmfr0 index n i x s = Done r s' ->
  match r with inl _ => True | inr _ => False end.
Proof.
  unfold da006_step. destruct x as [skip bar]. intros H.
  repeat first [progress minv|progress case_match|done].
  match goal with Hp : p2p_check _ _ _ _ _ _ _ _ _ _ _ _ = _ |- _ => apply p2p_check_passes in Hp end.
  congruence.
Qed.

(** Test 6 skips or passes, whatever the traffic does. *)
Theorem da006_never_fails bar0 s s' :
  da006_payload cfgs vec fuel mmfr0 bar0 s = Done tt s' ->
  exists i s1 k, run_ my_index s = Done i s1 /\
    (word_of s' i = Some (RESULT_SKIP (TEST_NUM 6) k) \/
     word_of s' i = Some (RESULT_PASS (TEST_NUM 6) 1)).
Proof.
  unfold da006_payload. intros H. minv. eexists _, _.
  destruct (val_pcie_p2p_support =? 0).
  - exists 1. split; [exact Hr|]. left. by eapply status_word.
  - minv. exists 2. split; [exact Hr|].
    pose proof (for_acc_inv (fun _ => True) (fun _ => False) _ _ _ _ _ _ _
                  (fun i x t r t' _ => da006_turn a a0 i x t r t') I Hr1) as Hf.
    destruct a1 as [[skip b]|v]; [|done]. rewrite (status_word _ _ _ _ H). destruct skip; eauto.
Qed.

(** ** Test 5 *)

Lemma bnot_ne w x : 0 < w -> x <> bnot w x.
Proof.
  intros Hw E. apply (f_equal (fun y => Z.testbit y 0)) in E.
  unfold bnot, wrap in E. rewrite Z.mod_pow2_bits_low, Z.lnot_spec in E by lia.
  by destruct (Z.testbit x 0).
Qed.
(** With 32 selective streams the check of RMEDA_CTL2 counts a failure, whatever
    the register does: what is compared with the written value is its
    complement. *)
Theorem da005_32_streams_fail bdf da_cap ide_cap va f s ctl2 s1 r s2 f' s' :
  cfg_ bdf (da_cap + RMEDA_CTL2) s = Done ctl2 s1 ->
  cfg_ bdf (ide_cap + IDE_CAP_REG) s1 = Done r s2 ->
  32 <= num_sel r + 1 ->
  da005_ctl2 vec fuel bdf da_cap ide_cap va f s = Done f' s' -> f' = more f.
Proof.
  intros H1 H2 Hn H. unfold da005_ctl2 in H.
  rewrite (bind_done _ _ _ _ _ H1), (bind_done _ _ _ _ _ H2) in H.
  replace (num_sel r + 1 <? 32) with false in H by lia. minv.
  by rewrite (proj2 (Z.eqb_neq _ _) (bnot_ne 32 ctl2 eq_refl)).
Qed.
End da.

(** ** A root port and an endpoint whose BAR drops every write *)

#[local] Instance pair_pal : PciPal := PcieSpec.demo_pal.
Definition dropping_hw : Hw (Z -> Z) :=
  {| hw_read _ d a := (d a, d); hw_write _ d _ _ := d; hw_at_s1e3w _ _ _ := 0 |}.
(** Registers of the two Functions: header, buses or BAR, capabilities. *)
Definition pair_regs (a : Z) : Z :=
  let rp := 0x200000000 in let ep := 0x200100000 in
  if a =? rp + 0xC then 0x10000 else if a =? rp + 0x18 then 0x10100
  else if a =? rp + 0x34 then 0x40 else if a =? rp + 0x40 then 0x420010
  else if a =? rp + 0x100 then 0x23 else if a =? rp + 0x108 then 0xFF01
  else if a =? ep + 0x34 then 0x40 else if a =? ep + 0x40 then 0x020010
  else if a =? ep + 0x10 then 0x88000000 else 0.
Definition pair_el3 : el3 (Z -> Z) :=
  mk_el3 ∅ pair_regs (mk_sysregs 0 0 25 0x10000 0 0 0 0 0 0 0 0 0)
    (set_sh_access [mk_access 0 0 0; mk_access 0 0 0] zero_shared) [] FREE_MEM_START 0 zero_globals.

Definition pair_sys : dsys unit (Z -> Z) :=
  mk_dsys (mk_sys (mk_tst tt [mk_shmem 0 0 0] (Some pe_table) 0 0 0 0 0x880200000 1 0 [])
             pair_el3 (Some [high_block]) (Some [(0, 0); (0x00010000, 0)]) 0 [])
    [] (fun _ => 0) (mk_exercisers 0 []).

(** Two of them, each endpoint an exerciser. *)
Definition p2p_regs (a : Z) : Z :=
  let rp := 0x200008000 in let ep := 0x200200000 in
  if a =? rp + 0xC then 0x10000 else if a =? rp + 0x18 then 0x20200
  else if a =? rp + 0x34 then 0x40 else if a =? rp + 0x40 then 0x420010
  else if a =? rp + 0x100 then 0x23 else if a =? rp + 0x108 then 0xFF01
  else if a =? ep + 0x34 then 0x40 else if a =? ep + 0x40 then 0x020010
  else if a =? ep + 0x10 then 0x88100000 else pair_regs a.
Definition p2p_sys : dsys unit (Z -> Z) :=
  mk_dsys (mk_sys (y_run (z_sys pair_sys)) (set_dev p2p_regs pair_el3) (Some [high_block])
             (Some [(0, 0); (0x00000100, 0); (0x00010000, 0); (0x00020000, 0)]) 0 [])
    [] (fun _ => 0) (mk_exercisers 2 [(0x00010000, 1); (0x00020000, 1)]).


(** The data of the second access is what the BAR gave, not what was written. *)
Lemma da017_never_fails_witness :
  exists s', da017_payload (PES := one_pe) (HW := dropping_hw) (NB := read_only_bus) 0 20 0 pair_sys
               = Done tt s' /\
    map acc_data (sh_access (e_shared (y_el3 (z_sys s')))) = [TEST_DATA_DA; 0] /\
    exists i s1, run_ (my_index (PES := one_pe)) pair_sys = Done i s1 /\
      (word_of s' i = Some (RESULT_SKIP (TEST_NUM 17) 1) \/
       word_of s' i = Some (RESULT_PASS (TEST_NUM 17) 1)).
Proof.
  assert (match da017_payload (PES := one_pe) (HW := dropping_hw) (NB := read_only_bus) 0 20 0 pair_sys with
          | Done tt s' => map acc_data (sh_access (e_shared (y_el3 (z_sys s')))) | _ => [] end
          = [TEST_DATA_DA; 0]) as H by (vm_compute; reflexivity).
  destruct (da017_payload _ _ _ _) as [[] s'| |] eqn:E; [|discriminate H..].
  exists s'. split; [reflexivity|]. split; [exact H|].
  exact (da017_never_fails (PES := one_pe) (HW := dropping_hw) (NB := read_only_bus) 0 20 0 _ _ E).
Defined.

Lemma da006_never_fails_witness :
  exists s', da006_payload (PES := one_pe) (HW := dropping_hw) (NB := read_only_bus)
               [high_block] 0 20 0 0 p2p_sys = Done tt s' /\
    exists i s1 k, run_ (my_index (PES := one_pe)) p2p_sys = Done i s1 /\
      (word_of s' i = Some (RESULT_SKIP (TEST_NUM 6) k) \/
       word_of s' i = Some (RESULT_PASS (TEST_NUM 6) 1)).
Proof.
  assert (match da006_payload (PES := one_pe) (HW := dropping_hw) (NB := read_only_bus)
                  [high_block] 0 20 0 0 p2p_sys with
          | Done tt s' => word_of s' 0 | _ => None end = Some (RESULT_PASS (TEST_NUM 6) 1)) as H
    by (vm_compute; reflexivity).
  destruct (da006_payload _ _ _ _ _ _) as [[] s'| |] eqn:E; [|discriminate H..].
  exists s'. split; [reflexivity|].
  exact (da006_never_fails (PES := one_pe) (HW := dropping_hw) (NB := read_only_bus)
           [high_block] 0 20 0 0 _ _ E).
Defined.

(** The IDE capability at 0x200 announces 32 streams; RMEDA_CTL2 holds 5. *)
Definition streams32_regs (a : Z) : Z :=
  if a =? 0x200000204 then 0xFF0000 else if a =? 0x200000110 then 5 else pair_regs a.
Definition streams32_sys : dsys unit (Z -> Z) :=
  mk_dsys (mk_sys (y_run (z_sys pair_sys)) (set_dev streams32_regs pair_el3) (Some [high_block])
             (Some [(0, 0)]) 0 []) [] (fun _ => 0) (mk_exercisers 0 []).
Lemma da005_32_streams_fail_witness :
  exists s', da005_ctl2 (HW := mapped_file_hw) (NB := read_only_bus) 0 20 0 0x100 0x200 0x880200000 0
               streams32_sys = Done 1 s'.
Proof.
  assert (match da005_ctl2 (HW := mapped_file_hw) (NB := read_only_bus) 0 20 0 0x100 0x200 0x880200000 0
                  streams32_sys with Done _ _ => true | _ => false end = true) as H by (vm_compute; reflexivity).
  destruct (da005_ctl2 _ _ _ _ _ _ _ _) as [f' s'| |] eqn:E; [|discriminate H..].
  exists s'. f_equal.
  exact (da005_32_streams_fail (HW := mapped_file_hw) (NB := read_only_bus) 0 20 0 0x100 0x200 0x880200000 0
           streams32_sys 5 _ 0xFF0000 _ f' s' eq_refl eq_refl ltac:(vm_compute; discriminate) E).
Defined.
