(* ===== verification/Acpi.v ===== *)
(** * Acpi

    The ACPI tables of the firmware as platform/pal_uefi sees them: bytes of
    memory, the fields that the code reads from them, and the look-up of a table
    (src/pal_acpi.c). The layout of the tables is in the headers of the UEFI
    development kit: a parameter here. *)

From Stdlib Require Import ZArith Lia Bool List.
From stdpp Require Import base tactics numbers list.
From S2P Require Import Prelude Memory.

(** ** Layout *)

Inductive acpi_table := MADT | GTDT | MCFG | SPCR | IORT | FADT.
Inductive acpi_struct :=
| DESCRIPTION_HEADER | MADT_HEADER | GT_BLOCK_TIMER | MCFG_HEADER | MCFG_ALLOCATION.
(** The structures of the MADT, and the one of the GTDT, that the code looks for. *)
Inductive acpi_type := GIC | GICD | GICR | GIC_ITS | GIC_MSI_FRAME | GTDT_GT_BLOCK.
#[export] Instance acpi_type_eq_dec : EqDecision acpi_type.
Proof. solve_decision. Defined.
Inductive acpi_field :=
| Rsdp_XsdtAddress | Header_Length
(* all structures of the MADT and the GTDT *)
| Entry_Type | Entry_Length | Gtdt_Entry_Length
| Gic_PhysicalBaseAddress | Gic_GICRBaseAddress | Gic_GICH | Gic_MPIDR
| Gic_PerformanceInterruptGsiv
| Gicd_PhysicalBaseAddress | Gicd_GicVersion
| Gicr_DiscoveryRangeBaseAddress | Gicr_DiscoveryRangeLength
| Its_PhysicalBaseAddress | Its_GicItsId
| Msi_PhysicalBaseAddress | Msi_GicMsiFrameId | Msi_Flags | Msi_SPICount | Msi_SPIBase
| Gtdt_SecurePL1TimerFlags | Gtdt_NonSecurePL1TimerFlags | Gtdt_NonSecurePL2TimerFlags
| Gtdt_SecurePL1TimerGSIV | Gtdt_NonSecurePL1TimerGSIV | Gtdt_NonSecurePL2TimerGSIV
| Gtdt_VirtualTimerFlags | Gtdt_VirtualTimerGSIV | Gtdt_PlatformTimerOffset
| Gtdt_PlatformTimerCount
| Block_CntCtlBase | Block_GTBlockTimerCount | Block_GTBlockTimerOffset
| Timer_GTFrameNumber | Timer_CntBaseX | Timer_CntEL0BaseX | Timer_GTxPhysicalTimerGSIV
| Timer_GTxVirtualTimerGSIV | Timer_GTxPhysicalTimerFlags | Timer_GTxVirtualTimerFlags
| Timer_GTxCommonFlags
| Mcfg_BaseAddress | Mcfg_PciSegmentGroupNumber | Mcfg_StartBusNumber | Mcfg_EndBusNumber
| Spcr_BaseAddress | Spcr_GlobalSystemInterrupt
| Fadt_ArmBootArch.

(** Bytes and offset of a field, the size of a structure, the number of a type, a
    signature, the flags of ArmBootArch, and what a function of the UEFI library
    copies from a string. *)
Class Acpi := {
  field_at : acpi_field -> nat * Z;
  size_of : acpi_struct -> Z;
  type_code : acpi_type -> Z;
  signature_of : acpi_table -> Z;
  PSCI_COMPLIANT : Z;
  PSCI_USE_HVC : Z;
  ascii_string : mem -> Z -> list Z
}.

(** ** Look-up *)

(** The table of configuration entries of the system table: whether the GUID of
    an entry is one of the two of ACPI, and its table. *)
Fixpoint find_rsdp (entries : list (bool * Z)) : Z :=
  match entries with
  | [] => 0
  | (acpi, table) :: l => if (acpi : bool) then table else find_rsdp l
  end.

Section tables.
Context {A : Acpi}.
Variable m : mem.

Definition field (f : acpi_field) (a : Z) : Z :=
  let '(n, off) := field_at f in load n m (a + off).

(** ConfigurationTable of the system table. *)
Variable entries : list (bool * Z).

Definition pal_get_xsdt_ptr : Z :=
  let Rsdp := find_rsdp entries in
  if Rsdp =? 0 then 0 else field Rsdp_XsdtAddress Rsdp.

(** The loop over the entries of the XSDT. *)
Fixpoint find_entry (signature : Z) (Entry64 : Z) (n : nat) : Z :=
  match n with
  | 0%nat => 0
  | S n' => let e := load 8 m Entry64 in
            if load 4 m e =? signature then e else find_entry signature (Entry64 + 8) n'
  end.
Definition table_ptr (t : acpi_table) : Z :=
  let Xsdt := pal_get_xsdt_ptr in
  if Xsdt =? 0 then 0 else
  let Entry64Num := u32 (field Header_Length Xsdt - size_of DESCRIPTION_HEADER) >> 3 in
  find_entry (signature_of t) (Xsdt + size_of DESCRIPTION_HEADER) (Z.to_nat Entry64Num).

Definition pal_get_madt_ptr : Z := table_ptr MADT.
Definition pal_get_gtdt_ptr : Z := table_ptr GTDT.
Definition pal_get_mcfg_ptr : Z := table_ptr MCFG.
Definition pal_get_spcr_ptr : Z := table_ptr SPCR.
Definition pal_get_iort_ptr : Z := table_ptr IORT.
Definition pal_get_fadt_ptr : Z := table_ptr FADT.
End tables.

(** ** Concrete layout, for examples: Acpi61.h *)
Definition field_6_1 (f : acpi_field) : nat * Z :=
  match f with
  | Rsdp_XsdtAddress => (8%nat, 24) | Header_Length => (4%nat, 4)
  | Entry_Type => (1%nat, 0) | Entry_Length => (1%nat, 1) | Gtdt_Entry_Length => (2%nat, 1)
  | Gic_PhysicalBaseAddress => (8%nat, 32) | Gic_GICRBaseAddress => (8%nat, 60)
  | Gic_GICH => (8%nat, 48) | Gic_MPIDR => (8%nat, 68) | Gic_PerformanceInterruptGsiv => (4%nat, 20)
  | Gicd_PhysicalBaseAddress => (8%nat, 8) | Gicd_GicVersion => (1%nat, 20)
  | Gicr_DiscoveryRangeBaseAddress => (8%nat, 4) | Gicr_DiscoveryRangeLength => (4%nat, 12)
  | Its_PhysicalBaseAddress => (8%nat, 8) | Its_GicItsId => (4%nat, 4)
  | Msi_PhysicalBaseAddress => (8%nat, 8) | Msi_GicMsiFrameId => (4%nat, 4) | Msi_Flags => (4%nat, 16)
  | Msi_SPICount => (2%nat, 20) | Msi_SPIBase => (2%nat, 22)
  | Gtdt_SecurePL1TimerGSIV => (4%nat, 48) | Gtdt_SecurePL1TimerFlags => (4%nat, 52)
  | Gtdt_NonSecurePL1TimerGSIV => (4%nat, 56) | Gtdt_NonSecurePL1TimerFlags => (4%nat, 60)
  | Gtdt_VirtualTimerGSIV => (4%nat, 64) | Gtdt_VirtualTimerFlags => (4%nat, 68)
  | Gtdt_NonSecurePL2TimerGSIV => (4%nat, 72) | Gtdt_NonSecurePL2TimerFlags => (4%nat, 76)
  | Gtdt_PlatformTimerCount => (4%nat, 88) | Gtdt_PlatformTimerOffset => (4%nat, 92)
  | Block_CntCtlBase => (8%nat, 4) | Block_GTBlockTimerCount => (4%nat, 12)
  | Block_GTBlockTimerOffset => (4%nat, 16)
  | Timer_GTFrameNumber => (1%nat, 0) | Timer_CntBaseX => (8%nat, 4) | Timer_CntEL0BaseX => (8%nat, 12)
  | Timer_GTxPhysicalTimerGSIV => (4%nat, 20) | Timer_GTxPhysicalTimerFlags => (4%nat, 24)
  | Timer_GTxVirtualTimerGSIV => (4%nat, 28) | Timer_GTxVirtualTimerFlags => (4%nat, 32)
  | Timer_GTxCommonFlags => (4%nat, 36)
  | Mcfg_BaseAddress => (8%nat, 0) | Mcfg_PciSegmentGroupNumber => (2%nat, 8)
  | Mcfg_StartBusNumber => (1%nat, 10) | Mcfg_EndBusNumber => (1%nat, 11)
  | Spcr_BaseAddress => (8%nat, 44) | Spcr_GlobalSystemInterrupt => (4%nat, 54)
  | Fadt_ArmBootArch => (2%nat, 129)
  end.
Definition size_6_1 (s : acpi_struct) : Z :=
  match s with
  | DESCRIPTION_HEADER => 36 | MADT_HEADER => 44 | GT_BLOCK_TIMER => 40 | MCFG_HEADER => 44
  | MCFG_ALLOCATION => 16
  end.
Definition type_6_1 (t : acpi_type) : Z :=
  match t with
  | GIC => 0xB | GICD => 0xC | GIC_MSI_FRAME => 0xD | GICR => 0xE | GIC_ITS => 0xF | GTDT_GT_BLOCK => 0
  end.
Definition signature_6_1 (t : acpi_table) : Z :=
  match t with
  | MADT => 0x43495041 | GTDT => 0x54445447 | MCFG => 0x4746434D | SPCR => 0x52435053
  | IORT => 0x54524F49 | FADT => 0x50434146
  end.
#[export] Instance acpi_6_1 : Acpi :=
  {| field_at := field_6_1; size_of := size_6_1; type_code := type_6_1;
     signature_of := signature_6_1; PSCI_COMPLIANT := 1; PSCI_USE_HVC := 2;
     ascii_string _ _ := [] |}.

(** Memory from fields: bytes, address and value. *)
Definition fields (l : list (nat * Z * Z)) (m : mem) : mem :=
  foldl (fun m f => store f.1.1 m f.1.2 f.2) m l.
