(* ===== verification/Iort.v ===== *)
(** * Iort

    The IO virtualisation table made from the ACPI tables of the firmware:
    platform/pal_uefi/src/pal_iovirt.c. The IORT is bytes of memory ([Acpi]); the
    table that is made is a run of blocks kept under their offsets, as in
    [Iovirt], whose look-ups work on it ([val_view]). *)

From Stdlib Require Import ZArith Lia Bool List.
From stdpp Require Import base tactics numbers list gmap option.
From S2P Require Import Prelude Memory Iovirt Acpi.

Definition IOVIRT_FLAG_DEVID_OVERLAP_SHIFT : Z := 0.
Definition MAX_NAMED_COMP_LENGTH : Z := 256.
Definition PLATFORM_OVERRIDE_SMMU_BASE : Z := 0x0.
Definition PLATFORM_OVERRIDE_SMMU_ARCH_MAJOR : Z := 3.

(** ** The table that is made *)

(** The union of the data, by the member that was written over the zeroes. *)
Inductive UEFI_NODE_DATA :=
| UName (name : list Z)
| URc (rc : IOVIRT_RC_INFO_BLOCK) (smmu_base : Z)
| UPmcg (base overflow_gsiv node_ref : Z)
| UIts (its_count : Z)
| USmmu (smmu : SMMU_INFO_BLOCK).
Record UBLOCK := mk_ublock {
  u_type : Z; u_num : Z; u_data : UEFI_NODE_DATA; u_flags : Z; u_map : list NODE_DATA_MAP
}.
#[export] Instance id_map_eq_dec : EqDecision ID_MAP.
Proof. solve_decision. Defined.
#[export] Instance node_data_map_eq_dec : EqDecision NODE_DATA_MAP.
Proof. solve_decision. Defined.
#[export] Instance smmu_info_eq_dec : EqDecision SMMU_INFO_BLOCK.
Proof. solve_decision. Defined.
#[export] Instance rc_info_eq_dec : EqDecision IOVIRT_RC_INFO_BLOCK.
Proof. solve_decision. Defined.
#[export] Instance uefi_data_eq_dec : EqDecision UEFI_NODE_DATA.
Proof. solve_decision. Defined.

(** Blocks by their offset from the table, and the header. *)
Record ust := mk_ust { us_blocks : gmap Z UBLOCK; us_table : IOVIRT_INFO_TABLE }.
Abbreviation U := (M ust).

(** [IOVIRT_NEXT_BLOCK], as an offset. *)
Definition next_off (a : Z) (b : UBLOCK) : Z :=
  a + data_map_offset + u_num b * sizeof_NODE_DATA_MAP.
Definition ublock_at (a : Z) : U UBLOCK := let! s := get in use (us_blocks s !! a).
(** Writing a block; what it overlaps is no block any more. *)
Definition put_map (a : Z) (b : UBLOCK) (m : gmap Z UBLOCK) : gmap Z UBLOCK :=
  <[a := b]> (filter (fun x => next_off x.1 x.2 <= a \/ next_off a b <= x.1) m).
Definition put (a : Z) (b : UBLOCK) : U unit :=
  modify (fun s => mk_ust (put_map a b (us_blocks s)) (us_table s)).
Definition on_header (f : IOVIRT_INFO_TABLE -> IOVIRT_INFO_TABLE) : U unit :=
  modify (fun s => mk_ust (us_blocks s) (f (us_table s))).
Definition with_flags (f : Z -> Z) (b : UBLOCK) : UBLOCK :=
  mk_ublock (u_type b) (u_num b) (u_data b) (f (u_flags b)) (u_map b).
Definition with_data (d : UEFI_NODE_DATA) (b : UBLOCK) : UBLOCK :=
  mk_ublock (u_type b) (u_num b) d (u_flags b) (u_map b).
Definition add_map (x : NODE_DATA_MAP) (b : UBLOCK) : UBLOCK :=
  mk_ublock (u_type b) (u_num b) (u_data b) (u_flags b) (u_map b ++ [x]).

(** [rc.smmu_base = v]: bytes 16 to 23 of the union. Of the other members only a
    name reaches there. *)
Definition set_smmu_base (v : Z) (d : UEFI_NODE_DATA) : UEFI_NODE_DATA :=
  match d with
  | URc rc _ => URc rc v
  | UName name => UName (take 16 name ++ replicate 8 0 ++ drop 24 name)
  | _ => d
  end.
Definition is_usmmu (b : UBLOCK) : bool :=
  (u_type b =? IOVIRT_NODE_SMMU) || (u_type b =? IOVIRT_NODE_SMMU_V3).

(** What the comparison of [find_block] looks at: the block up to its flags, and
    for ITS groups the flags and the identifiers. *)
Definition same_block (key block : UBLOCK) : bool :=
  (u_type key =? u_type block) && (u_num key =? u_num block) &&
  bool_decide (u_data key = u_data block) &&
  ((negb (u_type block =? IOVIRT_NODE_ITS_GROUP)) ||
   ((u_flags key =? u_flags block) && bool_decide (u_map key = u_map block))).
Definition find_block (key : UBLOCK) : U Z :=
  let! s := get in
  let! r := for_acc (Z.to_nat (num_blocks (us_table s))) 0 blocks_offset (fun _ a =>
    let! block := ublock_at a in
    ret (if same_block key block then inr (u32 a) else inl (next_off a block))) in
  ret (match r with inr a => a | inl _ => 0 end).

Definition bump (f : Z -> Z) (type : Z) (h : IOVIRT_INFO_TABLE) : IOVIRT_INFO_TABLE :=
  let at_ t x := if type =? t then f x else x in
  mk_iovirt_table (num_blocks h)
    (if (type =? IOVIRT_NODE_SMMU) || (type =? IOVIRT_NODE_SMMU_V3) then f (num_smmus h) else num_smmus h)
    (at_ IOVIRT_NODE_PCI_ROOT_COMPLEX (num_pci_rcs h))
    (at_ IOVIRT_NODE_NAMED_COMPONENT (num_named_components h))
    (at_ IOVIRT_NODE_ITS_GROUP (num_its_groups h)) (at_ IOVIRT_NODE_PMCG (num_pmcgs h)).
Definition one_block_more (h : IOVIRT_INFO_TABLE) : IOVIRT_INFO_TABLE :=
  mk_iovirt_table (u32 (num_blocks h + 1)) (num_smmus h) (num_pci_rcs h)
    (num_named_components h) (num_its_groups h) (num_pmcgs h).

Section parse.
Context {A : Acpi}.
(** Memory, and the address of the IORT. *)
Variables (m : mem) (iort : Z).

(** Fields of a packed [IORT_NODE] at [node], of its data and its mappings. *)
Definition n_type (node : Z) : Z := load 1 m node.
Definition n_length (node : Z) : Z := load 2 m (node + 1).
Definition n_mapping_count (node : Z) : Z := load 4 m (node + 8).
Definition n_mapping_offset (node : Z) : Z := load 4 m (node + 12).
Definition node_data (node : Z) : Z := node + 16.
Definition iort_mapping (node i : Z) : ID_MAP :=
  let a := node + n_mapping_offset node + 20 * i in
  mk_map (load 4 m a) (load 4 m (a + 4)) (load 4 m (a + 8)) (load 4 m (a + 12)).
Definition words (a : Z) (n : nat) : list Z :=
  map (fun k => load 4 m (a + 4 * Z.of_nat k)) (seq 0 n).
(** The identifiers of an ITS group, four to a [data_map] entry. *)
Definition ids_map (ids : list Z) (n : nat) : list NODE_DATA_MAP :=
  map (fun k => Ids (take 4 (drop (4 * k) ids))) (seq 0 n).

(** The loads of the comparison are 32 bits wide, the entries 64. *)
Definition smmu_ctx_int_distinct (ctx_int ctx_int_cnt : Z) : U bool :=
  let! r := for_acc (Z.to_nat (ctx_int_cnt - 1)) 0 tt (fun i _ =>
    for_acc (Z.to_nat (ctx_int_cnt - (i + 1))) (i + 1) tt (fun j _ =>
      ret (if load 4 m (ctx_int + 8 * i) =? load 4 m (ctx_int + 8 * j) then inr tt else inl tt))) in
  ret (match r with inl _ => true | inr _ => false end).

(** The fields the [switch] fills from the node; [None] for an unknown type.
    The flags are 0 from here on: nothing reads them earlier. *)
Definition node_block (node : Z) : option UBLOCK :=
  let type := n_type node in
  let count := n_mapping_count node in
  let d := node_data node in
  if type =? IOVIRT_NODE_ITS_GROUP then
    let its_count := load 4 m d in
    let n := u32 (its_count + 3) / 4 in
    Some (mk_ublock type n (UIts its_count) 0
            (ids_map (words (d + 4) (Z.to_nat its_count)) (Z.to_nat n)))
  else if type =? IOVIRT_NODE_NAMED_COMPONENT then
    let name := take (Z.to_nat (MAX_NAMED_COMP_LENGTH - 1)) (ascii_string m (d + 13)) in
    Some (mk_ublock type count
      (UName (name ++ replicate (Z.to_nat MAX_NAMED_COMP_LENGTH - length name) 0)) 0 [])
  else if type =? IOVIRT_NODE_PCI_ROOT_COMPLEX then
    Some (mk_ublock type count
      (URc (mk_rc (load 4 m (d + 12)) (load 4 m (d + 8)) (u32 (load 8 m d .& IOVIRT_CCA_MASK))) 0) 0 [])
  else if type =? IOVIRT_NODE_SMMU then
    Some (mk_ublock type count (USmmu (mk_smmu_info 2 (load 8 m d))) 0 [])
  else if type =? IOVIRT_NODE_SMMU_V3 then
    Some (mk_ublock type count (USmmu (mk_smmu_info 3 (load 8 m d))) 0 [])
  else if type =? IOVIRT_NODE_PMCG then
    Some (mk_ublock type count (UPmcg (load 8 m d) (load 4 m (d + 8)) (load 4 m (d + 12))) 0 [])
  else None.

(** The SMMU of the root complex, from the block the mapping refers to. *)
Definition update_smmu_base (block offset : Z) : U unit :=
  let! b := ublock_at block in
  let! v := (if u_type b =? IOVIRT_NODE_PCI_ROOT_COMPLEX then
               let! temp_block := ublock_at offset in
               if is_usmmu temp_block then
                 match u_data temp_block with USmmu s => ret (smmu_info_base s) | _ => undef end
               else ret 0
             else ret 0) in
  put block (with_data (set_smmu_base v (u_data b)) b).

(** One mapping; [add] adds the block of the node it refers to. *)
Definition add_mapping (add : Z -> Z -> U (Z * Z)) (node block i next_block : Z) : U (Z + unit) :=
  let map := iort_mapping node i in
  let! '(offset, next_block) := add (iort + output_ref map) next_block in
  let! b := ublock_at block in
  put block (add_map (Map (mk_map (input_base map) (id_count map) (output_base map) offset)) b) ;;
  update_smmu_base block offset ;;
  ret (inl next_block).

(** [iort_add_block]: the offset of the block, and the new value of [*block]. *)
Fixpoint iort_add_block (fuel : nat) (node block : Z) : U (Z * Z) :=
  match fuel with
  | 0%nat => nofuel
  | S fuel =>
      match node_block node with
      | None =>
          put block (mk_ublock (n_type node) (n_mapping_count node) (UName (replicate 256 0)) 0 []) ;;
          ret (bnot 32 0, block)
      | Some b =>
          put block b ;;
          let! b := (match u_data b with
            | UPmcg base gsiv node_ref =>
                let! '(offset, _) := iort_add_block fuel (iort + node_ref) (next_off block b) in
                let b := with_data (UPmcg base gsiv offset) b in
                put block b ;; ret b
            | _ => ret b
            end) in
          let! offset := find_block b in
          if negb (offset =? 0) then ret (offset, block) else
          let next_block := next_off block b in
          (when u_type b =? IOVIRT_NODE_SMMU then
             (let! distinct := smmu_ctx_int_distinct (node + load 4 m (node_data node + 32))
                                 (load 4 m (node_data node + 28)) in
              when negb distinct
              then put block (with_flags (Z.lor (1 << IOVIRT_FLAG_SMMU_CTX_INT_SHIFT)) b))) ;;
          let! r := (if u_type b =? IOVIRT_NODE_ITS_GROUP then ret (inl next_block)
                     else for_acc (Z.to_nat (u_num b)) 0 next_block
                            (add_mapping (iort_add_block fuel) node block)) in
          on_header one_block_more ;;
          on_header (bump (fun x => u32 (x + 1)) (u_type b)) ;;
          ret (u32 block, match r with inl next_block => next_block | inr _ => next_block end)
      end
  end.

(** The loop over the nodes; [inr] is the return for a bad table. *)
Definition node_step (fuel : nat) (iort_end : Z) (x : Z * Z) : U ((Z * Z) + unit) :=
  let '(iort_node, next_block) := x in
  if iort_end <=? iort_node then ret (inr tt) else
  let! '(_, next_block) := iort_add_block fuel iort_node next_block in
  ret (inl (iort_node + n_length iort_node, next_block)).
Definition parse_nodes (fuel : nat) : U bool :=
  let! r := for_acc (Z.to_nat (load 4 m (iort + size_of DESCRIPTION_HEADER))) 0
    (iort + load 4 m (iort + size_of DESCRIPTION_HEADER + 4), blocks_offset)
    (fun _ => node_step fuel (iort + field m Header_Length iort)) in
  ret (match r with inl _ => true | inr _ => false end).
End parse.

(** ** The check for overlapping ranges *)

Definition map_at (b : UBLOCK) (i : Z) : U ID_MAP :=
  let! x := use (u_map b !! Z.to_nat i) in
  match x with Map x => ret x | Ids _ => undef end.
Definition overlap (key_start key_end start end_ : Z) : bool :=
  ((start <=? key_start) && (key_start <=? end_)) ||
  ((start <=? key_end) && (key_end <=? end_)) ||
  ((key_start <? start) && (end_ <? key_end)).
Definition range_end (x : ID_MAP) : Z := u32 (u32 (output_base x + id_count x) - 1).
Definition flag_both (key_block block bit : Z) : U unit :=
  let! k := ublock_at key_block in
  put key_block (with_flags (Z.lor (1 << bit)) k) ;;
  let! b := ublock_at block in
  put block (with_flags (Z.lor (1 << bit)) b).

(** One mapping of [block] against the key. *)
Definition check_map (key_block block : Z) (key : ID_MAP) (i : Z) : U unit :=
  let! b := ublock_at block in
  let! x := map_at b i in
  when output_ref x =? output_ref key then
    (when overlap (output_base key) (range_end key) (output_base x) (range_end x) then
       (let! tmp := ublock_at (output_ref x) in
        flag_both key_block block
          (if u_type tmp =? IOVIRT_NODE_ITS_GROUP then IOVIRT_FLAG_DEVID_OVERLAP_SHIFT
           else IOVIRT_FLAG_STRID_OVERLAP_SHIFT))).
(** The blocks from the key's on. In the block of the key the mappings behind the
    key are visited, one less than the block has in all: behind the first mapping
    this leaves the block. *)
Definition check_block (key_block : Z) (key : ID_MAP) (key_index : Z) (block : Z) : U (Z + unit) :=
  let! b := ublock_at block in
  (when negb (u_type b =? IOVIRT_NODE_ITS_GROUP) then
     (if block =? key_block
      then for_range (key_index + 1) (key_index + 1 + (u_num b - 1)) (check_map key_block block key)
      else for_range 0 (u_num b) (check_map key_block block key))) ;;
  ret (inl (next_off block b)).
Definition check_key (key_block n_blocks key_index : Z) : U unit :=
  let! kb := ublock_at key_block in
  let! key := map_at kb key_index in
  let! _r := for_acc (Z.to_nat n_blocks) 0 key_block
               (fun _ => check_block key_block key key_index) in
  ret tt.
Definition key_step (n : Z) (i key_block : Z) : U (Z + unit) :=
  let! kb := ublock_at key_block in
  (when negb (u_type kb =? IOVIRT_NODE_ITS_GROUP) then
     (for_range 0 (u_num kb) (check_key key_block (n - i)))) ;;
  ret (inl (next_off key_block kb)).
Definition check_mapping_overlap : U unit :=
  let! s := get in
  let n := num_blocks (us_table s) in
  let! _r := for_acc (Z.to_nat n) 0 blocks_offset (key_step n) in
  ret tt.

(** ** The table (not [NULL]) from the IORT at [iort] *)
Definition iovirt_create_override_table : U unit :=
  on_header (fun h => mk_iovirt_table 1 1 (num_pci_rcs h) (num_named_components h)
                        (num_its_groups h) (num_pmcgs h)) ;;
  put blocks_offset (mk_ublock 0 0
    (USmmu (mk_smmu_info PLATFORM_OVERRIDE_SMMU_ARCH_MAJOR PLATFORM_OVERRIDE_SMMU_BASE)) 0 []).
Definition pal_iovirt_create_info_table {A : Acpi} (m : mem) (fuel : nat) (iort : Z) : U unit :=
  on_header (fun _ => mk_iovirt_table 0 0 0 0 0 0) ;;
  if truthy PLATFORM_OVERRIDE_SMMU_BASE then iovirt_create_override_table else
  if iort =? 0 then ret tt else
  let! good := parse_nodes m iort fuel in
  when good then check_mapping_overlap.

(** ** What the VAL reads *)

(** The same bytes through the types of the VAL. *)
Definition to_data (d : UEFI_NODE_DATA) : NODE_DATA :=
  match d with
  | URc rc _ => DataRc rc
  | UIts n => DataIts n
  | USmmu s => DataSmmu s
  | UName _ | UPmcg _ _ _ => DataNone
  end.
Definition to_block (b : UBLOCK) : IOVIRT_BLOCK :=
  mk_block (u_type b) (u_num b) (to_data (u_data b)) (u_flags b) (u_map b).
Definition val_view (t : Z) (s : ust) : iov :=
  mk_iov (kmap (Z.add t) (to_block <$> us_blocks s)) (us_table s) t 0.
