(* ===== verification/IortSpec.v ===== *)
(** * IortSpec

    What [pal_iovirt_create_info_table] of [Iort] makes of the IORT of the
    firmware. An IORT is a list of nodes ([node]), whose bytes in memory are
    [encoded]; mappings refer to nodes by their number. The theorem says what the
    look-ups of the VAL ([Iovirt]) answer on the table: what the nodes say. *)

From Stdlib Require Import ZArith Lia Bool List.
From stdpp Require Import base tactics numbers list gmap option.
From S2P Require Import Prelude Memory Iovirt IovirtSpec Acpi Iort.

(** ** The IORT *)

Record imap := mk_imap { m_in : Z; m_count : Z; m_out : Z; m_node : nat }.
Inductive node :=
| NIts (ids : list Z)
| NNamed (name : list Z) (maps : list imap)
| NRc (rc : IOVIRT_RC_INFO_BLOCK) (maps : list imap)
| NSmmu (v3 : bool) (base : Z) (maps : list imap).

Definition type_of (n : node) : Z :=
  match n with
  | NIts _ => IOVIRT_NODE_ITS_GROUP
  | NNamed _ _ => IOVIRT_NODE_NAMED_COMPONENT
  | NRc _ _ => IOVIRT_NODE_PCI_ROOT_COMPLEX
  | NSmmu v3 _ _ => if v3 then IOVIRT_NODE_SMMU_V3 else IOVIRT_NODE_SMMU
  end.
Definition maps_of (n : node) : list imap :=
  match n with NIts _ => [] | NNamed _ l | NRc _ l | NSmmu _ _ l => l end.
Definition ids_of (n : node) : list Z := match n with NIts ids => ids | _ => [] end.

(** The fields of a node at [a]; [pos] are the places of the nodes. *)
Section encoding.
Context {A : Acpi}.
Variables (m : mem) (iort : Z) (pos : nat -> Z).

Definition data_bytes (a : Z) (n : node) : Prop :=
  match n with
  | NIts ids => load 4 m a = Z.of_nat (length ids) /\
      (forall i x, ids !! i = Some x -> load 4 m (a + 4 + 4 * Z.of_nat i) = x)
  | NNamed name _ => ascii_string m (a + 13) = name
  | NRc rc _ => load 8 m a = rc_cca rc /\ rc_cca rc < 2 ^ 32 /\ load 4 m (a + 8) = rc_ats_attr rc /\
      load 4 m (a + 12) = rc_segment rc
  | NSmmu _ base _ => load 8 m a = base
  end.
Definition map_bytes (a : Z) (x : imap) : Prop :=
  load 4 m a = m_in x /\ load 4 m (a + 4) = m_count x /\ load 4 m (a + 8) = m_out x /\
  load 4 m (a + 12) = pos (m_node x).
Record node_bytes (k : nat) (n : node) : Prop := {
  nb_type : load 1 m (iort + pos k) = type_of n;
  nb_length : pos (S k) = pos k + load 2 m (iort + pos k + 1);
  nb_count : load 4 m (iort + pos k + 8) = Z.of_nat (length (maps_of n));
  nb_maps : forall i x, maps_of n !! i = Some x ->
    map_bytes (iort + pos k + load 4 m (iort + pos k + 12) + 20 * Z.of_nat i) x;
  nb_data : data_bytes (iort + pos k + 16) n
}.
Record encoded (ns : list node) : Prop := {
  en_count : load 4 m (iort + size_of DESCRIPTION_HEADER) = Z.of_nat (length ns);
  en_first : load 4 m (iort + size_of DESCRIPTION_HEADER + 4) = pos 0%nat;
  en_end : forall k, (k < length ns)%nat -> pos k < field m Header_Length iort;
  en_nodes : forall k n, ns !! k = Some n -> node_bytes k n
}.
End encoding.

(** ** The blocks *)

Definition num_of (n : node) : Z :=
  match n with
  | NIts ids => (Z.of_nat (length ids) + 3) / 4
  | _ => Z.of_nat (length (maps_of n))
  end.
Definition size_of (n : node) : Z := data_map_offset + num_of n * sizeof_NODE_DATA_MAP.
Definition total (l : list node) : Z := foldr (fun n a => size_of n + a) 0 l.
Definition data_of (n : node) : UEFI_NODE_DATA :=
  match n with
  | NIts ids => UIts (Z.of_nat (length ids))
  | NNamed name _ => let name := take 255 name in UName (name ++ replicate (256 - length name) 0)
  | NRc rc _ => URc rc 0
  | NSmmu v3 base _ => USmmu (mk_smmu_info (if v3 then 3 else 2) base)
  end.
Definition node_base (n : node) : Z := match n with NSmmu _ base _ => base | _ => 0 end.

(** A block before its mappings are there. *)
Definition key_of (n : node) : UBLOCK :=
  mk_ublock (type_of n) (num_of n) (data_of n) 0
    (match n with NIts ids => ids_map ids (Z.to_nat (num_of n)) | _ => [] end).

Section blocks.
Variable ns : list node.

(** Where the block of a node begins. *)
Definition off (k : nat) : Z := blocks_offset + total (take k ns).
(** What a mapping of [n] makes of [rc.smmu_base]. *)
Definition map_base (n : node) (x : imap) : Z :=
  match n with
  | NRc _ _ => match ns !! m_node x with Some n' => node_base n' | None => 0 end
  | _ => 0
  end.
Definition out_map (x : imap) : NODE_DATA_MAP :=
  Map (mk_map (m_in x) (m_count x) (m_out x) (off (m_node x))).
(** A block with the mappings [l] of its node. *)
Definition built (n : node) (l : list imap) (fl : Z) : UBLOCK :=
  mk_ublock (type_of n) (num_of n) (foldl (fun d x => set_smmu_base (map_base n x) d) (data_of n) l)
    fl (u_map (key_of n) ++ map out_map l).
Definition block_of (n : node) : UBLOCK := built n (maps_of n) 0.

(** The header: the blocks, and those of each type. *)
Definition count_table (l : list node) : IOVIRT_INFO_TABLE :=
  foldl (fun h n => bump (fun x => u32 (x + 1)) (type_of n) (one_block_more h))
    (mk_iovirt_table 0 0 0 0 0 0) l.

(** A node that fits the table: its mappings refer to ITS groups and SMMUs
    before it, and stay inside 32 bits. *)
Definition imap_ok (k : nat) (x : imap) : Prop :=
  0 <= m_in x /\ 0 <= m_count x /\ 0 <= m_out x /\
  m_in x + m_count x < 2 ^ 32 /\ m_out x + m_count x < 2 ^ 32 /\
  (m_node x < k)%nat /\
  match ns !! m_node x with Some (NIts _) | Some (NSmmu _ _ _) => True | _ => False end.
Record iort_ok : Prop := {
  ok_maps : forall k n, ns !! k = Some n -> Forall (imap_ok k) (maps_of n);
  ok_ids : forall ids, NIts ids ∈ ns -> ids <> [] /\ Z.of_nat (length ids) < 2 ^ 32 - 4;
  ok_size : off (length ns) < 2 ^ 32;
  (** No node is taken for one before it. *)
  ok_fresh : forall i j n n', (i < j)%nat -> ns !! i = Some n -> ns !! j = Some n' ->
    same_block (key_of n') (block_of n) = false
}.
End blocks.

(** ** Sizes and places *)

Section places.
Context (ns : list node) (Hok : iort_ok ns).
Abbreviation off := (off ns).

Lemma num_nonneg n : 0 <= num_of n.
Proof. destruct n; cbn; try lia. apply Z.div_pos; lia. Qed.
Lemma size_pos n : 268 <= size_of n.
Proof. pose proof (num_nonneg n). unfold size_of, data_map_offset, sizeof_NODE_DATA_MAP. lia. Qed.
Lemma total_app l l' : total (l ++ l') = total l + total l'.
Proof. unfold total. induction l as [|n l IH]; cbn; [done|]. rewrite IH. lia. Qed.
Lemma total_long l : 268 * Z.of_nat (length l) <= total l.
Proof. induction l as [|n l IH]; cbn; [done|]. pose proof (size_pos n). fold (total l). lia. Qed.

Lemma off_S k n : ns !! k = Some n -> off (S k) = off k + size_of n.
Proof.
  intros H. unfold IortSpec.off. rewrite (list.take_S_r _ _ _ H), total_app. cbn. lia.
Qed.
Lemma off_mono i j : (i <= j)%nat -> off i <= off j.
Proof.
  intros H. unfold IortSpec.off. rewrite <- (take_drop i (take j ns)) at 1.
  rewrite list.take_take, Nat.min_l, total_app by done.
  pose proof (total_long (drop i (take j ns))). lia.
Qed.
Lemma off_low k : 24 <= off k.
Proof. apply (off_mono 0 k). lia. Qed.
Lemma off_lt i j : (i < j)%nat -> (i < length ns)%nat -> off i + 268 <= off j.
Proof.
  intros H Hi. destruct (lookup_lt_is_Some_2 _ _ Hi) as [n Hn].
  pose proof (off_S i n Hn). pose proof (size_pos n). pose proof (off_mono (S i) j ltac:(lia)). lia.
Qed.
Lemma off_range k : (k <= length ns)%nat -> 0 <= off k < 2 ^ 32.
Proof. intros H. pose proof (off_low k). pose proof (off_mono k _ H). pose proof (ok_size _ Hok). lia. Qed.
Lemma nodes_few : Z.of_nat (length ns) < 2 ^ 32.
Proof.
  pose proof (ok_size _ Hok) as H. unfold IortSpec.off in H. rewrite list.take_ge in H by done.
  pose proof (total_long ns). unfold blocks_offset in H. lia.
Qed.

Lemma next_built k n l fl : ns !! k = Some n -> next_off (off k) (built ns n l fl) = off (S k).
Proof. intros H. rewrite (off_S k n H). unfold next_off, size_of. cbn. lia. Qed.

(** ** Blocks in the store *)

Definition is_its (n : node) : Prop := match n with NIts _ => True | _ => False end.
Definition put_in (a : Z) (b : UBLOCK) (s : ust) : ust :=
  mk_ust (put_map a b (us_blocks s)) (us_table s).

Lemma put_at a b s : us_blocks (put_in a b s) !! a = Some b.
Proof. apply lookup_insert_eq. Qed.
Lemma put_keeps a b s k b' : us_blocks s !! k = Some b' -> k <> a ->
  next_off k b' <= a \/ next_off a b <= k -> us_blocks (put_in a b s) !! k = Some b'.
Proof.
  intros H Hk Ho. cbn. unfold put_map. rewrite lookup_insert_ne by done.
  by apply map_lookup_filter_Some_2.
Qed.

Lemma ublock_run a b s : us_blocks s !! a = Some b -> ublock_at a s = Done b s.
Proof. intros H. unfold ublock_at, get, use, bind. by rewrite H. Qed.

(** The first [N] nodes are in the table; the flags are those of later checks. *)
Definition stored (s : ust) (k : nat) (n : node) (l : list imap) : Prop :=
  exists fl, us_blocks s !! off k = Some (built ns n l fl) /\ (is_its n -> fl = 0).
Definition all_stored (N : nat) (s : ust) : Prop :=
  forall k n, (k < N)%nat -> ns !! k = Some n -> stored s k n (maps_of n).

Lemma stored_put s k n l a b : stored s k n l -> ns !! k = Some n -> off (S k) <= a ->
  stored (put_in a b s) k n l.
Proof.
  intros (fl & H & Hf) Hn Ha. exists fl. split; [|done]. apply put_keeps; [done| |].
  - pose proof (off_S k n Hn). pose proof (size_pos n). lia.
  - left. by rewrite next_built.
Qed.
Lemma all_stored_put N s a b : all_stored N s -> off N <= a -> all_stored N (put_in a b s).
Proof.
  intros H Ha k n Hk Hn. apply stored_put; [by apply H|done|].
  pose proof (off_mono (S k) N ltac:(lia)). lia.
Qed.

(** ** Looking for a block *)

Lemma same_flags key n l fl : (is_its n -> fl = 0) ->
  same_block key (built ns n l fl) = same_block key (built ns n l 0).
Proof. intros H. unfold same_block. cbn. destruct n; [by rewrite H|done..| by destruct v3]. Qed.

Definition block_loop (key : UBLOCK) (n : nat) (i a : Z) : U (Z + Z) :=
  for_acc n i a (fun _ a => let! block := ublock_at a in
    ret (if same_block key block then inr (u32 a) else inl (next_off a block))).

Lemma find_from key N s : all_stored N s -> (N <= length ns)%nat ->
  forall r k i, (k + r = N)%nat ->
  (forall j n, (k <= j < N)%nat -> ns !! j = Some n -> same_block key (block_of ns n) = false) ->
  block_loop key r i (off k) s = Done (inl (off N)) s.
Proof.
  intros Hs HN. induction r as [|r IH]; intros k i Hk Hno.
  { by replace N with k by lia. }
  unfold block_loop. cbn [for_acc].
  destruct (lookup_lt_is_Some_2 ns k ltac:(lia)) as [n Hn].
  destruct (Hs k n ltac:(lia) Hn) as (fl & Hb & Hf).
  unfold bind at 1 2. rewrite (ublock_run _ _ _ Hb). unfold ret at 1.
  rewrite same_flags by done. fold (block_of ns n). rewrite (Hno k n ltac:(lia) Hn).
  rewrite next_built by done. apply IH; [lia|]. intros j n' Hj. apply Hno. lia.
Qed.

Lemma find_block_eq key s : find_block key s =
  bind (block_loop key (Z.to_nat (num_blocks (us_table s))) 0 blocks_offset)
    (fun r => ret (match r with inr a => a | inl _ => 0 end)) s.
Proof. reflexivity. Qed.

Lemma find_none key N s : all_stored N s -> (N <= length ns)%nat ->
  num_blocks (us_table s) = Z.of_nat N ->
  (forall j n, (j < N)%nat -> ns !! j = Some n -> same_block key (block_of ns n) = false) ->
  find_block key s = Done 0 s.
Proof.
  intros Hs HN Hn Hno. rewrite find_block_eq, Hn, Nat2Z.id. change blocks_offset with (off 0).
  unfold bind. rewrite (find_from key N s Hs HN N 0 0); [done|lia|]. intros j n' Hj. apply Hno. lia.
Qed.

(** A node mappings may refer to. *)
Definition target (n : node) : Prop :=
  match n with NIts _ | NSmmu _ _ _ => True | _ => False end.

Lemma set_base_0 d : match d with UIts _ | USmmu _ => True | _ => False end ->
  forall v, set_smmu_base v d = d.
Proof. by destruct d. Qed.
Lemma target_data n l : target n ->
  foldl (fun d x => set_smmu_base (map_base ns n x) d) (data_of n) l = data_of n.
Proof. intros H. induction l as [|x l IH]; [done|]. cbn. rewrite set_base_0; [done|]. by destruct n. Qed.
Lemma same_self n : target n -> same_block (key_of n) (block_of ns n) = true.
Proof.
  intros H. unfold same_block, block_of, built. cbn [u_type u_num u_data u_flags u_map].
  rewrite target_data by done. rewrite !Z.eqb_refl, bool_decide_eq_true_2 by done.
  destruct n as [ids| | |]; [|done..|by destruct v3].
  cbn [key_of u_map maps_of map u_flags]. by rewrite app_nil_r, Z.eqb_refl, bool_decide_eq_true_2 by done.
Qed.

Lemma find_first N s i n : all_stored N s -> (N <= length ns)%nat ->
  num_blocks (us_table s) = Z.of_nat N -> (i < N)%nat -> ns !! i = Some n -> target n ->
  find_block (key_of n) s = Done (off i) s.
Proof.
  intros Hs HN Hnum Hi Hn Ht. rewrite find_block_eq, Hnum, Nat2Z.id. change blocks_offset with (off 0).
  unfold bind. enough (forall r k z, (k + r = N)%nat -> (k <= i)%nat ->
    block_loop (key_of n) r z (off k) s = Done (inr (off i)) s) as H.
  { by rewrite (H N 0%nat 0) by lia. }
  induction r as [|r IH]; intros k z Hk Hki; [lia|]. unfold block_loop. cbn [for_acc].
  destruct (lookup_lt_is_Some_2 ns k ltac:(lia)) as [n' Hn'].
  destruct (Hs k n' ltac:(lia) Hn') as (fl & Hb & Hf).
  unfold bind at 1 2. rewrite (ublock_run _ _ _ Hb). unfold ret at 1.
  rewrite same_flags by done. fold (block_of ns n'). destruct (Nat.eq_dec k i) as [->|Hne].
  - rewrite Hn in Hn'. injection Hn' as <-. rewrite same_self by done.
    unfold u32. by rewrite wrap_small by (apply off_range; lia).
  - rewrite (ok_fresh _ Hok k i n' n ltac:(lia) Hn' Hn), next_built by done. apply IH; lia.
Qed.
End places.

(** ** Adding blocks *)

Section adding.
Context {A : Acpi} (m : mem) (iort : Z) (pos : nat -> Z) (ns : list node).
Context (Hok : iort_ok ns) (Hen : encoded m iort pos ns).
Abbreviation off := (off ns).
Abbreviation add_block := (iort_add_block m iort).

Lemma words_ids a ids : (forall i x, ids !! i = Some x -> load 4 m (a + 4 * Z.of_nat i) = x) ->
  words m a (length ids) = ids.
Proof.
  intros H. apply list.list_eq. intros i. unfold words. rewrite list.list_lookup_fmap.
  destruct (ids !! i) as [x|] eqn:E.
  - rewrite lookup_seq_lt by (by apply list.lookup_lt_Some in E). cbn. f_equal. by apply H.
  - by rewrite lookup_seq_ge by (by apply list.lookup_ge_None_1).
Qed.

Lemma node_block_key k n : ns !! k = Some n -> node_block m (iort + pos k) = Some (key_of n).
Proof.
  intros Hn. destruct (en_nodes _ _ _ _ Hen k n Hn) as [Ht _ Hc _ Hd].
  unfold node_block, n_type, n_mapping_count, node_data. rewrite Ht, Hc.
  destruct n as [ids|name l|rc l|v3 base l]; cbn [data_bytes] in Hd.
  - destruct Hd as [Hl Hi]. cbn [type_of Z.eqb]. rewrite Hl, Nat2Z.id, words_ids by done.
    destruct (ok_ids _ Hok ids) as [_ Hb]; [by eapply list_elem_of_lookup_2|].
    unfold u32. by rewrite wrap_small by lia.
  - cbn -[Z.to_nat replicate]. rewrite Hd. reflexivity.
  - destruct Hd as (Hcc & Hlt & Ha & Hs). cbn -[Z.land bnot u32]. rewrite Hcc, Ha, Hs.
    do 3 f_equal. unfold key_of. cbn. f_equal.
    pose proof (load_range 8 m (iort + pos k + 16)) as Hr. rewrite Hcc in Hr.
    assert (rc_cca rc .& IOVIRT_CCA_MASK = rc_cca rc) as ->.
    { unfold IOVIRT_CCA_MASK. change (bnot 32 0) with (Z.ones 32). rewrite Z.land_ones by lia.
      apply Z.mod_small. lia. }
    unfold u32. rewrite wrap_small by lia. by destruct rc.
  - rewrite Hd. by destruct v3.
Qed.

(** A node that is there already is found, and only the room behind the table is
    touched. *)
Lemma add_known f N s i n a : all_stored ns N s -> (N <= length ns)%nat ->
  num_blocks (us_table s) = Z.of_nat N -> (i < N)%nat -> ns !! i = Some n -> target n ->
  off N <= a ->
  add_block (S f) (iort + pos i) a s = Done (off i, a) (put_in a (key_of n) s).
Proof.
  intros Hs HN Hnum Hi Hn Ht Ha. cbn [iort_add_block]. rewrite (node_block_key i n Hn).
  unfold bind at 1, put at 1, modify. fold (put_in a (key_of n) s).
  set (s1 := put_in a (key_of n) s).
  assert (find_block (key_of n) s1 = Done (off i) s1) as Hf.
  { apply (find_first ns Hok N); [by apply all_stored_put|done..]. }
  pose proof (off_low ns i).
  assert ((off i =? 0) = false) as E0 by lia.
  destruct n as [ids|name l|rc l|v3 base l]; try done; cbn [key_of u_data data_of];
    unfold bind at 1, ret at 1; unfold bind at 1; (rewrite Hf; cbn [negb]; by rewrite E0).
Qed.

Lemma mapping_at k n j x : ns !! k = Some n -> maps_of n !! j = Some x ->
  iort_mapping m (iort + pos k) (Z.of_nat j) = mk_map (m_in x) (m_count x) (m_out x) (pos (m_node x)).
Proof.
  intros Hn Hx. destruct (en_nodes _ _ _ _ Hen k n Hn) as [_ _ _ Hm _].
  destruct (Hm j x Hx) as (H1 & H2 & H3 & H4). unfold iort_mapping, n_mapping_offset.
  by rewrite H1, H2, H3, H4.
Qed.

(** The block of node [N] is being filled: the mappings [l] are there. *)
Record filling (N : nat) (n : node) (l : list imap) (h : IOVIRT_INFO_TABLE) (s : ust) : Prop := {
  fi_before : all_stored ns N s;
  fi_block : stored ns s N n l;
  fi_table : us_table s = h
}.

Lemma filling_put N n l h s a b : filling N n l h s -> ns !! N = Some n -> off (S N) <= a ->
  filling N n l h (put_in a b s).
Proof.
  intros [Hs Hb Ht] Hn Ha. split; [|by apply stored_put|done].
  apply all_stored_put; [done|]. pose proof (off_mono ns N (S N)). lia.
Qed.
Lemma filling_self N n l l' fl h s : filling N n l h s -> (is_its n -> fl = 0) ->
  filling N n l' h (put_in (off N) (built ns n l' fl) s).
Proof.
  intros [Hs Hb Ht] Hf. split; [by apply all_stored_put|by exists fl; split; [apply put_at|]|done].
Qed.

Lemma built_snoc n l x fl : built ns n (l ++ [x]) fl =
  with_data (set_smmu_base (map_base ns n x) (u_data (built ns n l fl)))
    (add_map (out_map ns x) (built ns n l fl)).
Proof. unfold built, with_data, add_map. cbn. by rewrite foldl_snoc, map_app, app_assoc. Qed.

Lemma target_smmu n fl l : target n ->
  (if is_usmmu (built ns n l fl)
   then match u_data (built ns n l fl) with USmmu s => ret (smmu_info_base s) | _ => undef end
   else ret 0 : U Z) = ret (node_base n).
Proof. intros Ht. unfold built. cbn [u_data]. rewrite target_data by done. destruct n as [| | |[] ]; done. Qed.

Lemma update_base_run N n x s : all_stored ns N s -> imap_ok ns N x -> forall fl l',
  us_blocks s !! off N = Some (add_map (out_map ns x) (built ns n l' fl)) ->
  update_smmu_base (off N) (off (m_node x)) s = Done tt (put_in (off N) (built ns n (l' ++ [x]) fl) s).
Proof.
  intros Hs (_ & _ & _ & _ & _ & Hlt & Ht) fl l' Hb. unfold update_smmu_base.
  rewrite (bind_done _ _ _ _ _ (ublock_run _ _ _ Hb)).
  destruct (ns !! m_node x) as [n'|] eqn:En'; [|done].
  destruct (Hs _ n' Hlt En') as (fl' & Hb' & _).
  assert ((if u_type (add_map (out_map ns x) (built ns n l' fl)) =? IOVIRT_NODE_PCI_ROOT_COMPLEX
    then let! temp_block := ublock_at (off (m_node x)) in
         (if is_usmmu temp_block
          then match u_data temp_block with USmmu s => ret (smmu_info_base s) | _ => undef end
          else ret 0) else ret 0) s = Done (map_base ns n x) s) as Hv.
  { unfold map_base. rewrite En'. cbn [u_type add_map built].
    destruct n as [| | |[] ]; try done. cbn [type_of]. rewrite Z.eqb_refl.
    unfold bind. by rewrite (ublock_run _ _ _ Hb'), target_smmu. }
  rewrite (bind_done _ _ _ _ _ Hv). unfold put, modify, put_in. by rewrite built_snoc.
Qed.

Lemma add_mapping_run f N n l h s j x : filling N n l h s -> ns !! N = Some n ->
  (N <= length ns)%nat -> num_blocks h = Z.of_nat N ->
  maps_of n !! j = Some x -> imap_ok ns N x ->
  wp (add_mapping m iort (add_block (S f)) (iort + pos N) (off N) (Z.of_nat j) (off (S N)))
    (fun r s' => r = inl (off (S N)) /\ filling N n (l ++ [x]) h s') s.
Proof.
  intros Hfi Hn HN Hnum Hx Hok'. assert (Hok2 := Hok').
  destruct Hok2 as (_ & _ & _ & _ & _ & Hlt & Ht).
  destruct (ns !! m_node x) as [n'|] eqn:En'; [|done].
  unfold add_mapping. rewrite (mapping_at N n j x Hn Hx). cbn [output_ref input_base id_count output_base].
  pose proof (off_mono ns N (S N) ltac:(lia)).
  apply wp_bind. eapply wp_intro.
  { apply (add_known f N s _ n'); [apply Hfi|done|by rewrite (fi_table _ _ _ _ _ Hfi)|done|done|by destruct n'|done]. }
  set (s1 := put_in (off (S N)) (key_of n') s).
  assert (filling N n l h s1) as Hf1 by (by apply filling_put).
  destruct (fi_block _ _ _ _ _ Hf1) as (fl & Hb & Hfl).
  apply wp_bind. eapply wp_intro; [by apply ublock_run|]. apply wp_bind, wp_modify. fold (out_map ns x).
  set (s2 := put_in (off N) (add_map (out_map ns x) (built ns n l fl)) s1).
  assert (all_stored ns N s2) as Hs2 by (apply all_stored_put; [apply Hf1|done]).
  change (wp (bind (update_smmu_base (off N) (off (m_node x))) (fun _ => ret (inl (off (S N)))))
    (fun (r : Z + unit) s' => r = inl (off (S N)) /\ filling N n (l ++ [x]) h s') s2).
  apply wp_bind. eapply wp_intro.
  { apply (update_base_run N n x s2 Hs2 Hok' fl l), put_at. }
  apply wp_ret. split; [done|]. split; [by apply all_stored_put| |].
  - exists fl. split; [apply put_at|done].
  - apply (fi_table _ _ _ _ _ Hf1).
Qed.

Lemma mappings_run f N n h s : filling N n [] h s -> ns !! N = Some n -> ~ is_its n ->
  num_blocks h = Z.of_nat N ->
  wp (for_acc (Z.to_nat (num_of n)) 0 (off (S N)) (add_mapping m iort (add_block (S f)) (iort + pos N) (off N)))
    (fun r s' => r = inl (off (S N)) /\ filling N n (maps_of n) h s') s.
Proof.
  intros Hfi Hn Hi Hnum.
  assert (Z.to_nat (num_of n) = length (maps_of n)) as -> by (destruct n; cbn; [done|lia..]).
  pose proof (list.lookup_lt_Some _ _ _ Hn) as HN.
  assert (Forall (imap_ok ns N) (maps_of n)) as Hm by (by eapply ok_maps).
  enough (forall r j l s, (j + r = length (maps_of n))%nat -> l = take j (maps_of n) ->
    filling N n l h s -> wp (for_acc r (Z.of_nat j) (off (S N))
      (add_mapping m iort (add_block (S f)) (iort + pos N) (off N)))
    (fun q s' => q = inl (off (S N)) /\ filling N n (maps_of n) h s') s) as H.
  { by apply (H (length (maps_of n)) 0%nat [] s). }
  clear s Hfi. induction r as [|r IH]; intros j l s Hj -> Hfi; cbn [for_acc].
  { apply wp_ret. split; [done|]. by rewrite list.take_ge in Hfi by lia. }
  destruct (lookup_lt_is_Some_2 (maps_of n) j ltac:(lia)) as [x Hx].
  apply wp_bind. eapply wp_mono; [|apply (add_mapping_run f N n _ h s j x Hfi Hn); [lia|done|done|]].
  - intros q s' [-> Hf']. replace (Z.of_nat j + 1) with (Z.of_nat (S j)) by lia.
    apply (IH (S j) (take (S j) (maps_of n))); [lia|done|]. by rewrite (list.take_S_r _ _ _ Hx).
  - rewrite list.Forall_forall in Hm. apply Hm. by eapply list_elem_of_lookup_2.
Qed.

Lemma for_acc_quiet {X R} (body : Z -> X -> U (X + R)) s n i x :
  (forall i x, exists r, body i x s = Done r s) -> exists r, for_acc n i x body s = Done r s.
Proof.
  intros H. revert i x. induction n as [|n IH]; intros i x; cbn [for_acc]; [by eexists|].
  destruct (H i x) as [[x'|v] Hr]; rewrite (bind_done _ _ _ _ _ Hr); [apply IH|by eexists].
Qed.
Lemma distinct_run a c s : exists d, smmu_ctx_int_distinct m a c s = Done d s.
Proof.
  unfold smmu_ctx_int_distinct. edestruct (for_acc_quiet (X := unit) (R := unit)) as [r Hr];
    [|rewrite (bind_done _ _ _ _ _ Hr); by eexists].
  intros i x. apply for_acc_quiet. intros j y. by eexists.
Qed.

Lemma count_blocks l : Z.of_nat (length l) < 2 ^ 32 ->
  num_blocks (count_table l) = Z.of_nat (length l).
Proof.
  induction l as [|n l IH] using List.rev_ind; intros H; [done|]. unfold count_table.
  rewrite foldl_snoc. fold (count_table l). cbn [bump one_block_more num_blocks].
  rewrite List.length_app in *. cbn [length] in *. rewrite IH by lia.
  unfold u32. rewrite wrap_small; lia.
Qed.

Lemma built_nil n : built ns n [] 0 = key_of n.
Proof. unfold built. cbn [map foldl]. by rewrite app_nil_r. Qed.

(** The flags of an SMMUv2 tell whether its context interrupts are distinct. *)
Lemma ctx_flags n k s : ns !! k = Some n -> filling k n [] (us_table s) s ->
  us_blocks s !! off k = Some (key_of n) ->
  wp (when u_type (key_of n) =? IOVIRT_NODE_SMMU then
       (let! distinct := smmu_ctx_int_distinct m (iort + pos k + load 4 m (node_data (iort + pos k) + 32))
                           (load 4 m (node_data (iort + pos k) + 28)) in
        when negb distinct
        then put (off k) (with_flags (Z.lor (1 << IOVIRT_FLAG_SMMU_CTX_INT_SHIFT)) (key_of n))))
    (fun _ s' => filling k n [] (us_table s) s') s.
Proof.
  intros Hn Hf Hb. destruct (_ =? _) eqn:E; [|by apply wp_ret]. edestruct distinct_run as [d Hd].
  apply wp_bind. eapply wp_intro; [exact Hd|]. destruct d; [by apply wp_ret|]. apply wp_modify.
  rewrite <- built_nil. apply (filling_self k n [] [] 4); [done|]. by destruct n.
Qed.

(** A node is added behind the blocks of those before it. *)
Lemma add_new f k n s : all_stored ns k s -> us_table s = count_table (take k ns) ->
  ns !! k = Some n ->
  wp (add_block (S (S f)) (iort + pos k) (off k))
    (fun r s' => r = (off k, off (S k)) /\ all_stored ns (S k) s' /\
                 us_table s' = count_table (take (S k) ns)) s.
Proof.
  intros Hs Ht Hn. pose proof (list.lookup_lt_Some _ _ _ Hn) as Hk.
  assert (num_blocks (us_table s) = Z.of_nat k) as Hnum.
  { rewrite Ht, count_blocks; rewrite list.length_take_le by lia; [done|].
    pose proof (nodes_few ns Hok). lia. }
  cbn [iort_add_block]. rewrite (node_block_key k n Hn). apply wp_bind, wp_modify.
  fold (put_in (off k) (key_of n) s). set (s1 := put_in (off k) (key_of n) s).
  assert (filling k n [] (us_table s) s1) as Hf1.
  { split; [by apply all_stored_put|exists 0; split; [|done]|done]. rewrite built_nil. apply put_at. }
  apply wp_bind. eapply wp_intro.
  { instantiate (1 := s1). instantiate (1 := key_of n). by destruct n as [| | |[] ]. }
  apply wp_bind. eapply wp_intro.
  { apply (find_none ns (key_of n) k s1); [apply Hf1|lia|done|].
    intros j n' Hj Hn'. by apply (ok_fresh _ Hok j k). }
  cbn [Z.eqb negb]. rewrite <- built_nil. rewrite (next_built ns k n [] 0 Hn). rewrite built_nil.
  apply wp_bind. eapply wp_mono; [|apply (ctx_flags n k s1 Hn Hf1); apply put_at].
  intros [] s2 Hf2. apply wp_bind.
  apply (wp_mono _ (fun r s' => r = inl (off (S k)) /\ filling k n (maps_of n) (us_table s) s')).
  2: { cbn [u_type key_of u_num]. destruct (type_of n =? IOVIRT_NODE_ITS_GROUP) eqn:E.
       - apply wp_ret. split; [done|]. by destruct n as [| | |[] ].
       - apply (mappings_run f k n (us_table s) s2 Hf2 Hn); [|done].
         destruct n; [discriminate E|tauto..]. }
  intros r s3 [-> Hf3]. apply wp_bind, wp_modify, wp_bind, wp_modify, wp_ret.
  pose proof (off_range ns Hok k ltac:(lia)).
  split; [unfold u32; by rewrite wrap_small|]. split.
  - intros j n' Hj Hn'. destruct (Nat.eq_dec j k) as [->|Hne].
    + rewrite Hn in Hn'. injection Hn' as <-. apply (fi_block _ _ _ _ _ Hf3).
    + apply (fi_before _ _ _ _ _ Hf3); [lia|done].
  - rewrite (list.take_S_r _ _ _ Hn). unfold count_table. rewrite foldl_snoc.
    cbn [us_table key_of u_type]. by rewrite (fi_table _ _ _ _ _ Hf3), Ht.
Qed.

(** All the nodes. *)
Lemma parse_run f s : us_table s = mk_iovirt_table 0 0 0 0 0 0 ->
  wp (parse_nodes m iort (S (S f))) (fun r s' => r = true /\ all_stored ns (length ns) s' /\
    us_table s' = count_table ns) s.
Proof.
  intros Ht. unfold parse_nodes. rewrite (en_count _ _ _ _ Hen), (en_first _ _ _ _ Hen), Nat2Z.id.
  apply wp_bind.
  enough (forall r k i s, (k + r = length ns)%nat -> all_stored ns k s -> us_table s = count_table (take k ns) ->
    wp (for_acc r i (iort + pos k, off k)
         (fun _ => node_step m iort (S (S f)) (iort + field m Header_Length iort)))
       (fun r s' => (exists x, r = inl x) /\ all_stored ns (length ns) s' /\ us_table s' = count_table ns) s) as H.
  { eapply wp_mono; [|apply (H (length ns) 0%nat 0 s); [done| |done]].
    - intros r s' ([x ->] & Hs' & Ht'). apply wp_ret. by split.
    - intros k n Hk. lia. }
  clear s Ht. induction r as [|r IH]; intros k i s Hk Hs Ht; cbn [for_acc].
  { apply wp_ret. replace k with (length ns) in * by lia. split; [by eexists|]. split; [done|].
    by rewrite Ht, list.take_ge. }
  destruct (lookup_lt_is_Some_2 ns k ltac:(lia)) as [n Hn].
  apply wp_bind. unfold node_step. pose proof (en_end _ _ _ _ Hen k ltac:(lia)) as He.
  replace (iort + field m Header_Length iort <=? iort + pos k) with false by lia.
  apply wp_bind. eapply wp_mono; [|by apply (add_new f k n)].
  intros x s' (-> & Hs' & Ht'). apply wp_ret.
  unfold n_length. rewrite <- Z.add_assoc, <- (nb_length _ _ _ _ _ (en_nodes _ _ _ _ Hen k n Hn)).
  apply IH; [lia|done..].
Qed.
End adding.

(** ** The check changes flags only *)

Section check.
Context (ns : list node) (Hok : iort_ok ns).
Abbreviation off := (off ns).
Abbreviation N := (length ns).
Variable h : IOVIRT_INFO_TABLE.

Definition table_ok (s : ust) : Prop := all_stored ns N s /\ us_table s = h.

Lemma type_its n : (type_of n =? IOVIRT_NODE_ITS_GROUP) = true <-> is_its n.
Proof. by destruct n as [| | |[] ]. Qed.
Lemma num_maps n : ~ is_its n -> num_of n = Z.of_nat (length (maps_of n)).
Proof. by destruct n. Qed.

Lemma flags_put i n fl f s : table_ok s -> ns !! i = Some n -> ~ is_its n ->
  us_blocks s !! off i = Some (built ns n (maps_of n) fl) ->
  table_ok (put_in (off i) (with_flags f (built ns n (maps_of n) fl)) s).
Proof.
  intros [Hs Ht] Hn Hi Hb. split; [|done]. intros k n' Hk Hn'. destruct (Nat.eq_dec k i) as [->|Hne].
  - rewrite Hn in Hn'. injection Hn' as <-. exists (f fl). split; [apply put_at|done].
  - destruct (Hs k n' Hk Hn') as (fl' & Hb' & Hf'). exists fl'. split; [|done].
    pose proof (list.lookup_lt_Some _ _ _ Hn) as HiN.
    change (with_flags f (built ns n (maps_of n) fl)) with (built ns n (maps_of n) (f fl)).
    destruct (Nat.lt_total k i) as [Hl|[?|Hl]]; [|done|].
    + apply put_keeps; [done|pose proof (off_lt ns k i Hl Hk); lia|]. left.
      rewrite (next_built ns k n' _ _ Hn'). apply off_mono. lia.
    + apply put_keeps; [done|pose proof (off_lt ns i k Hl HiN); lia|]. right.
      rewrite (next_built ns i n _ _ Hn). apply off_mono. lia.
Qed.

Lemma flag_both_run i j ni nj bit s : table_ok s -> ns !! i = Some ni -> ns !! j = Some nj ->
  ~ is_its ni -> ~ is_its nj -> wp (flag_both (off i) (off j) bit) (fun _ s' => table_ok s') s.
Proof.
  intros Hs Hi Hj Hti Htj. unfold flag_both.
  destruct (proj1 Hs i ni (list.lookup_lt_Some _ _ _ Hi) Hi) as (fl & Hb & _).
  apply wp_bind. eapply wp_intro; [by apply ublock_run|]. apply wp_bind, wp_modify.
  pose proof (flags_put i ni fl (Z.lor (1 << bit)) s Hs Hi Hti Hb) as Hs1.
  destruct (proj1 Hs1 j nj (list.lookup_lt_Some _ _ _ Hj) Hj) as (fl' & Hb' & _).
  apply wp_bind. eapply wp_intro; [by apply ublock_run|]. apply wp_modify.
  by apply (flags_put j nj fl' (Z.lor (1 << bit))).
Qed.

Lemma map_at_run n l fl i x s : ~ is_its n -> l !! i = Some x ->
  map_at (built ns n l fl) (Z.of_nat i) s =
  Done (mk_map (m_in x) (m_count x) (m_out x) (off (m_node x))) s.
Proof.
  intros Hn Hx. unfold map_at, built. cbn [u_map].
  assert (u_map (key_of n) = []) as -> by (by destruct n). cbn [app].
  by rewrite Nat2Z.id, list.list_lookup_fmap, Hx.
Qed.

Lemma check_map_run i j ni nj key k x s : table_ok s -> ns !! i = Some ni -> ns !! j = Some nj ->
  ~ is_its ni -> ~ is_its nj -> maps_of nj !! k = Some x ->
  wp (check_map (off i) (off j) key (Z.of_nat k)) (fun _ s' => table_ok s') s.
Proof.
  intros Hs Hi Hj Hti Htj Hx. unfold check_map.
  destruct (proj1 Hs j nj (list.lookup_lt_Some _ _ _ Hj) Hj) as (fl & Hb & _).
  apply wp_bind. eapply wp_intro; [by apply ublock_run|].
  apply wp_bind. eapply wp_intro; [by apply map_at_run|]. cbn [output_ref output_base].
  destruct (_ =? _); [|by apply wp_ret]. destruct (overlap _ _ _ _); [|by apply wp_ret].
  pose proof (ok_maps _ Hok j nj Hj) as Hm. rewrite list.Forall_forall in Hm.
  destruct (Hm x) as (_ & _ & _ & _ & _ & Hlt & Ht); [by eapply list_elem_of_lookup_2|].
  destruct (ns !! m_node x) as [n'|] eqn:En'; [|done].
  destruct (proj1 Hs _ n' (list.lookup_lt_Some _ _ _ En') En') as (fl' & Hb' & _).
  apply wp_bind. eapply wp_intro; [by apply ublock_run|].
  destruct (_ =? _); by apply (flag_both_run i j ni nj).
Qed.

(** The mappings [a] to [b] of a block. *)
Lemma check_maps_run i j ni nj key a b s : table_ok s -> ns !! i = Some ni -> ns !! j = Some nj ->
  ~ is_its ni -> ~ is_its nj -> (a <= b <= length (maps_of nj))%nat ->
  wp (for_range (Z.of_nat a) (Z.of_nat b) (check_map (off i) (off j) key)) (fun _ s' => table_ok s') s.
Proof.
  intros Hs Hi Hj Hti Htj Hab. unfold for_range.
  replace (Z.to_nat (Z.of_nat b - Z.of_nat a)) with (b - a)%nat by lia.
  apply (wp_for_n (fun _ s => table_ok s)); [|done]. intros z s' Hz Hs'.
  destruct (lookup_lt_is_Some_2 (maps_of nj) (Z.to_nat z) ltac:(lia)) as [x Hx].
  rewrite <- (Z2Nat.id z) by lia. by apply (check_map_run i j ni nj key _ x).
Qed.

(** From the first mapping of a block the rest of the table is visited. *)
Lemma check_block_run i j ni key s : table_ok s -> ns !! i = Some ni -> ~ is_its ni ->
  (1 <= length (maps_of ni))%nat -> (i <= j < N)%nat ->
  wp (check_block (off i) key 0 (off j)) (fun r s' => r = inl (off (S j)) /\ table_ok s') s.
Proof.
  intros Hs Hi Hti Hl Hj. unfold check_block.
  destruct (lookup_lt_is_Some_2 ns j ltac:(lia)) as [nj Hnj].
  destruct (proj1 Hs j nj ltac:(lia) Hnj) as (fl & Hb & _).
  apply wp_bind. eapply wp_intro; [by apply ublock_run|].
  apply wp_bind. apply (wp_mono _ (fun _ s' => table_ok s')).
  { intros [] s' Hs'. apply wp_ret. split; [|done]. by rewrite (next_built ns j nj). }
  cbn [u_type u_num built]. destruct (type_of nj =? IOVIRT_NODE_ITS_GROUP) eqn:E; cbn [negb]; [by apply wp_ret|].
  assert (~ is_its nj) as Htj by (rewrite <- type_its; by rewrite E). rewrite num_maps by done.
  destruct (Nat.eq_dec j i) as [->|Hne].
  - rewrite Hi in Hnj. injection Hnj as <-. rewrite Z.eqb_refl.
    replace (0 + 1) with (Z.of_nat 1) by done.
    replace (Z.of_nat 1 + (Z.of_nat (length (maps_of ni)) - 1)) with (Z.of_nat (length (maps_of ni))) by lia.
    by apply (check_maps_run i i ni ni); try done; lia.
  - pose proof (off_lt ns i j ltac:(lia) ltac:(lia)). replace (off j =? off i) with false by lia.
    by apply (check_maps_run i j ni nj key 0); try done; lia.
Qed.

Lemma check_key_run i n s : table_ok s -> ns !! i = Some n -> ~ is_its n ->
  (1 <= length (maps_of n))%nat ->
  wp (check_key (off i) (Z.of_nat N - Z.of_nat i) 0) (fun _ s' => table_ok s') s.
Proof.
  intros Hs Hi Hti Hl. pose proof (list.lookup_lt_Some _ _ _ Hi) as HiN. unfold check_key.
  destruct (proj1 Hs i n HiN Hi) as (fl & Hb & _).
  apply wp_bind. eapply wp_intro; [by apply ublock_run|].
  destruct (lookup_lt_is_Some_2 (maps_of n) 0 ltac:(lia)) as [x Hx].
  apply wp_bind. eapply wp_intro; [by apply (map_at_run n _ _ 0 x)|].
  apply wp_bind. eapply (wp_mono _ (fun r s' => table_ok s')); [by intros r s' Hs'; apply wp_ret|].
  replace (Z.to_nat (Z.of_nat N - Z.of_nat i)) with (N - i)%nat by lia.
  enough (forall r j z s, (j + r = N)%nat -> (i <= j)%nat -> table_ok s ->
    wp (for_acc r z (off j) (fun _ => check_block (off i)
       (mk_map (m_in x) (m_count x) (m_out x) (off (m_node x))) 0)) (fun _ s' => table_ok s') s) as H.
  { apply H; [lia|lia|done]. }
  clear s Hs Hb. induction r as [|r IH]; intros j z s Hj Hij Hs; cbn [for_acc]; [by apply wp_ret|].
  apply wp_bind. eapply wp_mono; [|apply (check_block_run i j n); [done|done|done|done|lia]].
  intros q s' [-> Hs']. apply IH; [lia|lia|done].
Qed.

(** A block with at most one mapping. *)
Lemma key_step_run i n s : table_ok s -> ns !! i = Some n -> (length (maps_of n) <= 1)%nat ->
  wp (key_step (Z.of_nat N) (Z.of_nat i) (off i)) (fun r s' => r = inl (off (S i)) /\ table_ok s') s.
Proof.
  intros Hs Hn H1. destruct (proj1 Hs i n (list.lookup_lt_Some _ _ _ Hn) Hn) as (fl & Hb & _).
  unfold key_step. apply wp_bind. eapply wp_intro; [by apply ublock_run|].
  apply wp_bind. apply (wp_mono _ (fun _ s' => table_ok s')).
  { intros [] s' Hs'. apply wp_ret. split; [|done]. by rewrite (next_built ns i n). }
  cbn [u_type u_num built]. destruct (type_of n =? IOVIRT_NODE_ITS_GROUP) eqn:E; cbn [negb]; [by apply wp_ret|].
  assert (~ is_its n) as Ht by (rewrite <- type_its; by rewrite E). rewrite num_maps by done.
  destruct (maps_of n) as [|x [|y l]] eqn:Em; [by apply wp_ret| |cbn in H1; lia].
  apply wp_bind. eapply wp_mono; [|apply (check_key_run i n); try done; by rewrite Em].
  intros [] s' Hs'. by apply wp_ret.
Qed.

(** In a block with more, the mappings behind the second one are taken to be one
    more than there are. *)
Lemma for_range_stuck {S} (body : Z -> M S unit) (I : S -> Prop) a b s : a <= b ->
  (forall z s, a <= z < b -> I s -> wp (body z) (fun _ => I) s) ->
  (forall s, I s -> body b s = Undef) -> I s -> for_range a (b + 1) body s = Undef.
Proof.
  intros Hab Hb Hu. unfold for_range. replace (Z.to_nat (b + 1 - a)) with (Datatypes.S (Z.to_nat (b - a))) by lia.
  remember (Z.to_nat (b - a)) as n eqn:En. revert a s Hab En Hb.
  induction n as [|n IH]; intros a s Hab En Hb HI; cbn [for_n]; unfold bind.
  - replace a with b by lia. by rewrite Hu.
  - specialize (Hb a s ltac:(lia) HI) as Ha. unfold wp in Ha. destruct (body a s) as [[] s'| |]; [|done..].
    apply (IH (a + 1)); [lia|lia| |done]. intros z s1 Hz. apply Hb. lia.
Qed.
Lemma key_step_stuck i n s : table_ok s -> ns !! i = Some n -> (2 <= length (maps_of n))%nat ->
  key_step (Z.of_nat N) (Z.of_nat i) (off i) s = Undef.
Proof.
  intros Hs Hn H2. pose proof (list.lookup_lt_Some _ _ _ Hn) as HiN.
  assert (~ is_its n) as Ht by (intros Hi; by destruct n; cbn in H2; try lia).
  assert ((type_of n =? IOVIRT_NODE_ITS_GROUP) = false) as E.
  { destruct (_ =? _) eqn:E; [by apply type_its in E|done]. }
  destruct (proj1 Hs i n HiN Hn) as (fl & Hb & _). unfold key_step.
  rewrite (bind_done _ _ _ _ _ (ublock_run _ _ _ Hb)). cbn [u_type u_num built]. rewrite E. cbn [negb].
  rewrite num_maps by done. unfold bind at 1.
  enough (for_range 0 (Z.of_nat (length (maps_of n))) (check_key (off i) (Z.of_nat N - Z.of_nat i)) s = Undef)
    as -> by done.
  unfold for_range. destruct (Z.to_nat _) as [|[|k]] eqn:Ek; [lia|lia|]. cbn [for_n].
  pose proof (check_key_run i n s Hs Hn Ht ltac:(lia)) as H0. unfold wp in H0. unfold bind at 1.
  destruct (check_key _ _ 0 s) as [[] s1| |]; [|done..]. unfold bind at 1.
  enough (check_key (off i) (Z.of_nat N - Z.of_nat i) (0 + 1) s1 = Undef) as -> by done.
  destruct (proj1 H0 i n HiN Hn) as (fl1 & Hb1 & _). unfold check_key.
  rewrite (bind_done _ _ _ _ _ (ublock_run _ _ _ Hb1)).
  destruct (lookup_lt_is_Some_2 (maps_of n) 1 ltac:(lia)) as [x Hx].
  rewrite (bind_done _ _ _ _ _ (map_at_run n _ fl1 1 x s1 Ht Hx)).
  destruct (Z.to_nat (Z.of_nat N - Z.of_nat i)) as [|k'] eqn:Ek'; [lia|]. cbn [for_acc].
  unfold bind at 1 2. unfold check_block. rewrite (bind_done _ _ _ _ _ (ublock_run _ _ _ Hb1)).
  cbn [u_type u_num built]. rewrite E, Z.eqb_refl. cbn [negb]. rewrite num_maps by done.
  replace (0 + 1 + 1 + (Z.of_nat (length (maps_of n)) - 1)) with (Z.of_nat (length (maps_of n)) + 1) by lia.
  unfold bind at 1. erewrite (for_range_stuck _ table_ok); [done|lia| | |done].
  - intros z s' Hz Hs'. destruct (lookup_lt_is_Some_2 (maps_of n) (Z.to_nat z) ltac:(lia)) as [y Hy].
    rewrite <- (Z2Nat.id z) by lia. by apply (check_map_run i i n n _ _ y).
  - intros s' Hs'. destruct (proj1 Hs' i n HiN Hn) as (fl' & Hb' & _). unfold check_map.
    rewrite (bind_done _ _ _ _ _ (ublock_run _ _ _ Hb')). unfold bind at 1, map_at, built. cbn [u_map].
    rewrite Nat2Z.id, list.lookup_ge_None_2; [done|]. rewrite List.length_app, List.length_map.
    destruct n; [done|cbn; lia..].
Qed.

Abbreviation keys r i := (for_acc r (Z.of_nat i) (off i) (key_step (Z.of_nat N))).
Lemma keys_run r : forall i s, (i + r = N)%nat -> table_ok s ->
  (forall j n, (i <= j)%nat -> ns !! j = Some n -> (length (maps_of n) <= 1)%nat) ->
  wp (keys r i) (fun _ s' => table_ok s') s.
Proof.
  induction r as [|r IH]; intros i s Hi Hs H1; cbn [for_acc]; [by apply wp_ret|].
  destruct (lookup_lt_is_Some_2 ns i ltac:(lia)) as [n Hn].
  apply wp_bind. eapply wp_mono; [|apply (key_step_run i n); [done..|by apply (H1 i)]].
  intros q s' [-> Hs']. replace (Z.of_nat i + 1) with (Z.of_nat (S i)) by lia.
  apply IH; [lia|done|]. intros j n' Hj. apply H1. lia.
Qed.
Lemma keys_stuck r : forall i s, (i + r = N)%nat -> table_ok s ->
  (exists j n, (i <= j)%nat /\ ns !! j = Some n /\ (2 <= length (maps_of n))%nat) -> keys r i s = Undef.
Proof.
  induction r as [|r IH]; intros i s Hi Hs (j & nj & Hj & Hnj & H2); cbn [for_acc].
  { apply list.lookup_lt_Some in Hnj. lia. }
  destruct (lookup_lt_is_Some_2 ns i ltac:(lia)) as [n Hn]. unfold bind.
  destruct (Nat.le_gt_cases 2 (length (maps_of n))) as [Hl|Hl]; [by rewrite (key_step_stuck i n)|].
  destruct (wp_done _ _ _ (key_step_run i n s Hs Hn ltac:(lia))) as (q & s' & Hq & -> & Hs').
  rewrite Hq. replace (Z.of_nat i + 1) with (Z.of_nat (S i)) by lia. apply IH; [lia|done|].
  exists j, nj. split; [|done]. destruct (Nat.eq_dec j i) as [->|]; [|lia].
  rewrite Hn in Hnj. injection Hnj as <-. lia.
Qed.

Lemma overlap_check_run s : table_ok s -> num_blocks h = Z.of_nat N ->
  (forall n, n ∈ ns -> (length (maps_of n) <= 1)%nat) ->
  wp check_mapping_overlap (fun _ s' => table_ok s') s.
Proof.
  intros Hs Hh H1. unfold check_mapping_overlap. apply wp_bind. eapply wp_intro; [done|].
  rewrite (proj2 Hs), Hh, Nat2Z.id. apply wp_bind.
  eapply (wp_mono _ (fun r s' => table_ok s')); [by intros r s' Hs'; apply wp_ret|].
  apply (keys_run N 0); [done..|]. intros j n _ Hn. apply H1. by eapply list_elem_of_lookup_2.
Qed.
Lemma check_stuck s n : table_ok s -> num_blocks h = Z.of_nat N -> n ∈ ns ->
  (2 <= length (maps_of n))%nat -> check_mapping_overlap s = Undef.
Proof.
  intros Hs Hh Hn H2. unfold check_mapping_overlap, get. unfold bind at 1.
  rewrite (proj2 Hs), Hh, Nat2Z.id. unfold bind. apply list_elem_of_lookup in Hn as [i Hi].
  rewrite (keys_stuck N 0); [done|done|done|]. exists i, n. split; [lia|done].
Qed.
End check.

(** ** What the look-ups of the VAL find *)

(** The first mapping that holds an identifier, and the search for the root
    complex, on the nodes. *)
Fixpoint node_map (x : Z) (l : list imap) : option (Z * nat) :=
  match l with
  | [] => None
  | i :: l' => if (m_in i <=? x) && (x <=? m_in i + m_count i)
               then Some (x - m_in i + m_out i, m_node i) else node_map x l'
  end.
Definition node_pick (rid segment : Z) (found : option (Z * nat)) (n : node) : option (Z * nat) :=
  match n with
  | NRc rc l => if rc_segment rc =? segment
                then match node_map rid l with Some x => Some x | None => found end else found
  | _ => found
  end.
Definition its_id_of (n : node) : Z := match n with NIts (i :: _) => i | _ => 0 end.
(** What the IORT says of a requester: through an ITS group, or an SMMU and its
    ITS group. *)
Definition requester_info (ns : list node) (rid segment : Z) : option device_info :=
  '(id, k) ← foldl (node_pick rid segment) None ns;
  n ← ns !! k;
  match n with
  | NIts _ => Some (mk_device_info id 0xFFFFFFFF (its_id_of n))
  | NSmmu _ _ l =>
      '(did, k') ← node_map id l;
      n' ← ns !! k';
      Some (mk_device_info did id (its_id_of n'))
  | _ => None
  end.

Section view.
Context (ns : list node) (Hok : iort_ok ns) (t : Z) (Ht : 0 < t) (Htop : t + 2 ^ 32 <= 2 ^ 64).
Abbreviation off := (off ns).
Abbreviation N := (length ns).
Context (s : ust) (Hs : all_stored ns N s) (Hnum : num_blocks (us_table s) = Z.of_nat N).

Definition view_block (k : nat) : IOVIRT_BLOCK :=
  to_block (default (mk_ublock 0 0 (UIts 0) 0 []) (us_blocks s !! off k)).
Definition view_blocks : list IOVIRT_BLOCK := map view_block (seq 0 N).

Lemma to_data_set n l :
  to_data (foldl (fun d x => set_smmu_base (map_base ns n x) d) (data_of n) l) = to_data (data_of n).
Proof.
  induction l as [|x l IH] using List.rev_ind; [done|]. rewrite foldl_snoc, <- IH.
  by destruct (foldl _ _ _).
Qed.
Lemma view_block_at k n : ns !! k = Some n -> exists fl,
  view_block k = mk_block (type_of n) (num_of n) (to_data (data_of n)) fl
                   (u_map (key_of n) ++ map (out_map ns) (maps_of n)) /\
  io_blocks (val_view t s) !! (t + off k) = Some (view_block k).
Proof.
  intros Hn. destruct (Hs k n (list.lookup_lt_Some _ _ _ Hn) Hn) as (fl & Hb & _). exists fl.
  unfold view_block. rewrite Hb. split.
  - cbn [from_option id]. unfold to_block, built. cbn [u_type u_num u_data u_flags u_map].
    by rewrite to_data_set.
  - cbn [val_view io_blocks]. rewrite lookup_kmap by (intros x y ?; lia).
    by rewrite lookup_fmap, Hb.
Qed.

Lemma align_1 a : 0 <= a < 2 ^ 64 -> ALIGN_MEMORY a 1 = a.
Proof.
  intros Ha. unfold ALIGN_MEMORY. change (bnot 64 (1 - 1)) with (Z.ones 64).
  rewrite Z.land_ones by lia. replace (a + 1 - 1) with a by lia. unfold u64.
  rewrite wrap_small by done. by apply Z.mod_small.
Qed.
Lemma off_in k : (k <= N)%nat -> 0 <= t + off k < 2 ^ 64.
Proof. intros H. pose proof (off_range ns Hok k H). lia. Qed.

Lemma view_layout j r : (j + r = N)%nat ->
  layout 1 (t + off j) (map view_block (seq j r)) = map (fun k => (t + off k, view_block k)) (seq j r).
Proof.
  revert j. induction r as [|r IH]; intros j Hj; [done|]. cbn [seq map layout].
  destruct (lookup_lt_is_Some_2 ns j ltac:(lia)) as [n Hn].
  rewrite align_1 by (apply off_in; lia). f_equal.
  assert (IOVIRT_NEXT_BLOCK (t + off j) (view_block j) = t + off (S j)) as ->; [|apply IH; lia].
  destruct (view_block_at j n Hn) as (fl & -> & _). unfold IOVIRT_NEXT_BLOCK. cbn [num_data_map].
  pose proof (off_in (S j) ltac:(lia)). rewrite (off_S ns j n Hn) in *. unfold size_of in *.
  unfold u64. rewrite wrap_small; lia.
Qed.

Lemma view_laid : laid_out 1 t view_blocks (val_view t s).
Proof.
  split; [done|lia| |].
  - unfold view_blocks. cbn. by rewrite List.length_map, List.length_seq.
  - unfold view_blocks. change (t + blocks_offset) with (t + off 0). rewrite view_layout by lia.
    apply Forall_forall. intros x Hx. apply in_map_iff in Hx as (k & <- & Hk).
    apply in_seq in Hk. destruct (lookup_lt_is_Some_2 ns k ltac:(lia)) as [n Hn].
    by destruct (view_block_at k n Hn) as (fl & _ & H).
Qed.

Lemma view_ref k : (k < N)%nat -> node_ref 1 t view_blocks (off k) = Some (view_block k).
Proof.
  intros Hk. unfold node_ref, view_blocks. change (t + blocks_offset) with (t + off 0).
  rewrite view_layout by lia. pose proof (off_in k ltac:(lia)).
  unfold u64. rewrite wrap_small by lia.
  enough (forall r j, (j + r = N)%nat -> (j <= k)%nat ->
    find (fun x => x.1 =? t + off k) (map (fun k => (t + off k, view_block k)) (seq j r)) =
    Some (t + off k, view_block k)) as -> by (done || lia).
  induction r as [|r IH]; intros j Hj Hjk; [lia|]. cbn [seq map find fst].
  destruct (Nat.eq_dec j k) as [->|Hne]; [by rewrite Z.eqb_refl|].
  pose proof (off_lt ns j k ltac:(lia) ltac:(lia)).
  replace (t + off j =? t + off k) with false by lia. apply IH; lia.
Qed.

(** The blocks answer like their nodes. *)
Lemma view_head k n : ns !! k = Some n -> b_type (view_block k) = type_of n /\
  b_data (view_block k) = to_data (data_of n) /\ num_data_map (view_block k) = num_of n.
Proof. intros Hn. by destruct (view_block_at k n Hn) as (fl & -> & _). Qed.
Lemma view_maps k n : ns !! k = Some n -> ~ is_its n ->
  data_map (view_block k) = map (out_map ns) (maps_of n).
Proof.
  intros Hn Hi. destruct (view_block_at k n Hn) as (fl & -> & _). cbn [data_map]. by destruct n.
Qed.
Lemma map_id_nodes x l : map_id x (map (out_map ns) l) = (fun y => (y.1, off y.2)) <$> node_map x l.
Proof.
  induction l as [|i l IH]; [done|]. cbn [map map_id out_map node_map input_base id_count output_base output_ref].
  by destruct (_ && _).
Qed.

Lemma node_map_in x l y : node_map x l = Some y -> exists i, i ∈ l /\ m_node i = y.2.
Proof.
  induction l as [|i l IH]; [done|]. cbn [node_map]. destruct (_ && _).
  - intros [= <-]. exists i. by split; [left|].
  - intros H. destruct (IH H) as (i' & Hi' & He). exists i'. by split; [right|].
Qed.
(** A mapping leads to an ITS group or an SMMU of the table. *)
Lemma mapped_target k n x y : ns !! k = Some n -> node_map x (maps_of n) = Some y ->
  exists n', ns !! y.2 = Some n' /\ target n'.
Proof.
  intros Hn Hy. apply node_map_in in Hy as (i & Hi & <-).
  pose proof (ok_maps _ Hok k n Hn) as Hm. rewrite list.Forall_forall in Hm.
  destruct (Hm i Hi) as (_ & _ & _ & _ & _ & _ & H).
  destruct (ns !! m_node i) as [n'|]; [|done]. exists n'. by destruct n'.
Qed.

Lemma rc_map_nodes rid segment found :
  rc_map rid segment view_blocks ((fun y => (y.1, off y.2)) <$> found) =
  (fun y => (y.1, off y.2)) <$> foldl (node_pick rid segment) found ns.
Proof.
  enough (forall r j found, (j + r = N)%nat ->
    rc_map rid segment (map view_block (seq j r)) ((fun y => (y.1, off y.2)) <$> found) =
    (fun y => (y.1, off y.2)) <$> foldl (node_pick rid segment) found (drop j ns)) as H
    by (by apply (H N 0%nat)).
  clear found. induction r as [|r IH]; intros j found Hj.
  { by rewrite list.drop_ge by lia. }
  destruct (lookup_lt_is_Some_2 ns j ltac:(lia)) as [n Hn]. rewrite (list.drop_S _ _ _ Hn).
  cbn [seq map rc_map foldl]. rewrite <- IH by lia. f_equal. unfold rc_pick.
  destruct (view_head j n Hn) as (Et & Ed & _). rewrite Et, Ed.
  pose proof (view_maps j n Hn) as Em. destruct n as [ids|name l|rc l|v3 base l]; try done.
  cbn [data_of to_data type_of node_pick]. rewrite Z.eqb_refl. cbn [andb].
  destruct (rc_segment rc =? segment); [|done]. rewrite Em, map_id_nodes by (by intros []).
  cbn [maps_of]. by destruct (node_map rid l).
Qed.

Lemma view_its k n : ns !! k = Some n -> its_of (view_block k) = its_id_of n.
Proof.
  intros Hn. destruct (view_block_at k n Hn) as (fl & -> & _). unfold its_of. cbn [b_type data_map].
  destruct n as [ids| | |[] ]; try done. cbn [type_of Z.eqb key_of u_map its_id_of].
  destruct (ok_ids _ Hok ids) as [Hne _]; [by eapply list_elem_of_lookup_2|].
  destruct ids as [|i ids]; [done|]. cbn [num_of length].
  assert (exists m, Z.to_nat ((Z.of_nat (S (length ids)) + 3) / 4) = S m) as [m ->]; [|done].
  exists (Z.to_nat ((Z.of_nat (S (length ids)) + 3) / 4) - 1)%nat.
  assert (1 <= (Z.of_nat (S (length ids)) + 3) / 4) by (apply Z.div_le_lower_bound; lia). lia.
Qed.

Lemma view_first_id k ids : ns !! k = Some (NIts ids) ->
  exists i l, data_map (view_block k) !! 0%nat = Some (Ids (i :: l)).
Proof.
  intros Hn. destruct (view_block_at k _ Hn) as (fl & -> & _). cbn [data_map key_of u_map maps_of map].
  rewrite app_nil_r. destruct (ok_ids _ Hok ids) as [Hne _]; [by eapply list_elem_of_lookup_2|].
  destruct ids as [|i ids]; [done|]. cbn [num_of length].
  assert (exists m, Z.to_nat ((Z.of_nat (S (length ids)) + 3) / 4) = S m) as [m ->]; [|by do 2 eexists].
  exists (Z.to_nat ((Z.of_nat (S (length ids)) + 3) / 4) - 1)%nat.
  assert (1 <= (Z.of_nat (S (length ids)) + 3) / 4) by (apply Z.div_le_lower_bound; lia). lia.
Qed.

(** A block of the table is that of a node. *)
Lemma view_in b : b ∈ view_blocks -> exists k n, ns !! k = Some n /\ b = view_block k.
Proof.
  intros Hb. apply list_elem_of_In, in_map_iff in Hb as (k & <- & Hk). apply in_seq in Hk.
  destruct (lookup_lt_is_Some_2 ns k ltac:(lia)) as [n Hn]. by exists k, n.
Qed.
Lemma imap_map k n : ns !! k = Some n -> Forall is_map (map (out_map ns) (maps_of n)).
Proof.
  intros Hn. pose proof (ok_maps _ Hok k n Hn) as Hm. apply Forall_map.
  eapply List.Forall_impl; [|exact Hm]. intros x (? & ? & ? & ? & ? & _). by repeat split.
Qed.

Lemma view_iort : iort 1 t view_blocks (val_view t s).
Proof.
  split; [apply view_laid| |]; apply List.Forall_forall; intros b Hb;
    apply list_elem_of_In, view_in in Hb as (k & n & Hn & ->);
    destruct (view_head k n Hn) as (Et & Ed & En).
  - unfold typed_block, is_smmu. rewrite Et. destruct (_ =? _) eqn:E.
    { apply type_its in E. destruct n as [ids| | |]; try done.
      destruct (view_first_id k ids Hn) as (i & l & H). by exists i, l. }
    assert (~ is_its n) as Hi by (rewrite <- type_its; by rewrite E).
    rewrite En, Ed, (view_maps k n Hn Hi). split.
    { by rewrite List.length_map, num_maps. }
    split; [by apply (imap_map k)|]. by destruct n as [| | |[] ]; split; try done; intros _; eexists.
  - intros Hk. unfold refs_ok. assert (~ is_its n) as Hi.
    { destruct n; [|by intros []..]. unfold is_smmu in Hk. rewrite Et in Hk. by destruct Hk. }
    rewrite (view_maps k n Hn Hi). apply Forall_map.
    pose proof (ok_maps _ Hok k n Hn) as Hm. eapply List.Forall_impl; [|exact Hm].
    intros x (_ & _ & _ & _ & _ & Hlt & Hx). cbn. rewrite view_ref; [done|].
    pose proof (list.lookup_lt_Some _ _ _ Hn). lia.
Qed.

Lemma picked rid segment l y : foldl (node_pick rid segment) None l = Some y ->
  exists n, n ∈ l /\ node_map rid (maps_of n) = Some y.
Proof.
  induction l as [|n l IH] using List.rev_ind; [done|]. rewrite foldl_snoc. intros H.
  assert (foldl (node_pick rid segment) None l = Some y \/ node_map rid (maps_of n) = Some y) as [H'|H'].
  { destruct n as [|  |rc maps|]; try (by left). cbn [node_pick] in H.
    destruct (_ =? _); [|by left]. cbn [maps_of]. destruct (node_map rid maps); [by right|by left]. }
  - destruct (IH H') as (n' & Hn' & Hm). exists n'. split; [|done]. apply elem_of_app. by left.
  - exists n. split; [|done]. apply elem_of_app. right. by left.
Qed.

Lemma view_info rid segment : iort_info 1 t view_blocks rid segment = requester_info ns rid segment.
Proof.
  unfold iort_info, requester_info. pose proof (rc_map_nodes rid segment None) as Hrc.
  change ((fun y : Z * nat => (y.1, off y.2)) <$> None) with (@None (Z * Z)) in Hrc. rewrite Hrc.
  destruct (foldl _ _ _) as [[id k]|] eqn:Ef; [|done]. cbn [fmap option_fmap option_map fst snd mbind option_bind].
  apply picked in Ef as (n0 & Hn0 & Hm0). apply list_elem_of_lookup in Hn0 as [k0 Hk0].
  destruct (mapped_target k0 n0 rid (id, k) Hk0 Hm0) as (n & Hn & Htg). cbn [snd] in Hn.
  rewrite Hn, view_ref by (by eapply list.lookup_lt_Some). cbn [mbind option_bind].
  destruct (view_head k n Hn) as (Et & _). destruct n as [ids| | |v3 base l]; try done.
  { rewrite Et. cbn [type_of Z.eqb]. by rewrite (view_its k _ Hn). }
  unfold is_smmu. rewrite Et, (view_maps k _ Hn) by (by intros []). cbn [maps_of]. rewrite map_id_nodes.
  replace (type_of (NSmmu v3 base l) =? IOVIRT_NODE_ITS_GROUP) with false by (by destruct v3).
  replace ((type_of (NSmmu v3 base l) =? IOVIRT_NODE_SMMU) || _) with true by (by destruct v3).
  destruct (node_map id l) as [[did k']|] eqn:Em; [|done].
  destruct (mapped_target k _ id (did, k') Hn Em) as (n' & Hn' & _). cbn [snd] in Hn'.
  cbn [fmap option_fmap option_map fst snd mbind option_bind].
  rewrite Hn', view_ref by (by eapply list.lookup_lt_Some). cbn [mbind option_bind].
  by rewrite (view_its k' _ Hn').
Qed.
End view.

Definition smmu_node (n : node) : bool := match n with NSmmu _ _ _ => true | _ => false end.
Lemma count_smmus l : Z.of_nat (length l) < 2 ^ 32 ->
  num_smmus (count_table l) = Z.of_nat (length (List.filter smmu_node l)).
Proof.
  induction l as [|n l IH] using List.rev_ind; intros H; [done|]. unfold count_table.
  rewrite foldl_snoc. fold (count_table l). rewrite List.filter_app, List.length_app.
  rewrite List.length_app in H. cbn [length] in H. cbn [bump one_block_more num_smmus].
  rewrite IH by lia. pose proof (List.filter_length_le smmu_node l).
  destruct n as [| | |[] ? ?]; cbn -[u32]; rewrite ?Nat.add_0_r; try done;
    unfold u32; rewrite wrap_small; lia.
Qed.

(** The VAL finds on a table what the nodes say. *)
Definition answers_like (ns : list node) (v : iov) : Prop :=
  forall rid segment, 0 <= rid < 2 ^ 32 ->
    val_iovirt_get_device_info 1 rid segment v =
    Done (match requester_info ns rid segment with
          | Some i => (0, Some i)
          | None => (ACS_STATUS_ERR, None)
          end) v.

(** C16. An IORT whose nodes are told apart, refer to ITS groups and SMMUs before
    them and have at most one mapping each is turned into a table on which the
    look-ups of the VAL answer what the IORT says: for every requester the device
    identifier, and the stream identifier of the SMMU on the way. *)
Theorem acpi_iort_lookup {A : Acpi} m iort pos ns t fuel s :
  encoded m iort pos ns -> iort_ok ns -> (forall n, n ∈ ns -> (length (maps_of n) <= 1)%nat) ->
  iort <> 0 -> 0 < t -> t + 2 ^ 32 <= 2 ^ 64 -> (2 <= fuel)%nat ->
  wp (pal_iovirt_create_info_table m fuel iort) (fun _ s' =>
    num_blocks (us_table s') = Z.of_nat (length ns) /\
    num_smmus (us_table s') = Z.of_nat (length (List.filter smmu_node ns)) /\
    answers_like ns (val_view t s')) s.
Proof.
  intros Hen Hok Hone Hi Ht Htop Hf. destruct fuel as [|[|f]]; [lia|lia|].
  pose proof (nodes_few ns Hok) as Hfew. unfold pal_iovirt_create_info_table.
  apply wp_bind, wp_modify. cbn [truthy]. replace (iort =? 0) with false by lia.
  apply wp_bind. eapply wp_mono; [|by apply (parse_run m iort pos ns Hok Hen f)].
  intros r s1 (-> & Hs & Htab). eapply wp_mono; [|apply (overlap_check_run ns Hok (count_table ns) s1)];
    [|by split|by rewrite count_blocks|done].
  intros [] s' [Hs' Ht']. rewrite Ht', count_blocks, count_smmus by done. split; [done|]. split; [done|].
  intros rid segment Hrid.
  assert (num_blocks (us_table s') = Z.of_nat (length ns)) as Hnum by (by rewrite Ht', count_blocks).
  rewrite (device_info_run 1 t (view_blocks ns s') rid segment _
    (view_iort ns Hok t Ht Htop s' Hs' Hnum) Hrid). by rewrite view_info.
Qed.

(** A node with two mappings makes the check for overlapping ranges read
    behind the mappings of its block. *)
Theorem acpi_iort_two_maps {A : Acpi} m iort pos ns fuel n s :
  encoded m iort pos ns -> iort_ok ns -> n ∈ ns -> (2 <= length (maps_of n))%nat ->
  iort <> 0 -> (2 <= fuel)%nat -> pal_iovirt_create_info_table m fuel iort s = Undef.
Proof.
  intros Hen Hok Hn H2 Hi Hf. destruct fuel as [|[|f]]; [lia|lia|].
  pose proof (nodes_few ns Hok) as Hfew. unfold pal_iovirt_create_info_table, on_header, modify at 1.
  unfold bind at 1. cbn [truthy]. replace (iort =? 0) with false by lia.
  set (s0 := mk_ust _ _).
  destruct (wp_done _ _ _ (parse_run m iort pos ns Hok Hen f s0 eq_refl)) as (r & s1 & Hr & -> & Hs & Ht).
  change (truthy PLATFORM_OVERRIDE_SMMU_BASE) with false. cbv iota. rewrite (bind_done _ _ _ _ _ Hr).
  apply (check_stuck ns Hok (count_table ns) s1 n); [by split|by apply count_blocks|done..].
Qed.

(** ** Examples *)

Definition header_fields (count len : Z) : list (nat * Z * Z) :=
  [(4%nat, 0x1004, len); (4%nat, 0x1024, count); (4%nat, 0x1028, 48)].
Definition node_fields (a type len count maps : Z) : list (nat * Z * Z) :=
  [(1%nat, a, type); (2%nat, a + 1, len); (4%nat, a + 8, count); (4%nat, a + 12, maps)].
Definition mapping_fields (a i c o r : Z) : list (nat * Z * Z) :=
  [(4%nat, a, i); (4%nat, a + 4, c); (4%nat, a + 8, o); (4%nat, a + 12, r)].
Definition demo_iort : mem := fields (header_fields 3 216 ++
  node_fields 0x1030 0 24 0 0 ++ [(4%nat, 0x1040, 1); (4%nat, 0x1044, 0)] ++
  node_fields 0x1048 4 88 1 68 ++ [(8%nat, 0x1058, 0x2B400000)] ++ mapping_fields 0x108c 0 0xFFFF 0 48 ++
  node_fields 0x10a0 2 56 1 36 ++ [(8%nat, 0x10b0, 1); (4%nat, 0x10b8, 1); (4%nat, 0x10bc, 0)] ++
    mapping_fields 0x10c4 0 0xFFFF 0 72) ∅.
Definition demo_nodes : list node :=
  [NIts [0]; NSmmu true 0x2B400000 [mk_imap 0 0xFFFF 0 0]; NRc (mk_rc 0 1 1) [mk_imap 0 0xFFFF 0 1]].
Definition demo_pos (k : nat) : Z := nth k [48; 72; 160; 216] 0.

Lemma demo_encoded : encoded demo_iort 0x1000 demo_pos demo_nodes.
Proof.
  split; [done|done| |].
  - intros [|[|[|k]]] Hk; cbn in Hk; try lia; vm_compute; done.
  - intros [|[|[|k]]] n [= <-]; (split; [by vm_compute|by vm_compute|by vm_compute| |]).
    1, 3, 5: intros [|i] x [= <-]; vm_compute; done.
    + split; [by vm_compute|]. intros [|i] x [= <-]. by vm_compute.
    + by vm_compute.
    + by vm_compute.
Qed.
Lemma demo_iort_ok : iort_ok demo_nodes.
Proof.
  split.
  - intros [|[|[|k]]] n [= <-]; repeat constructor; vm_compute; done.
  - intros ids Hi. apply list_elem_of_lookup in Hi as ([|[|[|k]]] & [= <-]). by split.
  - done.
  - intros [|[|[|i]]] [|[|[|j]]] n n' Hij; try lia; intros [= <-] [= <-]; by vm_compute.
Qed.

Lemma acpi_iort_lookup_witness : exists s',
  pal_iovirt_create_info_table demo_iort 2 0x1000 (mk_ust ∅ (mk_iovirt_table 9 9 9 9 9 9)) = Done tt s' /\
  val_iovirt_get_device_info 1 0x305 0 (val_view 0x80000000 s') =
  Done (0, Some (mk_device_info 0x305 0x305 0)) (val_view 0x80000000 s').
Proof.
  pose proof (acpi_iort_lookup demo_iort 0x1000 demo_pos demo_nodes 0x80000000 2
    (mk_ust ∅ (mk_iovirt_table 9 9 9 9 9 9)) demo_encoded demo_iort_ok) as H.
  destruct (wp_done _ _ _ (H ltac:(intros n Hn; apply list_elem_of_lookup in Hn as ([|[|[|k]]] & [= <-]); cbn; lia)
    ltac:(done) ltac:(lia) ltac:(lia) ltac:(lia))) as ([] & s' & Hr & _ & _ & Ha).
  exists s'. split; [exact Hr|]. exact (Ha 0x305 0 ltac:(lia)).
Defined.

(** Two ranges of a root complex. *)
Definition demo_two : mem := fields (header_fields 2 148 ++
  node_fields 0x1030 0 24 0 0 ++ [(4%nat, 0x1040, 1); (4%nat, 0x1044, 0)] ++
  node_fields 0x1048 2 76 2 36 ++ [(8%nat, 0x1058, 1); (4%nat, 0x1060, 1); (4%nat, 0x1064, 0)] ++
    mapping_fields 0x106c 0 0xFF 0 48 ++ mapping_fields 0x1080 0x100 0xFF 0x200 48) ∅.
Definition two_nodes : list node :=
  [NIts [0]; NRc (mk_rc 0 1 1) [mk_imap 0 0xFF 0 0; mk_imap 0x100 0xFF 0x200 0]].
Definition two_pos (k : nat) : Z := nth k [48; 72; 148] 0.
Lemma two_encoded : encoded demo_two 0x1000 two_pos two_nodes.
Proof.
  split; [done|done| |].
  - intros [|[|k]] Hk; cbn in Hk; try lia; vm_compute; done.
  - intros [|[|k]] n [= <-]; (split; [by vm_compute|by vm_compute|by vm_compute| |]).
    + intros [|i] x [= <-].
    + split; [by vm_compute|]. intros [|i] x [= <-]. by vm_compute.
    + intros [|[|i]] x [= <-]; vm_compute; done.
    + by vm_compute.
Qed.
Lemma two_ok : iort_ok two_nodes.
Proof.
  split.
  - intros [|[|k]] n [= <-]; repeat constructor; vm_compute; done.
  - intros ids Hi. apply list_elem_of_lookup in Hi as ([|[|k]] & [= <-]). by split.
  - done.
  - intros [|[|i]] [|[|j]] n n' Hij; try lia; intros [= <-] [= <-]; by vm_compute.
Qed.
Lemma acpi_iort_two_maps_witness :
  pal_iovirt_create_info_table demo_two 2 0x1000 (mk_ust ∅ (mk_iovirt_table 0 0 0 0 0 0)) = Undef.
Proof.
  apply (acpi_iort_two_maps demo_two 0x1000 two_pos two_nodes 2
    (NRc (mk_rc 0 1 1) [mk_imap 0 0xFF 0 0; mk_imap 0x100 0xFF 0x200 0]) _ two_encoded two_ok);
    [right; left|cbn; lia|done|lia].
Defined.

(** Two root complexes of a segment that reach an ITS group directly, with other
    requesters: the second is taken for the first, its mapping is lost. *)
Definition demo_roots : mem := fields (header_fields 3 184 ++
  node_fields 0x1030 0 24 0 0 ++ [(4%nat, 0x1040, 1); (4%nat, 0x1044, 0)] ++
  node_fields 0x1048 2 56 1 36 ++ [(8%nat, 0x1058, 1); (4%nat, 0x1060, 1); (4%nat, 0x1064, 0)] ++
    mapping_fields 0x106c 0 0xFF 0 48 ++
  node_fields 0x1080 2 56 1 36 ++ [(8%nat, 0x1090, 1); (4%nat, 0x1098, 1); (4%nat, 0x109c, 0)] ++
    mapping_fields 0x10a4 0x100 0xFF 0x100 48) ∅.
Definition run_on (m : mem) : option ust :=
  match pal_iovirt_create_info_table m 3 0x1000 (mk_ust ∅ (mk_iovirt_table 0 0 0 0 0 0)) with
  | Done _ s => Some s | _ => None end.
Definition answer (s : option ust) (rid : Z) : option (Z * option device_info) :=
  s ← s; match val_iovirt_get_device_info 1 rid 0 (val_view 0x80000000 s) with Done r _ => Some r | _ => None end.
Example second_root_dropped :
  num_blocks <$> (us_table <$> run_on demo_roots) = Some 2 /\
  answer (run_on demo_roots) 0x105 = Some (ACS_STATUS_ERR, None).
Proof. by vm_compute. Qed.

(** A performance counter group in front of the SMMU it belongs to. The block of
    the SMMU is made behind it and counted; the search for the group then meets the
    group's own block, so that it is taken for one that was added before. The next
    node is written over it. *)
Definition demo_pmcg : mem := fields (header_fields 2 168 ++
  node_fields 0x1030 5 32 0 0 ++ [(8%nat, 0x1040, 0x2B420000); (4%nat, 0x1048, 5); (4%nat, 0x104c, 80)] ++
  node_fields 0x1050 4 88 0 0 ++ [(8%nat, 0x1060, 0x2B400000)]) ∅.
Example pmcg_lost : us_table <$> run_on demo_pmcg = Some (mk_iovirt_table 1 1 0 0 0 0).
Proof. by vm_compute. Qed.
