(* ===== verification/UefiMem.v ===== *)
(** * UefiMem

    Services of the firmware behind platform/pal_uefi: accesses to devices,
    allocation, the memory the PEs share and the counters that survive a reset
    (src/pal_misc.c), the kinds of memory (src/pal_peripherals.c), and handlers of
    interrupts and exceptions (src/pal_gic.c, src/pal_pe.c). The services
    themselves are a parameter. *)

From Stdlib Require Import ZArith Lia Bool List.
From stdpp Require Import base tactics numbers list.
From S2P Require Import Prelude Memory El3State.
Local Open Scope Z_scope.

(** Pool and pages (none: an error status), the attribute of write-back memory of
    the CPU protocol, which may be missing, and the two page sizes of the headers
    ([EFI_PAGE_SIZE], [EFI_SIZE_TO_PAGES]). *)
Class BootServices (W : Type) := {
  AllocatePool : Z -> W -> option Z * W;
  FreePool : Z -> W -> W;
  AllocatePages : Z -> W -> option Z * W;
  FreePages : Z -> Z -> W -> W;
  CpuArch : W -> bool;
  SetMemoryAttributes : Z -> Z -> W -> bool * W;
  Stall : Z -> W -> W;
  EFI_PAGE_SIZE : Z;
  EFI_SIZE_TO_PAGES : Z -> Z
}.

Record uefi (W : Type) := mk_uefi { ue_mem : mem; ue_world : W; gSharedMemory : Z }.
Arguments mk_uefi {W}. Arguments ue_mem {W}. Arguments ue_world {W}. Arguments gSharedMemory {W}.
Abbreviation UM W := (M (uefi W)).

Section code.
Context {W : Type} {BS : BootServices W}.

Definition boot {A} (f : W -> A * W) : UM W A := fun s =>
  let '(a, w) := f (ue_world s) in Done a (mk_uefi (ue_mem s) w (gSharedMemory s)).
Definition boot_ (f : W -> W) : UM W unit := boot (fun w => (tt, f w)).
Definition put_mem (f : mem -> mem) : UM W unit :=
  modify (fun s => mk_uefi (f (ue_mem s)) (ue_world s) (gSharedMemory s)).
Definition word (a : Z) : UM W Z := gets (fun s => load 4 (ue_mem s) a).

(** ** Allocation; 0 is the null pointer *)

Definition pal_mem_alloc (Size : Z) : UM W Z :=
  let! o := boot (AllocatePool Size) in
  ret (match o with Some Buffer => Buffer | None => 0 end).
(** [SetMem] of the boot services, zeroes. *)
Definition clear (Buffer n : Z) : UM W unit :=
  for_range 0 n (fun i => put_mem (fun m => store 1 m (Buffer + i) 0)).
Definition pal_mem_calloc (num Size : Z) : UM W Z :=
  let n := u32 (num * Size) in
  let! o := boot (AllocatePool n) in
  match o with
  | Some Buffer => clear Buffer n ;; ret Buffer
  | None => ret 0
  end.
Definition pal_mem_free (Buffer : Z) : UM W unit := boot_ (FreePool Buffer).

(** The address, and the one stored through [Pa]. The pages are not given back
    when the attribute cannot be set. *)
Definition pal_mem_alloc_cacheable (Size : Z) : UM W (Z * option Z) :=
  let! o := boot (AllocatePages (EFI_SIZE_TO_PAGES Size)) in
  match o with
  | None => ret (0, None)
  | Some Address =>
      let! cpu := gets (fun s => CpuArch (ue_world s)) in
      if negb cpu then ret (0, None) else
      let! good := boot (SetMemoryAttributes Address Size) in
      ret (if (good : bool) then (Address, Some Address) else (0, None))
  end.
Definition pal_mem_free_cacheable (Size Va : Z) : UM W unit :=
  boot_ (FreePages Va (EFI_SIZE_TO_PAGES Size)).
Definition pal_mem_virt_to_phys (Va : Z) : Z := Va.
Definition pal_mem_phys_to_virt (Pa : Z) : Z := Pa.

Definition pal_mem_page_size : Z := u32 EFI_PAGE_SIZE.
Definition pal_mem_alloc_pages (NumPages : Z) : UM W Z :=
  let! o := boot (AllocatePages NumPages) in
  ret (match o with Some PageBase => PageBase | None => 0 end).
Definition pal_mem_free_pages (PageBase NumPages : Z) : UM W unit := boot_ (FreePages PageBase NumPages).

Definition align_mask (alignment : Z) : Z := bnot 64 (u32 (alignment - 1)).
Definition pal_aligned_alloc (alignment size : Z) : UM W Z :=
  let! Mem := pal_mem_alloc (u32 (size + alignment)) in
  if Mem =? 0 then ret 0 else ret (u64 (u64 (Mem + alignment) - 1) .& align_mask alignment).

(** ** Shared memory *)

Definition set_shared (v : Z) : UM W unit :=
  modify (fun s => mk_uefi (ue_mem s) (ue_world s) v).
(** A failed allocation leaves the null pointer. *)
Definition pal_mem_allocate_shared (num_pe sizeofentry : Z) : UM W unit :=
  set_shared 0 ;;
  let! o := boot (AllocatePool (u32 (num_pe * sizeofentry))) in
  match o with Some Buffer => set_shared Buffer | None => ret tt end.
Definition pal_mem_get_shared_addr : UM W Z := gets gSharedMemory.
Definition pal_mem_free_shared : UM W unit :=
  let! a := gets gSharedMemory in boot_ (FreePool a).

Definition pal_time_delay_ms (MicroSeconds : Z) : UM W Z := boot_ (Stall MicroSeconds) ;; ret 1.

(** ** Non-volatile memory *)

Definition pal_write_reset_status (nvm status : Z) : UM W unit :=
  put_mem (fun m => store 4 m nvm status).
Definition pal_read_reset_status (nvm : Z) : UM W Z := word nvm.
Definition pal_save_global_test_data (nvm total pass fail : Z) : UM W unit :=
  let addr := u64 (nvm + 0x10) in
  put_mem (fun m => store 4 m addr total) ;;
  put_mem (fun m => store 4 m (addr + 4) pass) ;;
  put_mem (fun m => store 4 m (addr + 8) fail).
Definition pal_restore_global_test_data (nvm : Z) : UM W (Z * Z * Z) :=
  let addr := u64 (nvm + 0x10) in
  let! total := word addr in
  let! pass := word (addr + 4) in
  let! fail := word (addr + 8) in
  ret (total, pass, fail).

(** [SetMem] of the UEFI library. *)
Definition pal_mem_set (Buf Size Value : Z) : UM W unit :=
  for_range 0 Size (fun i => put_mem (fun m => store 1 m (Buf + i) Value)).
End code.

(** ** Devices *)

Section mmio.
Context {D : Type} {HW : Hw D}.

Definition mmio_read (n : nat) (addr : Z) : M D Z := fun d =>
  let '(v, d) := hw_read n d addr in Done (wrap (8 * Z.of_nat n) v) d.
Definition mmio_write (n : nat) (addr data : Z) : M D unit := fun d =>
  Done tt (hw_write n d addr (wrap (8 * Z.of_nat n) data)).
Definition pal_mmio_read8 : Z -> M D Z := mmio_read 1.
Definition pal_mmio_read16 : Z -> M D Z := mmio_read 2.
Definition pal_mmio_read64 : Z -> M D Z := mmio_read 8.
(** A read of 32 bits is from an aligned address, a write is not. *)
Definition pal_mmio_read (addr : Z) : M D Z :=
  mmio_read 4 (if truthy (addr .& 0x3) then addr .& bnot 64 0x3 else addr).
Definition pal_mmio_write8 : Z -> Z -> M D unit := mmio_write 1.
Definition pal_mmio_write16 : Z -> Z -> M D unit := mmio_write 2.
Definition pal_mmio_write64 : Z -> Z -> M D unit := mmio_write 8.
Definition pal_mmio_write : Z -> Z -> M D unit := mmio_write 4.
End mmio.

(** ** Kinds of memory *)

Inductive EFI_MEMORY_TYPE :=
| EfiReservedMemoryType | EfiLoaderCode | EfiLoaderData | EfiBootServicesCode | EfiBootServicesData
| EfiRuntimeServicesCode | EfiRuntimeServicesData | EfiConventionalMemory | EfiUnusableMemory
| EfiACPIReclaimMemory | EfiACPIMemoryNVS | EfiMemoryMappedIO | EfiMemoryMappedIOPortSpace
| EfiPalCode | EfiPersistentMemory.
Definition IsUefiMemory (type : EFI_MEMORY_TYPE) : bool :=
  match type with
  | EfiReservedMemoryType | EfiLoaderCode | EfiLoaderData | EfiBootServicesCode | EfiBootServicesData
  | EfiRuntimeServicesCode | EfiRuntimeServicesData | EfiACPIReclaimMemory | EfiACPIMemoryNVS => true
  | _ => false
  end.
Definition IsNormalMemory (type : EFI_MEMORY_TYPE) : bool :=
  match type with EfiConventionalMemory => true | _ => false end.
Definition IsDeviceMemory (type : EFI_MEMORY_TYPE) : bool :=
  match type with
  | EfiMemoryMappedIO | EfiMemoryMappedIOPortSpace | EfiPersistentMemory => true
  | _ => false
  end.
Definition pal_memory_ioremap (ptr : Z) : Z := ptr.

(** ** Interrupts and exceptions *)

(** The interrupt protocols, the second of which sets triggers, and the registration
    of exception handlers of the CPU protocol. A handler is its address, 0 for
    none; [true] is success, another status is a number. *)
Class Interrupts (W : Type) := {
  HardwareInterrupt : W -> bool;
  DisableInterruptSource : Z -> W -> W;
  RegisterInterruptSource : Z -> Z -> W -> bool * W;
  EndOfInterrupt : Z -> W -> W;
  HardwareInterrupt2 : W -> bool;
  SetTriggerType : Z -> Z -> W -> bool * W;
  LocateCpu : W -> option Z;
  RegisterInterruptHandler : Z -> Z -> W -> option Z * W
}.

Section interrupts.
Context {W : Type} {IT : Interrupts W}.
Definition call {A} (f : W -> A * W) : M W A := fun w => let '(a, w) := f w in Done a w.

Definition pal_gic_install_isr (int_id isr : Z) : M W Z :=
  let! found := gets HardwareInterrupt in
  if negb found then ret 0xFFFFFFFF else
  call (fun w => (tt, DisableInterruptSource int_id w)) ;;
  let! good := call (RegisterInterruptSource int_id isr) in
  (when negb good then
     (call (RegisterInterruptSource int_id 0) ;;
      call (RegisterInterruptSource int_id isr) ;; ret tt)) ;;
  ret 0.
Definition pal_gic_end_of_interrupt (int_id : Z) : M W Z :=
  let! found := gets HardwareInterrupt in
  if negb found then ret 0xFFFFFFFF else
  call (fun w => (tt, EndOfInterrupt int_id w)) ;; ret 0.
Definition pal_gic_set_intr_trigger (int_id trigger_type : Z) : M W Z :=
  let! found := gets HardwareInterrupt2 in
  if negb found then ret 0xFFFFFFFF else
  let! good := call (SetTriggerType int_id trigger_type) in
  ret (if (good : bool) then 0 else 0xFFFFFFFF).
Definition pal_gic_request_irq : Z := 0.

(** An error status is a number; success is [None]. *)
Definition pal_pe_install_esr (ExceptionType esr : Z) : M W Z :=
  let! status := gets LocateCpu in
  match status with Some e => ret (u32 e) | None =>
  let! status := call (RegisterInterruptHandler ExceptionType 0) in
  match status with Some e => ret (u32 e) | None =>
  let! status := call (RegisterInterruptHandler ExceptionType esr) in
  match status with Some e => ret (u32 e) | None => ret 0 end end end.
End interrupts.
