(* ===== verification/AcpiTables.v ===== *)
(** * AcpiTables

    The information tables that platform/pal_uefi fills from the ACPI tables: the
    interrupt controllers (src/pal_gic.c) and the processing elements
    (src/pal_pe.c) from the MADT, the timers from the GTDT (src/pal_timer_wd.c),
    the PCIe configuration spaces from the MCFG (src/pal_pcie.c). The memory of a
    table is a list of entries that hold anything before; writing behind the last
    one is undefined. *)

From Stdlib Require Import ZArith Lia Bool List.
From stdpp Require Import base tactics numbers list option.
From S2P Require Import Prelude Memory TestRun PePal Gic Timer Pcie Acpi UefiMem.
Local Open Scope Z_scope.

Section acpi.
Context {A : Acpi}.
Variable m : mem.
Abbreviation fld_ := (field m).
Definition has_type (t : acpi_type) (Entry : Z) : bool := fld_ Entry_Type Entry =? type_code t.

(** The loop over the structures of the MADT: at least one, and the next one
    behind the length of each. *)
Definition madt_step {S X} (TableLength : Z) (body : Z -> X -> M S X) (p : Z * Z * X)
    : M S (Z * Z * X + X) :=
  let '(Entry, Length, x) := p in
  let! x := body Entry x in
  let Length := u32 (Length + fld_ Entry_Length Entry) in
  let Entry := Entry + fld_ Entry_Length Entry in
  ret (if Length <? TableLength then inl (Entry, Length, x) else inr x).
Definition madt_loop {S X} (fuel : nat) (gMadtHdr : Z) (body : Z -> X -> M S X) (x : X) : M S X :=
  loop fuel (madt_step (fld_ Header_Length gMadtHdr) body)
    (gMadtHdr + size_of MADT_HEADER, size_of MADT_HEADER, x).

(** ** Interrupt controllers *)

Record UGIC_ENTRY := mk_ugic {
  ug_type : Z; ug_base : Z; ug_id : Z; ug_length : Z; ug_flags : Z; ug_spi_count : Z; ug_spi_base : Z
}.
Definition gic_type_code (t : GIC_INFO_TYPE_e) : Z :=
  match t with
  | ENTRY_TYPE_CPUIF => 0x1000 | ENTRY_TYPE_GICD => 0x1001 | ENTRY_TYPE_GICC_GICRD => 0x1002
  | ENTRY_TYPE_GICR_GICRD => 0x1003 | ENTRY_TYPE_GICITS => 0x1004 | ENTRY_TYPE_GIC_MSI_FRAME => 0x1005
  | ENTRY_TYPE_GICH => 0x1006
  end.

(** The table, and the number of the entry [GicEntry] points to. *)
Record gic_mem := mk_gic_mem { gm_header : GIC_INFO_HDR; gm_info : list UGIC_ENTRY; GicEntry : nat }.
Abbreviation GM := (M gic_mem).
Definition set_gic (f : UGIC_ENTRY -> UGIC_ENTRY) : GM unit :=
  let! s := get in
  let! e := use (gm_info s !! GicEntry s) in
  modify (fun s => mk_gic_mem (gm_header s) (<[GicEntry s := f e]> (gm_info s)) (GicEntry s)).
Definition next_gic : GM unit :=
  modify (fun s => mk_gic_mem (gm_header s) (gm_info s) (S (GicEntry s))).
Definition gic_header (f : GIC_INFO_HDR -> GIC_INFO_HDR) : GM unit :=
  modify (fun s => mk_gic_mem (f (gm_header s)) (gm_info s) (GicEntry s)).

Definition set_base (t : GIC_INFO_TYPE_e) (base : Z) (e : UGIC_ENTRY) : UGIC_ENTRY :=
  mk_ugic (gic_type_code t) base (ug_id e) (ug_length e) (ug_flags e) (ug_spi_count e) (ug_spi_base e).
Definition set_range (t : GIC_INFO_TYPE_e) (base length : Z) (e : UGIC_ENTRY) : UGIC_ENTRY :=
  mk_ugic (gic_type_code t) base (ug_id e) length (ug_flags e) (ug_spi_count e) (ug_spi_base e).
Definition set_ident (t : GIC_INFO_TYPE_e) (base id : Z) (e : UGIC_ENTRY) : UGIC_ENTRY :=
  mk_ugic (gic_type_code t) base id (ug_length e) (ug_flags e) (ug_spi_count e) (ug_spi_base e).
Definition set_msi (base id flags count spi : Z) (e : UGIC_ENTRY) : UGIC_ENTRY :=
  mk_ugic (gic_type_code ENTRY_TYPE_GIC_MSI_FRAME) base id (ug_length e) flags count spi.

Definition more_gicrd (h : GIC_INFO_HDR) : GIC_INFO_HDR :=
  mk_gic_hdr (gic_version h) (num_gicd h) (u32 (num_gicrd h + 1)) (num_its h) (num_msi_frame h) (num_gich h).
Definition more_gicd (version : Z) (h : GIC_INFO_HDR) : GIC_INFO_HDR :=
  mk_gic_hdr version (u32 (num_gicd h + 1)) (num_gicrd h) (num_its h) (num_msi_frame h) (num_gich h).
Definition more_its (h : GIC_INFO_HDR) : GIC_INFO_HDR :=
  mk_gic_hdr (gic_version h) (num_gicd h) (num_gicrd h) (u32 (num_its h + 1)) (num_msi_frame h) (num_gich h).
Definition more_msi (h : GIC_INFO_HDR) : GIC_INFO_HDR :=
  mk_gic_hdr (gic_version h) (num_gicd h) (num_gicrd h) (num_its h) (u32 (num_msi_frame h + 1)) (num_gich h).

Definition gic_body (Entry : Z) (_u : unit) : GM unit :=
  (when has_type GIC Entry then
     ((when truthy (fld_ Gic_PhysicalBaseAddress Entry) then
         (set_gic (set_base ENTRY_TYPE_CPUIF (fld_ Gic_PhysicalBaseAddress Entry)) ;; next_gic)) ;;
      (when truthy (fld_ Gic_GICRBaseAddress Entry) then
         (set_gic (set_range ENTRY_TYPE_GICC_GICRD (fld_ Gic_GICRBaseAddress Entry) 0) ;;
          gic_header more_gicrd ;; next_gic)) ;;
      (when truthy (fld_ Gic_GICH Entry) then
         (set_gic (set_range ENTRY_TYPE_GICH (fld_ Gic_GICH Entry) 0) ;; next_gic)))) ;;
  (when has_type GICD Entry then
     (set_gic (set_base ENTRY_TYPE_GICD (fld_ Gicd_PhysicalBaseAddress Entry)) ;;
      gic_header (more_gicd (fld_ Gicd_GicVersion Entry)) ;; next_gic)) ;;
  (when has_type GICR Entry then
     (set_gic (set_range ENTRY_TYPE_GICR_GICRD (fld_ Gicr_DiscoveryRangeBaseAddress Entry)
                 (fld_ Gicr_DiscoveryRangeLength Entry)) ;;
      gic_header more_gicrd ;; next_gic)) ;;
  (when has_type GIC_ITS Entry then
     (set_gic (set_ident ENTRY_TYPE_GICITS (fld_ Its_PhysicalBaseAddress Entry)
                 (fld_ Its_GicItsId Entry)) ;;
      gic_header more_its ;; next_gic)) ;;
  (when has_type GIC_MSI_FRAME Entry then
     (set_gic (set_msi (fld_ Msi_PhysicalBaseAddress Entry) (fld_ Msi_GicMsiFrameId Entry)
                 (fld_ Msi_Flags Entry) (fld_ Msi_SPICount Entry) (fld_ Msi_SPIBase Entry)) ;;
      gic_header more_msi ;; next_gic)).

(** The table (not [NULL]) from the MADT at [gMadtHdr]. The number of MSI frames
    is not reset. *)
Definition pal_gic_create_info_table (fuel : nat) (gMadtHdr : Z) : GM unit :=
  modify (fun s => mk_gic_mem (mk_gic_hdr 0 0 0 0 (num_msi_frame (gm_header s)) (num_gich (gm_header s)))
                     (gm_info s) 0) ;;
  if gMadtHdr =? 0 then ret tt else
  madt_loop fuel gMadtHdr gic_body tt ;;
  set_gic (fun e => mk_ugic 0xFF (ug_base e) (ug_id e) (ug_length e) (ug_flags e) (ug_spi_count e) (ug_spi_base e)).

(** What the VAL ([Gic]) reads in the memory: the entries up to the end mark. *)
Definition gic_type_of (code : Z) : option GIC_INFO_TYPE_e :=
  List.find (fun t => gic_type_code t =? code)
    [ENTRY_TYPE_CPUIF; ENTRY_TYPE_GICD; ENTRY_TYPE_GICC_GICRD; ENTRY_TYPE_GICR_GICRD;
     ENTRY_TYPE_GICITS; ENTRY_TYPE_GIC_MSI_FRAME; ENTRY_TYPE_GICH].
Fixpoint view_entries (l : list UGIC_ENTRY) : list GIC_INFO_ENTRY :=
  match l with
  | [] => []
  | e :: l' =>
      if ug_type e =? 0xFF then [] else
      match gic_type_of (ug_type e) with
      | Some t => mk_gic_entry t (ug_base e) (ug_id e) (ug_length e) :: view_entries l'
      | None => view_entries l'
      end
  end.
Definition gic_view (s : gic_mem) : GIC_INFO_TABLE :=
  mk_gic_table (gm_header s) (view_entries (gm_info s)).

(** ** Processing elements *)

(** [pe_pool] is the pool of the boot services. *)
Record pe_mem (W : Type) := mk_pe_mem {
  num_of_pe : Z; pe_info : list pe_entry; u_gMpidrMax : Z; g_num_pe : Z; u_gSecondaryPeStack : Z;
  pe_heap_mem : mem; pe_pool : W
}.
Arguments mk_pe_mem {W}. Arguments num_of_pe {W}. Arguments pe_info {W}. Arguments u_gMpidrMax {W}.
Arguments g_num_pe {W}. Arguments u_gSecondaryPeStack {W}. Arguments pe_heap_mem {W}.
Arguments pe_pool {W}.

Section pe.
Context {W : Type} {BS : BootServices W}.
(** A constant of the UEFI headers. *)
Variable CPU_STACK_ALIGNMENT : Z.
Abbreviation PM := (M (pe_mem W)).

(** Without memory the code goes on with an uninitialised pointer. *)
Definition PalAllocateSecondaryStack (mpidr : Z) : PM unit :=
  let! s := get in
  if u_gSecondaryPeStack s =? 0 then
    let StackSize := u32 (NumPe mpidr * SIZE_STACK_SECONDARY_PE + CPU_STACK_ALIGNMENT) in
    let '(o, w) := AllocatePool StackSize (pe_pool s) in
    let! Buffer := use o in
    let '(slot, base) := if truthy (Buffer .& 0xf) then (Buffer, Buffer + 8)
                         else (Buffer + 8, Buffer + 16) in
    modify (fun s => mk_pe_mem (num_of_pe s) (pe_info s) (u_gMpidrMax s) (g_num_pe s) (u64 base)
                       (store 8 (pe_heap_mem s) slot Buffer) w)
  else ret tt.

(** [Ptr] is at entry [num_of_pe]; the accumulator holds the four maxima. *)
Definition pe_body (Entry : Z) (maxima : list Z) : PM (list Z) :=
  if has_type GIC Entry then
    let mpidr := fld_ Gic_MPIDR Entry in
    let! s := get in
    let! _e := use (pe_info s !! Z.to_nat (num_of_pe s)) in
    let e := mk_pe (num_of_pe s) mpidr (fld_ Gic_PerformanceInterruptGsiv Entry) in
    modify (fun s => mk_pe_mem (u32 (num_of_pe s + 1)) (<[Z.to_nat (num_of_pe s) := e]> (pe_info s))
                       (u_gMpidrMax s) (g_num_pe s) (u_gSecondaryPeStack s) (pe_heap_mem s) (pe_pool s)) ;;
    ret (max_step mpidr maxima)
  else ret maxima.

Definition pal_pe_create_info_table (fuel : nat) (gMadtHdr : Z) : PM unit :=
  if gMadtHdr =? 0 then ret tt else
  modify (fun s => mk_pe_mem 0 (pe_info s) (u_gMpidrMax s) (g_num_pe s) (u_gSecondaryPeStack s)
                     (pe_heap_mem s) (pe_pool s)) ;;
  let! maxima := madt_loop fuel gMadtHdr pe_body [0; 0; 0; 0] in
  modify (fun s => mk_pe_mem (num_of_pe s) (pe_info s) (fold_left Z.lor maxima 0) (num_of_pe s)
                     (u_gSecondaryPeStack s) (pe_heap_mem s) (pe_pool s)) ;;
  let! mx := gets u_gMpidrMax in
  PalAllocateSecondaryStack mx.

(** The stack pointer of a PE that is started (AArch64/ModuleEntryPoint.S). *)
Definition ModuleEntryPoint (mpidr : Z) : PM Z :=
  let! s := get in
  ret (u64 (u_gSecondaryPeStack s + u64 (SIZE_STACK_SECONDARY_PE * core_pos mpidr (u_gMpidrMax s)))).
End pe.

Definition CONDUIT_HVC : Z := 1.
Definition pal_psci_get_conduit (Fadt : Z) : Z :=
  if Fadt =? 0 then CONDUIT_UNKNOWN else
  let arch := fld_ Fadt_ArmBootArch Fadt in
  if negb (truthy (arch .& PSCI_COMPLIANT)) then CONDUIT_NONE
  else if truthy (arch .& PSCI_USE_HVC) then CONDUIT_HVC else CONDUIT_SMC.

(** ** Timers *)

Definition PLATFORM_OVERRIDE_PLATFORM_TIMER : Z := 0.
Definition PLATFORM_OVERRIDE_CNTCTL_BASE : Z := 0x2a810000.
Definition PLATFORM_OVERRIDE_CNTBASE_N : Z := 0x2a830000.
Definition PLATFORM_OVERRIDE_PLATFORM_TIMER_GSIV : Z := 58.
Definition PLATFORM_OVERRIDE_EL2_VIR_TIMER_GSIV : Z := 28.
Definition TIMER_TYPE_SYS_TIMER : Z := 0x2001.
Abbreviation TT := (M TIMER_INFO_TABLE).

Definition on_timer_header (f : TIMER_INFO_HDR -> TIMER_INFO_HDR) : TT unit :=
  modify (fun t => mk_timer_table (f (t_header t)) (gt_info t)).
Definition with_num_timers (n : Z) (h : TIMER_INFO_HDR) : TIMER_INFO_HDR :=
  mk_timer_hdr (s_el1_timer_flag h) (ns_el1_timer_flag h) (el2_timer_flag h) (el2_virt_timer_flag h)
    (s_el1_timer_gsiv h) (ns_el1_timer_gsiv h) (el2_timer_gsiv h) (virtual_timer_flag h)
    (virtual_timer_gsiv h) (el2_virt_timer_gsiv h) n (num_watchdog h) (sys_timer_status h).
Definition with_el2_virt_gsiv (v : Z) (h : TIMER_INFO_HDR) : TIMER_INFO_HDR :=
  mk_timer_hdr (s_el1_timer_flag h) (ns_el1_timer_flag h) (el2_timer_flag h) (el2_virt_timer_flag h)
    (s_el1_timer_gsiv h) (ns_el1_timer_gsiv h) (el2_timer_gsiv h) (virtual_timer_flag h)
    (virtual_timer_gsiv h) v (num_platform_timer h) (num_watchdog h) (sys_timer_status h).
Definition gtdt_header (g : Z) (h : TIMER_INFO_HDR) : TIMER_INFO_HDR :=
  mk_timer_hdr (fld_ Gtdt_SecurePL1TimerFlags g) (fld_ Gtdt_NonSecurePL1TimerFlags g)
    (fld_ Gtdt_NonSecurePL2TimerFlags g) (el2_virt_timer_flag h) (fld_ Gtdt_SecurePL1TimerGSIV g)
    (fld_ Gtdt_NonSecurePL1TimerGSIV g) (fld_ Gtdt_NonSecurePL2TimerGSIV g)
    (fld_ Gtdt_VirtualTimerFlags g) (fld_ Gtdt_VirtualTimerGSIV g) (el2_virt_timer_gsiv h)
    (num_platform_timer h) (num_watchdog h) (sys_timer_status h).

(** Element [i] of the six arrays of a block; [None] behind their end. *)
Definition set_frame (i : nat) (frame base el0 phys virt flags : Z) (b : TIMER_INFO_GTBLOCK)
    : option TIMER_INFO_GTBLOCK :=
  _ ← frame_num b !! i; _ ← GtCntBase b !! i; _ ← GtCntEl0Base b !! i; _ ← gsiv b !! i;
  _ ← virt_gsiv b !! i; _ ← gt_flags b !! i;
  Some (mk_gtblock (gt_type b) (timer_count b) (block_cntl_base b) (<[i := frame]> (frame_num b))
          (<[i := base]> (GtCntBase b)) (<[i := el0]> (GtCntEl0Base b)) (<[i := phys]> (gsiv b))
          (<[i := virt]> (virt_gsiv b)) (<[i := flags]> (gt_flags b))).
Definition on_block (k : nat) (f : TIMER_INFO_GTBLOCK -> option TIMER_INFO_GTBLOCK) : TT unit :=
  let! t := get in
  let! b := use (gt_info t !! k) in
  let! b := use (f b) in
  modify (fun t => mk_timer_table (t_header t) (<[k := b]> (gt_info t))).
Definition frame_flags (t : Z) : Z :=
  u32 ((fld_ Timer_GTxPhysicalTimerFlags t .| (fld_ Timer_GTxVirtualTimerFlags t << 8))
       .| (fld_ Timer_GTxCommonFlags t << 16)).
Definition timer_frame (GtEntry : nat) (GtBlockTimer i : Z) : TT unit :=
  let t := GtBlockTimer + size_of GT_BLOCK_TIMER * i in
  on_block GtEntry (set_frame (Z.to_nat i) (fld_ Timer_GTFrameNumber t) (fld_ Timer_CntBaseX t)
    (fld_ Timer_CntEL0BaseX t) (fld_ Timer_GTxPhysicalTimerGSIV t)
    (fld_ Timer_GTxVirtualTimerGSIV t) (frame_flags t)) ;;
  on_timer_header (fun h => with_num_timers (u32 (num_platform_timer h + 1)) h).
Definition gt_block (GtEntry : nat) (Entry : Z) : TT unit :=
  on_block GtEntry (fun b => Some (mk_gtblock TIMER_TYPE_SYS_TIMER (fld_ Block_GTBlockTimerCount Entry)
    (fld_ Block_CntCtlBase Entry) (frame_num b) (GtCntBase b) (GtCntEl0Base b) (gsiv b)
    (virt_gsiv b) (gt_flags b))) ;;
  for_range 0 (fld_ Block_GTBlockTimerCount Entry)
    (timer_frame GtEntry (Entry + fld_ Block_GTBlockTimerOffset Entry)).
Definition gtdt_step (_i : Z) (p : Z * nat) : TT (Z * nat + unit) :=
  let '(Entry, GtEntry) := p in
  let! GtEntry := (if has_type GTDT_GT_BLOCK Entry then gt_block GtEntry Entry ;; ret (S GtEntry)
                   else ret GtEntry) in
  ret (inl (Entry + fld_ Gtdt_Entry_Length Entry, GtEntry)).

Definition pal_timer_platform_override : TT unit :=
  (when truthy PLATFORM_OVERRIDE_PLATFORM_TIMER then
     (on_timer_header (with_num_timers 1) ;;
      on_block 0 (fun b => _ ← GtCntBase b !! 0%nat; _ ← gsiv b !! 0%nat;
        Some (mk_gtblock (gt_type b) 1 PLATFORM_OVERRIDE_CNTCTL_BASE (frame_num b)
          (<[0%nat := PLATFORM_OVERRIDE_CNTBASE_N]> (GtCntBase b)) (GtCntEl0Base b)
          (<[0%nat := PLATFORM_OVERRIDE_PLATFORM_TIMER_GSIV]> (gsiv b)) (virt_gsiv b) (gt_flags b))))) ;;
  (when truthy PLATFORM_OVERRIDE_EL2_VIR_TIMER_GSIV then
     on_timer_header (with_el2_virt_gsiv PLATFORM_OVERRIDE_EL2_VIR_TIMER_GSIV)).
Definition pal_timer_create_info_table (gGtdtHdr : Z) : TT unit :=
  on_timer_header (with_num_timers 0) ;;
  if gGtdtHdr =? 0 then ret tt else
  on_timer_header (gtdt_header gGtdtHdr) ;;
  let! _r := for_acc (Z.to_nat (fld_ Gtdt_PlatformTimerCount gGtdtHdr)) 0
               (gGtdtHdr + fld_ Gtdt_PlatformTimerOffset gGtdtHdr, 0%nat) gtdt_step in
  pal_timer_platform_override.

(** ** PCIe configuration spaces *)

Definition PLATFORM_OVERRIDE_PCIE_ECAM_BASE : Z := 0x0.
Definition PLATFORM_OVERRIDE_PCIE_START_BUS_NUM : Z := 0x0.
Record pcie_mem := mk_pcie_mem { num_entries : Z; ecam_block_mem : list ecam_block }.
Abbreviation PCM := (M pcie_mem).

Definition pal_pcie_get_mcfg_ecam (gMcfgHdr : Z) : Z :=
  if gMcfgHdr =? 0 then 0 else fld_ Mcfg_BaseAddress (gMcfgHdr + size_of MCFG_HEADER).

Definition set_ecam (i : nat) (f : ecam_block -> ecam_block) : PCM unit :=
  let! s := get in
  let! b := use (ecam_block_mem s !! i) in
  modify (fun s => mk_pcie_mem (num_entries s) (<[i := f b]> (ecam_block_mem s))).
Definition mcfg_block (Entry : Z) : ecam_block :=
  mk_ecam (fld_ Mcfg_BaseAddress Entry) (fld_ Mcfg_PciSegmentGroupNumber Entry)
    (fld_ Mcfg_StartBusNumber Entry) (fld_ Mcfg_EndBusNumber Entry).
Definition mcfg_step (Length : Z) (p : Z * Z * nat) : PCM (Z * Z * nat + unit) :=
  let '(Entry, length, i) := p in
  if Entry =? 0 then ret (inr tt) else
  set_ecam i (fun _ => mcfg_block Entry) ;;
  let length := u32 (length + size_of MCFG_ALLOCATION) in
  let Entry := u64 (Entry + size_of MCFG_ALLOCATION) in
  modify (fun s => mk_pcie_mem (u32 (num_entries s + 1)) (ecam_block_mem s)) ;;
  ret (if (length <? Length) && truthy Entry then inl (Entry, length, S i) else inr tt).
Definition pal_pcie_create_info_table (fuel : nat) (gMcfgHdr : Z) : PCM unit :=
  modify (fun s => mk_pcie_mem 0 (ecam_block_mem s)) ;;
  if gMcfgHdr =? 0 then ret tt else
  if truthy PLATFORM_OVERRIDE_PCIE_ECAM_BASE then
    set_ecam 0 (fun b => mk_ecam PLATFORM_OVERRIDE_PCIE_ECAM_BASE 0
                          PLATFORM_OVERRIDE_PCIE_START_BUS_NUM (end_bus_num b)) ;;
    modify (fun s => mk_pcie_mem 1 (ecam_block_mem s))
  else
    loop fuel (mcfg_step (fld_ Header_Length gMcfgHdr))
      (u64 (gMcfgHdr + size_of MCFG_HEADER), size_of MCFG_HEADER, 0%nat).
End acpi.
Arguments mk_pe_mem {W}. Arguments num_of_pe {W}. Arguments pe_info {W}. Arguments u_gMpidrMax {W}.
Arguments g_num_pe {W}. Arguments u_gSecondaryPeStack {W}. Arguments pe_heap_mem {W}.
Arguments pe_pool {W}.
