(* ===== verification/AcpiSpec.v ===== *)
(** * AcpiSpec

    What the tables of [AcpiTables] hold for the tables of the firmware. A MADT is
    a list of structures ([madt_struct]) whose bytes are [madt_encoded] in memory;
    the theorems say what the VAL's look-ups answer on the table of interrupt
    controllers, which processing elements are listed and on which stacks they
    start, and what the timers of a GTDT become. *)

From Stdlib Require Import ZArith Lia Bool List.
From stdpp Require Import base tactics numbers list option.
From S2P Require Import Prelude Memory TestRun PePal PePalSpec Gic Timer Pcie Acpi UefiMem AcpiTables.
Local Open Scope Z_scope.

(** ** The MADT *)

(** The redistributor of a GICC structure, the CPU interface and GICH are 0 when
    there is none. *)
Inductive madt_struct :=
| SGic (cpuif gicrd gich mpidr gsiv : Z)
| SGicd (base version : Z)
| SGicr (base len : Z)
| SIts (base id : Z)
| SMsi (base id : Z)
| SOther.
Definition madt_types : list acpi_type := [GIC; GICD; GICR; GIC_ITS; GIC_MSI_FRAME].
Definition struct_type (x : madt_struct) : option acpi_type :=
  match x with
  | SGic _ _ _ _ _ => Some GIC | SGicd _ _ => Some GICD | SGicr _ _ => Some GICR
  | SIts _ _ => Some GIC_ITS | SMsi _ _ => Some GIC_MSI_FRAME | SOther => None
  end.

Section madt.
Context {A : Acpi}.
Variables (m : mem) (madt : Z) (pos : nat -> Z).

Definition struct_fields (a : Z) (x : madt_struct) : Prop :=
  match x with
  | SGic c r h p g =>
      field m Gic_PhysicalBaseAddress a = c /\ field m Gic_GICRBaseAddress a = r /\
      field m Gic_GICH a = h /\ field m Gic_MPIDR a = p /\
      field m Gic_PerformanceInterruptGsiv a = g
  | SGicd b v => field m Gicd_PhysicalBaseAddress a = b /\ field m Gicd_GicVersion a = v
  | SGicr b n => field m Gicr_DiscoveryRangeBaseAddress a = b /\ field m Gicr_DiscoveryRangeLength a = n
  | SIts b i => field m Its_PhysicalBaseAddress a = b /\ field m Its_GicItsId a = i
  | SMsi b i => field m Msi_PhysicalBaseAddress a = b /\ field m Msi_GicMsiFrameId a = i
  | SOther => True
  end.
(** [pos k] is the place of structure [k]. *)
Record madt_encoded (l : list madt_struct) : Prop := {
  me_types : NoDup (map type_code madt_types);
  me_first : pos 0%nat = size_of MADT_HEADER;
  me_next k : (k < length l)%nat -> pos (S k) = pos k + field m Entry_Length (madt + pos k);
  me_grow k : (k < length l)%nat -> 0 <= pos k < pos (S k);
  me_end : field m Header_Length madt = pos (length l);
  me_small : pos (length l) < 2 ^ 32;
  me_type k x t : l !! k = Some x -> t ∈ madt_types ->
    field m Entry_Type (madt + pos k) = type_code t <-> struct_type x = Some t;
  me_fields k x : l !! k = Some x -> struct_fields (madt + pos k) x
}.

Lemma pos_mono l : madt_encoded l -> forall j k, (j <= k <= length l)%nat -> 0 <= pos j <= pos k.
Proof.
  intros H j k Hjk. replace k with (j + (k - j))%nat by lia. assert ((j + (k - j) <= length l)%nat) as Hl by lia.
  revert Hl. induction (k - j)%nat as [|d IH]; intros Hl.
  - rewrite Nat.add_0_r in *. destruct (decide (j < length l)%nat) as [Hj|Hj].
    + pose proof (me_grow l H j Hj). lia.
    + assert (j = length l) as -> by lia. split; [|lia].
      destruct (length l) as [|n] eqn:E; [|pose proof (me_grow l H n); lia].
      pose proof (me_end l H) as He. rewrite E in He.
      rewrite <- He. unfold field. destruct (field_at Header_Length). apply load_range.
  - pose proof (me_grow l H (j + d)%nat ltac:(lia)).
    replace (j + S d)%nat with (S (j + d))%nat by lia. specialize (IH ltac:(lia)). lia.
Qed.

(** The loop over the structures visits each in order. *)
Lemma madt_loop_run {S X} (body : Z -> X -> M S X) (I : nat -> X -> S -> Prop) l fuel x s :
  madt_encoded l -> l <> [] -> (length l <= fuel)%nat -> I 0%nat x s ->
  (forall k e x s, l !! k = Some e -> I k x s -> wp (body (madt + pos k) x) (I (Datatypes.S k)) s) ->
  wp (madt_loop m fuel madt body x) (I (length l)) s.
Proof.
  intros He Hne Hf HI Hbody. unfold madt_loop. rewrite <- (me_first l He).
  assert (0 < length l)%nat as Hl by (destruct l; [done|cbn; lia]).
  apply (wp_loop (fun n '(a, len, x) s => exists k, (k < length l)%nat /\ n = (length l - 1 - k)%nat /\
    a = madt + pos k /\ len = pos k /\ I k x s)) with (n := (length l - 1)%nat); [|lia|].
  2:{ exists 0%nat. repeat split; try done; lia. }
  intros n [[a len] y] s1 (k & Hk & -> & -> & -> & HIk). unfold madt_step.
  destruct (list.lookup_lt_is_Some_2 l k Hk) as [e Hek].
  apply wp_bind. eapply wp_mono; [|by apply (Hbody k e)]. intros y' s2 HI2. apply wp_ret.
  pose proof (me_next l He k Hk) as Hn. pose proof (pos_mono l He (Datatypes.S k) (length l) ltac:(lia)).
  pose proof (me_small l He). rewrite <- Hn. unfold u32. rewrite wrap_small by lia. rewrite (me_end l He).
  destruct (decide (Datatypes.S k < length l)%nat) as [Hlt|Hge].
  - pose proof (me_grow l He _ Hlt). pose proof (pos_mono l He (Datatypes.S (Datatypes.S k)) (length l) ltac:(lia)).
    replace (pos (Datatypes.S k) <? pos (length l)) with true by zbool.
    exists (length l - 1 - Datatypes.S k)%nat. split; [lia|]. exists (Datatypes.S k). repeat split; try done; lia.
  - assert (Datatypes.S k = length l) as Hk' by lia. rewrite Hk' in *.
    replace (pos (length l) <? pos (length l)) with false by zbool. done.
Qed.

Lemma has_type_of l k x t : madt_encoded l -> l !! k = Some x -> t ∈ madt_types ->
  has_type m t (madt + pos k) = bool_decide (struct_type x = Some t).
Proof.
  intros He Hk Ht. unfold has_type. apply eq_bool_prop_intro. rewrite bool_decide_spec, <- (me_type l He k x t Hk Ht).
  rewrite Is_true_true, Z.eqb_eq. done.
Qed.

(** ** Interrupt controllers *)

(** What a structure writes: an entry with a base alone, with a length, or with an
    identifier. *)
Inductive gic_out :=
| OBase (t : GIC_INFO_TYPE_e) (base : Z)
| ORange (t : GIC_INFO_TYPE_e) (base len : Z)
| OIdent (t : GIC_INFO_TYPE_e) (base id : Z).
Definition gic_outs (x : madt_struct) : list gic_out :=
  match x with
  | SGic c r h _ _ =>
      (if truthy c then [OBase ENTRY_TYPE_CPUIF c] else []) ++
      (if truthy r then [ORange ENTRY_TYPE_GICC_GICRD r 0] else []) ++
      (if truthy h then [ORange ENTRY_TYPE_GICH h 0] else [])
  | SGicd b _ => [OBase ENTRY_TYPE_GICD b]
  | SGicr b n => [ORange ENTRY_TYPE_GICR_GICRD b n]
  | SIts b i => [OIdent ENTRY_TYPE_GICITS b i]
  | SMsi b i => [OIdent ENTRY_TYPE_GIC_MSI_FRAME b i]
  | SOther => []
  end.
Definition entry_is (o : gic_out) (e : UGIC_ENTRY) : Prop :=
  match o with
  | OBase t b => ug_type e = gic_type_code t /\ ug_base e = b
  | ORange t b n => ug_type e = gic_type_code t /\ ug_base e = b /\ ug_length e = n
  | OIdent t b i => ug_type e = gic_type_code t /\ ug_base e = b /\ ug_id e = i
  end.
Definition view_is (o : gic_out) (e : GIC_INFO_ENTRY) : Prop :=
  match o with
  | OBase t b => ge_type e = t /\ ge_base e = b
  | ORange t b n => ge_type e = t /\ ge_base e = b /\ ge_length e = n
  | OIdent t b i => ge_type e = t /\ ge_base e = b /\ entry_id e = i
  end.

(** The header after structures [l]; [n] MSI frames were counted before. *)
Definition tally (f : madt_struct -> bool) (l : list madt_struct) : Z :=
  Z.of_nat (length (List.filter f l)).
Definition is_gicd (x : madt_struct) : bool := match x with SGicd _ _ => true | _ => false end.
Definition is_its (x : madt_struct) : bool := match x with SIts _ _ => true | _ => false end.
Definition is_msi (x : madt_struct) : bool := match x with SMsi _ _ => true | _ => false end.
Definition has_gicrd (x : madt_struct) : bool :=
  match x with SGicr _ _ => true | SGic _ r _ _ _ => truthy r | _ => false end.
Definition version_of (l : list madt_struct) : Z :=
  fold_left (fun v x => match x with SGicd _ v' => v' | _ => v end) l 0.
Definition header_of (n h : Z) (l : list madt_struct) : GIC_INFO_HDR :=
  mk_gic_hdr (version_of l) (tally is_gicd l) (tally has_gicrd l) (tally is_its l)
    (u32 (n + tally is_msi l)) h.

Lemma tally_app f l x : tally f (l ++ [x]) = tally f l + b2z (f x).
Proof.
  unfold tally. rewrite List.filter_app, length_app. cbn. destruct (f x); cbn [length b2z]; lia.
Qed.
Lemma tally_le f l : 0 <= tally f l <= Z.of_nat (length l).
Proof. unfold tally. pose proof (List.filter_length_le f l). lia. Qed.
Lemma version_app l x : version_of (l ++ [x]) = match x with SGicd _ v => v | _ => version_of l end.
Proof. unfold version_of. rewrite fold_left_app. by destruct x. Qed.

(** The memory holds [os], and [GicEntry] points behind them. *)
Definition gic_holds (room : nat) (os : list gic_out) (s : gic_mem) : Prop :=
  length (gm_info s) = room /\ GicEntry s = length os /\ Forall2 entry_is os (take (length os) (gm_info s)).

Lemma gic_holds_add room os o f s : gic_holds room os s -> (length os < room)%nat ->
  (forall e, entry_is o (f e)) ->
  wp (set_gic f) (fun _ s' => gm_header s' = gm_header s /\ GicEntry s' = GicEntry s /\
    gic_holds room (os ++ [o]) (mk_gic_mem (gm_header s') (gm_info s') (S (GicEntry s')))) s.
Proof.
  intros (Hr & Hn & Hos) Hlt Hf. unfold set_gic. apply wp_bind. apply wp_intro with s s; [done|].
  destruct (list.lookup_lt_is_Some_2 (gm_info s) (GicEntry s) ltac:(lia)) as [e He]. rewrite He.
  apply wp_bind, wp_ret, wp_modify. split; [done|]. split; [done|]. unfold gic_holds. cbn [gm_info GicEntry].
  rewrite list.length_insert, length_app. cbn [length]. split; [done|]. split; [lia|].
  replace (length os + 1)%nat with (S (GicEntry s)) by lia.
  rewrite (list.take_S_r _ _ (f e)) by (apply list.list_lookup_insert_eq; lia).
  rewrite list.take_insert, Hn, decide_False by lia. apply Forall2_app; [done|]. constructor; [apply Hf|constructor].
Qed.
Lemma gic_add room os o f g s : gic_holds room os s -> (length os < room)%nat ->
  (forall e, entry_is o (f e)) ->
  wp (set_gic f ;; gic_header g ;; next_gic) (fun _ s' => gm_header s' = g (gm_header s) /\
    gic_holds room (os ++ [o]) s') s.
Proof.
  intros Hs Hlt Hf. apply wp_bind. eapply wp_mono; [|by apply (gic_holds_add room os o f s)].
  intros [] s1 (Hh & Hn & H1). apply wp_bind, wp_modify, wp_modify. cbn. by rewrite Hh.
Qed.
Lemma gic_add' room os o f s : gic_holds room os s -> (length os < room)%nat ->
  (forall e, entry_is o (f e)) ->
  wp (set_gic f ;; next_gic) (fun _ s' => gm_header s' = gm_header s /\ gic_holds room (os ++ [o]) s') s.
Proof.
  intros Hs Hlt Hf. apply wp_bind. eapply wp_mono; [|by apply (gic_holds_add room os o f s)].
  intros [] s1 (Hh & Hn & H1). by apply wp_modify.
Qed.

Lemma header_of_app n h l x : Z.of_nat (length l) < 2 ^ 32 - 1 ->
  header_of n h (l ++ [x]) =
    match x with
    | SGic _ r _ _ _ => if truthy r then more_gicrd (header_of n h l) else header_of n h l
    | SGicd _ v => more_gicd v (header_of n h l)
    | SGicr _ _ => more_gicrd (header_of n h l)
    | SIts _ _ => more_its (header_of n h l)
    | SMsi _ _ => more_msi (header_of n h l)
    | SOther => header_of n h l
    end.
Proof.
  intros Hl. unfold header_of. rewrite version_app, !tally_app.
  pose proof (tally_le is_gicd l). pose proof (tally_le has_gicrd l). pose proof (tally_le is_its l).
  assert (u32 (u32 (n + tally is_msi l) + 1) = u32 (n + (tally is_msi l + 1))) as Hm.
  { unfold u32, wrap. rewrite Z.add_mod_idemp_l by lia. f_equal. lia. }
  destruct x as [c r g p y|b v|b z|b i|b i|]; cbn [is_gicd has_gicrd is_its is_msi b2z];
    unfold more_gicd, more_gicrd, more_its, more_msi;
    cbn [gic_version num_gicd num_gicrd num_its num_msi_frame num_gich]; rewrite ?Hm, ?Z.add_0_r; try done;
    try (unfold u32 at 2; rewrite wrap_small by lia; done);
    try (unfold u32 at 1; rewrite wrap_small by lia; done).
  destruct (truthy r); cbn [b2z]; rewrite ?Z.add_0_r; [|done].
  unfold more_gicrd. cbn. unfold u32 at 2. by rewrite wrap_small by lia.
Qed.

Ltac decide_types :=
  repeat match goal with
  | |- context [bool_decide (?a = ?b)] =>
      let v := eval vm_compute in (bool_decide (a = b)) in change (bool_decide (a = b)) with v
  end; cbv iota.

Lemma gic_add_if (c : bool) room os o f g s : gic_holds room os s ->
  (length (os ++ (if c then [o] else [])) <= room)%nat -> (forall e, entry_is o (f e)) ->
  wp (when c then (set_gic f ;; gic_header g ;; next_gic)) (fun _ s' =>
    gm_header s' = (if c then g (gm_header s) else gm_header s) /\
    gic_holds room (os ++ (if c then [o] else [])) s') s.
Proof.
  intros Hs Hlt Hf. rewrite length_app in Hlt. destruct c; cbn in Hlt.
  - apply gic_add; [done|lia|done].
  - rewrite app_nil_r. by apply wp_ret.
Qed.
Lemma gic_add_if' (c : bool) room os o f s : gic_holds room os s ->
  (length (os ++ (if c then [o] else [])) <= room)%nat -> (forall e, entry_is o (f e)) ->
  wp (when c then (set_gic f ;; next_gic)) (fun _ s' =>
    gm_header s' = gm_header s /\ gic_holds room (os ++ (if c then [o] else [])) s') s.
Proof.
  intros Hs Hlt Hf. rewrite length_app in Hlt. destruct c; cbn in Hlt.
  - apply gic_add'; [done|lia|done].
  - rewrite app_nil_r. by apply wp_ret.
Qed.
Lemma gicc_run room os c r g s : gic_holds room os s ->
  (length os + length (gic_outs (SGic c r g 0 0)) <= room)%nat ->
  wp ((when truthy c then (set_gic (set_base ENTRY_TYPE_CPUIF c) ;; next_gic)) ;;
      (when truthy r then (set_gic (set_range ENTRY_TYPE_GICC_GICRD r 0) ;; gic_header more_gicrd ;; next_gic)) ;;
      (when truthy g then (set_gic (set_range ENTRY_TYPE_GICH g 0) ;; next_gic)))
    (fun _ s' => gic_holds room (os ++ gic_outs (SGic c r g 0 0)) s' /\
       gm_header s' = if truthy r then more_gicrd (gm_header s) else gm_header s) s.
Proof.
  intros Hs Hroom. cbn [gic_outs] in *. rewrite !app_assoc, !length_app in *.
  apply wp_bind. eapply wp_mono; [|eapply (gic_add_if' _ room os (OBase ENTRY_TYPE_CPUIF c)); [done|rewrite length_app; lia|done]].
  intros [] s1 (Hh1 & H1). apply wp_bind. eapply wp_mono; [|eapply (gic_add_if _ room _ (ORange ENTRY_TYPE_GICC_GICRD r 0)); [exact H1|rewrite !length_app; lia|done]].
  intros [] s2 (Hh2 & H2). eapply wp_mono; [|eapply (gic_add_if' _ room _ (ORange ENTRY_TYPE_GICH g 0)); [exact H2|rewrite !length_app; lia|done]].
  intros [] s3 (Hh3 & H3). split; [done|]. by rewrite Hh3, Hh2, Hh1.
Qed.

Lemma gic_body_run room l k x os n h s :
  madt_encoded l -> l !! k = Some x -> Z.of_nat (length l) < 2 ^ 32 -> gic_holds room os s ->
  (length os + length (gic_outs x) <= room)%nat -> gm_header s = header_of n h (take k l) ->
  wp (gic_body m (madt + pos k) tt) (fun _ s' => gic_holds room (os ++ gic_outs x) s' /\
    gm_header s' = header_of n h (take (S k) l)) s.
Proof.
  intros He Hk Hl Hs Hroom Hh. pose proof (me_fields _ He k x Hk) as Hf.
  rewrite (list.take_S_r _ _ _ Hk), header_of_app, <- Hh
    by (apply list.lookup_lt_Some in Hk; rewrite length_take; lia).
  unfold gic_body. rewrite !(has_type_of l k x) by (done || by apply (bool_decide_unpack _)).
  destruct x as [c r g p y|b v|b z|b i|b i|]; cbn [struct_type struct_fields gic_outs] in *;
    decide_types; cbn [length] in Hroom.
  - destruct Hf as (-> & -> & -> & _). apply wp_bind. eapply wp_mono; [|by apply gicc_run].
    intros [] s' H'. repeat apply wp_bind, wp_ret. by apply wp_ret.
  - destruct Hf as (-> & ->). apply wp_bind, wp_ret, wp_bind.
    eapply wp_mono; [|eapply (gic_add room os (OBase ENTRY_TYPE_GICD _)); [done|lia|intros; cbn; repeat split; reflexivity]].
    intros [] s' (H1 & H2). repeat apply wp_bind, wp_ret. by apply wp_ret.
  - destruct Hf as (-> & ->). do 2 apply wp_bind, wp_ret. apply wp_bind.
    eapply wp_mono; [|eapply (gic_add room os (ORange ENTRY_TYPE_GICR_GICRD _ _)); [done|lia|intros; cbn; repeat split; reflexivity]].
    intros [] s' (H1 & H2). repeat apply wp_bind, wp_ret. by apply wp_ret.
  - destruct Hf as (-> & ->). do 3 apply wp_bind, wp_ret. apply wp_bind.
    eapply wp_mono; [|eapply (gic_add room os (OIdent ENTRY_TYPE_GICITS _ _)); [done|lia|intros; cbn; repeat split; reflexivity]].
    intros [] s' (H1 & H2). by apply wp_ret.
  - destruct Hf as (-> & ->). do 4 apply wp_bind, wp_ret.
    eapply wp_mono; [|eapply (gic_add room os (OIdent ENTRY_TYPE_GIC_MSI_FRAME _ _)); [done|lia|intros; cbn; repeat split; reflexivity]].
    by intros [] s' (H1 & H2).
  - do 4 apply wp_bind, wp_ret. apply wp_ret. by rewrite app_nil_r.
Qed.

(** *** The view of the VAL *)

Lemma view_holds os : forall l, Forall2 entry_is os (take (length os) l) ->
  ug_type <$> l !! length os = Some 0xFF -> Forall2 view_is os (view_entries l).
Proof.
  induction os as [|o os IH]; intros [|e l] H Hend; cbn in H, Hend; try done.
  - injection Hend as He. cbn. by rewrite He.
  - inversion H as [|? ? ? ? Ho Hos]; subst. cbn [view_entries].
    assert (exists t, ug_type e = gic_type_code t /\ view_is o (mk_gic_entry t (ug_base e) (ug_id e) (ug_length e)))
      as (t & Ht & Hv) by (destruct o; eexists; split; try apply Ho; split; cbn; try done; apply Ho).
    rewrite Ht. replace (gic_type_code t =? 0xFF) with false by (by destruct t).
    replace (gic_type_of (gic_type_code t)) with (Some t) by (by destruct t).
    constructor; [done|by apply IH].
Qed.

Definition gicd_base (x : madt_struct) : option Z := match x with SGicd b _ => Some b | _ => None end.
Definition gicr_range (x : madt_struct) : option (Z * Z) :=
  match x with SGicr b n => Some (b, u32 n) | _ => None end.
Definition no_gicc_gicrd (x : madt_struct) : bool :=
  match x with SGic _ r _ _ _ => negb (truthy r) | _ => true end.

(** The entries of one structure in front of the others. *)
Ltac entries_of H :=
  repeat match type of H with
  | Forall2 _ (_ :: _) ?L => let e := fresh "e" in let Ho := fresh "Ho" in let H' := fresh "H" in
      inversion H as [|? e ? ? Ho H']; subst; clear H; rename H' into H
  | Forall2 _ [] ?L => inversion H; subst; clear H
  end.
Lemma base_of_cons t e L : base_of t (e :: L) = if decide (ge_type e = t) then ge_base e else base_of t L.
Proof. unfold base_of. cbn. by destruct (decide (ge_type e = t)) as [H|H]; [rewrite bool_decide_eq_true_2|rewrite bool_decide_eq_false_2]. Qed.
Lemma gicd_of l : forall L, Forall2 view_is (flat_map gic_outs l) L ->
  base_of ENTRY_TYPE_GICD L = default 0 (head (omap gicd_base l)).
Proof.
  induction l as [|x l IH]; intros L H; [by inversion H|]. cbn [flat_map] in H.
  apply list.Forall2_app_inv_l in H as (L1 & L2 & H1 & H2 & ->). specialize (IH L2 H2).
  destruct x as [c r g p y|b v|b z|b i|b i|]; cbn [gic_outs] in H1;
    try destruct (truthy c), (truthy r), (truthy g); cbn [app] in H1; entries_of H1; cbn in *;
    rewrite ?base_of_cons; destruct_and?; repeat (rewrite decide_False by congruence); try done.
  by rewrite decide_True.
Qed.
Lemma gicr_of l k : Forall (fun x => no_gicc_gicrd x = true) l -> forall L i, 0 <= i <= k -> k < 2 ^ 31 ->
  Forall2 view_is (flat_map gic_outs l) L ->
  gicr_entry k i L = default (0, 0) (omap gicr_range l !! Z.to_nat (k - i)).
Proof.
  intros Hno. induction Hno as [|x l Hx Hl IH]; intros L i Hi Hk H; [by inversion H|]. cbn [flat_map] in H.
  apply list.Forall2_app_inv_l in H as (L1 & L2 & H1 & H2 & ->).
  destruct x as [c r g p y|b v|b z|b j|b j|]; cbn [gic_outs no_gicc_gicrd] in H1, Hx;
    try destruct (truthy c), (truthy r), (truthy g); try done; cbn [app] in H1; entries_of H1; cbn in *;
    destruct_and?; repeat match goal with E : ge_type _ = _ |- _ => rewrite E; clear E end; try by apply IH.
  destruct (Z.eqb_spec i k) as [->|Hne].
  - rewrite Z.sub_diag. cbn. by subst.
  - rewrite (IH L2 (i + 1)) by (lia || done). replace (Z.to_nat (k - i)) with (S (Z.to_nat (k - (i + 1)))) by lia. done.
Qed.

(** C30. The table of interrupt controllers made from a MADT, when its memory holds
    an entry for every component and the end mark: for the VAL it lists the
    components of the structures in their order; distributors, redistributors and
    ITSs are counted, the MSI frames are added to what the count was before; the
    base of the distributor is that of the first GICD structure; and when no GICC
    structure has a redistributor, the [k]-th range of redistributors is that of
    the [k]-th GICR structure. *)
Theorem gic_info_from_madt l fuel s :
  madt_encoded l -> l <> [] -> (length l <= fuel)%nat -> Z.of_nat (length l) < 2 ^ 32 -> madt <> 0 ->
  (length (flat_map gic_outs l) < length (gm_info s))%nat -> 0 <= num_msi_frame (gm_header s) < 2 ^ 32 ->
  wp (pal_gic_create_info_table m fuel madt) (fun _ s' =>
    let t := gic_view s' in
    Forall2 view_is (flat_map gic_outs l) (gic_info t) /\
    header t = header_of (num_msi_frame (gm_header s)) (num_gich (gm_header s)) l /\
    base_of ENTRY_TYPE_GICD (gic_info t) = default 0 (head (omap gicd_base l)) /\
    (Forall (fun x => no_gicc_gicrd x = true) l -> forall k, 0 <= k < 2 ^ 31 ->
       gicr_entry k 0 (gic_info t) = default (0, 0) (omap gicr_range l !! Z.to_nat k))) s.
Proof.
  intros He Hne Hf Hl Hm Hroom Hmsi. unfold pal_gic_create_info_table. apply wp_bind, wp_modify.
  replace (madt =? 0) with false by lia. set (n := num_msi_frame _) in *. set (h := num_gich _) in *.
  assert (forall k, (length (flat_map gic_outs (take k l)) <= length (flat_map gic_outs l))%nat) as Hpre.
  { intros k. rewrite <- (take_drop k l) at 2. rewrite flat_map_app, length_app. lia. }
  apply wp_bind. eapply wp_mono; [|apply (madt_loop_run (gic_body m) (fun k _ s1 =>
    gic_holds (length (gm_info s)) (flat_map gic_outs (take k l)) s1 /\
    gm_header s1 = header_of n h (take k l)) l); try done].
  - intros [] s1 ((Hr & Hn & Hos) & Hh). rewrite List.firstn_all in *. unfold set_gic. apply wp_bind.
    apply wp_intro with s1 s1; [done|].
    destruct (list.lookup_lt_is_Some_2 (gm_info s1) (GicEntry s1) ltac:(lia)) as [e Hl']. rewrite Hl'.
    apply wp_bind, wp_ret, wp_modify. unfold gic_view. cbn [gm_header gm_info gic_info header].
    match goal with |- context [view_entries ?L] => assert (Forall2 view_is (flat_map gic_outs l) (view_entries L)) as Hv end.
    { apply view_holds.
      - by rewrite list.take_insert, Hn, decide_False by lia.
      - rewrite Hn, list.list_lookup_insert_eq by lia. done. }
    split; [done|]. split; [done|]. split; [by apply gicd_of|]. intros Hno k Hk.
    rewrite (gicr_of l k Hno _ 0) by (done || lia). by rewrite Z.sub_0_r.
  - split; [split; [done|]; split; [done|constructor]|]. unfold header_of, tally. cbn.
    unfold u32. by rewrite Z.add_0_r, wrap_small by lia.
  - intros k e [] s1 Hk (Hs & Hh). specialize (Hpre (S k)). rewrite (list.take_S_r _ _ _ Hk) in *.
    rewrite flat_map_app in *. cbn [flat_map] in *. rewrite app_nil_r, length_app in *.
    rewrite <- (list.take_S_r _ _ _ Hk). apply gic_body_run; done || lia.
Qed.

(** ** Processing elements *)

Definition pe_of (x : madt_struct) : option (Z * Z) :=
  match x with SGic _ _ _ p g => Some (p, g) | _ => None end.
Definition pes_of (l : list madt_struct) : list pe_entry :=
  imap (fun i x => mk_pe (Z.of_nat i) (fst x) (snd x)) (omap pe_of l).
Lemma pes_of_app l x : pes_of (l ++ [x]) = pes_of l ++
  match pe_of x with Some (p, g) => [mk_pe (Z.of_nat (length (pes_of l))) p g] | None => [] end.
Proof.
  unfold pes_of. rewrite list.omap_app, imap_app, length_imap. cbn.
  destruct (pe_of x) as [[p g]|]; [|done]. cbn. by rewrite Nat.add_0_r.
Qed.

Section pe.
Context {W : Type} {BS : BootServices W}.
Variable align : Z.
Implicit Types s : pe_mem W.

Definition pes_hold (s0 : pe_mem W) (l : list madt_struct) (maxima : list Z) s : Prop :=
  length (pe_info s) = length (pe_info s0) /\ num_of_pe s = Z.of_nat (length (pes_of l)) /\
  take (length (pes_of l)) (pe_info s) = pes_of l /\ maxima = affinity_max (pes_of l) /\
  u_gSecondaryPeStack s = u_gSecondaryPeStack s0 /\ pe_pool s = pe_pool s0.

Lemma pe_body_run s0 l k x maxima s :
  madt_encoded l -> l !! k = Some x -> (length (pes_of l) <= length (pe_info s0))%nat ->
  Z.of_nat (length (pes_of l)) < 2 ^ 32 -> pes_hold s0 (take k l) maxima s ->
  wp (pe_body m (madt + pos k) maxima) (pes_hold s0 (take (S k) l)) s.
Proof.
  intros He Hk Hroom Hsmall (Hr & Hn & Htake & Hmax & Hst & Hp). pose proof (me_fields _ He k x Hk) as Hf.
  assert (length (pes_of (take (S k) l)) <= length (pes_of l))%nat as Hle.
  { rewrite <- (take_drop (S k) l) at 2. unfold pes_of. rewrite list.omap_app, !length_imap, length_app. lia. }
  rewrite (list.take_S_r _ _ _ Hk), pes_of_app, length_app in *. unfold pe_body.
  rewrite (has_type_of l k x) by (done || by apply (bool_decide_unpack _)). unfold pes_hold.
  rewrite pes_of_app, length_app.
  destruct x as [c r g p y|b v|b z|b i|b i|]; cbn [struct_type struct_fields pe_of] in *; decide_types;
    [|apply wp_ret; rewrite app_nil_r, Nat.add_0_r; by repeat split..].
  destruct Hf as (_ & _ & _ & -> & ->). cbn [length] in Hle. set (c0 := pes_of (take k l)) in *.
  apply wp_bind, wp_intro with s s; [done|]. rewrite Hn, Nat2Z.id.
  destruct (list.lookup_lt_is_Some_2 (pe_info s) (length c0) ltac:(lia)) as [e He']. rewrite He'.
  apply wp_bind, wp_ret, wp_bind, wp_modify, wp_ret. cbn [pe_info num_of_pe u_gSecondaryPeStack pe_pool].
  rewrite list.length_insert. unfold u32. rewrite wrap_small by lia. cbn [length].
  split; [done|]. split; [lia|]. split; [|split; [|by split]].
  - rewrite Nat.add_1_r, (list.take_S_r _ _ (mk_pe (Z.of_nat (length c0)) p y))
      by (rewrite Hn, Nat2Z.id; apply list.list_lookup_insert_eq; lia).
    rewrite list.take_insert, Hn, Nat2Z.id, decide_False by lia. by rewrite Htake.
  - unfold affinity_max. rewrite fold_left_app, Hmax. done.
Qed.

(** The stacks begin at the first multiple of 16 behind the word that keeps the
    buffer. *)
Definition stack_base (Buffer : Z) : Z := if truthy (Buffer .& 0xf) then Buffer + 8 else Buffer + 16.
Lemma stack_base_aligned Buffer : Buffer mod 8 = 0 ->
  stack_base Buffer mod 16 = 0 /\ Buffer + 8 <= stack_base Buffer <= Buffer + 16.
Proof.
  intros H8. unfold stack_base, truthy. change 0xf with (Z.ones 4). rewrite Z.land_ones by lia.
  change (2 ^ 4) with 16. destruct (Z.eqb_spec (Buffer mod 16) 0) as [H|H]; cbn [negb].
  - split; [|lia]. rewrite <- Z.add_mod_idemp_l, H by lia. done.
  - split; [|lia]. apply Z.mod_divide in H8; [|lia]. destruct H8 as [q ->].
    assert (q * 8 mod 16 = 8) as H16.
    { rewrite Z.mod_eq in * by lia. Z.div_mod_to_equations. lia. }
    rewrite <- Z.add_mod_idemp_l, H16 by lia. done.
Qed.
Lemma stack_run mx s Buffer w :
  u_gSecondaryPeStack s = 0 -> 0 <= NumPe mx * SIZE_STACK_SECONDARY_PE + align < 2 ^ 32 ->
  AllocatePool (NumPe mx * SIZE_STACK_SECONDARY_PE + align) (pe_pool s) = (Some Buffer, w) ->
  0 <= Buffer < 2 ^ 64 - 16 ->
  wp (PalAllocateSecondaryStack align mx) (fun _ s' => u_gSecondaryPeStack s' = stack_base Buffer /\
    pe_info s' = pe_info s /\ num_of_pe s' = num_of_pe s /\ u_gMpidrMax s' = u_gMpidrMax s) s.
Proof.
  intros H0 Hs Ha Hb. unfold PalAllocateSecondaryStack. apply wp_bind, wp_intro with s s; [done|].
  rewrite H0. cbn [Z.eqb]. cbv zeta. unfold u32. rewrite wrap_small, Ha by lia. unfold stack_base.
  apply wp_bind, wp_ret. destruct (truthy (Buffer .& 0xf)); apply wp_modify; cbn;
    unfold u64; rewrite wrap_small by lia; done.
Qed.

(** C26. The table of processing elements made from a MADT, when its memory has
    room: it lists the affinity and the interrupt of every GICC structure, in
    their order and numbered from 0. When the pool gives the memory, in addresses
    that are multiples of 8 as it promises, every PE of the table starts with a
    stack pointer that is a multiple of 16; PEs of different affinity get stacks
    of 256 bytes that do not overlap, and the stack of a PE whose affinity is not
    0.0.0.0 lies in the buffer, behind the word that keeps its address. The stack
    of the PE 0.0.0.0 lies below. *)
Theorem pe_info_from_madt l fuel s Buffer w :
  let cfg := pes_of l in
  let size := places cfg * SIZE_STACK_SECONDARY_PE + align in
  madt_encoded l -> l <> [] -> (length l <= fuel)%nat -> madt <> 0 ->
  (length cfg <= length (pe_info s))%nat -> Z.of_nat (length cfg) < 2 ^ 32 ->
  u_gSecondaryPeStack s = 0 -> 16 <= align -> size < 2 ^ 32 ->
  AllocatePool size (pe_pool s) = (Some Buffer, w) -> Buffer mod 8 = 0 ->
  0 < Buffer -> Buffer + size < 2 ^ 64 ->
  wp (pal_pe_create_info_table m align fuel madt) (fun _ s' =>
    take (length cfg) (pe_info s') = cfg /\ num_of_pe s' = Z.of_nat (length cfg) /\
    forall e, e ∈ cfg -> exists sp, ModuleEntryPoint (mpidr e) s' = Done sp s' /\ sp mod 16 = 0 /\
      (affinity (mpidr e) <> [0; 0; 0; 0] -> Buffer + 8 <= sp - 0x100 /\ sp <= Buffer + size) /\
      (affinity (mpidr e) = [0; 0; 0; 0] -> sp <= Buffer + 16) /\
      forall e2, e2 ∈ cfg -> affinity (mpidr e2) <> affinity (mpidr e) ->
        exists sp2, ModuleEntryPoint (mpidr e2) s' = Done sp2 s' /\ (sp2 <= sp - 0x100 \/ sp <= sp2 - 0x100)) s.
Proof.
  intros cfg size He Hne Hf Hm Hroom Hsmall Hst Hal Hsize Ha H8 Hb Htop.
  pose proof (places_pos cfg) as Hpl. unfold size, SIZE_STACK_SECONDARY_PE in Hsize, Htop.
  unfold pal_pe_create_info_table. replace (madt =? 0) with false by lia. apply wp_bind, wp_modify, wp_bind.
  set (s0 := mk_pe_mem 0 _ _ _ _ _ _).
  eapply wp_mono; [|apply (madt_loop_run (pe_body m) (fun k => pes_hold s0 (take k l)) l); try done].
  2:{ intros k x maxima s1 Hk Hs1. by apply (pe_body_run s0 l k x). }
  intros maxima s1 (Hr & Hn & Htake & -> & Hst1 & Hp). rewrite List.firstn_all in *. fold cfg in Hn, Htake |- *.
  apply wp_bind, wp_modify, wp_bind, wp_gets. cbn [u_gMpidrMax]. fold (max_mpidr cfg).
  assert (NumPe (max_mpidr cfg) = places cfg) as HN by (apply NumPe_places; lia).
  destruct (stack_base_aligned Buffer H8) as (Hb16 & Hbr).
  eapply wp_mono; [|apply (stack_run _ _ Buffer w); rewrite ?HN; unfold SIZE_STACK_SECONDARY_PE; cbn [u_gSecondaryPeStack pe_pool];
    [by rewrite Hst1|lia|by rewrite Hp|lia]].
  intros [] s2 (Hs2 & Hi2 & Hn2 & Hm2). cbn [pe_info num_of_pe u_gMpidrMax] in *. rewrite Hi2, Hn2.
  split; [done|]. split; [done|].
  assert (forall e, e ∈ cfg -> ModuleEntryPoint (mpidr e) s2 =
    Done (stack_base Buffer + 0x100 * place cfg (mpidr e)) s2) as Hrun.
  { intros e Hin. unfold ModuleEntryPoint, bind, get, ret. rewrite Hs2, Hm2, core_pos_place.
    unfold SIZE_STACK_SECONDARY_PE. pose proof (place_range cfg e Hin). unfold u64. f_equal.
    rewrite (wrap_small _ (_ * _)) by lia. apply wrap_small. lia. }
  intros e Hin. exists (stack_base Buffer + 0x100 * place cfg (mpidr e)). split; [by apply Hrun|].
  pose proof (place_range cfg e Hin). split; [|split; [|split]].
  - rewrite <- Z.add_mod_idemp_l, Hb16 by lia. replace (0 + _) with (16 * place cfg (mpidr e) * 16) by lia.
    by apply Z.mod_mul.
  - intros Haff. assert (place cfg (mpidr e) <> 0) by (by rewrite place_zero).
    unfold size, SIZE_STACK_SECONDARY_PE. lia.
  - intros Haff. apply (place_zero cfg e Hin) in Haff. lia.
  - intros e2 Hin2 Hne2. eexists. split; [by apply Hrun|].
    assert (place cfg (mpidr e2) <> place cfg (mpidr e)) by (intros Hpe; by apply Hne2, (place_inj cfg)). lia.
Qed.
End pe.
End madt.

(** ** Timers *)

Record gt_frame := mk_gt_frame {
  gf_num : Z; gf_base : Z; gf_el0 : Z; gf_phys : Z; gf_virt : Z; gf_pflags : Z; gf_vflags : Z; gf_cflags : Z
}.
(** A block of timers, or a structure of another type. *)
Inductive gtdt_struct := TBlock (cntctl : Z) (frames : list gt_frame) | TOther.
Definition block_of (x : gtdt_struct) : option (Z * list gt_frame) :=
  match x with TBlock c fs => Some (c, fs) | TOther => None end.
Definition flags_of (f : gt_frame) : Z := u32 ((gf_pflags f .| (gf_vflags f << 8)) .| (gf_cflags f << 16)).
(** Block [b] holds the frames up to the [n]-th. *)
Record holds_frames (fs : list gt_frame) (n : nat) (b : TIMER_INFO_GTBLOCK) : Prop := {
  hf_room : (length (frame_num b) = 8 /\ length (GtCntBase b) = 8 /\ length (GtCntEl0Base b) = 8 /\
    length (gsiv b) = 8 /\ length (virt_gsiv b) = 8 /\ length (gt_flags b) = 8)%nat;
  hf_frame i f : (i < n)%nat -> fs !! i = Some f ->
    frame_num b !! i = Some (gf_num f) /\ GtCntBase b !! i = Some (gf_base f) /\
    GtCntEl0Base b !! i = Some (gf_el0 f) /\ gsiv b !! i = Some (gf_phys f) /\
    virt_gsiv b !! i = Some (gf_virt f) /\ gt_flags b !! i = Some (flags_of f)
}.
Definition holds_block (x : Z * list gt_frame) (b : TIMER_INFO_GTBLOCK) : Prop :=
  gt_type b = TIMER_TYPE_SYS_TIMER /\ timer_count b = Z.of_nat (length (snd x)) /\
  block_cntl_base b = fst x /\ holds_frames (snd x) (length (snd x)) b.
Definition frames_in (l : list (Z * list gt_frame)) : nat := list_sum (map (fun x => length (snd x)) l).

Section gtdt.
Context {A : Acpi}.
Variables (m : mem) (gtdt : Z) (pos : nat -> Z).

Definition frame_fields (a : Z) (f : gt_frame) : Prop :=
  field m Timer_GTFrameNumber a = gf_num f /\ field m Timer_CntBaseX a = gf_base f /\
  field m Timer_CntEL0BaseX a = gf_el0 f /\ field m Timer_GTxPhysicalTimerGSIV a = gf_phys f /\
  field m Timer_GTxVirtualTimerGSIV a = gf_virt f /\ field m Timer_GTxPhysicalTimerFlags a = gf_pflags f /\
  field m Timer_GTxVirtualTimerFlags a = gf_vflags f /\ field m Timer_GTxCommonFlags a = gf_cflags f.
Definition gtdt_fields (a : Z) (x : gtdt_struct) : Prop :=
  match x with
  | TBlock c fs =>
      field m Entry_Type a = type_code GTDT_GT_BLOCK /\ field m Block_CntCtlBase a = c /\
      field m Block_GTBlockTimerCount a = Z.of_nat (length fs) /\
      (forall i f, fs !! i = Some f ->
         frame_fields (a + field m Block_GTBlockTimerOffset a + size_of GT_BLOCK_TIMER * Z.of_nat i) f)
  | TOther => field m Entry_Type a <> type_code GTDT_GT_BLOCK
  end.
Record gtdt_encoded (l : list gtdt_struct) : Prop := {
  te_count : field m Gtdt_PlatformTimerCount gtdt = Z.of_nat (length l);
  te_first : pos 0%nat = field m Gtdt_PlatformTimerOffset gtdt;
  te_next k : (k < length l)%nat -> pos (S k) = pos k + field m Gtdt_Entry_Length (gtdt + pos k);
  te_fields k x : l !! k = Some x -> gtdt_fields (gtdt + pos k) x
}.

Lemma set_frame_run fs i f b : holds_frames fs i b -> fs !! i = Some f -> (i < 8)%nat ->
  exists b', set_frame i (gf_num f) (gf_base f) (gf_el0 f) (gf_phys f) (gf_virt f) (flags_of f) b = Some b' /\
    holds_frames fs (S i) b' /\ gt_type b' = gt_type b /\ timer_count b' = timer_count b /\
    block_cntl_base b' = block_cntl_base b.
Proof.
  intros [(L1 & L2 & L3 & L4 & L5 & L6) Hfs] Hf Hi. unfold set_frame.
  destruct (list.lookup_lt_is_Some_2 (frame_num b) i ltac:(lia)) as [? ->], (list.lookup_lt_is_Some_2 (GtCntBase b) i ltac:(lia)) as [? ->],
    (list.lookup_lt_is_Some_2 (GtCntEl0Base b) i ltac:(lia)) as [? ->], (list.lookup_lt_is_Some_2 (gsiv b) i ltac:(lia)) as [? ->],
    (list.lookup_lt_is_Some_2 (virt_gsiv b) i ltac:(lia)) as [? ->], (list.lookup_lt_is_Some_2 (gt_flags b) i ltac:(lia)) as [? ->].
  cbn [mbind option_bind]. eexists. split; [reflexivity|]. split; [|done]. split; cbn; rewrite ?list.length_insert; [done|].
  intros j g Hj Hg. destruct (decide (j = i)) as [->|Hne].
  - rewrite Hf in Hg. injection Hg as <-. by rewrite !list.list_lookup_insert_eq by lia.
  - rewrite !list.list_lookup_insert_ne by done. apply (Hfs j g); [lia|done].
Qed.

(** Block [k] of the table holds [n] frames, the others are those of [t0]. *)
Definition fills (t0 : TIMER_INFO_TABLE) (k : nat) (x : Z * list gt_frame) (n : nat) (t : TIMER_INFO_TABLE) : Prop :=
  t_header t = with_num_timers (num_platform_timer (t_header t0) + Z.of_nat n) (t_header t0) /\
  length (gt_info t) = length (gt_info t0) /\ (forall j, j <> k -> gt_info t !! j = gt_info t0 !! j) /\
  exists b, gt_info t !! k = Some b /\ gt_type b = TIMER_TYPE_SYS_TIMER /\
    timer_count b = Z.of_nat (length (snd x)) /\ block_cntl_base b = fst x /\ holds_frames (snd x) n b.

Lemma gt_block_run t0 k a c fs b0 : gtdt_fields a (TBlock c fs) -> gt_info t0 !! k = Some b0 ->
  holds_frames fs 0 b0 -> (length fs <= 8)%nat -> 0 <= num_platform_timer (t_header t0) ->
  num_platform_timer (t_header t0) + Z.of_nat (length fs) < 2 ^ 32 ->
  wp (gt_block m k a) (fun _ t => fills t0 k (c, fs) (length fs) t) t0.
Proof.
  intros (_ & Hc & Hn & Hfs) Hb Hhold H8 Hnum Hsmall. unfold gt_block. rewrite Hc, Hn.
  assert (k < length (gt_info t0))%nat as Hk by (by apply list.lookup_lt_Some in Hb).
  apply wp_bind. eapply wp_mono with (P := fun _ t => fills t0 k (c, fs) 0 t).
  - intros [] t1 H1. unfold for_range. rewrite Z.sub_0_r, Nat2Z.id.
    eapply wp_mono; [|apply (wp_for_n (fun i t => 0 <= i /\ fills t0 k (c, fs) (Z.to_nat i) t)); [|by split]].
    { intros [] t (_ & H). by rewrite Z.add_0_l, Nat2Z.id in H. }
    intros i t Hi (Hi0 & Hh & Hl & Hother & b & Hbk & B1 & B2 & B3 & B4). cbn [fst snd] in *.
    destruct (list.lookup_lt_is_Some_2 fs (Z.to_nat i) ltac:(lia)) as [f Hf].
    unfold timer_frame. replace (Z.to_nat (i + 1)) with (S (Z.to_nat i)) by lia.
    specialize (Hfs _ f Hf). rewrite Z2Nat.id in Hfs by lia.
    destruct Hfs as (-> & -> & -> & -> & -> & F6 & F7 & F8). unfold frame_flags. rewrite F6, F7, F8.
    apply wp_bind. unfold on_block. apply wp_bind, wp_intro with t t; [done|]. rewrite Hbk. apply wp_bind, wp_ret.
    destruct (set_frame_run fs (Z.to_nat i) f b B4 Hf ltac:(lia)) as (b' & Hset & Hb' & E1 & E2 & E3).
    unfold flags_of in Hset. rewrite Hset. apply wp_bind, wp_ret, wp_modify. apply wp_modify.
    split; [lia|]. split; [|split; [cbn; by rewrite list.length_insert|split]].
    + cbn [t_header]. rewrite Hh. cbn [num_platform_timer with_num_timers]. unfold u32. rewrite wrap_small by lia. unfold with_num_timers. cbn.
      f_equal. lia.
    + intros j Hj. cbn. rewrite list.list_lookup_insert_ne by done. by apply Hother.
    + exists b'. cbn. rewrite list.list_lookup_insert_eq by lia. by rewrite E1, E2, E3.
  - unfold on_block. apply wp_bind, wp_intro with t0 t0; [done|]. rewrite Hb. do 2 apply wp_bind, wp_ret.
    apply wp_modify. split; [|split; [cbn; by rewrite list.length_insert|split]].
    + cbn. rewrite Z.add_0_r. by destruct (t_header t0).
    + intros j Hj. cbn. by rewrite list.list_lookup_insert_ne.
    + eexists. cbn. rewrite list.list_lookup_insert_eq by lia. split; [done|]. repeat (split; [done|]).
      destruct Hhold as [Hroom _]. split; [done|lia].
Qed.

Definition blocks_of (l : list gtdt_struct) : list (Z * list gt_frame) := omap block_of l.
Lemma frames_in_app l x : frames_in (l ++ [x]) = (frames_in l + length (snd x))%nat.
Proof. unfold frames_in. rewrite map_app, list_sum_app. cbn. lia. Qed.
Lemma frames_in_take l k : (frames_in (blocks_of (take k l)) <= frames_in (blocks_of l))%nat.
Proof.
  rewrite <- (take_drop k l) at 2. unfold blocks_of, frames_in. rewrite list.omap_app, map_app, list_sum_app. lia.
Qed.
Lemma blocks_of_take l k : (length (blocks_of (take k l)) <= length (blocks_of l))%nat.
Proof. rewrite <- (take_drop k l) at 2. unfold blocks_of. rewrite list.omap_app, length_app. lia. Qed.

(** The table after the first structures: their blocks, and the memory [t0] held. *)
Record timers_hold (h : TIMER_INFO_HDR) (t0 : TIMER_INFO_TABLE) (bs : list (Z * list gt_frame))
    (t : TIMER_INFO_TABLE) : Prop := {
  th_header : t_header t = with_num_timers (Z.of_nat (frames_in bs)) h;
  th_length : length (gt_info t) = length (gt_info t0);
  th_blocks k x : bs !! k = Some x -> exists b, gt_info t !! k = Some b /\ holds_block x b;
  th_rest k : (length bs <= k)%nat -> gt_info t !! k = gt_info t0 !! k
}.
Lemma gtdt_step_run h t0 l k x t : gtdt_encoded l -> l !! k = Some x ->
  Forall (fun b => holds_frames [] 0 b) (gt_info t0) ->
  (length (blocks_of l) <= length (gt_info t0))%nat ->
  Forall (fun x => (length (snd x) <= 8)%nat) (blocks_of l) -> Z.of_nat (frames_in (blocks_of l)) < 2 ^ 32 ->
  timers_hold h t0 (blocks_of (take k l)) t ->
  wp (gtdt_step m (Z.of_nat k) (gtdt + pos k, length (blocks_of (take k l)))) (fun r t' =>
    r = inl (gtdt + pos (S k), length (blocks_of (take (S k) l))) /\
    timers_hold h t0 (blocks_of (take (S k) l)) t') t.
Proof.
  intros He Hk Hraw Hroom H8 Hsmall Ht. pose proof (te_fields _ He k x Hk) as Hf. unfold gtdt_step, has_type.
  pose proof (te_next _ He k ltac:(by apply list.lookup_lt_Some in Hk)) as Hnext.
  assert (blocks_of (take (S k) l) = blocks_of (take k l) ++ match block_of x with Some y => [y] | None => [] end) as Hbs.
  { rewrite (list.take_S_r _ _ _ Hk). unfold blocks_of. rewrite list.omap_app. cbn. by destruct (block_of x). }
  rewrite Hbs. set (bs := blocks_of (take k l)) in *. destruct x as [c fs|]; cbn [block_of] in *.
  - pose proof Hf as (Htype & _). rewrite Htype, Z.eqb_refl.
    pose proof (frames_in_take l (S k)) as Hin. pose proof (blocks_of_take l (S k)) as Hlen.
    rewrite Hbs in Hin, Hlen. rewrite frames_in_app in Hin. rewrite length_app in Hlen. cbn in Hin, Hlen.
    destruct (list.lookup_lt_is_Some_2 (gt_info t0) (length bs) ltac:(lia)) as [b0 Hb0].
    assert (length fs <= 8)%nat as Hfs8.
    { apply (proj1 (list.Forall_lookup _ _) H8 (length bs) (c, fs)). rewrite <- (take_drop (S k) l). unfold blocks_of.
      rewrite list.omap_app. fold (blocks_of (take (S k) l)). rewrite Hbs, list.lookup_app_l by (rewrite length_app; cbn; lia).
      rewrite list.lookup_app_r by lia. by rewrite Nat.sub_diag. }
    destruct Ht as [Hh Hl Hblocks Hrest].
    apply wp_bind, wp_bind. eapply wp_mono; [|apply (gt_block_run t (length bs) _ c fs b0 Hf)].
    2:{ by rewrite Hrest. } 2:{ destruct (proj1 (list.Forall_lookup _ _) Hraw _ _ Hb0) as [Hr _]. split; [done|lia]. }
    2:{ done. } 2,3: rewrite Hh; cbn; lia.
    intros [] t1 (Hh1 & Hl1 & Hother & b & Hb & B1 & B2 & B3 & B4). do 2 apply wp_ret.
    rewrite Hnext, Z.add_assoc, length_app. cbn [length]. split; [by rewrite Nat.add_1_r|]. split.
    + rewrite Hh1, Hh, frames_in_app. cbn. unfold with_num_timers. cbn. f_equal. lia.
    + by rewrite Hl1.
    + intros j y Hj. destruct (decide (j = length bs)) as [->|Hne].
      * rewrite list.lookup_app_r, Nat.sub_diag in Hj by lia. injection Hj as <-. by exists b.
      * rewrite Hother by done. apply Hblocks. rewrite list.lookup_app_l in Hj; [done|].
        apply list.lookup_lt_Some in Hj. rewrite length_app in Hj. cbn in Hj. lia.
    + intros j Hj. rewrite length_app in Hj. cbn in Hj. rewrite Hother by lia. apply Hrest. lia.
  - cbn in Hf. replace (_ =? _) with false by lia. apply wp_bind, wp_ret, wp_ret. rewrite app_nil_r.
    by rewrite Hnext, Z.add_assoc.
Qed.

End gtdt.

(** ** Examples *)

Definition place_fields (a : Z) (l : list (acpi_field * Z)) : list (nat * Z * Z) :=
  map (fun '(f, v) => (fst (field_at f), a + snd (field_at f), v)) l.
Definition entry (a type len : Z) (l : list (acpi_field * Z)) : list (nat * Z * Z) :=
  place_fields a ((Entry_Type, type) :: (Entry_Length, len) :: l).
(** A distributor, two PEs of two clusters, a range of redistributors and an ITS. *)
Definition demo_madt : mem := fields (place_fields 0x1000 [(Header_Length, 264)] ++
  entry 0x102c 0xC 24 [(Gicd_PhysicalBaseAddress, 0x2F000000); (Gicd_GicVersion, 3)] ++
  entry 0x1044 0xB 80 [(Gic_PhysicalBaseAddress, 0); (Gic_GICRBaseAddress, 0); (Gic_GICH, 0x2C010000);
                       (Gic_MPIDR, 0x0); (Gic_PerformanceInterruptGsiv, 23)] ++
  entry 0x1094 0xB 80 [(Gic_PhysicalBaseAddress, 0); (Gic_GICRBaseAddress, 0); (Gic_GICH, 0);
                       (Gic_MPIDR, 0x10001); (Gic_PerformanceInterruptGsiv, 24)] ++
  entry 0x10e4 0xE 16 [(Gicr_DiscoveryRangeBaseAddress, 0x2F100000); (Gicr_DiscoveryRangeLength, 0x100000)] ++
  entry 0x10f4 0xF 20 [(Its_PhysicalBaseAddress, 0x2F020000); (Its_GicItsId, 7)]) ∅.
Definition demo_structs : list madt_struct :=
  [SGicd 0x2F000000 3; SGic 0 0 0x2C010000 0x0 23; SGic 0 0 0 0x10001 24;
   SGicr 0x2F100000 0x100000; SIts 0x2F020000 7].
Definition demo_places (k : nat) : Z := nth k [44; 68; 148; 228; 244; 264] 0.
Lemma demo_madt_encoded : madt_encoded demo_madt 0x1000 demo_places demo_structs.
Proof.
  split; try done.
  - apply (bool_decide_unpack _). by vm_compute.
  - intros [|[|[|[|[|k]]]]] Hk; cbn in Hk; try lia; by vm_compute.
  - intros [|[|[|[|[|k]]]]] Hk; cbn in Hk; try lia; split; by vm_compute.
  - intros [|[|[|[|[|k]]]]] x t [= <-] _; destruct t; split; intros H; vm_compute in H |- *; congruence.
  - intros [|[|[|[|[|k]]]]] x [= <-]; by vm_compute.
Qed.

Definition raw_entry : UGIC_ENTRY := mk_ugic 0 0 0 0 0 0 0.
Definition raw_gic : gic_mem := mk_gic_mem (mk_gic_hdr 9 9 9 9 0 9) (replicate 5 raw_entry) 3.
Lemma gic_info_from_madt_witness : exists s',
  pal_gic_create_info_table demo_madt 5 0x1000 raw_gic = Done tt s' /\
  base_of ENTRY_TYPE_GICD (gic_info (gic_view s')) = 0x2F000000 /\
  gicr_entry 0 0 (gic_info (gic_view s')) = (0x2F100000, 0x100000).
Proof.
  pose proof (gic_info_from_madt demo_madt 0x1000 demo_places demo_structs 5 raw_gic demo_madt_encoded
    ltac:(done) ltac:(cbn; lia) ltac:(cbn; lia) ltac:(lia) ltac:(cbn; lia) ltac:(cbn; lia)) as H.
  destruct (wp_done _ _ _ H) as ([] & s' & Hr & _ & _ & Hd & Hk). exists s'. split; [exact Hr|].
  split; [exact Hd|]. apply (Hk ltac:(repeat constructor) 0). lia.
Defined.

Definition demo_boot : BootServices unit :=
  {| AllocatePool _ w := (Some 0x2008, w); FreePool _ w := w; AllocatePages _ w := (None, w);
     FreePages _ _ w := w; CpuArch _ := false; SetMemoryAttributes _ _ w := (false, w);
     Stall _ w := w; EFI_PAGE_SIZE := 4096; EFI_SIZE_TO_PAGES n := (n + 4095) >> 12 |}.
Definition raw_pes : pe_mem unit := mk_pe_mem 9 (replicate 2 (mk_pe 0 0 0)) 0 0 0 ∅ tt.
Lemma pe_info_from_madt_witness : exists s',
  pal_pe_create_info_table (BS := demo_boot) demo_madt 16 5 0x1000 raw_pes = Done tt s' /\
  pe_info s' = [mk_pe 0 0x0 23; mk_pe 1 0x10001 24] /\
  exists sp, ModuleEntryPoint 0x10001 s' = Done sp s' /\ sp mod 16 = 0.
Proof.
  pose proof (pe_info_from_madt (BS := demo_boot) demo_madt 0x1000 demo_places 16 demo_structs 5 raw_pes 0x2008 tt
    demo_madt_encoded ltac:(done) ltac:(cbn; lia) ltac:(lia) ltac:(cbn; lia) ltac:(cbn; lia) ltac:(done) ltac:(lia)
    ltac:(vm_compute; done) ltac:(done) ltac:(done) ltac:(lia) ltac:(vm_compute; done)) as H.
  destruct (wp_done _ _ _ H) as ([] & s' & Hr & Ht & Hn & Hs). exists s'. split; [exact Hr|].
  assert (length (pe_info s') = 2)%nat as Hl.
  { vm_compute in Hr. injection Hr as <-. reflexivity. }
  split.
  - rewrite <- (List.firstn_all (pe_info s')), Hl. exact Ht.
  - destruct (Hs (mk_pe 1 0x10001 24)) as (sp & Hsp & H16 & _); [by right; left|].
    exists sp. by split.
Defined.

(** A GTDT with one block of two timers. *)
Definition demo_gtdt : mem := fields (place_fields 0x1000 [(Gtdt_VirtualTimerGSIV, 27);
    (Gtdt_PlatformTimerCount, 1); (Gtdt_PlatformTimerOffset, 96)] ++
  place_fields 0x1060 [(Entry_Type, 0); (Gtdt_Entry_Length, 100); (Block_CntCtlBase, 0x2A810000);
    (Block_GTBlockTimerCount, 2); (Block_GTBlockTimerOffset, 20)] ++
  place_fields 0x1074 [(Timer_GTFrameNumber, 0); (Timer_CntBaseX, 0x2A820000); (Timer_GTxPhysicalTimerGSIV, 57)] ++
  place_fields 0x109c [(Timer_GTFrameNumber, 1); (Timer_CntBaseX, 0x2A830000); (Timer_GTxPhysicalTimerGSIV, 58);
    (Timer_GTxCommonFlags, 1)]) ∅.
Definition demo_blocks : list gtdt_struct :=
  [TBlock 0x2A810000 [mk_gt_frame 0 0x2A820000 0 57 0 0 0 0; mk_gt_frame 1 0x2A830000 0 58 0 0 0 1]].
Definition gtdt_places (k : nat) : Z := nth k [96; 196] 0.
Lemma demo_gtdt_encoded : gtdt_encoded demo_gtdt 0x1000 gtdt_places demo_blocks.
Proof.
  split; [done|done| |].
  - intros [|k] Hk; cbn in Hk; try lia. by vm_compute.
  - intros [|k] x [= <-]. split; [by vm_compute|]. split; [by vm_compute|]. split; [by vm_compute|].
    intros [|[|i]] f [= <-]; by vm_compute.
Qed.
