(* ===== verification/UefiPci.v ===== *)
(** * UefiPci

    PCI functions as the firmware presents them to platform/pal_uefi: the search
    for a controller and its BAR (src/pal_pcie_enumeration.c), accesses to
    configuration space and to BARs (src/pal_pcie.c), and the table of the
    peripherals (src/pal_peripherals.c). The protocols of the firmware are a
    parameter. *)

From Stdlib Require Import ZArith Lia Bool List.
From stdpp Require Import base tactics numbers list option.
From S2P Require Import Prelude Memory Pcie Periph Acpi.
Local Open Scope Z_scope.

Definition PCIE_SUCCESS : Z := 0.
Definition PCIE_NO_MAPPING : Z := 0x10000001.
Definition NOT_IMPLEMENTED : Z := 0x4B1D.
Definition MEM_OFFSET_SMALL : Z := 0x10.
Definition BAR_MDT_SHIFT : Z := 1.
Definition BAR_MDT_MASK : Z := 0x3.
Definition BITS_64 : Z := 2.
Definition PCIE_CREATE_BDF (Seg Bus Dev Func : Z) : Z :=
  u32 ((((Seg << 24) .| (Bus << 16)) .| (Dev << 8)) .| Func).

(** The handles of the PCI I/O protocol (none: the look-up fails), whether the
    protocol of a handle can be had, its place (segment, bus, device, function),
    reads of words (none: an error) and writes; and the same for root bridges, by
    segment. [header_words] are the words of a configuration header; the largest
    numbers of a bus and a device are constants of the UEFI headers. *)
Class PciIo (W : Type) := {
  io_handles : W -> option nat;
  io_protocol : nat -> W -> bool;
  io_location : nat -> W -> Z * Z * Z * Z;
  io_read : nat -> Z -> nat -> W -> option (list Z) * W;
  io_write : nat -> Z -> Z -> W -> W;
  rb_handles : W -> option nat;
  rb_protocol : nat -> W -> bool;
  rb_segment : nat -> W -> Z;
  rb_read : nat -> Z -> W -> option Z * W;
  rb_write : nat -> Z -> Z -> W -> bool * W;
  header_words : nat;
  PCI_MAX_BUS : Z;
  PCI_MAX_DEVICE : Z
}.

(** [incrementBusDev]. *)
Definition incrementBusDev_max (max_device StartBdf : Z) : Z :=
  let Seg := PCIE_EXTRACT_BDF_SEG StartBdf in
  let Bus := PCIE_EXTRACT_BDF_BUS StartBdf in
  let Dev := PCIE_EXTRACT_BDF_DEV StartBdf in
  if negb (Dev =? max_device) then PCIE_CREATE_BDF Seg Bus (Dev + 1) 0
  else PCIE_CREATE_BDF Seg (Bus + 1) 0 0.

(** Fields of a header that was read into words. *)
Definition class_code_byte (k : Z) (PciHeader : list Z) : Z :=
  (default 0 (PciHeader !! 2%nat) >> (8 + 8 * k)) .& 0xFF.
Definition header_bar (i : Z) (PciHeader : list Z) : Z := default 0 (PciHeader !! Z.to_nat (4 + i)).
Definition class_matches (ClassCode : Z) (PciHeader : list Z) : bool :=
  (class_code_byte 2 PciHeader =? (ClassCode >> 16) .& 0xFF) &&
  (class_code_byte 1 PciHeader =? (ClassCode >> 8) .& 0xFF).

Section code.
Context {W : Type} {IO : PciIo W}.
Abbreviation PW := (M W).

Definition incrementBusDev : Z -> Z := incrementBusDev_max PCI_MAX_DEVICE.
Definition io (A : Type) (f : W -> A * W) : PW A := fun w => let '(a, w) := f w in Done a w.
Arguments io {A}.

(** One handle in the search of [palPcieGetBdf]. *)
Definition bdf_handle (ClassCode ThisBus ThisDev Index : Z) (_u : unit) : PW (unit + Z) :=
  let i := Z.to_nat Index in
  let! w := get in
  if negb (io_protocol i w) then ret (inl tt) else
  let '(Seg, Bus, Dev, Func) := io_location i w in
  if negb (ThisBus =? Bus) then ret (inl tt) else
  if negb (ThisDev =? Dev) then ret (inl tt) else
  let! r := io (io_read i 0 header_words) in
  ret (match r with
       | Some PciHeader =>
           if class_matches ClassCode PciHeader then inr (PCIE_CREATE_BDF Seg Bus Dev Func) else inl tt
       | None => inl tt
       end).
Definition bdf_device (ClassCode : Z) (HandleCount : nat) (ThisBus ThisDev : Z) (_u : unit)
    : PW (unit + Z) := for_acc HandleCount 0 tt (bdf_handle ClassCode ThisBus ThisDev).
Definition bdf_bus (ClassCode : Z) (HandleCount : nat) (InputDev ThisBus : Z) (_u : unit)
    : PW (unit + Z) :=
  for_acc (Z.to_nat (PCI_MAX_DEVICE + 1 - InputDev)) InputDev tt
    (bdf_device ClassCode HandleCount ThisBus).
(** Every bus is searched from the device number of the start on. *)
Definition palPcieGetBdf (ClassCode StartBdf : Z) : PW Z :=
  let! w := get in
  match io_handles w with
  | None => ret 0
  | Some HandleCount =>
      let InputBus := PCIE_EXTRACT_BDF_BUS StartBdf in
      let InputDev := PCIE_EXTRACT_BDF_DEV StartBdf in
      let! r := for_acc (Z.to_nat (PCI_MAX_BUS + 1 - InputBus)) InputBus tt
                  (bdf_bus ClassCode HandleCount InputDev) in
      ret (match r with inr bdf => bdf | inl _ => 0 end)
  end.
Definition pal_pcie_get_bdf_wrapper : Z -> Z -> PW Z := palPcieGetBdf.

(** The loop over the handles for those at the place of [bdf]. *)
Definition at_location {R} (bdf : Z) (body : nat -> PW (unit + R)) (Index : Z) (_u : unit)
    : PW (unit + R) :=
  let i := Z.to_nat Index in
  let! w := get in
  if negb (io_protocol i w) then ret (inl tt) else
  let '(Seg, Bus, Dev, Func) := io_location i w in
  if (Seg =? PCIE_EXTRACT_BDF_SEG bdf) && (Bus =? PCIE_EXTRACT_BDF_BUS bdf) &&
     (Dev =? PCIE_EXTRACT_BDF_DEV bdf) && (Func =? PCIE_EXTRACT_BDF_FUNC bdf)
  then body i else ret (inl tt).
Definition for_location {R} (none : R) (bdf : Z) (body : nat -> PW (unit + R)) : PW R :=
  let! w := get in
  match io_handles w with
  | None => ret none
  | Some HandleCount =>
      let! r := for_acc HandleCount 0 tt (at_location bdf body) in
      ret (match r with inr v => v | inl _ => none end)
  end.

Definition bar_value (bar_index : Z) (PciHeader : list Z) : Z :=
  let bar := header_bar bar_index PciHeader in
  if (bar >> BAR_MDT_SHIFT) .& BAR_MDT_MASK =? BITS_64
  then u64 (header_bar (bar_index + 1) PciHeader << 32) .| bar else bar.
Definition palPcieGetBase (bdf bar_index : Z) : PW Z :=
  for_location 0 bdf (fun i =>
    let! r := io (io_read i 0 header_words) in
    ret (match r with Some PciHeader => inr (bar_value bar_index PciHeader) | None => inl tt end)).

(** The status, and the word that was stored. *)
Definition pal_pcie_io_read_cfg (Bdf offset : Z) : PW (Z * option Z) :=
  for_location (PCIE_NO_MAPPING, None) Bdf (fun i =>
    let! d := io (io_read i offset 1) in
    ret (inr (match d with Some [v] => (0, Some v) | _ => (PCIE_NO_MAPPING, None) end))).
(** All handles at the place are written. *)
Definition pal_pcie_io_write_cfg (Bdf offset data : Z) : PW unit :=
  for_location tt Bdf (fun i => io (fun w => (tt, io_write i offset data w)) ;; ret (inl tt)).

Definition at_segment (bdf : Z) {R} (body : nat -> PW R) (Index : Z) (_u : unit) : PW (unit + R) :=
  let i := Z.to_nat Index in
  let! w := get in
  if rb_protocol i w && (rb_segment i w =? PCIE_EXTRACT_BDF_SEG bdf)
  then (let! r := body i in ret (inr r)) else ret (inl tt).
Definition pal_pcie_bar_mem_read (Bdf address : Z) : PW (Z * option Z) :=
  let! w := get in
  match rb_handles w with
  | None => ret (PCIE_NO_MAPPING, None)
  | Some HandleCount =>
      let! r := for_acc HandleCount 0 tt (at_segment Bdf (fun i =>
        let! d := io (rb_read i address) in
        ret (match d with Some v => (0, Some v) | None => (PCIE_NO_MAPPING, None) end))) in
      ret (match r with inr v => v | inl _ => (PCIE_NO_MAPPING, None) end)
  end.
Definition pal_pcie_bar_mem_write (Bdf address data : Z) : PW Z :=
  let! w := get in
  match rb_handles w with
  | None => ret PCIE_NO_MAPPING
  | Some HandleCount =>
      let! r := for_acc HandleCount 0 tt (at_segment Bdf (fun i =>
        let! good := io (rb_write i address data) in
        ret (if (good : bool) then 0 else PCIE_NO_MAPPING))) in
      ret (match r with inr v => v | inl _ => PCIE_NO_MAPPING end)
  end.

(** ** Peripherals *)

Definition PLATFORM_GENERIC_UART_BASE : Z := 0.
Definition PLATFORM_GENERIC_UART_INTID : Z := 0.

(** Stores through [per_info], at entry [i]. *)
Definition at_entry (i : nat) (f : PERIPHERAL_INFO_BLOCK -> PERIPHERAL_INFO_BLOCK)
    (l : list PERIPHERAL_INFO_BLOCK) : PW (list PERIPHERAL_INFO_BLOCK) :=
  require (i <? length l)%nat ;; ret (alter f i l).
(** One turn of a search: the next start, the controllers found, and the table. *)
Definition controller_step (ClassCode type : Z) (first : nat)
    (x : Z * nat * list PERIPHERAL_INFO_BLOCK)
    : PW (Z * nat * list PERIPHERAL_INFO_BLOCK + nat * list PERIPHERAL_INFO_BLOCK) :=
  let '(StartBdf, found, l) := x in
  let! DeviceBdf := palPcieGetBdf ClassCode StartBdf in
  if negb (DeviceBdf =? 0) then
    let! base := palPcieGetBase DeviceBdf 0 in
    let! l := at_entry (first + found) (set_controller type DeviceBdf base) l in
    ret (inl (incrementBusDev DeviceBdf, S found, l))
  else ret (inr (found, l)).
Definition find_controllers (fuel : nat) (ClassCode type : Z) (first : nat)
    (l : list PERIPHERAL_INFO_BLOCK) : PW (nat * list PERIPHERAL_INFO_BLOCK) :=
  loop fuel (controller_step ClassCode type first) (0, 0%nat, l).

Definition add_uart (present : bool) (base irq : Z) (x : nat * list PERIPHERAL_INFO_BLOCK)
    : PW (nat * list PERIPHERAL_INFO_BLOCK) :=
  if present then
    let! l := at_entry (fst x) (set_uart base irq) (snd x) in ret (S (fst x), l)
  else ret x.

(** The table (not [NULL]) from the functions and the SPCR table at [spcr]; the
    count of all controllers is left as it was. *)
Definition pal_peripheral_create_info_table {A : Acpi} (m : mem) (fuel : nat) (spcr : Z)
    (t : PERIPHERAL_INFO_TABLE) : PW PERIPHERAL_INFO_TABLE :=
  let! '(usb, l) := find_controllers fuel USB_CLASSCODE PERIPHERAL_TYPE_USB 0 (info t) in
  let! '(sata, l) := find_controllers fuel SATA_CLASSCODE PERIPHERAL_TYPE_SATA usb l in
  let n := (usb + sata)%nat in
  let! x := add_uart (truthy spcr) (field m Spcr_BaseAddress spcr)
              (field m Spcr_GlobalSystemInterrupt spcr) (n, l) in
  let! x := add_uart (truthy PLATFORM_GENERIC_UART_BASE) PLATFORM_GENERIC_UART_BASE
              PLATFORM_GENERIC_UART_INTID x in
  let! l := at_entry (fst x) (set_type END_OF_TABLE) (snd x) in
  ret (mk_per_table (u32 (Z.of_nat usb)) (u32 (Z.of_nat sata)) (Z.of_nat (fst x - n)) (num_all t) l).
End code.

(** ** What the platform says of a function *)

Definition pal_pcie_p2p_support (g_pcie_p2p : bool) : Z := if g_pcie_p2p then 0 else NOT_IMPLEMENTED.
Definition pal_pcie_dev_p2p_support : Z := 1.
Definition pal_get_msi_vectors : Z := 0.
Definition pal_pcie_get_legacy_irq_map : Z := NOT_IMPLEMENTED.
Definition pal_pcie_get_root_port_bdf : Z := 0.
Definition pal_pcie_is_cache_present (g_pcie_cache_present : bool) : Z :=
  if g_pcie_cache_present then 1 else NOT_IMPLEMENTED.
Definition pal_pcie_get_rp_transaction_frwd_support : Z := 1.
Definition pal_pcie_is_onchip_peripheral : Z := 0.
Definition pal_pcie_check_device_list : Z := 0.
Definition pal_pcie_mem_get_offset : Z := MEM_OFFSET_SMALL.
Definition pal_pcie_check_device_valid : Z := 0.
