(* ===== verification/UefiExerciser.v ===== *)
(** * UefiExerciser

    The stimulus generator behind platform/pal_uefi/src/pal_exerciser.c: its
    registers in the first BAR, and its capabilities in configuration space. The
    constants and types are those of [Exerciser]. *)

From Stdlib Require Import ZArith Lia Bool List.
From stdpp Require Import base tactics numbers list gmap option.
From S2P Require Import Prelude Memory El3State Pcie Exerciser UefiMem UefiPci.
Local Open Scope Z_scope.

Definition TXN_TRACE : Z := 0x40.
Definition TXN_CTRL_BASE : Z := 0x44.
Definition TXN_INVALID : Z := 0xFFFFFFFF.
Definition TXN_START : Z := 1.
Definition TXN_STOP : Z := 0.
Definition CFG_READ : Z := 0x0.
Definition CFG_WRITE : Z := 0x1.
Definition PCI_MAX_DEVICE_31 : Z := 31.

(** The functions that the firmware presents, and the devices. *)
Record ux (W D : Type) := mk_ux { ux_world : W; ux_dev : D }.
Arguments mk_ux {W D}. Arguments ux_world {W D}. Arguments ux_dev {W D}.
Abbreviation UX W D := (M (ux W D)).

Definition pal_increment_bus_dev (Bdf : Z) : Z := incrementBusDev_max PCI_MAX_DEVICE_31 Bdf.
Definition pal_exerciser_get_pcie_config_offset (Bdf : Z) : Z :=
  u32 (PCIE_EXTRACT_BDF_BUS Bdf * 32 * 8 * 4096 + PCIE_EXTRACT_BDF_DEV Bdf * 8 * 4096 +
       PCIE_EXTRACT_BDF_FUNC Bdf * 4096).

Section code.
Context {W D : Type} {IO : PciIo W} {HW : Hw D}.
(** [pal_pcie_get_mcfg_ecam], the first configuration space of the MCFG. *)
Variable Ecam : Z.

Definition on_pci {A} (c : M W A) : UX W D A := zoom ux_world (fun w s => mk_ux w (ux_dev s)) c.
Definition on_dev {A} (c : M D A) : UX W D A := zoom ux_dev (fun d s => mk_ux (ux_world s) d) c.
Definition rd (base offset : Z) : UX W D Z := on_dev (pal_mmio_read (u64 (base + offset))).
Definition wr (base offset v : Z) : UX W D unit := on_dev (pal_mmio_write (u64 (base + offset)) v).
Definition update (base offset : Z) (f : Z -> Z) : UX W D unit :=
  let! v := rd base offset in wr base offset (f v).
Definition cfg (Bdf : Z) : Z := u64 (Ecam + pal_exerciser_get_pcie_config_offset Bdf).

Definition pal_exerciser_get_ecsr_base (Bdf BarIndex : Z) : UX W D Z := on_pci (palPcieGetBase Bdf BarIndex).

(** ** Capabilities *)

(** In the search for the DVSEC that injects errors, the next pointer is taken from
    the word read last: from the control register, when that was read. *)
Definition error_step (Bdf NxtPtr : Z) : UX W D (Z + option Z) :=
  if NxtPtr =? 0 then ret (inr None) else
  let! Data := rd (cfg Bdf) NxtPtr in
  if Data .& PCIE_CAP_ID_MASK =? DVSEC then
    let! Data := rd (cfg Bdf) (NxtPtr + DVSEC_CTRL) in
    if Data .& PCIE_CAP_ID_MASK =? 0x1 then ret (inr (Some NxtPtr))
    else ret (inl ((Data >> PCIE_CAP_PTR_OFFSET) .& PCIE_NXT_CAP_PTR_MASK))
  else ret (inl ((Data >> PCIE_CAP_PTR_OFFSET) .& PCIE_NXT_CAP_PTR_MASK)).
(** The status, and what is stored through [Offset]. *)
Definition pal_exerciser_find_error_injection_capability (fuel : nat) (Bdf : Z) : UX W D (Z * option Z) :=
  let! r := loop fuel (error_step Bdf) PCIE_CAP_OFFSET in
  ret (match r with Some o => (0, Some o) | None => (1, None) end).

Definition find_step (ID Bdf IdMask PtrOffset PtrMask NxtPtr : Z) : UX W D (Z + option Z) :=
  if NxtPtr =? 0 then ret (inr None) else
  let! Data := rd (cfg Bdf) NxtPtr in
  if Data .& IdMask =? ID then ret (inr (Some NxtPtr))
  else ret (inl ((Data >> PtrOffset) .& PtrMask)).
Definition pal_exerciser_find_pcie_capability (fuel : nat) (ID Bdf Value : Z) : UX W D (Z * option Z) :=
  let! r :=
    (if Value =? 1 then
       loop fuel (find_step ID Bdf PCIE_CAP_ID_MASK PCIE_CAP_PTR_OFFSET PCIE_NXT_CAP_PTR_MASK)
         PCIE_CAP_OFFSET
     else
       let! v := rd (cfg Bdf) CAP_PTR_OFFSET in
       loop fuel (find_step ID Bdf PCI_CAP_ID_MASK PCI_CAP_PTR_OFFSET PCI_NXT_CAP_PTR_MASK)
         (v .& CAP_PTR_MASK)) in
  ret (match r with Some o => (0, Some o) | None => (1, None) end).

(** ** Parameters *)

(** The case of the address type, which the one before it falls into. *)
Definition set_address_type (Base Value2 : Z) : UX W D Z :=
  let change Data := update Base DMACTL1 (fun v => v .| (Data << 10)) in
  (if Value2 =? AT_UNTRANSLATED then change 0x1
   else if Value2 =? AT_TRANSLATED then change 0x2
   else if Value2 =? AT_RESERVED then change 0x3
   else ret tt) ;;
  ret 0.
Definition set_txn_attribute (Base Value1 Value2 : Z) : UX W D Z :=
  if Value1 =? TXN_REQ_ID then
    wr Base RID_CTL_REG (u32 ((Value2 .& RID_VALUE_MASK) .| RID_VALID_MASK)) ;; ret 0
  else if Value1 =? TXN_REQ_ID_VALID then
    if Value2 =? RID_VALID then
      update Base RID_CTL_REG (fun Data => u32 (Data .| RID_VALID_MASK)) ;; ret 0
    else if Value2 =? RID_NOT_VALID then wr Base RID_CTL_REG 0 ;; ret 0
    else set_address_type Base Value2
  else if Value1 =? TXN_ADDR_TYPE then set_address_type Base Value2
  else ret 1.

Definition pal_exerciser_set_param (fuel : nat) (Type_ : EXERCISER_PARAM_TYPE) (Value1 Value2 Bdf : Z)
    : UX W D Z :=
  let! Base := pal_exerciser_get_ecsr_base Bdf 0 in
  match Type_ with
  | SNOOP_ATTRIBUTES | LEGACY_IRQ | P2P_ATTRIBUTES | MSIX_ATTRIBUTES => ret 0
  | DMA_ATTRIBUTES => wr Base DMA_BUS_ADDR (u32 Value1) ;; wr Base DMA_LEN (u32 Value2) ;; ret 0
  | PASID_ATTRIBUTES =>
      update Base DMACTL1 (fun Data =>
        u32 ((Data .& bnot 64 (PASID_LEN_MASK << PASID_LEN_SHIFT)) .|
             ((u64 (Value1 - 16) .& PASID_LEN_MASK) << PASID_LEN_SHIFT))) ;;
      ret 0
  | CFG_TXN_ATTRIBUTES => set_txn_attribute Base Value1 Value2
  | ERROR_INJECT_TYPE =>
      let! '(_r, o) := pal_exerciser_find_error_injection_capability fuel Bdf in
      let reg := default 0 o + DVSEC_CTRL in
      let! _Data := rd (cfg Bdf) reg in
      wr (cfg Bdf) reg (u32 (u64 (Value1 << ERR_CODE_SHIFT) .| u64 (Value2 << FATAL_SHIFT))) ;;
      ret (if Value1 <=? 0x7 then 2 else 3)
  | _ => ret 1
  end.

(** The status and what is stored through [Value1] and [Value2]. The four kinds of
    trace words take five words from the trace, after one that says it is valid. *)
Definition trace_param (Type_ : EXERCISER_PARAM_TYPE) (Base : Z) : UX W D (Z * option Z * option Z) :=
  let! tx_attr := rd Base TXN_TRACE in
  if tx_attr =? TXN_INVALID then ret (1, None, None) else
  let! addr_low := rd Base TXN_TRACE in
  let! addr_high := rd Base TXN_TRACE in
  let! data_low := rd Base TXN_TRACE in
  let! data_high := rd Base TXN_TRACE in
  ret (match Type_ with
       | CFG_TXN_ATTRIBUTES => (0, Some (tx_attr .& MASK_BIT), None)
       | TRANSACTION_TYPE => (0, None, Some (if truthy (tx_attr .& 0x2) then CFG_READ else CFG_WRITE))
       | ADDRESS_ATTRIBUTES => (0, Some (addr_low .| (addr_high << 32)), None)
       | _ => (0, Some (data_low .| (data_high << 32)), None)
       end).
Definition pal_exerciser_get_param (Type_ : EXERCISER_PARAM_TYPE) (Bdf : Z)
    : UX W D (Z * option Z * option Z) :=
  let! Base := pal_exerciser_get_ecsr_base Bdf 0 in
  match Type_ with
  | SNOOP_ATTRIBUTES | P2P_ATTRIBUTES => ret (0, None, None)
  | LEGACY_IRQ =>
      let! v := rd Base INTXCTL in
      let! s := rd Base INTXCTL in ret (s .| MASK_BIT, Some v, None)
  | DMA_ATTRIBUTES =>
      let! v1 := rd Base DMA_BUS_ADDR in
      let! v2 := rd Base DMA_LEN in
      let! Temp := rd Base DMASTATUS in ret (Temp .& MASK_BIT, Some v1, Some v2)
  | PASID_ATTRIBUTES =>
      let! v := rd Base DMACTL1 in
      ret (0, Some (((v >> PASID_LEN_SHIFT) .& PASID_LEN_MASK) + 16), None)
  | MSIX_ATTRIBUTES =>
      let! v := rd Base MSICTL in
      let! s := rd Base MSICTL in ret (s .| MASK_BIT, Some v, None)
  | ATS_RES_ATTRIBUTES => let! v := rd Base ATS_ADDR in ret (0, Some v, None)
  | CFG_TXN_ATTRIBUTES | TRANSACTION_TYPE | ADDRESS_ATTRIBUTES | DATA_ATTRIBUTES => trace_param Type_ Base
  | _ => ret (1, None, None)
  end.

(** ** Operations *)

Definition pal_exerciser_start_dma_direction (Base Direction : Z) : UX W D Z :=
  (when Direction =? EDMA_TO_DEVICE then
     update Base DMACTL1 (fun v => v .& DMA_TO_DEVICE_MASK)) ;;
  (when Direction =? EDMA_FROM_DEVICE then
     update Base DMACTL1 (fun v => v .| (MASK_BIT << SHIFT_4BIT))) ;;
  update Base DMACTL1 (fun v => v .| MASK_BIT) ;;
  let! v := rd Base DMASTATUS in
  ret (v .& ((MASK_BIT << 1) .| MASK_BIT)).
Definition pasid_control (fuel : nat) (Bdf : Z) (f : Z -> Z) : UX W D Z :=
  let! '(r, o) := pal_exerciser_find_pcie_capability fuel PASID Bdf PCIE in
  if r =? 0 then
    update (cfg Bdf) (default 0 o + PCIE_CAP_CTRL_OFFSET) f ;; ret 0
  else ret 1.

Definition pal_exerciser_ops (fuel : nat) (Ops : EXERCISER_OPS) (Param Bdf : Z) : UX W D Z :=
  let! Base := pal_exerciser_get_ecsr_base Bdf 0 in
  match Ops with
  | START_DMA =>
      if (Param =? EDMA_NO_SUPPORT) || (Param =? EDMA_COHERENT) || (Param =? EDMA_NOT_COHERENT)
      then ret 0
      else if (Param =? EDMA_FROM_DEVICE) || (Param =? EDMA_TO_DEVICE)
      then pal_exerciser_start_dma_direction Base Param
      else ret 1
  | GENERATE_MSI => update Base MSICTL (fun v => u32 (v .| MSI_GENERATION_MASK .| Param)) ;; ret 0
  | GENERATE_L_INTR => update Base INTXCTL (fun v => v .| MASK_BIT) ;; ret 0
  | MEM_READ | MEM_WRITE => ret 0
  | CLEAR_INTR => update Base INTXCTL (fun v => v .& CLR_INTR_MASK) ;; ret 0
  | PASID_TLP_START =>
      update Base DMACTL1 (fun v => v .| (MASK_BIT << PASID_EN_SHIFT)) ;;
      wr Base PASID_VAL (Param .& PASID_VAL_MASK) ;;
      pasid_control fuel Bdf (fun v => v .| PCIE_CAP_EN_MASK)
  | PASID_TLP_STOP =>
      update Base DMACTL1 (fun v => v .& PASID_TLP_STOP_MASK) ;;
      pasid_control fuel Bdf (fun v => v .& PCIE_CAP_DIS_MASK)
  | TXN_NO_SNOOP_ENABLE => update Base DMACTL1 (fun v => v .| NO_SNOOP_START_MASK) ;; ret 0
  | TXN_NO_SNOOP_DISABLE => update Base DMACTL1 (fun v => v .& NO_SNOOP_STOP_MASK) ;; ret 0
  | ATS_TXN_REQ =>
      wr Base DMA_BUS_ADDR (u32 Param) ;;
      wr Base ATSCTL ATS_TRIGGER ;;
      let! v := rd Base ATSCTL in
      ret (if truthy (v .& ATS_STATUS) then 0 else 1)
  | START_TXN_MONITOR => wr Base TXN_CTRL_BASE TXN_START ;; ret 0
  | STOP_TXN_MONITOR => wr Base TXN_CTRL_BASE TXN_STOP ;; ret 0
  | INJECT_ERROR =>
      let! '(_r, o) := pal_exerciser_find_error_injection_capability fuel Bdf in
      update (cfg Bdf) (default 0 o + DVSEC_CTRL) (fun data => data .| (1 << ERROR_INJECT_BIT)) ;;
      ret (u32 Param)
  end.

(** ** Data *)

Definition bar_type (bar : Z) : BAR_MEM_TYPE :=
  if ((bar >> PREFETCHABLE_BIT_SHIFT) .& MASK_BIT) =? 0x1 then MMIO_PREFETCHABLE
  else MMIO_NON_PREFETCHABLE.
Definition offset_table : list Z := [0x00; 0x08; 0x00; 0x08; 0x00; 0x08; 0x00; 0x08; 0x00; 0x08].
Fixpoint read_cfg_space (EcamBase Bdf : Z) (offsets : list Z) : UX W D (list ecam_reg_data) :=
  match offsets with
  | [] => ret []
  | o :: offsets' =>
      let! v := rd EcamBase o in
      let! l := read_cfg_space EcamBase Bdf offsets' in
      ret (mk_reg_data (u32 (o + pal_exerciser_get_pcie_config_offset Bdf)) ACCESS_TYPE_RD v :: l)
  end.
(** One turn of the search for a memory BAR. The number of the BAR is multiplied by
    four: behind BAR 1 the header is read out of its six BARs, which is undefined
    here. *)
Definition mmio_step (Bdf Index : Z) : UX W D (Z + option Z) :=
  if Index <? 6 then
    require (Index * 4 <? 6) ;;
    let! EcamBAR := pal_exerciser_get_ecsr_base Bdf (Index * 4) in
    if (EcamBAR >> BAR_MIT_SHIFT) .& BAR_MIT_MASK =? MMIO then ret (inr (Some EcamBAR))
    else
      let Index := if (EcamBAR >> BAR_MDT_SHIFT) .& BAR_MDT_MASK =? BITS_64 then Index + 1
                   else Index in
      ret (inl (Index + 1))
  else ret (inr None).
Definition pal_exerciser_get_data (Type_ : EXERCISER_DATA_TYPE) (Bdf Ecam' : Z)
    : UX W D (Z * exerciser_data_t) :=
  let EcamBase := u64 (Ecam' + pal_exerciser_get_pcie_config_offset Bdf) in
  match Type_ with
  | EXERCISER_DATA_CFG_SPACE =>
      let! l := read_cfg_space EcamBase Bdf offset_table in ret (0, cfg_space l)
  | EXERCISER_DATA_BAR0_SPACE =>
      let! EcamBAR0 := pal_exerciser_get_ecsr_base Bdf 0 in
      let! bar := pal_exerciser_get_ecsr_base Bdf 0 in
      ret (0, bar_space EcamBAR0 (Some (bar_type bar)))
  | EXERCISER_DATA_MMIO_SPACE =>
      let! r := loop 7 (mmio_step Bdf) 0 in
      ret (match r with
           | Some bar => (0, bar_space bar (Some (bar_type bar)))
           | None => (1, bar_space 0 None)
           end)
  end.

Definition pal_exerciser_set_state (_State _Value _Instance : Z) : Z := 0.
Definition pal_exerciser_get_state (_Bdf : Z) : Z * Z := (0, EXERCISER_ON).
Definition pal_is_bdf_exerciser (bdf : Z) : UX W D Z :=
  let! vendor_dev_id := rd (cfg bdf) 0 in
  ret (if vendor_dev_id =? EXERCISER_ID then 1 else 0).
End code.
