(* ===== verification/UefiSpec.v ===== *)
(** * UefiSpec

    Properties of [UefiMem] and [UefiPci]: aligned memory, the counters kept over a
    reset, and the search for a controller among the functions that the firmware
    presents. *)

From Stdlib Require Import ZArith Lia Bool List.
From stdpp Require Import base tactics numbers list gmap option.
From S2P Require Import Prelude Memory Pcie Periph El3State Acpi UefiMem UefiPci UefiExerciser.
Local Open Scope Z_scope.

(** ** Memory *)

Section memory.
Context {W : Type} {BS : BootServices W}.
Implicit Types s : uefi W.

Lemma align_up k x : 0 <= k < 32 -> 0 <= x -> x + 2 ^ k < 2 ^ 64 ->
  let a := u64 (u64 (x + 2 ^ k) - 1) .& align_mask (2 ^ k) in
  a mod 2 ^ k = 0 /\ x <= a < x + 2 ^ k.
Proof.
  intros Hk Hx Hb. cbv zeta. pose proof (Z.pow_pos_nonneg 2 k ltac:(lia) ltac:(lia)) as Hp.
  pose proof (Z.pow_lt_mono_r 2 k 32 ltac:(lia) ltac:(lia) ltac:(lia)) as H32.
  unfold align_mask, u64, u32. rewrite (wrap_small 64 (x + 2 ^ k)), !wrap_small by lia. set (y := x + 2 ^ k - 1).
  replace (y .& bnot 64 (2 ^ k - 1)) with (y - y mod 2 ^ k).
  - pose proof (Z.mod_pos_bound y (2 ^ k) Hp). split; [|lia]. pose proof (Z.div_mod y (2 ^ k) ltac:(lia)).
    replace (y - y mod 2 ^ k) with (y / 2 ^ k * 2 ^ k) by lia. by apply Z.mod_mul; lia.
  - pose proof (Z.div_mod y (2 ^ k) ltac:(lia)) as Hd. replace (y - y mod 2 ^ k) with ((y >> k) << k)
      by (rewrite Z.shiftl_mul_pow2, Z.shiftr_div_pow2 by lia; lia).
    replace (2 ^ k - 1) with (Z.ones k) by (rewrite Z.ones_equiv; lia). apply Z.bits_inj'. intros n Hn.
    rewrite testbit_shiftl by done. unfold bnot. rewrite Z.land_spec, testbit_wrap, Z.lnot_spec by lia.
    rewrite Z.testbit_ones_nonneg by lia. destruct (Z.ltb_spec n k) as [H|H].
    + rewrite Z.testbit_neg_r by lia. by destruct (n <? 64), (Z.testbit y n).
    + rewrite testbit_shiftr by lia. replace (n - k + k) with n by lia. destruct (Z.ltb_spec n 64) as [H6|H6]; cbn.
      * by rewrite andb_true_r.
      * by rewrite (testbit_high 64 y n) by lia.
Qed.

(** An aligned allocation, when the pool gives the memory and nothing wraps:
    the address is a multiple of the alignment, and the [size] bytes from it lie in
    the memory that the pool gave. *)
Theorem aligned_alloc_inside k size s Buffer w :
  0 <= k < 32 -> 0 <= size -> size + 2 ^ k < 2 ^ 32 ->
  AllocatePool (size + 2 ^ k) (ue_world s) = (Some Buffer, w) ->
  0 < Buffer -> Buffer + (size + 2 ^ k) < 2 ^ 64 ->
  wp (pal_aligned_alloc (2 ^ k) size) (fun a s' => a mod 2 ^ k = 0 /\
    Buffer <= a /\ a + size <= Buffer + (size + 2 ^ k) /\ ue_mem s' = ue_mem s) s.
Proof.
  intros Hk Hs Hsz Ha Hb Htop. pose proof (Z.pow_pos_nonneg 2 k ltac:(lia) ltac:(lia)) as Hp.
  destruct (align_up k Buffer Hk ltac:(lia) ltac:(lia)) as (Hmod & Hr).
  eapply wp_intro; [|split; [exact Hmod|split; [apply Hr|split; [lia|]]]].
  - unfold pal_aligned_alloc, pal_mem_alloc, boot, bind, u32. rewrite wrap_small, Ha by lia. cbn.
    replace (Buffer =? 0) with false by lia. reflexivity.
  - done.
Qed.

(** The counters of the tests that are saved before a reset are the ones
    restored after it. *)
Theorem test_data_roundtrip nvm total pass fail s :
  0 <= total < 2 ^ 32 -> 0 <= pass < 2 ^ 32 -> 0 <= fail < 2 ^ 32 ->
  wp (pal_save_global_test_data nvm total pass fail ;; pal_restore_global_test_data nvm)
    (fun r s' => r = (total, pass, fail)) s.
Proof.
  intros Ht Hp Hf. eapply wp_intro; [reflexivity|]. cbn [ue_mem]. set (a := u64 _).
  assert (forall m x v y, disjoint_rng x 4 y 4 -> load32 (store32 m x v) y = load32 m y) as Hne by (intros; by apply load_store_ne).
  rewrite !(Hne _ (a + 8)), (Hne _ (a + 4)) by (unfold disjoint_rng; lia).
  by rewrite !load_store_eq' by (cbn; lia).
Qed.
End memory.

(** ** The search for a controller *)

(** A function: where it is, and its header. *)
Record pci_fn := mk_fn { f_seg : Z; f_bus : Z; f_dev : Z; f_func : Z; f_header : list Z }.
Definition bdf_of (f : pci_fn) : Z := PCIE_CREATE_BDF (f_seg f) (f_bus f) (f_dev f) (f_func f).

Section search.
Context {W : Type} {IO : PciIo W}.

(** The handles of the firmware are those of [fns], which reads do not change. *)
Record presents (fns : list pci_fn) (w : W) : Prop := {
  pr_handles : io_handles w = Some (length fns);
  pr_protocol i f : fns !! i = Some f -> io_protocol i w = true;
  pr_location i f : fns !! i = Some f -> io_location i w = (f_seg f, f_bus f, f_dev f, f_func f);
  pr_read i f : fns !! i = Some f -> io_read i 0 header_words w = (Some (f_header f), w)
}.

Section fns.
Variables (fns : list pci_fn) (ClassCode : Z) (w : W).
Hypothesis Hw : presents fns w.

(** Handle [i] is a function of the class on bus [b], at device [d]. *)
Definition hit (b d : Z) (i : nat) : Prop :=
  exists f, fns !! i = Some f /\ f_bus f = b /\ f_dev f = d /\ class_matches ClassCode (f_header f) = true.
Definition hit_bdf (b d : Z) (i : nat) (v : Z) : Prop :=
  exists f, fns !! i = Some f /\ f_bus f = b /\ f_dev f = d /\ class_matches ClassCode (f_header f) = true /\
    v = bdf_of f.

Lemma handle_run b d i u : (i < length fns)%nat ->
  wp (bdf_handle ClassCode b d (Z.of_nat i) u) (fun r w' => w' = w /\
    match r with inl _ => ~ hit b d i | inr v => hit_bdf b d i v end) w.
Proof.
  intros Hi. destruct (list.lookup_lt_is_Some_2 fns i Hi) as [f Hf]. unfold bdf_handle.
  apply wp_bind, wp_intro with w w; [done|]. rewrite Nat2Z.id, (pr_protocol _ _ Hw i f Hf), (pr_location _ _ Hw i f Hf).
  cbn [negb]. destruct (Z.eqb_spec b (f_bus f)) as [->|Hb]; cbn [negb].
  2:{ apply wp_ret. split; [done|]. intros (g & Hg & H1 & _). rewrite Hf in Hg. injection Hg as <-. done. }
  destruct (Z.eqb_spec d (f_dev f)) as [->|Hd]; cbn [negb].
  2:{ apply wp_ret. split; [done|]. intros (g & Hg & _ & H1 & _). rewrite Hf in Hg. injection Hg as <-. done. }
  apply wp_bind. apply wp_intro with (Some (f_header f)) w; [unfold io; by rewrite (pr_read _ _ Hw i f Hf)|].
  apply wp_ret. destruct (class_matches ClassCode (f_header f)) eqn:Hc; (split; [done|]).
  - by exists f.
  - intros (g & Hg & _ & _ & H1). rewrite Hf in Hg. injection Hg as <-. by rewrite Hc in H1.
Qed.
Lemma device_run b d u :
  wp (bdf_device ClassCode (length fns) b d u) (fun r w' => w' = w /\
    match r with
    | inl _ => forall i, ~ hit b d i
    | inr v => exists i, hit_bdf b d i v /\ forall j, (j < i)%nat -> ~ hit b d j
    end) w.
Proof.
  unfold bdf_device. eapply wp_mono; [|apply (wp_for_acc (fun i _ w' => 0 <= i /\ w' = w /\ forall j, Z.of_nat j < i -> ~ hit b d j)
    (fun v w' => w' = w /\ exists i, hit_bdf b d i v /\ forall j, (j < i)%nat -> ~ hit b d j))].
  - intros [x|v] w' H; [|done]. destruct H as (_ & -> & H). split; [done|]. intros i (f & Hf & Hr).
    apply (H i); [|by exists f]. apply list.lookup_lt_Some in Hf. lia.
  - intros i x w' Hi (Hi0 & -> & Hno). rewrite <- (Z2Nat.id i Hi0) at 1.
    eapply wp_mono; [|apply (handle_run b d (Z.to_nat i)); lia]. intros [y|v] w' (-> & H).
    + split; [lia|]. split; [done|]. intros j Hj. destruct (decide (j = Z.to_nat i)) as [->|Hne]; [done|]. apply Hno. lia.
    + split; [done|]. exists (Z.to_nat i). split; [done|]. intros j Hj. apply Hno. lia.
  - split; [lia|]. split; [done|]. intros j Hj. lia.
Qed.

Lemma bus_run InputDev b u : InputDev <= PCI_MAX_DEVICE + 1 ->
  wp (bdf_bus ClassCode (length fns) InputDev b u) (fun r w' => w' = w /\
    match r with
    | inl _ => forall d i, InputDev <= d <= PCI_MAX_DEVICE -> ~ hit b d i
    | inr v => exists d i, InputDev <= d <= PCI_MAX_DEVICE /\ hit_bdf b d i v /\
        (forall j, (j < i)%nat -> ~ hit b d j) /\ forall d' j, InputDev <= d' < d -> ~ hit b d' j
    end) w.
Proof.
  intros Hd. unfold bdf_bus.
  eapply wp_mono; [|apply (wp_for_acc (fun d _ w' => w' = w /\ forall d' j, InputDev <= d' < d -> ~ hit b d' j)
    (fun v w' => w' = w /\ exists d i, InputDev <= d <= PCI_MAX_DEVICE /\ hit_bdf b d i v /\
        (forall j, (j < i)%nat -> ~ hit b d j) /\ forall d' j, InputDev <= d' < d -> ~ hit b d' j))].
  - intros [x|v] w' H; [|done]. destruct H as (-> & H). split; [done|]. intros d i Hdi. apply H. lia.
  - intros d x w' Hdi (-> & Hno). eapply wp_mono; [|apply device_run]. intros [y|v] w' (-> & H).
    + split; [done|]. intros d' j Hd'. destruct (decide (d' = d)) as [->|Hne]; [done|]. apply Hno. lia.
    + destruct H as (i & Hi & Hj). split; [done|]. exists d, i. split; [lia|done].
  - split; [done|]. intros d' j Hd'. lia.
Qed.
End fns.

(** C25. The search for a controller, on functions that stay as they are: it gives
    the first function of the class in the order of buses, devices and handles,
    among those whose bus and whose device number are not below the start's; 0
    when there is none. Devices below the start's device number are skipped on
    every bus, not only on the first. *)
Theorem controller_search_first fns ClassCode StartBdf w :
  let B := PCIE_EXTRACT_BDF_BUS StartBdf in
  let D := PCIE_EXTRACT_BDF_DEV StartBdf in
  presents fns w -> B <= PCI_MAX_BUS + 1 -> D <= PCI_MAX_DEVICE + 1 ->
  wp (palPcieGetBdf ClassCode StartBdf) (fun v w' => w' = w /\
    ((exists b d i, B <= b <= PCI_MAX_BUS /\ D <= d <= PCI_MAX_DEVICE /\ hit_bdf fns ClassCode b d i v /\
       (forall b' d' j, B <= b' -> D <= d' <= PCI_MAX_DEVICE -> hit fns ClassCode b' d' j ->
          b < b' \/ (b = b' /\ (d < d' \/ (d = d' /\ (i <= j)%nat))))) \/
     (v = 0 /\ forall b d j, B <= b <= PCI_MAX_BUS -> D <= d <= PCI_MAX_DEVICE -> ~ hit fns ClassCode b d j))) w.
Proof.
  intros B D Hw HB HD. unfold palPcieGetBdf. fold B D. apply wp_bind, wp_intro with w w; [done|].
  rewrite (pr_handles _ _ Hw). apply wp_bind.
  eapply wp_mono; [|apply (wp_for_acc (fun b _ w' => w' = w /\ forall b' d j, B <= b' < b -> D <= d <= PCI_MAX_DEVICE ->
      ~ hit fns ClassCode b' d j)
    (fun v w' => w' = w /\ exists b d i, B <= b <= PCI_MAX_BUS /\ D <= d <= PCI_MAX_DEVICE /\ hit_bdf fns ClassCode b d i v /\
       (forall j, (j < i)%nat -> ~ hit fns ClassCode b d j) /\ (forall d' j, D <= d' < d -> ~ hit fns ClassCode b d' j) /\
       (forall b' d' j, B <= b' < b -> D <= d' <= PCI_MAX_DEVICE -> ~ hit fns ClassCode b' d' j)))].
  - intros [x|v] w' H; apply wp_ret.
    + destruct H as (-> & H). split; [done|]. right. split; [done|]. intros b d j Hb Hd. apply H; lia.
    + destruct H as (-> & b & d & i & Hb & Hd & Hi & H1 & H2 & H3). split; [done|]. left. exists b, d, i.
      repeat split; try apply Hi; try lia. intros b' d' j Hb' Hd' Hit.
      destruct (Z.lt_trichotomy b b') as [Hlt|[<-|Hgt]]; [by left| |by destruct (H3 b' d' j ltac:(lia) ltac:(lia) Hit)].
      right. split; [done|].
      destruct (Z.lt_trichotomy d d') as [Hlt|[<-|Hgt]]; [by left| |by destruct (H2 d' j ltac:(lia) Hit)].
      right. split; [done|]. destruct (decide (i <= j)%nat) as [?|Hge]; [done|]. by destruct (H1 j ltac:(lia) Hit).
  - intros b x w' Hb (-> & Hno). eapply wp_mono; [|by apply (bus_run fns ClassCode w Hw D b)].
    intros [y|v] w' (-> & H); (split; [done|]).
    + intros b' d j Hb' Hd. destruct (decide (b' = b)) as [->|Hne]; [by apply H|]. apply Hno; lia.
    + destruct H as (d & i & Hd & Hi & H1 & H2). exists b, d, i. repeat (split; [done || lia|]). done.
  - split; [done|]. intros b' d j Hb'. lia.
Qed.
End search.

(** ** Examples *)

(** Functions that stay as they are. *)
Definition fixed_io (fns : list pci_fn) : PciIo unit :=
  {| io_handles _ := Some (length fns); io_protocol _ _ := true;
     io_location i _ := match fns !! i with
                        | Some f => (f_seg f, f_bus f, f_dev f, f_func f) | None => (0, 0, 0, 0) end;
     io_read i off n w := (f ← fns !! i; Some (take n (drop (Z.to_nat (off / 4)) (f_header f))), w);
     io_write _ _ _ w := w; rb_handles _ := None; rb_protocol _ _ := false; rb_segment _ _ := 0;
     rb_read _ _ w := (None, w); rb_write _ _ _ w := (false, w);
     header_words := 16; PCI_MAX_BUS := 255; PCI_MAX_DEVICE := 31 |}.
(** USB controllers at 0/5/0 and 1/0/0; a BAR at 0x50000000. *)
Definition usb_header : list Z := [0; 0; 0x0C0330 << 8; 0; 0x50000000] ++ replicate 11 0.
Definition two_usb : list pci_fn := [mk_fn 0 1 0 0 usb_header; mk_fn 0 0 5 0 usb_header].

Lemma controller_search_first_witness :
  palPcieGetBdf (IO := fixed_io two_usb) USB_CLASSCODE 0 tt = Done 0x500 tt.
Proof.
  assert (presents (IO := fixed_io two_usb) two_usb tt) as Hp.
  { split; [done|done| |]; intros [|[|i]] f [= <-]; done. }
  pose proof (controller_search_first (IO := fixed_io two_usb) two_usb USB_CLASSCODE 0 tt Hp ltac:(by vm_compute) ltac:(by vm_compute)) as H.
  destruct (wp_done _ _ _ H) as (v & [] & Hr & _ & [(b & d & i & _ & _ & (f & Hf & Hb & Hd & Hc & ->) & Hfirst)|(-> & Hno)]).
  - rewrite Hr. destruct (Hfirst 0 5 1%nat ltac:(by vm_compute) ltac:(by vm_compute)) as [Hlt|(H0 & Hrest)].
    { eexists. split; [reflexivity|]. by repeat split. }
    { destruct i as [|[|i]]; revert Hf; intros [= <-]; cbn in Hb; lia. }
    destruct i as [|[|i]]; revert Hf; intros [= <-]; cbn in Hb; [lia|]. reflexivity.
  - exfalso. apply (Hno 0 5 1%nat ltac:(by vm_compute) ltac:(by vm_compute)).
    eexists. split; [reflexivity|]. by repeat split.
Defined.

(** The second of the two is not found: behind device 5 every bus is searched from
    device 6 on. *)
Definition raw_peripheral : PERIPHERAL_INFO_BLOCK := mk_per 0 0 0 0 0 0 0 0 0.
Example second_usb_missed :
  (match pal_peripheral_create_info_table (IO := fixed_io two_usb) ∅ 10 0
           (mk_per_table 9 9 9 9 (replicate 4 raw_peripheral)) tt with
   | Done t _ => Some (num_usb t, num_all t) | _ => None end) = Some (1, 9).
Proof. by vm_compute. Qed.

(** A pool that always gives the same address. *)
Definition pool_at (a : Z) : BootServices unit :=
  {| AllocatePool _ w := (Some a, w); FreePool _ w := w; AllocatePages _ w := (None, w);
     FreePages _ _ w := w; CpuArch _ := false; SetMemoryAttributes _ _ w := (false, w);
     Stall _ w := w; EFI_PAGE_SIZE := 4096; EFI_SIZE_TO_PAGES n := (n + 4095) >> 12 |}.
Definition no_memory : uefi unit := mk_uefi ∅ tt 0.
Lemma aligned_alloc_inside_witness :
  wp (pal_aligned_alloc (BS := pool_at 0x80001008) (2 ^ 12) 100) (fun a _ => a mod 2 ^ 12 = 0 /\ 0x80001008 <= a) no_memory.
Proof.
  eapply wp_mono; [|apply (aligned_alloc_inside (BS := pool_at 0x80001008) 12 100 no_memory 0x80001008 tt);
    [lia|lia|lia|reflexivity|lia|lia]].
  intros a s' (H & Hb & _). by split.
Defined.
Lemma test_data_roundtrip_witness :
  wp (pal_save_global_test_data (W := unit) 0xF000 10 7 3 ;; pal_restore_global_test_data 0xF000)
    (fun r _ => r = (10, 7, 3)) no_memory.
Proof. apply (test_data_roundtrip 0xF000 10 7 3 no_memory); lia. Defined.

(** ** The search for the capability that injects errors *)

(** Devices that are memory. *)
Definition plain_hw : Hw mem := {| hw_read n d a := (load n d a, d); hw_write n d a v := store n d a v;
     hw_at_s1e3w _ _ _ := 0 |}.
(** Two vendor capabilities in the configuration space of function 0/0/0 at
    0x40000000, the second of which injects errors; behind the first one's control
    register the search reads the pointer of that register, which is 0. *)
Definition two_dvsecs : mem :=
  fields [(4%nat, 0x40000100, 0x14000023); (4%nat, 0x40000108, 0x2);
          (4%nat, 0x40000140, 0x00000023); (4%nat, 0x40000148, 0x1)] ∅.
Example error_injection_missed :
  match pal_exerciser_find_error_injection_capability (W := unit) (HW := plain_hw) 0x40000000 9 0 (mk_ux tt two_dvsecs),
        pal_exerciser_find_error_injection_capability (W := unit) (HW := plain_hw) 0x40000000 9 0
          (mk_ux tt (store 4 two_dvsecs 0x40000108 0x14000002)) with
  | Done r _, Done r' _ => Some (r, r')
  | _, _ => None
  end = Some ((1, None), (0, Some 0x140)).
Proof. by vm_compute. Qed.
